(* ===== verification/_CoqProject ===== *)
-Q . S2P
Prelude.v
KString.v
Riscv.v
Kalloc.v
Vm.v
VmProof.v
VmMap.v
Bytes.v
Locks.v
BlockCache.v
Log.v
LogProof.v
LogCrash.v
LogTx.v
LogSpace.v
Dll.v
Bio.v
BioRefine.v
LogSpec.v
UserMem.v
Pipe.v
TxStore.v
Fs.v
FsDir.v
FsPath.v
FsBlocks.v
FsInode.v
FsContent.v
FsRead.v
FsWrite.v
FsWritei.v
FsWriteThm.v
FsNamex.v
FsDirlink.v
Mkfs.v
MkfsAppend.v
MkfsImage.v
MkfsThm.v
MkfsSpec.v
MkfsKernel.v
File.v
FileProof.v
Console.v
UartTx.v
UartTxProof.v
Proc.v
ProcProof.v
ProcInv.v
ProcSys.v
ProcThm.v
Syscall.v
SyscallProof.v
Trap.v
TrapProof.v
Sysfile.v
Exec.v
SysfileProof.v
DescThm.v
ExecProof.v
Virtio.v
VirtioSys.v
VirtioProof.v
VirtioThm.v
Ulib.v
Grep.v
GrepProof.v
Printf.v
PrintfProof.v
Sh.v
ShProof.v
ShRun.v
Umalloc.v
UmallocProof.v
User.v
UserWp.v
UserProof.v
Boot.v
BootProof.v
UserMain.v
UserMainProof.v
