(* ===== verification/Prelude.v ===== *)
(** A verification library of an xv6 operating system for RISC-V
    (src/kernel, with its user programs under src/).

    The kernel is C with the state in global tables.  The library translates
    its routines into executable definitions over explicit state and proves
    what makes each part correct; this page says which file holds what, how the
    state and the operations correspond to the code, what the theorems show,
    and what is left out.

    ** Conventions

    - A routine that changes state is a value of [M S A], a function from a
      state to an [outcome]: it returns ([Ret]), panics ([Panic], with the
      message of the C code), goes to sleep ([Sleep], with the state it leaves
      to others), or exhausts the fuel that bounds one of its loops
      ([Diverge]).  [zoom] runs a routine of one component on its part of the
      state of another.
    - [int], [uint], [uint64] are [Z] with [i32], [u32], [u64] where the code
      can wrap.  A C boolean is a [bool].  Console messages are not modelled;
      the statistics counters are.
    - A pointer into a table is an index, a null pointer [None]; memory that
      the kernel addresses as bytes (pages, page tables, trapframes, strings)
      is one total map from addresses to bytes, [mem].
    - Fuel is a size of the state at the call (the bytes left, the blocks of
      the disk, the depth of a page table, the length of a path, the tests in
      the code), and a theorem that says what a routine returns excludes
      [Diverge], so the fuel is part of what is proved.
    - Each routine is one atomic step between two points where it can lose the
      CPU or a lock; Locks.v proves the mutual exclusion this rests on, and
      LogSpace.v, Pipe.v and ProcSys.v interleave such steps.

    - A program that makes system calls is an interaction tree over them
      ([sysE] of User.v).  What holds at every moment of a run, whatever the
      kernel answers, is proved with the weakest preconditions of UserWp.v.

    ** Files: the kernel, from the hardware up

    - Prelude: machine integers, the monad and its notation, counters, tactics
      and the lemmas on lists and runs the others share.
    - KString (string.c), Riscv (riscv.h, memlayout.h), Bytes: the byte memory
      and integers inside blocks.
    - Kalloc (kalloc.c): pages, the free list threaded through them, counters.
      The set of free and used pages is an invariant partition.
    - Vm (vm.c), VmProof, VmMap: Sv39 page tables in memory.  [xlate] is the
      translation a table denotes; mappages and uvmunmap change exactly the
      range asked for, and only the allocator's pages.
    - Locks (spinlock.c, sleeplock.c): interrupt nesting and mutual exclusion.
    - Dll, BlockCache, Bio (bio.c), BioRefine: [BlockCache] is the class that
      states what a buffer cache promises; bio.c, with its LRU list of [prev]
      and [next] links, is an instance by refinement ([bio_refines_contract]).
    - Virtio (virtio_disk.c), VirtioSys, VirtioProof, VirtioThm: the disk
      driver.  [VirtioSys] interleaves the pieces of concurrent requests, the
      interrupt handler and the device's own steps, and has the abstract disk
      that this system refines.
    - Log (log.c), LogProof, LogCrash, LogTx, LogSpace, LogSpec: the redo log
      on any [BlockCache].  [transaction_crash_atomic] quantifies over every
      point at which the machine may stop, recovery included.
    - TxStore, UserMem: the interfaces the file system is written against,
      transactions below and the memory of the process above.
    - Fs (fs.c below directories), FsBlocks, FsInode, FsContent, FsRead,
      FsWrite, FsWritei, FsWriteThm: block allocator, inode table, and the
      contents of files.  [FsContent] reads the tree of block addresses of an
      inode without the kernel's code, and is shared with mkfs.
    - FsDir (directories and paths of fs.c), FsPath, FsNamex, FsDirlink:
      [walk] of FsNamex is the reference reading of a path off the directories.
    - Pipe (pipe.c), File (file.c and pipealloc), FileProof: the ring buffer as
      a queue, the table of open files and the pages of its pipes.
    - Console (console.c, the receive side of uart.c): the ring with its three
      indices, interrupts and reads interleaved, against an abstract line
      discipline.
    - UartTx (consolewrite, the transmit side of uart.c), UartTxProof: writers,
      printing harts, the interrupt handler and the device as steps.
    - Proc (proc.c), ProcProof, ProcInv, ProcSys, ProcThm: the process table.
      [sys_step] of ProcSys is one step of any hart; the theorems hold in
      every state reachable from [procinit] and [userinit].  [FileEnv] is the
      interface of the file calls proc.c makes; [file_env] of Sysfile is the
      instance on the file table.
    - Syscall (syscall.c, sysproc.c), SyscallProof, Trap (trap.c), TrapProof:
      arguments, dispatch, the calls on processes, and the way in and out of
      the kernel with the supervisor registers.
    - Sysfile (sysfile.c), SysfileProof, DescThm: the file system calls, and
      the agreement of descriptors and reference counts over all processes.
    - Exec (exec.c, elf.h), ExecProof: program loading on the page tables, the
      file system and the process table.
    - Printf (both printf.c), PrintfProof: formatted printing.
    - Boot (start.c, main.c, plic.c, the register accesses of riscv.h),
      BootProof: every hart from reset to the scheduler, and [forkret] and
      [procdump] of proc.c.

    ** Files: user programs and mkfs

    - Ulib (ulib.c), Umalloc (umalloc.c), UmallocProof: strings and memory, and
      the allocator on its circular list.
    - Grep (grep.c), GrepProof: the matcher and the filter over lines.
    - Sh (sh.c), ShProof, ShRun: the parser on the line in memory, and what the
      commands it builds are connected to.  [runs] of ShRun follows every
      success and failure of the calls, [outcome] is the meaning of a command.
    - User (cat, echo, kill, rm, mkdir, ln, ls, init, forktest, forphan, dorphan,
      logstress, grind), UserWp, UserProof; UserMain (the main programs of grep
      and sh), UserMainProof.
    - Mkfs (mkfs.c), MkfsAppend, MkfsImage, MkfsThm, MkfsSpec, MkfsKernel: the
      image file as a list of files, and the kernel's fs.c on that image.

    ** What the theorems show

    Safety of the disk: transactions are atomic under a crash at any write and
    durable after end_op; recovery may itself be interrupted; the log's space
    is never exceeded; the cache under it holds the blocks it claims to; the
    driver under that shows its callers one transfer per request that reports
    success and none per request that reports failure, up to the first time a
    caller that has been woken 10001 times leaves a request with the device.
    Files: writei puts bytes where readi finds them and nowhere else, with the
    bitmap in agreement; namex finds what the directories say and keeps the
    reference counts; dirlink adds one name.  mkfs builds the file system it
    is asked for, and the kernel reads every file back from it.
    Resources: pages, buffers, inodes, open files and pipes are neither lost
    nor used after they are freed, over arbitrary sequences of calls.
    Processes: states and harts match, no process is orphaned, no wake-up of
    wait is lost, exit hands over children and status, kill and sbrk stay
    within their limits, a system call returns where and what it should, exec
    replaces the whole image or nothing, and no hart runs a process before
    hart 0 has initialised the kernel and the hart itself is ready.
    Data: pipes and the console, in both directions, deliver what was written,
    in order, but for a byte whose copy to user memory fails; address
    translation is exactly what was mapped; string routines, formatted printing
    (against a table of directives of its own) and paths meet their
    specifications.
    Programs: the shell's parser accepts a grammar and always stops, its
    commands are connected as they say, whichever of their calls fail, and no
    line it reads ends it unless it starts with a nul byte; the allocator's
    blocks never overlap, for requests of less than 2^31 bytes; grep decides its regular expressions;
    cat copies; init keeps one shell; grind keeps its descriptors.
    Where the code does something other than it means to, a theorem states that
    too ([bunpin_wraps], [full_log_commit_panics], [piperead_drops_byte],
    [kexec_uninitialised_ip], [malloc_wraps]).

    ** Bounds and assumptions

    Table sizes are those of param.h.  Theorems about the process table assume
    fewer than 2^31 - 1 processes were ever created ([nextpid] is an [int]).
    A pipe's and the console's counters wrap at 2^32, and the theorems cover
    the wrap.  FsWrite and its users take a disk with one bitmap block, as mkfs
    makes it.  mkfs runs on a little-endian host, and its accesses to the image
    succeed.  The UART has a FIFO of 16 bytes and interrupts when it is empty.
    A device, where it takes part, makes steps of its own between those of the
    code, each atomic.  Above the driver a disk request is one transfer.
    Registers keep of a value written to them what [hardware_ok] of BootProof
    says.  The memory of a process is seen through page tables in Vm, Syscall,
    Trap and Exec and through the class [UserMem] in Fs, Pipe and File; the
    two views are not connected.  In DescThm a file call that waits counts when
    it returns.

    ** Not modelled

    Assembly (entry.S, swtch.S, kernelvec.S, trampoline.S): it saves and
    restores registers, and a switch is a step of the model.  Routines that
    only print: statistics, debugging listings other than procdump, and the
    messages of the kernel's routines; a panicked kernel does nothing more.
    The initialisations that main.c calls are modelled in the files of their
    components; Boot has their order.  [snprintf], which logstress calls and
    no file defines, is a parameter. *)

From stdpp Require Export base list gmap strings.
From Stdlib Require Export ZArith Lia.

#[global] Open Scope Z_scope.
#[export] Set Warnings "-clear-no-such-hyp".

(** ** Machine integers

    The kernel is compiled for RV64: [char] is unsigned, [int] is 32 bits,
    [long] and pointers are 64 bits.  A value of a [w]-bit unsigned type is a
    [Z] in [0, 2^w); conversions and overflowing arithmetic wrap. *)

Definition u8 (x : Z) : Z := x mod 2 ^ 8.
Definition u16 (x : Z) : Z := x mod 2 ^ 16.
Definition u32 (x : Z) : Z := x mod 2 ^ 32.
Definition u64 (x : Z) : Z := x mod 2 ^ 64.
Definition i16 (x : Z) : Z := (x + 2 ^ 15) mod 2 ^ 16 - 2 ^ 15.
Definition i32 (x : Z) : Z := (x + 2 ^ 31) mod 2 ^ 32 - 2 ^ 31.

Lemma u32_small x : 0 <= x < 2 ^ 32 -> u32 x = x.
Proof. apply Z.mod_small. Qed.
Lemma u64_small x : 0 <= x < 2 ^ 64 -> u64 x = x.
Proof. apply Z.mod_small. Qed.
Lemma u8_small x : 0 <= x < 2 ^ 8 -> u8 x = x.
Proof. apply Z.mod_small. Qed.
Lemma i32_small x : - 2 ^ 31 <= x < 2 ^ 31 -> i32 x = x.
Proof. intros. unfold i32. rewrite Z.mod_small; lia. Qed.
Lemma u8_range x : 0 <= u8 x < 256.
Proof. apply Z.mod_pos_bound. lia. Qed.
Lemma u32_range x : 0 <= u32 x < 2 ^ 32.
Proof. apply Z.mod_pos_bound. lia. Qed.
Lemma u64_range x : 0 <= u64 x < 2 ^ 64.
Proof. apply Z.mod_pos_bound. lia. Qed.

(** Truth value of a C expression, and a C boolean as an [int]. *)
Definition truth (x : Z) : bool := negb (x =? 0).
Definition cbool (b : bool) : Z := if b then 1 else 0.

(** ** Counter structures

    The statistics blocks of the kernel ([string_stats], [bio_stats], ...) are
    structs whose fields are all [uint64] counters.  Such a struct is a
    function from its field names. *)

Definition counters (F : Type) : Type := F -> Z.
Definition incr {F} `{EqDecision F} (f : F) (c : counters F) : counters F :=
  fun g => if decide (g = f) then u64 (c g + 1) else c g.
Definition zero_counters {F} : counters F := fun _ => 0.

Lemma incr_eq {F} `{EqDecision F} (f : F) c : incr f c f = u64 (c f + 1).
Proof. unfold incr. by rewrite decide_True. Qed.
Lemma incr_ne {F} `{EqDecision F} (f g : F) c : g <> f -> incr f c g = c g.
Proof. intros. unfold incr. by rewrite decide_False. Qed.

(** ** Outcomes and the kernel monad

    A kernel routine runs on a state and either returns, panics (the machine
    stops), goes to [sleep()] in a given state (the process is descheduled at
    that point), or has run out of the fuel that bounds a loop of the model.
    [Diverge] is never a result of the C code: theorems that state what a
    routine returns exclude it. *)

Inductive outcome (S A : Type) : Type :=
| Ret (a : A) (s : S)
| Panic (msg : string)
| Sleep (s : S)
| Diverge.
Arguments Ret {S A} _ _.
Arguments Panic {S A} _.
Arguments Sleep {S A} _.
Arguments Diverge {S A}.

Definition M (S A : Type) : Type := S -> outcome S A.

Definition mreturn {S A} (a : A) : M S A := fun s => Ret a s.
Definition mthen {S A B} (m : M S A) (k : A -> M S B) : M S B :=
  fun s =>
    match m s with
    | Ret a s' => k a s'
    | Panic msg => Panic msg
    | Sleep s' => Sleep s'
    | Diverge => Diverge
    end.
Definition panic {S A} (msg : string) : M S A := fun _ => Panic msg.
Definition sleep {S A} : M S A := fun s => Sleep s.
Definition diverge {S A} : M S A := fun _ => Diverge.
Definition gets {S A} (f : S -> A) : M S A := fun s => Ret (f s) s.
Definition modify {S} (f : S -> S) : M S () := fun s => Ret tt (f s).
Definition skip {S} : M S () := mreturn tt.

(** Run a routine of a component on the part of the state it owns. *)
Definition zoom {S T A} (get : S -> T) (set : T -> S -> S) (m : M T A) : M S A :=
  fun s =>
    match m (get s) with
    | Ret a t => Ret a (set t s)
    | Panic msg => Panic msg
    | Sleep t => Sleep (set t s)
    | Diverge => Diverge
    end.

Declare Scope kernel_scope.
Delimit Scope kernel_scope with kernel.
Notation "'let*' x ':=' m 'in' k" := (mthen m (fun x => k))
  (at level 10, x name, m at level 200, k at level 200) : kernel_scope.
Notation "m ';;;' k" := (mthen m (fun _ => k))
  (at level 199, right associativity) : kernel_scope.
Notation "'when' b 'do' m" := (if b then m else skip)
  (at level 198, b at level 100, m at level 198) : kernel_scope.
#[global] Open Scope kernel_scope.

(** [for (i in l) body] *)
Fixpoint mfor {S X} (l : list X) (body : X -> M S ()) : M S () :=
  match l with
  | [] => skip
  | x :: l' => body x ;;; mfor l' body
  end.

Lemma mthen_ret {S A B} (m : M S A) (k : A -> M S B) s a s' :
  m s = Ret a s' -> mthen m k s = k a s'.
Proof. unfold mthen. by intros ->. Qed.

Lemma mthen_gets {S A B} (f : S -> A) (k : A -> M S B) s : mthen (gets f) k s = k (f s) s.
Proof. done. Qed.
Lemma mthen_modify {S A} (f : S -> S) (k : () -> M S A) s : mthen (modify f) k s = k tt (f s).
Proof. done. Qed.

Lemma mfor_app {S X} (l1 l2 : list X) (body : X -> M S ()) s s' :
  mfor l1 body s = Ret tt s' -> mfor (l1 ++ l2) body s = mfor l2 body s'.
Proof.
  revert s. induction l1 as [|x l1 IH]; intros s; simpl; [by intros [= ->]|].
  unfold mthen. destruct (body x s); try done. apply IH.
Qed.

(** Induction over the iterations of a loop: [P i] holds of the state before
    iteration [i]. *)
Lemma mfor_inv {S} (P : nat -> S -> Prop) (body : nat -> M S ()) n s :
  P 0%nat s -> (forall i s, (i < n)%nat -> P i s -> exists s', body i s = Ret tt s' /\ P (Datatypes.S i) s') ->
  exists s', mfor (seq 0 n) body s = Ret tt s' /\ P n s'.
Proof.
  intros H0 Hstep. induction n as [|n IH]; [by exists s|].
  destruct IH as (s1 & Hr & HP); [intros; apply Hstep; [lia|done]|].
  destruct (Hstep n s1 ltac:(lia) HP) as (s2 & Hb & HP2). exists s2. split; [|done].
  rewrite seq_S. rewrite (mfor_app _ _ _ _ _ Hr). simpl. by rewrite (mthen_ret _ _ _ _ _ Hb).
Qed.

(** [monad] unfolds the structural combinators of a run. *)
Ltac monad :=
  cbv beta delta [mreturn gets modify skip mthen zoom panic sleep diverge] in *; cbv beta iota in *.

(** Updating an element in place is inserting its new value. *)
Lemma alter_insert {A} (f : A -> A) (l : list A) i x : l !! i = Some x -> alter f i l = <[i := f x]> l.
Proof.
  intros Hx. apply list_eq. intros j. destruct (decide (i = j)) as [<-|Hne].
  - rewrite list_lookup_alter_eq, Hx. symmetry. apply list_lookup_insert_eq. by eapply lookup_lt_Some.
  - by rewrite list_lookup_alter_ne, list_lookup_insert_ne.
Qed.

(** Hint database of the development: bounds of machine integers and the
    facts of the components that close side conditions. *)
Create HintDb kernel.
#[export] Hint Resolve u8_range u32_range u64_range : kernel.

(** Case analysis on the boolean comparisons of the C conditions. *)
Ltac bcase :=
  match goal with
  | |- context [?a =? ?b] => destruct (Z.eqb_spec a b)
  | |- context [?a <? ?b] => destruct (Z.ltb_spec a b)
  | |- context [?a <=? ?b] => destruct (Z.leb_spec a b)
  | |- context [?a >? ?b] => rewrite (Z.gtb_ltb a b)
  | |- context [?a >=? ?b] => rewrite (Z.geb_leb a b)
  end.
Ltac bcase_in H :=
  match type of H with
  | context [?a =? ?b] => destruct (Z.eqb_spec a b)
  | context [?a <? ?b] => destruct (Z.ltb_spec a b)
  | context [?a <=? ?b] => destruct (Z.leb_spec a b)
  | context [?a >? ?b] => rewrite (Z.gtb_ltb a b) in H
  | context [?a >=? ?b] => rewrite (Z.geb_leb a b) in H
  end.

(** [lia] on goals with division and remainder by constants. *)
Ltac dlia := Z.to_euclidean_division_equations; lia.

(** Split hypotheses: conjunctions, existentials, and equations between
    constructors. *)
Ltac crush_eq := repeat (progress (simplify_eq/= || destruct_and?)).
