(* ===== verification/KString.v ===== *)
(** Kernel string and memory routines (src/kernel/string.c).

    Memory is a total map from addresses to bytes, so that [memmove] works on
    overlapping regions of one store.  Pointer arithmetic stays inside an
    object in C, so addresses are added without wrap-around.  The [printf]
    calls of the debug and error paths do not change the modelled state. *)

From S2P Require Import Prelude.

(** ** State *)

Definition mem : Type := Z -> Z.
Definition store8 (m : mem) (a v : Z) : mem := fun x => if x =? a then u8 v else m x.

Inductive string_stat :=
| memset_calls | memcmp_calls | memmove_calls | memcpy_calls | strncmp_calls
| strncpy_calls | safestrcpy_calls | strlen_calls | null_pointer_errors | bounds_errors.
#[global] Instance string_stat_eq_dec : EqDecision string_stat.
Proof. solve_decision. Defined.

Record kst := Kst { k_mem : mem; string_stats : counters string_stat }.

Definition count (f : string_stat) : M kst () :=
  modify (fun s => Kst (k_mem s) (incr f (string_stats s))).
Definition set_mem (m : mem) : M kst () := modify (fun s => Kst m (string_stats s)).

(** ** Operations *)

Definition validate_ptr (ptr : Z) : M kst bool :=
  if ptr =? 0 then count null_pointer_errors ;;; mreturn false else mreturn true.

Definition validate_bounds (n max_size : Z) : M kst bool :=
  if n >? max_size then count bounds_errors ;;; mreturn false else mreturn true.

(** [!validate_ptr(a) || !validate_ptr(b)]: the second test only runs when the
    first pointer is valid. *)
Definition validate_ptrs (a b : Z) : M kst bool :=
  let* ok := validate_ptr a in
  if ok then validate_ptr b else mreturn false.

Fixpoint memset_loop (k : nat) (m : mem) (cdst c i : Z) : mem :=
  match k with
  | O => m
  | S k' => memset_loop k' (store8 m (cdst + i) c) cdst c (i + 1)
  end.

Definition memset (dst c n : Z) : M kst Z :=
  count memset_calls ;;;
  let* ok := validate_ptr dst in
  if negb ok then mreturn dst else
  let* ok := validate_bounds n (1024 * 1024) in
  if negb ok then mreturn dst else
  let* m := gets k_mem in
  set_mem (memset_loop (Z.to_nat n) m dst c 0) ;;;
  mreturn dst.

Fixpoint memcmp_loop (n : nat) (m : mem) (s1 s2 : Z) : Z :=
  match n with
  | O => 0
  | S n' => if negb (m s1 =? m s2) then m s1 - m s2
            else memcmp_loop n' m (s1 + 1) (s2 + 1)
  end.

Definition memcmp (v1 v2 n : Z) : M kst Z :=
  count memcmp_calls ;;;
  let* ok := validate_ptrs v1 v2 in
  if negb ok then mreturn 0 else
  let* ok := validate_bounds n (1024 * 1024) in
  if negb ok then mreturn 0 else
  let* m := gets k_mem in
  mreturn (memcmp_loop (Z.to_nat n) m v1 v2).

(** [while(n-- > 0) *--d = *--s;] and [while(n-- > 0) *d++ = *s++;] *)
Fixpoint copy_backward (n : nat) (m : mem) (d s : Z) : mem :=
  match n with
  | O => m
  | S n' => copy_backward n' (store8 m (d - 1) (m (s - 1))) (d - 1) (s - 1)
  end.
Fixpoint copy_forward (n : nat) (m : mem) (d s : Z) : mem :=
  match n with
  | O => m
  | S n' => copy_forward n' (store8 m d (m s)) (d + 1) (s + 1)
  end.

Definition memmove (dst src n : Z) : M kst Z :=
  count memmove_calls ;;;
  let* ok := validate_ptrs dst src in
  if negb ok then mreturn dst else
  let* ok := validate_bounds n (1024 * 1024) in
  if negb ok then mreturn dst else
  if n =? 0 then mreturn dst else
  let* m := gets k_mem in
  set_mem (if (src <? dst) && (src + n >? dst)
           then copy_backward (Z.to_nat n) m (dst + n) (src + n)
           else copy_forward (Z.to_nat n) m dst src) ;;;
  mreturn dst.

Definition memcpy (dst src n : Z) : M kst Z :=
  count memcpy_calls ;;; memmove dst src n.

Fixpoint strncmp_loop (n : nat) (m : mem) (p q : Z) : Z :=
  match n with
  | O => 0
  | S n' => if truth (m p) && (m p =? m q) then strncmp_loop n' m (p + 1) (q + 1)
            else m p - m q
  end.

Definition strncmp (p q n : Z) : M kst Z :=
  count strncmp_calls ;;;
  let* ok := validate_ptrs p q in
  if negb ok then mreturn 0 else
  let* ok := validate_bounds n 1024 in
  if negb ok then mreturn 0 else
  let* m := gets k_mem in
  mreturn (strncmp_loop (Z.to_nat n) m p q).

(** The copying loop leaves the remaining count, the memory and the cursor;
    the second loop pads with zeros. *)
Fixpoint strncpy_copy (n : nat) (m : mem) (s t : Z) : nat * mem * Z :=
  match n with
  | O => (O, m, s)
  | S n' => let m' := store8 m s (m t) in
            if m t =? 0 then (n', m', s + 1) else strncpy_copy n' m' (s + 1) (t + 1)
  end.
Fixpoint strncpy_pad (n : nat) (m : mem) (s : Z) : mem :=
  match n with
  | O => m
  | S n' => strncpy_pad n' (store8 m s 0) (s + 1)
  end.

Definition strncpy (s t n : Z) : M kst Z :=
  count strncpy_calls ;;;
  let* ok := validate_ptrs s t in
  if negb ok then mreturn s else
  if n <? 0 then mreturn s else
  let* ok := validate_bounds (u32 n) 1024 in
  if negb ok then mreturn s else
  let* m := gets k_mem in
  let '(n', m', s') := strncpy_copy (Z.to_nat n) m s t in
  set_mem (strncpy_pad n' m' s') ;;;
  mreturn s.

(** [while(--n > 0 && ( *s++ = *t++) != 0)]; [k] is the decremented count. *)
Fixpoint safestrcpy_loop (k : nat) (m : mem) (s t : Z) : mem * Z :=
  match k with
  | O => (m, s)
  | S k' => let m' := store8 m s (m t) in
            if m t =? 0 then (m', s + 1) else safestrcpy_loop k' m' (s + 1) (t + 1)
  end.

Definition safestrcpy (s t n : Z) : M kst Z :=
  count safestrcpy_calls ;;;
  let* ok := validate_ptrs s t in
  if negb ok then mreturn s else
  if n <=? 0 then mreturn s else
  let* ok := validate_bounds (u32 n) 1024 in
  if negb ok then mreturn s else
  let* m := gets k_mem in
  let '(m', s') := safestrcpy_loop (Z.to_nat (n - 1)) m s t in
  set_mem (store8 m' s' 0) ;;;
  mreturn s.

Fixpoint strlen_loop (fuel : nat) (m : mem) (s n : Z) : option Z :=
  match fuel with
  | O => None
  | S fuel' => if m (s + n) =? 0 then Some n
               else if n >? 4096 then Some n
               else strlen_loop fuel' m s (n + 1)
  end.

(** The guard at 4096 bounds the loop: 4098 iterations are always enough. *)
Definition strlen (s : Z) : M kst Z :=
  count strlen_calls ;;;
  let* ok := validate_ptr s in
  if negb ok then mreturn 0 else
  let* m := gets k_mem in
  match strlen_loop 4098 m s 0 with Some n => mreturn n | None => diverge end.

Definition reset_string_stats : M kst () :=
  modify (fun s => Kst (k_mem s) zero_counters).

Fixpoint safe_strcmp_loop (fuel : nat) (m : mem) (s1 s2 : Z) : option Z :=
  match fuel with
  | O => None
  | S fuel' => if truth (m s1) && truth (m s2) && (m s1 =? m s2)
               then safe_strcmp_loop fuel' m (s1 + 1) (s2 + 1)
               else Some (m s1 - m s2)
  end.

Definition safe_strcmp (fuel : nat) (s1 s2 : Z) : M kst Z :=
  if (s1 =? 0) && (s2 =? 0) then mreturn 0 else
  if s1 =? 0 then mreturn (-1) else
  if s2 =? 0 then mreturn 1 else
  let* m := gets k_mem in
  match safe_strcmp_loop fuel m s1 s2 with Some r => mreturn r | None => diverge end.

(** ** Specifications *)

(** Every cell holds a byte. *)
Definition byte_mem (m : mem) : Prop := forall a, 0 <= m a < 256.

(** The C string at [p], cut at [n] bytes. *)
Fixpoint strn (n : nat) (m : mem) (p : Z) : list Z :=
  match n with
  | O => []
  | S n' => if m p =? 0 then [] else m p :: strn n' m (p + 1)
  end.

(** ** Loops *)

Ltac mem_cases := unfold store8 in *; repeat bcase; simpl in *; subst; try lia.

Lemma store8_byte m a v : byte_mem m -> byte_mem (store8 m a v).
Proof. intros H x. unfold store8. bcase; [apply u8_range | apply H]. Qed.
#[export] Hint Resolve store8_byte : kernel.

Lemma byte_u8 m a : byte_mem m -> u8 (m a) = m a.
Proof. intros H. apply u8_small, H. Qed.

Lemma memset_loop_spec k m dst c i a :
  memset_loop k m dst c i a
  = if (dst + i <=? a) && (a <? dst + i + Z.of_nat k) then u8 c else m a.
Proof.
  revert m i. induction k as [|k IH]; intros m i; cbn [memset_loop].
  - repeat bcase; simpl; lia || done.
  - rewrite IH. mem_cases; done.
Qed.

Lemma copy_forward_spec n m d s a :
  byte_mem m -> ~ (s < d < s + Z.of_nat n) ->
  copy_forward n m d s a
  = if (d <=? a) && (a <? d + Z.of_nat n) then m (s + (a - d)) else m a.
Proof.
  revert m d s. induction n as [|n IH]; intros m d s Hm Hov; cbn [copy_forward copy_backward].
  - repeat bcase; simpl; lia || done.
  - rewrite IH by (auto with kernel; lia).
    unfold store8. rewrite (byte_u8 m s) by done.
    replace (s + 1 + (a - (d + 1))) with (s + (a - d)) by lia.
    repeat bcase; simpl; try lia; try done; f_equal; lia.
Qed.

Lemma copy_backward_spec n m d s a :
  byte_mem m -> s <= d ->
  copy_backward n m d s a
  = if (d - Z.of_nat n <=? a) && (a <? d) then m (s - (d - a)) else m a.
Proof.
  revert m d s. induction n as [|n IH]; intros m d s Hm Hov; cbn [copy_forward copy_backward].
  - repeat bcase; simpl; lia || done.
  - rewrite IH by (auto with kernel; lia). unfold store8. rewrite (byte_u8 m) by done.
    replace (s - 1 - (d - 1 - a)) with (s - (d - a)) by lia.
    repeat bcase; simpl; try lia; try done; f_equal; lia.
Qed.

Lemma memcmp_loop_zero n m p q :
  memcmp_loop n m p q = 0 <-> (forall i, 0 <= i < Z.of_nat n -> m (p + i) = m (q + i)).
Proof.
  revert p q. induction n as [|n IH]; intros p q; simpl.
  - split; [lia | done].
  - destruct (Z.eqb_spec (m p) (m q)) as [E|E]; simpl.
    + rewrite IH. split; intros H i Hi.
      * destruct (decide (i = 0)) as [->|]; [by rewrite !Z.add_0_r|].
        specialize (H (i - 1) ltac:(lia)).
        by replace (p + 1 + (i - 1)) with (p + i) in H by lia;
           replace (q + 1 + (i - 1)) with (q + i) in H by lia.
      * replace (p + 1 + i) with (p + (i + 1)) by lia.
        replace (q + 1 + i) with (q + (i + 1)) by lia. apply H. lia.
    + split; [lia|]. intros H. specialize (H 0 ltac:(lia)). rewrite !Z.add_0_r in H. lia.
Qed.

(** The sign of a non-zero result is that of the first differing byte. *)
Lemma memcmp_loop_diff n m p q :
  memcmp_loop n m p q <> 0 ->
  exists i, 0 <= i < Z.of_nat n /\ memcmp_loop n m p q = m (p + i) - m (q + i)
    /\ (forall j, 0 <= j < i -> m (p + j) = m (q + j)).
Proof.
  revert p q. induction n as [|n IH]; intros p q; simpl; [done|].
  destruct (Z.eqb_spec (m p) (m q)) as [E|E]; simpl; intros H.
  - destruct (IH _ _ H) as (i & Hi & Hv & Hj). exists (i + 1).
    split; [lia|]. split.
    + rewrite Hv. do 2 f_equal; lia.
    + intros j ?. destruct (decide (j = 0)) as [->|]; [by rewrite !Z.add_0_r|].
      specialize (Hj (j - 1) ltac:(lia)).
      by replace (p + 1 + (j - 1)) with (p + j) in Hj by lia;
         replace (q + 1 + (j - 1)) with (q + j) in Hj by lia.
  - exists 0. rewrite !Z.add_0_r. repeat split; lia.
Qed.

Lemma strncmp_loop_zero n m p q :
  strncmp_loop n m p q = 0 <-> strn n m p = strn n m q.
Proof.
  revert p q. induction n as [|n IH]; intros p q; simpl; [done|].
  unfold truth. destruct (Z.eqb_spec (m p) 0) as [E|E]; simpl.
  - rewrite E. destruct (Z.eqb_spec (m q) 0) as [E'|E']; simpl; split; try lia; done.
  - destruct (Z.eqb_spec (m p) (m q)) as [E'|E']; simpl.
    + rewrite IH, <-E'. destruct (Z.eqb_spec (m p) 0); [done|].
      split; [by intros -> | by intros [=]].
    + split; [lia|]. destruct (Z.eqb_spec (m q) 0); intros [=]; congruence.
Qed.

Arguments memset_loop : simpl never.
Arguments copy_forward : simpl never.
Arguments copy_backward : simpl never.

(** ** Strings *)

Lemma strn_length n m p : (length (strn n m p) <= n)%nat.
Proof. revert p. induction n; intros p; simpl; [lia|]. bcase; simpl; [lia|]. specialize (IHn (p + 1)). lia. Qed.

Lemma strn_nonzero n m p : Forall (fun c => c <> 0) (strn n m p).
Proof. revert p. induction n; intros p; simpl; [done|]. bcase; by constructor. Qed.

Lemma strn_ext n m m' p :
  (forall i, 0 <= i < Z.of_nat n -> m (p + i) = m' (p + i)) -> strn n m p = strn n m' p.
Proof.
  revert p. induction n as [|n IH]; intros p H; simpl; [done|].
  pose proof (H 0 ltac:(lia)) as H0. rewrite !Z.add_0_r in H0. rewrite H0.
  bcase; [done|]. f_equal. apply IH. intros i ?.
  replace (p + 1 + i) with (p + (i + 1)) by lia. apply H. lia.
Qed.

(** A region that spells out a list of non-zero bytes followed by NUL holds
    that string. *)
Lemma strn_spelled n m p l :
  Forall (fun c => c <> 0) l -> (length l <= n)%nat ->
  (forall i, (i < n)%nat -> (i <= length l)%nat -> m (p + Z.of_nat i) = nth i l 0) ->
  strn n m p = l.
Proof.
  revert p l. induction n as [|n IH]; intros p l Hnz Hlen H; simpl.
  - destruct l; [done | simpl in Hlen; lia].
  - pose proof (H 0%nat ltac:(lia) ltac:(lia)) as H0. rewrite Z.add_0_r in H0. rewrite H0.
    destruct l as [|c l]; simpl; [done|]. inversion_clear Hnz. bcase; [done|].
    f_equal. apply IH; [done | simpl in Hlen; lia|]. intros i Hi Hl.
    replace (p + 1 + Z.of_nat i) with (p + Z.of_nat (S i)) by lia. rewrite (H (S i)); simpl; (done || lia).
Qed.

(** Two regions of [n] bytes that do not overlap. *)
Definition disjoint_regions (s t n : Z) : Prop := s + n <= t \/ t + n <= s.

(** What the copying loops write at [a]: the bytes of the string [l] placed at
    [s], then zeros, up to the cursor [e]. *)
Definition spelled (m : mem) (s : Z) (l : list Z) (e : Z) (a : Z) : Z :=
  if (s <=? a) && (a <? e) then nth (Z.to_nat (a - s)) l 0 else m a.

(** Storing one character and then spelling the rest spells the whole. *)
Lemma spelled_step m s c l e a :
  0 <= c < 256 -> s < e ->
  spelled (store8 m s c) (s + 1) l e a = spelled m s (c :: l) e a.
Proof.
  intros Hc He. unfold spelled, store8. rewrite u8_small by done.
  repeat bcase; simpl; try lia; try done.
  - subst. by rewrite Z.sub_diag.
  - replace (Z.to_nat (a - s)) with (S (Z.to_nat (a - (s + 1)))) by lia. done.
Qed.

Lemma strn_store_disjoint n m s t c :
  disjoint_regions s t (Z.of_nat (S n)) ->
  strn n (store8 m s c) (t + 1) = strn n m (t + 1).
Proof. intros H. apply strn_ext. intros i ?. unfold store8, disjoint_regions in *. bcase; lia. Qed.

Lemma strncpy_copy_spec n m s t n' m1 e :
  byte_mem m -> disjoint_regions s t (Z.of_nat n) ->
  strncpy_copy n m s t = (n', m1, e) ->
  e + Z.of_nat n' = s + Z.of_nat n /\ s + Z.of_nat (length (strn n m t)) <= e
  /\ forall a, m1 a = spelled m s (strn n m t) e a.
Proof.
  revert m s t. induction n as [|n IH]; intros m s t Hm Hd; simpl.
  { intros [= <- <- <-]. repeat split; try lia. intros a. unfold spelled. by repeat bcase; simpl; try lia. }
  destruct (Z.eqb_spec (m t) 0) as [E|E].
  { intros [= <- <- <-]. simpl. repeat split; try lia. intros a. rewrite E.
    unfold spelled, store8. repeat bcase; simpl; try lia; subst; try done.
    by destruct (Z.to_nat _). }
  intros H. pose proof (strn_store_disjoint n m s t (m t) Hd) as Hs.
  apply IH in H as (H1 & H2 & H3); [|auto with kernel | unfold disjoint_regions in *; lia].
  rewrite Hs in H2, H3. simpl. repeat split; try lia.
  intros a. rewrite H3. apply spelled_step; [apply Hm | lia].
Qed.

Lemma strncpy_pad_spec n m s a :
  strncpy_pad n m s a = if (s <=? a) && (a <? s + Z.of_nat n) then 0 else m a.
Proof.
  revert m s. induction n as [|n IH]; intros m s; simpl; [repeat bcase; simpl; lia || done|].
  rewrite IH. mem_cases; done.
Qed.

Lemma safestrcpy_loop_spec k m s t m1 e :
  byte_mem m -> disjoint_regions s t (Z.of_nat k) ->
  safestrcpy_loop k m s t = (m1, e) ->
  s + Z.of_nat (length (strn k m t)) <= e <= s + Z.of_nat k
  /\ forall a, m1 a = spelled m s (strn k m t) e a.
Proof.
  revert m s t. induction k as [|k IH]; intros m s t Hm Hd; simpl.
  { intros [= <- <-]. repeat split; try lia. intros a. unfold spelled. by repeat bcase; simpl; try lia. }
  destruct (Z.eqb_spec (m t) 0) as [E|E].
  { intros [= <- <-]. simpl. repeat split; try lia. intros a. rewrite E.
    unfold spelled, store8. repeat bcase; simpl; try lia; subst; try done.
    by destruct (Z.to_nat _). }
  intros H. pose proof (strn_store_disjoint k m s t (m t) Hd) as Hs.
  apply IH in H as (H1 & H2); [|auto with kernel | unfold disjoint_regions in *; lia].
  rewrite Hs in H1, H2. simpl. repeat split; try lia.
  intros a. rewrite H2. apply spelled_step; [apply Hm | lia].
Qed.

Lemma strlen_loop_total fuel m s n :
  4098 - Z.of_nat fuel <= n -> 0 <= n <= 4097 ->
  exists r, strlen_loop fuel m s n = Some r /\ n <= r <= 4097
    /\ (forall i, n <= i < r -> m (s + i) <> 0) /\ (r <= 4096 -> m (s + r) = 0).
Proof.
  revert n. induction fuel as [|fuel IH]; intros n Hf Hn; simpl; [lia|].
  destruct (Z.eqb_spec (m (s + n)) 0) as [E|E].
  { exists n. repeat split; (done || lia). }
  destruct (Z.gtb_spec n 4096) as [G|G].
  { exists n. repeat split; lia. }
  destruct (IH (n + 1)) as (r & -> & Hr & Hi & Hz); [lia..|].
  exists r. repeat split; try lia; try done. intros i ?.
  destruct (decide (i = n)) as [->|]; [done | apply Hi; lia].
Qed.

(** ** Theorems about the routines *)

Lemma validate_ptr_ok p s : p <> 0 -> validate_ptr p s = Ret true s.
Proof. intros. unfold validate_ptr. by destruct (Z.eqb_spec p 0). Qed.
Lemma validate_bounds_ok n mx s : n <= mx -> validate_bounds n mx s = Ret true s.
Proof. intros. unfold validate_bounds. destruct (Z.gtb_spec n mx); [lia | done]. Qed.
Lemma validate_ptrs_ok a b s : a <> 0 -> b <> 0 -> validate_ptrs a b s = Ret true s.
Proof. intros. unfold validate_ptrs. erewrite mthen_ret by (by apply validate_ptr_ok). by apply validate_ptr_ok. Qed.

(** Walk through the counters and the guards of a routine whose arguments pass
    them. *)
Ltac guards :=
  repeat first
    [ erewrite mthen_ret by reflexivity
    | erewrite mthen_ret by (apply validate_ptrs_ok; assumption)
    | erewrite mthen_ret by (apply validate_ptr_ok; assumption)
    | erewrite mthen_ret by (apply validate_bounds_ok; lia)
    | progress cbn [negb k_mem string_stats] ].

Lemma memset_run m st dst c n :
  dst <> 0 -> 0 <= n <= 1024 * 1024 ->
  memset dst c n (Kst m st)
  = Ret dst (Kst (memset_loop (Z.to_nat n) m dst c 0) (incr memset_calls st)).
Proof. intros. unfold memset. guards. reflexivity. Qed.

(** [memmove] on valid pointers and at most 1 MiB copies the source region
    as it was before the call into the destination region and leaves the rest
    of memory unchanged, whether or not the two regions overlap. *)
Theorem memmove_correct m st dst src n :
  byte_mem m -> dst <> 0 -> src <> 0 -> 0 <= n <= 1024 * 1024 ->
  exists m', memmove dst src n (Kst m st) = Ret dst (Kst m' (incr memmove_calls st))
    /\ forall a, m' a = if (dst <=? a) && (a <? dst + n) then m (src + (a - dst)) else m a.
Proof.
  intros Hm Hd Hs Hn. unfold memmove. guards.
  destruct (Z.eqb_spec n 0) as [->|Hn0].
  { exists m. split; [done|]. intros a. by repeat bcase; simpl; try lia. }
  guards. eexists. split; [reflexivity|]. intros a.
  destruct (Z.ltb_spec src dst), (Z.gtb_spec (src + n) dst); cbn [andb];
    rewrite ?copy_forward_spec, ?copy_backward_spec by (done || lia);
    rewrite ?Z2Nat.id by lia; repeat bcase; simpl; try lia; try done; f_equal; lia.
Qed.

Lemma memmove_correct_witness :
  exists m', memmove 101 100 5 (Kst u8 zero_counters)
             = Ret 101 (Kst m' (incr memmove_calls zero_counters))
    /\ forall a, m' a = if (101 <=? a) && (a <? 101 + 5) then u8 (100 + (a - 101)) else u8 a.
Proof. apply (memmove_correct u8 zero_counters 101 100 5); [exact u8_range | lia..]. Defined.

(** Requests over the size limit, or with a null pointer, are rejected: memory
    is unchanged and exactly one error counter moves. *)
Lemma memmove_rejects m st dst src n :
  dst = 0 \/ src = 0 \/ n > 1024 * 1024 ->
  exists e, (e = null_pointer_errors \/ e = bounds_errors) /\
    memmove dst src n (Kst m st) = Ret dst (Kst m (incr e (incr memmove_calls st))).
Proof.
  intros H. unfold memmove, validate_ptrs, validate_ptr, validate_bounds.
  erewrite mthen_ret by reflexivity.
  destruct (Z.eqb_spec dst 0); [exists null_pointer_errors; by split; [left|]|].
  destruct (Z.eqb_spec src 0); [exists null_pointer_errors; by split; [left|]|].
  destruct (Z.gtb_spec n (1024 * 1024)); [exists bounds_errors; by split; [right|] | lia].
Qed.

(** [strncmp] of two non-null strings, with a limit of at most 1024,
    returns 0 exactly when the strings, cut at the limit, are equal; directory
    lookup compares names this way. *)
Theorem strncmp_equal m st p q n :
  p <> 0 -> q <> 0 -> 0 <= n <= 1024 ->
  exists r, strncmp p q n (Kst m st) = Ret r (Kst m (incr strncmp_calls st))
    /\ (r = 0 <-> strn (Z.to_nat n) m p = strn (Z.to_nat n) m q).
Proof.
  intros. unfold strncmp. guards. eexists. split; [reflexivity|]. apply strncmp_loop_zero.
Qed.

Lemma strncmp_equal_witness :
  exists r, strncmp 300 600 14 (Kst u8 zero_counters)
            = Ret r (Kst u8 (incr strncmp_calls zero_counters))
    /\ (r = 0 <-> strn (Z.to_nat 14) u8 300 = strn (Z.to_nat 14) u8 600).
Proof. apply (strncmp_equal u8 zero_counters 300 600 14); lia. Defined.

(** [safestrcpy] between disjoint regions always leaves a NUL-terminated
    string within the [n] bytes of the destination: the longest prefix of the
    source that fits, and it writes nothing outside those [n] bytes. *)
Theorem safestrcpy_terminated m st s t n :
  byte_mem m -> s <> 0 -> t <> 0 -> 0 < n <= 1024 -> disjoint_regions s t n ->
  exists m', safestrcpy s t n (Kst m st) = Ret s (Kst m' (incr safestrcpy_calls st))
    /\ strn (Z.to_nat n) m' s = strn (Z.to_nat (n - 1)) m t
    /\ (exists i, 0 <= i < n /\ m' (s + i) = 0)
    /\ (forall a, a < s \/ s + n <= a -> m' a = m a).
Proof.
  intros Hm Hs Ht Hn Hd. unfold safestrcpy.
  assert (u32 n = n) as Hu by (apply u32_small; lia).
  guards. destruct (Z.leb_spec n 0); [lia|]. rewrite Hu. guards.
  destruct (safestrcpy_loop _ _ _ _) as [m1 e] eqn:E.
  apply safestrcpy_loop_spec in E as (He & Hm1); [|done | unfold disjoint_regions in *; lia].
  eexists. split; [reflexivity|].
  assert (forall a, store8 m1 e 0 a = spelled m s (strn (Z.to_nat (n - 1)) m t) (e + 1) a) as Hf.
  { intros a. unfold store8. rewrite Hm1. unfold spelled.
    repeat bcase; simpl; try lia; try done.
    subst a. rewrite nth_overflow by lia. done. }
  split; [|split].
  - apply strn_spelled; [apply strn_nonzero | pose proof (strn_length (Z.to_nat (n - 1)) m t); lia|].
    intros i Hi Hl. rewrite Hf. unfold spelled. repeat bcase; simpl; try lia. f_equal; lia.
  - exists (e - s). split; [lia|]. replace (s + (e - s)) with e by lia. unfold store8. by rewrite Z.eqb_refl.
  - intros a ?. rewrite Hf. unfold spelled. by repeat bcase; simpl; try lia.
Qed.

Lemma safestrcpy_terminated_witness :
  exists m', safestrcpy 1000 2000 16 (Kst u8 zero_counters)
             = Ret 1000 (Kst m' (incr safestrcpy_calls zero_counters))
    /\ strn (Z.to_nat 16) m' 1000 = strn (Z.to_nat (16 - 1)) u8 2000
    /\ (exists i, 0 <= i < 16 /\ m' (1000 + i) = 0)
    /\ (forall a, a < 1000 \/ 1000 + 16 <= a -> m' a = u8 a).
Proof.
  apply (safestrcpy_terminated u8 zero_counters 1000 2000 16);
    [exact u8_range | lia | lia | lia | left; lia].
Defined.

(** [strncpy] spells the source, cut at [n], and pads with zeros. *)
Lemma strncpy_padded m st s t n :
  byte_mem m -> s <> 0 -> t <> 0 -> 0 <= n <= 1024 -> disjoint_regions s t n ->
  exists m', strncpy s t n (Kst m st) = Ret s (Kst m' (incr strncpy_calls st))
    /\ forall a, m' a = spelled m s (strn (Z.to_nat n) m t) (s + n) a.
Proof.
  intros Hm Hs Ht Hn Hd. unfold strncpy.
  assert (u32 n = n) as Hu by (apply u32_small; lia).
  guards. destruct (Z.ltb_spec n 0); [lia|]. rewrite Hu. guards.
  destruct (strncpy_copy _ _ _ _) as [[n' m1] e] eqn:E.
  apply strncpy_copy_spec in E as (He & Hl & Hm1); [|done | by rewrite Z2Nat.id by lia].
  eexists. split; [reflexivity|]. intros a. rewrite strncpy_pad_spec, Hm1. unfold spelled.
  repeat bcase; simpl; try lia; try done. rewrite nth_overflow by lia. done.
Qed.

(** [strlen] always terminates: the guard caps the result at 4097, and below
    the cap the result is the index of the first NUL. *)
Lemma strlen_total m st s :
  s <> 0 ->
  exists r, strlen s (Kst m st) = Ret r (Kst m (incr strlen_calls st))
    /\ 0 <= r <= 4097 /\ (forall i, 0 <= i < r -> m (s + i) <> 0)
    /\ (r <= 4096 -> m (s + r) = 0).
Proof.
  intros. unfold strlen. guards.
  destruct (strlen_loop_total 4098 m s 0) as (r & -> & Hr); [lia | lia|].
  exists r. by split.
Qed.

(** [memcmp] decides equality of the two regions. *)
Lemma memcmp_equal m st p q n :
  p <> 0 -> q <> 0 -> 0 <= n <= 1024 * 1024 ->
  exists r, memcmp p q n (Kst m st) = Ret r (Kst m (incr memcmp_calls st))
    /\ (r = 0 <-> forall i, 0 <= i < n -> m (p + i) = m (q + i)).
Proof.
  intros. unfold memcmp. guards. eexists. split; [reflexivity|].
  rewrite memcmp_loop_zero, Z2Nat.id by lia. done.
Qed.

(** [safe_strcmp] decides equality of NUL-terminated strings; it needs one
    iteration more than the longest of them. *)
Lemma safe_strcmp_loop_total n m p q :
  (length (strn n m p) < n)%nat -> (length (strn n m q) < n)%nat ->
  exists r, safe_strcmp_loop n m p q = Some r /\ (r = 0 <-> strn n m p = strn n m q).
Proof.
  revert p q. induction n as [|n IH]; intros p q; simpl; [lia|]. unfold truth.
  destruct (Z.eqb_spec (m p) 0) as [Ep|Ep], (Z.eqb_spec (m q) 0) as [Eq|Eq]; simpl; intros Hp Hq.
  - rewrite Ep, Eq. eexists. split; [done|]. split; done || lia.
  - eexists. split; [done|]. split; [lia | done].
  - eexists. split; [done|]. split; [lia | done].
  - destruct (Z.eqb_spec (m p) (m q)) as [E|E].
    + destruct (IH (p + 1) (q + 1)) as (r & -> & Hr); [lia | lia|].
      exists r. split; [done|]. rewrite Hr, E. split; [by intros -> | by intros [=]].
    + eexists. split; [done|]. split; [lia | intros [=]; congruence].
Qed.
