(* ===== verification/Riscv.v ===== *)
(** Page and address arithmetic (src/kernel/riscv.h, src/kernel/memlayout.h)
    and little-endian access to the byte memory. *)

From S2P Require Import Prelude.
From S2P Require Import KString.

(** ** Constants and macros of riscv.h and memlayout.h *)

Definition PGSIZE : Z := 4096.
Definition PGSHIFT : Z := 12.
Definition PGROUNDUP (sz : Z) : Z := Z.land (u64 (sz + PGSIZE - 1)) (u64 (Z.lnot (PGSIZE - 1))).
Definition PGROUNDDOWN (a : Z) : Z := Z.land a (u64 (Z.lnot (PGSIZE - 1))).

Definition PTE_V : Z := Z.shiftl 1 0.
Definition PTE_R : Z := Z.shiftl 1 1.
Definition PTE_W : Z := Z.shiftl 1 2.
Definition PTE_X : Z := Z.shiftl 1 3.
Definition PTE_U : Z := Z.shiftl 1 4.
Definition PA2PTE (pa : Z) : Z := u64 (Z.shiftl (Z.shiftr pa 12) 10).
Definition PTE2PA (pte : Z) : Z := u64 (Z.shiftl (Z.shiftr pte 10) 12).
Definition PTE_FLAGS (pte : Z) : Z := Z.land pte 0x3FF.
Definition PXMASK : Z := 0x1FF.
Definition PXSHIFT (level : Z) : Z := PGSHIFT + 9 * level.
Definition PX (level va : Z) : Z := Z.land (Z.shiftr va (PXSHIFT level)) PXMASK.
Definition MAXVA : Z := Z.shiftl 1 (9 + 9 + 9 + 12 - 1).

Definition KERNBASE : Z := 0x80000000.
Definition PHYSTOP : Z := KERNBASE + 128 * 1024 * 1024.
Definition TRAMPOLINE : Z := MAXVA - PGSIZE.
Definition TRAPFRAME : Z := TRAMPOLINE - PGSIZE.
Definition KSTACK (p : Z) : Z := TRAMPOLINE - (p + 1) * 2 * PGSIZE.

(** ** Page rounding *)

Lemma land_page_mask x : 0 <= x < 2 ^ 64 -> Z.land x (u64 (Z.lnot (PGSIZE - 1))) = x / 4096 * 4096.
Proof.
  intros Hx. replace (u64 (Z.lnot (PGSIZE - 1))) with (Z.shiftl (Z.ones 52) 12) by reflexivity.
  replace 4096 with (2 ^ 12) by done. rewrite <-Z.shiftl_mul_pow2, <-Z.shiftr_div_pow2 by lia.
  apply Z.bits_inj'. intros i Hi. rewrite Z.land_spec.
  destruct (decide (i < 12)).
  { rewrite !Z.shiftl_spec_low by lia. apply andb_false_r. }
  rewrite !Z.shiftl_spec, Z.shiftr_spec by lia. replace (i - 12 + 12) with i by lia.
  destruct (decide (i < 64)).
  - rewrite Z.ones_spec_low by lia. apply andb_true_r.
  - rewrite Z.ones_spec_high, andb_false_r by lia. symmetry.
    destruct (decide (x = 0)) as [->|]; [apply Z.bits_0|].
    apply Z.bits_above_log2; [lia|]. assert (Z.log2 x < 64); [apply Z.log2_lt_pow2|]; lia.
Qed.

Lemma PGROUNDUP_spec a : 0 <= a <= 2 ^ 64 - 4096 -> PGROUNDUP a = (a + 4095) / 4096 * 4096.
Proof.
  intros. unfold PGROUNDUP. rewrite land_page_mask by apply u64_range.
  unfold PGSIZE. rewrite u64_small by lia. f_equal. f_equal. lia.
Qed.
Lemma PGROUNDDOWN_spec a : 0 <= a < 2 ^ 64 -> PGROUNDDOWN a = a / 4096 * 4096.
Proof. intros. unfold PGROUNDDOWN. by apply land_page_mask. Qed.

(** ** Little-endian words in memory *)

Fixpoint store_le (n : nat) (m : mem) (a v : Z) : mem :=
  match n with
  | O => m
  | S n' => store_le n' (store8 m a v) (a + 1) (v / 256)
  end.
Fixpoint load_le (n : nat) (m : mem) (a : Z) : Z :=
  match n with
  | O => 0
  | S n' => m a + 256 * load_le n' m (a + 1)
  end.
Definition store64 (m : mem) (a v : Z) : mem := store_le 8 m a v.
Definition load64 (m : mem) (a : Z) : Z := load_le 8 m a.

Lemma store_le_byte n m a v : byte_mem m -> byte_mem (store_le n m a v).
Proof. revert m a v. induction n; intros; simpl; auto with kernel. Qed.
#[export] Hint Resolve store_le_byte : kernel.

Lemma store_le_frame n m a v x :
  x < a \/ a + Z.of_nat n <= x -> store_le n m a v x = m x.
Proof.
  revert m a v. induction n as [|n IH]; intros m a v Hx; simpl; [done|].
  rewrite IH by lia. unfold store8. bcase; [lia | done].
Qed.

Lemma load_le_ext n m m' a :
  (forall x, a <= x < a + Z.of_nat n -> m x = m' x) -> load_le n m a = load_le n m' a.
Proof.
  revert a. induction n as [|n IH]; intros a H; simpl; [done|].
  rewrite (H a) by lia. do 2 f_equal. apply IH. intros. apply H. lia.
Qed.

Lemma load_store_le n m a v : load_le n (store_le n m a v) a = v mod 256 ^ Z.of_nat n.
Proof.
  revert m a v. induction n as [|n IH]; intros m a v; cbn [load_le store_le].
  { by rewrite Z.mod_1_r. }
  rewrite store_le_frame by lia. rewrite IH. unfold store8. rewrite Z.eqb_refl.
  rewrite Nat2Z.inj_succ, Z.pow_succ_r by lia. unfold u8.
  rewrite (Z.rem_mul_r v 256) by lia. done.
Qed.

Lemma load_store64 m a v : 0 <= v < 2 ^ 64 -> load64 (store64 m a v) a = v.
Proof. intros. unfold load64, store64. rewrite load_store_le. by apply Z.mod_small. Qed.
Lemma store64_byte m a v : byte_mem m -> byte_mem (store64 m a v).
Proof. apply store_le_byte. Qed.
Lemma store64_frame m a v x : x < a \/ a + 8 <= x -> store64 m a v x = m x.
Proof. intros. apply store_le_frame. lia. Qed.
Lemma load64_ext m m' a : (forall x, a <= x < a + 8 -> m x = m' x) -> load64 m a = load64 m' a.
Proof. intros H. apply load_le_ext. intros. apply H. lia. Qed.
#[export] Hint Resolve store64_byte : kernel.
