(* ===== verification/Kalloc.v ===== *)
(** Physical page allocator (src/kernel/kalloc.c).

    The free list is threaded through the free pages themselves: the first
    eight bytes of a free page hold the address of the next one.  The model
    keeps it there, in the byte memory of [KString], and the theorems recover
    the list.  [end], the first address after the kernel, is a symbol of the
    linker script and a parameter of the model. *)

From S2P Require Import Prelude.
From S2P Require Import KString.
From S2P Require Import Riscv.

(** [struct kmem], without its spin lock: each routine holds it for the whole
    of its access to the free list. *)
Record kmem_t := Kmem {
  freelist : Z;
  free_pages : Z;
  total_allocated : Z;
  total_freed : Z;
  current_allocated : Z }.

Record kalloc_st := KallocSt { ka_ks : kst; kmem : kmem_t }.
Definition set_ks (k : kst) (s : kalloc_st) : kalloc_st := KallocSt k (kmem s).
Definition on_ks {A} (m : M kst A) : M kalloc_st A := zoom ka_ks set_ks m.
Definition ka_mem (s : kalloc_st) : mem := k_mem (ka_ks s).

Section Kalloc.
Context (end_ : Z).

(** ** Operations *)

Definition valid_kalloc_ptr (pa : Z) : bool :=
  if pa =? 0 then false else
  if negb (pa mod PGSIZE =? 0) then false else
  if pa <? end_ then false else
  if pa >=? PHYSTOP then false else true.

(** [r->next = kmem.freelist; kmem.freelist = r;] and the counters. *)
Definition push_free (r : Z) (s : kalloc_st) : kalloc_st :=
  let k := kmem s in
  KallocSt
    (Kst (store64 (ka_mem s) r (freelist k)) (string_stats (ka_ks s)))
    (Kmem r (u64 (free_pages k + 1)) (total_allocated k) (u64 (total_freed k + 1))
       (if current_allocated k >? 0 then current_allocated k - 1 else current_allocated k)).

Definition kfree (pa : Z) : M kalloc_st () :=
  if pa =? 0 then skip else
  if negb (pa mod PGSIZE =? 0) || (pa <? end_) || (pa >=? PHYSTOP) then panic "kfree" else
  on_ks (memset pa 1 PGSIZE) ;;;
  modify (push_free pa).

(** The critical section of [kalloc]. *)
Definition pop_free (s : kalloc_st) : outcome kalloc_st Z :=
  let k := kmem s in
  let r := freelist k in
  if truth r then
    Ret r (KallocSt (ka_ks s)
             (Kmem (load64 (ka_mem s) r) (u64 (free_pages k - 1)) (u64 (total_allocated k + 1))
                (total_freed k) (u64 (current_allocated k + 1))))
  else Ret r s.

Definition kalloc : M kalloc_st Z :=
  let* r := pop_free in
  (when (truth r) do (on_ks (memset r 5 PGSIZE) ;;; skip)) ;;;
  mreturn r.

Fixpoint freerange_loop (fuel : nat) (p pa_end : Z) : M kalloc_st () :=
  match fuel with
  | O => diverge
  | S fuel' =>
      if p + PGSIZE <=? pa_end then
        kfree p ;;; freerange_loop fuel' (p + PGSIZE) pa_end
      else skip
  end.

Definition freerange (pa_start pa_end : Z) : M kalloc_st () :=
  if (pa_start =? 0) || (pa_end =? 0) then skip else
  if pa_start >=? pa_end then skip else
  let p := PGROUNDUP pa_start in
  freerange_loop (S (Z.to_nat ((pa_end - p) / PGSIZE))) p pa_end.

Definition kinit : M kalloc_st () :=
  modify (fun s => KallocSt (ka_ks s) (Kmem 0 0 0 0 0)) ;;;
  freerange end_ PHYSTOP.

Definition get_free_memory (s : kalloc_st) : Z := u64 (free_pages (kmem s) * PGSIZE).
Definition low_memory (s : kalloc_st) : bool := free_pages (kmem s) <? 10.

(** ** Specification *)

(** The pages the allocator manages. *)
Definition page_ok (p : Z) : Prop := 0 < p /\ end_ <= p < PHYSTOP /\ (4096 | p).

(** The list threaded through memory from address [p]. *)
Fixpoint free_chain (m : mem) (p : Z) (l : list Z) : Prop :=
  match l with
  | [] => p = 0
  | x :: l' => p = x /\ page_ok x /\ free_chain m (load64 m x) l'
  end.

Definition kmem_inv (s : kalloc_st) (l : list Z) : Prop :=
  byte_mem (ka_mem s) /\ free_chain (ka_mem s) (freelist (kmem s)) l /\ NoDup l
  /\ free_pages (kmem s) = Z.of_nat (length l).

Definition in_page (p a : Z) : Prop := p <= a < p + PGSIZE.

(** Every managed page, in address order. *)
Definition all_pages : list Z :=
  let lo := PGROUNDUP end_ in
  (fun i => lo + PGSIZE * i) <$> seqZ 0 ((PHYSTOP - lo) / PGSIZE).

(** ** Lemmas *)

#[local] Opaque memset_loop store64 load64.

Lemma page_ok_apart p q : page_ok p -> page_ok q -> p <> q -> p + PGSIZE <= q \/ q + PGSIZE <= p.
Proof. intros (_ & _ & [a ->]) (_ & _ & [b ->]) ?. unfold PGSIZE. lia. Qed.

Lemma valid_kalloc_ptr_ok p : 0 <= p -> valid_kalloc_ptr p = true <-> page_ok p.
Proof.
  intros H0. unfold valid_kalloc_ptr, page_ok, PGSIZE. rewrite <-Z.mod_divide by lia.
  rewrite Z.geb_leb. repeat (bcase; simpl); split; try done; lia.
Qed.

Lemma free_chain_frame m m' h l :
  free_chain m h l ->
  (forall x a, x ∈ l -> in_page x a -> m a = m' a) -> free_chain m' h l.
Proof.
  revert h. induction l as [|x l IH]; intros h; simpl; [done|].
  intros (-> & Hx & Hc) H. split; [done|]. split; [done|].
  assert (load64 m' x = load64 m x) as ->.
  { apply load64_ext. intros a Ha. symmetry. apply (H x); [by left | unfold in_page, PGSIZE; lia]. }
  apply IH; [done|]. intros y a Hy. apply H. by right.
Qed.

Lemma free_chain_pages m h l : free_chain m h l -> Forall page_ok l.
Proof. revert h. induction l; intros h; simpl; [done|]. intros (-> & ? & ?). constructor; eauto. Qed.

Lemma free_chain_head m h l : free_chain m h l -> 0 <= h < 2 ^ 64.
Proof. destruct l as [|x l]; simpl; [lia|]. intros (-> & (? & ? & ?) & _). unfold PHYSTOP, KERNBASE in *. lia. Qed.

(** There are at most PHYSTOP / PGSIZE pages, so the page counter never
    overflows. *)
Lemma pages_bounded l : NoDup l -> Forall page_ok l -> Z.of_nat (length l) <= PHYSTOP / PGSIZE.
Proof.
  intros Hnd Hok.
  assert (length l <= length (seqZ 0 (PHYSTOP / PGSIZE)))%nat as Hl.
  { rewrite <-(length_fmap (fun p => p / 4096) l). apply NoDup_incl_length.
    - apply NoDup_ListNoDup, NoDup_fmap_2_strong; [|done]. intros x y Hx Hy E.
      rewrite Forall_forall in Hok.
      destruct (Hok x Hx) as (_ & _ & [a ->]), (Hok y Hy) as (_ & _ & [b ->]).
      rewrite !Z.div_mul in E by lia. congruence.
    - intros i Hi. apply list_elem_of_In. apply list_elem_of_In, list_elem_of_fmap in Hi as (x & -> & Hx).
      rewrite Forall_forall in Hok. destruct (Hok x Hx) as (? & ? & _).
      apply elem_of_seqZ. unfold PGSIZE in *. split; [apply Z.div_pos; lia|].
      rewrite Z.add_0_l. apply Z.div_lt_upper_bound; [lia|].
      change (4096 * (PHYSTOP / 4096)) with PHYSTOP. lia. }
  rewrite length_seqZ in Hl. change (PHYSTOP / PGSIZE) with 557056 in *. lia.
Qed.

(** Filling a page touches only that page. *)
Lemma fill_page s p c :
  p <> 0 -> on_ks (memset p c PGSIZE) s
  = Ret p (KallocSt (Kst (memset_loop (Z.to_nat PGSIZE) (ka_mem s) p c 0)
                       (incr memset_calls (string_stats (ka_ks s)))) (kmem s)).
Proof.
  intros. unfold on_ks, zoom. destruct s as [[m st] k]. cbn [ka_ks].
  rewrite memset_run by (done || (unfold PGSIZE; lia)). reflexivity.
Qed.

Lemma fill_page_frame m p c a : ~ in_page p a -> memset_loop (Z.to_nat PGSIZE) m p c 0 a = m a.
Proof.
  intros H. rewrite memset_loop_spec. unfold in_page, PGSIZE in *.
  rewrite Z2Nat.id by lia. by repeat bcase; simpl; try lia.
Qed.
Lemma fill_page_in m p c a : in_page p a -> memset_loop (Z.to_nat PGSIZE) m p c 0 a = u8 c.
Proof.
  intros H. rewrite memset_loop_spec. unfold in_page, PGSIZE in *.
  rewrite Z2Nat.id by lia. by repeat bcase; simpl; try lia.
Qed.
Lemma fill_page_byte m p c : byte_mem m -> byte_mem (memset_loop (Z.to_nat PGSIZE) m p c 0).
Proof.
  intros H a. rewrite memset_loop_spec. destruct (_ && _); [apply u8_range | apply H].
Qed.

(** Releasing a page the free list does not hold pushes it in front. *)
Lemma kfree_spec s l p :
  kmem_inv s l -> page_ok p -> p ∉ l ->
  exists s', kfree p s = Ret tt s' /\ kmem_inv s' (p :: l)
    /\ (forall a, ~ in_page p a -> ka_mem s' a = ka_mem s a).
Proof.
  intros (Hb & Hc & Hnd & Hn) Hp Hnin. pose proof Hp as (Hp0 & Hpr & Hpa).
  pose proof (free_chain_pages _ _ _ Hc) as Hok.
  unfold kfree. destruct (Z.eqb_spec p 0); [lia|].
  apply Z.mod_divide in Hpa; [|lia]. change 4096 with PGSIZE in Hpa.
  rewrite Z.geb_leb, Hpa. repeat (first [bcase; [lia|] | bcase]); try lia.
  cbn [negb orb]. erewrite mthen_ret by (apply fill_page; lia).
  eexists. split; [reflexivity|]. unfold push_free. simpl.
  set (m1 := memset_loop (Z.to_nat PGSIZE) (ka_mem s) p 1 0).
  assert (forall a, ~ in_page p a -> store64 m1 p (freelist (kmem s)) a = ka_mem s a) as Hfr.
  { intros a Ha. rewrite store64_frame by (unfold in_page, PGSIZE in Ha; lia).
    by apply fill_page_frame. }
  split; [|exact Hfr].
  split; [|split; [|split]]; simpl.
  - apply store64_byte, fill_page_byte, Hb.
  - split; [done|]. split; [done|]. unfold ka_mem. simpl.
    rewrite load_store64 by (by eapply free_chain_head).
    eapply free_chain_frame; [exact Hc|]. intros x a Hx Ha. symmetry. apply Hfr.
    intros Hpa'. rewrite Forall_forall in Hok.
    destruct (page_ok_apart p x Hp (Hok x Hx)); [congruence|..]; unfold in_page in *; lia.
  - by constructor.
  - rewrite Hn. pose proof (pages_bounded l Hnd Hok). change (PHYSTOP / PGSIZE) with 557056 in *.
    rewrite u64_small; lia.
Qed.

(** Taking a page returns the head of the list, filled with junk. *)
Lemma kalloc_spec s l p :
  kmem_inv s (p :: l) ->
  exists s', kalloc s = Ret p s' /\ kmem_inv s' l
    /\ (forall a, in_page p a -> ka_mem s' a = 5)
    /\ (forall a, ~ in_page p a -> ka_mem s' a = ka_mem s a).
Proof.
  intros (Hb & (Hh & Hp & Hc) & Hnd & Hn). pose proof Hp as (Hp0 & _ & _).
  pose proof (free_chain_pages _ _ _ Hc) as Hok. inversion_clear Hnd as [|? ? Hnin Hnd'].
  unfold kalloc. unfold mthen at 1. unfold pop_free, truth.
  assert (p <> 0) as Hp0' by lia. apply Z.eqb_neq in Hp0'. rewrite Hh, Hp0'. cbn [negb].
  rewrite Hp0'. cbn [negb]. unfold mthen. rewrite fill_page by lia.
  eexists. split; [reflexivity|].
  split; [|split]; [split; [|split; [|split]] | |]; simpl; unfold ka_mem; simpl.
  - apply fill_page_byte, Hb.
  - eapply free_chain_frame; [exact Hc|]. intros x a Hx Ha. symmetry. apply fill_page_frame.
    intros Hpa'. rewrite Forall_forall in Hok.
    destruct (page_ok_apart p x Hp (Hok x Hx)); [congruence|..]; unfold in_page in *; lia.
  - done.
  - rewrite Hn. simpl length. pose proof (pages_bounded l Hnd' Hok).
    change (PHYSTOP / PGSIZE) with 557056 in *. rewrite u64_small; lia.
  - intros a Ha. by rewrite fill_page_in.
  - intros a Ha. by rewrite fill_page_frame.
Qed.

Lemma kalloc_empty s : kmem_inv s [] -> kalloc s = Ret 0 s.
Proof.
  intros (_ & Hc & _). simpl in Hc. unfold kalloc, mthen, pop_free. by rewrite Hc.
Qed.

Lemma kfree_invalid s p : 0 < p -> ~ page_ok p -> kfree p s = Panic "kfree".
Proof.
  intros H0 H. unfold kfree. destruct (Z.eqb_spec p 0); [lia|].
  destruct (negb (p mod PGSIZE =? 0) || (p <? end_) || (p >=? PHYSTOP)) eqn:E; [done|].
  exfalso. apply H. rewrite !orb_false_iff, negb_false_iff, Z.geb_leb in E.
  unfold page_ok. rewrite <-Z.mod_divide by lia. unfold PGSIZE in E. lia.
Qed.

(** ** Initialisation *)

Definition pages_from (p : Z) (n : nat) : list Z := (fun i => p + PGSIZE * i) <$> seqZ 0 (Z.of_nat n).

Lemma pages_from_S p n : pages_from p (S n) = p :: pages_from (p + PGSIZE) n.
Proof.
  unfold pages_from. rewrite seqZ_cons by lia. rewrite Nat2Z.inj_succ, Z.pred_succ.
  cbn [fmap list_fmap]. f_equal; [lia|].
  apply list_eq. intros i. rewrite !list_lookup_fmap.
  destruct (decide (Z.of_nat i < Z.of_nat n)).
  - rewrite !lookup_seqZ_lt by lia. simpl. f_equal. lia.
  - by rewrite !lookup_seqZ_ge by lia.
Qed.

Lemma freerange_loop_spec fuel p n s l :
  kmem_inv s l -> (n < fuel)%nat -> Forall page_ok (pages_from p n) ->
  (forall x, x ∈ pages_from p n -> x ∉ l) ->
  p + PGSIZE * Z.of_nat n <= PHYSTOP < p + PGSIZE * (Z.of_nat n + 1) ->
  exists s', freerange_loop fuel p PHYSTOP s = Ret tt s'
    /\ kmem_inv s' (reverse (pages_from p n) ++ l).
Proof.
  revert fuel p s l. induction n as [|n IH]; intros [|fuel] p s l Hinv Hf Hok Hnin Hp; try lia; simpl.
  - destruct (Z.leb_spec (p + PGSIZE) PHYSTOP); [lia|]. by exists s.
  - destruct (Z.leb_spec (p + PGSIZE) PHYSTOP) as [|]; [|unfold PGSIZE in *; lia].
    rewrite pages_from_S in *. inversion_clear Hok as [|? ? Hp1 Hok'].
    destruct (kfree_spec s l p Hinv Hp1) as (s1 & Hk & Hinv1 & _); [apply Hnin; by left|].
    erewrite mthen_ret by exact Hk.
    destruct (IH fuel (p + PGSIZE) s1 (p :: l)) as (s2 & Hr & Hinv2); try done; try lia.
    + intros x Hx. rewrite not_elem_of_cons. split; [|apply Hnin; by right].
      intros ->. apply list_elem_of_fmap in Hx as (i & Hi & Hx).
      apply elem_of_seqZ in Hx. unfold PGSIZE in Hi. lia.
    + exists s2. split; [done|]. rewrite reverse_cons, <-(assoc_L (++)). done.
Qed.

Context (Hend : 0 < end_ < PHYSTOP).

Lemma all_pages_from :
  all_pages = pages_from (PGROUNDUP end_) (Z.to_nat ((PHYSTOP - PGROUNDUP end_) / PGSIZE)).
Proof.
  unfold all_pages, pages_from. rewrite Z2Nat.id; [done|].
  rewrite PGROUNDUP_spec by (unfold PHYSTOP, KERNBASE in *; lia).
  apply Z.div_pos; [|done]. unfold PHYSTOP, KERNBASE in *. dlia.
Qed.

Lemma all_pages_ok : Forall page_ok all_pages.
Proof.
  apply Forall_forall. intros x Hx. unfold all_pages in Hx.
  apply list_elem_of_fmap in Hx as (i & -> & Hi). apply elem_of_seqZ in Hi.
  rewrite PGROUNDUP_spec in * by (unfold PHYSTOP, KERNBASE in *; lia).
  unfold page_ok, PHYSTOP, KERNBASE, PGSIZE in *. repeat split; try dlia.
  exists ((end_ + 4095) / 4096 + i). lia.
Qed.

Lemma all_pages_NoDup : NoDup all_pages.
Proof.
  unfold all_pages. apply NoDup_fmap_2; [|apply NoDup_seqZ].
  intros x y E. unfold PGSIZE in E. lia.
Qed.

(** Boot: the free list holds every page between [end] and [PHYSTOP]. *)
Lemma kinit_spec s :
  byte_mem (ka_mem s) ->
  exists s', kinit s = Ret tt s' /\ kmem_inv s' (reverse all_pages).
Proof.
  intros Hb. unfold kinit, freerange. erewrite mthen_ret by reflexivity. cbv beta.
  destruct (Z.eqb_spec end_ 0); [lia|]. change (PHYSTOP =? 0) with false. cbn [orb].
  rewrite Z.geb_leb. destruct (Z.leb_spec PHYSTOP end_); [lia|].
  destruct (freerange_loop_spec (S (Z.to_nat ((PHYSTOP - PGROUNDUP end_) / PGSIZE))) (PGROUNDUP end_)
    (Z.to_nat ((PHYSTOP - PGROUNDUP end_) / PGSIZE))
    (KallocSt (ka_ks s) (Kmem 0 0 0 0 0)) []) as (s' & Hr & Hi).
  - split; [exact Hb|]. by split; [|split; [constructor|]].
  - lia.
  - rewrite <-all_pages_from. apply all_pages_ok.
  - intros x _. apply not_elem_of_nil.
  - rewrite PGROUNDUP_spec by (unfold PHYSTOP, KERNBASE in *; lia).
    unfold PHYSTOP, KERNBASE, PGSIZE in *. dlia.
  - exists s'. split; [exact Hr|]. by rewrite app_nil_r, <-all_pages_from in Hi.
Qed.

(** ** Clients

    The kernel as a client of the allocator: it allocates, writes into the
    pages it holds, and frees pages it holds.  [A] lists those pages. *)
Inductive kalloc_step : kalloc_st * list Z -> kalloc_st * list Z -> Prop :=
| step_alloc s s' p A : kalloc s = Ret p s' -> p <> 0 -> kalloc_step (s, A) (s', p :: A)
| step_alloc_fail s s' A : kalloc s = Ret 0 s' -> kalloc_step (s, A) (s', A)
| step_write s m' A :
    byte_mem m' -> (forall a, (forall p, p ∈ A -> ~ in_page p a) -> m' a = ka_mem s a) ->
    kalloc_step (s, A) (KallocSt (Kst m' (string_stats (ka_ks s))) (kmem s), A)
| step_free s s' p A1 A2 :
    kfree p s = Ret tt s' -> kalloc_step (s, A1 ++ p :: A2) (s', A1 ++ A2).

(** Free and held pages partition the managed memory. *)
Definition pages_inv (c : kalloc_st * list Z) : Prop :=
  exists l, kmem_inv c.1 l /\ l ++ c.2 ≡ₚ all_pages.

Lemma pages_inv_ok l A : l ++ A ≡ₚ all_pages -> Forall page_ok (l ++ A) /\ NoDup (l ++ A).
Proof. intros ->. split; [apply all_pages_ok | apply all_pages_NoDup]. Qed.

Lemma kalloc_step_inv c c' : kalloc_step c c' -> pages_inv c -> pages_inv c'.
Proof.
  intros Hs (l & Hi & Hp). destruct Hs as [s s' p A Hk Hp0 | s s' A Hk | s m' A Hb Hm | s s' p A1 A2 Hk];
    simpl in *; destruct (pages_inv_ok _ _ Hp) as [Hok Hnd].
  - destruct l as [|q l]; [rewrite (kalloc_empty s Hi) in Hk; congruence|].
    destruct (kalloc_spec s l q Hi) as (s1 & Hk1 & Hi1 & _). rewrite Hk in Hk1. simplify_eq.
    exists l. split; [done|]. simpl. by rewrite <-Permutation_middle.
  - destruct l as [|q l].
    + rewrite (kalloc_empty s Hi) in Hk. simplify_eq. by exists [].
    + destruct (kalloc_spec s l q Hi) as (s1 & Hk1 & _). rewrite Hk in Hk1. simplify_eq.
      inversion_clear Hok as [|? ? (? & _) _]. lia.
  - exists l. split; [|done]. destruct Hi as (Hb' & Hc & Hnd' & Hn).
    split; [done|]. split; [|by split]. eapply free_chain_frame; [exact Hc|].
    intros x a Hx Ha. symmetry. apply Hm. intros p HpA Hpa.
    apply NoDup_app in Hnd as (_ & Hdisj & _). rewrite Forall_app, !Forall_forall in Hok.
    destruct Hok as [Hokl HokA].
    destruct (page_ok_apart p x (HokA p HpA) (Hokl x Hx)); [|unfold in_page in *; lia..].
    intros ->. by apply (Hdisj x).
  - destruct (kfree_spec s l p Hi) as (s1 & Hk1 & Hi1 & _).
    + rewrite Forall_app in Hok. destruct Hok as [_ Hok]. rewrite Forall_app in Hok.
      destruct Hok as [_ Hok]. by inversion Hok.
    + apply NoDup_app in Hnd as (_ & Hdisj & _). intros Hpl. apply (Hdisj p Hpl).
      apply elem_of_app. right. by left.
    + rewrite Hk in Hk1. simplify_eq. exists (p :: l). split; [done|].
      simpl. rewrite <-Hp. solve_Permutation.
Qed.
Lemma kalloc_steps_inv c c' : rtc kalloc_step c c' -> pages_inv c -> pages_inv c'.
Proof. induction 1; eauto using kalloc_step_inv. Qed.

End Kalloc.

(** ** Theorems *)

(** C13: after boot, and through any sequence of allocations, writes into held
    pages and frees of held pages, the free list and the held pages partition
    the managed memory: [kmem.free_pages] is exact, a page that is handed out
    is never held already, and allocation only fails when every page is held. *)
Theorem kalloc_partition end_ s0 :
  0 < end_ < PHYSTOP -> byte_mem (ka_mem s0) ->
  exists s1, kinit end_ s0 = Ret tt s1 /\
    forall s A, rtc (kalloc_step end_) (s1, []) (s, A) ->
      (exists l, kmem_inv end_ s l /\ l ++ A ≡ₚ all_pages end_)
      /\ free_pages (kmem s) = Z.of_nat (length (all_pages end_)) - Z.of_nat (length A)
      /\ exists p s', kalloc s = Ret p s'
           /\ if p =? 0 then A ≡ₚ all_pages end_ else p ∈ all_pages end_ /\ p ∉ A.
Proof.
  intros He Hb. destruct (kinit_spec end_ He s0 Hb) as (s1 & Hk & Hi).
  exists s1. split; [done|]. intros s A Hr.
  apply (kalloc_steps_inv end_ He) in Hr as (l & Hl & Hp).
  2:{ exists (reverse (all_pages end_)). split; [done|]. simpl. by rewrite app_nil_r, reverse_Permutation. }
  simpl in *. split; [by exists l|]. split.
  { destruct Hl as (_ & _ & _ & ->). rewrite <-Hp, length_app. lia. }
  destruct l as [|p l].
  { exists 0, s. split; [by apply (kalloc_empty end_) | done]. }
  destruct (kalloc_spec end_ s l p Hl) as (s' & Hk' & _). exists p, s'. split; [done|].
  destruct (pages_inv_ok end_ He _ _ Hp) as [Hok Hnd]. inversion_clear Hok as [|? ? (Hp0 & _) _].
  destruct (Z.eqb_spec p 0); [lia|]. rewrite <-Hp. split; [by left|].
  inversion_clear Hnd as [|? ? Hn _]. intros HA. apply Hn, elem_of_app. by right.
Qed.

Lemma kalloc_partition_witness :
  exists s1, kinit (PHYSTOP - 2 * PGSIZE) (KallocSt (Kst (fun _ => 0) zero_counters) (Kmem 0 0 0 0 0)) = Ret tt s1 /\
    forall s A, rtc (kalloc_step (PHYSTOP - 2 * PGSIZE)) (s1, []) (s, A) ->
      (exists l, kmem_inv (PHYSTOP - 2 * PGSIZE) s l /\ l ++ A ≡ₚ all_pages (PHYSTOP - 2 * PGSIZE))
      /\ free_pages (kmem s) = Z.of_nat (length (all_pages (PHYSTOP - 2 * PGSIZE))) - Z.of_nat (length A)
      /\ exists p s', kalloc s = Ret p s'
           /\ if p =? 0 then A ≡ₚ all_pages (PHYSTOP - 2 * PGSIZE)
              else p ∈ all_pages (PHYSTOP - 2 * PGSIZE) /\ p ∉ A.
Proof.
  apply (kalloc_partition (PHYSTOP - 2 * PGSIZE)
           (KallocSt (Kst (fun _ => 0) zero_counters) (Kmem 0 0 0 0 0)));
    [unfold PHYSTOP, KERNBASE, PGSIZE; lia | intros a; unfold ka_mem; simpl; lia].
Defined.

(** [kfree] of a managed page that is not free pushes it, and the next
    [kalloc] returns that page filled with junk, with the list as it was; a
    null pointer is ignored and any other address stops the kernel. *)
Theorem kfree_kalloc_roundtrip end_ s l p :
  kmem_inv end_ s l ->
  kfree end_ 0 s = Ret tt s
  /\ (0 < p -> ~ page_ok end_ p -> kfree end_ p s = Panic "kfree")
  /\ (page_ok end_ p -> p ∉ l ->
      exists s1 s2, kfree end_ p s = Ret tt s1 /\ kmem_inv end_ s1 (p :: l)
        /\ kalloc s1 = Ret p s2 /\ kmem_inv end_ s2 l
        /\ forall a, ka_mem s2 a = if (p <=? a) && (a <? p + PGSIZE) then 5 else ka_mem s a).
Proof.
  intros Hi. split; [done|]. split; [apply kfree_invalid|]. intros Hp Hn.
  destruct (kfree_spec end_ s l p Hi Hp Hn) as (s1 & H1 & Hi1 & Hf1).
  destruct (kalloc_spec end_ s1 l p Hi1) as (s2 & H2 & Hi2 & Hin & Hf2).
  exists s1, s2. repeat (split; [done|]). intros a.
  destruct (Z.leb_spec p a), (Z.ltb_spec a (p + PGSIZE)); cbn [andb];
    first [apply Hin; unfold in_page; lia | rewrite Hf2, Hf1 by (unfold in_page; lia); done].
Qed.

Lemma kfree_kalloc_roundtrip_witness :
  let s := KallocSt (Kst (fun _ => 0) zero_counters) (Kmem 0 0 0 0 0) in
  exists s1 s2, kfree KERNBASE KERNBASE s = Ret tt s1 /\ kmem_inv KERNBASE s1 [KERNBASE]
    /\ kalloc s1 = Ret KERNBASE s2 /\ kmem_inv KERNBASE s2 []
    /\ forall a, ka_mem s2 a = if (KERNBASE <=? a) && (a <? KERNBASE + PGSIZE) then 5 else ka_mem s a.
Proof.
  intros s. apply (kfree_kalloc_roundtrip KERNBASE s [] KERNBASE).
  - split; [intros a; unfold ka_mem; simpl; lia|]. split; [done|]. split; [constructor | done].
  - unfold page_ok, PHYSTOP, KERNBASE. repeat split; try lia. by exists 524288.
  - apply not_elem_of_nil.
Defined.
