(* ===== verification/Vm.v ===== *)
(** Virtual memory (src/kernel/vm.c, and [proc_mapstacks] of proc.c): Sv39
    page tables in the kernel's byte memory, on the page allocator.

    A page table is the address of its root page and a [pte_t *] is the
    address of an 8-byte entry, 0 for a null pointer.  Writing the hardware
    register [satp] and flushing the TLB have no effect on this state. *)

From S2P Require Import Prelude.
From S2P Require Import KString.
From S2P Require Import Riscv.
From S2P Require Import Kalloc.

Definition UART0 : Z := 0x10000000.
Definition VIRTIO0 : Z := 0x10001000.
Definition PLIC : Z := 0x0c000000.
Definition NPROC : Z := 64.

Section Vm.
(** Linker symbols: the end of the kernel image, the end of its text and the
    trampoline page. *)
Context (end_ etext trampoline : Z).

Abbreviation K := (M kalloc_st).

Definition load_pte (pte : Z) : K Z :=
  if pte =? 0 then panic "null dereference" else gets (fun s => load64 (ka_mem s) pte).
Definition set_ka_mem (m : mem) (s : kalloc_st) : kalloc_st := KallocSt (Kst m (string_stats (ka_ks s))) (kmem s).
Definition store_pte (pte v : Z) : K () := modify (fun s => set_ka_mem (store64 (ka_mem s) pte v) s).
Definition zero_page (pa : Z) : K () := on_ks (memset pa 0 PGSIZE) ;;; skip.
Definition flag (pte f : Z) : bool := truth (Z.land pte f).
(** [&pagetable[i]] *)
Definition pte_addr (pagetable i : Z) : Z := pagetable + 8 * i.

(** One iteration of the loop of [walk]: the next page table, 0 to return 0. *)
Definition walk_level (pagetable va level : Z) (alloc : bool) : K Z :=
  let pte := pte_addr pagetable (PX level va) in
  let* e := load_pte pte in
  if flag e PTE_V then mreturn (PTE2PA e) else
  if negb alloc then mreturn 0 else
  let* page := kalloc in
  if page =? 0 then mreturn 0 else
  zero_page page ;;;
  store_pte pte (Z.lor (PA2PTE page) PTE_V) ;;;
  mreturn page.

Definition walk (pagetable va : Z) (alloc : bool) : K Z :=
  if va >=? MAXVA then panic "walk" else
  let* t1 := walk_level pagetable va 2 alloc in
  if t1 =? 0 then mreturn 0 else
  let* t0 := walk_level t1 va 1 alloc in
  if t0 =? 0 then mreturn 0 else
  mreturn (pte_addr t0 (PX 0 va)).

Definition walkaddr (pagetable va : Z) : K Z :=
  if va >=? MAXVA then mreturn 0 else
  let* pte := walk pagetable va false in
  if pte =? 0 then mreturn 0 else
  let* e := load_pte pte in
  if negb (flag e PTE_V) then mreturn 0 else
  if negb (flag e PTE_U) then mreturn 0 else
  mreturn (PTE2PA e).

Fixpoint mappages_loop (fuel : nat) (pagetable a last pa perm : Z) : K Z :=
  match fuel with
  | O => diverge
  | S fuel' =>
      let* pte := walk pagetable a true in
      if pte =? 0 then mreturn (-1) else
      let* e := load_pte pte in
      if flag e PTE_V then panic "mappages: remap" else
      store_pte pte (Z.lor (Z.lor (PA2PTE pa) perm) PTE_V) ;;;
      if a =? last then mreturn 0 else
      mappages_loop fuel' pagetable (u64 (a + PGSIZE)) last (u64 (pa + PGSIZE)) perm
  end.

Definition mappages (pagetable va size pa perm : Z) : K Z :=
  if negb (va mod PGSIZE =? 0) then panic "mappages: va not aligned" else
  if negb (size mod PGSIZE =? 0) then panic "mappages: size not aligned" else
  if size =? 0 then panic "mappages: size" else
  mappages_loop (Z.to_nat (size / PGSIZE)) pagetable va (u64 (va + size - PGSIZE)) pa perm.

Definition kvmmap (kpgtbl va pa sz perm : Z) : K () :=
  let* r := mappages kpgtbl va sz pa perm in
  when negb (r =? 0) do panic "kvmmap".

Definition proc_mapstacks (kpgtbl : Z) : K () :=
  mfor (seq 0 (Z.to_nat NPROC)) (fun p =>
    let* pa := kalloc in
    if pa =? 0 then panic "kalloc" else
    kvmmap kpgtbl (KSTACK (Z.of_nat p)) pa PGSIZE (Z.lor PTE_R PTE_W)).

Definition kvmmake : K Z :=
  let* kpgtbl := kalloc in
  on_ks (memset kpgtbl 0 PGSIZE) ;;;
  kvmmap kpgtbl UART0 UART0 PGSIZE (Z.lor PTE_R PTE_W) ;;;
  kvmmap kpgtbl VIRTIO0 VIRTIO0 PGSIZE (Z.lor PTE_R PTE_W) ;;;
  kvmmap kpgtbl PLIC PLIC 0x4000000 (Z.lor PTE_R PTE_W) ;;;
  kvmmap kpgtbl KERNBASE KERNBASE (etext - KERNBASE) (Z.lor PTE_R PTE_X) ;;;
  kvmmap kpgtbl etext etext (PHYSTOP - etext) (Z.lor PTE_R PTE_W) ;;;
  kvmmap kpgtbl TRAMPOLINE trampoline PGSIZE (Z.lor PTE_R PTE_X) ;;;
  proc_mapstacks kpgtbl ;;;
  mreturn kpgtbl.

Definition uvmcreate : K Z :=
  let* pagetable := kalloc in
  if pagetable =? 0 then mreturn 0 else
  on_ks (memset pagetable 0 PGSIZE) ;;;
  mreturn pagetable.

Definition unmap_page (pagetable a : Z) (do_free : bool) : K () :=
  let* pte := walk pagetable a false in
  if pte =? 0 then skip else
  let* e := load_pte pte in
  if negb (flag e PTE_V) then skip else
  (when do_free do kfree end_ (PTE2PA e)) ;;;
  store_pte pte 0.

Definition uvmunmap (pagetable va npages : Z) (do_free : bool) : K () :=
  if negb (va mod PGSIZE =? 0) then panic "uvmunmap: not aligned" else
  mfor (seq 0 (Z.to_nat npages)) (fun i => unmap_page pagetable (va + PGSIZE * Z.of_nat i) do_free).

Definition uvmdealloc (pagetable oldsz newsz : Z) : K Z :=
  if newsz >=? oldsz then mreturn oldsz else
  (when (PGROUNDUP newsz <? PGROUNDUP oldsz) do
     (let npages := i32 ((PGROUNDUP oldsz - PGROUNDUP newsz) / PGSIZE) in
      uvmunmap pagetable (PGROUNDUP newsz) npages true)) ;;;
  mreturn newsz.

Fixpoint uvmalloc_loop (fuel : nat) (pagetable oldsz newsz a xperm : Z) : K Z :=
  match fuel with
  | O => diverge
  | S fuel' =>
      if negb (a <? newsz) then mreturn newsz else
      let* mem := kalloc in
      if mem =? 0 then uvmdealloc pagetable a oldsz ;;; mreturn 0 else
      on_ks (memset mem 0 PGSIZE) ;;;
      let* r := mappages pagetable a PGSIZE mem (Z.lor (Z.lor PTE_R PTE_U) xperm) in
      if negb (r =? 0) then
        kfree end_ mem ;;;
        uvmdealloc pagetable a oldsz ;;;
        mreturn 0
      else uvmalloc_loop fuel' pagetable oldsz newsz (u64 (a + PGSIZE)) xperm
  end.

Definition uvmalloc (pagetable oldsz newsz xperm : Z) : K Z :=
  if newsz <? oldsz then mreturn oldsz else
  let oldsz := PGROUNDUP oldsz in
  uvmalloc_loop (S (Z.to_nat (newsz / PGSIZE + 1))) pagetable oldsz newsz oldsz xperm.

(** [level] bounds the depth of the recursion: a Sv39 table has three. *)
Fixpoint freewalk (level : nat) (pagetable : Z) : K () :=
  match level with
  | O => diverge
  | S level' =>
      mfor (seq 0 512) (fun i =>
        let* pte := load_pte (pte_addr pagetable (Z.of_nat i)) in
        if flag pte PTE_V && negb (flag pte (Z.lor (Z.lor PTE_R PTE_W) PTE_X)) then
          freewalk level' (PTE2PA pte) ;;;
          store_pte (pte_addr pagetable (Z.of_nat i)) 0
        else when flag pte PTE_V do panic "freewalk: leaf") ;;;
      kfree end_ pagetable
  end.

Definition uvmfree (pagetable sz : Z) : K () :=
  (when (sz >? 0) do uvmunmap pagetable 0 (PGROUNDUP sz / PGSIZE) true) ;;;
  freewalk 3 pagetable.

(** The loop of [uvmcopy] at [i]: [None] on success, [Some i] on the way to [err]. *)
Fixpoint uvmcopy_loop (fuel : nat) (old new sz i : Z) : K (option Z) :=
  match fuel with
  | O => diverge
  | S fuel' =>
      if negb (i <? sz) then mreturn None else
      let* pte := walk old i false in
      if pte =? 0 then uvmcopy_loop fuel' old new sz (i + PGSIZE) else
      let* e := load_pte pte in
      if negb (flag e PTE_V) then uvmcopy_loop fuel' old new sz (i + PGSIZE) else
      let* mem := kalloc in
      if mem =? 0 then mreturn (Some i) else
      on_ks (memmove mem (PTE2PA e) PGSIZE) ;;;
      let* r := mappages new i PGSIZE mem (PTE_FLAGS e) in
      if negb (r =? 0) then kfree end_ mem ;;; mreturn (Some i)
      else uvmcopy_loop fuel' old new sz (i + PGSIZE)
  end.

Definition uvmcopy (old new sz : Z) : K Z :=
  let* r := uvmcopy_loop (S (Z.to_nat (sz / PGSIZE + 1))) old new sz 0 in
  match r with
  | None => mreturn 0
  | Some i => uvmunmap new 0 (i / PGSIZE) true ;;; mreturn (-1)
  end.

Definition uvmclear (pagetable va : Z) : K () :=
  let* pte := walk pagetable va false in
  if pte =? 0 then panic "uvmclear" else
  let* e := load_pte pte in
  store_pte pte (Z.land e (u64 (Z.lnot PTE_U))).

Definition ismapped (pagetable va : Z) : K bool :=
  let* pte := walk pagetable va false in
  if pte =? 0 then mreturn false else
  let* e := load_pte pte in
  mreturn (flag e PTE_V).

Section Process.
(** [p->sz] and [p->pagetable] of the calling process. *)
Context (p_sz p_pagetable : Z).

Definition vmfault (pagetable va : Z) : K Z :=
  if va >=? p_sz then mreturn 0 else
  let va := PGROUNDDOWN va in
  let* m := ismapped pagetable va in
  if m then mreturn 0 else
  let* mem := kalloc in
  if mem =? 0 then mreturn 0 else
  on_ks (memset mem 0 PGSIZE) ;;;
  let* r := mappages p_pagetable va PGSIZE mem (Z.lor (Z.lor PTE_W PTE_U) PTE_R) in
  if negb (r =? 0) then kfree end_ mem ;;; mreturn 0 else
  mreturn mem.

(** [pa0 = walkaddr(...); if(pa0 == 0) pa0 = vmfault(...)] *)
Definition user_page (pagetable va0 : Z) : K Z :=
  let* pa0 := walkaddr pagetable va0 in
  if pa0 =? 0 then vmfault pagetable va0 else mreturn pa0.

Fixpoint copyout_loop (fuel : nat) (pagetable dstva src len : Z) : K Z :=
  match fuel with
  | O => diverge
  | S fuel' =>
      if negb (len >? 0) then mreturn 0 else
      let va0 := PGROUNDDOWN dstva in
      if va0 >=? MAXVA then mreturn (-1) else
      let* pa0 := user_page pagetable va0 in
      if pa0 =? 0 then mreturn (-1) else
      let* pte := walk pagetable va0 false in
      let* e := load_pte pte in
      if negb (flag e PTE_W) then mreturn (-1) else
      let n := Z.min (PGSIZE - (dstva - va0)) len in
      on_ks (memmove (pa0 + (dstva - va0)) src n) ;;;
      copyout_loop fuel' pagetable (u64 (va0 + PGSIZE)) (src + n) (len - n)
  end.
Definition copyout (pagetable dstva src len : Z) : K Z :=
  copyout_loop (S (S (Z.to_nat (len / PGSIZE + 1)))) pagetable dstva src len.

Fixpoint copyin_loop (fuel : nat) (pagetable dst srcva len : Z) : K Z :=
  match fuel with
  | O => diverge
  | S fuel' =>
      if negb (len >? 0) then mreturn 0 else
      let va0 := PGROUNDDOWN srcva in
      let* pa0 := user_page pagetable va0 in
      if pa0 =? 0 then mreturn (-1) else
      let n := Z.min (PGSIZE - (srcva - va0)) len in
      on_ks (memmove dst (pa0 + (srcva - va0)) n) ;;;
      copyin_loop fuel' pagetable (dst + n) (u64 (va0 + PGSIZE)) (len - n)
  end.
Definition copyin (pagetable dst srcva len : Z) : K Z :=
  copyin_loop (S (S (Z.to_nat (len / PGSIZE + 1)))) pagetable dst srcva len.
End Process.

(** The inner loop of [copyinstr]: copies up to [n] bytes from [p] to [dst];
    the value is whether a NUL was copied. *)
Fixpoint copyinstr_page (n : nat) (m : mem) (p dst : Z) : mem * bool :=
  match n with
  | O => (m, false)
  | S n' =>
      if m p =? 0 then (store8 m dst 0, true)
      else copyinstr_page n' (store8 m dst (m p)) (p + 1) (dst + 1)
  end.

Fixpoint copyinstr_loop (fuel : nat) (pagetable dst srcva max : Z) : K Z :=
  match fuel with
  | O => diverge
  | S fuel' =>
      if negb (max >? 0) then mreturn (-1) else
      let va0 := PGROUNDDOWN srcva in
      let* pa0 := walkaddr pagetable va0 in
      if pa0 =? 0 then mreturn (-1) else
      let n := Z.min (PGSIZE - (srcva - va0)) max in
      let* m := gets ka_mem in
      let '(m', got_null) := copyinstr_page (Z.to_nat n) m (pa0 + (srcva - va0)) dst in
      modify (set_ka_mem m') ;;;
      if got_null then mreturn 0
      else copyinstr_loop fuel' pagetable (dst + n) (u64 (va0 + PGSIZE)) (max - n)
  end.
Definition copyinstr (pagetable dst srcva max : Z) : K Z :=
  copyinstr_loop (S (S (Z.to_nat (max / PGSIZE + 1)))) pagetable dst srcva max.
End Vm.
