(* ===== verification/VmProof.v ===== *)
(** Page tables: what [walk], [mappages] and [uvmunmap] do to the address
    translation. *)

From S2P Require Import Prelude.
From S2P Require Import KString.
From S2P Require Import Riscv.
From S2P Require Import Kalloc.
From S2P Require Import Vm.

(** ** Page table entries *)

Lemma flag_testbit x k : 0 <= k -> flag x (Z.shiftl 1 k) = Z.testbit x k.
Proof.
  intros Hk. unfold flag, truth. rewrite Z.shiftl_1_l. destruct (Z.testbit x k) eqn:Ht.
  - apply negb_true_iff, Z.eqb_neq. intros E. assert (Z.testbit (Z.land x (2 ^ k)) k = false) as Hf by (by rewrite E, Z.bits_0).
    rewrite Z.land_spec, Z.pow2_bits_true, Ht in Hf by done. done.
  - apply negb_false_iff, Z.eqb_eq, Z.bits_inj'. intros n Hn. rewrite Z.land_spec, Z.bits_0.
    destruct (decide (n = k)) as [->|]; [by rewrite Ht|]. rewrite Z.pow2_bits_false by done. apply andb_false_r.
Qed.

(** An entry made from a page and permission bits. *)
Definition mk_pte (pa perm : Z) : Z := Z.lor (Z.lor (PA2PTE pa) perm) PTE_V.

Definition is_page (pa : Z) : Prop := 0 <= pa < 2 ^ 56 /\ pa mod 4096 = 0.

Lemma PA2PTE_page pa : is_page pa -> PA2PTE pa = pa / 4096 * 1024.
Proof.
  intros [Hr Hm]. unfold PA2PTE. rewrite Z.shiftl_mul_pow2, Z.shiftr_div_pow2 by lia.
  change (2 ^ 12) with 4096. change (2 ^ 10) with 1024. apply u64_small. dlia.
Qed.

Lemma lor_low_add x y n : 0 <= n -> 0 <= y < 2 ^ n -> x mod 2 ^ n = 0 -> Z.lor x y = x + y.
Proof.
  intros Hn Hy Hx. assert (Z.land x y = 0) as Hl.
  { apply Z.bits_inj'. intros k Hk. rewrite Z.land_spec, Z.bits_0. destruct (decide (k < n)).
    - rewrite <- (Z.mod_pow2_bits_low x n k) by lia. by rewrite Hx, Z.bits_0.
    - rewrite <- (Z.mod_small y (2 ^ n)) by lia. rewrite Z.mod_pow2_bits_high by lia. apply andb_false_r. }
  by rewrite Z.add_nocarry_lxor, Z.lxor_lor.
Qed.

Lemma lor_range a b n : 0 <= n -> 0 <= a < 2 ^ n -> 0 <= b < 2 ^ n -> 0 <= Z.lor a b < 2 ^ n.
Proof.
  intros Hn Ha Hb. assert (Z.lor a b = Z.lor a b mod 2 ^ n) as ->.
  { apply Z.bits_inj'. intros k Hk. destruct (decide (k < n)).
    - by rewrite Z.mod_pow2_bits_low by lia.
    - rewrite Z.mod_pow2_bits_high by lia. rewrite Z.lor_spec.
      rewrite <- (Z.mod_small a (2 ^ n)), <- (Z.mod_small b (2 ^ n)) by lia.
      by rewrite !Z.mod_pow2_bits_high by lia. }
  apply Z.mod_pos_bound. lia.
Qed.

Lemma mk_pte_facts pa perm :
  is_page pa -> 0 <= perm < 1024 ->
  PTE2PA (mk_pte pa perm) = pa /\ PTE_FLAGS (mk_pte pa perm) = Z.lor perm PTE_V /\ flag (mk_pte pa perm) PTE_V = true
  /\ 0 <= mk_pte pa perm < 2 ^ 64.
Proof.
  intros Hp Hr. pose proof Hp as [Hpr Hpm]. unfold mk_pte. rewrite <- Z.lor_assoc.
  assert (0 <= Z.lor perm PTE_V < 2 ^ 10) as Hl by (apply lor_range; [lia | lia | change PTE_V with 1; lia]).
  set (fl := Z.lor perm PTE_V) in *. change (2 ^ 10) with 1024 in Hl.
  rewrite (PA2PTE_page pa Hp), (lor_low_add _ fl 10) by (change (2 ^ 10) with 1024; dlia). split; [|split; [|split]].
  - unfold PTE2PA. rewrite Z.shiftr_div_pow2, Z.shiftl_mul_pow2 by lia.
    change (2 ^ 10) with 1024. change (2 ^ 12) with 4096. rewrite u64_small; dlia.
  - unfold PTE_FLAGS. change 0x3FF with (Z.ones 10). rewrite Z.land_ones by lia. change (2 ^ 10) with 1024. dlia.
  - unfold PTE_V. rewrite flag_testbit by lia. rewrite Z.bit0_odd.
    assert (Z.odd fl = true) as Hodd.
    { unfold fl. rewrite <- Z.bit0_odd, Z.lor_spec. change (Z.testbit PTE_V 0) with true. apply orb_true_r. }
    rewrite Z.odd_add, Z.odd_mul, Hodd. change (Z.odd 1024) with false. rewrite andb_false_r. done.
  - dlia.
Qed.

(** Page table entries round-trip.  The address and the flags put into an
    entry are those read out of it. *)
Theorem pte_roundtrip pa perm :
  is_page pa -> 0 <= perm < 1024 ->
  PTE2PA (mk_pte pa perm) = pa /\ PTE_FLAGS (mk_pte pa perm) = Z.lor perm PTE_V /\ flag (mk_pte pa perm) PTE_V = true.
Proof.
  intros Hp Hr. by destruct (mk_pte_facts pa perm Hp Hr) as (? & ? & ? & _).
Qed.

Lemma pte_roundtrip_witness :
  PTE2PA (mk_pte 0x80001000 6) = 0x80001000 /\ PTE_FLAGS (mk_pte 0x80001000 6) = Z.lor 6 PTE_V
  /\ flag (mk_pte 0x80001000 6) PTE_V = true.
Proof. apply pte_roundtrip; [split; [lia | reflexivity] | lia]. Defined.

(** ** Indices *)

Lemma PX_spec level va : 0 <= level -> PX level va = (va / 2 ^ (12 + 9 * level)) mod 512.
Proof.
  intros Hl. unfold PX, PXSHIFT, PGSHIFT, PXMASK. rewrite Z.shiftr_div_pow2 by lia.
  change 0x1FF with (Z.ones 9). by rewrite Z.land_ones by lia.
Qed.
Lemma PX_range level va : 0 <= level -> 0 <= PX level va < 512.
Proof. intros. rewrite PX_spec by done. apply Z.mod_pos_bound. lia. Qed.

(** Addresses below [MAXVA] with the same indices lie on the same page. *)
Lemma PX_inj va va' :
  0 <= va < MAXVA -> 0 <= va' < MAXVA -> PX 2 va = PX 2 va' -> PX 1 va = PX 1 va' -> PX 0 va = PX 0 va' ->
  va / 4096 = va' / 4096.
Proof.
  change MAXVA with (2 ^ 38). intros H1 H2. rewrite !PX_spec by lia.
  change (2 ^ (12 + 9 * 2)) with (4096 * 512 * 512). change (2 ^ (12 + 9 * 1)) with (4096 * 512). change (2 ^ (12 + 9 * 0)) with 4096.
  intros E2 E1 E0. rewrite <- !Z.div_div in E2, E1 by lia. rewrite <- !Z.div_div in E2 by lia.
  set (x := va / 4096) in *. set (y := va' / 4096) in *.
  assert (0 <= x < 2 ^ 26 /\ 0 <= y < 2 ^ 26) as [Hx Hy] by (unfold x, y; split; dlia). clearbody x y. clear H1 H2.
  assert (x / 512 = y / 512) as E by (clear E0; set (a := x / 512) in *; set (b := y / 512) in *;
    assert (0 <= a < 2 ^ 17 /\ 0 <= b < 2 ^ 17) as [? ?] by (unfold a, b; split; dlia); clearbody a b; dlia).
  dlia.
Qed.

Lemma page_PX va va' level : 0 <= level -> va / 4096 = va' / 4096 -> PX level va = PX level va'.
Proof.
  intros Hl E. rewrite !PX_spec by done. rewrite Z.pow_add_r by lia. change (2 ^ 12) with 4096.
  rewrite <- !Z.div_div by lia. by rewrite E.
Qed.

(** ** The tables of a page table *)

Definition ent (m : mem) (t i : Z) : Z := load64 m (pte_addr t i).
Definition next_table (m : mem) (t i : Z) : option Z :=
  if flag (ent m t i) PTE_V then Some (PTE2PA (ent m t i)) else None.

Inductive pos := P2 | P1 (i : Z) | P0 (i j : Z).
#[global] Instance pos_eq_dec : EqDecision pos.
Proof. solve_decision. Defined.

(** The table at a position of the tree. *)
Definition table (m : mem) (root : Z) (p : pos) : option Z :=
  match p with
  | P2 => Some root
  | P1 i => next_table m root i
  | P0 i j => t ← next_table m root i; next_table m t j
  end.
Definition child (p : pos) (k : Z) : pos := match p with P2 => P1 k | P1 i => P0 i k | P0 i j => P0 i j end.
Definition in_range (p : pos) : Prop :=
  match p with P2 => True | P1 i => 0 <= i < 512 | P0 i j => 0 <= i < 512 /\ 0 <= j < 512 end.

(** The leaf entry for a virtual address, 0 when there is no table for it. *)
Definition xlate (m : mem) (root va : Z) : Z :=
  match table m root (P0 (PX 2 va) (PX 1 va)) with Some t => ent m t (PX 0 va) | None => 0 end.

Section Tree.
Context (end_ : Z).

(** The tables are distinct managed pages, none of them free. *)
Record pt_wf (m : mem) (root : Z) (free : list Z) : Prop := {
  pw_page p t : in_range p -> table m root p = Some t -> page_ok end_ t /\ t ∉ free;
  pw_inj p q t : in_range p -> in_range q -> table m root p = Some t -> table m root q = Some t -> p = q }.

Lemma page_ok_is_page p : page_ok end_ p -> is_page p.
Proof.
  intros (H0 & H1 & H2). split; [unfold PHYSTOP, KERNBASE in *; lia|]. by apply Z.mod_divide.
Qed.

Lemma ent_ext m m' t i :
  0 <= i < 512 -> (forall a, in_page t a -> m' a = m a) -> ent m' t i = ent m t i.
Proof.
  intros Hi He. unfold ent, pte_addr. apply load64_ext. intros x Hx. apply He. unfold in_page, PGSIZE. lia.
Qed.

Lemma ent_store m t i t' i' v :
  page_ok end_ t -> page_ok end_ t' -> 0 <= i < 512 -> 0 <= i' < 512 -> 0 <= v < 2 ^ 64 ->
  ent (store64 m (pte_addr t i) v) t' i' = if decide (t' = t /\ i' = i) then v else ent m t' i'.
Proof.
  intros Ht Ht' Hi Hi' Hv. unfold ent, pte_addr. case_decide as E.
  - destruct E as [-> ->]. by apply load_store64.
  - apply load64_ext. intros x Hx. apply store64_frame.
    destruct (decide (t' = t)) as [->|Hne]; [assert (i' <> i) by tauto; lia|].
    destruct (page_ok_apart end_ t t' Ht Ht') as [?|?]; [done|..]; unfold PGSIZE in *; lia.
Qed.

(** Storing into entry [k] of the table at [q] changes only the subtree under
    that entry. *)
Lemma table_store m root free q t k v p :
  pt_wf m root free -> in_range q -> 0 <= k < 512 -> 0 <= v < 2 ^ 64 -> table m root q = Some t -> in_range p ->
  (forall x, q = P2 -> p <> P0 k x) -> p <> child q k \/ (exists i j, q = P0 i j) ->
  table (store64 m (pte_addr t k) v) root p = table m root p.
Proof.
  intros Hw Hq Hk Hv Ht Hp Hsub Hch. set (m' := store64 m (pte_addr t k) v).
  destruct (pw_page _ _ _ Hw q t Hq Ht) as [Htp _].
  assert (forall p' t' i, in_range p' -> 0 <= i < 512 -> table m root p' = Some t' -> ~ (p' = q /\ i = k) ->
    next_table m' t' i = next_table m t' i) as Hnext.
  { intros p' t' i Hp' Hi Ht' Hne. unfold next_table.
    destruct (pw_page _ _ _ Hw p' t' Hp' Ht') as [Htp' _].
    assert (ent m' t' i = ent m t' i) as ->; [|done]. unfold m'. rewrite ent_store by done.
    rewrite decide_False; [done|]. intros [-> ->]. apply Hne. split; [|done]. by apply (pw_inj _ _ _ Hw p' q t). }
  destruct p as [|i|i j]; [done | |].
  - simpl. apply (Hnext P2); [done | done | done |]. intros [<- ->]. destruct Hch as [Hch|(? & ? & ?)]; by try apply Hch.
  - destruct Hp as [Hi Hj]. simpl. assert (next_table m' root i = next_table m root i) as ->.
    { apply (Hnext P2); [done | done | done |]. intros [<- ->]. by apply (Hsub j). }
    destruct (next_table m root i) as [t1|] eqn:E1; [|done]. simpl.
    apply (Hnext (P1 i)); [done | done | done |]. intros [<- ->]. destruct Hch as [Hch|(? & ? & ?)]; by try apply Hch.
Qed.

(** Replacing a leaf entry changes no table. *)
Lemma pt_wf_leaf m root free i j t k v :
  pt_wf m root free -> in_range (P0 i j) -> 0 <= k < 512 -> 0 <= v < 2 ^ 64 -> table m root (P0 i j) = Some t ->
  let m' := store64 m (pte_addr t k) v in
  pt_wf m' root free /\ (forall p, in_range p -> table m' root p = table m root p).
Proof.
  intros Hw Hr Hk Hv Ht m'.
  assert (forall p, in_range p -> table m' root p = table m root p) as Htb.
  { intros p Hp. apply (table_store m root free (P0 i j) t k v p); try done. right. eauto. }
  split; [|done]. split.
  - intros p x Hp. rewrite Htb by done. by apply Hw.
  - intros p q x Hp Hq. rewrite !Htb by done. by apply Hw.
Qed.

Lemma xlate_store_leaf m root free va v va' t :
  pt_wf m root free -> 0 <= va < MAXVA -> 0 <= va' < MAXVA -> 0 <= v < 2 ^ 64 ->
  table m root (P0 (PX 2 va) (PX 1 va)) = Some t ->
  xlate (store64 m (pte_addr t (PX 0 va)) v) root va' = if decide (va' / 4096 = va / 4096) then v else xlate m root va'.
Proof.
  intros Hw Hva Hva' Hv Ht. assert (forall x, in_range (P0 (PX 2 x) (PX 1 x))) as Hrg by (intros x; split; apply PX_range; lia).
  destruct (pt_wf_leaf m root free _ _ t (PX 0 va) v Hw (Hrg va) ltac:(apply PX_range; lia) Hv Ht) as [_ Htb].
  unfold xlate. rewrite Htb by done.
  destruct (pw_page _ _ _ Hw _ t (Hrg va) Ht) as [Htp _].
  case_decide as E.
  - rewrite (page_PX va' va 2), (page_PX va' va 1), (page_PX va' va 0), Ht by (done || lia).
    rewrite ent_store by (done || (apply PX_range; lia)). by rewrite decide_True.
  - destruct (table m root (P0 (PX 2 va') (PX 1 va'))) as [t'|] eqn:Ht'; [|done].
    destruct (pw_page _ _ _ Hw _ t' (Hrg va') Ht') as [Htp' _].
    rewrite ent_store by (done || (apply PX_range; lia)). rewrite decide_False; [done|]. intros [-> E0].
    apply E. pose proof (pw_inj _ _ _ Hw _ _ t (Hrg va') (Hrg va) Ht' Ht) as [= E2 E1]. by apply PX_inj.
Qed.

Lemma ent_zero m t i : 0 <= i < 512 -> (forall a, in_page t a -> m a = 0) -> ent m t i = 0.
Proof.
  intros Hi Hz. unfold ent. rewrite (load64_ext m (fun _ => 0)); [done|]. intros x Hx. apply Hz. unfold in_page, PGSIZE, pte_addr in *. lia.
Qed.

(** Linking a fresh zeroed page [pg] under entry [k] of the table at [q]. *)
Section NewTable.
Context (m m1 : mem) (root pg : Z) (free : list Z) (q : pos) (t k : Z).
Context (Hw : pt_wf m root (pg :: free)) (Hpg : page_ok end_ pg) (Hnf : pg ∉ free).
Context (Hq : in_range q) (Hleaf : forall i j, q <> P0 i j) (Hk : 0 <= k < 512).
Context (Ht : table m root q = Some t) (Hnone : next_table m t k = None).
Context (Hsame : forall a, ~ in_page pg a -> m1 a = m a) (Hzero : forall a, in_page pg a -> m1 a = 0).
Let v := Z.lor (PA2PTE pg) PTE_V.
Let m2 := store64 m1 (pte_addr t k) v.

Lemma nt_value : 0 <= v < 2 ^ 64 /\ flag v PTE_V = true /\ PTE2PA v = pg.
Proof.
  assert (v = mk_pte pg 0) as -> by (unfold v, mk_pte; by rewrite Z.lor_0_r).
  destruct (mk_pte_facts pg 0 (page_ok_is_page pg Hpg)) as (? & _ & ? & ?); [lia|done].
Qed.

Lemma nt_ent p x i : in_range p -> 0 <= i < 512 -> table m root p = Some x -> ent m1 x i = ent m x i.
Proof.
  intros Hp Hi Hx. apply ent_ext; [done|]. intros a Ha. apply Hsame.
  destruct (pw_page _ _ _ Hw p x Hp Hx) as [Hxp Hxn]. intros Hin.
  destruct (page_ok_apart end_ x pg Hxp Hpg) as [?|?]; [set_solver | |]; unfold in_page in *; lia.
Qed.

Lemma nt_table1 p : in_range p -> table m1 root p = table m root p.
Proof.
  assert (forall p' x i, in_range p' -> 0 <= i < 512 -> table m root p' = Some x -> next_table m1 x i = next_table m x i) as Hn.
  { intros p' x i Hp' Hi Hx. unfold next_table. by rewrite (nt_ent p'). }
  destruct p as [|i|i j]; simpl; [done | intros Hi; by apply (Hn P2) | intros [Hi Hj]].
  rewrite (Hn P2 root i) by done. destruct (next_table m root i) as [t1|] eqn:E; [|done]. simpl. by apply (Hn (P1 i)).
Qed.

Lemma nt_wf1 : pt_wf m1 root (pg :: free).
Proof.
  split; [intros p x Hp; rewrite nt_table1 by done; by apply Hw |].
  intros p p' x Hp Hp'. rewrite !nt_table1 by done. by apply Hw.
Qed.

Lemma nt_ent2 x i :
  page_ok end_ x -> 0 <= i < 512 -> ent m2 x i = if decide (x = t /\ i = k) then v else ent m1 x i.
Proof.
  intros Hx Hi. unfold m2. apply ent_store; try done; [|apply nt_value].
  by destruct (pw_page _ _ _ Hw q t Hq Ht).
Qed.

Lemma nt_pg_entries i : 0 <= i < 512 -> ent m2 pg i = 0.
Proof.
  intros Hi. rewrite nt_ent2 by done. rewrite decide_False; [by apply ent_zero|]. intros [E _].
  destruct (pw_page _ _ _ Hw q t Hq Ht) as [_ Hn]. set_solver.
Qed.

Lemma nt_q : q = P2 /\ t = root \/ exists i, q = P1 i /\ next_table m root i = Some t.
Proof.
  pose proof Ht as Ht'. destruct q as [|i|i j] eqn:E; [left | right | by destruct (Hleaf i j)].
  - by injection Ht' as <-.
  - eauto.
Qed.

Lemma nt_link : next_table m2 t k = Some pg.
Proof.
  unfold next_table. destruct (pw_page _ _ _ Hw q t Hq Ht) as [Htp _]. destruct nt_value as (_ & Hf & Hp).
  rewrite nt_ent2, decide_True by done. by rewrite Hf, Hp.
Qed.

Lemma classic_sub p : (exists x, q = P2 /\ p = P0 k x) \/ ~ (exists x, q = P2 /\ p = P0 k x).
Proof.
  destruct (decide (q = P2)) as [Eq|]; [|right; by intros (? & ? & _)].
  destruct p as [|i|i j]; [right; by intros (? & _ & ?)..|].
  destruct (decide (i = k)) as [->|]; [left; eauto | right; intros (? & _ & ?); congruence].
Qed.

Lemma nt_table2 p : in_range p -> table m2 root p = if decide (p = child q k) then Some pg else table m root p.
Proof.
  intros Hp. case_decide as E.
  - rewrite E. destruct nt_q as [[Eq Er]|(i & Eq & Et)]; rewrite Eq; simpl.
    + rewrite <- Er. apply nt_link.
    + assert (next_table m2 root i = Some t) as ->; [|apply nt_link].
      assert (in_range (P1 i)) as Hi by (by rewrite <- Eq).
      rewrite <- Et. change (table m2 root (P1 i) = table m root (P1 i)). rewrite <- nt_table1 by done.
      unfold m2. apply (table_store m1 root (pg :: free) q t k v (P1 i)); try done;
        [apply nt_wf1 | apply nt_value | by rewrite nt_table1 | left; by rewrite Eq].
  - destruct (classic_sub p) as [(x & Eq & ->)|Hsub].
    + assert (t = root) as Er by (destruct nt_q as [[_ ?]|(? & ? & _)]; congruence).
      simpl. rewrite <- Er, nt_link, Hnone. simpl. unfold next_table. destruct Hp as [_ Hx]. by rewrite nt_pg_entries.
    + rewrite <- nt_table1 by done. unfold m2. apply (table_store m1 root (pg :: free) q t k v p); try done;
        [apply nt_wf1 | apply nt_value | by rewrite nt_table1 | | by left].
      intros x Eq ->. apply Hsub. eauto.
Qed.

Lemma nt_fresh p : in_range p -> table m root p = Some pg -> False.
Proof. intros Hp Hx. destruct (pw_page _ _ _ Hw p pg Hp Hx) as [_ Hn]. set_solver. Qed.

Lemma nt_wf2 : pt_wf m2 root free.
Proof.
  split.
  - intros p x Hp. rewrite nt_table2 by done. case_decide; [by intros [= <-]|]. intros Hx.
    destruct (pw_page _ _ _ Hw p x Hp Hx). split; [done | set_solver].
  - intros p p' x Hp Hp'. rewrite !nt_table2 by done. repeat case_decide; subst; try done.
    + intros [= <-] Hx. by apply nt_fresh in Hx.
    + intros Hx [= <-]. by apply nt_fresh in Hx.
    + by apply Hw.
Qed.

Lemma nt_xlate va : xlate m2 root va = xlate m root va.
Proof.
  assert (in_range (P0 (PX 2 va) (PX 1 va))) as Hr by (split; apply PX_range; lia).
  unfold xlate. rewrite nt_table2 by done. case_decide as E.
  - rewrite nt_pg_entries by (apply PX_range; lia). rewrite E. destruct nt_q as [[Eq Er]|(i & Eq & Et)]; rewrite Eq in E |- *; simpl in *; [done|].
    rewrite Et. simpl. by rewrite Hnone.
  - destruct (table m root (P0 (PX 2 va) (PX 1 va))) as [x|] eqn:Hx; [|done].
    destruct (pw_page _ _ _ Hw _ x Hr Hx) as [Hxp _]. rewrite nt_ent2 by (done || (apply PX_range; lia)).
    rewrite decide_False; [by apply (nt_ent _ x (PX 0 va) Hr); [apply PX_range; lia|]|].
    intros [-> _]. by apply (Hleaf (PX 2 va) (PX 1 va)), (pw_inj _ _ _ Hw q _ t Hq Hr Ht Hx).
Qed.
End NewTable.

(** ** Walking *)

(** The allocator and the page table are in order, [free] being the free list. *)
Definition vm_ok (s : kalloc_st) (root : Z) (free : list Z) : Prop :=
  kmem_inv end_ s free /\ pt_wf (ka_mem s) root free.

Lemma kmem_inv_frame s s' l :
  kmem_inv end_ s l -> kmem s' = kmem s -> byte_mem (ka_mem s') ->
  (forall x a, x ∈ l -> in_page x a -> ka_mem s' a = ka_mem s a) -> kmem_inv end_ s' l.
Proof.
  intros (Hb & Hc & Hnd & Hn) Hk Hb' Hf. split; [done|]. rewrite Hk. split; [|done].
  eapply free_chain_frame; [exact Hc|]. intros x a Hx Ha. symmetry. by eapply Hf.
Qed.

(** A page taken from the allocator and zeroed. *)
Lemma kalloc_zero s l pg :
  kmem_inv end_ s (pg :: l) ->
  exists s1 s2, kalloc s = Ret pg s1 /\ on_ks (memset pg 0 PGSIZE) s1 = Ret pg s2 /\ kmem_inv end_ s2 l
    /\ (forall a, in_page pg a -> ka_mem s2 a = 0) /\ (forall a, ~ in_page pg a -> ka_mem s2 a = ka_mem s a).
Proof.
  intros Hkm. pose proof Hkm as (_ & (_ & Hpg & _) & Hnd & _). apply NoDup_cons in Hnd as [Hnf _].
  destruct (kalloc_spec end_ s l pg Hkm) as (s1 & R1 & Hk1 & _ & Hs1).
  assert (pg <> 0) as Hpg0 by (destruct Hpg; lia).
  pose proof (fill_page s1 pg 0 Hpg0) as R2. pose proof (fill_page_byte _ pg 0 (proj1 Hk1)) as Hb2.
  pose proof (fun a => fill_page_frame (ka_mem s1) pg 0 a) as Hfr. pose proof (fun a => fill_page_in (ka_mem s1) pg 0 a) as Hin.
  set (m2 := memset_loop (Z.to_nat PGSIZE) (ka_mem s1) pg 0 0) in *. clearbody m2.
  eexists s1, _. split; [exact R1|]. split; [exact R2|]. split; [|split; [exact Hin|]].
  - eapply kmem_inv_frame; [exact Hk1 | reflexivity | exact Hb2 |].
    intros x a Hx Ha. apply Hfr. destruct Hk1 as (_ & Hc & _).
    pose proof (free_chain_pages _ _ _ _ Hc) as Hall. rewrite Forall_forall in Hall. intros Hi.
    destruct (page_ok_apart end_ pg x Hpg (Hall x Hx)) as [?|?]; [congruence | |]; unfold in_page in *; lia.
  - intros a Ha. transitivity (ka_mem s1 a); [exact (Hfr a Ha) | exact (Hs1 a Ha)].
Qed.

Lemma pte_in_page t i x : 0 <= i < 512 -> pte_addr t i <= x < pte_addr t i + 8 -> in_page t x.
Proof. unfold pte_addr, in_page, PGSIZE. lia. Qed.

(** Storing an entry of a table that is not free keeps the allocator in order. *)
Lemma kmem_inv_store s l t i v :
  kmem_inv end_ s l -> page_ok end_ t -> t ∉ l -> 0 <= i < 512 ->
  kmem_inv end_ (set_ka_mem (store64 (ka_mem s) (pte_addr t i) v) s) l.
Proof.
  intros Hk Ht Hn Hi. pose proof Hk as (Hb & Hc & _). eapply kmem_inv_frame; [exact Hk | done | by apply store64_byte |].
  intros x a Hx Ha. simpl. apply store64_frame. pose proof (free_chain_pages _ _ _ _ Hc) as Hok. rewrite Forall_forall in Hok.
  destruct (page_ok_apart end_ t x Ht (Hok x Hx)) as [?|?]; [set_solver | |]; unfold in_page, pte_addr, PGSIZE in *; lia.
Qed.

Lemma table_nonzero s root l p t : vm_ok s root l -> in_range p -> table (ka_mem s) root p = Some t -> 0 < t.
Proof. intros [_ Hw] Hp Ht. by destruct (pw_page _ _ _ Hw p t Hp Ht) as [(? & _) _]. Qed.

Lemma load_pte_run s root l p t i :
  vm_ok s root l -> in_range p -> table (ka_mem s) root p = Some t -> 0 <= i ->
  load_pte (pte_addr t i) s = Ret (ent (ka_mem s) t i) s.
Proof.
  intros Hok Hp Ht Hi. pose proof (table_nonzero _ _ _ _ _ Hok Hp Ht). unfold load_pte, pte_addr.
  destruct (Z.eqb_spec (t + 8 * i) 0); [lia | done].
Qed.

Lemma table_child m root q t k : (forall i j, q <> P0 i j) -> table m root q = Some t -> table m root (child q k) = next_table m t k.
Proof.
  intros Hl Ht. destruct q as [|i|i j]; simpl in *; [by injection Ht as -> | by rewrite Ht | by destruct (Hl i j)].
Qed.
Lemma child_range q k : in_range q -> 0 <= k < 512 -> in_range (child q k).
Proof. destruct q; simpl; tauto. Qed.

(** How the tree may grow in a walk. *)
Record grows (root : Z) (s : kalloc_st) (l : list Z) (s' : kalloc_st) (l' : list Z) : Prop := {
  gr_ok : vm_ok s' root l';
  gr_sub x : x ∈ l' -> x ∈ l;
  gr_table p x : in_range p -> table (ka_mem s) root p = Some x -> table (ka_mem s') root p = Some x;
  gr_xlate va : xlate (ka_mem s') root va = xlate (ka_mem s) root va }.

Lemma grows_refl root s l : vm_ok s root l -> grows root s l s l.
Proof. by split. Qed.
Lemma grows_trans root s1 l1 s2 l2 s3 l3 : grows root s1 l1 s2 l2 -> grows root s2 l2 s3 l3 -> grows root s1 l1 s3 l3.
Proof. intros [A1 A2 A3 A4] [B1 B2 B3 B4]. split; auto. intros. by rewrite B4, A4. Qed.

Lemma walk_level_alloc s l root q t va level :
  vm_ok s root l -> in_range q -> (forall i j, q <> P0 i j) -> table (ka_mem s) root q = Some t -> 0 <= level ->
  (exists t' s' l', walk_level t va level true s = Ret t' s' /\ t' <> 0
     /\ table (ka_mem s') root (child q (PX level va)) = Some t' /\ grows root s l s' l')
  \/ (l = [] /\ walk_level t va level true s = Ret 0 s).
Proof.
  intros Hok Hq Hleaf Ht Hlv. pose proof (PX_range level va Hlv) as Hk. set (k := PX level va) in *.
  pose proof (table_child _ _ q t k Hleaf Ht) as Hch. pose proof (child_range q k Hq Hk) as Hcr.
  unfold walk_level. fold k. rewrite (mthen_ret _ _ _ _ _ (load_pte_run s root l q t k Hok Hq Ht ltac:(lia))).
  unfold next_table in Hch. destruct (flag (ent (ka_mem s) t k) PTE_V) eqn:Hf.
  { left. exists (PTE2PA (ent (ka_mem s) t k)), s, l. split; [done|].
    pose proof (table_nonzero _ _ _ _ _ Hok Hcr Hch). split; [lia|]. split; [done | by apply grows_refl]. }
  cbn [negb]. destruct l as [|pg l'].
  { right. split; [done|]. destruct Hok as [Hk0 _]. by rewrite (mthen_ret _ _ _ _ _ (kalloc_empty end_ s Hk0)). }
  left. destruct Hok as [Hkm Hw]. pose proof Hkm as (Hb & (_ & Hpg & _) & Hnd & _). apply NoDup_cons in Hnd as [Hnf Hnd].
  destruct (kalloc_zero s l' pg Hkm) as (s1 & s2 & R1 & R2 & Hk2 & Hzero & Hsame). rewrite (mthen_ret _ _ _ _ _ R1).
  assert (pg <> 0) as Hpg0 by (destruct Hpg; lia). destruct (Z.eqb_spec pg 0); [done|].
  assert (zero_page pg s1 = Ret tt s2) as R2' by (unfold zero_page; by rewrite (mthen_ret _ _ _ _ _ R2)).
  rewrite (mthen_ret _ _ _ _ _ R2').
  destruct (pw_page _ _ _ Hw q t Hq Ht) as [Htp Htn].
  set (v := Z.lor (PA2PTE pg) PTE_V). set (s3 := set_ka_mem (store64 (ka_mem s2) (pte_addr t k) v) s2).
  rewrite (mthen_ret (store_pte (pte_addr t k) v) _ s2 tt s3 eq_refl).
  exists pg, s3, l'. split; [done|]. split; [done|].
  assert (Hn : next_table (ka_mem s) t k = None) by (unfold next_table; by rewrite Hf).
  assert (forall p, in_range p -> table (ka_mem s3) root p = if decide (p = child q k) then Some pg else table (ka_mem s) root p) as Htb.
  { intros p Hp. by apply (nt_table2 (ka_mem s) (ka_mem s2) root pg l' q t k). }
  split; [rewrite Htb by done; by rewrite decide_True|]. split.
  - split; [apply kmem_inv_store; [done | done | set_solver | done]|].
    by apply (nt_wf2 (ka_mem s) (ka_mem s2) root pg l' q t k).
  - set_solver.
  - intros p x Hp Hx. rewrite Htb by done. rewrite decide_False; [done|]. intros ->. rewrite Hch in Hx. done.
  - intros va'. by apply (nt_xlate (ka_mem s) (ka_mem s2) root pg l' q t k).
Qed.

(** [walk] with [alloc] set finds or makes the leaf entry, without changing
    the translation of any address; it fails only when memory runs out. *)
Lemma walk_alloc s l root va :
  vm_ok s root l -> 0 <= va < MAXVA ->
  (exists t s' l', walk root va true s = Ret (pte_addr t (PX 0 va)) s' /\ grows root s l s' l'
     /\ table (ka_mem s') root (P0 (PX 2 va) (PX 1 va)) = Some t)
  \/ (exists s', walk root va true s = Ret 0 s' /\ grows root s l s' []).
Proof.
  intros Hok Hva. unfold walk. rewrite Z.geb_leb. destruct (Z.leb_spec MAXVA va); [lia|].
  destruct (walk_level_alloc s l root P2 root va 2 Hok I ltac:(done) eq_refl ltac:(lia)) as [(t1 & s1 & l1 & R1 & N1 & T1 & G1)|[-> R1]].
  2:{ right. exists s. rewrite (mthen_ret _ _ _ _ _ R1). split; [done | by apply grows_refl]. }
  rewrite (mthen_ret _ _ _ _ _ R1). destruct (Z.eqb_spec t1 0); [done|].
  assert (in_range (P1 (PX 2 va))) as Hr1 by (apply PX_range; lia).
  destruct (walk_level_alloc s1 l1 root (P1 (PX 2 va)) t1 va 1 (gr_ok _ _ _ _ _ G1) Hr1 ltac:(done) T1 ltac:(lia))
    as [(t0 & s2 & l2 & R2 & N2 & T2 & G2)|[-> R2]].
  2:{ right. exists s1. rewrite (mthen_ret _ _ _ _ _ R2). done. }
  rewrite (mthen_ret _ _ _ _ _ R2). destruct (Z.eqb_spec t0 0); [done|].
  left. exists t0, s2, l2. split; [done|]. split; [by eapply grows_trans | exact T2].
Qed.

(** [walk] without [alloc] reads the tree. *)
Lemma walk_lookup s l root va :
  vm_ok s root l -> 0 <= va < MAXVA ->
  walk root va false s
  = Ret (match table (ka_mem s) root (P0 (PX 2 va) (PX 1 va)) with Some t => pte_addr t (PX 0 va) | None => 0 end) s.
Proof.
  intros Hok Hva. unfold walk. rewrite Z.geb_leb. destruct (Z.leb_spec MAXVA va); [lia|].
  pose proof (PX_range 2 va ltac:(lia)) as Hk2. pose proof (PX_range 1 va ltac:(lia)) as Hk1.
  assert (walk_level root va 2 false s = Ret (default 0 (next_table (ka_mem s) root (PX 2 va))) s) as R1.
  { unfold walk_level, next_table. rewrite (mthen_ret _ _ _ _ _ (load_pte_run s root l P2 root (PX 2 va) Hok I eq_refl (proj1 Hk2))).
    by destruct (flag _ _). }
  rewrite (mthen_ret _ _ _ _ _ R1). simpl table. destruct (next_table (ka_mem s) root (PX 2 va)) as [t1|] eqn:E1; [|done].
  assert (table (ka_mem s) root (P1 (PX 2 va)) = Some t1) as T1 by done.
  pose proof (table_nonzero _ _ _ (P1 (PX 2 va)) t1 Hok Hk2 T1). change (default 0 (Some t1)) with t1. destruct (Z.eqb_spec t1 0); [lia|].
  assert (walk_level t1 va 1 false s = Ret (default 0 (next_table (ka_mem s) t1 (PX 1 va))) s) as R2.
  { unfold walk_level, next_table.
    rewrite (mthen_ret _ _ _ _ _ (load_pte_run s root l (P1 (PX 2 va)) t1 (PX 1 va) Hok Hk2 T1 (proj1 Hk1))). by destruct (flag _ _). }
  rewrite (mthen_ret _ _ _ _ _ R2). cbn [mbind option_bind]. destruct (next_table (ka_mem s) t1 (PX 1 va)) as [t0|] eqn:E0; [|done].
  assert (table (ka_mem s) root (P0 (PX 2 va) (PX 1 va)) = Some t0) as T0 by (simpl; by rewrite E1).
  pose proof (table_nonzero _ _ _ (P0 (PX 2 va) (PX 1 va)) t0 Hok (conj Hk2 Hk1) T0). change (default 0 (Some t0)) with t0. destruct (Z.eqb_spec t0 0); [lia|done].
Qed.
End Tree.
