(* ===== verification/VmMap.v ===== *)
(** Address spaces: [uvmcreate], [mappages], [walkaddr] and [uvmunmap] against
    the translation [xlate] of VmProof. *)

From S2P Require Import Prelude.
From S2P Require Import KString.
From S2P Require Import Riscv.
From S2P Require Import Kalloc.
From S2P Require Import Vm.
From S2P Require Import VmProof.

Section Map.
Context (end_ : Z).
#[local] Abbreviation vm_ok := (vm_ok end_).

(** ** Frames *)

(** Memory changes outside the tables of a page table keep its translation. *)
Section Frame.
Context (m m' : mem) (root : Z).
Context (Hs : forall p t a, in_range p -> table m root p = Some t -> in_page t a -> m' a = m a).

Lemma fr_next p t i : in_range p -> 0 <= i < 512 -> table m root p = Some t -> ent m' t i = ent m t i.
Proof. intros Hp Hi Ht. apply ent_ext; [done|]. intros a Ha. by eapply Hs. Qed.

Lemma fr_table p : in_range p -> table m' root p = table m root p.
Proof.
  assert (forall q x i, in_range q -> 0 <= i < 512 -> table m root q = Some x -> next_table m' x i = next_table m x i) as Hn.
  { intros q x i Hq Hi Hx. unfold next_table. by rewrite (fr_next q). }
  destruct p as [|i|i j]; simpl; [done | intros Hi; by apply (Hn P2) | intros [Hi Hj]].
  rewrite (Hn P2 root i) by done. destruct (next_table m root i) as [t1|] eqn:E; [|done]. simpl. by apply (Hn (P1 i)).
Qed.

Lemma fr_xlate va : xlate m' root va = xlate m root va.
Proof.
  assert (in_range (P0 (PX 2 va) (PX 1 va))) as Hr by (split; apply PX_range; lia).
  unfold xlate. rewrite fr_table by done. destruct (table m root _) as [t|] eqn:E; [|done].
  eapply fr_next; [exact Hr | apply PX_range; lia | exact E].
Qed.

Lemma fr_wf free free' :
  pt_wf end_ m root free -> (forall p t, in_range p -> table m root p = Some t -> t ∉ free') -> pt_wf end_ m' root free'.
Proof.
  intros [Hp Hi] Hf. split.
  - intros p t Hr. rewrite fr_table by done. intros Ht. split; [by apply (Hp p t) | by eapply Hf].
  - intros p q t Hr Hq. rewrite !fr_table by done. by apply Hi.
Qed.
End Frame.

(** ** A new address space *)

Lemma uvmcreate_spec s pg l :
  kmem_inv end_ s (pg :: l) ->
  exists s', uvmcreate s = Ret pg s' /\ vm_ok s' pg l /\ (forall va, xlate (ka_mem s') pg va = 0).
Proof.
  intros Hk. pose proof Hk as (_ & (_ & Hpg & _) & Hnd & _). apply NoDup_cons in Hnd as [Hnf _].
  destruct (kalloc_zero end_ s l pg Hk) as (s1 & s2 & R1 & R2 & Hk2 & Hz & _).
  assert (forall i, 0 <= i < 512 -> next_table (ka_mem s2) pg i = None) as Hnone.
  { intros i Hi. unfold next_table. by rewrite ent_zero. }
  assert (forall p t, in_range p -> table (ka_mem s2) pg p = Some t -> p = P2 /\ t = pg) as Htb.
  { intros [|i|i j] t; simpl; [by intros _ [= ->] | intros Hi; by rewrite Hnone | intros [Hi _]; by rewrite Hnone]. }
  exists s2. split.
  { unfold uvmcreate. rewrite (mthen_ret _ _ _ _ _ R1). destruct Hpg as (? & _).
    destruct (Z.eqb_spec pg 0); [lia|]. by rewrite (mthen_ret _ _ _ _ _ R2). }
  split; [split; [done|split]|].
  - intros p t Hr Ht. by destruct (Htb p t Hr Ht) as [_ ->].
  - intros p q t Hp Hq Ht Ht'. destruct (Htb p t Hp Ht) as [-> _]. by destruct (Htb q t Hq Ht') as [-> _].
  - intros va. unfold xlate. simpl. by rewrite Hnone by (apply PX_range; lia).
Qed.

(** ** Mapping *)

(** The translation [f] with [k] pages from [va] mapped to [pa] on. *)
Definition with_range (f : Z -> Z) (va pa perm : Z) (k : nat) (x : Z) : Z :=
  if decide (va <= x < va + PGSIZE * Z.of_nat k) then mk_pte (pa + (x / PGSIZE * PGSIZE - va)) perm else f x.

Definition unmapped (m : mem) (root va : Z) (n : nat) : Prop :=
  forall i, 0 <= i < Z.of_nat n -> flag (xlate m root (va + PGSIZE * i)) PTE_V = false.

(** One page: the entry is found or made, and replaced. *)
Lemma map_one s l root va v :
  vm_ok s root l -> 0 <= va < MAXVA -> 0 <= v < 2 ^ 64 ->
  (exists pte s1 s2 l', walk root va true s = Ret pte s1 /\ pte <> 0 /\ (forall x, x ∈ l' -> x ∈ l)
     /\ load_pte pte s1 = Ret (xlate (ka_mem s) root va) s1 /\ store_pte pte v s1 = Ret tt s2 /\ vm_ok s2 root l'
     /\ (forall x, 0 <= x < MAXVA ->
           xlate (ka_mem s2) root x = if decide (x / 4096 = va / 4096) then v else xlate (ka_mem s) root x))
  \/ (exists s1, walk root va true s = Ret 0 s1 /\ vm_ok s1 root []
     /\ (forall x, xlate (ka_mem s1) root x = xlate (ka_mem s) root x)).
Proof.
  intros Hok Hva Hv. assert (in_range (P0 (PX 2 va) (PX 1 va))) as Hr by (split; apply PX_range; lia).
  pose proof (PX_range 0 va ltac:(lia)) as H0.
  destruct (walk_alloc end_ s l root va Hok Hva) as [(t & s1 & l' & R & G & Ht)|(s1 & R & G)]; [left | right].
  2:{ exists s1. split; [done|]. split; [apply G | apply G]. }
  pose proof (gr_ok _ _ _ _ _ _ G) as Hok1. pose proof Hok1 as [Hk1 Hw1].
  destruct (pw_page _ _ _ _ Hw1 _ t Hr Ht) as [Htp Htn].
  exists (pte_addr t (PX 0 va)), s1, (set_ka_mem (store64 (ka_mem s1) (pte_addr t (PX 0 va)) v) s1), l'.
  split; [done|]. split; [unfold pte_addr; destruct Htp; lia|]. split; [apply G|]. split.
  { rewrite (load_pte_run end_ s1 root l' _ t _ Hok1 Hr Ht) by lia. f_equal.
    rewrite <- (gr_xlate _ _ _ _ _ _ G va). unfold xlate. by rewrite Ht. }
  split; [done|]. split; [split|].
  - by apply kmem_inv_store.
  - by apply (pt_wf_leaf end_ (ka_mem s1) root l' (PX 2 va) (PX 1 va)).
  - intros x Hx. simpl. change (ka_mem (set_ka_mem ?m s1)) with m.
    rewrite (xlate_store_leaf end_ (ka_mem s1) root l' va v x t) by done. by rewrite (gr_xlate _ _ _ _ _ _ G).
Qed.

(** The state after [k] of the [n] pages from [va] are mapped. *)
Definition mapped_upto (s : kalloc_st) (root va pa perm : Z) (k : nat) (s' : kalloc_st) : Prop :=
  forall x, 0 <= x < MAXVA -> xlate (ka_mem s') root x = with_range (xlate (ka_mem s) root) va pa perm k x.

Lemma with_range_S f va pa perm k x :
  va mod 4096 = 0 ->
  with_range (fun y => if decide (y / 4096 = va / 4096) then mk_pte pa perm else f y) (va + PGSIZE) (pa + PGSIZE) perm k x
  = with_range f va pa perm (S k) x.
Proof.
  intros Ha. unfold with_range, PGSIZE. rewrite Nat2Z.inj_succ.
  repeat case_decide; try dlia; f_equal; dlia.
Qed.

(** One iteration of [mappages]. *)
Lemma mappages_step fuel s l root va last pa perm :
  vm_ok s root l -> 0 <= va < MAXVA -> is_page pa -> 0 <= perm < 1024 ->
  (exists s2 l', mappages_loop (S fuel) root va last pa perm s
     = (if flag (xlate (ka_mem s) root va) PTE_V then Panic "mappages: remap" else
        (if va =? last then mreturn 0 else mappages_loop fuel root (u64 (va + PGSIZE)) last (u64 (pa + PGSIZE)) perm) s2)
     /\ vm_ok s2 root l' /\ (forall x, x ∈ l' -> x ∈ l)
     /\ (forall x, 0 <= x < MAXVA ->
           xlate (ka_mem s2) root x = if decide (x / 4096 = va / 4096) then mk_pte pa perm else xlate (ka_mem s) root x))
  \/ (exists s1, mappages_loop (S fuel) root va last pa perm s = Ret (-1) s1 /\ vm_ok s1 root []
     /\ (forall x, xlate (ka_mem s1) root x = xlate (ka_mem s) root x)).
Proof.
  intros Hok Hva Hpa Hperm. destruct (mk_pte_facts pa perm Hpa Hperm) as (_ & _ & _ & Hv). cbn [mappages_loop].
  destruct (map_one s l root va (mk_pte pa perm) Hok Hva Hv)
    as [(pte & s1 & s2 & l' & R1 & Hne & Hsub & R2 & R3 & Hok2 & Hx)|(s1 & R1 & Hok1 & Hx)];
    rewrite (mthen_ret _ _ _ _ _ R1); [left | right; by exists s1].
  exists s2, l'. destruct (Z.eqb_spec pte 0); [done|]. rewrite (mthen_ret _ _ _ _ _ R2).
  split; [|done]. destruct (flag _ _); [done|]. by rewrite (mthen_ret _ _ _ _ _ R3).
Qed.

Lemma mappages_loop_spec n s l root va pa perm :
  vm_ok s root l -> va mod 4096 = 0 -> 0 <= va -> va + 4096 * Z.of_nat (S n) <= MAXVA ->
  is_page pa -> pa + 4096 * Z.of_nat (S n) <= 2 ^ 56 -> 0 <= perm < 1024 -> unmapped (ka_mem s) root va (S n) ->
  exists r k s' l', mappages_loop (S n) root va (va + 4096 * Z.of_nat n) pa perm s = Ret r s'
    /\ vm_ok s' root l' /\ (forall x, x ∈ l' -> x ∈ l) /\ mapped_upto s root va pa perm k s'
    /\ (r = 0 /\ k = S n \/ r = -1 /\ (k <= n)%nat /\ l' = []).
Proof.
  revert s l va pa. induction n as [|n IH]; intros s l va pa Hok Ha H0 Hmax Hpa Hpm Hperm Hun;
    pose proof (Hun 0 ltac:(lia)) as Hf; rewrite Z.mul_0_r, Z.add_0_r in Hf.
  all: match goal with |- context [mappages_loop (S ?fuel) _ _ ?last] =>
    destruct (mappages_step fuel s l root va last pa perm Hok ltac:(lia) Hpa Hperm)
      as [(s2 & l' & -> & Hok2 & Hsub & Hx)|(s1 & -> & Hok1 & Hx)] end.
  2, 4: exists (-1), O, s1, []; split; [done|]; split; [done|]; split; [set_solver|]; split;
    [intros x Hr; unfold with_range; rewrite decide_False by lia; apply Hx | right; split; [done|]; split; [lia|done]].
  all: rewrite Hf.
  - rewrite Z.add_0_r, Z.eqb_refl. exists 0, 1%nat, s2, l'. do 3 (split; [done|]). split; [|by left].
    intros x Hr. rewrite Hx by done. unfold with_range, PGSIZE. repeat case_decide; try dlia; f_equal; dlia.
  - destruct (Z.eqb_spec va (va + 4096 * Z.of_nat (S n))); [lia|].
    assert (PGSIZE = 4096) as EP by done. change MAXVA with (2 ^ 38) in Hmax. destruct Hpa as [Hpr Hpa].
    rewrite !u64_small by lia.
    destruct (IH s2 l' (va + PGSIZE) (pa + PGSIZE)) as (r & k & s' & l'' & R & Hok' & Hsub' & Hm & Hr);
      [done | dlia | lia | change MAXVA with (2 ^ 38); lia | split; dlia | lia | done | |].
    + intros i Hi. rewrite Hx by (change MAXVA with (2 ^ 38); lia). rewrite decide_False by dlia.
      replace (va + PGSIZE + PGSIZE * i) with (va + PGSIZE * (i + 1)) by lia. apply Hun. lia.
    + exists r, (S k), s', l''. split.
      { rewrite <- R. f_equal. lia. }
      split; [done|]. split; [set_solver|].
      split; [|destruct Hr as [[-> ->]|(-> & ? & ->)]; [by left | right; split; [done|]; split; [lia | done]]].
      intros x Hxr. rewrite Hm by done. rewrite <- with_range_S by done.
      unfold with_range. case_decide; [done|]. by apply Hx.
Qed.

(** [walkaddr] and [ismapped] read the translation. *)
Lemma leaf_lookup s l root va :
  vm_ok s root l -> 0 <= va < MAXVA ->
  exists pte, walk root va false s = Ret pte s
    /\ (pte = 0 /\ xlate (ka_mem s) root va = 0
        \/ pte <> 0 /\ load_pte pte s = Ret (xlate (ka_mem s) root va) s
           /\ exists t, table (ka_mem s) root (P0 (PX 2 va) (PX 1 va)) = Some t /\ pte = pte_addr t (PX 0 va)).
Proof.
  intros Hok Hva. assert (in_range (P0 (PX 2 va) (PX 1 va))) as Hr by (split; apply PX_range; lia).
  pose proof (PX_range 0 va ltac:(lia)) as H0. eexists. split; [by eapply walk_lookup|]. unfold xlate.
  destruct (table (ka_mem s) root (P0 (PX 2 va) (PX 1 va))) as [t|] eqn:E; [right | by left].
  pose proof (table_nonzero _ _ _ _ _ t Hok Hr E). split; [unfold pte_addr; lia|].
  split; [|by exists t]. eapply load_pte_run; [exact Hok | exact Hr | exact E | lia].
Qed.

Lemma walkaddr_spec s l root va :
  vm_ok s root l -> 0 <= va < MAXVA ->
  let e := xlate (ka_mem s) root va in
  walkaddr root va s = Ret (if flag e PTE_V && flag e PTE_U then PTE2PA e else 0) s.
Proof.
  intros Hok Hva e. unfold walkaddr. rewrite Z.geb_leb. destruct (Z.leb_spec MAXVA va); [lia|].
  destruct (leaf_lookup s l root va Hok Hva) as (pte & R & [[-> E]|(Hne & L & _)]); rewrite (mthen_ret _ _ _ _ _ R).
  - by unfold e; rewrite E.
  - destruct (Z.eqb_spec pte 0); [done|]. rewrite (mthen_ret _ _ _ _ _ L). fold e.
    by destruct (flag e PTE_V), (flag e PTE_U).
Qed.

Lemma ismapped_spec s l root va :
  vm_ok s root l -> 0 <= va < MAXVA -> ismapped root va s = Ret (flag (xlate (ka_mem s) root va) PTE_V) s.
Proof.
  intros Hok Hva. unfold ismapped.
  destruct (leaf_lookup s l root va Hok Hva) as (pte & R & [[-> E]|(Hne & L & _)]); rewrite (mthen_ret _ _ _ _ _ R).
  - by rewrite E.
  - destruct (Z.eqb_spec pte 0); [done|]. by rewrite (mthen_ret _ _ _ _ _ L).
Qed.

Lemma flag_user pa perm : is_page pa -> flag (mk_pte pa perm) PTE_U = flag perm PTE_U.
Proof.
  intros Hp. unfold PTE_U. rewrite !flag_testbit by lia. unfold mk_pte. rewrite !Z.lor_spec, PA2PTE_page by done.
  change (Z.testbit PTE_V 4) with false. rewrite orb_false_r. change 1024 with (2 ^ 10). by rewrite Z.mul_pow2_bits_low by lia.
Qed.

(** ** Unmapping *)

(** The page [va] translates to can be released: it is a managed page that is
    neither free nor a table of this page table. *)
Definition releasable (s : kalloc_st) (root : Z) (l : list Z) (va : Z) : Prop :=
  let pa := PTE2PA (xlate (ka_mem s) root va) in
  page_ok end_ pa /\ (pa ∉ l) /\ (forall p, in_range p -> table (ka_mem s) root p <> Some pa).

Lemma unmap_page_spec s l root va (do_free : bool) :
  vm_ok s root l -> 0 <= va < MAXVA ->
  let e := xlate (ka_mem s) root va in
  (do_free = true -> flag e PTE_V = true -> releasable s root l va) ->
  exists s', unmap_page end_ root va do_free s = Ret tt s'
    /\ vm_ok s' root (if flag e PTE_V && do_free then PTE2PA e :: l else l)
    /\ (forall p, in_range p -> table (ka_mem s') root p = table (ka_mem s) root p)
    /\ (forall x, 0 <= x < MAXVA -> xlate (ka_mem s') root x
         = if decide (x / 4096 = va / 4096 /\ flag e PTE_V = true) then 0 else xlate (ka_mem s) root x).
Proof.
  intros Hok Hva e Hrel. unfold unmap_page.
  assert (in_range (P0 (PX 2 va) (PX 1 va))) as Hr by (split; apply PX_range; lia).
  pose proof (PX_range 0 va ltac:(lia)) as H0.
  destruct (leaf_lookup s l root va Hok Hva) as (pte & R & [[-> E]|(Hne & L & t & Ht & ->)]); rewrite (mthen_ret _ _ _ _ _ R).
  { exists s. unfold e. rewrite E. split; [done|]. split; [done|]. split; [done|]. intros x _. rewrite decide_False; [done | by intros [_ ?]]. }
  destruct (Z.eqb_spec (pte_addr t (PX 0 va)) 0); [done|]. rewrite (mthen_ret _ _ _ _ _ L). fold e.
  destruct (flag e PTE_V) eqn:Hf; cbn [negb andb].
  2:{ exists s. split; [done|]. split; [done|]. split; [done|]. intros x _. rewrite decide_False; [done | by intros [_ ?]]. }
  assert (exists s1, (when do_free do kfree end_ (PTE2PA e)) s = Ret tt s1 /\ vm_ok s1 root (if do_free then PTE2PA e :: l else l)
    /\ (forall p, in_range p -> table (ka_mem s1) root p = table (ka_mem s) root p)
    /\ forall x, xlate (ka_mem s1) root x = xlate (ka_mem s) root x) as (s1 & R1 & Hok1 & Htb1 & Hx1).
  { destruct do_free; [|by exists s]. destruct (Hrel eq_refl eq_refl) as (Hp & Hn & Hnt). fold e in Hp, Hn, Hnt.
    destruct Hok as [Hk Hw]. destruct (kfree_spec end_ s l _ Hk Hp Hn) as (s1 & R1 & Hk1 & Hs1). exists s1.
    assert (forall p t a, in_range p -> table (ka_mem s) root p = Some t -> in_page t a -> ka_mem s1 a = ka_mem s a) as Hs.
    { intros p t' a Hpr Ht' Hin. apply Hs1. intros Hin'. destruct (pw_page _ _ _ _ Hw p t' Hpr Ht') as [Hp' _].
      destruct (page_ok_apart end_ _ _ Hp Hp') as [?|?]; [intros E; apply (Hnt p Hpr); by rewrite E | |]; unfold in_page in *; lia. }
    split; [done|]. split; [split; [done|]; eapply fr_wf; [exact Hs | exact Hw |] | split; [by apply fr_table | by apply fr_xlate]].
    intros p t' Hpr Ht'. destruct (pw_page _ _ _ _ Hw p t' Hpr Ht') as [_ Hn']. apply not_elem_of_cons. split; [|done].
    intros E. apply (Hnt p Hpr). by rewrite Ht', E. }
  rewrite (mthen_ret _ _ _ _ _ R1). eexists. split; [reflexivity|]. rewrite <- Htb1 in Ht by done. destruct Hok1 as [Hk1 Hw1].
  destruct (pw_page _ _ _ _ Hw1 _ t Hr Ht) as [Htp Htn].
  destruct (pt_wf_leaf end_ (ka_mem s1) root _ (PX 2 va) (PX 1 va) t (PX 0 va) 0 Hw1 Hr H0 ltac:(lia) Ht) as [Hw2 Htb2].
  split; [split; [by apply kmem_inv_store | done]|]. split; [intros p Hp; etransitivity; [by apply Htb2 | by apply Htb1]|].
  intros x Hx. etransitivity; [eapply (xlate_store_leaf end_ (ka_mem s1) root _ va 0 x t); done || lia|].
  rewrite Hx1. repeat case_decide; tauto.
Qed.

(** The pages the mapped addresses of a range translate to, in order. *)
Fixpoint frames (f : Z -> Z) (va : Z) (n : nat) : list Z :=
  match n with
  | O => []
  | S n' => (if flag (f va) PTE_V then [PTE2PA (f va)] else []) ++ frames f (va + PGSIZE) n'
  end.

Lemma frames_ext f g va n : (forall i, 0 <= i < Z.of_nat n -> f (va + PGSIZE * i) = g (va + PGSIZE * i)) -> frames f va n = frames g va n.
Proof.
  revert va. induction n as [|n IH]; intros va H; [done|]. cbn [frames].
  pose proof (H 0 ltac:(lia)) as H0. rewrite Z.mul_0_r, Z.add_0_r in H0. rewrite H0. f_equal. apply IH.
  intros i Hi. replace (va + PGSIZE + PGSIZE * i) with (va + PGSIZE * (i + 1)) by lia. apply H. lia.
Qed.

(** The frames of a range can all be released. *)
Definition frames_ok (s : kalloc_st) (root : Z) (l : list Z) (va : Z) (n : nat) : Prop :=
  let fs := frames (xlate (ka_mem s) root) va n in
  NoDup fs /\ forall pa, pa ∈ fs -> page_ok end_ pa /\ (pa ∉ l) /\ (forall p, in_range p -> table (ka_mem s) root p <> Some pa).

(** The addresses of a range are unmapped and the others translate as before. *)
Definition cleared (s : kalloc_st) (root va : Z) (n : nat) (s' : kalloc_st) : Prop :=
  forall x, 0 <= x < MAXVA ->
    if decide (va <= x < va + PGSIZE * Z.of_nat n) then flag (xlate (ka_mem s') root x) PTE_V = false
    else xlate (ka_mem s') root x = xlate (ka_mem s) root x.

Lemma uvmunmap_loop n k s l root va (do_free : bool) :
  let a := va + PGSIZE * Z.of_nat k in
  vm_ok s root l -> a mod 4096 = 0 -> 0 <= a -> a + 4096 * Z.of_nat n <= MAXVA ->
  (do_free = true -> frames_ok s root l a n) ->
  exists s', mfor (seq k n) (fun i => unmap_page end_ root (va + PGSIZE * Z.of_nat i) do_free) s = Ret tt s'
    /\ vm_ok s' root ((if do_free then reverse (frames (xlate (ka_mem s) root) a n) else []) ++ l)
    /\ cleared s root a n s'.
Proof.
  revert k s l. induction n as [|n IH]; intros k s l a Hok Ha H0 Hm Hrel.
  { exists s. split; [done|]. split; [by destruct do_free|]. intros x _. by rewrite decide_False by lia. }
  assert (PGSIZE = 4096) as EP by done. cbn [seq mfor]. fold a.
  destruct (unmap_page_spec s l root a do_free Hok ltac:(lia)) as (s1 & R1 & Hok1 & Htb & Hx).
  { intros Hd Hf. destruct (Hrel Hd) as [_ Hp]. apply Hp. cbn [frames]. rewrite Hf. set_solver. }
  rewrite (mthen_ret _ _ _ _ _ R1).
  assert (a + PGSIZE = va + PGSIZE * Z.of_nat (S k)) as Ea by lia.
  assert (frames (xlate (ka_mem s1) root) (a + PGSIZE) n = frames (xlate (ka_mem s) root) (a + PGSIZE) n) as Ef.
  { apply frames_ext. intros i Hi. rewrite Hx by lia. rewrite decide_False; [done|]. intros [? _]. dlia. }
  edestruct (IH (S k) s1) as (s' & R2 & Hok2 & Hc); [exact Hok1 | rewrite <- Ea; dlia | lia | lia | |].
  { intros Hd. destruct (Hrel Hd) as [Hnd Hp]. subst do_free. cbn [frames] in Hnd, Hp. apply NoDup_app in Hnd as (_ & Hdis & Hnd).
    rewrite <- Ea. split; rewrite Ef; [done|]. intros pa Hpa. destruct (Hp pa) as (Hok' & Hn & Ht); [set_solver|].
    split; [done|]. split; [|intros p Hpr; rewrite Htb by done; by apply Ht].
    destruct (flag (xlate (ka_mem s) root a) PTE_V); cbn [andb]; [|done]. apply not_elem_of_cons. split; [|done].
    intros ->. eapply Hdis; [|exact Hpa]. set_solver. }
  rewrite <- Ea in Hok2, Hc. exists s'. split; [exact R2|]. split.
  - rewrite Ef in Hok2. cbn [frames]. destruct do_free; [|by rewrite andb_false_r in Hok2]. rewrite reverse_app, <- app_assoc.
    by destruct (flag (xlate (ka_mem s) root a) PTE_V).
  - intros x Hxr. specialize (Hc x Hxr). rewrite Hx in Hc by done. clear Hx Htb Hok1 Hok2 R1 R2 IH Hrel Hok Ef.
    destruct (decide (a <= x < a + PGSIZE * Z.of_nat (S n))) as [D1|D1].
    + case_decide; [done|]. rewrite Hc. destruct (decide (x / 4096 = a / 4096)) as [E|]; [|dlia].
      case_decide as D3; [done|]. destruct (flag (xlate (ka_mem s) root x) PTE_V) eqn:Hf; [|done]. exfalso. apply D3. split; [done|].
      unfold xlate in Hf |- *. by rewrite (page_PX a x 2), (page_PX a x 1), (page_PX a x 0) by (done || lia).
    + rewrite decide_False in Hc by lia. rewrite decide_False in Hc; [done|]. intros [? _]. dlia.
Qed.
End Map.

(** C11: [mappages] installs a mapping.  On a page table in order, mapping [n]
    unmapped pages returns 0 with exactly those pages translated to
    consecutive frames with the permissions given, every other translation
    unchanged and the table still in order, so that [walkaddr] then finds the
    frame of each user page; or it returns -1 after mapping a prefix, and then
    only because no page is left for the tables. *)
Theorem mappages_translates end_ s l root va n pa perm :
  vm_ok end_ s root l -> va mod PGSIZE = 0 -> 0 <= va -> (0 < n)%nat -> va + PGSIZE * Z.of_nat n <= MAXVA ->
  is_page pa -> pa + PGSIZE * Z.of_nat n <= 2 ^ 56 -> 0 <= perm < 1024 -> unmapped (ka_mem s) root va n ->
  exists r k s' l', mappages root va (PGSIZE * Z.of_nat n) pa perm s = Ret r s'
    /\ vm_ok end_ s' root l' /\ (forall x, x ∈ l' -> x ∈ l) /\ mapped_upto s root va pa perm k s'
    /\ (r = 0 /\ k = n \/ r = -1 /\ (k < n)%nat /\ l' = [])
    /\ (forall x, va <= x < va + PGSIZE * Z.of_nat k ->
         walkaddr root x s' = Ret (if flag perm PTE_U then pa + (x / PGSIZE * PGSIZE - va) else 0) s').
Proof.
  intros Hok Ha H0 Hn Hm Hpa Hpm Hperm Hun. assert (PGSIZE = 4096) as EP by done. change MAXVA with (2 ^ 38) in Hm.
  unfold mappages. destruct n as [|n]; [lia|].
  assert ((va mod PGSIZE =? 0) = true) as -> by (by apply Z.eqb_eq).
  assert (((PGSIZE * Z.of_nat (S n)) mod PGSIZE =? 0) = true) as -> by (apply Z.eqb_eq; rewrite Z.mul_comm; apply Z.mod_mul; lia).
  destruct (Z.eqb_spec (PGSIZE * Z.of_nat (S n)) 0); [lia|]. cbn [negb].
  rewrite Z.mul_comm, Z.div_mul, Nat2Z.id by lia. rewrite u64_small by lia.
  replace (va + Z.of_nat (S n) * PGSIZE - PGSIZE) with (va + 4096 * Z.of_nat n) by lia.
  destruct (mappages_loop_spec end_ n s l root va pa perm) as (r & k & s' & l' & R & Hok' & Hs & Hmp & Hr); try done.
  exists r, k, s', l'. split; [done|]. split; [done|]. split; [done|]. split; [done|]. split; [destruct Hr as [?|(? & ? & ?)]; [by left | right; split; [done|]; split; [lia|done]]|].
  assert (k <= S n)%nat as Hk by (destruct Hr as [[_ ->]|(_ & ? & _)]; lia).
  intros x Hx. rewrite (walkaddr_spec end_ s' l' root x Hok') by (change MAXVA with (2 ^ 38); lia). cbv zeta.
  pose proof (Hmp x ltac:(change MAXVA with (2 ^ 38); lia)) as E. unfold with_range in E. rewrite decide_True in E by done. rewrite E.
  assert (is_page (pa + (x / PGSIZE * PGSIZE - va))) as Hpx by (destruct Hpa; split; dlia).
  destruct (mk_pte_facts _ perm Hpx Hperm) as (E1 & _ & -> & _). rewrite flag_user by done.
  destruct (flag perm PTE_U); [by rewrite E1 | done].
Qed.

(** C12: [uvmunmap] removes a mapping.  It returns with every address of the
    range unmapped, every other translation unchanged and the page table still
    in order; with [do_free] set each frame the range was mapped to, provided
    they are distinct pages owned by the caller, is back on the free list,
    once. *)
Theorem uvmunmap_clears end_ s l root va n (do_free : bool) :
  vm_ok end_ s root l -> va mod PGSIZE = 0 -> 0 <= va -> va + PGSIZE * Z.of_nat n <= MAXVA ->
  (do_free = true -> frames_ok end_ s root l va n) ->
  exists s', uvmunmap end_ root va (Z.of_nat n) do_free s = Ret tt s'
    /\ vm_ok end_ s' root ((if do_free then reverse (frames (xlate (ka_mem s) root) va n) else []) ++ l)
    /\ cleared s root va n s'.
Proof.
  intros Hok Ha H0 Hm Hf. unfold uvmunmap. assert ((va mod PGSIZE =? 0) = true) as -> by (by apply Z.eqb_eq). cbn [negb].
  rewrite Nat2Z.id. pose proof (uvmunmap_loop end_ n 0 s l root va do_free) as H. cbv zeta in H.
  rewrite Z.mul_0_r, Z.add_0_r in H. by apply H.
Qed.

(** ** A small address space *)

Module Demo.
Definition A : Z := KERNBASE.
Definition B : Z := KERNBASE + 4096.
Definition C : Z := KERNBASE + 8192.
Definition D : Z := KERNBASE + 12288.
Definition leaf : Z := mk_pte D (Z.lor PTE_W PTE_U).
(** Three tables and one frame, at virtual address 0, no page free. *)
Definition image : mem :=
  store64 (store64 (store64 (fun _ => 0) (pte_addr A 0) (mk_pte B 0)) (pte_addr B 0) (mk_pte C 0)) (pte_addr C 0) leaf.
Definition space : kalloc_st := KallocSt (Kst image zero_counters) (Kmem 0 0 0 0 0).

Lemma page n : 0 <= n < 100 -> page_ok KERNBASE (KERNBASE + 4096 * n).
Proof. intros. unfold page_ok, PHYSTOP, KERNBASE. repeat split; try lia. exists (524288 + n). lia. Qed.

Lemma pages : page_ok KERNBASE A /\ page_ok KERNBASE B /\ page_ok KERNBASE C /\ page_ok KERNBASE D.
Proof. split; [by apply (page 0) | split; [by apply (page 1) | split; [by apply (page 2) | by apply (page 3)]]]. Qed.

Lemma distinct : A <> B /\ A <> C /\ B <> C /\ A <> D /\ B <> D /\ C <> D.
Proof. repeat split; discriminate. Qed.

Lemma entries t i :
  page_ok KERNBASE t -> 0 <= i < 512 ->
  ent image t i = if decide (t = C /\ i = 0) then leaf else if decide (t = B /\ i = 0) then mk_pte C 0
                  else if decide (t = A /\ i = 0) then mk_pte B 0 else 0.
Proof.
  intros Ht Hi. destruct pages as (HA & HB & HC & HD). unfold image.
  rewrite (ent_store KERNBASE) by (done || (split; vm_compute; congruence)). case_decide; [done|].
  rewrite (ent_store KERNBASE) by (done || (split; vm_compute; congruence)). case_decide; [done|].
  rewrite (ent_store KERNBASE) by (done || (split; vm_compute; congruence)). case_decide; [done|]. done.
Qed.

Lemma tables p : in_range p ->
  table image A p = match p with P2 => Some A | P1 i => if decide (i = 0) then Some B else None
                    | P0 i j => if decide (i = 0 /\ j = 0) then Some C else None end.
Proof.
  destruct pages as (HA & HB & HC & HD).
  assert (forall i, 0 <= i < 512 -> next_table image A i = if decide (i = 0) then Some B else None) as H1.
  { intros i Hi. unfold next_table. rewrite entries by done. rewrite decide_False, decide_False by (by intros [? _]).
    repeat case_decide; try tauto; reflexivity. }
  assert (forall i, 0 <= i < 512 -> next_table image B i = if decide (i = 0) then Some C else None) as H2.
  { intros i Hi. unfold next_table. rewrite entries by done. rewrite decide_False by (by intros [? _]).
    rewrite (decide_False (P := B = A /\ i = 0)) by (by intros [? _]). repeat case_decide; try tauto; reflexivity. }
  destruct p as [|i|i j]; simpl; [done | intros Hi; by apply H1 | intros [Hi Hj]].
  rewrite H1 by done. destruct (decide (i = 0)); [simpl; rewrite H2 by done | by rewrite decide_False by tauto].
  repeat case_decide; tauto.
Qed.

Lemma space_ok : vm_ok KERNBASE space A [].
Proof.
  destruct pages as (HA & HB & HC & HD). split.
  - split; [|split; [done | split; [constructor | done]]].
    apply store64_byte, store64_byte, store64_byte. intros a. simpl. lia.
  - change (ka_mem space) with image. split.
    + intros p t Hp. rewrite tables by done. intros Ht. split; [|apply not_elem_of_nil].
      destruct p; repeat case_decide; congruence.
    + intros p q t Hp Hq. rewrite !tables by done.
      destruct distinct as (? & ? & ? & _). destruct p, q; repeat case_decide; intros; destruct_and?; subst; try done; congruence.
Qed.

Lemma space_leaf : xlate image A 0 = leaf /\ xlate image A 4096 = 0.
Proof.
  unfold xlate. change (PX 2 0) with 0. change (PX 1 0) with 0. change (PX 0 0) with 0. change (PX 2 4096) with 0.
  change (PX 1 4096) with 0. change (PX 0 4096) with 1. rewrite tables by (split; lia). rewrite decide_True by done.
  destruct pages as (_ & _ & HC & _). by rewrite !entries by (done || lia).
Qed.
End Demo.

Lemma mappages_translates_witness :
  exists r k s' l', mappages Demo.A 4096 (PGSIZE * Z.of_nat 1) KERNBASE (Z.lor PTE_R PTE_U) Demo.space = Ret r s'
    /\ vm_ok KERNBASE s' Demo.A l' /\ (forall x, x ∈ l' -> x ∈ [])
    /\ mapped_upto Demo.space Demo.A 4096 KERNBASE (Z.lor PTE_R PTE_U) k s'
    /\ (r = 0 /\ k = 1%nat \/ r = -1 /\ (k < 1)%nat /\ l' = [])
    /\ (forall x, 4096 <= x < 4096 + PGSIZE * Z.of_nat k ->
         walkaddr Demo.A x s' = Ret (if flag (Z.lor PTE_R PTE_U) PTE_U then KERNBASE + (x / PGSIZE * PGSIZE - 4096) else 0) s').
Proof.
  apply (mappages_translates KERNBASE Demo.space [] Demo.A 4096 1 KERNBASE (Z.lor PTE_R PTE_U));
    [apply Demo.space_ok | reflexivity | lia | lia | vm_compute; congruence | split; [vm_compute; split; congruence | reflexivity]
    | vm_compute; congruence | split; vm_compute; congruence |].
  intros i Hi. assert (i = 0) as -> by lia. change (ka_mem Demo.space) with Demo.image.
  change (4096 + PGSIZE * 0) with 4096. by rewrite (proj2 Demo.space_leaf).
Defined.

Lemma uvmunmap_clears_witness :
  exists s', uvmunmap KERNBASE Demo.A 0 (Z.of_nat 1) true Demo.space = Ret tt s'
    /\ vm_ok KERNBASE s' Demo.A (reverse (frames (xlate (ka_mem Demo.space) Demo.A) 0 1) ++ [])
    /\ cleared Demo.space Demo.A 0 1 s'.
Proof.
  apply (uvmunmap_clears KERNBASE Demo.space [] Demo.A 0 1 true);
    [apply Demo.space_ok | reflexivity | lia | vm_compute; congruence |]. intros _.
  assert (frames (xlate (ka_mem Demo.space) Demo.A) 0 1 = [Demo.D]) as E.
  { cbn [frames]. change (ka_mem Demo.space) with Demo.image. rewrite (proj1 Demo.space_leaf). reflexivity. }
  split; rewrite E; [apply NoDup_singleton|]. intros pa Hpa. apply list_elem_of_singleton in Hpa as ->.
  split; [apply Demo.pages|]. split; [apply not_elem_of_nil|]. intros p Hp. change (ka_mem Demo.space) with Demo.image.
  rewrite Demo.tables by done. destruct Demo.distinct as (_ & _ & _ & ? & ? & ?). destruct p; repeat case_decide; congruence.
Defined.
