(* ===== verification/Bytes.v ===== *)
(** Little-endian integers inside a block of bytes: how the kernel reads and
    writes the fields of the structures it overlays on [b->data] (log header,
    inodes, indirect blocks, directory entries, superblock). *)

From S2P Require Import Prelude.

Fixpoint le_bytes (n : nat) (v : Z) : list Z :=
  match n with O => [] | S n' => v mod 256 :: le_bytes n' (v / 256) end.
Definition le_val (l : list Z) : Z := foldr (fun x acc => x + 256 * acc) 0 l.

(** [n]-byte field at byte offset [off]. *)
Definition get (n off : nat) (b : list Z) : Z := le_val (take n (drop off b)).
Definition put (n off : nat) (v : Z) (b : list Z) : list Z :=
  take off b ++ le_bytes n v ++ drop (off + n) b.

Definition get_int off b : Z := i32 (get 4 off b).
Definition get_uint off b : Z := get 4 off b.
Definition get_short off b : Z := i16 (get 2 off b).
Definition get_ushort off b : Z := get 2 off b.

(** Every element is a byte. *)
Definition bytes_ok (b : list Z) : Prop := Forall (fun x => 0 <= x < 256) b.

Lemma length_le_bytes n v : length (le_bytes n v) = n.
Proof. revert v. induction n; simpl; auto. Qed.

Lemma bytes_ok_le n v : bytes_ok (le_bytes n v).
Proof. revert v. induction n as [|n IH]; intros v; constructor; [apply Z.mod_pos_bound; lia | apply IH]. Qed.

Lemma le_val_bytes n v : le_val (le_bytes n v) = v mod 2 ^ (8 * Z.of_nat n).
Proof.
  revert v. induction n as [|n IH]; intros v; [by rewrite Z.mod_1_r|].
  cbn [le_bytes le_val foldr]. change (foldr _ 0 ?l) with (le_val l). rewrite IH.
  replace (8 * Z.of_nat (S n)) with (8 + 8 * Z.of_nat n) by lia.
  rewrite Z.pow_add_r by lia. change (2 ^ 8) with 256. rewrite Z.rem_mul_r; lia.
Qed.

Lemma le_val_range l : bytes_ok l -> 0 <= le_val l < 2 ^ (8 * Z.of_nat (length l)).
Proof.
  induction 1 as [|x l Hx Hl IH]; [done|]. cbn [le_val foldr length]. change (foldr _ 0 l) with (le_val l).
  replace (8 * Z.of_nat (S (length l))) with (8 + 8 * Z.of_nat (length l)) by lia.
  rewrite Z.pow_add_r by lia. change (2 ^ 8) with 256. lia.
Qed.

Lemma lookup_put n off v b i :
  (off + n <= length b)%nat ->
  put n off v b !! i = if decide (off <= i < off + n)%nat then le_bytes n v !! (i - off)%nat else b !! i.
Proof.
  intros Hl. unfold put. rewrite !lookup_app, length_take, length_le_bytes.
  destruct (decide (i < off)%nat).
  - rewrite lookup_take_lt by lia. rewrite decide_False by lia.
    destruct (b !! i) eqn:Hb; [done|]. apply lookup_ge_None in Hb. lia.
  - rewrite lookup_take_ge by lia. replace (off `min` length b)%nat with off by lia.
    case_decide as Hi.
    + destruct (le_bytes n v !! (i - off)%nat) eqn:Hb; [done|].
      apply lookup_ge_None in Hb. rewrite length_le_bytes in Hb. lia.
    + rewrite lookup_ge_None_2 by (rewrite length_le_bytes; lia).
      rewrite lookup_drop. f_equal. lia.
Qed.

Lemma length_put n off v b : (off + n <= length b)%nat -> length (put n off v b) = length b.
Proof.
  intros. unfold put. rewrite !length_app, length_take, length_le_bytes, length_drop. lia.
Qed.

Lemma put_bytes_ok n off v b : bytes_ok b -> bytes_ok (put n off v b).
Proof.
  intros Hb. unfold put, bytes_ok in *. rewrite !Forall_app.
  split; [by apply Forall_take|]. split; [apply bytes_ok_le | by apply Forall_drop].
Qed.

Lemma get_put_eq n off v b :
  (off + n <= length b)%nat -> get n off (put n off v b) = v mod 2 ^ (8 * Z.of_nat n).
Proof.
  intros Hl. unfold get. rewrite <- le_val_bytes. f_equal. apply list_eq. intros i.
  destruct (decide (i < n)%nat).
  - rewrite lookup_take_lt, lookup_drop, lookup_put by lia. rewrite decide_True by lia. f_equal. lia.
  - rewrite lookup_take_ge by lia. symmetry. apply lookup_ge_None. rewrite length_le_bytes. lia.
Qed.

Lemma get_put_ne n off v b n' off' :
  (off + n <= length b)%nat -> (off' + n' <= off \/ off + n <= off')%nat ->
  get n' off' (put n off v b) = get n' off' b.
Proof.
  intros Hl Hd. unfold get. f_equal. apply list_eq. intros i.
  destruct (decide (i < n')%nat).
  - rewrite !lookup_take_lt, !lookup_drop, lookup_put by lia. by rewrite decide_False by lia.
  - by rewrite !lookup_take_ge by lia.
Qed.

Lemma get_range n off b : bytes_ok b -> 0 <= get n off b < 2 ^ (8 * Z.of_nat n).
Proof.
  intros Hb. unfold get. assert (bytes_ok (take n (drop off b))) as Ht by (by apply Forall_take, Forall_drop).
  pose proof (le_val_range _ Ht) as Hr. rewrite length_take in Hr. split; [lia|].
  eapply Z.lt_le_trans; [apply Hr|]. apply Z.pow_le_mono_r; lia.
Qed.

Lemma get_int_put v off b :
  (off + 4 <= length b)%nat -> - 2 ^ 31 <= v < 2 ^ 31 -> get_int off (put 4 off v b) = v.
Proof.
  intros Hl Hv. unfold get_int. rewrite get_put_eq by done. change (8 * Z.of_nat 4) with 32. unfold i32.
  rewrite Zplus_mod_idemp_l. rewrite Z.mod_small; lia.
Qed.
Lemma get_uint_put v off b :
  (off + 4 <= length b)%nat -> 0 <= v < 2 ^ 32 -> get_uint off (put 4 off v b) = v.
Proof. intros Hl Hv. unfold get_uint. rewrite get_put_eq by done. by apply Z.mod_small. Qed.

