(* ===== verification/Locks.v ===== *)
(** Spin locks and interrupt nesting (src/kernel/spinlock.c) and sleep locks
    (src/kernel/sleeplock.c).

    A spin lock is modelled per hart: a routine runs on one hart, and a hart
    that finds the lock taken keeps spinning, which the model shows as
    [Sleep] with the state the hart spins in.  Elsewhere in the development
    a critical section is one atomic step, which [lock_exclusive] justifies. *)

From S2P Require Import Prelude.

(** ** Interrupt nesting *)

(** The fields of [struct cpu] that [push_off] and [pop_off] use, and the
    hart's sstatus.SIE bit behind [intr_get], [intr_on] and [intr_off]. *)
Record cpu := Cpu { noff : Z; intena : bool; sie : bool }.

Definition push_off : M cpu () :=
  let* old := gets sie in
  modify (fun c => Cpu (noff c) (intena c) false) ;;;
  modify (fun c => if noff c =? 0 then Cpu (noff c) old (sie c) else c) ;;;
  modify (fun c => Cpu (i32 (noff c + 1)) (intena c) (sie c)).

Definition pop_off : M cpu () :=
  let* c := gets (fun c => c) in
  if sie c then panic "pop_off - interruptible" else
  if noff c <? 1 then panic "pop_off" else
  modify (fun c => Cpu (noff c - 1) (intena c) (sie c)) ;;;
  let* c := gets (fun c => c) in
  when ((noff c =? 0) && intena c) do modify (fun c => Cpu (noff c) (intena c) true).

(** ** Spin locks *)

Record spinlock := Spinlock { locked : bool; lk_cpu : option nat }.

Definition initlock : spinlock := Spinlock false None.

(** One lock and the harts that contend for it. *)
Record spin_st := SpinSt { lk : spinlock; cpus : nat -> cpu }.
Definition set_cpu (h : nat) (c : cpu) (s : spin_st) : spin_st :=
  SpinSt (lk s) (fun i => if decide (i = h) then c else cpus s i).
Definition on_cpu {A} (h : nat) (m : M cpu A) : M spin_st A :=
  zoom (fun s => cpus s h) (set_cpu h) m.

Definition holding (h : nat) (s : spin_st) : bool :=
  locked (lk s) && bool_decide (lk_cpu (lk s) = Some h).

Definition acquire (h : nat) : M spin_st () :=
  on_cpu h push_off ;;;
  let* held := gets (holding h) in
  if held then panic "acquire" else
  let* l := gets lk in
  if locked l then sleep else
  modify (fun s => SpinSt (Spinlock true (Some h)) (cpus s)).

Definition release (h : nat) : M spin_st () :=
  let* held := gets (holding h) in
  if negb held then panic "release" else
  modify (fun s => SpinSt (Spinlock false None) (cpus s)) ;;;
  on_cpu h pop_off.

(** ** Sleep locks *)

Record sleeplock := Sleeplock { slk_locked : bool; slk_pid : Z }.

Definition initsleeplock : sleeplock := Sleeplock false 0.
(** [acquiresleep] returns the locked lock, or [None] when the caller has to
    sleep until the holder releases it. *)
Definition acquiresleep (pid : Z) (l : sleeplock) : option sleeplock :=
  if slk_locked l then None else Some (Sleeplock true pid).
Definition releasesleep (l : sleeplock) : sleeplock := Sleeplock false 0.
Definition holdingsleep (pid : Z) (l : sleeplock) : bool := slk_locked l && (slk_pid l =? pid).

(** ** Theorems *)

Fixpoint repeat_m {S} (n : nat) (m : M S ()) : M S () :=
  match n with O => skip | S n' => m ;;; repeat_m n' m end.

Lemma push_off_run c :
  push_off c = Ret tt (Cpu (i32 (noff c + 1)) (if noff c =? 0 then sie c else intena c) false).
Proof. destruct c as [n i e]. unfold push_off. monad. simpl. by destruct (n =? 0). Qed.

Lemma pop_off_run c :
  sie c = false -> 1 <= noff c ->
  pop_off c = Ret tt (Cpu (noff c - 1) (intena c) ((noff c =? 1) && intena c)).
Proof.
  destruct c as [n i e]. simpl. intros -> ?. unfold pop_off. monad. cbn [noff intena sie].
  destruct (Z.ltb_spec n 1); [lia|]. cbn [noff intena sie].
  replace (n - 1 =? 0) with (n =? 1) by (repeat bcase; lia || done).
  by destruct ((n =? 1) && i).
Qed.

Lemma push_n_run n c :
  0 < noff c -> noff c + Z.of_nat n < 2 ^ 31 -> sie c = false ->
  repeat_m n push_off c = Ret tt (Cpu (noff c + Z.of_nat n) (intena c) false).
Proof.
  revert c. induction n as [|n IH]; intros c H0 Hn Hs; simpl.
  - destruct c; simpl in *. subst. f_equal. f_equal. lia.
  - erewrite mthen_ret by apply push_off_run. destruct (Z.eqb_spec (noff c) 0); [lia|].
    rewrite i32_small by lia. rewrite IH by (simpl; lia || done). simpl. do 2 f_equal. lia.
Qed.

Lemma pop_n_run n c :
  Z.of_nat n < noff c -> sie c = false ->
  repeat_m n pop_off c = Ret tt (Cpu (noff c - Z.of_nat n) (intena c) false).
Proof.
  revert c. induction n as [|n IH]; intros c H0 Hs; simpl.
  - destruct c; simpl in *. subst. f_equal. f_equal. lia.
  - erewrite mthen_ret by (apply pop_off_run; [done | lia]).
    destruct (Z.eqb_spec (noff c) 1); [lia|]. rewrite IH by (simpl; lia || done).
    simpl. do 2 f_equal. lia.
Qed.

(** [push_off] and [pop_off] nest: interrupts are off between matched
    pairs at any depth, and the last [pop_off] restores the interrupt state
    that held before the first [push_off]. *)
Theorem push_pop_nest n c :
  noff c = 0 -> Z.of_nat n < 2 ^ 31 - 1 ->
  exists c', repeat_m (S n) push_off c = Ret tt c' /\ sie c' = false /\ noff c' = Z.of_nat n + 1
    /\ repeat_m n pop_off c' = Ret tt (Cpu 1 (intena c') false)
    /\ pop_off (Cpu 1 (intena c') false) = Ret tt (Cpu 0 (sie c) (sie c)).
Proof.
  intros H0 Hn. cbn [repeat_m]. erewrite mthen_ret by apply push_off_run.
  rewrite H0, Z.eqb_refl, i32_small by lia. rewrite push_n_run by (simpl; lia || done).
  eexists. split; [reflexivity|]. simpl. split; [done|]. split; [lia|]. split.
  - rewrite pop_n_run by (simpl; lia || done). simpl. do 2 f_equal. lia.
  - rewrite pop_off_run by (simpl; lia || done). done.
Qed.

Lemma push_pop_nest_witness :
  exists c', repeat_m 4 push_off (Cpu 0 false true) = Ret tt c' /\ sie c' = false /\ noff c' = Z.of_nat 3 + 1
    /\ repeat_m 3 pop_off c' = Ret tt (Cpu 1 (intena c') false)
    /\ pop_off (Cpu 1 (intena c') false) = Ret tt (Cpu 0 true true).
Proof. apply (push_pop_nest 3 (Cpu 0 false true)); simpl; lia. Defined.

(** Harts taking and releasing the lock; a hart that spins retries from the
    state before its attempt. *)
Inductive spin_step : spin_st -> spin_st -> Prop :=
| spin_acquire h s s' : acquire h s = Ret tt s' -> noff (cpus s h) < 2 ^ 31 - 1 -> spin_step s s'
| spin_release h s s' : release h s = Ret tt s' -> spin_step s s'
| spin_push h s s' : on_cpu h push_off s = Ret tt s' -> noff (cpus s h) < 2 ^ 31 - 1 -> spin_step s s'
| spin_pop h s s' :
    on_cpu h pop_off s = Ret tt s' ->
    (holding h s = true -> 1 < noff (cpus s h)) -> spin_step s s'.

(** A taken lock names its holder, whose interrupts are off and whose nesting
    count includes the lock. *)
Definition lock_inv (s : spin_st) : Prop :=
  (locked (lk s) = true ->
    exists h, lk_cpu (lk s) = Some h /\ sie (cpus s h) = false /\ 1 <= noff (cpus s h))
  /\ (forall h, 0 <= noff (cpus s h)).

Lemma on_cpu_run h m s a c :
  m (cpus s h) = Ret a c -> on_cpu (A := ()) h m s = Ret a (set_cpu h c s).
Proof. unfold on_cpu, zoom. by intros ->. Qed.

Lemma holding_true h s : holding h s = true <-> locked (lk s) = true /\ lk_cpu (lk s) = Some h.
Proof. unfold holding. rewrite andb_true_iff, bool_decide_eq_true. done. Qed.

(** The inversion of an [acquire] that returned. *)
Lemma acquire_ret h s s' :
  acquire h s = Ret tt s' ->
  locked (lk s) = false /\ lk s' = Spinlock true (Some h)
  /\ exists c, push_off (cpus s h) = Ret tt c /\ cpus s' = cpus (set_cpu h c s).
Proof.
  unfold acquire. unfold mthen at 1, on_cpu, zoom. rewrite push_off_run.
  unfold holding. monad. simpl. destruct (locked (lk s)) eqn:E; simpl.
  - case_bool_decide; simpl; [done|]. by rewrite E.
  - rewrite E. intros [= <-]. simpl. split; [done|]. split; [done|]. eauto.
Qed.

Lemma release_ret h s s' :
  release h s = Ret tt s' ->
  holding h s = true /\ lk s' = Spinlock false None
  /\ exists c, pop_off (cpus s h) = Ret tt c /\ cpus s' = cpus (set_cpu h c s).
Proof.
  unfold release. monad. destruct (holding h s); simpl; [|done].
  unfold on_cpu, zoom. simpl. destruct (pop_off (cpus s h)) as [[] c| | |]; intros [= <-]. eauto.
Qed.

Lemma on_cpu_ret h m s s' :
  on_cpu (A := ()) h m s = Ret tt s' -> exists c, m (cpus s h) = Ret tt c /\ s' = set_cpu h c s.
Proof. unfold on_cpu, zoom. destruct (m (cpus s h)) as [[] c| | |]; intros [= <-]. eauto. Qed.

Lemma pop_off_ret c c' : pop_off c = Ret tt c' -> sie c = false /\ 1 <= noff c.
Proof.
  unfold pop_off. monad. destruct (sie c); [done|]. destruct (Z.ltb_spec (noff c) 1); [done|]. done.
Qed.

Lemma set_cpu_eq h c s : cpus (set_cpu h c s) h = c.
Proof. simpl. by rewrite decide_True. Qed.
Lemma set_cpu_ne h h' c s : h' <> h -> cpus (set_cpu h c s) h' = cpus s h'.
Proof. intros. simpl. by rewrite decide_False. Qed.

Lemma spin_step_inv s s' :
  spin_step s s' -> lock_inv s -> lock_inv s'.
Proof.
  intros Hs [Hl Hno]. destruct Hs as [h s s' H Hn | h s s' H | h s s' H Hn | h s s' H Hn].
  - apply acquire_ret in H as (Hu & Hk & c & Hp & Hc). rewrite push_off_run in Hp. injection Hp as <-.
    pose proof (Hno h). rewrite i32_small in Hc by lia. split; rewrite ?Hk, Hc; simpl.
    + intros _. exists h. rewrite decide_True by done. simpl. repeat split; lia.
    + intros g. case_decide; simpl; [lia | apply Hno].
  - apply release_ret in H as (Hh & Hk & c & Hp & Hc). pose proof (pop_off_ret _ _ Hp) as [Hs H1].
    rewrite pop_off_run in Hp by done. injection Hp as <-. split; [by rewrite Hk|].
    intros g. rewrite Hc. simpl. case_decide; simpl; [lia | apply Hno].
  - apply on_cpu_ret in H as (c & Hp & ->). rewrite push_off_run in Hp. injection Hp as <-.
    pose proof (Hno h). rewrite i32_small by lia. split; simpl.
    + intros Hlk. destruct (Hl Hlk) as (g & Hg & Hgs & Hgn). exists g.
      split; [done|]. case_decide; simpl; [split; [done | lia] | done].
    + intros g. case_decide; simpl; [lia | apply Hno].
  - apply on_cpu_ret in H as (c & Hp & ->). pose proof (pop_off_ret _ _ Hp) as [Hs H1].
    rewrite pop_off_run in Hp by done. injection Hp as <-. split; simpl.
    + intros Hlk. destruct (Hl Hlk) as (g & Hg & Hgs & Hgn). exists g. split; [done|].
      case_decide; subst; simpl; [|done].
      specialize (Hn ltac:(by apply holding_true)). destruct (Z.eqb_spec (noff (cpus s h)) 1); [lia|].
      split; [done | lia].
    + intros g. case_decide; simpl; [lia | apply Hno].
Qed.

Lemma spin_steps_inv s s' : rtc spin_step s s' -> lock_inv s -> lock_inv s'.
Proof. induction 1; eauto using spin_step_inv. Qed.

(** C38: mutual exclusion, in every state that harts can reach by taking and
    releasing the lock and nesting [push_off]/[pop_off] from boot.  While a hart holds a spin lock its interrupts are
    off, no other hart can take the lock (it spins), the holder itself cannot
    take it twice (the kernel panics), and only the holder can release it. *)
Theorem lock_exclusive cs s h g :
  (forall i, noff (cs i) = 0) -> rtc spin_step (SpinSt initlock cs) s -> holding h s = true ->
  sie (cpus s h) = false
  /\ acquire h s = Panic "acquire"
  /\ (g <> h -> exists s', acquire g s = Sleep s' /\ lk s' = lk s)
  /\ (g <> h -> release g s = Panic "release")
  /\ exists s', release h s = Ret tt s' /\ locked (lk s') = false.
Proof.
  intros Hcs Hr Hh. assert (lock_inv s) as [Hl _].
  { apply (spin_steps_inv _ _ Hr). split; [done|]. intros i. simpl. by rewrite Hcs. }
  pose proof Hh as [Hlk Hg]%holding_true.
  destruct (Hl Hlk) as (h' & Hh' & Hs & Hn). rewrite Hg in Hh'. injection Hh' as <-.
  split; [done|]. split; [|split; [|split]].
  - unfold acquire, on_cpu, zoom, mthen at 1. rewrite push_off_run. unfold holding. monad.
    simpl. rewrite Hlk, Hg. by rewrite bool_decide_true.
  - intros Hne. unfold acquire, on_cpu, zoom, mthen at 1. rewrite push_off_run. unfold holding. monad.
    simpl. rewrite Hlk, Hg. rewrite bool_decide_false by congruence. simpl. rewrite Hlk. eauto.
  - intros Hne. unfold release, holding. monad. rewrite Hlk, Hg. by rewrite bool_decide_false by congruence.
  - unfold release. monad. rewrite Hh. simpl. unfold on_cpu, zoom. simpl.
    rewrite pop_off_run by done. eauto.
Qed.

Lemma lock_exclusive_witness :
  let cs := fun _ : nat => Cpu 0 false true in
  let s := SpinSt (Spinlock true (Some 0%nat)) (cpus (set_cpu 0 (Cpu 1 true false) (SpinSt initlock cs))) in
  sie (cpus s 0) = false
  /\ acquire 0 s = Panic "acquire"
  /\ (1 <> 0 -> exists s', acquire 1 s = Sleep s' /\ lk s' = lk s)%nat
  /\ (1 <> 0 -> release 1 s = Panic "release")%nat
  /\ exists s', release 0 s = Ret tt s' /\ locked (lk s') = false.
Proof.
  intros cs s. apply (lock_exclusive cs s 0 1); [done | | reflexivity].
  apply rtc_once, (spin_acquire 0); [reflexivity | simpl; lia].
Defined.
