(* ===== verification/BlockCache.v ===== *)
(** The contract between the buffer cache and its clients.

    [cache] is what a client may rely on: for each block of the file-system
    device its reference count, the process that holds its buffer, its current
    contents ([c_view]), the contents on the disk ([c_disk]), and the sequence
    of disk writes so far.  [BlockCache] states the operations bio.c exports
    and their effect on that view; [Bio] provides the instance and [Log] is
    written and verified against the class. *)

From S2P Require Import Prelude.

Definition BSIZE : Z := 1024.
Definition MAXOPBLOCKS : Z := 10.
Definition LOGBLOCKS : Z := MAXOPBLOCKS * 3.
Definition NBUF : Z := MAXOPBLOCKS * 3.

(** The bytes of a disk block. *)
Definition block : Type := list Z.

(** The disk as a completed request of the driver leaves it: the contents of
    each block, and the history of block writes, oldest first. *)
Record disk_t := Disk { d_blocks : Z -> block; d_writes : list (Z * block) }.

(** Point update of a map from block numbers. *)
Definition upd {A} (f : Z -> A) (k : Z) (v : A) : Z -> A := fun j => if j =? k then v else f j.

Definition disk_write (k : Z) (b : block) (d : disk_t) : disk_t :=
  Disk (upd (d_blocks d) k b) (d_writes d ++ [(k, b)]).

(** The disk contents after a sequence of writes. *)
Definition apply_writes (d : Z -> block) (ws : list (Z * block)) : Z -> block :=
  fold_left (fun d w => upd d w.1 w.2) ws d.

Lemma upd_eq {A} (f : Z -> A) k v : upd f k v k = v.
Proof. unfold upd. by rewrite Z.eqb_refl. Qed.
Lemma upd_ne {A} (f : Z -> A) k v j : j <> k -> upd f k v j = f j.
Proof. intros. unfold upd. by destruct (Z.eqb_spec j k). Qed.
Lemma upd_id {A} (f : Z -> A) k j : upd f k (f k) j = f j.
Proof. unfold upd. destruct (Z.eqb_spec j k); congruence. Qed.

Ltac upd_cases := unfold upd in *; repeat bcase; subst; try done; try lia; try congruence.

(** ** The client's view *)

Record cache := Cache {
  c_ref : Z -> Z;
  c_lock : Z -> option Z;
  c_view : Z -> block;
  c_disk : Z -> block;
  c_trace : list (Z * block);
  c_nref : Z }.

(** Views are equal when they agree at every block. *)
#[global] Instance cache_equiv : Equiv cache := fun a b =>
  (forall k, c_ref a k = c_ref b k) /\ (forall k, c_lock a k = c_lock b k)
  /\ (forall k, c_view a k = c_view b k) /\ (forall k, c_disk a k = c_disk b k)
  /\ c_trace a = c_trace b /\ c_nref a = c_nref b.
#[global] Instance cache_equivalence : Equivalence (≡@{cache}).
Proof.
  split.
  - intros a. by repeat split.
  - intros a b (? & ? & ? & ? & ? & ?). by repeat split.
  - intros a b c (H1 & H2 & H3 & H4 & H5 & H6) (G1 & G2 & G3 & G4 & G5 & G6).
    repeat split; intros; etrans; eauto.
Qed.

(** ** Effects of the operations *)

Section Effects.
Context (pid : Z).
Implicit Types (a : cache) (k : Z).

Definition c_bread k a : cache :=
  Cache (upd (c_ref a) k (c_ref a k + 1)) (upd (c_lock a) k (Some pid)) (c_view a) (c_disk a)
    (c_trace a) (c_nref a + cbool (c_ref a k =? 0)).
Definition c_brelse k a : cache :=
  Cache (upd (c_ref a) k (c_ref a k - 1)) (upd (c_lock a) k None) (c_view a) (c_disk a)
    (c_trace a) (c_nref a - cbool (c_ref a k =? 1)).
Definition c_bpin k a : cache :=
  Cache (upd (c_ref a) k (c_ref a k + 1)) (c_lock a) (c_view a) (c_disk a) (c_trace a) (c_nref a).
Definition c_bunpin k a : cache :=
  Cache (upd (c_ref a) k (c_ref a k - 1)) (c_lock a) (c_view a) (c_disk a) (c_trace a) (c_nref a).
Definition c_bwrite k a : cache :=
  Cache (c_ref a) (c_lock a) (c_view a) (upd (c_disk a) k (c_view a k))
    (c_trace a ++ [(k, c_view a k)]) (c_nref a).
Definition c_set k (b : block) a : cache :=
  Cache (c_ref a) (c_lock a) (upd (c_view a) k b) (c_disk a) (c_trace a) (c_nref a).
Definition c_boot (d : Z -> block) : cache := Cache (fun _ => 0) (fun _ => None) d d [] 0.

Ltac solve_cache_proper :=
  intros x y (H1 & H2 & H3 & H4 & H5 & H6); repeat split; intros; simpl; unfold upd;
  rewrite ?H1, ?H2, ?H3, ?H4, ?H5, ?H6; done.

#[global] Instance c_bread_proper k : Proper ((≡) ==> (≡)) (c_bread k).
Proof. solve_cache_proper. Qed.
#[global] Instance c_brelse_proper k : Proper ((≡) ==> (≡)) (c_brelse k).
Proof. solve_cache_proper. Qed.
#[global] Instance c_bpin_proper k : Proper ((≡) ==> (≡)) (c_bpin k).
Proof. solve_cache_proper. Qed.
#[global] Instance c_bunpin_proper k : Proper ((≡) ==> (≡)) (c_bunpin k).
Proof. solve_cache_proper. Qed.
#[global] Instance c_bwrite_proper k : Proper ((≡) ==> (≡)) (c_bwrite k).
Proof. solve_cache_proper. Qed.
#[global] Instance c_set_proper k b : Proper ((≡) ==> (≡)) (c_set k b).
Proof. solve_cache_proper. Qed.
End Effects.

(** ** The interface *)

(** Operations exported by bio.c, on a state [S] with buffers [H]. *)
Class CacheOps (S H : Type) := {
  bc_bread : Z -> Z -> M S H;
  bc_bwrite : H -> M S ();
  bc_brelse : H -> M S ();
  bc_bpin : H -> M S ();
  bc_bunpin : H -> M S ();
  bc_data : H -> S -> block;
  bc_set_data : H -> block -> S -> S;
  bc_blockno : H -> S -> Z }.

(** Their effect for process [pid] on the blocks of device [dev].
    [bc_handle s k h]: [h] is the buffer that holds block [k], read in. *)
Class BlockCache (S H : Type) `{CacheOps S H} (dev pid : Z) := {
  bc_inv : S -> Prop;
  bc_abs : S -> cache;
  bc_handle : S -> Z -> H -> Prop;

  bc_bread_ok s k :
    bc_inv s -> 0 <= k < 2 ^ 31 -> c_lock (bc_abs s) k = None -> c_ref (bc_abs s) k < 2 ^ 31 ->
    0 < c_ref (bc_abs s) k \/ c_nref (bc_abs s) < NBUF ->
    exists h s', bc_bread dev k s = Ret h s' /\ bc_inv s' /\ bc_abs s' ≡ c_bread pid k (bc_abs s)
      /\ bc_handle s' k h /\ (forall j h', bc_handle s j h' -> bc_handle s' j h');
  bc_bread_full s k :
    bc_inv s -> c_ref (bc_abs s) k = 0 -> c_nref (bc_abs s) = NBUF ->
    bc_bread dev k s = Panic "bget: no buffers";
  bc_bwrite_ok s k h :
    bc_inv s -> bc_handle s k h -> c_lock (bc_abs s) k = Some pid ->
    exists s', bc_bwrite h s = Ret tt s' /\ bc_inv s' /\ bc_abs s' ≡ c_bwrite k (bc_abs s)
      /\ (forall j h', bc_handle s j h' -> bc_handle s' j h');
  bc_brelse_ok s k h :
    bc_inv s -> bc_handle s k h -> c_lock (bc_abs s) k = Some pid ->
    (c_ref (bc_abs s) k = 1 -> c_view (bc_abs s) k = c_disk (bc_abs s) k) ->
    exists s', bc_brelse h s = Ret tt s' /\ bc_inv s' /\ bc_abs s' ≡ c_brelse k (bc_abs s)
      /\ (forall j h', bc_handle s j h' -> 0 < c_ref (bc_abs s') j -> bc_handle s' j h');
  bc_bpin_ok s k h :
    bc_inv s -> bc_handle s k h -> c_ref (bc_abs s) k < 2 ^ 31 ->
    exists s', bc_bpin h s = Ret tt s' /\ bc_inv s' /\ bc_abs s' ≡ c_bpin k (bc_abs s)
      /\ (forall j h', bc_handle s j h' -> bc_handle s' j h');
  bc_bunpin_ok s k h :
    bc_inv s -> bc_handle s k h -> 1 < c_ref (bc_abs s) k ->
    exists s', bc_bunpin h s = Ret tt s' /\ bc_inv s' /\ bc_abs s' ≡ c_bunpin k (bc_abs s)
      /\ (forall j h', bc_handle s j h' -> bc_handle s' j h');
  bc_data_ok s k h : bc_inv s -> bc_handle s k h -> bc_data h s = c_view (bc_abs s) k;
  bc_blockno_ok s k h : bc_inv s -> bc_handle s k h -> bc_blockno h s = k;
  bc_set_ok s k h b :
    bc_inv s -> bc_handle s k h ->
    bc_inv (bc_set_data h b s) /\ bc_abs (bc_set_data h b s) ≡ c_set k b (bc_abs s)
    /\ (forall j h', bc_handle s j h' -> bc_handle (bc_set_data h b s) j h');
  bc_ref_ok s k : bc_inv s -> 0 <= c_ref (bc_abs s) k;
  bc_handle_ref s k h : bc_inv s -> bc_handle s k h -> 0 < c_ref (bc_abs s) k }.

(** ** Client programs

    A sequence of calls a client makes, each naming the block whose buffer it
    uses.  [spec_op] runs a call on the view and checks what the contract asks
    of the client; [run_op] runs it on an implementation, with the buffers the
    client obtained so far. *)

Inductive cop :=
| OpBread (k : Z) | OpBwrite (k : Z) | OpBrelse (k : Z) | OpBpin (k : Z) | OpBunpin (k : Z)
| OpSet (k : Z) (b : block).

Definition block_eqb (a b : block) : bool := bool_decide (a = b).

Section Client.
Context (pid : Z).

Definition held (a : cache) (k : Z) : bool :=
  match c_lock a k with Some p => p =? pid | None => false end.

(** The client's side of the contract, and the effect of the call. *)
Definition spec_op (o : cop) (a : cache) : option cache :=
  match o with
  | OpBread k =>
      if (0 <=? k) && (k <? 2 ^ 31) && bool_decide (c_lock a k = None) && (c_ref a k <? 2 ^ 31)
         && ((0 <? c_ref a k) || (c_nref a <? NBUF))
      then Some (c_bread pid k a) else None
  | OpBwrite k => if held a k then Some (c_bwrite k a) else None
  | OpBrelse k =>
      if held a k && (negb (c_ref a k =? 1) || block_eqb (c_view a k) (c_disk a k))
      then Some (c_brelse k a) else None
  | OpBpin k => if (0 <? c_ref a k) && (c_ref a k <? 2 ^ 31) then Some (c_bpin k a) else None
  | OpBunpin k => if 1 <? c_ref a k then Some (c_bunpin k a) else None
  | OpSet k b => if held a k then Some (c_set k b a) else None
  end.
Fixpoint spec_run (ops : list cop) (a : cache) : option cache :=
  match ops with
  | [] => Some a
  | o :: ops' => match spec_op o a with Some a' => spec_run ops' a' | None => None end
  end.
End Client.

Section ClientRun.
Context {S H : Type} `{CacheOps S H} (dev : Z).

Definition with_handle (k : Z) (m : H -> M S ()) (hs : gmap Z H) : M S (gmap Z H) :=
  match hs !! k with
  | Some h => m h ;;; mreturn hs
  | None => panic "client has no such buffer"
  end.
Definition run_op (o : cop) (hs : gmap Z H) : M S (gmap Z H) :=
  match o with
  | OpBread k => let* h := bc_bread dev k in mreturn (<[k := h]> hs)
  | OpBwrite k => with_handle k bc_bwrite hs
  | OpBrelse k => with_handle k bc_brelse hs
  | OpBpin k => with_handle k bc_bpin hs
  | OpBunpin k => with_handle k bc_bunpin hs
  | OpSet k b => with_handle k (fun h => modify (bc_set_data h b)) hs
  end.
Fixpoint run_ops (ops : list cop) (hs : gmap Z H) : M S (gmap Z H) :=
  match ops with
  | [] => mreturn hs
  | o :: ops' => let* hs := run_op o hs in run_ops ops' hs
  end.
End ClientRun.

(** ** Simulation of client programs by any implementation *)

Section Simulation.
Context {S H : Type} `{BC : BlockCache S H dev pid}.

Record sim (s : S) (hs : gmap Z H) (a : cache) : Prop := {
  sim_inv : bc_inv s;
  sim_abs : bc_abs s ≡ a;
  sim_locked k : c_lock a k <> None -> 0 < c_ref a k;
  sim_handle k : 0 < c_ref a k -> exists h, hs !! k = Some h /\ bc_handle s k h }.

Lemma sim_view s hs a : sim s hs a ->
  (forall k, c_ref (bc_abs s) k = c_ref a k) /\ (forall k, c_lock (bc_abs s) k = c_lock a k)
  /\ (forall k, c_view (bc_abs s) k = c_view a k) /\ (forall k, c_disk (bc_abs s) k = c_disk a k)
  /\ c_nref (bc_abs s) = c_nref a.
Proof. intros [_ (? & ? & ? & ? & ? & ?) _ _]. done. Qed.

(** A call through a buffer the client has. *)
Lemma sim_with_handle s hs a k m a' :
  sim s hs a -> 0 < c_ref a k ->
  (forall j, c_lock a' j <> None -> 0 < c_ref a' j) -> (forall j, 0 < c_ref a' j -> 0 < c_ref a j) ->
  (forall h, bc_handle s k h -> exists s', m h s = Ret tt s' /\ bc_inv s' /\ bc_abs s' ≡ a'
     /\ forall j h', bc_handle s j h' -> 0 < c_ref a' j -> bc_handle s' j h') ->
  exists s', with_handle k m hs s = Ret hs s' /\ sim s' hs a'.
Proof.
  intros Hs Hr Hl Hmono Hm. destruct (sim_handle _ _ _ Hs k Hr) as (h & Hk & Hh).
  destruct (Hm h Hh) as (s' & Hrun & Hi & Ha & Hhs). unfold with_handle. rewrite Hk.
  exists s'. split; [by rewrite (mthen_ret _ _ _ _ _ Hrun)|]. split; try done.
  intros j Hj. destruct (sim_handle _ _ _ Hs j (Hmono j Hj)) as (h' & ? & ?). eauto.
Qed.

Lemma held_lock a k : held pid a k = true -> c_lock a k = Some pid.
Proof. unfold held. destruct (c_lock a k) as [p|]; [|done]. by intros ->%Z.eqb_eq. Qed.

Lemma sim_step o s hs a a' :
  sim s hs a -> spec_op pid o a = Some a' ->
  exists hs' s', run_op dev o hs s = Ret hs' s' /\ sim s' hs' a'.
Proof.
  intros Hs Ho. pose proof (sim_inv _ _ _ Hs) as Hi. pose proof (sim_abs _ _ _ Hs) as Habs.
  destruct (sim_view _ _ _ Hs) as (Vr & Vl & Vv & Vd & Vn).
  assert (forall k, held pid a k = true -> 0 < c_ref a k /\ c_lock (bc_abs s) k = Some pid) as Hheld.
  { intros k Hk%held_lock. rewrite Vl. split; [|done]. apply (sim_locked _ _ _ Hs). congruence. }
  destruct o as [k|k|k|k|k|k b]; simpl in Ho; case_match eqn:Hg; simplify_eq; simpl run_op.
  - rewrite !andb_true_iff, !bool_decide_eq_true, orb_true_iff, !Z.leb_le, !Z.ltb_lt in Hg.
    destruct Hg as ((((Hk1 & Hk2) & Hlk) & Hrk) & Hfree).
    destruct (bc_bread_ok s k Hi) as (h & s' & Hrun & Hi' & Ha' & Hh & Hhs);
      [lia | by rewrite Vl | by rewrite Vr | by rewrite Vr, Vn |].
    exists (<[k := h]> hs), s'. split; [by rewrite (mthen_ret _ _ _ _ _ Hrun)|].
    pose proof (bc_ref_ok s k Hi) as Hr0. rewrite Vr in Hr0. split; [done | | |].
    + by rewrite Ha', Habs.
    + intros j. simpl. unfold upd. bcase; [lia|]. apply (sim_locked _ _ _ Hs).
    + intros j. simpl. unfold upd. destruct (Z.eqb_spec j k) as [->|Hj].
      * intros _. exists h. by rewrite lookup_insert_eq.
      * intros Hr. destruct (sim_handle _ _ _ Hs j Hr) as (h' & ? & ?). exists h'.
        rewrite lookup_insert_ne by done. eauto.
  - destruct (Hheld k Hg) as [Hr Hl].
    edestruct (sim_with_handle s hs a k bc_bwrite (c_bwrite k a) Hs Hr); [apply Hs | done | | eauto].
    intros h Hh. destruct (bc_bwrite_ok s k h Hi Hh Hl) as (s' & ? & ? & HA & ?).
    exists s'. rewrite Habs in HA. eauto.
  - apply andb_true_iff in Hg as [Hg Hc]. destruct (Hheld k Hg) as [Hr Hl].
    edestruct (sim_with_handle s hs a k bc_brelse (c_brelse k a) Hs Hr); [| | | eauto].
    + intros j. simpl. unfold upd. bcase; [done|]. apply Hs.
    + intros j. simpl. unfold upd. bcase; subst; done.
    + intros h Hh. destruct (bc_brelse_ok s k h Hi Hh Hl) as (s' & ? & ? & HA & Hhs).
      { rewrite Vr, Vv, Vd. intros Hone. rewrite Hone in Hc. simpl in Hc. by apply bool_decide_eq_true in Hc. }
      exists s'. rewrite Habs in HA. split; [done|]. split; [done|]. split; [done|]. intros j h' Hj Hpos. apply Hhs; [done|].
      by destruct HA as (-> & _).
  - apply andb_true_iff in Hg as [Hr%Z.ltb_lt Hlt%Z.ltb_lt].
    edestruct (sim_with_handle s hs a k bc_bpin (c_bpin k a) Hs Hr); [| | | eauto].
    + intros j Hj%(sim_locked _ _ _ Hs). simpl. unfold upd. bcase; lia.
    + intros j. simpl. unfold upd. bcase; subst; done.
    + intros h Hh. destruct (bc_bpin_ok s k h Hi Hh) as (s' & ? & ? & HA & ?); [by rewrite Vr|].
      exists s'. rewrite Habs in HA. eauto.
  - apply Z.ltb_lt in Hg. assert (0 < c_ref a k) as Hr by lia.
    edestruct (sim_with_handle s hs a k bc_bunpin (c_bunpin k a) Hs Hr); [| | | eauto].
    + intros j Hj%(sim_locked _ _ _ Hs). simpl. unfold upd. bcase; subst; lia.
    + intros j. simpl. unfold upd. bcase; subst; done.
    + intros h Hh. destruct (bc_bunpin_ok s k h Hi Hh) as (s' & ? & ? & HA & ?); [by rewrite Vr|].
      exists s'. rewrite Habs in HA. eauto.
  - destruct (Hheld k Hg) as [Hr Hl].
    edestruct (sim_with_handle s hs a k (fun h => modify (bc_set_data h b)) (c_set k b a) Hs Hr);
      [apply Hs | done | | eauto].
    intros h Hh. destruct (bc_set_ok s k h b Hi Hh) as (? & HA & ?).
    eexists. split; [reflexivity|]. rewrite Habs in HA. eauto.
Qed.

Lemma sim_run ops s hs a a' :
  sim s hs a -> spec_run pid ops a = Some a' ->
  exists hs' s', run_ops dev ops hs s = Ret hs' s' /\ sim s' hs' a'.
Proof.
  revert s hs a. induction ops as [|o ops IH]; intros s hs a Hs Ho; simpl in *.
  - simplify_eq. by exists hs, s.
  - destruct (spec_op pid o a) as [a1|] eqn:Hop; [|done].
    destruct (sim_step o s hs a a1 Hs Hop) as (hs1 & s1 & Hrun & Hs1).
    rewrite (mthen_ret _ _ _ _ _ Hrun). eauto.
Qed.
End Simulation.
