(* ===== verification/Log.v ===== *)
(** Redo log of the file system (src/kernel/log.c), on any buffer cache that
    keeps the contract of [BlockCache].

    [sleep(&log, &log.lock)] is the outcome [Sleep]: a process that is woken
    up runs the routine's loop again from the state it then finds.  The
    console messages are left out, and [wakeup(&log)], which only makes such
    processes runnable, has no effect on this state. *)

From S2P Require Import Prelude.
From S2P Require Import Bytes.
From S2P Require Import BlockCache.

(** [struct log], with the cache it works on. *)
Record log_st {S : Type} := LogSt {
  lg_start : Z;
  lg_outstanding : Z;
  lg_committing : bool;
  lg_dev : Z;
  lg_n : Z;               (* lh.n *)
  lg_block : list Z;      (* lh.block[LOGBLOCKS] *)
  lg_cache : S }.
Arguments log_st : clear implicits.

Section Log.
Context {S H : Type} `{CacheOps S H}.
Implicit Type l : log_st S.

Definition set_cache c l := LogSt S (lg_start l) (lg_outstanding l) (lg_committing l) (lg_dev l) (lg_n l) (lg_block l) c.
Definition set_n n l := LogSt S (lg_start l) (lg_outstanding l) (lg_committing l) (lg_dev l) n (lg_block l) (lg_cache l).
Definition set_outstanding o l := LogSt S (lg_start l) o (lg_committing l) (lg_dev l) (lg_n l) (lg_block l) (lg_cache l).
Definition set_committing c l := LogSt S (lg_start l) (lg_outstanding l) c (lg_dev l) (lg_n l) (lg_block l) (lg_cache l).
Definition set_block (i : nat) v l := LogSt S (lg_start l) (lg_outstanding l) (lg_committing l) (lg_dev l) (lg_n l) (<[i := v]> (lg_block l)) (lg_cache l).

Definition cacheM {A} (m : M S A) : M (log_st S) A := zoom lg_cache set_cache m.
Definition data (b : H) : M (log_st S) block := gets (fun l => bc_data b (lg_cache l)).
Definition set_data (b : H) (d : block) : M (log_st S) () := cacheM (modify (bc_set_data b d)).
Definition log_bread (blockno : Z) : M (log_st S) H :=
  let* dev := gets lg_dev in cacheM (bc_bread dev (u32 blockno)).

(** [log.lh.block[i]]; the array has [LOGBLOCKS] elements and an access out
    of it is undefined. *)
Definition check_index (i : nat) : M (log_st S) () :=
  when (LOGBLOCKS <=? Z.of_nat i) do panic "undefined: lh.block index".
Definition get_block (i : nat) : M (log_st S) Z :=
  check_index i ;;; gets (fun l => lg_block l !!! i).
Definition put_block (i : nat) (v : Z) : M (log_st S) () :=
  check_index i ;;; modify (set_block i v).

(** Byte offsets of the fields of the on-disk [struct logheader]. *)
Definition off_n : nat := 0.
Definition off_block (i : nat) : nat := 4 + 4 * i.

(** Loop body of [install_trans]. *)
Definition install_one (recovering : bool) (tail : nat) : M (log_st S) () :=
  let* start := gets lg_start in
  let* lbuf := log_bread (start + Z.of_nat tail + 1) in
  let* dst := get_block tail in
  let* dbuf := log_bread dst in
  let* d := data lbuf in
  set_data dbuf d ;;;
  cacheM (bc_bwrite dbuf) ;;;
  (when negb recovering do cacheM (bc_bunpin dbuf)) ;;;
  cacheM (bc_brelse lbuf) ;;;
  cacheM (bc_brelse dbuf).

Definition install_trans (recovering : bool) : M (log_st S) () :=
  let* n := gets lg_n in
  mfor (seq 0 (Z.to_nat n)) (install_one recovering).

Definition read_head : M (log_st S) () :=
  let* start := gets lg_start in
  let* buf := log_bread start in
  let* d := data buf in
  modify (set_n (get_int off_n d)) ;;;
  let* n := gets lg_n in
  mfor (seq 0 (Z.to_nat n)) (fun i => put_block i (get_int (off_block i) d)) ;;;
  cacheM (bc_brelse buf).

(** [hb->block[i] = log.lh.block[i]] *)
Definition write_head_block (buf : H) (i : nat) : M (log_st S) () :=
  let* v := get_block i in
  let* d := data buf in
  set_data buf (put 4 (off_block i) v d).

Definition write_head : M (log_st S) () :=
  let* start := gets lg_start in
  let* buf := log_bread start in
  let* n := gets lg_n in
  let* d := data buf in
  set_data buf (put 4 off_n n d) ;;;
  mfor (seq 0 (Z.to_nat n)) (write_head_block buf) ;;;
  cacheM (bc_bwrite buf) ;;;
  cacheM (bc_brelse buf).

Definition recover_from_log : M (log_st S) () :=
  read_head ;;;
  install_trans true ;;;
  modify (set_n 0) ;;;
  write_head.

Definition sizeof_logheader : Z := 4 + 4 * LOGBLOCKS.

Definition initlog (dev logstart : Z) : M (log_st S) () :=
  if BSIZE <=? sizeof_logheader then panic "initlog: too big logheader" else
  modify (fun l => LogSt S (i32 logstart) (lg_outstanding l) (lg_committing l) dev (lg_n l) (lg_block l) (lg_cache l)) ;;;
  recover_from_log.

Definition begin_op : M (log_st S) () :=
  let* l := gets (fun l => l) in
  if lg_committing l then sleep
  else if lg_n l + (lg_outstanding l + 1) * MAXOPBLOCKS >? LOGBLOCKS then sleep
  else modify (set_outstanding (lg_outstanding l + 1)).

(** Loop body of [write_log]. *)
Definition write_log_one (tail : nat) : M (log_st S) () :=
  let* start := gets lg_start in
  let* to := log_bread (start + Z.of_nat tail + 1) in
  let* src := get_block tail in
  let* from := log_bread src in
  let* d := data from in
  set_data to d ;;;
  cacheM (bc_bwrite to) ;;;
  cacheM (bc_brelse from) ;;;
  cacheM (bc_brelse to).

Definition write_log : M (log_st S) () :=
  let* n := gets lg_n in
  mfor (seq 0 (Z.to_nat n)) write_log_one.

Definition commit : M (log_st S) () :=
  let* n := gets lg_n in
  when (n >? 0) do
    (write_log ;;;
     write_head ;;;
     install_trans false ;;;
     modify (set_n 0) ;;;
     write_head).

(** [end_op] up to its first [release]: the value is [do_commit]. *)
Definition end_op_enter : M (log_st S) bool :=
  modify (fun l => set_outstanding (lg_outstanding l - 1) l) ;;;
  let* l := gets (fun l => l) in
  if lg_committing l then panic "log.committing" else
  if lg_outstanding l =? 0 then modify (set_committing true) ;;; mreturn true
  else mreturn false.

Definition end_op : M (log_st S) () :=
  let* do_commit := end_op_enter in
  when do_commit do
    (commit ;;;
     modify (set_committing false)).

(** The search loop of [log_write]: the first index below [n] whose entry is
    the block, or [n]. *)
Fixpoint absorb (fuel i : nat) (blocks : list Z) (blockno : Z) : nat :=
  match fuel with
  | O => i
  | Datatypes.S fuel' =>
      if u32 (blocks !!! i) =? blockno then i else absorb fuel' (i + 1) blocks blockno
  end.

Definition log_write (b : H) : M (log_st S) () :=
  let* l := gets (fun l => l) in
  if lg_n l >=? LOGBLOCKS then panic "too big a transaction" else
  if lg_outstanding l <? 1 then panic "log_write outside of trans" else
  let blockno := bc_blockno b (lg_cache l) in
  let i := absorb (Z.to_nat (lg_n l)) 0 (lg_block l) blockno in
  put_block i (i32 blockno) ;;;
  when (Z.of_nat i =? lg_n l) do
    (cacheM (bc_bpin b) ;;;
     modify (set_n (lg_n l + 1))).

(** A file-system operation of one process that replaces the contents of
    some blocks: [begin_op], and for each block [bread], assignment to
    [b->data], [log_write] and [brelse], then [end_op]. *)
Definition tx_write (k : Z) (d : block) : M (log_st S) () :=
  let* b := log_bread k in
  set_data b d ;;;
  log_write b ;;;
  cacheM (bc_brelse b).
Definition transaction (ws : list (Z * block)) : M (log_st S) () :=
  begin_op ;;;
  mfor ws (fun w => tx_write w.1 w.2) ;;;
  end_op.
End Log.
