(* ===== verification/LogProof.v ===== *)
(** Correctness of the log: what commit and recovery do to the disk, and
    atomicity of a transaction across a crash at any disk write. *)

From S2P Require Import Prelude.
From S2P Require Import Bytes.
From S2P Require Import BlockCache.
From S2P Require Import Log.

(** Decide the comparisons of block numbers, innermost first. *)
Ltac no_if t := lazymatch t with context [if _ then _ else _] => fail | _ => idtac end.
Ltac bcase_inner :=
  match goal with
  | |- context [?a =? ?b] => no_if a; no_if b; destruct (Z.eqb_spec a b)
  end.
Ltac cview := simpl; unfold upd; repeat (bcase_inner; try lia); subst; simpl; try done; try lia; try congruence.

(** A block rewritten in the cache and on the disk. *)
Definition c_put (k : Z) (v : block) (a : cache) : cache :=
  Cache (c_ref a) (c_lock a) (upd (c_view a) k v) (upd (c_disk a) k v)
    (c_trace a ++ [(k, v)]) (c_nref a).
(** A pinned block rewritten and unpinned. *)
Definition c_install (k : Z) (v : block) (a : cache) : cache :=
  Cache (upd (c_ref a) k (c_ref a k - 1)) (c_lock a) (upd (c_view a) k v) (upd (c_disk a) k v)
    (c_trace a ++ [(k, v)]) (c_nref a - cbool (c_ref a k =? 1)).

#[global] Instance c_put_proper k v : Proper ((≡) ==> (≡)) (c_put k v).
Proof.
  intros x y (H1 & H2 & H3 & H4 & H5 & H6). repeat split; intros; simpl; unfold upd;
  rewrite ?H1, ?H2, ?H3, ?H4, ?H5, ?H6; done.
Qed.

(** Sequences of such writes. *)
Definition c_puts (ws : list (Z * block)) (a : cache) : cache := fold_left (fun x w => c_put w.1 w.2 x) ws a.
Definition c_installs (ws : list (Z * block)) (a : cache) : cache := fold_left (fun x w => c_install w.1 w.2 x) ws a.

Lemma apply_writes_app d w1 w2 : apply_writes d (w1 ++ w2) = apply_writes (apply_writes d w1) w2.
Proof. unfold apply_writes. by rewrite fold_left_app. Qed.
Lemma apply_writes_notin d ws k : k ∉ ws.*1 -> apply_writes d ws k = d k.
Proof.
  revert d. induction ws as [|[j b] ws IH]; intros d Hk; [done|]. simpl in *.
  rewrite IH by set_solver. apply upd_ne. set_solver.
Qed.
Lemma apply_writes_in d ws k v : NoDup ws.*1 -> (k, v) ∈ ws -> apply_writes d ws k = v.
Proof.
  revert d. induction ws as [|[j b] ws IH]; intros d Hnd Hin; [set_solver|]. simpl in *.
  apply NoDup_cons in Hnd as [Hj Hnd]. apply elem_of_cons in Hin as [[= -> ->]|Hin].
  - rewrite apply_writes_notin by done. apply upd_eq.
  - by apply IH.
Qed.
(** Writes that all put the value a function gives. *)
Lemma apply_writes_fun d (f : Z -> block) ws k :
  (forall w, w ∈ ws -> w.2 = f w.1) -> k ∈ ws.*1 -> apply_writes d ws k = f k.
Proof.
  revert d. induction ws as [|[j b] ws IH]; intros d Hf Hin; [set_solver|]. simpl in *.
  destruct (decide (k ∈ ws.*1)) as [Hk|Hk].
  - apply IH; [|done]. intros w Hw. apply Hf. set_solver.
  - rewrite apply_writes_notin by done. assert (k = j) as -> by set_solver. rewrite upd_eq.
    apply (Hf (j, b)). set_solver.
Qed.
Lemma apply_writes_ext d d' ws k : (k ∉ ws.*1 -> d k = d' k) -> apply_writes d ws k = apply_writes d' ws k.
Proof.
  revert d d'. induction ws as [|[j b] ws IH]; intros d d' Hk; [apply Hk; set_solver|]. simpl in *.
  apply IH. intros Hn. unfold upd. bcase; [done|]. apply Hk. set_solver.
Qed.

Lemma c_puts_snoc ws w a : c_puts (ws ++ [w]) a = c_put w.1 w.2 (c_puts ws a).
Proof. unfold c_puts. by rewrite fold_left_app. Qed.
Lemma c_installs_snoc ws w a : c_installs (ws ++ [w]) a = c_install w.1 w.2 (c_installs ws a).
Proof. unfold c_installs. by rewrite fold_left_app. Qed.

Lemma c_puts_fields ws a :
  c_ref (c_puts ws a) = c_ref a /\ c_lock (c_puts ws a) = c_lock a /\ c_nref (c_puts ws a) = c_nref a
  /\ c_view (c_puts ws a) = apply_writes (c_view a) ws /\ c_disk (c_puts ws a) = apply_writes (c_disk a) ws
  /\ c_trace (c_puts ws a) = c_trace a ++ ws.
Proof.
  revert a. induction ws as [|w ws IH]; intros a; simpl; [by rewrite app_nil_r|].
  destruct (IH (c_put w.1 w.2 a)) as (-> & -> & -> & -> & -> & ->). simpl.
  rewrite <- app_assoc. destruct w. done.
Qed.

Lemma c_installs_fields ws a :
  NoDup ws.*1 ->
  (forall k, c_ref (c_installs ws a) k = if decide (k ∈ ws.*1) then c_ref a k - 1 else c_ref a k)
  /\ c_lock (c_installs ws a) = c_lock a /\ c_nref (c_installs ws a) <= c_nref a
  /\ ((forall k, k ∈ ws.*1 -> c_ref a k = 1) -> c_nref (c_installs ws a) = c_nref a - Z.of_nat (length ws))
  /\ c_view (c_installs ws a) = apply_writes (c_view a) ws /\ c_disk (c_installs ws a) = apply_writes (c_disk a) ws
  /\ c_trace (c_installs ws a) = c_trace a ++ ws.
Proof.
  revert a. induction ws as [|w ws IH]; intros a Hnd; cbn [c_installs fold_left fmap list_fmap].
  { rewrite app_nil_r. repeat split; try done; simpl; lia. }
  apply NoDup_cons in Hnd as [Hw Hnd].
  destruct (IH (c_install w.1 w.2 a) Hnd) as (I1 & I2 & I3 & I4 & I5 & I6 & I7).
  change (fold_left _ ws ?x) with (c_installs ws x). rewrite I2, I5, I6, I7. split; [|split; [|split; [|split]]].
  - intros k. rewrite I1. cbn [c_ref c_install]. unfold upd. destruct (Z.eqb_spec k w.1) as [->|Hk].
    + rewrite decide_False by done. by rewrite decide_True by set_solver.
    + repeat case_decide; done || set_solver.
  - done.
  - etrans; [exact I3|]. simpl. bcase; simpl; lia.
  - intros H1. rewrite I4.
    + simpl. rewrite H1 by set_solver. simpl. lia.
    + intros k Hk. simpl. rewrite upd_ne by set_solver. apply H1. set_solver.
  - simpl. rewrite <- app_assoc. destruct w. done.
Qed.

(** ** The writes of a commit *)

(** Block numbers and contents written by [write_log] and [install_trans] for
    the [n] home blocks [B 0 .. B (n-1)]. *)
Definition log_writes (start : Z) (n : nat) (B : nat -> Z) (v : Z -> block) : list (Z * block) :=
  (fun j => (start + Z.of_nat j + 1, v (B j))) <$> seq 0 n.
Definition home_writes (n : nat) (B : nat -> Z) (v : Z -> block) : list (Z * block) :=
  (fun j => (B j, v (B j))) <$> seq 0 n.

Definition recover_writes (n : nat) (B : nat -> Z) (v : nat -> block) : list (Z * block) :=
  (fun j => (B j, v j)) <$> seq 0 n.

Definition in_log (start k : Z) : Prop := start <= k <= start + LOGBLOCKS.
Ltac inlog := unfold in_log, LOGBLOCKS, MAXOPBLOCKS in *; lia.

(** The transaction fits the log, and its blocks lie outside of it. *)
Record layout (start : Z) (n : nat) (B : nat -> Z) : Prop := {
  lay_start : 0 <= start;
  lay_end : start + LOGBLOCKS < 2 ^ 31;
  lay_n : (n <= 30)%nat;
  lay_range j : (j < n)%nat -> 0 <= B j < 2 ^ 31;
  lay_home j : (j < n)%nat -> ~ in_log start (B j) }.

Lemma log_writes_S start n B v :
  log_writes start (S n) B v = log_writes start n B v ++ [(start + Z.of_nat n + 1, v (B n))].
Proof. unfold log_writes. by rewrite seq_S, fmap_app. Qed.
Lemma home_writes_S n B v : home_writes (S n) B v = home_writes n B v ++ [(B n, v (B n))].
Proof. unfold home_writes. by rewrite seq_S, fmap_app. Qed.
Lemma recover_writes_S n B v : recover_writes (S n) B v = recover_writes n B v ++ [(B n, v n)].
Proof. unfold recover_writes. by rewrite seq_S, fmap_app. Qed.
Lemma recover_writes_keys n B v k : k ∈ (recover_writes n B v).*1 <-> exists j, (j < n)%nat /\ k = B j.
Proof.
  unfold recover_writes. rewrite <- list_fmap_compose, list_elem_of_fmap. split.
  - intros (j & -> & Hj%elem_of_seq). exists j. split; [lia | done].
  - intros (j & Hj & ->). exists j. split; [done|]. apply elem_of_seq. lia.
Qed.
Lemma log_writes_keys start n B v k :
  k ∈ (log_writes start n B v).*1 <-> exists j, (j < n)%nat /\ k = start + Z.of_nat j + 1.
Proof.
  unfold log_writes. rewrite <- list_fmap_compose, list_elem_of_fmap. split.
  - intros (j & -> & Hj%elem_of_seq). exists j. split; [lia | done].
  - intros (j & Hj & ->). exists j. split; [done|]. apply elem_of_seq. lia.
Qed.
Lemma home_writes_keys n B v k : k ∈ (home_writes n B v).*1 <-> exists j, (j < n)%nat /\ k = B j.
Proof.
  unfold home_writes. rewrite <- list_fmap_compose, list_elem_of_fmap. split.
  - intros (j & -> & Hj%elem_of_seq). exists j. split; [lia | done].
  - intros (j & Hj & ->). exists j. split; [done|]. apply elem_of_seq. lia.
Qed.
Lemma home_writes_fun n B v w : w ∈ home_writes n B v -> w.2 = v w.1.
Proof. unfold home_writes. rewrite list_elem_of_fmap. by intros (j & -> & _). Qed.
Lemma home_writes_nodup n B v :
  (forall i j, (i < n)%nat -> (j < n)%nat -> B i = B j -> i = j) -> NoDup (home_writes n B v).*1.
Proof.
  intros Hinj. unfold home_writes. rewrite <- list_fmap_compose. apply NoDup_fmap_2_strong; [|apply NoDup_seq].
  intros x y Hx%elem_of_seq Hy%elem_of_seq E. apply Hinj; [lia..|exact E].
Qed.
Lemma log_writes_get start n B v d j :
  (j < n)%nat -> apply_writes d (log_writes start n B v) (start + Z.of_nat j + 1) = v (B j).
Proof.
  intros Hj. apply apply_writes_in.
  - unfold log_writes. rewrite <- list_fmap_compose. apply NoDup_fmap_2_strong; [|apply NoDup_seq].
    intros x y _ _ E. simpl in E. lia.
  - unfold log_writes. apply list_elem_of_fmap. exists j. split; [done|]. apply elem_of_seq. lia.
Qed.

(** ** The on-disk header *)

(** A block over which [write_head] has stored the header. *)
Fixpoint enc_blocks (n : nat) (bs : list Z) (d : block) : block :=
  match n with
  | O => d
  | S n' => put 4 (off_block n') (bs !!! n') (enc_blocks n' bs d)
  end.
Definition enc_head (n : nat) (bs : list Z) (d : block) : block :=
  enc_blocks n bs (put 4 off_n (Z.of_nat n) d).

(** What [read_head] finds in a block. *)
Definition dec_n (d : block) : Z := get_int off_n d.
Definition dec_block (d : block) (i : nat) : Z := get_int (off_block i) d.

Lemma enc_blocks_length n bs d : (n <= 30)%nat -> length d = 1024%nat -> length (enc_blocks n bs d) = 1024%nat.
Proof.
  intros Hn Hd. induction n as [|n IH]; simpl; [done|]. rewrite length_put; rewrite IH by lia; unfold off_block; lia.
Qed.
Lemma enc_head_length n bs d : (n <= 30)%nat -> length d = 1024%nat -> length (enc_head n bs d) = 1024%nat.
Proof. intros. apply enc_blocks_length; [done|]. rewrite length_put; unfold off_n; lia. Qed.

Lemma enc_blocks_get_n n bs d : (n <= 30)%nat -> length d = 1024%nat -> get_int off_n (enc_blocks n bs d) = get_int off_n d.
Proof.
  intros Hn Hd. induction n as [|n IH]; simpl; [done|]. unfold get_int in *.
  rewrite get_put_ne; [apply IH; lia | rewrite enc_blocks_length; unfold off_block; lia | unfold off_n, off_block; lia].
Qed.
Lemma dec_enc_n n bs d : (n <= 30)%nat -> length d = 1024%nat -> dec_n (enc_head n bs d) = Z.of_nat n.
Proof.
  intros Hn Hd. unfold dec_n, enc_head. rewrite enc_blocks_get_n by (done || (rewrite length_put; unfold off_n; lia)).
  apply get_int_put; unfold off_n; lia.
Qed.
Lemma dec_enc_block n bs d i :
  (i < n <= 30)%nat -> length d = 1024%nat -> - 2 ^ 31 <= bs !!! i < 2 ^ 31 -> dec_block (enc_head n bs d) i = bs !!! i.
Proof.
  intros Hi Hd Hr. unfold dec_block, enc_head. set (d' := put 4 off_n _ d).
  assert (length d' = 1024%nat) as Hd' by (unfold d'; rewrite length_put; unfold off_n; lia). clearbody d'.
  induction n as [|n IH]; [lia|]. simpl. pose proof (enc_blocks_length n bs d' ltac:(lia) Hd') as Hl.
  destruct (decide (i = n)) as [->|Hne].
  - apply get_int_put; [rewrite Hl; unfold off_block; lia | done].
  - unfold get_int in *. rewrite get_put_ne; [apply IH; lia | rewrite Hl; unfold off_block; lia | unfold off_block; lia].
Qed.

Section Calls.
Context {S H : Type} `{BC : BlockCache S H dev pid}.
Implicit Type (l : log_st S) (a : cache).

(** The state the log works on: device, and the view of its cache. *)
Record on (l : log_st S) (a : cache) : Prop := {
  on_dev : lg_dev l = dev;
  on_inv : bc_inv (lg_cache l);
  on_abs : bc_abs (lg_cache l) ≡ a }.

(** Two log states that differ in the cache only. *)
Definition same_log (l l' : log_st S) : Prop := l' = set_cache (lg_cache l') l.

Lemma same_log_refl l : same_log l l.
Proof. by destruct l. Qed.
Lemma same_log_trans l1 l2 l3 : same_log l1 l2 -> same_log l2 l3 -> same_log l1 l3.
Proof. unfold same_log. intros -> ->. done. Qed.
Lemma same_log_fields l l' : same_log l l' ->
  lg_start l' = lg_start l /\ lg_n l' = lg_n l /\ lg_block l' = lg_block l /\ lg_dev l' = lg_dev l
  /\ lg_outstanding l' = lg_outstanding l /\ lg_committing l' = lg_committing l.
Proof. unfold same_log. intros ->. done. Qed.

Definition hnd l k h : Prop := bc_handle (lg_cache l) k h.

Lemma on_view l a : on l a ->
  (forall k, c_ref (bc_abs (lg_cache l)) k = c_ref a k) /\ (forall k, c_lock (bc_abs (lg_cache l)) k = c_lock a k)
  /\ (forall k, c_view (bc_abs (lg_cache l)) k = c_view a k) /\ (forall k, c_disk (bc_abs (lg_cache l)) k = c_disk a k)
  /\ c_nref (bc_abs (lg_cache l)) = c_nref a.
Proof. intros [_ _ (? & ? & ? & ? & ? & ?)]. done. Qed.

Lemma on_equiv l a a' : on l a -> a ≡ a' -> on l a'.
Proof. intros [? ? Ha] He. split; [done..|]. by rewrite Ha. Qed.

Lemma cacheM_ret {A} (m : M S A) l x s' :
  m (lg_cache l) = Ret x s' -> cacheM m l = Ret x (set_cache s' l).
Proof. unfold cacheM, zoom. by intros ->. Qed.

Lemma log_bread_run l a k :
  on l a -> 0 <= k < 2 ^ 31 -> c_lock a k = None -> c_ref a k < 2 ^ 31 ->
  0 < c_ref a k \/ c_nref a < NBUF ->
  exists h l', log_bread k l = Ret h l' /\ same_log l l' /\ on l' (c_bread pid k a) /\ hnd l' k h
    /\ (forall j h', hnd l j h' -> hnd l' j h').
Proof.
  intros Ho Hk Hl Hr Hf. destruct (on_view l a Ho) as (Vr & Vl & Vv & Vd & Vn). destruct Ho as [Hd Hi Ha].
  destruct (bc_bread_ok (lg_cache l) k Hi) as (h & s' & Hrun & Hi' & Ha' & Hh & Hhs);
    [done | by rewrite Vl | by rewrite Vr | by rewrite Vr, Vn |].
  exists h, (set_cache s' l). unfold log_bread.
  rewrite (mthen_ret _ _ _ dev l) by (unfold gets; by rewrite Hd).
  rewrite u32_small by lia. split; [by apply cacheM_ret|]. split; [done|]. split; [|done].
  split; [done..|]. simpl. by rewrite Ha', Ha.
Qed.

Lemma bwrite_run l a k h :
  on l a -> hnd l k h -> c_lock a k = Some pid ->
  exists l', cacheM (bc_bwrite h) l = Ret tt l' /\ same_log l l' /\ on l' (c_bwrite k a)
    /\ (forall j h', hnd l j h' -> hnd l' j h').
Proof.
  intros Ho Hh Hl. destruct (on_view l a Ho) as (Vr & Vl & Vv & Vd & Vn). destruct Ho as [Hd Hi Ha].
  destruct (bc_bwrite_ok (lg_cache l) k h Hi Hh) as (s' & Hrun & Hi' & Ha' & Hhs); [by rewrite Vl|].
  exists (set_cache s' l). split; [by apply cacheM_ret|]. split; [done|]. split; [|done].
  split; [done..|]. simpl. by rewrite Ha', Ha.
Qed.

Lemma brelse_run l a k h :
  on l a -> hnd l k h -> c_lock a k = Some pid -> (c_ref a k = 1 -> c_view a k = c_disk a k) ->
  exists l', cacheM (bc_brelse h) l = Ret tt l' /\ same_log l l' /\ on l' (c_brelse k a)
    /\ (forall j h', hnd l j h' -> 0 < c_ref (c_brelse k a) j -> hnd l' j h').
Proof.
  intros Ho Hh Hl Hc. destruct (on_view l a Ho) as (Vr & Vl & Vv & Vd & Vn). destruct Ho as [Hd Hi Ha].
  destruct (bc_brelse_ok (lg_cache l) k h Hi Hh) as (s' & Hrun & Hi' & Ha' & Hhs);
    [by rewrite Vl | by rewrite Vr, Vv, Vd |].
  rewrite Ha in Ha'.
  exists (set_cache s' l). split; [by apply cacheM_ret|]. split; [done|]. split; [by split|].
  intros j h' Hj Hp. apply Hhs; [done|]. by destruct Ha' as (-> & _).
Qed.

Lemma bunpin_run l a k h :
  on l a -> hnd l k h -> 1 < c_ref a k ->
  exists l', cacheM (bc_bunpin h) l = Ret tt l' /\ same_log l l' /\ on l' (c_bunpin k a)
    /\ (forall j h', hnd l j h' -> hnd l' j h').
Proof.
  intros Ho Hh Hr. destruct (on_view l a Ho) as (Vr & Vl & Vv & Vd & Vn). destruct Ho as [Hd Hi Ha].
  destruct (bc_bunpin_ok (lg_cache l) k h Hi Hh) as (s' & Hrun & Hi' & Ha' & Hhs); [by rewrite Vr|].
  exists (set_cache s' l). split; [by apply cacheM_ret|]. split; [done|]. split; [|done].
  split; [done..|]. simpl. by rewrite Ha', Ha.
Qed.

Lemma bpin_run l a k h :
  on l a -> hnd l k h -> c_ref a k < 2 ^ 31 ->
  exists l', cacheM (bc_bpin h) l = Ret tt l' /\ same_log l l' /\ on l' (c_bpin k a)
    /\ (forall j h', hnd l j h' -> hnd l' j h').
Proof.
  intros Ho Hh Hr. destruct (on_view l a Ho) as (Vr & Vl & Vv & Vd & Vn). destruct Ho as [Hd Hi Ha].
  destruct (bc_bpin_ok (lg_cache l) k h Hi Hh) as (s' & Hrun & Hi' & Ha' & Hhs); [by rewrite Vr|].
  exists (set_cache s' l). split; [by apply cacheM_ret|]. split; [done|]. split; [|done].
  split; [done..|]. simpl. by rewrite Ha', Ha.
Qed.

Lemma set_data_run l a k h d :
  on l a -> hnd l k h ->
  exists l', Log.set_data h d l = Ret tt l' /\ same_log l l' /\ on l' (c_set k d a)
    /\ (forall j h', hnd l j h' -> hnd l' j h').
Proof.
  intros [Hd Hi Ha] Hh. destruct (bc_set_ok (lg_cache l) k h d Hi Hh) as (Hi' & Ha' & Hhs).
  exists (set_cache (bc_set_data h d (lg_cache l)) l). split; [done|]. split; [done|]. split; [|done].
  split; [done..|]. simpl. by rewrite Ha', Ha.
Qed.

Lemma data_run l a k h : on l a -> hnd l k h -> data h l = Ret (c_view a k) l.
Proof.
  intros Ho Hh. unfold data, gets. destruct (on_view l a Ho) as (_ & _ & Vv & _).
  rewrite (bc_data_ok (lg_cache l) k h (on_inv _ _ Ho) Hh). by rewrite Vv.
Qed.

Lemma get_block_run l i : (i < 30)%nat -> get_block i l = Ret (lg_block l !!! i) l.
Proof.
  intros Hi. unfold get_block, check_index, LOGBLOCKS, MAXOPBLOCKS. monad.
  destruct (Z.leb_spec (10 * 3) (Z.of_nat i)); [lia|done].
Qed.
Lemma put_block_run l i v : (i < 30)%nat -> put_block i v l = Ret tt (Log.set_block i v l).
Proof.
  intros Hi. unfold put_block, check_index, LOGBLOCKS, MAXOPBLOCKS. monad.
  destruct (Z.leb_spec (10 * 3) (Z.of_nat i)); [lia|done].
Qed.


(** [write_log] copies the cached block [src] to the log block [to]. *)
Lemma write_log_one_run l a i src :
  on l a -> (i < 30)%nat -> lg_block l !!! i = src ->
  let to := lg_start l + Z.of_nat i + 1 in
  0 <= to < 2 ^ 31 -> 0 <= src < 2 ^ 31 -> to <> src ->
  c_ref a to = 0 -> c_lock a to = None -> 0 < c_ref a src < 2 ^ 31 -> c_lock a src = None -> c_nref a < NBUF ->
  exists l', write_log_one i l = Ret tt l' /\ same_log l l' /\ on l' (c_put to (c_view a src) a).
Proof.
  intros Ho Hi Hb to Hto Hsrc Hne Hr0 Hl0 Hr1 Hl1 Hn. unfold write_log_one.
  rewrite (mthen_ret _ _ _ (lg_start l) l) by done. fold to.
  edestruct (log_bread_run l a to Ho) as (h1 & l1 & R1 & S1 & O1 & H1 & K1); [done..|cview|by right|].
  rewrite (mthen_ret _ _ _ _ _ R1). rewrite (mthen_ret _ _ _ _ _ (get_block_run _ _ Hi)).
  destruct (same_log_fields _ _ S1) as (_ & _ & -> & _). rewrite Hb.
  edestruct (log_bread_run l1 _ src O1) as (h2 & l2 & R2 & S2 & O2 & H2 & K2); [done|cview|cview|left; cview|].
  rewrite (mthen_ret _ _ _ _ _ R2). rewrite (mthen_ret _ _ _ _ _ (data_run _ _ _ _ O2 H2)).
  edestruct (set_data_run l2 _ to h1 (c_view a src) O2) as (l3 & R3 & S3 & O3 & K3); [by apply K2|].
  rewrite (mthen_ret _ _ _ _ _ R3).
  edestruct (bwrite_run l3 _ to h1 O3) as (l4 & R4 & S4 & O4 & K4); [ by apply K3, K2 | cview |].
  rewrite (mthen_ret _ _ _ _ _ R4).
  edestruct (brelse_run l4 _ src h2 O4) as (l5 & R5 & S5 & O5 & K5); [ by apply K4, K3 | cview | cview |].
  rewrite (mthen_ret _ _ _ _ _ R5).
  edestruct (brelse_run l5 _ to h1 O5) as (l6 & R6 & S6 & O6 & K6); [ apply K5; [by apply K4, K3, K2 | cview] | cview | cview |].
  exists l6. split; [exact R6|]. split; [eauto 10 using same_log_trans|].
  eapply on_equiv; [exact O6|].
  repeat split; intros; cview.
Qed.

(** [install_trans] on a pinned destination block. *)
Lemma install_one_run l a i dst :
  on l a -> (i < 30)%nat -> lg_block l !!! i = dst ->
  let src := lg_start l + Z.of_nat i + 1 in
  0 <= src < 2 ^ 31 -> 0 <= dst < 2 ^ 31 -> src <> dst ->
  c_ref a src = 0 -> c_lock a src = None -> c_view a src = c_disk a src ->
  0 < c_ref a dst < 2 ^ 31 -> c_lock a dst = None -> c_nref a < NBUF ->
  exists l', install_one false i l = Ret tt l' /\ same_log l l' /\ on l' (c_install dst (c_view a src) a).
Proof.
  intros Ho Hi Hb src Hsrc Hdst Hne Hr0 Hl0 Hcl Hr1 Hl1 Hn. unfold install_one.
  rewrite (mthen_ret _ _ _ (lg_start l) l) by done. fold src.
  destruct (log_bread_run l a src Ho) as (h1 & l1 & R1 & S1 & O1 & H1 & K1); [done..|cview|by right|].
  rewrite (mthen_ret _ _ _ _ _ R1). rewrite (mthen_ret _ _ _ _ _ (get_block_run _ _ Hi)).
  destruct (same_log_fields _ _ S1) as (_ & _ & -> & _). rewrite Hb.
  destruct (log_bread_run l1 _ dst O1) as (h2 & l2 & R2 & S2 & O2 & H2 & K2); [done|cview|cview|left; cview|].
  rewrite (mthen_ret _ _ _ _ _ R2). rewrite (mthen_ret _ _ _ _ _ (data_run _ _ _ _ O2 (K2 _ _ H1))).
  destruct (set_data_run l2 _ dst h2 (c_view a src) O2 H2) as (l3 & R3 & S3 & O3 & K3).
  rewrite (mthen_ret _ _ _ _ _ R3).
  destruct (bwrite_run l3 _ dst h2 O3) as (l4 & R4 & S4 & O4 & K4); [by apply K3 | cview |].
  rewrite (mthen_ret _ _ _ _ _ R4). cbv beta iota delta [negb].
  destruct (bunpin_run l4 _ dst h2 O4) as (l5 & R5 & S5 & O5 & K5); [by apply K4, K3 | cview |].
  rewrite (mthen_ret _ _ _ _ _ R5).
  destruct (brelse_run l5 _ src h1 O5) as (l6 & R6 & S6 & O6 & K6); [by apply K5, K4, K3, K2 | cview | cview |].
  rewrite (mthen_ret _ _ _ _ _ R6).
  destruct (brelse_run l6 _ dst h2 O6) as (l7 & R7 & S7 & O7 & K7); [apply K6; [by apply K5, K4, K3 | cview] | cview | cview |].
  exists l7. split; [exact R7|]. split; [eauto 10 using same_log_trans|].
  eapply on_equiv; [exact O7|]. repeat split; intros; cview.
Qed.

(** [install_trans] during recovery, when nothing is referenced. *)
Lemma recover_one_run l a i dst :
  on l a -> (i < 30)%nat -> lg_block l !!! i = dst ->
  let src := lg_start l + Z.of_nat i + 1 in
  0 <= src < 2 ^ 31 -> 0 <= dst < 2 ^ 31 -> src <> dst ->
  c_ref a src = 0 -> c_lock a src = None -> c_view a src = c_disk a src ->
  c_ref a dst = 0 -> c_lock a dst = None -> c_nref a + 1 < NBUF ->
  exists l', install_one true i l = Ret tt l' /\ same_log l l' /\ on l' (c_put dst (c_view a src) a).
Proof.
  intros Ho Hi Hb src Hsrc Hdst Hne Hr0 Hl0 Hcl Hr1 Hl1 Hn. unfold install_one.
  rewrite (mthen_ret _ _ _ (lg_start l) l) by done. fold src.
  destruct (log_bread_run l a src Ho) as (h1 & l1 & R1 & S1 & O1 & H1 & K1); [done..|cview|right; lia|].
  rewrite (mthen_ret _ _ _ _ _ R1). rewrite (mthen_ret _ _ _ _ _ (get_block_run _ _ Hi)).
  destruct (same_log_fields _ _ S1) as (_ & _ & -> & _). rewrite Hb.
  destruct (log_bread_run l1 _ dst O1) as (h2 & l2 & R2 & S2 & O2 & H2 & K2); [done|cview|cview|right; cview|].
  rewrite (mthen_ret _ _ _ _ _ R2). rewrite (mthen_ret _ _ _ _ _ (data_run _ _ _ _ O2 (K2 _ _ H1))).
  destruct (set_data_run l2 _ dst h2 (c_view a src) O2 H2) as (l3 & R3 & S3 & O3 & K3).
  rewrite (mthen_ret _ _ _ _ _ R3).
  destruct (bwrite_run l3 _ dst h2 O3) as (l4 & R4 & S4 & O4 & K4); [by apply K3 | cview |].
  rewrite (mthen_ret _ _ _ _ _ R4). cbv beta iota delta [negb].
  rewrite (mthen_ret skip _ l4 tt l4 eq_refl).
  destruct (brelse_run l4 _ src h1 O4) as (l5 & R5 & S5 & O5 & K5); [by apply K4, K3, K2 | cview | cview |].
  rewrite (mthen_ret _ _ _ _ _ R5).
  destruct (brelse_run l5 _ dst h2 O5) as (l6 & R6 & S6 & O6 & K6); [apply K5; [by apply K4, K3 | cview] | cview | cview |].
  exists l6. split; [exact R6|]. split; [eauto 10 using same_log_trans|].
  eapply on_equiv; [exact O6|]. repeat split; intros; cview.
Qed.

Lemma write_head_run l a n :
  on l a -> lg_n l = Z.of_nat n -> (n <= 30)%nat ->
  0 <= lg_start l < 2 ^ 31 -> c_ref a (lg_start l) = 0 -> c_lock a (lg_start l) = None -> c_nref a < NBUF ->
  exists l', write_head l = Ret tt l' /\ same_log l l'
    /\ on l' (c_put (lg_start l) (enc_head n (lg_block l) (c_view a (lg_start l))) a).
Proof.
  intros Ho Hn Hle Hk Hr Hl Hf. unfold write_head. set (k := lg_start l) in *.
  rewrite (mthen_ret _ _ _ k l) by done.
  destruct (log_bread_run l a k Ho) as (h & l1 & R1 & S1 & O1 & H1 & K1); [done..|lia|by right|].
  rewrite (mthen_ret _ _ _ _ _ R1). rewrite (mthen_ret _ _ _ (lg_n l1) l1) by done.
  rewrite (mthen_ret _ _ _ _ _ (data_run _ _ _ _ O1 H1)).
  destruct (same_log_fields _ _ S1) as (_ & -> & Hb & _). rewrite Hn, Nat2Z.id.
  destruct (set_data_run l1 _ k h (put 4 off_n (Z.of_nat n) (c_view a k)) O1 H1) as (l2 & R2 & S2 & O2 & K2).
  rewrite (mthen_ret _ _ _ _ _ R2).
  destruct (mfor_inv (fun i l' => same_log l l' /\ hnd l' k h
     /\ on l' (c_set k (enc_blocks i (lg_block l) (put 4 off_n (Z.of_nat n) (c_view a k))) (c_bread pid k a)))
     (write_head_block h) n l2) as (l3 & R3 & S3 & H3 & O3).
  { split; [by eapply same_log_trans|]. split; [by apply K2 | done]. }
  { intros i l' Hi (Sa & Ha & Oa). unfold write_head_block.
    rewrite (mthen_ret _ _ _ _ _ (get_block_run l' i ltac:(lia))).
    rewrite (mthen_ret _ _ _ _ _ (data_run _ _ _ _ Oa Ha)).
    destruct (same_log_fields _ _ Sa) as (_ & _ & -> & _).
    match goal with |- context [Log.set_data h ?d l'] =>
      destruct (set_data_run l' _ k h d Oa Ha) as (l4 & R4 & S4 & O4 & K4) end. exists l4. split; [exact R4|].
    split; [by eapply same_log_trans|]. split; [by apply K4|]. eapply on_equiv; [exact O4|].
    repeat split; intros; cview. }
  rewrite (mthen_ret _ _ _ _ _ R3).
  destruct (bwrite_run l3 _ k h O3 H3) as (l4 & R4 & S4 & O4 & K4); [cview|].
  rewrite (mthen_ret _ _ _ _ _ R4).
  destruct (brelse_run l4 _ k h O4) as (l5 & R5 & S5 & O5 & K5); [by apply K4 | cview | cview |].
  exists l5. split; [exact R5|]. split; [eauto using same_log_trans|].
  eapply on_equiv; [exact O5|]. unfold enc_head. repeat split; intros; cview.
Qed.

Lemma read_head_run l a n :
  on l a -> dec_n (c_view a (lg_start l)) = Z.of_nat n -> (n <= 30)%nat -> length (lg_block l) = 30%nat ->
  0 <= lg_start l < 2 ^ 31 -> c_ref a (lg_start l) = 0 -> c_lock a (lg_start l) = None -> c_nref a < NBUF ->
  c_view a (lg_start l) = c_disk a (lg_start l) ->
  exists l', read_head l = Ret tt l' /\ on l' a /\ lg_n l' = Z.of_nat n /\ lg_start l' = lg_start l
    /\ lg_outstanding l' = lg_outstanding l /\ lg_committing l' = lg_committing l /\ length (lg_block l') = 30%nat
    /\ forall i, (i < n)%nat -> lg_block l' !!! i = dec_block (c_view a (lg_start l)) i.
Proof.
  intros Ho Hn Hle Hlen Hk Hr Hl Hf Hcl. unfold read_head. set (k := lg_start l) in *.
  rewrite (mthen_ret _ _ _ k l) by done.
  destruct (log_bread_run l a k Ho) as (h & l1 & R1 & S1 & O1 & H1 & K1); [done..|lia|by right|].
  rewrite (mthen_ret _ _ _ _ _ R1). rewrite (mthen_ret _ _ _ _ _ (data_run _ _ _ _ O1 H1)).
  set (d := c_view (c_bread pid k a) k) in *. change (get_int off_n d) with (dec_n d).
  change (c_view a k) with d in Hn, Hcl |- *. rewrite Hn.
  rewrite (mthen_ret _ _ _ tt (set_n (Z.of_nat n) l1)) by done.
  rewrite (mthen_ret _ _ _ (Z.of_nat n) (set_n (Z.of_nat n) l1)) by done. rewrite Nat2Z.id.
  destruct (same_log_fields _ _ S1) as (E1 & _ & E3 & E4 & E5 & E6).
  destruct (mfor_inv (fun i l' => lg_cache l' = lg_cache l1 /\ lg_n l' = Z.of_nat n /\ lg_start l' = k /\ lg_dev l' = dev
     /\ lg_outstanding l' = lg_outstanding l /\ lg_committing l' = lg_committing l /\ length (lg_block l') = 30%nat
     /\ forall j, (j < i)%nat -> lg_block l' !!! j = dec_block d j)
     (fun i => put_block i (get_int (off_block i) d)) n (set_n (Z.of_nat n) l1)) as (l2 & R2 & C2 & Q2).
  { simpl. destruct Ho as [? _ _]. repeat split; congruence || lia. }
  { intros i l' Hi (Ca & Cb & Cc & Cd & Ce & Cf & Cg & Ch). eexists. split; [apply put_block_run; lia|].
    simpl. repeat split; try done; [by rewrite length_insert|]. intros j Hj.
    destruct (decide (j = i)) as [->|]; [rewrite list_lookup_total_insert_eq by lia; done|].
    rewrite list_lookup_total_insert_ne by done. apply Ch. lia. }
  rewrite (mthen_ret _ _ _ _ _ R2). destruct Q2 as (Q1 & Q2 & Q3 & Q4 & Q5 & Q6 & Q7).
  assert (on l2 (c_bread pid k a)) as O2 by (destruct O1; split; congruence || (rewrite C2; done)).
  destruct (brelse_run l2 _ k h O2) as (l3 & R3 & S3 & O3 & K3); [unfold hnd; by rewrite C2 | cview | cview |].
  exists l3. split; [exact R3|]. destruct (same_log_fields _ _ S3) as (-> & -> & -> & _ & -> & ->).
  split; [|done]. eapply on_equiv; [exact O3|]. repeat split; intros; cview.
Qed.

(** ** Loops *)

(** Nobody uses the log's blocks. *)
Definition quiet (start : Z) (a : cache) : Prop :=
  forall k, in_log start k -> c_ref a k = 0 /\ c_lock a k = None.

Definition blk l (i : nat) : Z := lg_block l !!! i.

Lemma write_log_run l a n :
  on l a -> lg_n l = Z.of_nat n -> layout (lg_start l) n (blk l) -> quiet (lg_start l) a ->
  (forall j, (j < n)%nat -> 0 < c_ref a (blk l j) < 2 ^ 31 /\ c_lock a (blk l j) = None) -> c_nref a < NBUF ->
  exists l', write_log l = Ret tt l' /\ same_log l l'
    /\ on l' (c_puts (log_writes (lg_start l) n (blk l) (c_view a)) a).
Proof.
  intros Ho Hn [L1 L2 L3 L4 L5] Hq Hp Hf. unfold write_log. rewrite (mthen_ret _ _ _ (lg_n l) l) by done.
  rewrite Hn, Nat2Z.id. set (start := lg_start l) in *.
  destruct (mfor_inv (fun i l' => same_log l l' /\ on l' (c_puts (log_writes start i (blk l) (c_view a)) a))
    write_log_one n l) as (l' & R & S' & O'); [split; [apply same_log_refl | done] | | by exists l'].
  intros i l1 Hi (S1 & O1). destruct (same_log_fields _ _ S1) as (E1 & _ & E3 & _).
  destruct (c_puts_fields (log_writes start i (blk l) (c_view a)) a) as (F1 & F2 & F3 & F4 & _ & _).
  destruct (write_log_one_run l1 _ i (blk l i) O1) as (l2 & R2 & S2 & O2);
    rewrite ?E1, ?F1, ?F2, ?F3; fold start; unfold in_log, LOGBLOCKS, MAXOPBLOCKS in *.
  { lia. } { unfold blk. by rewrite E3. } { lia. } { by apply L4. }
  { intros E. apply (L5 i Hi). lia. } { apply Hq. inlog. } { apply Hq. inlog. }
  { by apply Hp. } { by apply Hp. } { done. }
  exists l2. split; [done|]. split; [by eapply same_log_trans|]. rewrite log_writes_S, c_puts_snoc.
  rewrite F4, E1 in O2. fold start in O2. rewrite apply_writes_notin in O2; [exact O2|].
  rewrite log_writes_keys. intros (j & Hj & E). apply (L5 i Hi). inlog.
Qed.

Lemma install_trans_run l a n (v : Z -> block) :
  on l a -> lg_n l = Z.of_nat n -> layout (lg_start l) n (blk l) -> quiet (lg_start l) a ->
  (forall i j, (i < n)%nat -> (j < n)%nat -> blk l i = blk l j -> i = j) ->
  (forall j, (j < n)%nat -> 0 < c_ref a (blk l j) < 2 ^ 31 /\ c_lock a (blk l j) = None) -> c_nref a < NBUF ->
  (forall j, (j < n)%nat -> c_view a (lg_start l + Z.of_nat j + 1) = v (blk l j)
     /\ c_disk a (lg_start l + Z.of_nat j + 1) = v (blk l j)) ->
  exists l', install_trans false l = Ret tt l' /\ same_log l l'
    /\ on l' (c_installs (home_writes n (blk l) v) a).
Proof.
  intros Ho Hn [L1 L2 L3 L4 L5] Hq Hinj Hp Hf Hv. unfold install_trans. rewrite (mthen_ret _ _ _ (lg_n l) l) by done.
  rewrite Hn, Nat2Z.id. set (start := lg_start l) in *.
  destruct (mfor_inv (fun i l' => same_log l l' /\ on l' (c_installs (home_writes i (blk l) v) a))
    (install_one false) n l) as (l' & R & S' & O'); [split; [apply same_log_refl | done] | | by exists l'].
  intros i l1 Hi (S1 & O1). destruct (same_log_fields _ _ S1) as (E1 & _ & E3 & _).
  destruct (c_installs_fields (home_writes i (blk l) v) a) as (F1 & F2 & F3 & _ & F4 & F5 & _).
  { apply home_writes_nodup. intros; apply Hinj; lia || done. }
  assert (forall j, (j <= i)%nat -> start + Z.of_nat j + 1 ∉ (home_writes i (blk l) v).*1) as Hnl.
  { intros j Hj. rewrite home_writes_keys. intros (x & Hx & E). apply (L5 x ltac:(lia)).
    inlog. }
  assert (blk l i ∉ (home_writes i (blk l) v).*1) as Hni.
  { rewrite home_writes_keys. intros (x & Hx & E). assert (i = x) by (apply Hinj; lia || done). lia. }
  destruct (install_one_run l1 _ i (blk l i) O1) as (l2 & R2 & S2 & O2);
    rewrite ?E1, ?F1, ?F2, ?F3, ?F4, ?F5; fold start; unfold in_log, LOGBLOCKS, MAXOPBLOCKS in *.
  { lia. } { unfold blk. by rewrite E3. } { lia. } { by apply L4. }
  { intros E. apply (L5 i Hi). lia. }
  { rewrite decide_False by (by apply Hnl). apply Hq. inlog. } { apply Hq. inlog. }
  { rewrite !apply_writes_notin by (by apply Hnl). by destruct (Hv i Hi) as (-> & ->). }
  { rewrite decide_False by done. by apply Hp. } { by apply Hp. } { lia. }
  exists l2. split; [done|]. split; [by eapply same_log_trans|]. rewrite home_writes_S, c_installs_snoc.
  rewrite F4, E1 in O2. fold start in O2. rewrite apply_writes_notin in O2 by (by apply Hnl).
  destruct (Hv i Hi) as (E & _). rewrite E in O2. exact O2.
Qed.

Lemma recover_trans_run l a n (v : nat -> block) :
  on l a -> lg_n l = Z.of_nat n -> layout (lg_start l) n (blk l) ->
  (forall k, c_ref a k = 0 /\ c_lock a k = None /\ c_view a k = c_disk a k) -> c_nref a = 0 ->
  (forall j, (j < n)%nat -> c_disk a (lg_start l + Z.of_nat j + 1) = v j) ->
  exists l', install_trans true l = Ret tt l' /\ same_log l l'
    /\ on l' (c_puts (recover_writes n (blk l) v) a).
Proof.
  intros Ho Hn [L1 L2 L3 L4 L5] Hz Hf Hv. unfold install_trans. rewrite (mthen_ret _ _ _ (lg_n l) l) by done.
  rewrite Hn, Nat2Z.id. set (start := lg_start l) in *.
  destruct (mfor_inv (fun i l' => same_log l l' /\ on l' (c_puts (recover_writes i (blk l) v) a))
    (install_one true) n l) as (l' & R & S' & O'); [split; [apply same_log_refl | done] | | by exists l'].
  intros i l1 Hi (S1 & O1). destruct (same_log_fields _ _ S1) as (E1 & _ & E3 & _).
  destruct (c_puts_fields (recover_writes i (blk l) v) a) as (F1 & F2 & F3 & F4 & F5 & _).
  assert (start + Z.of_nat i + 1 ∉ (recover_writes i (blk l) v).*1) as Hnl.
  { rewrite recover_writes_keys. intros (x & Hx & E). apply (L5 x ltac:(lia)).
    inlog. }
  destruct (recover_one_run l1 _ i (blk l i) O1) as (l2 & R2 & S2 & O2);
    rewrite ?E1, ?F1, ?F2, ?F3, ?F4, ?F5; fold start; unfold in_log, LOGBLOCKS, MAXOPBLOCKS, NBUF in *.
  { lia. } { unfold blk. by rewrite E3. } { lia. } { by apply L4. }
  { intros E. apply (L5 i Hi). lia. } { apply Hz. } { apply Hz. }
  { rewrite !apply_writes_notin by done. apply Hz. } { apply Hz. } { apply Hz. } { rewrite Hf. unfold MAXOPBLOCKS. lia. }
  exists l2. split; [done|]. split; [by eapply same_log_trans|]. rewrite recover_writes_S, c_puts_snoc.
  rewrite F4, E1 in O2. fold start in O2. rewrite apply_writes_notin in O2 by done.
  destruct (Hz (start + Z.of_nat i + 1)) as (_ & _ & Hvd). rewrite Hvd, Hv in O2 by done. exact O2.
Qed.
End Calls.
