(* ===== verification/LogCrash.v ===== *)
(** Commit, recovery and crashes. *)

From S2P Require Import Prelude.
From S2P Require Import Bytes.
From S2P Require Import BlockCache.
From S2P Require Import Log.
From S2P Require Import LogProof.

(** ** The disk writes of [commit] *)

Definition at_ (bs : list Z) (i : nat) : Z := bs !!! i.

Definition commit_writes (start : Z) (n : nat) (bs : list Z) (v : Z -> block) : list (Z * block) :=
  log_writes start n (at_ bs) v
  ++ (start, enc_head n bs (v start))
  :: home_writes n (at_ bs) v
  ++ [(start, enc_head 0 bs (enc_head n bs (v start)))].

Section Commit.
Context {S H : Type} `{BC : BlockCache S H dev pid}.
Implicit Type (l : log_st S) (a : cache).

(** What holds when [commit] starts on a transaction of [n] blocks. *)
Record txn_ready l a (n : nat) : Prop := {
  tr_on : on l a;
  tr_n : lg_n l = Z.of_nat n;
  tr_len : length (lg_block l) = 30%nat;
  tr_layout : layout (lg_start l) n (at_ (lg_block l));
  tr_quiet : quiet (lg_start l) a;
  tr_inj i j : (i < n)%nat -> (j < n)%nat -> at_ (lg_block l) i = at_ (lg_block l) j -> i = j;
  tr_pinned j : (j < n)%nat -> c_ref a (at_ (lg_block l) j) = 1 /\ c_lock a (at_ (lg_block l) j) = None;
  tr_nref : c_nref a = Z.of_nat n;
  tr_room : (n < 30)%nat }.

Lemma commit_run l a n :
  txn_ready l a n -> (0 < n)%nat ->
  exists l' a', commit l = Ret tt l' /\ on l' a'
    /\ l' = set_cache (lg_cache l') (set_n 0 l)
    /\ c_trace a' = c_trace a ++ commit_writes (lg_start l) n (lg_block l) (c_view a)
    /\ c_disk a' = apply_writes (c_disk a) (commit_writes (lg_start l) n (lg_block l) (c_view a))
    /\ c_view a' = apply_writes (c_view a) (commit_writes (lg_start l) n (lg_block l) (c_view a))
    /\ (forall k, c_ref a' k = if decide (k ∈ (home_writes n (at_ (lg_block l)) (c_view a)).*1) then c_ref a k - 1 else c_ref a k)
    /\ c_lock a' = c_lock a /\ c_nref a' = 0.
Proof.
  intros [Ho Hn Hlen Hlay Hq Hinj Hp Hnr Hroom] Hpos. unfold commit.
  set (start := lg_start l) in *. set (bs := lg_block l) in *. set (B := at_ bs) in *.
  pose proof Hlay as [L1 L2 L3 L4 L5].
  rewrite (mthen_ret _ _ _ (lg_n l) l) by done. rewrite Hn. destruct (Z.gtb_spec (Z.of_nat n) 0); [|lia].
  assert (forall j, (j < n)%nat -> 0 < c_ref a (B j) < 2 ^ 31 /\ c_lock a (B j) = None) as Hp'.
  { intros j Hj. destruct (Hp j Hj) as (-> & ->). done. }
  assert (c_nref a < NBUF) as Hlt by (unfold NBUF, MAXOPBLOCKS; lia).
  destruct (write_log_run l a n Ho Hn Hlay Hq Hp' Hlt) as (l1 & R1 & S1 & O1).
  rewrite (mthen_ret _ _ _ _ _ R1). change (blk l) with B in O1. fold start in O1.
  set (w1 := log_writes start n B (c_view a)) in *. set (a1 := c_puts w1 a) in *.
  destruct (same_log_fields _ _ S1) as (E1 & E2 & E3 & _). fold start in E1. fold bs in E3.
  destruct (c_puts_fields w1 a) as (F1 & F2 & F3 & F4 & F5 & F6). fold a1 in F1, F2, F3, F4, F5, F6.
  assert (start ∉ w1.*1) as Hs1.
  { unfold w1. rewrite log_writes_keys. intros (j & Hj & E). lia. }
  destruct (write_head_run l1 a1 n O1) as (l2 & R2 & S2 & O2);
    rewrite ?E1, ?E2, ?F1, ?F2, ?F3; try done; [inlog | apply Hq; inlog | apply Hq; inlog |].
  rewrite (mthen_ret _ _ _ _ _ R2). rewrite E1, E3 in O2.
  rewrite F4, (apply_writes_notin _ w1 start Hs1) in O2.
  set (h1 := enc_head n bs (c_view a start)) in *. set (a2 := c_put start h1 a1) in *.
  destruct (same_log_fields _ _ (same_log_trans _ _ _ S1 S2)) as (G1 & G2 & G3 & _). fold start in G1. fold bs in G3.
  assert (blk l2 = B) as HB2 by (unfold blk, B, at_; by rewrite G3).
  destruct (install_trans_run l2 a2 n (c_view a)) as (l3 & R3 & S3 & O3);
    rewrite ?G1, ?G2, ?HB2; try done.
  { intros k Hk. unfold a2. cbn [c_ref c_lock c_put]. rewrite F1, F2. by apply Hq. }
  { unfold a2. simpl. intros j Hj. rewrite F1, F2. by apply Hp'. }
  { unfold a2. simpl. by rewrite F3. }
  { unfold a2. simpl. intros j Hj. rewrite !upd_ne by lia. rewrite F4, F5. unfold w1.
    by rewrite !log_writes_get. }
  rewrite (mthen_ret _ _ _ _ _ R3). rewrite HB2 in O3.
  set (w2 := home_writes n B (c_view a)) in *. set (a3 := c_installs w2 a2) in *.
  assert (NoDup w2.*1) as Hnd by (by apply home_writes_nodup).
  destruct (c_installs_fields w2 a2 Hnd) as (I1 & I2 & I3 & I4 & I5 & I6 & I7). fold a3 in I1, I2, I3, I4, I5, I6, I7.
  assert (start ∉ w2.*1) as Hs2.
  { unfold w2. rewrite home_writes_keys. intros (j & Hj & E). apply (L5 j Hj). inlog. }
  set (l4 := set_n 0 l3). rewrite (mthen_ret (modify (set_n 0)) _ _ tt l4 eq_refl).
  assert (on l4 a3) as O4 by (destruct O3; by split).
  destruct (same_log_fields _ _ (same_log_trans _ _ _ S1 (same_log_trans _ _ _ S2 S3))) as (K1 & _ & K3 & _).
  fold start in K1. fold bs in K3.
  assert (c_nref a3 <= c_nref a) as Hnr3 by (etrans; [exact I3|]; unfold a2; simpl; lia).
  destruct (write_head_run l4 a3 0 O4) as (l5 & R5 & S5 & O5); cbn [lg_n lg_start set_n l4 lg_block];
    rewrite ?K1, ?I2; try done; try lia; try inlog.
  { rewrite I1, decide_False by done. unfold a2. simpl. rewrite F1. apply Hq. inlog. }
  { unfold a2. simpl. rewrite F2. apply Hq. inlog. }
  cbn [lg_start lg_block set_n l4] in O5. rewrite K1, K3, I5 in O5.
  rewrite (apply_writes_notin _ w2 start Hs2) in O5. unfold a2 in O5 at 1. cbn [c_view c_put] in O5. rewrite upd_eq in O5.
  set (h0 := enc_head 0 bs h1) in *. exists l5, (c_put start h0 a3).
  split; [exact R5|]. split; [exact O5|]. split.
  { rewrite S5. unfold l4. rewrite S3, S2, S1. done. }
  assert (commit_writes start n bs (c_view a) = w1 ++ [(start, h1)] ++ w2 ++ [(start, h0)]) as -> by done.
  split; [simpl; rewrite I7; unfold a2; simpl; rewrite F6; by rewrite <- !app_assoc|].
  rewrite !apply_writes_app. cbn [c_put c_disk c_view c_ref c_lock c_nref apply_writes fold_left fst snd].
  rewrite I5, I6, I2. unfold a2. cbn [c_put c_view c_disk c_lock]. rewrite F4, F5, F2.
  split; [done|]. split; [done|]. split; [intros k; rewrite I1; unfold a2; simpl; by rewrite F1|].
  split; [done|]. rewrite I4.
  - unfold a2. simpl. rewrite F3, Hnr. unfold w2, home_writes. rewrite length_fmap, length_seq. lia.
  - intros k. unfold a2. simpl. rewrite F1. unfold w2. rewrite home_writes_keys. intros (j & Hj & ->). by apply Hp.
Qed.
End Commit.

(** ** What recovery makes of a disk *)

Definition log_count (start : Z) (d : Z -> block) : nat := Z.to_nat (dec_n (d start)).
Definition logged (start : Z) (d : Z -> block) : list (Z * block) :=
  recover_writes (log_count start d) (dec_block (d start)) (fun j => d (start + Z.of_nat j + 1)).

(** The on-disk log is one that recovery can run on. *)
Record recoverable (start : Z) (d : Z -> block) : Prop := {
  rc_n : 0 <= dec_n (d start);
  rc_layout : layout start (log_count start d) (dec_block (d start)) }.

Section Recover.
Context {S H : Type} `{BC : BlockCache S H dev pid}.
Implicit Type (l : log_st S) (a : cache).

(** No block is in use and the cache agrees with the disk. *)
Record idle a : Prop := {
  id_ref k : c_ref a k = 0;
  id_lock k : c_lock a k = None;
  id_clean k : c_view a k = c_disk a k;
  id_nref : c_nref a = 0 }.

Lemma recover_run l a :
  on l a -> idle a -> length (lg_block l) = 30%nat -> recoverable (lg_start l) (c_disk a) ->
  exists l' a', recover_from_log l = Ret tt l' /\ on l' a' /\ idle a'
    /\ lg_n l' = 0 /\ lg_start l' = lg_start l /\ length (lg_block l') = 30%nat
    /\ lg_outstanding l' = lg_outstanding l /\ lg_committing l' = lg_committing l
    /\ exists bs, let ws := logged (lg_start l) (c_disk a) ++ [(lg_start l, enc_head 0 bs (c_disk a (lg_start l)))] in
         c_disk a' = apply_writes (c_disk a) ws /\ c_trace a' = c_trace a ++ ws.
Proof.
  intros Ho Hid Hlen [Hn Hlay]. set (start := lg_start l) in *. set (d := c_disk a) in *.
  set (n := log_count start d) in *. assert (dec_n (d start) = Z.of_nat n) as Hn' by (unfold n, log_count; lia).
  pose proof Hlay as [L1 L2 L3 L4 L5]. unfold recover_from_log.
  pose proof (id_clean a Hid start) as Hcl. fold d in Hcl.
  destruct (read_head_run l a n Ho) as (l1 & R1 & O1 & N1 & S1 & T1 & C1 & B1 & D1);
    fold start; rewrite ?Hcl; try done; try apply Hid; try inlog.
  { rewrite (id_nref a Hid). unfold NBUF, MAXOPBLOCKS. lia. }
  rewrite (mthen_ret _ _ _ _ _ R1). fold start in S1, D1. rewrite Hcl in D1.
  assert (recover_writes n (blk l1) (fun j => d (start + Z.of_nat j + 1)) = logged start d) as Hlog.
  { unfold logged, recover_writes. fold n. apply list_fmap_ext. intros i j [-> Hj]%lookup_seq. simpl. unfold blk. by rewrite D1. }
  destruct (recover_trans_run l1 a n (fun j => d (start + Z.of_nat j + 1)) O1 N1) as (l2 & R2 & S2 & O2).
  { rewrite S1. split; try done; intros j Hj; unfold blk; rewrite D1 by done; auto. }
  { intros k. split; [apply Hid|]. split; apply Hid. } { apply Hid. } { intros j Hj. by rewrite S1. }
  rewrite (mthen_ret _ _ _ _ _ R2). rewrite Hlog in O2.
  destruct (same_log_fields _ _ S2) as (E1 & _ & E3 & _ & E5 & E6).
  set (l3 := set_n 0 l2). rewrite (mthen_ret (modify (set_n 0)) _ _ tt l3 eq_refl).
  set (a2 := c_puts (logged start d) a) in *. destruct (c_puts_fields (logged start d) a) as (F1 & F2 & F3 & F4 & F5 & F6).
  fold a2 in F1, F2, F3, F4, F5, F6.
  assert (on l3 a2) as O3 by (destruct O2; by split).
  assert (lg_start l3 = start) as E3s by (simpl; congruence).
  destruct (write_head_run l3 a2 0 O3) as (l4 & R4 & S4 & O4); rewrite ?E3s, ?F1, ?F2, ?F3; try done; try apply Hid; try lia; try inlog.
  { rewrite (id_nref a Hid). unfold NBUF, MAXOPBLOCKS. lia. }
  exists l4. eexists. split; [exact R4|]. split; [exact O4|]. destruct (same_log_fields _ _ S4) as (K1 & K2 & K3 & _ & K5 & K6).
  split; [split; intros; simpl; rewrite ?F1, ?F2, ?F3; try apply Hid|].
  { rewrite F4, F5. unfold upd. bcase; [done|]. apply apply_writes_ext. intros _. apply Hid. }
  rewrite K1, K2, K3, K5, K6. split; [done|]. split; [done|]. split; [simpl; congruence|].
  split; [simpl; congruence|]. split; [simpl; congruence|].
  exists (lg_block l3). cbn [c_put c_disk c_trace]. fold start d. rewrite E3s, F5, F4, F6, apply_writes_app, <- app_assoc.
  fold d. enough (apply_writes (c_view a) (logged start d) start = d start) as -> by done.
  rewrite apply_writes_notin; [apply Hid|].
  unfold logged. rewrite recover_writes_keys. intros (j & Hj & E). apply (L5 j Hj). inlog.
Qed.
End Recover.

(** ** Crashes during commit *)

(** The home blocks once the transaction is installed. *)
Definition new_home (n : nat) (bs : list Z) (v d : Z -> block) (k : Z) : block :=
  apply_writes d (home_writes n (at_ bs) v) k.

Lemma recoverable_clear start d :
  0 <= start -> start + LOGBLOCKS < 2 ^ 31 -> dec_n (d start) = 0 -> recoverable start d /\ logged start d = [].
Proof.
  intros L1 L2 Hz. assert (log_count start d = 0%nat) as Hc by (unfold log_count; by rewrite Hz).
  split; [|unfold logged; by rewrite Hc]. split; [lia|]. rewrite Hc. split; lia || done.
Qed.

Section Crash.
Context (start : Z) (n : nat) (bs : list Z) (v d0 : Z -> block).
Context (Hlay : layout start n (at_ bs)) (Hlen : length (v start) = 1024%nat) (Hclear : dec_n (d0 start) = 0).

Let w1 := log_writes start n (at_ bs) v.
Let h1 := enc_head n bs (v start).
Let w2 := home_writes n (at_ bs) v.
Let h0 := enc_head 0 bs h1.

Lemma home_not_in_log k : ~ in_log start k -> (k ∉ w1.*1) /\ k <> start.
Proof.
  intros Hk. split.
  - unfold w1. rewrite log_writes_keys. intros (j & Hj & ->). apply Hk. pose proof (lay_n _ _ _ Hlay). inlog.
  - intros ->. apply Hk. inlog.
Qed.
Lemma log_not_home k : in_log start k -> forall m, (k ∉ (home_writes m (at_ bs) v).*1) \/ (n < m)%nat.
Proof.
  intros Hk m. destruct (decide (m <= n)%nat); [left | right; lia].
  rewrite home_writes_keys. intros (j & Hj & ->). by apply (lay_home _ _ _ Hlay j ltac:(lia)).
Qed.

(** Before the header reaches the disk: nothing has happened. *)
Lemma crash_before m :
  (m <= n)%nat ->
  let d := apply_writes d0 (take m (commit_writes start n bs v)) in
  recoverable start d /\ forall k, ~ in_log start k -> apply_writes d (logged start d) k = d0 k.
Proof.
  intros Hm d. assert (length w1 = n) as Hw1 by (unfold w1, log_writes; by rewrite length_fmap, length_seq).
  assert (forall k, k ∉ w1.*1 -> d k = d0 k) as Hd.
  { intros k Hk. unfold d, commit_writes. fold w1. rewrite take_app_le by lia. apply apply_writes_notin.
    intros Hin. apply Hk. rewrite list_elem_of_fmap in Hin |- *. destruct Hin as (w & -> & Hw).
    exists w. split; [done|]. by eapply subseteq_take. }
  destruct (recoverable_clear start d (lay_start _ _ _ Hlay) (lay_end _ _ _ Hlay)) as [Hr ->].
  { rewrite Hd; [done|]. unfold w1. rewrite log_writes_keys. intros (j & Hj & E). lia. }
  split; [done|]. intros k Hk. simpl. apply Hd, home_not_in_log, Hk.
Qed.

(** Contents of the log region once the header is on the disk. *)
Lemma crash_committed_log (w : list (Z * block)) :
  (forall k, k ∈ w.*1 -> ~ in_log start k) ->
  let d := apply_writes d0 (w1 ++ (start, h1) :: w) in
  d start = h1 /\ forall j, (j < n)%nat -> d (start + Z.of_nat j + 1) = v (at_ bs j).
Proof.
  intros Hw d. pose proof (lay_n _ _ _ Hlay). unfold d. rewrite apply_writes_app. simpl. split.
  - rewrite apply_writes_notin; [apply upd_eq|]. intros Hin. apply (Hw _ Hin). inlog.
  - intros j Hj. rewrite apply_writes_notin; [rewrite upd_ne by lia; by apply log_writes_get|].
    intros Hin. apply (Hw _ Hin). inlog.
Qed.

(** A disk whose log holds the whole transaction recovers to the new state. *)
Lemma committed_recovers d :
  d start = h1 -> (forall j, (j < n)%nat -> d (start + Z.of_nat j + 1) = v (at_ bs j)) ->
  recoverable start d /\ logged start d = w2.
Proof.
  intros Hs Hl. pose proof Hlay as [L1 L2 L3 L4 L5].
  assert (dec_n (d start) = Z.of_nat n) as Hn by (rewrite Hs; by apply dec_enc_n).
  assert (log_count start d = n) as Hc by (unfold log_count; lia).
  assert (forall j, (j < n)%nat -> dec_block (d start) j = at_ bs j) as Hb.
  { intros j Hj. rewrite Hs. apply dec_enc_block; [lia | done|]. specialize (L4 j Hj). unfold at_ in L4. lia. }
  split.
  - split; [lia|]. rewrite Hc. split; try done; intros j Hj; rewrite Hb by done; auto.
  - unfold logged. rewrite Hc. unfold recover_writes, w2, home_writes. apply list_fmap_ext.
    intros i j [-> Hj]%lookup_seq. simpl. by rewrite Hb, Hl.
Qed.

(** Home blocks while the log is written, and once the commit is done. *)
Lemma commit_log_home k : ~ in_log start k -> apply_writes d0 (w1 ++ [(start, h1)]) k = d0 k.
Proof.
  intros Hk. destruct (home_not_in_log k Hk). rewrite apply_writes_app. simpl. rewrite upd_ne by done.
  by apply apply_writes_notin.
Qed.
Lemma commit_home k : ~ in_log start k -> apply_writes d0 (commit_writes start n bs v) k = new_home n bs v d0 k.
Proof.
  intros Hk. unfold commit_writes. fold w1 h1 w2 h0. rewrite app_comm_cons, app_assoc, apply_writes_app. simpl.
  rewrite upd_ne by (by apply home_not_in_log). rewrite cons_middle, app_assoc, apply_writes_app. unfold new_home. fold w2.
  apply apply_writes_ext. intros _. by apply commit_log_home.
Qed.
Lemma commit_head : apply_writes d0 (commit_writes start n bs v) start = h0.
Proof.
  unfold commit_writes. fold w1 h1 w2 h0. rewrite app_comm_cons, app_assoc, apply_writes_app. apply upd_eq.
Qed.

Lemma crash_after m :
  (n < m)%nat ->
  let d := apply_writes d0 (take m (commit_writes start n bs v)) in
  recoverable start d /\ forall k, ~ in_log start k -> apply_writes d (logged start d) k = new_home n bs v d0 k.
Proof.
  intros Hm d. pose proof (lay_n _ _ _ Hlay) as Hn.
  assert (length w1 = n) as Hw1 by (unfold w1, log_writes; by rewrite length_fmap, length_seq).
  assert (length w2 = n) as Hw2 by (unfold w2, home_writes; by rewrite length_fmap, length_seq).
  assert (forall k w, k ∈ (take w w2).*1 -> ~ in_log start k) as Hhome.
  { intros k w Hk Hin. destruct (log_not_home k Hin n) as [Hk'|]; [|lia]. apply Hk'.
    rewrite list_elem_of_fmap in Hk |- *. destruct Hk as (x & -> & Hx). exists x. split; [done|]. by eapply subseteq_take. }
  destruct (decide (m <= 2 * n + 1)%nat) as [Hle|Hgt].
  - assert (d = apply_writes d0 (w1 ++ (start, h1) :: take (m - n - 1) w2)) as Hd.
    { unfold d, commit_writes. fold w1 h1 w2 h0. rewrite take_app_ge by lia. rewrite Hw1.
      replace (m - n)%nat with (S (m - n - 1)) by lia. rewrite firstn_cons, take_app_le by lia. by rewrite Nat.sub_succ, Nat.sub_0_r. }
    destruct (crash_committed_log (take (m - n - 1) w2)) as [Hs Hl]; [intros k; apply Hhome|]. rewrite <- Hd in Hs, Hl.
    destruct (committed_recovers d Hs Hl) as [Hr ->]. split; [done|]. intros k Hk.
    unfold new_home. fold w2. apply apply_writes_ext. intros Hk2. rewrite Hd, cons_middle, app_assoc, apply_writes_app.
    rewrite apply_writes_notin; [by apply commit_log_home|]. intros Hin. apply Hk2.
    rewrite list_elem_of_fmap in Hin |- *. destruct Hin as (x & -> & Hx). exists x. split; [done|]. by eapply subseteq_take.
  - assert (d = upd (apply_writes d0 (w1 ++ (start, h1) :: w2)) start h0) as Hd.
    { unfold d, commit_writes. fold w1 h1 w2 h0. rewrite take_ge by (rewrite length_app; simpl; rewrite length_app; simpl; lia).
      rewrite app_comm_cons, app_assoc, apply_writes_app. done. }
    destruct (recoverable_clear start d (lay_start _ _ _ Hlay) (lay_end _ _ _ Hlay)) as [Hr ->].
    { rewrite Hd, upd_eq. unfold h0. rewrite dec_enc_n; [done | lia | by apply enc_head_length]. }
    split; [done|]. intros k Hk. simpl. unfold d. rewrite take_ge by (unfold commit_writes; fold w1 h1 w2 h0; rewrite length_app; simpl; rewrite length_app; simpl; lia).
    by apply commit_home.
Qed.
End Crash.

(** ** Crashes during recovery *)

(** Recovery interrupted after any of its own disk writes and run again gives
    the same home blocks. *)
Lemma recovery_prefix start d bs m :
  recoverable start d -> length (d start) = 1024%nat ->
  let ws := logged start d ++ [(start, enc_head 0 bs (d start))] in
  let d' := apply_writes d (take m ws) in
  recoverable start d' /\ forall k, ~ in_log start k -> apply_writes d' (logged start d') k = apply_writes d (logged start d) k.
Proof.
  intros [Hn Hlay] Hlen ws d'. pose proof Hlay as [L1 L2 L3 L4 L5].
  assert (forall k, in_log start k -> k ∉ (logged start d).*1) as Hkeys.
  { intros k Hk. unfold logged. rewrite recover_writes_keys. intros (j & Hj & ->). by apply (L5 j Hj). }
  assert (forall k i, k ∉ (logged start d).*1 -> k ∉ (take i (logged start d)).*1) as Htake.
  { intros k i Hk (w & -> & Hw)%list_elem_of_fmap. apply Hk, list_elem_of_fmap. exists w. split; [done|].
    by eapply subseteq_take. }
  destruct (decide (m <= length (logged start d))%nat) as [Hm|Hm].
  - assert (d' = apply_writes d (take m (logged start d))) as Hd by (unfold d', ws; by rewrite take_app_le).
    assert (forall k, in_log start k -> d' k = d k) as Hsame.
    { intros k Hk. rewrite Hd. apply apply_writes_notin, Htake, Hkeys, Hk. }
    assert (d' start = d start) as Hst by (apply Hsame; inlog).
    assert (log_count start d' = log_count start d) as Hc by (unfold log_count; by rewrite Hst).
    assert (logged start d' = logged start d) as Hl.
    { unfold logged. rewrite Hc, Hst. unfold recover_writes. apply list_fmap_ext. intros i j [-> Hj]%lookup_seq.
      simpl. rewrite Hsame; [done|]. inlog. }
    split; [split; [by rewrite Hst | by rewrite Hc, Hst]|]. intros k Hk. rewrite Hl. apply apply_writes_ext.
    intros Hnk. rewrite Hd. by apply apply_writes_notin, Htake.
  - assert (d' = upd (apply_writes d (logged start d)) start (enc_head 0 bs (d start))) as Hd.
    { unfold d', ws. rewrite take_ge by (rewrite length_app; simpl; lia). by rewrite apply_writes_app. }
    destruct (recoverable_clear start d' L1 L2) as [Hr ->].
    { rewrite Hd, upd_eq. apply dec_enc_n; [lia|done]. }
    split; [done|]. intros k Hk. simpl. rewrite Hd, upd_ne; [done|]. intros ->. apply Hk. inlog.
Qed.
