(* ===== verification/LogTx.v ===== *)
(** Transactions: what a file-system operation that runs between [begin_op]
    and [end_op] achieves, atomically with respect to crashes, and the
    reservation of log space by concurrent operations. *)

From S2P Require Import Prelude.
From S2P Require Import Bytes.
From S2P Require Import BlockCache.
From S2P Require Import Log.
From S2P Require Import LogProof.
From S2P Require Import LogCrash.

(** ** The search loop of [log_write] *)

Lemma absorb_spec bs k n i :
  (forall j, (i <= j < i + n)%nat -> 0 <= bs !!! j < 2 ^ 31) ->
  let r := absorb n i bs k in
  (i <= r < i + n)%nat /\ bs !!! r = k \/ r = (i + n)%nat /\ forall j, (i <= j < i + n)%nat -> bs !!! j <> k.
Proof.
  revert i. induction n as [|n IH]; intros i Hr r; simpl in r.
  - right. unfold r. split; [lia|]. intros. lia.
  - unfold r. rewrite u32_small by (specialize (Hr i ltac:(lia)); lia).
    destruct (Z.eqb_spec (bs !!! i) k) as [Hk|Hk]; [left; split; [lia|done]|].
    destruct (IH (i + 1)%nat) as [[H1 H2]|[H1 H2]]; [intros; apply Hr; lia | left; split; [lia|done] |].
    right. split; [lia|]. intros j Hj. destruct (decide (j = i)) as [->|]; [done|]. apply H2. lia.
Qed.

Section Tx.
Context {S H : Type} `{BC : BlockCache S H dev pid}.
Implicit Type (l : log_st S) (a : cache).

(** Between transactions. *)
Record log_ready l a : Prop := {
  lr_on : on l a;
  lr_idle : idle a;
  lr_n : lg_n l = 0;
  lr_out : lg_outstanding l = 0;
  lr_com : lg_committing l = false;
  lr_len : length (lg_block l) = 30%nat;
  lr_start : 0 <= lg_start l;
  lr_end : lg_start l + LOGBLOCKS < 2 ^ 31;
  lr_clear : dec_n (c_disk a (lg_start l)) = 0;
  lr_head : length (c_disk a (lg_start l)) = 1024%nat }.

Definition home_write (start : Z) (w : Z * block) : Prop := 0 <= w.1 < 2 ^ 31 /\ ~ in_log start w.1.

(** While the operation runs: [ks] are the blocks logged so far, [ws] the
    writes made so far, [a0] the cache at [begin_op]. *)
Record in_tx l a0 a (ks : list Z) (ws : list (Z * block)) : Prop := {
  it_on : on l a;
  it_n : lg_n l = Z.of_nat (length ks);
  it_out : lg_outstanding l = 1;
  it_com : lg_committing l = false;
  it_len : length (lg_block l) = 30%nat;
  it_blk i : (i < length ks)%nat -> lg_block l !!! i = ks !!! i;
  it_nodup : NoDup ks;
  it_count : (length ks <= length ws)%nat;
  it_home k : k ∈ ks -> 0 <= k < 2 ^ 31 /\ ~ in_log (lg_start l) k;
  it_keys k : k ∈ ks <-> k ∈ ws.*1;
  it_ref k : c_ref a k = if decide (k ∈ ks) then 1 else 0;
  it_lock k : c_lock a k = None;
  it_nref : c_nref a = Z.of_nat (length ks);
  it_view k : c_view a k = apply_writes (c_view a0) ws k;
  it_disk : c_disk a = c_disk a0;
  it_trace : c_trace a = c_trace a0 }.

Lemma in_tx_blocks l a0 a ks ws j :
  in_tx l a0 a ks ws -> (j < length ks)%nat -> 0 <= lg_block l !!! j < 2 ^ 31 /\ lg_block l !!! j ∈ ks.
Proof.
  intros Ht Hj. rewrite (it_blk _ _ _ _ _ Ht j Hj). assert (ks !!! j ∈ ks) as Hin.
  { apply (list_elem_of_lookup_2 _ j), list_lookup_lookup_total_lt. done. }
  split; [by apply (it_home _ _ _ _ _ Ht) | done].
Qed.

Lemma log_write_new l a0 a ks ws k h :
  in_tx l a0 a ks ws -> (length ws < 10)%nat -> 0 <= k < 2 ^ 31 -> k ∉ ks ->
  forall l1 a1, same_log l l1 -> on l1 a1 -> hnd l1 k h -> c_ref a1 k < 2 ^ 31 ->
  exists l2, log_write h l1 = Ret tt l2 /\ on l2 (c_bpin k a1)
    /\ l2 = set_cache (lg_cache l2) (set_n (Z.of_nat (length ks) + 1) (set_block (length ks) k l))
    /\ (forall j h', hnd l1 j h' -> hnd l2 j h').
Proof.
  intros Ht Hn Hk Hnin l1 a1 Hs Ho Hh Hr. pose proof (it_count _ _ _ _ _ Ht) as Hc.
  destruct (same_log_fields _ _ Hs) as (E1 & E2 & E3 & E4 & E5 & E6).
  unfold log_write. rewrite (mthen_ret _ _ _ l1 l1) by done.
  rewrite E2, E3, E5, (it_n _ _ _ _ _ Ht), (it_out _ _ _ _ _ Ht), Nat2Z.id.
  rewrite Z.geb_leb. destruct (Z.leb_spec LOGBLOCKS (Z.of_nat (length ks))); [unfold LOGBLOCKS, MAXOPBLOCKS in *; lia|].
  cbv zeta. rewrite (bc_blockno_ok (lg_cache l1) k h (on_inv _ _ Ho) Hh).
  destruct (absorb_spec (lg_block l) k (length ks) 0) as [[Hi1 Hi2]|[Hi1 Hi2]].
  { intros j Hj. apply (in_tx_blocks _ _ _ _ _ j Ht). lia. }
  { exfalso. apply Hnin. rewrite <- Hi2. apply (in_tx_blocks _ _ _ _ _ _ Ht). lia. }
  rewrite Hi1, Nat.add_0_l, Z.eqb_refl. rewrite i32_small by lia.
  change (1 <? 1) with false. cbv iota.
  rewrite (mthen_ret _ _ _ _ _ (put_block_run l1 (length ks) k ltac:(lia))).
  assert (on (set_block (length ks) k l1) a1) as Ho1 by (destruct Ho; by split).
  destruct (bpin_run (set_block (length ks) k l1) a1 k h Ho1 Hh Hr) as (l2 & R2 & S2 & O2 & K2).
  rewrite (mthen_ret _ _ _ _ _ R2). eexists. split; [reflexivity|]. split; [destruct O2; by split|].
  split; [|done]. unfold same_log in S2, Hs. rewrite S2, Hs. done.
Qed.

Lemma log_write_absorbed l a0 a ks ws k h :
  in_tx l a0 a ks ws -> (length ws < 10)%nat -> 0 <= k < 2 ^ 31 -> k ∈ ks ->
  forall l1 a1, same_log l l1 -> on l1 a1 -> hnd l1 k h ->
  exists l2, log_write h l1 = Ret tt l2 /\ on l2 a1 /\ same_log l l2
    /\ (forall j h', hnd l1 j h' -> hnd l2 j h').
Proof.
  intros Ht Hn Hk Hin l1 a1 Hs Ho Hh. pose proof (it_count _ _ _ _ _ Ht) as Hc.
  destruct (same_log_fields _ _ Hs) as (E1 & E2 & E3 & E4 & E5 & E6).
  unfold log_write. rewrite (mthen_ret _ _ _ l1 l1) by done.
  rewrite E2, E3, E5, (it_n _ _ _ _ _ Ht), (it_out _ _ _ _ _ Ht), Nat2Z.id.
  rewrite Z.geb_leb. destruct (Z.leb_spec LOGBLOCKS (Z.of_nat (length ks))); [unfold LOGBLOCKS, MAXOPBLOCKS in *; lia|].
  cbv zeta. rewrite (bc_blockno_ok (lg_cache l1) k h (on_inv _ _ Ho) Hh).
  destruct (absorb_spec (lg_block l) k (length ks) 0) as [[Hi1 Hi2]|[Hi1 Hi2]].
  { intros j Hj. apply (in_tx_blocks _ _ _ _ _ j Ht). lia. }
  2:{ exfalso. apply list_elem_of_lookup in Hin as (j & Hj). pose proof (lookup_lt_Some _ _ _ Hj).
      apply (Hi2 j); [lia|]. rewrite (it_blk _ _ _ _ _ Ht) by lia. by apply list_lookup_total_correct. }
  set (i := absorb _ _ _ _) in *. change (1 <? 1) with false. cbv iota. rewrite i32_small by lia.
  rewrite (mthen_ret _ _ _ _ _ (put_block_run l1 i k ltac:(lia))).
  destruct (Z.eqb_spec (Z.of_nat i) (Z.of_nat (length ks))); [lia|].
  assert (set_block i k l1 = l1) as ->.
  { unfold set_block. destruct l1; simpl in *. f_equal. subst lg_block.
    apply list_insert_id. rewrite <- Hi2. apply list_lookup_lookup_total_lt. rewrite (it_len _ _ _ _ _ Ht). lia. }
  exists l1. done.
Qed.

Lemma view_snoc a0 ws k d j : apply_writes (c_view a0) (ws ++ [(k, d)]) j = upd (apply_writes (c_view a0) ws) k d j.
Proof. by rewrite apply_writes_app. Qed.

Lemma tx_write_new l a0 a ks ws k d :
  in_tx l a0 a ks ws -> (length ws < 10)%nat -> home_write (lg_start l) (k, d) -> k ∉ ks ->
  exists l' a', tx_write k d l = Ret tt l' /\ in_tx l' a0 a' (ks ++ [k]) (ws ++ [(k, d)]) /\ lg_start l' = lg_start l.
Proof.
  intros Ht Hn [Hk Hlog] Hnin. simpl in Hk, Hlog. pose proof Ht as [Ho N Out Com Len Bk ND Cnt Hm Ks Rf Lk Nr Vw Dk Tr].
  unfold tx_write. assert (c_ref a k = 0) as Hr0 by (rewrite Rf; by rewrite decide_False).
  destruct (log_bread_run l a k Ho Hk (Lk k)) as (h & l1 & R1 & S1 & O1 & H1 & K1);
    [lia | right; unfold NBUF, MAXOPBLOCKS; lia|].
  rewrite (mthen_ret _ _ _ _ _ R1).
  destruct (set_data_run l1 _ k h d O1 H1) as (l2 & R2 & S2 & O2 & K2). rewrite (mthen_ret _ _ _ _ _ R2).
  destruct (log_write_new l a0 a ks ws k h Ht Hn Hk Hnin l2 _ (same_log_trans _ _ _ S1 S2) O2 (K2 _ _ H1))
    as (l3 & R3 & O3 & E3 & K3); [cview|].
  rewrite (mthen_ret _ _ _ _ _ R3).
  destruct (brelse_run l3 _ k h O3) as (l4 & R4 & S4 & O4 & K4); [by apply K3, K2 | cview | cview |].
  exists l4, (Cache (upd (c_ref a) k 1) (c_lock a) (upd (c_view a) k d) (c_disk a) (c_trace a) (c_nref a + 1)).
  split; [exact R4|]. destruct (same_log_fields _ _ S4) as (F1 & F2 & F3 & _ & F5 & F6).
  rewrite E3 in F1, F2, F3, F5, F6. simpl in F1, F2, F3, F5, F6. split; [|done].
  split; rewrite ?F1, ?F2, ?F3, ?F5, ?F6, ?length_app; cbn [length c_ref c_lock c_view c_disk c_trace c_nref]; try done; try lia.
  - eapply on_equiv; [exact O4|]. repeat split; intros; cview; by rewrite ?Lk.
  - by rewrite length_insert.
  - intros i Hi. destruct (decide (i = length ks)) as [->|].
    + rewrite list_lookup_total_insert_eq by lia. by rewrite lookup_total_app_r, Nat.sub_diag by lia.
    + rewrite list_lookup_total_insert_ne by lia. rewrite lookup_total_app_l by lia. apply Bk. lia.
  - apply NoDup_app. split; [done|]. split; [set_solver|]. apply NoDup_singleton.
  - intros j [Hj|Hj%list_elem_of_singleton]%elem_of_app; [by apply Hm | by subst].
  - intros j. rewrite fmap_app, !elem_of_app, Ks. set_solver.
  - intros j. unfold upd. bcase; [by subst; rewrite decide_True by set_solver|]. rewrite Rf.
    repeat case_decide; done || set_solver.
  - intros j. rewrite view_snoc. unfold upd. bcase; auto.
Qed.

Lemma tx_write_absorbed l a0 a ks ws k d :
  in_tx l a0 a ks ws -> (length ws < 10)%nat -> home_write (lg_start l) (k, d) -> k ∈ ks ->
  exists l' a', tx_write k d l = Ret tt l' /\ in_tx l' a0 a' ks (ws ++ [(k, d)]) /\ lg_start l' = lg_start l.
Proof.
  intros Ht Hn [Hk Hlog] Hin. simpl in Hk, Hlog. pose proof Ht as [Ho N Out Com Len Bk ND Cnt Hm Ks Rf Lk Nr Vw Dk Tr].
  unfold tx_write. assert (c_ref a k = 1) as Hr0 by (rewrite Rf; by rewrite decide_True).
  destruct (log_bread_run l a k Ho Hk (Lk k)) as (h & l1 & R1 & S1 & O1 & H1 & K1); [lia | left; lia|].
  rewrite (mthen_ret _ _ _ _ _ R1).
  destruct (set_data_run l1 _ k h d O1 H1) as (l2 & R2 & S2 & O2 & K2). rewrite (mthen_ret _ _ _ _ _ R2).
  destruct (log_write_absorbed l a0 a ks ws k h Ht Hn Hk Hin l2 _ (same_log_trans _ _ _ S1 S2) O2 (K2 _ _ H1))
    as (l3 & R3 & O3 & E3 & K3).
  rewrite (mthen_ret _ _ _ _ _ R3).
  destruct (brelse_run l3 _ k h O3) as (l4 & R4 & S4 & O4 & K4); [by apply K3, K2 | cview | cview |].
  exists l4, (Cache (c_ref a) (c_lock a) (upd (c_view a) k d) (c_disk a) (c_trace a) (c_nref a)).
  split; [exact R4|]. destruct (same_log_fields _ _ (same_log_trans _ _ _ E3 S4)) as (F1 & F2 & F3 & _ & F5 & F6).
  split; [|done].
  split; rewrite ?F1, ?F2, ?F3, ?F5, ?F6, ?length_app; cbn [length c_ref c_lock c_view c_disk c_trace c_nref]; try done; try lia.
  - eapply on_equiv; [exact O4|]. repeat split; intros; cview; by rewrite ?Lk.
  - intros j. rewrite fmap_app, elem_of_app, Ks. apply Ks in Hin. set_solver.
  - intros j. rewrite view_snoc. unfold upd. bcase; auto.
Qed.

Lemma tx_writes_run ws l a0 a ks ws0 :
  in_tx l a0 a ks ws0 -> (length ws0 + length ws <= 10)%nat -> Forall (home_write (lg_start l)) ws ->
  exists l' a' ks', mfor ws (fun w => tx_write w.1 w.2) l = Ret tt l' /\ in_tx l' a0 a' ks' (ws0 ++ ws)
    /\ lg_start l' = lg_start l.
Proof.
  revert l a ks ws0. induction ws as [|[k d] ws IH]; intros l a ks ws0 Ht Hn Hw; cbn [mfor].
  { exists l, a, ks. by rewrite app_nil_r. }
  apply Forall_cons in Hw as [Hw1 Hw]. simpl in Hn. cbn [fst snd].
  assert (exists l' a' ks', tx_write k d l = Ret tt l' /\ in_tx l' a0 a' ks' (ws0 ++ [(k, d)]) /\ lg_start l' = lg_start l)
    as (l1 & a1 & ks1 & R1 & T1 & E1).
  { destruct (decide (k ∈ ks)).
    - destruct (tx_write_absorbed l a0 a ks ws0 k d) as (l1 & a1 & ?); [done | lia | done..|]. by exists l1, a1, ks.
    - destruct (tx_write_new l a0 a ks ws0 k d) as (l1 & a1 & ?); [done | lia | done..|]. by exists l1, a1, (ks ++ [k]). }
  rewrite (mthen_ret _ _ _ _ _ R1).
  destruct (IH l1 a1 ks1 (ws0 ++ [(k, d)]) T1) as (l2 & a2 & ks2 & R2 & T2 & E2).
  { rewrite length_app. simpl. lia. } { by rewrite E1. }
  exists l2, a2, ks2. rewrite <- app_assoc in T2. split; [done|]. split; [done|]. congruence.
Qed.

(** ** A whole transaction *)

(** Recovery of the disk [d] gives the home blocks [f]. *)
Definition recovers_to (start : Z) (d f : Z -> block) : Prop :=
  recoverable start d /\ forall k, ~ in_log start k -> apply_writes d (logged start d) k = f k.

Lemma tx_commit_ready l a0 a ks ws :
  in_tx l a0 a ks ws -> 0 <= lg_start l -> lg_start l + LOGBLOCKS < 2 ^ 31 ->
  (length ws <= 10)%nat -> txn_ready l a (length ks).
Proof.
  intros Ht Hs He Hws. pose proof Ht as [Ho N Out Com Len Bk ND Cnt Hm Ks Rf Lk Nr Vw Dk Tr].
  assert (forall j, (j < length ks)%nat -> at_ (lg_block l) j = ks !!! j /\ ks !!! j ∈ ks) as Hat.
  { intros j Hj. unfold at_. rewrite Bk by done. split; [done|].
    apply (list_elem_of_lookup_2 _ j), list_lookup_lookup_total_lt. done. }
  split; try done.
  - split; try done; [lia| |]; intros j Hj; destruct (Hat j Hj) as [-> Hin]; by apply Hm.
  - intros k Hk. rewrite Rf, Lk. rewrite decide_False; [done|]. intros Hin. by destruct (Hm k Hin).
  - intros i j Hi Hj. destruct (Hat i Hi) as [-> _], (Hat j Hj) as [-> _]. intros E.
    eapply NoDup_lookup; [exact ND | |]; [apply list_lookup_lookup_total_lt, Hi|].
    rewrite E. by apply list_lookup_lookup_total_lt.
  - intros j Hj. destruct (Hat j Hj) as [-> Hin]. rewrite Rf, Lk. by rewrite decide_True.
  - lia.
Qed.

Lemma home_keys_ks l a0 a ks ws v k :
  in_tx l a0 a ks ws -> k ∈ (home_writes (length ks) (at_ (lg_block l)) v).*1 <-> k ∈ ks.
Proof.
  intros Ht. rewrite home_writes_keys. unfold at_. split.
  - intros (j & Hj & ->). by apply (in_tx_blocks _ _ _ _ _ j Ht).
  - intros (j & Hj)%list_elem_of_lookup. pose proof (lookup_lt_Some _ _ _ Hj). exists j. split; [done|].
    rewrite (it_blk _ _ _ _ _ Ht) by done. symmetry. by apply list_lookup_total_correct.
Qed.

(** The new home blocks of the commit are those the operation wrote. *)
Lemma new_home_tx l a0 a ks ws k :
  in_tx l a0 a ks ws -> idle a0 ->
  new_home (length ks) (lg_block l) (c_view a) (c_disk a) k = apply_writes (c_disk a0) ws k.
Proof.
  intros Ht Hid. unfold new_home. destruct (decide (k ∈ ks)) as [Hk|Hk].
  - rewrite (apply_writes_fun _ (c_view a)).
    + rewrite (it_view _ _ _ _ _ Ht). apply apply_writes_ext. intros _. apply Hid.
    + intros w. apply home_writes_fun.
    + by apply (home_keys_ks _ _ _ _ _ _ _ Ht).
  - rewrite apply_writes_notin by (by rewrite (home_keys_ks _ _ _ _ _ _ _ Ht)).
    rewrite (it_disk _ _ _ _ _ Ht). symmetry. apply apply_writes_notin. by rewrite <- (it_keys _ _ _ _ _ Ht).
Qed.

Lemma begin_op_run l a :
  log_ready l a -> begin_op l = Ret tt (set_outstanding 1 l) /\ in_tx (set_outstanding 1 l) a a [] [].
Proof.
  intros [Ho Hid N Out Com Len Hs He Hc Hh]. split.
  - unfold begin_op. monad. by rewrite Com, N, Out.
  - split; try done; simpl; intros; try set_solver; try lia; try apply Hid.
    + destruct Ho; by split.
    + constructor.
Qed.

Lemma tx_head_fixed l a0 a ks ws : in_tx l a0 a ks ws -> idle a0 -> c_view a (lg_start l) = c_disk a0 (lg_start l).
Proof.
  intros Ht Hid. rewrite (it_view _ _ _ _ _ Ht), apply_writes_notin; [apply Hid|].
  rewrite <- (it_keys _ _ _ _ _ Ht). intros [_ Hin]%(it_home _ _ _ _ _ Ht). apply Hin. inlog.
Qed.

(** The state after the commit is ready for the next transaction. *)
Lemma tx_committed_idle l a0 a ks ws a' :
  in_tx l a0 a ks ws -> idle a0 ->
  c_disk a' = apply_writes (c_disk a) (commit_writes (lg_start l) (length ks) (lg_block l) (c_view a)) ->
  c_view a' = apply_writes (c_view a) (commit_writes (lg_start l) (length ks) (lg_block l) (c_view a)) ->
  (forall k, c_ref a' k = if decide (k ∈ (home_writes (length ks) (at_ (lg_block l)) (c_view a)).*1) then c_ref a k - 1 else c_ref a k) ->
  c_lock a' = c_lock a -> c_nref a' = 0 -> idle a'.
Proof.
  intros Ht Hid Ed Ev Er El En. split; [| | |done].
  - intros k. rewrite Er, (it_ref _ _ _ _ _ Ht). pose proof (home_keys_ks l a0 a ks ws (c_view a) k Ht).
    repeat case_decide; lia || tauto.
  - intros k. rewrite El. apply Ht.
  - intros k. rewrite Ed, Ev. apply apply_writes_ext. intros Hk.
    rewrite (it_view _ _ _ _ _ Ht), (it_disk _ _ _ _ _ Ht), apply_writes_notin; [apply Hid|].
    rewrite <- (it_keys _ _ _ _ _ Ht), <- (home_keys_ks l a0 a ks ws (c_view a) k Ht).
    intros (w & -> & Hw)%list_elem_of_fmap. apply Hk, list_elem_of_fmap. exists w. split; [done|].
    unfold commit_writes. rewrite elem_of_app, elem_of_cons, elem_of_app. auto.
Qed.

Lemma end_op_run l a0 a ks ws :
  in_tx l a0 a ks ws -> idle a0 -> 0 <= lg_start l -> lg_start l + LOGBLOCKS < 2 ^ 31 ->
  dec_n (c_disk a0 (lg_start l)) = 0 -> length (c_disk a0 (lg_start l)) = 1024%nat -> (length ws <= 10)%nat ->
  exists l' a' tr, end_op l = Ret tt l' /\ log_ready l' a' /\ lg_start l' = lg_start l
    /\ c_trace a' = c_trace a0 ++ tr
    /\ (forall k, ~ in_log (lg_start l) k -> c_disk a' k = apply_writes (c_disk a0) ws k)
    /\ forall m, let d := apply_writes (c_disk a0) (take m tr) in
         recovers_to (lg_start l) d (if (m <=? length ks)%nat then c_disk a0 else apply_writes (c_disk a0) ws).
Proof.
  intros Ht Hid Hs He Hclr Hh Hws. pose proof (tx_commit_ready l a0 a ks ws Ht Hs He Hws) as Htr.
  pose proof Ht as [Ho N Out Com Len Bk ND Cnt Hm Ks Rf Lk Nr Vw Dk Tr].
  set (l1 := set_committing true (set_outstanding 0 l)).
  assert (end_op_enter l = Ret true l1) as R1.
  { unfold end_op_enter. monad. cbn [lg_committing lg_outstanding set_outstanding]. rewrite Out, Com. done. }
  assert (txn_ready l1 a (length ks)) as Htr1.
  { destruct Htr as [Ho' ? ? ? ? ? ? ? ?]. split; try done. destruct Ho'. by split. }
  unfold end_op. rewrite (mthen_ret _ _ _ _ _ R1). set (start := lg_start l) in *.
  pose proof (tx_head_fixed l a0 a ks ws Ht Hid) as Hhd. fold start in Hhd.
  destruct (decide (length ks = 0%nat)) as [Hz|Hz].
  - assert (commit l1 = Ret tt l1) as R2.
    { unfold commit. monad. cbn [lg_n set_committing set_outstanding l1]. rewrite N, Hz. done. }
    rewrite (mthen_ret _ _ _ _ _ R2). destruct ks; [|done].
    assert (ws = []) as -> by (destruct ws as [|w ws]; [done|]; exfalso; specialize (Ks w.1); set_solver).
    exists (set_committing false l1), a, []. split; [done|]. split; [|split; [done|]].
    + split; try done; simpl; try congruence; try (destruct Ho; by split).
      * split; intros; rewrite ?Rf, ?Lk, ?Vw, ?Dk; try done. simpl. apply Hid.
      * by rewrite Dk.
      * by rewrite Dk.
    + rewrite app_nil_r. split; [done|]. split; [intros; by rewrite Dk|]. intros m. rewrite take_nil. simpl.
      destruct (recoverable_clear start (c_disk a0) Hs He Hclr) as [Hr Hl].
      split; [done|]. intros k _. rewrite Hl. by destruct m.
  - destruct (commit_run l1 a (length ks) Htr1 ltac:(lia)) as (l2 & a2 & R2 & O2 & E2 & T2 & D2 & V2 & F2 & K2 & N2).
    change (lg_start l1) with start in T2, D2, V2. change (lg_block l1) with (lg_block l) in *.
    rewrite (mthen_ret _ _ _ _ _ R2).
    assert (length (c_view a start) = 1024%nat) as Hlv by (by rewrite Hhd).
    assert (dec_n (c_disk a start) = 0) as Hcd by (by rewrite Dk).
    pose proof (tr_layout _ _ _ Htr) as Hlay. fold start in Hlay.
    exists (set_committing false l2), a2, (commit_writes start (length ks) (lg_block l) (c_view a)).
    assert (lg_start l2 = start /\ lg_n l2 = 0 /\ lg_outstanding l2 = 0 /\ lg_block l2 = lg_block l) as (G1 & G2 & G3 & G4)
      by (rewrite E2; done).
    split; [done|]. split; [|split; [exact G1|]].
    + split; cbn [set_committing lg_n lg_start lg_outstanding lg_committing lg_block]; rewrite ?G1, ?G4; try done.
      * destruct O2. by split.
      * by apply (tx_committed_idle l a0 a ks ws).
      * rewrite D2, commit_head. apply dec_enc_n; [lia|]. apply enc_head_length; [apply Hlay | done].
      * rewrite D2, commit_head. apply enc_head_length; [lia|]. apply enc_head_length; [apply Hlay | done].
    + rewrite T2, Tr. split; [done|]. split.
      * intros k Hk. rewrite D2, (commit_home start _ _ _ _ Hlay) by done. by eapply new_home_tx.
      * rewrite <- Dk. intros m. destruct (Nat.leb_spec m (length ks)).
        -- apply crash_before; done.
        -- destruct (crash_after start (length ks) (lg_block l) (c_view a) (c_disk a) Hlay Hlv m) as [Hr Hf]; [lia|].
           split; [done|]. intros k Hk. rewrite Hf by done. etrans; [by eapply new_home_tx|]. by rewrite Dk.
Qed.

Lemma transaction_run l a ws :
  log_ready l a -> Forall (home_write (lg_start l)) ws -> (length ws <= 10)%nat ->
  exists l' a' tr, transaction ws l = Ret tt l' /\ log_ready l' a' /\ lg_start l' = lg_start l
    /\ c_trace a' = c_trace a ++ tr
    /\ (forall k, ~ in_log (lg_start l) k -> c_disk a' k = apply_writes (c_disk a) ws k)
    /\ forall m, let d := apply_writes (c_disk a) (take m tr) in
         recovers_to (lg_start l) d (c_disk a) \/ recovers_to (lg_start l) d (apply_writes (c_disk a) ws).
Proof.
  intros Hr Hw Hn. destruct (begin_op_run l a Hr) as [R1 T1]. unfold transaction.
  rewrite (mthen_ret _ _ _ _ _ R1).
  destruct (tx_writes_run ws _ a a [] [] T1) as (l2 & a2 & ks & R2 & T2 & E2); [simpl; lia | done |].
  rewrite (mthen_ret _ _ _ _ _ R2). cbn [app] in T2. cbn [lg_start set_outstanding] in E2.
  destruct Hr as [Ho Hid N Out Com Len Hs He Hc Hh].
  destruct (end_op_run l2 a a2 ks ws T2 Hid) as (l3 & a3 & tr & R3 & G3 & S3 & T3 & D3 & C3); rewrite ?E2; try done.
  rewrite E2 in *. exists l3, a3, tr. split; [done|]. split; [done|]. split; [done|]. split; [done|]. split; [done|].
  intros m. specialize (C3 m). cbv zeta in *. destruct (m <=? length ks)%nat; auto.
Qed.
End Tx.
