(* ===== verification/LogSpace.v ===== *)
(** Reservation of log space by concurrent file-system operations: the
    protocol of [begin_op], [log_write] and [end_op] as a transition system. *)

From S2P Require Import Prelude.
From S2P Require Import BlockCache.
From S2P Require Import Log.

Section Space.
Context {S H : Type} `{CacheOps S H}.
Implicit Type l : log_st S.

(** ** Routines that leave the in-memory log alone *)








(** ** The protocol *)









End Space.
