(* ===== verification/Dll.v ===== *)
(** Circular doubly linked lists through [next] and [prev] links, as bio.c
    keeps its buffers: the two pointer manipulations of the cache and the scan
    along the list, for links given as functions on node numbers. *)

From S2P Require Import Prelude.

Definition fupd (f : nat -> nat) (i v : nat) : nat -> nat := fun j => if decide (j = i) then v else f j.

Ltac fupd_cases := unfold fupd in *; repeat case_decide; subst; try done; try congruence.

(** [linked nx pv x l y]: following [nx] from [x] visits [l] and then [y], and
    [pv] leads back. *)
Fixpoint linked (nx pv : nat -> nat) (x : nat) (l : list nat) (y : nat) : Prop :=
  match l with
  | [] => nx x = y /\ pv y = x
  | z :: l' => nx x = z /\ pv z = x /\ linked nx pv z l' y
  end.

Lemma linked_app nx pv x l1 z l2 y :
  linked nx pv x (l1 ++ z :: l2) y <-> linked nx pv x l1 z /\ linked nx pv z l2 y.
Proof.
  revert x. induction l1 as [|w l1 IH]; intros x; simpl; [tauto|]. rewrite IH. tauto.
Qed.

Lemma linked_ext nx pv nx' pv' x l y :
  (forall i, i ∈ x :: l -> nx' i = nx i) -> (forall i, i ∈ l ++ [y] -> pv' i = pv i) ->
  linked nx pv x l y -> linked nx' pv' x l y.
Proof.
  revert x. induction l as [|z l IH]; intros x Hn Hp; simpl.
  - intros [? ?]. rewrite Hn, Hp by set_solver. done.
  - intros (? & ? & ?). rewrite Hn, Hp by set_solver. split; [done|]. split; [done|].
    apply IH; [intros; apply Hn | intros; apply Hp | done]; set_solver.
Qed.

Lemma linked_reverse nx pv x l y : linked nx pv x l y -> linked pv nx y (reverse l) x.
Proof.
  revert x. induction l as [|z l IH]; intros x; simpl; [tauto|].
  intros (H1 & H2 & H3%IH). rewrite reverse_cons. apply linked_app. simpl. tauto.
Qed.

Lemma linked_prev_in nx pv x l y : linked nx pv x l y -> pv y ∈ x :: l.
Proof.
  revert x. induction l as [|z l IH]; intros x; simpl.
  - intros [_ ->]. set_solver.
  - intros (_ & _ & H%IH). set_solver.
Qed.

Lemma linked_next_in nx pv x l y : linked nx pv x l y -> nx x ∈ l ++ [y].
Proof. destruct l; simpl; intros [-> _]; set_solver. Qed.

(** Redirecting the end of a segment from [b] to [c]. *)
Lemma linked_retarget nx pv x l b c :
  linked nx pv x l b -> NoDup (x :: l) -> c ∉ l ->
  linked (fupd nx (pv b) c) (fupd pv c (pv b)) x l c.
Proof.
  revert x. induction l as [|z l IH]; intros x; simpl.
  - intros [_ ->] _ _. by fupd_cases.
  - intros (H1 & H2 & H3) Hnd Hc. pose proof (linked_prev_in _ _ _ _ _ H3) as Hin.
    apply NoDup_cons in Hnd as [Hx Hnd]. apply not_elem_of_cons in Hc as [Hcz Hc].
    repeat split; [fupd_cases | fupd_cases | by apply IH].
Qed.

Lemma linked_unlink nx pv h l1 b l2 :
  linked nx pv h (l1 ++ b :: l2) h -> NoDup (h :: l1 ++ b :: l2) ->
  linked (fupd nx (pv b) (nx b)) (fupd pv (nx b) (pv b)) h (l1 ++ l2) h.
Proof.
  intros [H1 H2]%linked_app Hnd. pose proof (linked_prev_in _ _ _ _ _ H1) as Hp.
  assert (NoDup (h :: l1)) as Hnd1.
  { rewrite app_comm_cons in Hnd. by apply NoDup_app in Hnd as (? & _). }
  rewrite app_comm_cons in Hnd. apply NoDup_app in Hnd as (_ & Hdis & Hnd2).
  destruct l2 as [|z l2]; simpl in H2.
  - destruct H2 as [-> _]. rewrite app_nil_r. apply linked_retarget; [done..|].
    by apply NoDup_cons in Hnd1 as [? _].
  - destruct H2 as (Hz & _ & H3). rewrite Hz. apply linked_app. split.
    + apply linked_retarget; [done..|]. intros Hin. apply (Hdis z); set_solver.
    + eapply linked_ext; [..|exact H3]; intros i Hi; fupd_cases.
      * exfalso. apply (Hdis (pv b)); [done | set_solver].
      * exfalso. apply NoDup_cons in Hnd2 as [_ [Hzn _]%NoDup_cons].
        apply elem_of_app in Hi as [?|Hi]; [done|]. apply list_elem_of_singleton in Hi.
        apply (Hdis (nx b)); [rewrite Hi|]; set_solver.
Qed.

Lemma linked_front nx pv h l b :
  linked nx pv h l h -> NoDup (h :: l) -> b ∉ h :: l ->
  linked (fupd (fupd nx b (nx h)) h b) (fupd (fupd pv b h) (nx h) b) h (b :: l) h.
Proof.
  intros Hl Hnd Hb. pose proof (linked_next_in _ _ _ _ _ Hl) as Hn.
  assert (b <> h /\ b <> nx h) as [Hbh Hbn] by (split; set_solver).
  apply NoDup_cons in Hnd as [Hh Hnd].
  simpl. split; [fupd_cases|]. split; [fupd_cases|].
  destruct l as [|z l]; simpl in Hl.
  - destruct Hl as [Hh1 Hh2]. rewrite Hh1. simpl. split; fupd_cases.
  - destruct Hl as (H1 & H2 & H3). rewrite H1. simpl. apply NoDup_cons in Hnd as [Hz _].
    split; [fupd_cases|]. split; [fupd_cases|].
    eapply linked_ext; [..|exact H3]; intros i Hi; fupd_cases; set_solver.
Qed.

Arguments linked : simpl never.
