(* ===== verification/Bio.v ===== *)
(** Buffer cache (src/kernel/bio.c, src/kernel/buf.h).

    The cache is the array of [NBUF] buffers and the list head, linked into a
    circular doubly linked list through [prev] and [next].  A buffer pointer
    is an index into the array, [HEAD] for [&bcache.head], and a null pointer
    is [None] where the code tests for one.  A disk request completes before
    [virtio_disk_rw] returns, so it is a transfer between the buffer and the
    disk.  [bcache.lock] and [bio_stats.stats_lock] bracket atomic sections. *)

From S2P Require Import Prelude.
From S2P Require Import Locks.
From S2P Require Import BlockCache.

(** ** State *)

Definition HEAD : nat := Z.to_nat NBUF.

Record buf := Buf {
  b_valid : Z;
  b_disk : Z;
  b_dev : Z;
  b_blockno : Z;
  b_lock : sleeplock;
  b_refcnt : Z;
  b_prev : nat;
  b_next : nat;
  b_data : block }.
#[global] Instance buf_inhabited : Inhabited buf :=
  populate (Buf 0 0 0 0 initsleeplock 0 0 0 []).

Inductive bio_stat :=
| bread_calls | bwrite_calls | brelse_calls | bget_hits | bget_misses | bget_evictions
| bpin_calls | bunpin_calls | cache_full_events | validation_errors
| total_disk_reads | total_disk_writes.
#[global] Instance bio_stat_eq_dec : EqDecision bio_stat.
Proof. solve_decision. Defined.

Record bio_st := BioSt {
  bcache_buf : list buf;
  bcache_head : buf;
  bio_stats : counters bio_stat;
  bio_disk : disk_t }.

(** Field assignments [b->f = v]. *)
Definition set_valid v b := Buf v (b_disk b) (b_dev b) (b_blockno b) (b_lock b) (b_refcnt b) (b_prev b) (b_next b) (b_data b).
Definition set_disk v b := Buf (b_valid b) v (b_dev b) (b_blockno b) (b_lock b) (b_refcnt b) (b_prev b) (b_next b) (b_data b).
Definition set_dev v b := Buf (b_valid b) (b_disk b) v (b_blockno b) (b_lock b) (b_refcnt b) (b_prev b) (b_next b) (b_data b).
Definition set_blockno v b := Buf (b_valid b) (b_disk b) (b_dev b) v (b_lock b) (b_refcnt b) (b_prev b) (b_next b) (b_data b).
Definition set_lock v b := Buf (b_valid b) (b_disk b) (b_dev b) (b_blockno b) v (b_refcnt b) (b_prev b) (b_next b) (b_data b).
Definition set_refcnt v b := Buf (b_valid b) (b_disk b) (b_dev b) (b_blockno b) (b_lock b) v (b_prev b) (b_next b) (b_data b).
Definition set_prev v b := Buf (b_valid b) (b_disk b) (b_dev b) (b_blockno b) (b_lock b) (b_refcnt b) v (b_next b) (b_data b).
Definition set_next v b := Buf (b_valid b) (b_disk b) (b_dev b) (b_blockno b) (b_lock b) (b_refcnt b) (b_prev b) v (b_data b).
Definition set_data v b := Buf (b_valid b) (b_disk b) (b_dev b) (b_blockno b) (b_lock b) (b_refcnt b) (b_prev b) (b_next b) v.

(** The buffer a pointer designates, and assignment through a pointer. *)
Definition node (s : bio_st) (i : nat) : buf :=
  if decide (i = HEAD) then bcache_head s else bcache_buf s !!! i.
Definition upd_node (i : nat) (f : buf -> buf) (s : bio_st) : bio_st :=
  if decide (i = HEAD)
  then BioSt (bcache_buf s) (f (bcache_head s)) (bio_stats s) (bio_disk s)
  else BioSt (alter f i (bcache_buf s)) (bcache_head s) (bio_stats s) (bio_disk s).
Definition setb (i : nat) (f : buf -> buf) : M bio_st () := modify (upd_node i f).
Definition bcount (f : bio_stat) : M bio_st () :=
  modify (fun s => BioSt (bcache_buf s) (bcache_head s) (incr f (bio_stats s)) (bio_disk s)).

(** ** Operations *)

Definition validate_buffer (b : option nat) : M bio_st bool :=
  match b with
  | None => bcount validation_errors ;;; mreturn false
  | Some i =>
      if decide (HEAD <= i)%nat then bcount validation_errors ;;; mreturn false else
      let* n := gets (fun s => node s i) in
      if b_refcnt n <? 0 then bcount validation_errors ;;; mreturn false
      else mreturn true
  end.

(** [b->next = head.next; b->prev = &head; head.next->prev = b; head.next = b;] *)
Definition link_front (b : nat) (s : bio_st) : bio_st :=
  let s := upd_node b (set_next (b_next (node s HEAD))) s in
  let s := upd_node b (set_prev HEAD) s in
  let s := upd_node (b_next (node s HEAD)) (set_prev b) s in
  upd_node HEAD (set_next b) s.

(** [b->next->prev = b->prev; b->prev->next = b->next;] *)
Definition unlink (b : nat) (s : bio_st) : bio_st :=
  let s := upd_node (b_next (node s b)) (set_prev (b_prev (node s b))) s in
  upd_node (b_prev (node s b)) (set_next (b_next (node s b))) s.

(** One iteration of the initialisation loop of [binit]. *)
Definition binit_buf (s : bio_st) (b : nat) : bio_st :=
  let s := upd_node b (set_next (b_next (node s HEAD))) s in
  let s := upd_node b (set_prev HEAD) s in
  let s := upd_node b (set_lock initsleeplock) s in
  let s := upd_node (b_next (node s HEAD)) (set_prev b) s in
  let s := upd_node HEAD (set_next b) s in
  upd_node b (fun n => set_refcnt 0 (set_valid 0 (set_blockno 0 (set_dev 0 n)))) s.

Definition binit (s : bio_st) : bio_st :=
  let s := BioSt (bcache_buf s) (bcache_head s) zero_counters (bio_disk s) in
  let s := upd_node HEAD (set_prev HEAD) s in
  let s := upd_node HEAD (set_next HEAD) s in
  fold_left binit_buf (seq 0 HEAD) s.

(** The two scans of [bget]: [Some None] when the scan is back at the head,
    [None] only when the fuel runs out. *)
Fixpoint scan (fuel : nat) (step : nat -> nat) (test : nat -> bool) (b : nat) : option (option nat) :=
  match fuel with
  | O => None
  | S fuel' =>
      if decide (b = HEAD) then Some None
      else if test b then Some (Some b)
      else scan fuel' step test (step b)
  end.

Definition find_cached (s : bio_st) (dev blockno : Z) : option (option nat) :=
  scan (S HEAD) (fun b => b_next (node s b))
    (fun b => (b_dev (node s b) =? dev) && (b_blockno (node s b) =? blockno))
    (b_next (node s HEAD)).

Definition find_lru (s : bio_st) : option (option nat) :=
  scan (S HEAD) (fun b => b_prev (node s b)) (fun b => b_refcnt (node s b) =? 0)
    (b_prev (node s HEAD)).

Section Bio.
(** The pid of the calling process. *)
Context (pid : Z).

(** [acquiresleep(&b->lock)] *)
Definition lock_buf (b : nat) : M bio_st () :=
  let* n := gets (fun s => node s b) in
  match acquiresleep pid (b_lock n) with
  | None => sleep
  | Some l => setb b (set_lock l)
  end.

Definition bget (dev blockno : Z) : M bio_st nat :=
  let* s := gets (fun s => s) in
  match find_cached s dev blockno with
  | None => diverge
  | Some (Some b) =>
      setb b (fun n => set_refcnt (u32 (b_refcnt n + 1)) n) ;;;
      lock_buf b ;;;
      bcount bget_hits ;;;
      mreturn b
  | Some None =>
      bcount bget_misses ;;;
      let* s := gets (fun s => s) in
      match find_lru s with
      | None => diverge
      | Some (Some b) =>
          setb b (fun n => set_refcnt 1 (set_valid 0 (set_blockno blockno (set_dev dev n)))) ;;;
          bcount bget_evictions ;;;
          lock_buf b ;;;
          mreturn b
      | Some None => bcount cache_full_events ;;; panic "bget: no buffers"
      end
  end.

(** What a completed [virtio_disk_rw(b, write)] has done. *)
Definition disk_rw (b : nat) (write : bool) (s : bio_st) : bio_st :=
  let n := node s b in
  if write then
    let s := upd_node b (set_disk 0) s in
    BioSt (bcache_buf s) (bcache_head s) (bio_stats s)
      (disk_write (b_blockno n) (b_data n) (bio_disk s))
  else
    upd_node b (fun n => set_data (d_blocks (bio_disk s) (b_blockno n)) (set_disk 0 n)) s.

Definition bread (dev blockno : Z) : M bio_st nat :=
  bcount bread_calls ;;;
  let* b := bget dev blockno in
  let* ok := validate_buffer (Some b) in
  if negb ok then panic "bread: invalid buffer" else
  let* n := gets (fun s => node s b) in
  (when (negb (truth (b_valid n))) do
     (modify (disk_rw b false) ;;;
      setb b (set_valid 1) ;;;
      bcount total_disk_reads)) ;;;
  mreturn b.

Definition bwrite (b : option nat) : M bio_st () :=
  let* ok := validate_buffer b in
  if negb ok then panic "bwrite: invalid buffer" else
  let b := default 0%nat b in
  let* n := gets (fun s => node s b) in
  if negb (holdingsleep pid (b_lock n)) then panic "bwrite" else
  bcount bwrite_calls ;;;
  bcount total_disk_writes ;;;
  modify (disk_rw b true).

Definition brelse (b : option nat) : M bio_st () :=
  let* ok := validate_buffer b in
  if negb ok then panic "brelse: invalid buffer" else
  let b := default 0%nat b in
  let* n := gets (fun s => node s b) in
  if negb (holdingsleep pid (b_lock n)) then panic "brelse" else
  bcount brelse_calls ;;;
  setb b (fun n => set_lock (releasesleep (b_lock n)) n) ;;;
  setb b (fun n => set_refcnt (u32 (b_refcnt n - 1)) n) ;;;
  let* n := gets (fun s => node s b) in
  if b_refcnt n <? 0 then panic "brelse: negative refcnt" else
  when (b_refcnt n =? 0) do modify (fun s => link_front b (unlink b s)).

Definition bpin (b : option nat) : M bio_st () :=
  let* ok := validate_buffer b in
  if negb ok then panic "bpin: invalid buffer" else
  setb (default 0%nat b) (fun n => set_refcnt (u32 (b_refcnt n + 1)) n) ;;;
  bcount bpin_calls.

Definition bunpin (b : option nat) : M bio_st () :=
  let* ok := validate_buffer b in
  if negb ok then panic "bunpin: invalid buffer" else
  let b := default 0%nat b in
  setb b (fun n => set_refcnt (u32 (b_refcnt n - 1)) n) ;;;
  let* n := gets (fun s => node s b) in
  if b_refcnt n <? 0 then panic "bunpin: negative refcnt" else
  bcount bunpin_calls.
End Bio.
