(* ===== verification/BioRefine.v ===== *)
(** The buffer cache implements its contract: the invariant of bio.c and the
    refinement of each operation to the effects of [BlockCache]. *)

From S2P Require Import Prelude.
From S2P Require Import Locks.
From S2P Require Import BlockCache.
From S2P Require Import Dll.
From S2P Require Import Bio.

Arguments HEAD : simpl never.

(** ** Reading the state through pointers *)

Definition nx (s : bio_st) (i : nat) : nat := b_next (node s i).
Definition pv (s : bio_st) (i : nat) : nat := b_prev (node s i).

Definition bio_len (s : bio_st) : Prop := length (bcache_buf s) = HEAD.

Lemma node_upd s i f j :
  bio_len s -> (i <= HEAD)%nat ->
  node (upd_node i f s) j = if decide (j = i) then f (node s i) else node s j.
Proof.
  intros Hl Hi. unfold node, upd_node, bio_len in *.
  destruct (decide (i = HEAD)) as [->|Hne]; simpl; repeat case_decide; subst; try done.
  - by rewrite list_lookup_total_alter_eq by lia.
  - by rewrite list_lookup_total_alter_ne by done.
Qed.

Lemma upd_node_len s i f : bio_len s -> bio_len (upd_node i f s).
Proof. unfold bio_len, upd_node. intros. case_decide; simpl; rewrite ?length_alter; done. Qed.
Lemma upd_node_disk s i f : bio_disk (upd_node i f s) = bio_disk s.
Proof. unfold upd_node. by case_decide. Qed.
#[export] Hint Resolve upd_node_len : kernel.

(** Everything in a buffer but its links. *)
Definition core (b : buf) : Z * Z * Z * Z * sleeplock * Z * block :=
  (b_valid b, b_disk b, b_dev b, b_blockno b, b_lock b, b_refcnt b, b_data b).

Lemma core_eq a b :
  core a = core b ->
  b_valid a = b_valid b /\ b_disk a = b_disk b /\ b_dev a = b_dev b /\ b_blockno a = b_blockno b
  /\ b_lock a = b_lock b /\ b_refcnt a = b_refcnt b /\ b_data a = b_data b.
Proof. unfold core. intros [=]. repeat split; done. Qed.

Lemma core_set_next v b : core (set_next v b) = core b.
Proof. done. Qed.
Lemma core_set_prev v b : core (set_prev v b) = core b.
Proof. done. Qed.

(** ** The list manipulations *)

Lemma unlink_spec s l1 b l2 :
  bio_len s -> linked (nx s) (pv s) HEAD (l1 ++ b :: l2) HEAD -> NoDup (HEAD :: l1 ++ b :: l2) ->
  (forall i, i ∈ l1 ++ b :: l2 -> (i < HEAD)%nat) ->
  bio_len (unlink b s) /\ linked (nx (unlink b s)) (pv (unlink b s)) HEAD (l1 ++ l2) HEAD
  /\ (forall j, core (node (unlink b s) j) = core (node s j)) /\ bio_disk (unlink b s) = bio_disk s.
Proof.
  intros Hlen Hl Hnd Hlt. unfold unlink.
  pose proof Hl as [Hl1 Hl2]%linked_app.
  assert (nx s b <= HEAD)%nat as Hn.
  { apply linked_next_in in Hl2. apply elem_of_app in Hl2 as [?|?%list_elem_of_singleton]; [|lia].
    specialize (Hlt (nx s b)). enough (nx s b < HEAD)%nat by lia. apply Hlt. set_solver. }
  assert (pv s b <= HEAD)%nat as Hp.
  { apply linked_prev_in in Hl1. apply elem_of_cons in Hl1 as [->|?]; [lia|].
    specialize (Hlt (pv s b)). enough (pv s b < HEAD)%nat by lia. apply Hlt. set_solver. }
  set (s1 := upd_node (b_next (node s b)) _ s).
  assert (bio_len s1) as Hlen1 by (unfold s1; auto with kernel).
  assert (forall j, node s1 j = if decide (j = nx s b) then set_prev (pv s b) (node s j) else node s j) as Hs1.
  { intros j. unfold s1. rewrite node_upd by done. unfold nx, pv. case_decide; by subst. }
  assert (b_prev (node s1 b) = pv s b /\ b_next (node s1 b) = nx s b) as [-> ->].
  { rewrite Hs1. case_decide; done. }
  split; [auto with kernel|]. split; [|split].
  - eapply linked_ext; [..|apply (linked_unlink (nx s) (pv s) HEAD l1 b l2); done];
      intros i _; [unfold nx at 1 | unfold pv at 1]; rewrite node_upd by done; unfold fupd; rewrite !Hs1;
      repeat case_decide; subst; done.
  - intros j. rewrite node_upd by done. rewrite !Hs1. repeat case_decide; subst; done.
  - unfold s1. by rewrite !upd_node_disk.
Qed.

Lemma link_front_spec s l b :
  bio_len s -> linked (nx s) (pv s) HEAD l HEAD -> NoDup (HEAD :: l) -> b ∉ HEAD :: l ->
  (forall i, i ∈ b :: l -> (i < HEAD)%nat) ->
  bio_len (link_front b s) /\ linked (nx (link_front b s)) (pv (link_front b s)) HEAD (b :: l) HEAD
  /\ (forall j, core (node (link_front b s) j) = core (node s j)) /\ bio_disk (link_front b s) = bio_disk s.
Proof.
  intros Hlen Hl Hnd Hb Hlt. assert (b < HEAD)%nat as Hbl by (apply Hlt; by left).
  unfold link_front.
  assert (nx s HEAD <= HEAD)%nat as Hn.
  { pose proof (linked_next_in _ _ _ _ _ Hl) as Hin.
    apply elem_of_app in Hin as [?|?%list_elem_of_singleton]; [|lia].
    enough (nx s HEAD < HEAD)%nat by lia. apply Hlt. set_solver. }
  assert (b <> nx s HEAD) as Hbn.
  { pose proof (linked_next_in _ _ _ _ _ Hl) as Hin. set_solver. }
  set (s1 := upd_node b _ s). set (s2 := upd_node b _ s1).
  assert (bio_len s1 /\ bio_len s2) as [Hlen1 Hlen2] by (unfold s2, s1; split; auto with kernel).
  assert (forall j, node s2 j = if decide (j = b) then set_prev HEAD (set_next (nx s HEAD) (node s j)) else node s j) as Hs2.
  { intros j. unfold s2, s1. rewrite !node_upd by (auto with kernel; lia). unfold nx.
    repeat case_decide; by subst. }
  assert (b_next (node s2 HEAD) = nx s HEAD) as ->.
  { rewrite Hs2. case_decide; [lia | done]. }
  set (s3 := upd_node _ (set_prev b) s2). assert (bio_len s3) as Hlen3 by (unfold s3; auto with kernel).
  split; [auto with kernel|]. split; [|split].
  - eapply linked_ext; [..|apply (linked_front (nx s) (pv s) HEAD l b); done];
      intros i _; [unfold nx at 1 | unfold pv at 1]; unfold s3; rewrite !node_upd by (auto with kernel; lia);
      unfold fupd; rewrite !Hs2; repeat case_decide; subst; try done; try congruence; lia.
  - intros j. unfold s3. rewrite !node_upd by (auto with kernel; lia). rewrite !Hs2.
    repeat case_decide; rewrite ?core_set_next, ?core_set_prev; try done; try congruence; lia.
  - unfold s3, s2, s1. by rewrite !upd_node_disk.
Qed.

(** ** Scans *)

Lemma scan_linked nxt prv test x l fuel :
  linked nxt prv x l HEAD -> HEAD ∉ l -> (length l < fuel)%nat ->
  scan fuel nxt test (nxt x) = Some (find test l).
Proof.
  revert x fuel. induction l as [|z l IH]; intros x [|fuel]; unfold linked; fold linked; simpl; try lia.
  - intros [-> _] _ _. by rewrite decide_True.
  - intros (Hz & _ & Hl) Hh Hf. rewrite Hz. rewrite decide_False by set_solver.
    destruct (test z); [done|]. apply IH; [done | set_solver | lia].
Qed.

Lemma find_cases {A} (test : A -> bool) l :
  (exists x, find test l = Some x /\ x ∈ l /\ test x = true)
  \/ (find test l = None /\ forall x, x ∈ l -> test x = false).
Proof.
  destruct (find test l) as [x|] eqn:Hf; [left | right].
  - apply find_some in Hf as [Hin Ht]. exists x. rewrite list_elem_of_In. done.
  - split; [done|]. intros x Hx%list_elem_of_In. by apply (find_none test l).
Qed.

(** Number of elements that satisfy a test, and how it changes at one point. *)
Definition count {A} (f : A -> bool) (l : list A) : Z := Z.of_nat (length (List.filter f l)).

Lemma count_cons {A} (f : A -> bool) x l : count f (x :: l) = cbool (f x) + count f l.
Proof. unfold count, cbool. simpl. destruct (f x); simpl; lia. Qed.
Lemma count_ext {A} (f g : A -> bool) l : (forall x, x ∈ l -> f x = g x) -> count f l = count g l.
Proof.
  induction l as [|x l IH]; intros H; [done|]. rewrite !count_cons, H by set_solver.
  rewrite IH; [done | intros; apply H; set_solver].
Qed.
Lemma count_change {A} (f g : A -> bool) l x :
  NoDup l -> x ∈ l -> (forall y, y ∈ l -> y <> x -> g y = f y) ->
  count g l = count f l - cbool (f x) + cbool (g x).
Proof.
  induction l as [|y l IH]; intros Hnd Hx H; [set_solver|]. apply NoDup_cons in Hnd as [Hy Hnd].
  rewrite !count_cons. apply elem_of_cons in Hx as [->|Hx].
  - rewrite (count_ext g f l); [lia|]. intros z Hz. apply H; [set_solver | congruence].
  - rewrite IH; [|done|done|]; [|intros; apply H; [set_solver|done]].
    rewrite (H y); [lia | set_solver | congruence].
Qed.
Lemma count_le {A} (f : A -> bool) l : 0 <= count f l <= Z.of_nat (length l).
Proof. induction l as [|x l IH]; [done|]. rewrite count_cons. simpl. destruct (f x); simpl; lia. Qed.
Lemma count_full {A} (f : A -> bool) l :
  count f l = Z.of_nat (length l) -> forall x, x ∈ l -> f x = true.
Proof.
  induction l as [|y l IH]; intros Hc x Hx; [set_solver|]. rewrite count_cons in Hc.
  pose proof (count_le f l). simpl in Hc. destruct (f y) eqn:Hy; simpl in Hc; [|lia].
  apply elem_of_cons in Hx as [->|Hx]; [done|]. apply IH; [lia | done].
Qed.

(** ** The invariant and the view *)

Section Refine.
Context (dev pid : Z).

Definition owns (k : Z) (b : buf) : bool := (b_dev b =? dev) && (b_blockno b =? k).
Definition slot (s : bio_st) (k : Z) : option nat := find (fun i => owns k (node s i)) (seq 0 HEAD).

Definition holder (l : sleeplock) : option Z := if slk_locked l then Some (slk_pid l) else None.
Definition used (s : bio_st) (i : nat) : bool := negb (b_refcnt (node s i) =? 0).

Definition bio_abs (s : bio_st) : cache := {|
  c_ref k := match slot s k with Some i => b_refcnt (node s i) | None => 0 end;
  c_lock k := match slot s k with Some i => holder (b_lock (node s i)) | None => None end;
  c_view k := match slot s k with
              | Some i => if truth (b_valid (node s i)) then b_data (node s i)
                          else d_blocks (bio_disk s) k
              | None => d_blocks (bio_disk s) k
              end;
  c_disk := d_blocks (bio_disk s);
  c_trace := d_writes (bio_disk s);
  c_nref := count (used s) (seq 0 HEAD) |}.

(** The list visits every buffer once. *)
Definition ring (s : bio_st) : Prop :=
  exists l, Permutation l (seq 0 HEAD) /\ linked (nx s) (pv s) HEAD l HEAD.

Record buf_ok (s : bio_st) (i : nat) : Prop := {
  bo_ref : 0 <= b_refcnt (node s i) < 2 ^ 32;
  bo_dev : b_refcnt (node s i) <> 0 -> b_dev (node s i) = dev;
  bo_free : b_refcnt (node s i) = 0 -> slk_locked (b_lock (node s i)) = false;
  bo_clean : b_refcnt (node s i) = 0 -> b_dev (node s i) = dev -> truth (b_valid (node s i)) = true ->
             b_data (node s i) = d_blocks (bio_disk s) (b_blockno (node s i)) }.

Record bio_inv (s : bio_st) : Prop := {
  bi_len : bio_len s;
  bi_ring : ring s;
  bi_uniq i j : (i < HEAD)%nat -> (j < HEAD)%nat -> b_dev (node s i) = dev -> b_dev (node s j) = dev ->
                b_blockno (node s i) = b_blockno (node s j) -> i = j;
  bi_buf i : (i < HEAD)%nat -> buf_ok s i }.

Record bio_handle (s : bio_st) (k : Z) (i : nat) : Prop := {
  bh_lt : (i < HEAD)%nat;
  bh_own : owns k (node s i) = true;
  bh_ref : 0 < b_refcnt (node s i);
  bh_valid : truth (b_valid (node s i)) = true }.

Lemma owns_iff k b : owns k b = true <-> b_dev b = dev /\ b_blockno b = k.
Proof. unfold owns. rewrite andb_true_iff, !Z.eqb_eq. done. Qed.
Lemma owns_core k a b : core a = core b -> owns k a = owns k b.
Proof. intros (_ & _ & H1 & H2 & _)%core_eq. unfold owns. by rewrite H1, H2. Qed.

Lemma slot_own s k i : bio_inv s -> (i < HEAD)%nat -> owns k (node s i) = true -> slot s k = Some i.
Proof.
  intros Hi Hl Ho. unfold slot.
  destruct (find_cases (fun i => owns k (node s i)) (seq 0 HEAD)) as [(x & -> & Hx & Ht)|[_ Hn]].
  - apply elem_of_seq in Hx. apply owns_iff in Ho as [? ?], Ht as [? ?].
    f_equal. apply (bi_uniq s Hi); congruence || lia.
  - specialize (Hn i). rewrite Hn in Ho; [done|]. apply elem_of_seq. lia.
Qed.
Lemma slot_none s k : (forall i, (i < HEAD)%nat -> owns k (node s i) = false) -> slot s k = None.
Proof.
  intros H. unfold slot.
  destruct (find_cases (fun i => owns k (node s i)) (seq 0 HEAD)) as [(x & -> & Hx%elem_of_seq & Ht)|[-> _]]; [|done].
  rewrite H in Ht; [done | lia].
Qed.
Lemma slot_cases s k :
  (exists i, slot s k = Some i /\ (i < HEAD)%nat /\ owns k (node s i) = true)
  \/ (slot s k = None /\ forall i, (i < HEAD)%nat -> owns k (node s i) = false).
Proof.
  unfold slot.
  destruct (find_cases (fun i => owns k (node s i)) (seq 0 HEAD)) as [(x & -> & Hx%elem_of_seq & Ht)|[-> H]].
  - left. exists x. repeat split; [lia | done].
  - right. split; [done|]. intros. apply H, elem_of_seq. lia.
Qed.

Lemma ring_ext s s' :
  (forall j, b_next (node s' j) = b_next (node s j)) -> (forall j, b_prev (node s' j) = b_prev (node s j)) ->
  ring s -> ring s'.
Proof.
  intros Hn Hp (l & Hl & Hk). exists l. split; [done|].
  eapply linked_ext; [..|exact Hk]; intros i _; [apply Hn | apply Hp].
Qed.

(** Buffer [i] comes to hold block [k], which it held before or which no
    buffer held while [i] was free; nothing else of the cache changes. *)
Record changes (s s' : bio_st) (i : nat) (k : Z) : Prop := {
  ch_lt : (i < HEAD)%nat;
  ch_len : bio_len s';
  ch_ring : ring s';
  ch_rest j : (j < HEAD)%nat -> j <> i -> core (node s' j) = core (node s j);
  ch_own : owns k (node s' i) = true;
  ch_src : owns k (node s i) = true
           \/ b_refcnt (node s i) = 0 /\ forall j, (j < HEAD)%nat -> owns k (node s j) = false;
  ch_disk j : j <> k -> d_blocks (bio_disk s') j = d_blocks (bio_disk s) j;
  ch_buf : buf_ok s' i }.

Section Change.
Context (s s' : bio_st) (i : nat) (k : Z) (Hinv : bio_inv s) (Hc : changes s s' i k).

Lemma ch_owner_other j : (j < HEAD)%nat -> j <> i -> owns k (node s' j) = false.
Proof.
  intros Hj Hne. rewrite (owns_core k _ _ (ch_rest _ _ _ _ Hc j Hj Hne)).
  destruct (ch_src _ _ _ _ Hc) as [Ho|[_ Ho]]; [|by apply Ho].
  destruct (owns k (node s j)) eqn:Hk; [|done]. exfalso. apply Hne.
  pose proof (slot_own s k i Hinv (ch_lt _ _ _ _ Hc) Ho). pose proof (slot_own s k j Hinv Hj Hk). congruence.
Qed.

Lemma ch_inv : bio_inv s'.
Proof.
  pose proof (ch_lt _ _ _ _ Hc) as Hlt. pose proof (proj1 (owns_iff _ _) (ch_own _ _ _ _ Hc)) as [Hd Hb].
  split; [exact (ch_len _ _ _ _ Hc) | exact (ch_ring _ _ _ _ Hc) | |].
  - intros x y Hx Hy Hdx Hdy Hbb. destruct (decide (x = i)) as [->|Hxi], (decide (y = i)) as [->|Hyi]; try done.
    + pose proof (ch_owner_other y Hy Hyi) as Ho. rewrite (proj2 (owns_iff _ _)) in Ho; [done|]. split; congruence.
    + pose proof (ch_owner_other x Hx Hxi) as Ho. rewrite (proj2 (owns_iff _ _)) in Ho; [done|]. split; congruence.
    + pose proof (core_eq _ _ (ch_rest _ _ _ _ Hc x Hx Hxi)) as (_ & _ & H1 & H2 & _).
      pose proof (core_eq _ _ (ch_rest _ _ _ _ Hc y Hy Hyi)) as (_ & _ & H3 & H4 & _).
      apply (bi_uniq s Hinv); congruence.
  - intros x Hx. destruct (decide (x = i)) as [->|Hxi]; [exact (ch_buf _ _ _ _ Hc)|].
    pose proof (core_eq _ _ (ch_rest _ _ _ _ Hc x Hx Hxi)) as (H1 & _ & H2 & H3 & H4 & H5 & H6).
    destruct (bi_buf s Hinv x Hx) as [B1 B2 B3 B4].
    split; rewrite ?H1, ?H2, ?H3, ?H4, ?H5, ?H6; try done.
    intros Hr Hdv Hv. rewrite (ch_disk _ _ _ _ Hc); [by apply B4|].
    intros He. pose proof (ch_owner_other x Hx Hxi) as Ho.
    rewrite (proj2 (owns_iff _ _)) in Ho; [done|]. split; congruence.
Qed.

Lemma ch_slot_other j : j <> k ->
  slot s' j = slot s j /\ slot s j <> Some i
  \/ slot s j = Some i /\ slot s' j = None /\ b_refcnt (node s i) = 0.
Proof.
  intros Hj. assert (Hni : owns j (node s' i) = false).
  { destruct (owns j (node s' i)) eqn:Ho; [|done]. exfalso. apply owns_iff in Ho as [_ Ho].
    pose proof (ch_own _ _ _ _ Hc) as [_ Hk]%owns_iff. congruence. }
  destruct (slot_cases s j) as [(x & -> & Hx & Ho)|[-> Hn]].
  - destruct (decide (x = i)) as [->|Hxi].
    + right. split; [done|]. split.
      * apply slot_none. intros y Hy. destruct (decide (y = i)) as [->|Hyi]; [done|].
        rewrite (owns_core j _ _ (ch_rest _ _ _ _ Hc y Hy Hyi)).
        destruct (owns j (node s y)) eqn:Hoy; [|done].
        pose proof (slot_own s j i Hinv Hx Ho). pose proof (slot_own s j y Hinv Hy Hoy). congruence.
      * destruct (ch_src _ _ _ _ Hc) as [Hk|[? _]]; [|done].
        apply owns_iff in Hk as [_ ?], Ho as [_ ?]. congruence.
    + left. split; [|congruence]. apply (slot_own s' j x ch_inv Hx). by rewrite (owns_core j _ _ (ch_rest _ _ _ _ Hc x Hx Hxi)).
  - left. split; [|done]. apply slot_none. intros y Hy. destruct (decide (y = i)) as [->|Hyi]; [done|].
    rewrite (owns_core j _ _ (ch_rest _ _ _ _ Hc y Hy Hyi)). auto.
Qed.

Lemma ch_abs :
  bio_abs s' ≡ {|
    c_ref := upd (c_ref (bio_abs s)) k (b_refcnt (node s' i));
    c_lock := upd (c_lock (bio_abs s)) k (holder (b_lock (node s' i)));
    c_view := upd (c_view (bio_abs s)) k
                (if truth (b_valid (node s' i)) then b_data (node s' i) else d_blocks (bio_disk s') k);
    c_disk := d_blocks (bio_disk s');
    c_trace := d_writes (bio_disk s');
    c_nref := c_nref (bio_abs s) - cbool (used s i) + cbool (used s' i) |}.
Proof.
  pose proof (slot_own s' k i ch_inv (ch_lt _ _ _ _ Hc) (ch_own _ _ _ _ Hc)) as Hsk.
  assert (forall j, j <> k -> c_ref (bio_abs s') j = c_ref (bio_abs s) j
    /\ c_lock (bio_abs s') j = c_lock (bio_abs s) j /\ c_view (bio_abs s') j = c_view (bio_abs s) j) as Hoth.
  { intros j Hj. simpl. rewrite (ch_disk _ _ _ _ Hc j Hj).
    destruct (ch_slot_other j Hj) as [[-> Hne]|(Hs & -> & Hr)].
    - destruct (slot_cases s j) as [(x & Hs & Hx & Ho)|[-> Hn]]; [|done]. rewrite Hs in *.
      pose proof (core_eq _ _ (ch_rest _ _ _ _ Hc x Hx ltac:(congruence))) as (-> & _ & _ & _ & -> & -> & ->). done.
    - rewrite Hs. pose proof (bi_buf s Hinv i (ch_lt _ _ _ _ Hc)) as [_ _ B3 B4].
      destruct (slot_cases s j) as [(x & Hs' & _ & [Hd Hb]%owns_iff)|[? _]]; [|congruence].
      assert (x = i) as -> by congruence. unfold holder. rewrite B3, Hr by done. repeat split.
      destruct (truth _) eqn:Hv; [|done]. rewrite B4 by done. by rewrite Hb. }
  assert (forall {A} (f f' : Z -> A) v, f' k = v -> (forall j, j <> k -> f' j = f j) -> forall j, f' j = upd f k v j) as Hupd.
  { intros A f f' v Hv Ho j. unfold upd. destruct (Z.eqb_spec j k) as [->|?]; auto. }
  split; [apply Hupd; [simpl; by rewrite Hsk | intros; by apply Hoth]|].
  split; [apply Hupd; [simpl; by rewrite Hsk | intros; by apply Hoth]|].
  split; [apply Hupd; [simpl; by rewrite Hsk | intros; by apply Hoth]|].
  split; [done|]. split; [done|].
  cbn [c_nref bio_abs]. apply (count_change (used s) (used s') _ i); [apply NoDup_seq | apply elem_of_seq; pose proof (ch_lt _ _ _ _ Hc); lia |].
  intros y Hy%elem_of_seq Hyi. unfold used.
  by pose proof (core_eq _ _ (ch_rest _ _ _ _ Hc y ltac:(lia) Hyi)) as (_ & _ & _ & _ & _ & -> & _).
Qed.

Lemma ch_handles j h :
  bio_handle s j h -> h <> i \/ 0 < b_refcnt (node s' i) /\ truth (b_valid (node s' i)) = true -> bio_handle s' j h.
Proof.
  intros [Hl Ho Hr Hv] Hcase. destruct (decide (h = i)) as [->|Hhi].
  - destruct Hcase as [?|[Hr' Hv']]; [done|]. split; try done.
    destruct (ch_src _ _ _ _ Hc) as [Hk|[? _]]; [|lia].
    pose proof (ch_own _ _ _ _ Hc) as [? ?]%owns_iff. apply owns_iff in Hk as [? ?], Ho as [? ?].
    apply owns_iff. split; congruence.
  - pose proof (ch_rest _ _ _ _ Hc h Hl Hhi) as Hcr. pose proof (core_eq _ _ Hcr) as (E1 & _ & _ & _ & _ & E2 & _).
    split; [done| |lia|congruence]. by rewrite (owns_core j _ _ Hcr).
Qed.
End Change.

(** ** Runs that assign one buffer *)

Definition only (s : bio_st) (i : nat) (nb : buf) (s' : bio_st) : Prop :=
  bio_len s' /\ bio_disk s' = bio_disk s /\ forall j, node s' j = if decide (j = i) then nb else node s j.

Lemma only_refl s i : bio_len s -> only s i (node s i) s.
Proof. intros. split; [done|]. split; [done|]. intros. case_decide; by subst. Qed.
Lemma only_upd s i nb s' f : (i <= HEAD)%nat -> only s i nb s' -> only s i (f nb) (upd_node i f s').
Proof.
  intros Hi (Hl & Hd & Hn). split; [auto with kernel|]. split; [by rewrite upd_node_disk|].
  intros j. rewrite node_upd by done. rewrite !Hn. repeat case_decide; by subst.
Qed.
Lemma only_stats s i nb s' c :
  only s i nb s' -> only s i nb (BioSt (bcache_buf s') (bcache_head s') c (bio_disk s')).
Proof. done. Qed.
Lemma only_node s i nb s' : only s i nb s' -> node s' i = nb.
Proof. intros (_ & _ & H). rewrite H. by rewrite decide_True. Qed.

Lemma only_changes s i nb s' k :
  bio_inv s -> (i < HEAD)%nat -> only s i nb s' -> b_next nb = nx s i -> b_prev nb = pv s i ->
  owns k nb = true ->
  owns k (node s i) = true \/ b_refcnt (node s i) = 0 /\ (forall j, (j < HEAD)%nat -> owns k (node s j) = false) ->
  buf_ok s' i -> changes s s' i k.
Proof.
  intros Hinv Hi (Hl & Hd & Hn) Hnx Hpv Ho Hsrc Hb. split; try done.
  - eapply ring_ext; [..|exact (bi_ring s Hinv)]; intros j; rewrite Hn; case_decide; by subst.
  - intros j _ Hj. rewrite Hn. by rewrite decide_False.
  - rewrite Hn. by rewrite decide_True.
  - by rewrite Hd.
Qed.

Lemma find_cached_spec s k :
  bio_inv s ->
  find_cached s dev k = Some (slot s k).
Proof.
  intros Hinv. destruct (bi_ring s Hinv) as (l & Hp & Hl). unfold find_cached.
  change (fun b => b_next (node s b)) with (nx s). change (b_next (node s HEAD)) with (nx s HEAD).
  assert (forall x, x ∈ l <-> (x < HEAD)%nat) as Hin.
  { intros x. rewrite Hp, elem_of_seq. lia. }
  rewrite (scan_linked (nx s) (pv s) _ HEAD l).
  - destruct (find_cases (fun b => (b_dev (node s b) =? dev) && (b_blockno (node s b) =? k)) l)
      as [(x & -> & Hx & Ho)|[-> Hn]].
    + by rewrite (slot_own s k x Hinv) by (apply Hin || done; done).
    + rewrite slot_none; [done|]. intros i Hi. apply Hn, Hin, Hi.
  - done.
  - rewrite Hin. lia.
  - rewrite Hp, length_seq. lia.
Qed.

Lemma find_lru_spec s l :
  Permutation l (seq 0 HEAD) -> linked (nx s) (pv s) HEAD l HEAD ->
  find_lru s = Some (find (fun b => b_refcnt (node s b) =? 0) (reverse l)).
Proof.
  intros Hp Hl. unfold find_lru. change (fun b => b_prev (node s b)) with (pv s).
  change (b_prev (node s HEAD)) with (pv s HEAD).
  apply (scan_linked (pv s) (nx s)); [by apply linked_reverse | | ].
  - rewrite elem_of_reverse, Hp, elem_of_seq. lia.
  - rewrite length_reverse, Hp, length_seq. lia.
Qed.

Lemma find_lru_cases s :
  bio_inv s ->
  (exists b, find_lru s = Some (Some b) /\ (b < HEAD)%nat /\ b_refcnt (node s b) = 0)
  \/ (find_lru s = Some None /\ forall b, (b < HEAD)%nat -> used s b = true).
Proof.
  intros Hinv. destruct (bi_ring s Hinv) as (l & Hp & Hl). rewrite (find_lru_spec s l Hp Hl).
  assert (forall x, x ∈ reverse l <-> (x < HEAD)%nat) as Hin.
  { intros x. rewrite elem_of_reverse, Hp, elem_of_seq. lia. }
  destruct (find_cases (fun b => b_refcnt (node s b) =? 0) (reverse l)) as [(x & -> & Hx & Ho)|[-> Hn]].
  - left. exists x. rewrite <- Hin. apply Z.eqb_eq in Ho. done.
  - right. split; [done|]. intros b Hb. unfold used. by rewrite Hn by (by apply Hin).
Qed.

(** ** Reading a block *)

Definition restat (c : counters bio_stat) (s : bio_st) : bio_st :=
  BioSt (bcache_buf s) (bcache_head s) c (bio_disk s).

Lemma bcount_run f s : bcount f s = Ret tt (restat (incr f (bio_stats s)) s).
Proof. done. Qed.

Lemma lock_buf_run s i nb s' :
  only s i nb s' -> slk_locked (b_lock nb) = false ->
  lock_buf pid i s' = Ret tt (upd_node i (set_lock (Sleeplock true pid)) s').
Proof.
  intros Ho Hf. unfold lock_buf, acquiresleep. monad. rewrite (only_node _ _ _ _ Ho), Hf. done.
Qed.

Lemma bget_hit s c k b :
  bio_inv s -> slot s k = Some b -> (b < HEAD)%nat -> slk_locked (b_lock (node s b)) = false ->
  exists s1, bget pid dev k (restat c s) = Ret b s1
    /\ only s b (set_lock (Sleeplock true pid) (set_refcnt (u32 (b_refcnt (node s b) + 1)) (node s b))) s1.
Proof.
  intros Hinv Hs Hb Hl. unfold bget.
  rewrite (mthen_ret _ _ _ (restat c s) (restat c s)) by done.
  change (find_cached (restat c s) dev k) with (find_cached s dev k). rewrite find_cached_spec, Hs by done.
  pose proof (only_upd s b _ (restat c s) (fun n => set_refcnt (u32 (b_refcnt n + 1)) n) ltac:(lia)
    (only_stats _ _ _ _ c (only_refl s b (bi_len s Hinv)))) as Ho.
  rewrite (mthen_ret _ _ _ tt (upd_node b (fun n => set_refcnt (u32 (b_refcnt n + 1)) n) (restat c s))) by done.
  erewrite mthen_ret by (eapply lock_buf_run; [exact Ho | done]).
  eexists. split; [reflexivity|]. apply only_stats. apply only_upd; [lia | done].
Qed.

Lemma bget_miss s c k b :
  bio_inv s -> slot s k = None -> find_lru s = Some (Some b) -> (b < HEAD)%nat ->
  slk_locked (b_lock (node s b)) = false ->
  exists s1, bget pid dev k (restat c s) = Ret b s1
    /\ only s b (set_lock (Sleeplock true pid)
                  (set_refcnt 1 (set_valid 0 (set_blockno k (set_dev dev (node s b)))))) s1.
Proof.
  intros Hinv Hs Hf Hb Hl. unfold bget.
  rewrite (mthen_ret _ _ _ (restat c s) (restat c s)) by done.
  change (find_cached (restat c s) dev k) with (find_cached s dev k). rewrite find_cached_spec, Hs by done.
  rewrite (mthen_ret _ _ _ _ _ (bcount_run _ _)).
  set (s0 := restat _ _). rewrite (mthen_ret _ _ _ s0 s0) by done.
  change (find_lru s0) with (find_lru s). rewrite Hf.
  pose proof (only_upd s b _ s0 (fun n => set_refcnt 1 (set_valid 0 (set_blockno k (set_dev dev n)))) ltac:(lia)
    (only_refl s b (bi_len s Hinv))) as Ho.
  rewrite (mthen_ret (setb b _) _ _ _ _ eq_refl). rewrite (mthen_ret _ _ _ _ _ (bcount_run _ _)).
  erewrite mthen_ret by (eapply lock_buf_run; [apply only_stats; exact Ho | done]).
  eexists. split; [reflexivity|]. apply only_upd; [lia|]. apply only_stats, Ho.
Qed.

(** The buffer once [bread] has filled it. *)
Definition filled (d : disk_t) (nb : buf) : buf :=
  if truth (b_valid nb) then nb else set_valid 1 (set_data (d_blocks d (b_blockno nb)) (set_disk 0 nb)).

Lemma bread_of_bget s k b nb s1 :
  bget pid dev k (restat (incr bread_calls (bio_stats s)) s) = Ret b s1 ->
  only s b nb s1 -> (b < HEAD)%nat -> 0 <= b_refcnt nb ->
  exists s', bread pid dev k s = Ret b s' /\ only s b (filled (bio_disk s) nb) s'.
Proof.
  intros Hg Ho Hb Hr. unfold bread. rewrite (mthen_ret _ _ _ _ _ (bcount_run _ _)).
  rewrite (mthen_ret _ _ _ _ _ Hg). unfold validate_buffer. rewrite decide_False by lia. monad.
  pose proof (only_node _ _ _ _ Ho) as Hn. rewrite !Hn.
  destruct (Z.ltb_spec (b_refcnt nb) 0); [lia|]. cbn [negb]. rewrite Hn. unfold filled.
  destruct (truth (b_valid nb)) eqn:Hv; cbn [negb].
  - exists s1. done.
  - unfold setb, disk_rw. monad. eexists. split; [reflexivity|].
    apply only_stats, only_upd; [lia|]. destruct Ho as (Hl & Hd & Hj). rewrite Hd.
    apply (only_upd s b nb s1 (fun n => set_data (d_blocks (bio_disk s) (b_blockno n)) (set_disk 0 n))); [lia | done].
Qed.

Lemma filled_ok d nb :
  core (filled d nb) = (b_valid (filled d nb), b_disk (filled d nb), b_dev nb, b_blockno nb, b_lock nb, b_refcnt nb,
    if truth (b_valid nb) then b_data nb else d_blocks d (b_blockno nb))
  /\ truth (b_valid (filled d nb)) = true /\ b_next (filled d nb) = b_next nb /\ b_prev (filled d nb) = b_prev nb.
Proof. unfold filled. destruct (truth (b_valid nb)) eqn:Hv; done. Qed.

Lemma bread_effect s s' k b nb :
  bio_inv s -> (b < HEAD)%nat -> only s b (filled (bio_disk s) nb) s' ->
  b_next nb = nx s b -> b_prev nb = pv s b -> owns k nb = true ->
  owns k (node s b) = true \/ b_refcnt (node s b) = 0 /\ (forall j, (j < HEAD)%nat -> owns k (node s j) = false) ->
  b_refcnt nb = c_ref (bio_abs s) k + 1 -> 0 < b_refcnt nb < 2 ^ 32 -> b_lock nb = Sleeplock true pid ->
  (if truth (b_valid nb) then b_data nb else d_blocks (bio_disk s) k) = c_view (bio_abs s) k ->
  used s b = negb (c_ref (bio_abs s) k =? 0) ->
  bio_inv s' /\ bio_abs s' ≡ c_bread pid k (bio_abs s)
  /\ bio_handle s' k b /\ (forall j h, bio_handle s j h -> bio_handle s' j h).
Proof.
  intros Hinv Hb Ho Hnx Hpv Hown Hsrc Href Hr Hlk Hview Hused.
  destruct (filled_ok (bio_disk s) nb) as (Hcore & Hval & Hnx' & Hpv').
  unfold core in Hcore. injection Hcore as Hdev Hblk Hlock Hrc Hdata.
  pose proof (only_node _ _ _ _ Ho) as Hn. pose proof (proj1 (owns_iff _ _) Hown) as [Hd Hk].
  assert (owns k (filled (bio_disk s) nb) = true) as Hown' by (apply owns_iff; split; congruence).
  assert (Hch : changes s s' b k).
  { eapply only_changes; try done; try congruence.
    split; rewrite Hn; intros; rewrite ?Hrc in *; try lia; congruence. }
  pose proof (ch_inv s s' b k Hinv Hch) as Hinv'. split; [done|]. split.
  - rewrite (ch_abs s s' b k Hinv Hch). destruct Ho as (_ & Hdisk & _).
    rewrite Hn, Hval, Hdisk, Hrc, Hlock, Hlk, Hdata, Href, Hk, Hview.
    repeat split; try done; [intros; apply upd_id |]. cbn [c_nref c_bread]. rewrite Hused.
    unfold used. rewrite Hn, Hrc, Href. repeat bcase; simpl; lia.
  - split; [split; rewrite ?Hn; congruence || lia|]. intros j h Hh. 
    eapply ch_handles; [exact Hch | done |]. right. rewrite Hn. split; [lia | done].
Qed.

Lemma bio_bread_ok s k :
  bio_inv s -> c_lock (bio_abs s) k = None -> c_ref (bio_abs s) k < 2 ^ 31 ->
  0 < c_ref (bio_abs s) k \/ c_nref (bio_abs s) < NBUF ->
  exists h s', bread pid dev k s = Ret h s' /\ bio_inv s' /\ bio_abs s' ≡ c_bread pid k (bio_abs s)
    /\ bio_handle s' k h /\ (forall j h', bio_handle s j h' -> bio_handle s' j h').
Proof.
  intros Hinv Hl Hr Hfree. destruct (slot_cases s k) as [(b & Hs & Hb & Ho)|[Hs Hn]].
  - assert (c_ref (bio_abs s) k = b_refcnt (node s b)) as Eref by (simpl; by rewrite Hs).
    assert (slk_locked (b_lock (node s b)) = false) as Hul.
    { simpl in Hl. rewrite Hs in Hl. unfold holder in Hl. by destruct (slk_locked _). }
    pose proof (bo_ref s b (bi_buf s Hinv b Hb)) as Hrng.
    destruct (bget_hit s (incr bread_calls (bio_stats s)) k b Hinv Hs Hb Hul) as (s1 & Hg & Ho1).
    rewrite u32_small in Ho1 by lia.
    destruct (bread_of_bget s k b _ s1 Hg Ho1 Hb ltac:(simpl; lia)) as (s' & Hrd & Ho').
    exists b, s'. split; [done|]. eapply bread_effect; try done; simpl; try lia.
    + by left.
    + by rewrite Hs.
    + by rewrite Hs.
    + unfold used. by rewrite Hs.
  - assert (c_ref (bio_abs s) k = 0) as Eref by (simpl; by rewrite Hs).
    destruct (find_lru_cases s Hinv) as [(b & Hf & Hb & Hb0)|[_ Hall]].
    + pose proof (bo_free s b (bi_buf s Hinv b Hb) Hb0) as Hul.
      destruct (bget_miss s (incr bread_calls (bio_stats s)) k b Hinv Hs Hf Hb Hul) as (s1 & Hg & Ho1).
      destruct (bread_of_bget s k b _ s1 Hg Ho1 Hb ltac:(simpl; lia)) as (s' & Hrd & Ho').
      exists b, s'. split; [done|]. eapply bread_effect; try done.
      * by apply owns_iff.
      * by right.
      * by rewrite Eref.
      * simpl. by rewrite Hs.
      * unfold used. by rewrite Hb0, Eref.
    + exfalso. destruct Hfree as [?|Hfree]; [lia|]. cbn [c_nref bio_abs] in Hfree.
      rewrite (count_ext (used s) (fun _ => true)) in Hfree by (intros x ?%elem_of_seq; apply Hall; lia).
      vm_compute in Hfree. done.
Qed.

Lemma bio_bread_full s k :
  bio_inv s -> c_ref (bio_abs s) k = 0 -> c_nref (bio_abs s) = NBUF ->
  bread pid dev k s = Panic "bget: no buffers".
Proof.
  intros Hinv Hr Hfull.
  assert (forall i, (i < HEAD)%nat -> used s i = true) as Hall.
  { intros i Hi. apply (count_full (used s) (seq 0 HEAD)); [|apply elem_of_seq; lia].
    cbn [c_nref bio_abs] in Hfull. rewrite Hfull, length_seq. by vm_compute. }
  destruct (slot_cases s k) as [(b & Hs & Hb & Ho)|[Hs Hn]].
  - specialize (Hall b Hb). simpl in Hr. rewrite Hs in Hr. unfold used in Hall. by rewrite Hr in Hall.
  - unfold bread. rewrite (mthen_ret _ _ _ _ _ (bcount_run _ _)). unfold bget, mthen at 1.
    set (s0 := restat _ _). rewrite (mthen_ret _ _ _ s0 s0) by done.
    change (find_cached s0 dev k) with (find_cached s dev k). rewrite find_cached_spec, Hs by done.
    rewrite (mthen_ret _ _ _ _ _ (bcount_run _ _)). set (s1 := restat _ _).
    rewrite (mthen_ret _ _ _ s1 s1) by done. change (find_lru s1) with (find_lru s).
    destruct (find_lru_cases s Hinv) as [(b & Hf & Hb & Hb0)|[-> _]]; [|done].
    specialize (Hall b Hb). unfold used in Hall. by rewrite Hb0 in Hall.
Qed.

(** ** Operations on a buffer the caller has *)

Lemma validate_run s h : (h < HEAD)%nat -> 0 <= b_refcnt (node s h) -> validate_buffer (Some h) s = Ret true s.
Proof.
  intros Hh Hr. unfold validate_buffer. rewrite decide_False by lia. monad. bcase; [lia | done].
Qed.

Lemma handle_abs s k h :
  bio_inv s -> bio_handle s k h ->
  c_ref (bio_abs s) k = b_refcnt (node s h) /\ c_lock (bio_abs s) k = holder (b_lock (node s h))
  /\ c_view (bio_abs s) k = b_data (node s h) /\ b_blockno (node s h) = k
  /\ 0 < b_refcnt (node s h) < 2 ^ 32.
Proof.
  intros Hinv [Hl Ho Hr Hv]. pose proof (slot_own s k h Hinv Hl Ho) as Hs.
  simpl. rewrite Hs, Hv. repeat split; [by apply owns_iff in Ho as [_ ?] | done |].
  apply (bo_ref s h (bi_buf s Hinv h Hl)).
Qed.

Lemma holdingsleep_holder l : holdingsleep pid l = true <-> holder l = Some pid.
Proof.
  unfold holdingsleep, holder. destruct (slk_locked l); simpl; [|done].
  rewrite Z.eqb_eq. split; congruence.
Qed.

(** Assigning buffer [h] so that it stays referenced, valid and in place. *)
Lemma only_effect s s' k h nb :
  bio_inv s -> bio_handle s k h -> only s h nb s' ->
  b_next nb = nx s h -> b_prev nb = pv s h -> owns k nb = true -> truth (b_valid nb) = true ->
  0 < b_refcnt nb < 2 ^ 32 ->
  bio_inv s' /\ bio_abs s' ≡ Cache (upd (c_ref (bio_abs s)) k (b_refcnt nb))
      (upd (c_lock (bio_abs s)) k (holder (b_lock nb))) (upd (c_view (bio_abs s)) k (b_data nb))
      (c_disk (bio_abs s)) (c_trace (bio_abs s)) (c_nref (bio_abs s))
  /\ (forall j h', bio_handle s j h' -> bio_handle s' j h').
Proof.
  intros Hinv Hh Ho Hnx Hpv Hown Hv Hr. pose proof (only_node _ _ _ _ Ho) as Hn.
  pose proof (bh_lt _ _ _ Hh) as Hlt. pose proof (bh_ref _ _ _ Hh) as Href.
  assert (Hch : changes s s' h k).
  { eapply only_changes; try done; [left; apply Hh|].
    apply owns_iff in Hown as [? ?]. split; rewrite Hn; intros; try lia; congruence. }
  split; [by eapply ch_inv|]. split.
  - rewrite (ch_abs s s' h k Hinv Hch). destruct Ho as (_ & Hdisk & _). rewrite Hn, Hv, Hdisk.
    repeat split; try done. cbn [c_nref]. unfold used. rewrite Hn. repeat bcase; simpl; lia.
  - intros j h' Hh'. eapply ch_handles; [exact Hch | done|]. right. rewrite Hn. split; [lia|done].
Qed.

Lemma bio_bpin_ok s k h :
  bio_inv s -> bio_handle s k h -> c_ref (bio_abs s) k < 2 ^ 31 ->
  exists s', bpin (Some h) s = Ret tt s' /\ bio_inv s' /\ bio_abs s' ≡ c_bpin k (bio_abs s)
    /\ (forall j h', bio_handle s j h' -> bio_handle s' j h').
Proof.
  intros Hinv Hh Hr. destruct (handle_abs s k h Hinv Hh) as (Er & El & Ev & Eb & Hrng).
  pose proof (bh_lt _ _ _ Hh) as Hlt.
  unfold bpin. rewrite (mthen_ret _ _ _ _ _ (validate_run s h Hlt ltac:(lia))). cbv beta iota zeta delta [negb].
  unfold setb, bcount. monad. eexists. split; [reflexivity|].
  set (s1 := upd_node _ _ s).
  assert (only s h (set_refcnt (b_refcnt (node s h) + 1) (node s h)) s1) as Ho.
  { unfold s1. rewrite <- (u32_small (b_refcnt (node s h) + 1)) by lia.
    apply (only_upd s h _ s (fun n => set_refcnt (u32 (b_refcnt n + 1)) n)); [lia|]. apply only_refl, Hinv. }
  apply (only_stats _ _ _ _ (incr bpin_calls (bio_stats s1))) in Ho.
  edestruct (only_effect s _ k h _ Hinv Hh Ho) as (HI & HA & HH); try done; simpl; try lia.
  { apply Hh. } { apply Hh. }
  split; [done|]. split; [|done]. rewrite HA. cbn [b_data b_lock b_refcnt set_refcnt]. rewrite <- Er, <- Ev, <- El.
  repeat split; try done; intros; apply upd_id.
Qed.

Lemma bio_bunpin_ok s k h :
  bio_inv s -> bio_handle s k h -> 1 < c_ref (bio_abs s) k ->
  exists s', bunpin (Some h) s = Ret tt s' /\ bio_inv s' /\ bio_abs s' ≡ c_bunpin k (bio_abs s)
    /\ (forall j h', bio_handle s j h' -> bio_handle s' j h').
Proof.
  intros Hinv Hh Hr. destruct (handle_abs s k h Hinv Hh) as (Er & El & Ev & Eb & Hrng).
  pose proof (bh_lt _ _ _ Hh) as Hlt.
  unfold bunpin. rewrite (mthen_ret _ _ _ _ _ (validate_run s h Hlt ltac:(lia))). cbv beta iota zeta delta [negb].
  unfold setb, bcount. monad. cbv zeta beta. change (default 0%nat (Some h)) with h.
  set (s1 := upd_node h (fun n => set_refcnt (u32 (b_refcnt n - 1)) n) s).
  assert (only s h (set_refcnt (b_refcnt (node s h) - 1) (node s h)) s1) as Ho.
  { unfold s1. rewrite <- (u32_small (b_refcnt (node s h) - 1)) by lia.
    apply (only_upd s h _ s (fun n => set_refcnt (u32 (b_refcnt n - 1)) n)); [lia|]. apply only_refl, Hinv. }
  rewrite (only_node _ _ _ _ Ho). cbn [b_refcnt set_refcnt]. destruct (Z.ltb_spec (b_refcnt (node s h) - 1) 0); [lia|].
  eexists. split; [reflexivity|].
  apply (only_stats _ _ _ _ (incr bunpin_calls (bio_stats s1))) in Ho.
  edestruct (only_effect s _ k h _ Hinv Hh Ho) as (HI & HA & HH); try done; simpl; try lia.
  { apply Hh. } { apply Hh. }
  split; [done|]. split; [|done]. rewrite HA. cbn [b_data b_lock b_refcnt set_refcnt]. rewrite <- Er, <- Ev, <- El.
  repeat split; try done; intros; apply upd_id.
Qed.

(** A client's assignment to [b->data]. *)
Definition write_data (h : nat) (b : block) (s : bio_st) : bio_st := upd_node h (set_data b) s.

Lemma bio_set_ok s k h b :
  bio_inv s -> bio_handle s k h ->
  bio_inv (write_data h b s) /\ bio_abs (write_data h b s) ≡ c_set k b (bio_abs s)
  /\ (forall j h', bio_handle s j h' -> bio_handle (write_data h b s) j h').
Proof.
  intros Hinv Hh. destruct (handle_abs s k h Hinv Hh) as (Er & El & Ev & Eb & Hrng).
  pose proof (bh_lt _ _ _ Hh) as Hlt.
  pose proof (only_upd s h _ s (set_data b) ltac:(lia) (only_refl s h (bi_len s Hinv))) as Ho.
  edestruct (only_effect s _ k h _ Hinv Hh Ho) as (HI & HA & HH); try done; simpl; try lia.
  { apply Hh. } { apply Hh. }
  split; [done|]. split; [|done]. rewrite HA. cbn [b_data b_lock b_refcnt set_data]. rewrite <- Er, <- El.
  repeat split; try done; intros; apply upd_id.
Qed.

Lemma bio_bwrite_ok s k h :
  bio_inv s -> bio_handle s k h -> c_lock (bio_abs s) k = Some pid ->
  exists s', bwrite pid (Some h) s = Ret tt s' /\ bio_inv s' /\ bio_abs s' ≡ c_bwrite k (bio_abs s)
    /\ (forall j h', bio_handle s j h' -> bio_handle s' j h').
Proof.
  intros Hinv Hh Hlk. destruct (handle_abs s k h Hinv Hh) as (Er & El & Ev & Eb & Hrng).
  pose proof (bh_lt _ _ _ Hh) as Hlt. pose proof (bh_valid _ _ _ Hh) as Hval.
  unfold bwrite. rewrite (mthen_ret _ _ _ _ _ (validate_run s h Hlt ltac:(lia))). cbv beta iota zeta delta [negb].
  rewrite (mthen_ret _ _ _ (node s h) s) by done.
  rewrite (proj2 (holdingsleep_holder _)) by congruence. cbv beta iota zeta delta [negb].
  rewrite !(mthen_ret _ _ _ _ _ (bcount_run _ _)). unfold modify. eexists. split; [reflexivity|].
  set (s0 := restat _ _). change (default 0%nat (Some h)) with h. unfold disk_rw. set (s1 := upd_node _ _ _).
  assert (only s h (set_disk 0 (node s h)) s1) as (Ho1 & Ho2 & Ho3).
  { apply (only_upd s h (node s h) s0 (set_disk 0)); [lia|]. apply (only_stats s h _ s _), only_refl, Hinv. }
  set (s2 := BioSt _ _ _ _).
  assert (forall j, node s2 j = node s1 j) as Hn by done.
  assert (Hch : changes s s2 h k).
  { split; try done.
    - eapply ring_ext; [..|exact (bi_ring s Hinv)]; intros j; rewrite Hn, Ho3; case_decide; by subst.
    - intros j _ Hj. rewrite Hn, Ho3. by rewrite decide_False.
    - rewrite Hn, Ho3, decide_True by done. apply Hh.
    - left. apply Hh.
    - intros j Hj. simpl. rewrite upd_ne by (change (node s0 h) with (node s h); congruence). by rewrite Ho2.
    - split; rewrite Hn, Ho3, decide_True by done; simpl; try lia; [].
      intros _. pose proof (bh_own _ _ _ Hh) as [? _]%owns_iff. done. }
  split; [by eapply ch_inv|]. split.
  - rewrite (ch_abs s s2 h k Hinv Hch). rewrite Hn, Ho3, decide_True by done. cbn [b_refcnt b_lock b_valid b_data set_disk].
    rewrite Hval. rewrite <- Er, <- El. change (node s0 h) with (node s h). rewrite <- Ev.
    change (bio_disk s2) with (disk_write (b_blockno (node s h)) (b_data (node s h)) (bio_disk s1)).
    rewrite Eb, Ho2, <- Ev. repeat split; intros; try apply upd_id.
    cbn [c_nref c_bwrite]. unfold used. rewrite Hn, Ho3, decide_True by done. cbn [b_refcnt set_disk]. lia.
  - intros j h' Hh'. eapply ch_handles; [exact Hch | done|]. right. rewrite Hn, Ho3, decide_True by done. split; [simpl; lia|done].
Qed.

Lemma brelse_front s s2 h nb :
  bio_inv s -> (h < HEAD)%nat -> only s h nb s2 -> b_next nb = nx s h -> b_prev nb = pv s h ->
  let s3 := link_front h (unlink h s2) in
  bio_len s3 /\ ring s3 /\ (forall j, core (node s3 j) = core (node s2 j)) /\ bio_disk s3 = bio_disk s2.
Proof.
  intros Hinv Hh (Hlen & Hdisk & Hn) Hnx Hpv s3.
  assert (ring s2) as (l & Hp & Hl).
  { eapply ring_ext; [..|exact (bi_ring s Hinv)]; intros j; rewrite Hn; case_decide; by subst. }
  assert (forall x, x ∈ l <-> (x < HEAD)%nat) as Hin by (intros x; rewrite Hp, elem_of_seq; lia).
  assert (NoDup (HEAD :: l)) as Hnd.
  { constructor; [rewrite Hin; lia|]. rewrite Hp. apply NoDup_seq. }
  destruct (list_elem_of_split l h) as (l1 & l2 & ->); [by apply Hin|].
  destruct (unlink_spec s2 l1 h l2 Hlen Hl Hnd) as (Hu1 & Hu2 & Hu3 & Hu4); [intros; by apply Hin|].
  assert (NoDup (h :: HEAD :: l1 ++ l2)) as [Hhn Hnd']%NoDup_cons.
  { eapply NoDup_Permutation_proper; [|exact Hnd]. rewrite perm_swap. by rewrite Permutation_middle. }
  destruct (link_front_spec (unlink h s2) (l1 ++ l2) h Hu1 Hu2 Hnd' Hhn) as (Hf1 & Hf2 & Hf3 & Hf4).
  { intros i Hi. apply Hin. set_solver. }
  unfold s3. split; [done|]. split; [|split; [|by rewrite Hf4]].
  - exists (h :: l1 ++ l2). split; [|done]. rewrite <- Hp. by rewrite Permutation_middle.
  - intros j. by rewrite Hf3.
Qed.

Lemma brelse_effect s s2 s' k h :
  bio_inv s -> bio_handle s k h ->
  (c_ref (bio_abs s) k = 1 -> c_view (bio_abs s) k = c_disk (bio_abs s) k) ->
  only s h (set_refcnt (b_refcnt (node s h) - 1) (set_lock initsleeplock (node s h))) s2 ->
  bio_len s' -> ring s' -> (forall j, core (node s' j) = core (node s2 j)) -> bio_disk s' = bio_disk s2 ->
  bio_inv s' /\ bio_abs s' ≡ c_brelse k (bio_abs s)
  /\ (forall j h', bio_handle s j h' -> 0 < c_ref (bio_abs s') j -> bio_handle s' j h').
Proof.
  intros Hinv Hh Hclean (_ & Hd2 & Hn2) Hlen Hring Hcore Hd.
  destruct (handle_abs s k h Hinv Hh) as (Er & El & Ev & Eb & Hrng).
  pose proof (bh_lt _ _ _ Hh) as Hlt. pose proof (bh_own _ _ _ Hh) as Hown. pose proof (bh_valid _ _ _ Hh) as Hval.
  assert (core (node s' h) = core (set_refcnt (b_refcnt (node s h) - 1) (set_lock initsleeplock (node s h)))) as Hch.
  { rewrite Hcore, Hn2. by rewrite decide_True. }
  pose proof (core_eq _ _ Hch) as (E1 & _ & E3 & E4 & E5 & E6 & E7).
  simpl in E1, E3, E4, E5, E6, E7.
  assert (changes s s' h k) as Hchg.
  { split; try done.
    - intros j _ Hj. rewrite Hcore, Hn2. by rewrite decide_False.
    - rewrite (owns_core _ _ _ Hch). done.
    - by left.
    - intros. by rewrite Hd, Hd2.
    - split; rewrite ?E1, ?E3, ?E4, ?E5, ?E6, ?E7; simpl; try lia; try done.
      + intros _. by apply owns_iff in Hown as [? _].
      + intros Hz _ _. rewrite <- Ev, Eb, Hd, Hd2. apply Hclean. lia. }
  split; [by eapply ch_inv|]. split.
  - rewrite (ch_abs s s' h k Hinv Hchg). rewrite E1, E5, E6, E7, Hd, Hd2, Hval, <- Ev, <- Er.
    repeat split; try done; [intros; apply upd_id|]. cbn [c_nref c_brelse].
    unfold used. rewrite E6, <- Er. rewrite <- Er in Hrng. repeat bcase; simpl; lia.
  - intros j h' Hh' Hpos. eapply ch_handles; [exact Hchg | done|].
    destruct (decide (h' = h)) as [->|]; [right | by left]. rewrite E1. split; [|done].
    pose proof (bh_own _ _ _ Hh') as Hown'. assert (j = k) as -> by (apply owns_iff in Hown as [_ ?], Hown' as [_ ?]; congruence).
    destruct (ch_abs s s' h k Hinv Hchg) as (Hra & _). rewrite Hra in Hpos. cbn [c_ref] in Hpos.
    by rewrite upd_eq in Hpos.
Qed.

Lemma bio_brelse_ok s k h :
  bio_inv s -> bio_handle s k h -> c_lock (bio_abs s) k = Some pid ->
  (c_ref (bio_abs s) k = 1 -> c_view (bio_abs s) k = c_disk (bio_abs s) k) ->
  exists s', brelse pid (Some h) s = Ret tt s' /\ bio_inv s' /\ bio_abs s' ≡ c_brelse k (bio_abs s)
    /\ (forall j h', bio_handle s j h' -> 0 < c_ref (bio_abs s') j -> bio_handle s' j h').
Proof.
  intros Hinv Hh Hlk Hclean. destruct (handle_abs s k h Hinv Hh) as (Er & El & Ev & Eb & Hrng).
  pose proof (bh_lt _ _ _ Hh) as Hlt. pose proof (bh_valid _ _ _ Hh) as Hval.
  unfold brelse. rewrite (mthen_ret _ _ _ _ _ (validate_run s h Hlt ltac:(lia))). cbv beta iota zeta delta [negb].
  rewrite (mthen_ret _ _ _ (node s h) s) by done.
  rewrite (proj2 (holdingsleep_holder _)) by congruence. cbv iota.
  rewrite !(mthen_ret _ _ _ _ _ (bcount_run _ _)). unfold setb, skip. monad.
  set (nb := set_refcnt (b_refcnt (node s h) - 1) (set_lock initsleeplock (node s h))).
  change (default 0%nat (Some h)) with h.
  set (s2 := upd_node h _ (upd_node h _ _)).
  assert (only s h nb s2) as Ho.
  { unfold nb, s2. rewrite <- (u32_small (b_refcnt (node s h) - 1)) by lia.
    apply (only_upd s h (set_lock initsleeplock (node s h)) _ (fun n => set_refcnt (u32 (b_refcnt n - 1)) n)); [lia|].
    apply (only_upd s h (node s h) _ (fun n => set_lock (releasesleep (b_lock n)) n)); [lia|].
    apply (only_stats s h _ s _), only_refl, Hinv. }
  pose proof (only_node _ _ _ _ Ho) as Hn. rewrite Hn. cbn [b_refcnt nb set_refcnt].
  destruct (Z.ltb_spec (b_refcnt (node s h) - 1) 0); [lia|].
  destruct (Z.eqb_spec (b_refcnt (node s h) - 1) 0) as [Hz|Hz].
  - destruct (brelse_front s s2 h nb Hinv Hlt Ho) as (Hf1 & Hf2 & Hf3 & Hf4); [done..|].
    eexists. split; [reflexivity|]. by apply (brelse_effect s s2 _ k h).
  - eexists. split; [reflexivity|]. apply (brelse_effect s s2 _ k h); try done; [apply Ho|].
    destruct Ho as (_ & _ & Hj). eapply ring_ext; [..|exact (bi_ring s Hinv)]; intros j; rewrite Hj; case_decide; by subst.
Qed.
End Refine.

(** ** The instance *)

#[global] Instance bio_ops (pid : Z) : CacheOps bio_st nat := {|
  bc_bread := bread pid;
  bc_bwrite h := bwrite pid (Some h);
  bc_brelse h := brelse pid (Some h);
  bc_bpin h := bpin (Some h);
  bc_bunpin h := bunpin (Some h);
  bc_data h s := b_data (node s h);
  bc_set_data := write_data;
  bc_blockno h s := b_blockno (node s h) |}.

#[global] Instance bio_cache (dev pid : Z) : @BlockCache bio_st nat (bio_ops pid) dev pid.
Proof.
  refine (@Build_BlockCache bio_st nat (bio_ops pid) dev pid (bio_inv dev) (bio_abs dev) (bio_handle dev)
    _ _ _ _ _ _ _ _ _ _ _).
  - intros s k Hi _. by apply bio_bread_ok.
  - apply bio_bread_full.
  - apply bio_bwrite_ok.
  - apply bio_brelse_ok.
  - apply bio_bpin_ok.
  - apply bio_bunpin_ok.
  - intros s k h Hi Hh. by destruct (handle_abs dev s k h Hi Hh) as (_ & _ & -> & _).
  - intros s k h Hi Hh. by destruct (handle_abs dev s k h Hi Hh) as (_ & _ & _ & ? & _).
  - intros s k h b. apply bio_set_ok.
  - intros s k Hi. simpl. destruct (slot_cases dev s k) as [(i & -> & Hl & _)|[-> _]]; [|done].
    apply (bi_buf dev s Hi i Hl).
  - intros s k h Hi Hh. destruct (handle_abs dev s k h Hi Hh) as (-> & _ & _ & _ & ?). lia.
Defined.

(** ** Initialisation *)

Definition fresh (n : buf) : buf :=
  set_lock initsleeplock (set_refcnt 0 (set_valid 0 (set_blockno 0 (set_dev 0 n)))).

Lemma binit_buf_node s b j :
  bio_len s -> (b < HEAD)%nat -> (nx s HEAD <= HEAD)%nat -> nx s HEAD <> b ->
  node (binit_buf s b) j = (if decide (j = b) then fresh (node (link_front b s) b) else node (link_front b s) j).
Proof.
  intros Hlen Hb Hn Hne. unfold binit_buf, link_front. unfold nx in *.
  set (n := b_next (node s HEAD)) in *.
  set (s1 := upd_node b _ (upd_node b _ s)). set (s2 := upd_node b (set_lock initsleeplock) s1).
  assert (Hl1 : bio_len s1) by (unfold s1; auto with kernel).
  assert (Hl2 : bio_len s2) by (unfold s2; auto with kernel).
  assert (H1 : b_next (node s1 HEAD) = n).
  { unfold s1. rewrite !node_upd by (auto with kernel; lia). rewrite !decide_False by lia. done. }
  assert (H2 : b_next (node s2 HEAD) = n).
  { unfold s2. rewrite !node_upd by (auto with kernel; lia). by rewrite !decide_False by lia. }
  rewrite H1, H2. unfold s2. rewrite !node_upd by (auto with kernel; lia).
  repeat case_decide; subst; try lia; done.
Qed.

(** After [n] iterations of the loop of [binit]. *)
Lemma binit_loop s n :
  bio_len s -> nx s HEAD = HEAD -> pv s HEAD = HEAD -> (n <= HEAD)%nat ->
  let s' := fold_left binit_buf (seq 0 n) s in
  bio_len s' /\ bio_disk s' = bio_disk s /\ linked (nx s') (pv s') HEAD (reverse (seq 0 n)) HEAD
  /\ forall j, (j < n)%nat -> core (node s' j) = core (fresh (node s' j)).
Proof.
  intros Hlen Hnx Hpv. induction n as [|n IH]; intros Hn s'.
  { unfold s'. simpl. repeat split; done || lia. }
  destruct (IH ltac:(lia)) as (Hl & Hd & Hk & Hf). clear IH.
  unfold s'. rewrite seq_S, fold_left_app, reverse_snoc. cbn [fold_left Nat.add].
  set (s0 := fold_left binit_buf (seq 0 n) s) in *. clear s'.
  assert (forall x, x ∈ reverse (seq 0 n) <-> (x < n)%nat) as Hin by (intros; rewrite elem_of_reverse, elem_of_seq; lia).
  assert (NoDup (HEAD :: reverse (seq 0 n))) as Hnd.
  { constructor; [rewrite Hin; lia|]. rewrite reverse_Permutation. apply NoDup_seq. }
  destruct (link_front_spec s0 (reverse (seq 0 n)) n Hl Hk Hnd) as (Hl1 & Hk1 & Hc1 & Hd1).
  { rewrite elem_of_cons, Hin. lia. } { intros i. rewrite elem_of_cons, Hin. lia. }
  assert (nx s0 HEAD <= HEAD /\ nx s0 HEAD <> n)%nat as [Hle Hne].
  { apply linked_next_in in Hk. rewrite elem_of_app, Hin, list_elem_of_singleton in Hk. lia. }
  assert (forall j, node (binit_buf s0 n) j = if decide (j = n) then fresh (node (link_front n s0) n) else node (link_front n s0) j) as Hb
    by (intros; by apply binit_buf_node).
  split; [unfold binit_buf; eauto 10 with kernel|].
  split; [unfold binit_buf; by rewrite !upd_node_disk|]. split.
  - eapply linked_ext; [..|exact Hk1]; intros i _; [unfold nx at 1 | unfold pv at 1]; rewrite Hb; case_decide; by subst.
  - intros j Hj. rewrite Hb. case_decide as Hjn; [done|]. pose proof (Hf j ltac:(lia)) as Hfj.
    rewrite Hc1, Hfj. pose proof (core_eq _ _ (Hc1 j)) as (_ & E & _ & _ & _ & _ & E'). unfold core. simpl. by rewrite E, E'.
Qed.

Lemma binit_ok dev s :
  dev <> 0 -> bio_len s ->
  bio_inv dev (binit s) /\ bio_disk (binit s) = bio_disk s
  /\ forall j, (j < HEAD)%nat -> core (node (binit s) j) = core (fresh (node (binit s) j)).
Proof.
  intros Hdev Hlen. unfold binit. set (s0 := BioSt _ _ _ _).
  set (s1 := upd_node HEAD (set_next HEAD) _).
  assert (bio_len s1) as Hl1 by (unfold s1; auto with kernel).
  assert (node s1 HEAD = set_next HEAD (set_prev HEAD (node s0 HEAD))) as Hh.
  { unfold s1. rewrite !node_upd by (auto with kernel). by rewrite !decide_True. }
  destruct (binit_loop s1 HEAD Hl1) as (Hl & Hd & Hk & Hf); [unfold nx; by rewrite Hh | unfold pv; by rewrite Hh | lia |].
  set (s' := fold_left _ _ _) in *. clearbody s'.
  assert (bio_disk s1 = bio_disk s) as Hd1 by (unfold s1; by rewrite !upd_node_disk).
  split; [|split; [congruence|done]].
  assert (forall j, (j < HEAD)%nat -> b_dev (node s' j) = 0 /\ b_refcnt (node s' j) = 0 /\ slk_locked (b_lock (node s' j)) = false) as Hz.
  { intros j Hj. pose proof (core_eq _ _ (Hf j Hj)) as (_ & _ & -> & _ & -> & -> & _). done. }
  split; [done | | |].
  - exists (reverse (seq 0 HEAD)). split; [apply reverse_Permutation | done].
  - intros i j Hi Hj E. destruct (Hz i Hi) as (? & _). congruence.
  - intros i Hi. destruct (Hz i Hi) as (Z1 & Z2 & Z3). split; intros; try done; try lia; congruence.
Qed.

Lemma binit_abs dev s :
  dev <> 0 -> bio_len s -> d_writes (bio_disk s) = [] ->
  bio_abs dev (binit s) ≡ c_boot (d_blocks (bio_disk s)).
Proof.
  intros Hdev Hlen Hw. destruct (binit_ok dev s Hdev Hlen) as (Hi & Hd & Hf).
  revert Hi Hd Hf. generalize (binit s). intros s' Hi Hd Hf.
  assert (forall k, slot dev s' k = None) as Hs.
  { intros k. apply slot_none. intros i Hl. pose proof (core_eq _ _ (Hf i Hl)) as (_ & _ & E & _).
    apply andb_false_iff. left. apply Z.eqb_neq. rewrite E. simpl. congruence. }
  split; [intros k; simpl; by rewrite Hs|]. split; [intros k; simpl; by rewrite Hs|].
  split; [intros k; simpl; by rewrite Hs, Hd|]. split; [intros k; simpl; by rewrite Hd|].
  split; [simpl; by rewrite Hd|]. cbn [c_nref bio_abs c_boot].
  rewrite (count_ext _ (fun _ => false)); [by vm_compute|].
  intros i Hin%elem_of_seq. unfold used. by pose proof (core_eq _ _ (Hf i ltac:(lia))) as (_ & _ & _ & _ & _ & -> & _).
Qed.


(** ** Properties *)

(** C3: the buffer cache refines its contract.  From [binit], every sequence
    of [bread], data assignments, [bwrite], [brelse], [bpin] and [bunpin] that
    keeps the client's side of the contract runs on bio.c without a panic or a
    sleep, and leaves the view (contents, disk, order of disk writes,
    references and locks) that the contract says. *)
Theorem bio_refines_contract dev pid s ops a :
  dev <> 0 -> length (bcache_buf s) = HEAD -> d_writes (bio_disk s) = [] ->
  spec_run pid ops (c_boot (d_blocks (bio_disk s))) = Some a ->
  exists hs s', run_ops (H := nat) (H0 := bio_ops pid) dev ops ∅ (binit s) = Ret hs s' /\ bio_abs dev s' ≡ a.
Proof.
  intros Hdev Hlen Hw Hspec. destruct (binit_ok dev s Hdev Hlen) as (Hi & _ & _).
  assert (sim (BC := bio_cache dev pid) (binit s) ∅ (c_boot (d_blocks (bio_disk s)))) as Hs.
  { split; [exact Hi | by apply binit_abs | done | intros k Hk; simpl in Hk; lia]. }
  destruct (sim_run (BC := bio_cache dev pid) ops _ _ _ a Hs Hspec) as (hs & s' & Hrun & Hs').
  exists hs, s'. split; [exact Hrun | exact (sim_abs _ _ _ Hs')].
Qed.

Definition blank_cache (d : disk_t) : bio_st :=
  BioSt (replicate HEAD inhabitant) inhabitant zero_counters d.

Lemma bio_refines_contract_witness :
  exists hs s',
    run_ops (H := nat) (H0 := bio_ops 7) 1
      [OpBread 5; OpSet 5 [42]; OpBpin 5; OpBwrite 5; OpBrelse 5; OpBread 5] ∅
      (binit (blank_cache (Disk (fun _ => [0]) []))) = Ret hs s'
    /\ d_writes (bio_disk s') = [(5, [42])].
Proof.
  destruct (bio_refines_contract 1 7 (blank_cache (Disk (fun _ => [0]) []))
    [OpBread 5; OpSet 5 [42]; OpBpin 5; OpBwrite 5; OpBrelse 5; OpBread 5] _
    ltac:(lia) eq_refl eq_refl eq_refl) as (hs & s' & Hrun & (_ & _ & _ & _ & Ht & _)).
  exists hs, s'. split; [exact Hrun | exact Ht].
Defined.

(** replacement policy.  Reading a block that no buffer holds recycles
    the unreferenced buffer furthest from the head of the list, and panics
    when every buffer is referenced. *)
Theorem bread_recycles_lru dev pid s l k :
  bio_inv dev s -> Permutation l (seq 0 HEAD) -> linked (nx s) (pv s) HEAD l HEAD -> slot dev s k = None ->
  match find (fun b => b_refcnt (node s b) =? 0) (reverse l) with
  | Some b => exists s', bread pid dev k s = Ret b s' /\ b_data (node s' b) = d_blocks (bio_disk s) k
                /\ b_refcnt (node s' b) = 1
                /\ forall j, (j < HEAD)%nat -> j <> b -> node s' j = node s j
  | None => bread pid dev k s = Panic "bget: no buffers"
  end.
Proof.
  intros Hinv Hp Hl Hs. pose proof (find_lru_spec s l Hp Hl) as Hf.
  destruct (find_lru_cases dev s Hinv) as [(b & Hf' & Hb & Hr)|[Hf' Hall]];
    pose proof Hf' as He; rewrite Hf in He; injection He as ->.
  - pose proof (bo_free dev s b (bi_buf dev s Hinv b Hb) Hr) as Hul.
    destruct (bget_miss dev pid s (incr bread_calls (bio_stats s)) k b Hinv Hs Hf' Hb Hul) as (s1 & Hg & Ho1).
    destruct (bread_of_bget dev pid s k b _ s1 Hg Ho1 Hb ltac:(simpl; lia)) as (s' & Hrd & Ho').
    exists s'. split; [done|]. rewrite (only_node _ _ _ _ Ho'). split; [done|]. split; [done|].
    intros j _ Hj. destruct Ho' as (_ & _ & ->). by rewrite decide_False.
  - apply bio_bread_full; [done | simpl; by rewrite Hs |]. cbn [c_nref bio_abs].
    rewrite (count_ext _ (fun _ => true)); [by vm_compute|]. intros x ?%elem_of_seq. apply Hall. lia.
Qed.

Lemma bread_recycles_lru_witness :
  exists s', bread 7 1 5 (binit (blank_cache (Disk (fun _ => [9]) []))) = Ret 0%nat s'
    /\ b_data (node s' 0) = [9].
Proof.
  set (s := binit (blank_cache (Disk (fun _ => [9]) []))).
  assert (Hi : bio_inv 1 s) by (apply binit_ok; [lia | reflexivity]).
  assert (Hl : linked (nx s) (pv s) HEAD (reverse (seq 0 HEAD)) HEAD) by (vm_compute; repeat split).
  pose proof (bread_recycles_lru 1 7 s (reverse (seq 0 HEAD)) 5 Hi (reverse_Permutation _) Hl eq_refl) as Hr.
  rewrite reverse_involutive in Hr. change (find _ (seq 0 HEAD)) with (Some 0%nat) in Hr.
  destruct Hr as (s' & Hrun & Hd & _). exists s'. split; [exact Hrun | exact Hd].
Defined.

(** the [negative refcnt] checks of bio.c are dead.  [refcnt] is
    unsigned, so [bunpin] of an unreferenced buffer does not panic: it wraps
    the count to 2^32 - 1. *)
Theorem bunpin_wraps s i :
  bio_len s -> (i < HEAD)%nat -> b_refcnt (node s i) = 0 ->
  exists s', bunpin (Some i) s = Ret tt s' /\ b_refcnt (node s' i) = 2 ^ 32 - 1.
Proof.
  intros Hlen Hi Hr. unfold bunpin. rewrite (mthen_ret _ _ _ _ _ (validate_run s i Hi ltac:(lia))).
  cbv beta iota zeta delta [negb]. unfold setb, bcount. monad. change (default 0%nat (Some i)) with i.
  pose proof (only_upd s i _ s (fun n => set_refcnt (u32 (b_refcnt n - 1)) n) ltac:(lia) (only_refl s i Hlen)) as Ho.
  rewrite (only_node _ _ _ _ Ho). cbn [b_refcnt set_refcnt]. rewrite Hr. change (u32 (0 - 1) <? 0) with false. cbv iota.
  eexists. split; [reflexivity|]. pose proof (only_node _ _ _ _ Ho) as Hn. unfold node in *. simpl in *.
  rewrite Hn. simpl. by rewrite Hr.
Qed.

Lemma bunpin_wraps_witness :
  exists s', bunpin (Some 3%nat) (binit (blank_cache (Disk (fun _ => []) []))) = Ret tt s'
    /\ b_refcnt (node s' 3) = 2 ^ 32 - 1.
Proof. apply bunpin_wraps; [reflexivity | vm_compute; lia | reflexivity]. Defined.
