(* ===== verification/LogSpec.v ===== *)
(** What the log guarantees to the file system, for any buffer cache that
    keeps the contract of [BlockCache], with instances on bio.c. *)

From S2P Require Import Prelude.
From S2P Require Import Bytes.
From S2P Require Import BlockCache.
From S2P Require Import Log.
From S2P Require Import LogProof.
From S2P Require Import LogCrash.
From S2P Require Import LogTx.
From S2P Require Import LogSpace.
From S2P Require Import Bio.
From S2P Require Import BioRefine.

Section Spec.
Context {S H : Type} `{BC : BlockCache S H dev pid}.
Implicit Type (l : log_st S) (a : cache).

(** Contents of the disk under a log. *)
Definition disk_of l : Z -> block := c_disk (bc_abs (lg_cache l)).
Definition trace_of l : list (Z * block) := c_trace (bc_abs (lg_cache l)).

(** A system that has just booted on the disk [d]. *)
Record booted l (d : Z -> block) : Prop := {
  bt_inv : bc_inv (lg_cache l);
  bt_abs : bc_abs (lg_cache l) ≡ c_boot d;
  bt_len : length (lg_block l) = 30%nat }.

Lemma boot_idle d : idle (c_boot d).
Proof. by split. Qed.

Lemma initlog_run l d start :
  booted l d -> recoverable start d ->
  exists l' bs, initlog dev start l = Ret tt l'
    /\ let ws := logged start d ++ [(start, enc_head 0 bs (d start))] in
       (forall k, disk_of l' k = apply_writes d ws k) /\ trace_of l' = ws.
Proof.
  intros [Hi Ha Hl] Hr. pose proof (rc_layout _ _ Hr) as [L1 L2 _ _ _].
  unfold initlog. change (BSIZE <=? sizeof_logheader) with false. cbv iota.
  rewrite i32_small by (unfold LOGBLOCKS, MAXOPBLOCKS in *; lia).
  set (l1 := LogSt S start (lg_outstanding l) (lg_committing l) dev (lg_n l) (lg_block l) (lg_cache l)).
  rewrite (mthen_ret (modify _) _ _ tt l1 eq_refl).
  assert (on l1 (c_boot d)) as Ho by (by split).
  destruct (recover_run l1 (c_boot d) Ho (boot_idle d) Hl Hr) as (l2 & a2 & R2 & O2 & _ & _ & _ & _ & _ & _ & bs & D2 & T2).
  exists l2, bs. split; [done|]. destruct O2 as [_ _ (_ & _ & _ & Hd & Ht & _)].
  split; [intros k; unfold disk_of; by rewrite Hd, D2 | unfold trace_of; by rewrite Ht, T2].
Qed.

Lemma initlog_home l d start f :
  booted l d -> recovers_to start d f ->
  exists l', initlog dev start l = Ret tt l' /\ forall k, ~ in_log start k -> disk_of l' k = f k.
Proof.
  intros Hb [Hr Hf]. destruct (initlog_run l d start Hb Hr) as (l' & bs & R & Hd & _). exists l'. split; [done|].
  intros k Hk. rewrite Hd, apply_writes_app. simpl. rewrite upd_ne; [by apply Hf|]. intros ->. apply Hk. inlog.
Qed.

(** C1: crash atomicity.  Run a file-system operation that writes the blocks
    [ws] in a transaction, and crash after any number [m] of the disk writes
    it makes.  After reboot and [initlog] the blocks outside the log are all
    as before the operation, or all as after it. *)
Theorem transaction_crash_atomic l a ws :
  log_ready l a -> Forall (home_write (lg_start l)) ws -> (length ws <= 10)%nat ->
  exists l' tr, transaction ws l = Ret tt l' /\ trace_of l' = c_trace a ++ tr
    /\ forall m l2, booted l2 (apply_writes (c_disk a) (take m tr)) ->
       exists l3, initlog dev (lg_start l) l2 = Ret tt l3
         /\ ((forall k, ~ in_log (lg_start l) k -> disk_of l3 k = c_disk a k)
             \/ (forall k, ~ in_log (lg_start l) k -> disk_of l3 k = apply_writes (c_disk a) ws k)).
Proof.
  intros Hr Hw Hn. destruct (transaction_run l a ws Hr Hw Hn) as (l' & a' & tr & R & Hr' & _ & Ht & _ & Hc).
  exists l', tr. split; [done|]. split.
  { destruct (lr_on _ _ Hr') as [_ _ (_ & _ & _ & _ & E & _)]. unfold trace_of. by rewrite E. }
  intros m l2 Hb. destruct (Hc m) as [Hold|Hnew].
  - destruct (initlog_home l2 _ _ _ Hb Hold) as (l3 & ? & ?). eauto.
  - destruct (initlog_home l2 _ _ _ Hb Hnew) as (l3 & ? & ?). eauto.
Qed.

(** C2: durability.  When the operation returns, its writes are on the disk,
    the log is ready for the next transaction, and a crash at that point
    loses nothing. *)
Theorem transaction_durable l a ws :
  log_ready l a -> Forall (home_write (lg_start l)) ws -> (length ws <= 10)%nat ->
  exists l' a', transaction ws l = Ret tt l' /\ log_ready l' a'
    /\ (forall k, ~ in_log (lg_start l) k -> disk_of l' k = apply_writes (c_disk a) ws k)
    /\ forall l2, booted l2 (c_disk a') ->
       exists l3, initlog dev (lg_start l) l2 = Ret tt l3
         /\ forall k, ~ in_log (lg_start l) k -> disk_of l3 k = apply_writes (c_disk a) ws k.
Proof.
  intros Hr Hw Hn. destruct (transaction_run l a ws Hr Hw Hn) as (l' & a' & tr & R & Hr' & Hs & _ & Hd & _).
  exists l', a'. split; [done|]. split; [done|]. split.
  { destruct (lr_on _ _ Hr') as [_ _ (_ & _ & _ & E & _)]. intros k Hk. unfold disk_of. rewrite E. by apply Hd. }
  intros l2 Hb. apply (initlog_home l2 (c_disk a') _ _ Hb).
  destruct Hr' as [_ _ _ _ _ _ Hs0 He Hclr _]. rewrite Hs in *.
  destruct (recoverable_clear (lg_start l) (c_disk a') Hs0 He Hclr) as [Hrec Hlog]. split; [done|].
  intros k Hk. rewrite Hlog. by apply Hd.
Qed.

(** C14: recovery is idempotent.  Crash in the middle of [initlog], after any
    number [m] of its disk writes, and boot again: the blocks outside the log
    are those an undisturbed recovery leaves. *)
Theorem recovery_crash_idempotent l d start :
  booted l d -> recoverable start d -> length (d start) = 1024%nat ->
  exists l', initlog dev start l = Ret tt l'
    /\ forall m l2, booted l2 (apply_writes d (take m (trace_of l'))) ->
       exists l3, initlog dev start l2 = Ret tt l3
         /\ forall k, ~ in_log start k -> disk_of l3 k = disk_of l' k.
Proof.
  intros Hb Hr Hlen. destruct (initlog_run l d start Hb Hr) as (l' & bs & R & Hd & Ht).
  exists l'. split; [done|]. intros m l2 Hb2. rewrite Ht in Hb2.
  destruct (initlog_home l2 _ start _ Hb2 (recovery_prefix start d bs m Hr Hlen)) as (l3 & R3 & H3).
  exists l3. split; [done|]. intros k Hk. rewrite H3, Hd, apply_writes_app by done. simpl.
  rewrite upd_ne; [done|]. intros ->. apply Hk. inlog.
Qed.

(** a full log cannot be committed.  [NBUF] equals [LOGBLOCKS], so when a
    transaction has pinned [LOGBLOCKS] distinct blocks no buffer is left for
    the log block that [write_log] reads first, and the kernel panics. *)
Theorem full_log_commit_panics l a :
  on l a -> lg_n l = LOGBLOCKS -> c_nref a = NBUF -> 0 <= lg_start l -> lg_start l + LOGBLOCKS < 2 ^ 31 ->
  c_ref a (lg_start l + 1) = 0 -> commit l = Panic "bget: no buffers".
Proof.
  intros Ho Hn Hf Hs He Hr. destruct (on_view l a Ho) as (Vr & _ & _ & _ & Vn). destruct Ho as [Hd Hi _].
  unfold commit. rewrite (mthen_ret _ _ _ (lg_n l) l) by done. rewrite Hn. change (LOGBLOCKS >? 0) with true. cbv iota.
  unfold write_log. unfold mthen at 1.
  rewrite (mthen_ret _ _ _ (lg_n l) l) by done. rewrite Hn.
  change (Z.to_nat LOGBLOCKS) with (1 + 29)%nat. cbn [seq Nat.add mfor].
  unfold mthen at 1, write_log_one. rewrite (mthen_ret _ _ _ (lg_start l) l) by done.
  change (Z.of_nat 0) with 0. rewrite Z.add_0_r. unfold mthen at 1, log_bread.
  rewrite (mthen_ret _ _ _ dev l) by (unfold gets; by rewrite Hd).
  unfold cacheM, zoom. rewrite u32_small by (unfold LOGBLOCKS, MAXOPBLOCKS in *; lia).
  by rewrite (bc_bread_full (lg_cache l) (lg_start l + 1) Hi) by (rewrite ?Vr, ?Vn; done).
Qed.
End Spec.

(** ** Instances on bio.c *)

(** A booted system on disk [d], with the log at block [start]. *)
Definition bio_log (start n : Z) (bs : list Z) (s : bio_st) : log_st bio_st :=
  LogSt bio_st start 0 false 1 n bs s.
Definition boot_bio (d : Z -> block) : log_st bio_st :=
  bio_log 2 0 (replicate 30 0) (binit (blank_cache (Disk d []))).
Definition zero_disk : Z -> block := fun _ => replicate 1024 0.

Lemma boot_bio_booted d : booted (BC := bio_cache 1 7) (boot_bio d) d.
Proof.
  split; [|apply binit_abs; [lia | reflexivity..] | reflexivity].
  by apply (binit_ok 1 (blank_cache (Disk d [])) ltac:(lia) eq_refl).
Qed.

Lemma boot_bio_ready : log_ready (BC := bio_cache 1 7) (boot_bio zero_disk) (c_boot zero_disk).
Proof.
  destruct (boot_bio_booted zero_disk) as [Hi Ha _]. split; try reflexivity; [by split | by split | cbn; lia].
Qed.

Definition sample_writes : list (Z * block) := [(50, replicate 1024 1); (60, replicate 1024 2); (50, replicate 1024 3)].

Lemma sample_home : Forall (home_write 2) sample_writes.
Proof. repeat constructor; cbn; try lia; intros [_ Hle]; vm_compute in Hle; by apply Hle. Qed.

Lemma transaction_crash_atomic_witness :
  exists l' tr, transaction (H0 := bio_ops 7) sample_writes (boot_bio zero_disk) = Ret tt l'
    /\ forall m, exists l3,
       initlog (H0 := bio_ops 7) 1 2 (boot_bio (apply_writes zero_disk (take m tr))) = Ret tt l3
       /\ (disk_of (BC := bio_cache 1 7) l3 50 = replicate 1024 0 /\ disk_of (BC := bio_cache 1 7) l3 60 = replicate 1024 0
           \/ disk_of (BC := bio_cache 1 7) l3 50 = replicate 1024 3 /\ disk_of (BC := bio_cache 1 7) l3 60 = replicate 1024 2).
Proof.
  destruct (transaction_crash_atomic (BC := bio_cache 1 7) (boot_bio zero_disk) (c_boot zero_disk) sample_writes
    boot_bio_ready sample_home ltac:(vm_compute; lia)) as (l' & tr & Hrun & _ & Hc).
  exists l', tr. split; [exact Hrun|]. intros m. destruct (Hc m _ (boot_bio_booted _)) as (l3 & R3 & Hd).
  exists l3. split; [exact R3|].
  assert (~ in_log 2 50 /\ ~ in_log 2 60) as [H50 H60] by (split; intros [_ Hle]; vm_compute in Hle; by apply Hle).
  destruct Hd as [Hd|Hd]; [left | right]; rewrite !Hd by done; split; reflexivity.
Defined.

Lemma transaction_durable_witness :
  exists l', transaction (H0 := bio_ops 7) sample_writes (boot_bio zero_disk) = Ret tt l'
    /\ disk_of (BC := bio_cache 1 7) l' 50 = replicate 1024 3.
Proof.
  destruct (transaction_durable (BC := bio_cache 1 7) (boot_bio zero_disk) (c_boot zero_disk) sample_writes
    boot_bio_ready sample_home ltac:(vm_compute; lia)) as (l' & a' & Hrun & _ & Hd & _).
  exists l'. split; [exact Hrun|]. rewrite Hd; [reflexivity|]. intros [_ Hle]. vm_compute in Hle. by apply Hle.
Defined.

(** A committed transaction in the log: block 50 is to become all ones. *)
Definition committed_disk : Z -> block :=
  upd (upd zero_disk 2 (enc_head 1 [50] (replicate 1024 0))) 3 (replicate 1024 1).

Lemma recovery_crash_idempotent_witness :
  exists l', initlog (H0 := bio_ops 7) 1 2 (boot_bio committed_disk) = Ret tt l'
    /\ forall m, exists l3,
       initlog (H0 := bio_ops 7) 1 2 (boot_bio (apply_writes committed_disk (take m (trace_of (BC := bio_cache 1 7) l')))) = Ret tt l3
       /\ disk_of (BC := bio_cache 1 7) l3 50 = disk_of (BC := bio_cache 1 7) l' 50.
Proof.
  assert (Hr : recoverable 2 committed_disk).
  { split; [vm_compute; discriminate|]. change (log_count 2 committed_disk) with 1%nat.
    split; [lia | reflexivity | lia | |].
    - intros j Hj. assert (j = 0%nat) as -> by lia. vm_compute. split; [discriminate | reflexivity].
    - intros j Hj. assert (j = 0%nat) as -> by lia. intros [_ Hle]. vm_compute in Hle. by apply Hle. }
  destruct (recovery_crash_idempotent (BC := bio_cache 1 7) (boot_bio committed_disk) committed_disk 2
    (boot_bio_booted _) Hr ltac:(vm_compute; reflexivity)) as (l' & Hrun & Hc).
  exists l'. split; [exact Hrun|]. intros m. destruct (Hc m _ (boot_bio_booted _)) as (l3 & R3 & Hd).
  exists l3. split; [exact R3|]. apply Hd. intros [_ Hle]. vm_compute in Hle. by apply Hle.
Defined.

(** Thirty blocks read, pinned by the log and released. *)
Definition pin_ops : list cop :=
  flat_map (fun k => [OpBread (Z.of_nat k); OpBpin (Z.of_nat k); OpBrelse (Z.of_nat k)]) (seq 40 30).

Lemma full_log_commit_panics_witness :
  exists hs s, run_ops (H := nat) (H0 := bio_ops 7) 1 pin_ops ∅ (binit (blank_cache (Disk zero_disk []))) = Ret hs s
    /\ commit (H0 := bio_ops 7) (bio_log 2 30 (Z.of_nat <$> seq 40 30) s) = Panic "bget: no buffers".
Proof.
  destruct (boot_bio_booted zero_disk) as [Hi Ha _].
  assert (Hs0 : sim (BC := bio_cache 1 7) (binit (blank_cache (Disk zero_disk []))) ∅ (c_boot zero_disk)).
  { split; [exact Hi | exact Ha | done | intros k Hk; simpl in Hk; lia]. }
  destruct (spec_run 7 pin_ops (c_boot zero_disk)) as [a|] eqn:Hspec; [|vm_compute in Hspec; discriminate].
  destruct (sim_run (BC := bio_cache 1 7) pin_ops _ _ _ a Hs0 Hspec) as (hs & s & Hrun & Hs).
  exists hs, s. split; [exact Hrun|].
  assert (Hn : option_map c_nref (spec_run 7 pin_ops (c_boot zero_disk)) = Some 30) by (vm_compute; reflexivity).
  assert (Hr : option_map (fun a => c_ref a 3) (spec_run 7 pin_ops (c_boot zero_disk)) = Some 0) by (vm_compute; reflexivity).
  rewrite Hspec in Hn, Hr. injection Hn as Hn. injection Hr as Hr.
  apply (full_log_commit_panics (BC := bio_cache 1 7) (bio_log 2 30 (Z.of_nat <$> seq 40 30) s) a).
  - split; [reflexivity | exact (sim_inv _ _ _ Hs) | exact (sim_abs _ _ _ Hs)].
  - reflexivity.
  - rewrite Hn. reflexivity.
  - cbn. lia.
  - reflexivity.
  - exact Hr.
Defined.

