(* ===== verification/UserMem.v ===== *)
(** What the kernel relies on when it copies bytes to and from a process:
    [copyin] and [copyout] of src/kernel/vm.c for one byte at a time.

    [um_load u va] is [copyin(pagetable, &ch, va, 1)] and [um_store u va ch] is
    [copyout(pagetable, va, &ch, 1)], with [None] for a return value of -1. *)

From S2P Require Import Prelude.

Class UserMem (U : Type) := {
  um_load : U -> Z -> option Z;
  um_store : U -> Z -> Z -> option U;
  um_load_byte u va x : um_load u va = Some x -> 0 <= x < 256;
  um_store_load u va x u' : um_store u va x = Some u' -> um_load u' va = Some (u8 x);
  um_store_other u va x u' va' : um_store u va x = Some u' -> u64 va' <> u64 va -> um_load u' va' = um_load u va' }.

(** A flat memory with a predicate for the bytes the process may access. *)
Record flat_mem := FlatMem { fm_byte : Z -> Z; fm_ok : Z -> bool }.

#[global, program] Instance flat_user_mem : UserMem flat_mem := {|
  um_load u va := if fm_ok u (u64 va) then Some (u8 (fm_byte u (u64 va))) else None;
  um_store u va x :=
    if fm_ok u (u64 va)
    then Some (FlatMem (fun a => if a =? u64 va then u8 x else fm_byte u a) (fm_ok u)) else None |}.
Next Obligation. intros u va x. simpl. destruct (fm_ok u _); [|done]. intros [= <-]. apply u8_range. Qed.
Next Obligation.
  intros u va x u'. simpl. destruct (fm_ok u (u64 va)) eqn:E; [|done]. intros [= <-]. simpl.
  rewrite E, Z.eqb_refl. by rewrite (u8_small (u8 x)) by apply u8_range.
Qed.
Next Obligation.
  intros u va x u' va'. simpl. destruct (fm_ok u (u64 va)) eqn:E; [|done]. intros [= <-] Hne. simpl.
  by destruct (Z.eqb_spec (u64 va') (u64 va)).
Qed.

(** The bytes of a buffer in user memory, and a run of stores. *)
Definition load_bytes {U} `{UserMem U} (u : U) (va : Z) (n : nat) : option (list Z) :=
  mapM (fun i => um_load u (u64 (va + Z.of_nat i))) (seq 0 n).
