(* ===== verification/Pipe.v ===== *)
(** Pipes (src/kernel/pipe.c): a ring buffer with free-running 32-bit read and
    write counts.

    A call that has to wait stops with the work done so far: [PwBlocked i] is
    a writer asleep on [&pi->nwrite] after [i] bytes, which continues from [i]
    when it is woken up.  The pipe's lock makes each run atomic. *)

From S2P Require Import Prelude.
From S2P Require Import UserMem.

Definition PIPESIZE : Z := 512.

Record pipe := Pipe {
  pi_data : list Z;
  pi_nread : Z;
  pi_nwrite : Z;
  pi_readopen : bool;
  pi_writeopen : bool }.

(** The fields [pipealloc] sets in a fresh page. *)
Definition pipe_init (data : list Z) : pipe := Pipe data 0 0 true true.

(** [pipeclose]: the pipe, and whether its page is freed. *)
Definition pipeclose (pi : pipe) (writable : bool) : pipe * bool :=
  let pi := if writable
            then Pipe (pi_data pi) (pi_nread pi) (pi_nwrite pi) (pi_readopen pi) false
            else Pipe (pi_data pi) (pi_nread pi) (pi_nwrite pi) false (pi_writeopen pi) in
  (pi, negb (pi_readopen pi) && negb (pi_writeopen pi)).

(** [pi->data[pi->nwrite++ % PIPESIZE] = ch] *)
Definition pipe_put (ch : Z) (pi : pipe) : pipe :=
  Pipe (<[Z.to_nat (pi_nwrite pi mod PIPESIZE) := ch]> (pi_data pi)) (pi_nread pi) (u32 (pi_nwrite pi + 1))
    (pi_readopen pi) (pi_writeopen pi).
(** [ch = pi->data[pi->nread++ % PIPESIZE]] *)
Definition pipe_get (pi : pipe) : Z * pipe :=
  (pi_data pi !!! Z.to_nat (pi_nread pi mod PIPESIZE),
   Pipe (pi_data pi) (u32 (pi_nread pi + 1)) (pi_nwrite pi) (pi_readopen pi) (pi_writeopen pi)).

Inductive pw_result := PwDone (r : Z) | PwBlocked (i : nat).
Inductive pr_result := PrDone (r : Z) | PrBlocked.

Section Transfer.
Context {U : Type} `{UserMem U} (killed : bool).

(** The loop of [pipewrite] from index [i], with [fuel] bytes left. *)
Fixpoint pipewrite_loop (fuel : nat) (u : U) (addr : Z) (i : nat) (pi : pipe) : pw_result * pipe :=
  match fuel with
  | O => (PwDone (Z.of_nat i), pi)
  | S fuel' =>
      if negb (pi_readopen pi) || killed then (PwDone (-1), pi)
      else if pi_nwrite pi =? u32 (pi_nread pi + PIPESIZE) then (PwBlocked i, pi)
      else match um_load u (u64 (addr + Z.of_nat i)) with
           | None => (PwDone (Z.of_nat i), pi)
           | Some ch => pipewrite_loop fuel' u addr (i + 1) (pipe_put ch pi)
           end
  end.

(** [pipewrite(pi, addr, n)], or its continuation after a sleep at [i]. *)
Definition pipewrite (u : U) (addr n : Z) (i : nat) (pi : pipe) : pw_result * pipe :=
  pipewrite_loop (Z.to_nat (n - Z.of_nat i)) u addr i pi.

Fixpoint piperead_loop (fuel : nat) (u : U) (addr : Z) (i : nat) (pi : pipe) : Z * U * pipe :=
  match fuel with
  | O => (Z.of_nat i, u, pi)
  | S fuel' =>
      if pi_nread pi =? pi_nwrite pi then (Z.of_nat i, u, pi)
      else let '(ch, pi') := pipe_get pi in
           match um_store u (u64 (addr + Z.of_nat i)) ch with
           | None => (Z.of_nat i, u, pi')
           | Some u' => piperead_loop fuel' u' addr (i + 1) pi'
           end
  end.

Definition piperead (u : U) (addr n : Z) (pi : pipe) : pr_result * U * pipe :=
  if (pi_nread pi =? pi_nwrite pi) && pi_writeopen pi then
    if killed then (PrDone (-1), u, pi) else (PrBlocked, u, pi)
  else let '(r, u', pi') := piperead_loop (Z.to_nat n) u addr 0 pi in (PrDone r, u', pi').
End Transfer.

(** ** The pipe as a bounded queue *)

Definition pipe_len (pi : pipe) : Z := u32 (pi_nwrite pi - pi_nread pi).
Definition cell (pi : pipe) (j : Z) : Z := pi_data pi !!! Z.to_nat ((pi_nread pi + j) mod PIPESIZE).
Definition contents (pi : pipe) : list Z := (fun j => cell pi (Z.of_nat j)) <$> seq 0 (Z.to_nat (pipe_len pi)).

Record pipe_inv (pi : pipe) : Prop := {
  pp_len : length (pi_data pi) = 512%nat;
  pp_nread : 0 <= pi_nread pi < 2 ^ 32;
  pp_nwrite : 0 <= pi_nwrite pi < 2 ^ 32;
  pp_fill : pipe_len pi <= PIPESIZE }.

Lemma contents_length pi : Z.of_nat (length (contents pi)) = pipe_len pi.
Proof. unfold contents. rewrite length_fmap, length_seq. pose proof (u32_range (pi_nwrite pi - pi_nread pi)). unfold pipe_len. lia. Qed.

Lemma pipe_full pi : pipe_inv pi -> (pi_nwrite pi =? u32 (pi_nread pi + PIPESIZE)) = (pipe_len pi =? PIPESIZE).
Proof.
  intros [_ Hr Hw Hf]. unfold pipe_len, u32, PIPESIZE in *. apply eq_true_iff_eq. rewrite !Z.eqb_eq. dlia.
Qed.
Lemma pipe_empty pi : pipe_inv pi -> (pi_nread pi =? pi_nwrite pi) = (pipe_len pi =? 0).
Proof.
  intros [_ Hr Hw Hf]. unfold pipe_len, u32, PIPESIZE in *. apply eq_true_iff_eq. rewrite !Z.eqb_eq. dlia.
Qed.

Lemma pipe_put_spec pi ch :
  pipe_inv pi -> pipe_len pi < PIPESIZE ->
  pipe_inv (pipe_put ch pi) /\ contents (pipe_put ch pi) = contents pi ++ [ch]
  /\ pi_readopen (pipe_put ch pi) = pi_readopen pi /\ pi_writeopen (pipe_put ch pi) = pi_writeopen pi.
Proof.
  intros Hi Hlt. destruct Hi as [Hl Hr Hw Hf].
  assert (pipe_len (pipe_put ch pi) = pipe_len pi + 1) as Hlen.
  { unfold pipe_len, pipe_put, u32, PIPESIZE in *. simpl. dlia. }
  assert (0 <= pipe_len pi) by (apply u32_range).
  split; [split; simpl; rewrite ?length_insert; try done; [apply u32_range | lia]|]. split; [|done].
  unfold contents. rewrite Hlen. replace (Z.to_nat (pipe_len pi + 1)) with (S (Z.to_nat (pipe_len pi))) by lia.
  rewrite seq_S, fmap_app. f_equal.
  - apply list_fmap_ext. intros x j [-> Hj]%lookup_seq. unfold cell, pipe_put. simpl.
    rewrite list_lookup_total_insert_ne; [done|]. unfold pipe_len, PIPESIZE, u32 in *. dlia.
  - simpl. f_equal. unfold cell, pipe_put. cbn [pi_data pi_nread].
    rewrite Z2Nat.id by done.
    replace ((pi_nread pi + pipe_len pi) mod PIPESIZE) with (pi_nwrite pi mod PIPESIZE).
    + apply list_lookup_total_insert_eq. rewrite Hl. unfold PIPESIZE. dlia.
    + unfold pipe_len, PIPESIZE, u32. dlia.
Qed.

Lemma pipe_get_spec pi ch pi' :
  pipe_inv pi -> 0 < pipe_len pi -> pipe_get pi = (ch, pi') ->
  pipe_inv pi' /\ contents pi = ch :: contents pi'
  /\ pi_readopen pi' = pi_readopen pi /\ pi_writeopen pi' = pi_writeopen pi.
Proof.
  intros Hi Hpos [= <- <-]. destruct Hi as [Hl Hr Hw Hf].
  set (pi' := Pipe _ _ _ _ _).
  assert (pipe_len pi' = pipe_len pi - 1) as Hlen.
  { unfold pipe_len, pi', u32, PIPESIZE in *. simpl. dlia. }
  split; [split; simpl; try done; [apply u32_range | lia]|]. split; [|done].
  unfold contents. rewrite Hlen. replace (Z.to_nat (pipe_len pi)) with (S (Z.to_nat (pipe_len pi - 1))) by lia.
  cbn [seq]. rewrite fmap_cons. f_equal.
  - unfold cell. by rewrite Z.add_0_r.
  - rewrite <- fmap_S_seq, <- list_fmap_compose. apply list_fmap_ext. intros x j _. simpl. unfold cell, pi'. cbn [pi_data pi_nread].
    f_equal. f_equal. unfold u32, PIPESIZE. dlia.
Qed.

(** ** Transfers *)

Section Specs.
Context {U : Type} `{UserMem U}.

(** Byte [j] of the buffer at [addr]. *)
Definition ubyte (u : U) (addr : Z) (j : nat) : option Z := um_load u (u64 (addr + Z.of_nat j)).

Definition same_open (pi pi' : pipe) : Prop :=
  pi_readopen pi' = pi_readopen pi /\ pi_writeopen pi' = pi_writeopen pi.

(** The run appends to the queue the bytes [i .. i+k) of the buffer. *)
Lemma pipewrite_loop_appends killed fuel u addr i pi :
  pipe_inv pi ->
  let '(r, pi') := pipewrite_loop killed fuel u addr i pi in
  exists bs, pipe_inv pi' /\ same_open pi pi' /\ contents pi' = contents pi ++ bs
    /\ (length bs <= fuel)%nat
    /\ (forall j, (j < length bs)%nat -> ubyte u addr (i + j) = Some (bs !!! j))
    /\ match r with
       | PwBlocked i' => i' = (i + length bs)%nat /\ pipe_len pi' = PIPESIZE /\ (length bs < fuel)%nat
       | PwDone r => (r = Z.of_nat (i + length bs) /\ (length bs = fuel \/ ubyte u addr (i + length bs) = None))
                     \/ (r = -1 /\ bs = [] /\ (pi_readopen pi = false \/ killed = true))
       end.
Proof.
  revert i pi. induction fuel as [|fuel IH]; intros i pi Hi; cbn [pipewrite_loop].
  { exists []. rewrite app_nil_r. split; [done|]. split; [done|]. split; [done|]. split; [done|].
    split; [intros j Hj; simpl in Hj; lia|]. left. simpl. rewrite Nat.add_0_r. auto. }
  destruct (negb (pi_readopen pi) || killed) eqn:Hk.
  { exists []. rewrite app_nil_r. split; [done|]. split; [done|]. split; [done|]. split; [simpl; lia|].
    split; [intros j Hj; simpl in Hj; lia|]. right. split; [done|]. split; [done|].
    apply orb_true_iff in Hk as [Hk|Hk]; [left | by right]. by destruct (pi_readopen pi). }
  rewrite pipe_full by done. destruct (Z.eqb_spec (pipe_len pi) PIPESIZE) as [Hf|Hf].
  { exists []. rewrite app_nil_r. split; [done|]. split; [done|]. split; [done|]. split; [simpl; lia|].
    split; [intros j Hj; simpl in Hj; lia|]. simpl. split; [lia|]. split; [done|lia]. }
  destruct (um_load u (u64 (addr + Z.of_nat i))) as [ch|] eqn:Hch.
  2:{ exists []. rewrite app_nil_r. split; [done|]. split; [done|]. split; [done|]. split; [simpl; lia|].
      split; [intros j Hj; simpl in Hj; lia|]. left. simpl. rewrite Nat.add_0_r. auto. }
  destruct (pipe_put_spec pi ch Hi) as (Hi' & Hc & Ho1 & Ho2); [pose proof (pp_fill _ Hi); lia|].
  specialize (IH (i + 1)%nat (pipe_put ch pi) Hi').
  destruct (pipewrite_loop killed fuel u addr (i + 1) (pipe_put ch pi)) as [r pi'].
  destruct IH as (bs & I1 & (I2 & I3) & I4 & I5 & I6 & I7). exists (ch :: bs).
  split; [done|]. split; [split; congruence|]. split; [rewrite I4, Hc; by rewrite <- app_assoc|].
  split; [simpl; lia|]. split.
  - intros [|j] Hj; simpl in Hj; [by rewrite Nat.add_0_r|]. simpl. rewrite <- I6 by lia. f_equal. lia.
  - simpl length. replace (i + S (length bs))%nat with (i + 1 + length bs)%nat by lia. destruct r as [r|i'].
    + destruct I7 as [[-> I7]|(-> & -> & I7)]; [left; split; [done|]; destruct I7; [left; lia | by right]|].
      right. exfalso. rewrite Ho1 in I7. destruct I7 as [I7|I7]; rewrite I7 in Hk; [done | by rewrite orb_true_r in Hk].
    + destruct I7 as (-> & ? & ?). split; [done|]. split; [done|lia].
Qed.

(** The run removes the bytes [bs] from the queue and stores them from [i] on;
    a byte whose store fails is removed as well and ends the run. *)
Lemma piperead_loop_takes fuel u addr i pi :
  pipe_inv pi -> Z.of_nat (i + fuel) <= 2 ^ 31 ->
  exists u' pi' bs lost, piperead_loop fuel u addr i pi = (Z.of_nat (i + length bs), u', pi')
    /\ pipe_inv pi' /\ same_open pi pi' /\ contents pi = bs ++ lost ++ contents pi'
    /\ ((lost = [] /\ length bs = Nat.min fuel (length (contents pi)))
        \/ exists x, lost = [x] /\ (length bs < fuel)%nat /\ um_store u' (u64 (addr + Z.of_nat (i + length bs))) x = None)
    /\ (forall j, (j < length bs)%nat -> ubyte u' addr (i + j) = Some (u8 (bs !!! j)))
    /\ (forall j, (j < i)%nat -> ubyte u' addr j = ubyte u addr j).
Proof.
  intros Hi Hn. revert i u pi Hi Hn. induction fuel as [|fuel IH]; intros i u pi Hi Hn; cbn [piperead_loop].
  { exists u, pi, [], []. rewrite Nat.add_0_r. split_and!; try done; [by left|intros; simpl in *; lia]. }
  rewrite pipe_empty by done. pose proof (contents_length pi) as Hcl.
  destruct (Z.eqb_spec (pipe_len pi) 0) as [He|He].
  { exists u, pi, [], []. rewrite Nat.add_0_r. split_and!; try done; [left; split; [done|cbn [length]; lia]|intros; simpl in *; lia]. }
  destruct (pipe_get pi) as [ch pi1] eqn:Hg.
  destruct (pipe_get_spec pi ch pi1 Hi) as (Hi1 & Hc & Ho1 & Ho2); [lia | done |].
  destruct (um_store u (u64 (addr + Z.of_nat i)) ch) as [u1|] eqn:Hs.
  2:{ exists u, pi1, [], [ch]. rewrite Nat.add_0_r. split_and!; try done; [|intros; simpl in *; lia].
      right. exists ch. split; [done|]. split; [simpl; lia|]. done. }
  destruct (IH (i + 1)%nat u1 pi1 Hi1 ltac:(lia)) as (u' & pi' & bs & lost & R & I1 & (I2 & I3) & I4 & I5 & I6 & I7).
  exists u', pi', (ch :: bs), lost. rewrite R. simpl length. replace (i + S (length bs))%nat with (i + 1 + length bs)%nat by lia.
  split; [done|]. split; [done|]. split; [split; congruence|]. split; [rewrite Hc, I4; done|]. split.
  { destruct I5 as [[-> I5]|(x & -> & I5 & I8)]; [left; rewrite Hc; simpl; split; [done|lia]|right; exists x; split_and!; [done|lia|done]]. }
  split.
  - intros [|j] Hj; simpl in Hj.
    + rewrite Nat.add_0_r, I7 by lia. simpl. by apply um_store_load in Hs.
    + simpl. rewrite <- I6 by lia. f_equal. lia.
  - intros j Hj. rewrite I7 by lia. unfold ubyte. eapply um_store_other; [exact Hs|]. unfold u64. dlia.
Qed.

(** ** Concurrent readers and writers *)

(** Number of bytes a run of [pipewrite] from index [i] transferred. *)
Definition pw_count (i : nat) (r : pw_result) : nat :=
  match r with
  | PwDone r => if r <? 0 then 0 else Z.to_nat r - i
  | PwBlocked i' => i' - i
  end.

(** What a finished read leaves with its caller: the memory it returned to, the
    address and size it asked for, and the return value. *)
Record read_end := ReadEnd { re_mem : U; re_addr : Z; re_n : Z; re_ret : Z }.

(** The state of a pipe, with all bytes writers handed to it and all reads so
    far.  A step is one atomic run of a writer or a reader, each with its own
    memory, or a close of either end. *)
Inductive pipe_step : pipe * list Z * list read_end -> pipe * list Z * list read_end -> Prop :=
| pstep_write killed u addr n i r pi pi' wr h bs :
    pipewrite killed u addr n i pi = (r, pi') ->
    length bs = pw_count i r ->
    (forall j, (j < length bs)%nat -> ubyte u addr (i + j) = Some (bs !!! j)) ->
    pipe_step (pi, wr, h) (pi', wr ++ bs, h)
| pstep_read killed u u' addr n r pi pi' wr h :
    n < 2 ^ 31 -> piperead killed u addr n pi = (PrDone r, u', pi') ->
    pipe_step (pi, wr, h) (pi', wr, h ++ [ReadEnd u' addr n r])
| pstep_block killed u u' addr n pi pi' wr h :
    piperead killed u addr n pi = (PrBlocked, u', pi') -> pipe_step (pi, wr, h) (pi', wr, h)
| pstep_close writable pi wr h : pipe_step (pi, wr, h) (fst (pipeclose pi writable), wr, h).

Inductive pipe_reachable : pipe -> list Z -> list read_end -> Prop :=
| preach_init data : length data = 512%nat -> pipe_reachable (pipe_init data) [] []
| preach_step pi wr h pi' wr' h' :
    pipe_reachable pi wr h -> pipe_step (pi, wr, h) (pi', wr', h') -> pipe_reachable pi' wr' h'.

(** The bytes [bs] are what the read's buffer holds. *)
Definition got (e : read_end) (bs : list Z) : Prop :=
  Z.of_nat (length bs) = Z.max 0 (re_ret e)
  /\ forall j, (j < length bs)%nat -> ubyte (re_mem e) (re_addr e) j = Some (bs !!! j).

(** A stream of bytes is what the buffers of the reads hold, in their order;
    after the bytes of a read that stopped because the next byte could not be
    stored, that one byte is missing from every buffer. *)
Inductive delivers : list read_end -> list Z -> Prop :=
| del_none : delivers [] []
| del_read h e bs l : delivers h l -> got e bs -> delivers (h ++ [e]) (l ++ bs)
| del_fault h e bs l x :
    delivers h l -> got e bs -> re_ret e < re_n e ->
    um_store (re_mem e) (u64 (re_addr e + Z.max 0 (re_ret e))) x = None ->
    delivers (h ++ [e]) (l ++ bs ++ [x]).

Lemma same_bytes u addr i (a b : list Z) :
  length a = length b ->
  (forall j, (j < length a)%nat -> ubyte u addr (i + j) = Some (a !!! j)) ->
  (forall j, (j < length b)%nat -> ubyte u addr (i + j) = Some (b !!! j)) -> a = b.
Proof.
  intros Hl Ha Hb. apply list_eq_same_length with (length a); [lia | done |].
  intros j x y Hj Hx Hy. specialize (Ha j Hj). specialize (Hb j ltac:(lia)).
  rewrite (list_lookup_total_correct _ _ _ Hx) in Ha. rewrite (list_lookup_total_correct _ _ _ Hy) in Hb. congruence.
Qed.

Definition pipe_ok (pi : pipe) (wr : list Z) (h : list read_end) : Prop :=
  pipe_inv pi /\ Forall (fun x => 0 <= x < 256) (contents pi) /\ exists l, delivers h l /\ wr = l ++ contents pi.

Lemma piperead_delivers killed u addr n pi r u' pi' wr h :
  n < 2 ^ 31 -> pipe_ok pi wr h -> piperead killed u addr n pi = (PrDone r, u', pi') ->
  pipe_ok pi' wr (h ++ [ReadEnd u' addr n r]).
Proof.
  intros Hn (Hi & Hb & l & Hl & Hw) Hrun. unfold piperead in Hrun. destruct (_ && _) eqn:Hg.
  { destruct killed; [|done]. injection Hrun as <- <- <-. split; [done|]. split; [done|]. exists l. split; [|done].
    rewrite <- (app_nil_r l). apply del_read; [done|]. split; [done|]. intros j Hj. simpl in Hj. lia. }
  destruct (piperead_loop_takes (Z.to_nat n) u addr 0 pi Hi ltac:(lia))
    as (u1 & pi1 & bs & lost & R & I1 & _ & Hc & I5 & I6 & _). rewrite R in Hrun. injection Hrun as <- <- <-.
  rewrite Hc in Hb. apply Forall_app in Hb as [Hb1 Hb2]. apply Forall_app in Hb2 as [_ Hb2].
  assert (got (ReadEnd u1 addr n (Z.of_nat (0 + length bs))) bs) as Hgot.
  { split; cbn [re_ret re_mem re_addr]; [lia|]. intros j Hj. specialize (I6 j Hj). cbn in I6. rewrite I6. f_equal. apply u8_small.
    rewrite Forall_lookup in Hb1. apply (Hb1 j). by apply list_lookup_lookup_total_lt. }
  split; [done|]. split; [done|]. exists (l ++ bs ++ lost). split; [|rewrite Hw, Hc; by rewrite !app_assoc].
  destruct I5 as [[-> _]|(x & -> & Hlt & Hs)].
  - rewrite app_nil_r. by apply del_read.
  - apply del_fault; [done|done|cbn [re_ret re_n]; lia|]. cbn [re_mem re_addr re_ret]. by rewrite Z.max_r by lia.
Qed.

Lemma pipe_step_ok pi wr h pi' wr' h' :
  pipe_ok pi wr h -> pipe_step (pi, wr, h) (pi', wr', h') -> pipe_ok pi' wr' h'.
Proof.
  intros Hok Hs. pose proof Hok as (Hi & Hb & l & Hl & Hw).
  inversion Hs as [killed u addr n i r ? ? ? ? bs Hrun Hlen Hby|killed u u' addr n r ? ? ? ? Hn Hrun
    |killed u u' addr n ? ? ? ? Hrun|writable ? ? ?]; subst; clear Hs.
  - unfold pipewrite in Hrun. pose proof (pipewrite_loop_appends killed (Z.to_nat (n - Z.of_nat i)) u addr i pi Hi) as Ha.
    rewrite Hrun in Ha. destruct Ha as (bs' & Hi' & _ & Hc & Hle & Hby' & Hr).
    assert (bs = bs') as ->.
    { eapply same_bytes; [|done..]. rewrite Hlen. destruct r as [r|i']; simpl.
      - destruct Hr as [[-> _]|(-> & -> & _)]; [|done]. destruct (Z.ltb_spec (Z.of_nat (i + length bs')) 0); lia.
      - destruct Hr as (-> & _). lia. }
    split; [done|]. rewrite Hc. split; [|exists l; split; [done|]; by rewrite app_assoc]. apply Forall_app. split; [done|].
    apply Forall_lookup. intros j x Hx. pose proof (lookup_lt_Some _ _ _ Hx) as Hlt. specialize (Hby' j Hlt).
    rewrite (list_lookup_total_correct _ _ _ Hx) in Hby'. by eapply um_load_byte.
  - by eapply piperead_delivers.
  - unfold piperead in Hrun. destruct (_ && _); [|destruct (piperead_loop _ _ _ _ _) as [[? ?] ?]; done].
    destruct killed; [done|]. injection Hrun as <- <-. done.
  - unfold pipe_ok. destruct writable; (split; [destruct Hi; by split | split; [done|by exists l]]).
Qed.

(** C16: a pipe is a FIFO channel.  However runs of writers (including those
    resumed after a sleep), readers and closes interleave, the bytes written
    are, in order, those the reads have put into their buffers followed by the
    bytes still in the pipe: nothing is duplicated or reordered, and nothing is
    lost but the one byte of a read whose copy to user memory failed.  The
    buffer never holds more than [PIPESIZE] bytes, also when the 32-bit counts
    wrap around. *)
Theorem pipe_fifo pi wr h :
  pipe_reachable pi wr h ->
  (exists l, delivers h l /\ wr = l ++ contents pi) /\ (length (contents pi) <= 512)%nat.
Proof.
  intros Hr. assert (pipe_ok pi wr h) as (Hi & _ & Hw).
  { induction Hr as [data Hl|]; [|by eapply pipe_step_ok]. split; [by split|]. split; [constructor|]. exists []. split; constructor. }
  split; [done|]. pose proof (contents_length pi). pose proof (pp_fill _ Hi). unfold PIPESIZE in *. lia.
Qed.

(** No lost wake-up between the two ends.  A writer goes to sleep only
    when the buffer is full, so the next reader gets bytes without sleeping;
    a reader goes to sleep only when it is empty, so the next writer with a
    byte to send transfers at least one. *)
Theorem pipe_progress pi :
  pipe_inv pi ->
  (forall u addr n i i' pi', pipewrite false u addr n i pi = (PwBlocked i', pi') ->
     forall u2 addr2 n2, 0 < n2 < 2 ^ 31 ->
     (forall u j x, um_store u (u64 (addr2 + Z.of_nat j)) x <> None) ->
     exists r u2' pi2, piperead false u2 addr2 n2 pi' = (PrDone r, u2', pi2) /\ 0 < r)
  /\ (forall u2 addr2 n2 u2' pi2, piperead false u2 addr2 n2 pi = (PrBlocked, u2', pi2) ->
     forall u addr n r pi3, pi_readopen pi = true -> 0 < n -> ubyte u addr 0 <> None ->
     pipewrite false u addr n 0 pi2 = (r, pi3) -> (0 < pw_count 0 r)%nat).
Proof.
  intros Hi. split.
  - intros u addr n i i' pi' Hw u2 addr2 n2 Hn Hst. unfold pipewrite in Hw.
    pose proof (pipewrite_loop_appends false (Z.to_nat (n - Z.of_nat i)) u addr i pi Hi) as Ha. rewrite Hw in Ha.
    destruct Ha as (bs & Hi' & _ & _ & _ & _ & _ & Hfull & _).
    unfold piperead. rewrite pipe_empty, Hfull by done. change (PIPESIZE =? 0) with false. cbn [andb].
    destruct (piperead_loop_takes (Z.to_nat n2) u2 addr2 0 pi' Hi' ltac:(lia))
      as (u3 & pi3 & bs3 & lost & R & _ & _ & _ & [[_ Hl]|(x & _ & _ & Hs)] & _); [|by apply Hst in Hs].
    rewrite R. eexists _, _, _. split; [reflexivity|]. pose proof (contents_length pi'). unfold PIPESIZE in *. lia.
  - intros u2 addr2 n2 u2' pi2 Hrd u addr n r pi3 Ho Hn Hby Hw. unfold piperead in Hrd. unfold pipewrite in Hw.
    destruct (_ && _) eqn:Hg; [|destruct (piperead_loop _ _ _ _ _) as [[? ?] ?]; done].
    injection Hrd as <- <-. apply andb_true_iff in Hg as [He _]. rewrite pipe_empty in He by done. apply Z.eqb_eq in He.
    pose proof (pipewrite_loop_appends false (Z.to_nat (n - 0)) u addr 0 pi Hi) as Ha.
    change (Z.of_nat 0) with 0 in Hw. rewrite Hw in Ha. destruct Ha as (bs & Hi' & _ & Hc & _ & _ & Hr).
    pose proof (contents_length pi) as C2. pose proof (contents_length pi3) as C3.
    rewrite Hc, length_app in C3. destruct r as [r|j]; simpl.
    + destruct Hr as [[-> [Hl|Hb]]|(-> & -> & [?|?])]; [| |congruence|done].
      * destruct (Z.ltb_spec (Z.of_nat (0 + length bs)) 0); lia.
      * destruct bs as [|b bs]; [by rewrite Nat.add_0_r in Hb|]. simpl. lia.
    + destruct Hr as (-> & Hfull & _). unfold PIPESIZE in *. lia.
Qed.

(** a byte is lost when its copy to the reader fails: [piperead] advances
    [nread] before [copyout], so a read into an unwritable buffer returns 0
    and drops the first byte of the pipe. *)
Theorem piperead_drops_byte pi u addr n :
  pipe_inv pi -> 0 < pipe_len pi -> 0 < n -> (forall x, um_store u (u64 (addr + 0)) x = None) ->
  exists ch pi', piperead false u addr n pi = (PrDone 0, u, pi') /\ contents pi = ch :: contents pi'.
Proof.
  intros Hi Hl Hn Hst. unfold piperead. rewrite pipe_empty by done. destruct (Z.eqb_spec (pipe_len pi) 0) as [?|Hz]; [lia|]. cbn [andb].
  destruct (Z.to_nat n) as [|fuel] eqn:Hf; [lia|]. cbn [piperead_loop]. rewrite pipe_empty by done.
  destruct (Z.eqb_spec (pipe_len pi) 0); [lia|]. destruct (pipe_get pi) as [ch pi'] eqn:Hg.
  destruct (pipe_get_spec pi ch pi' Hi Hl Hg) as (_ & Hc & _). change (Z.of_nat 0) with 0. rewrite Hst. eauto.
Qed.
End Specs.

(** ** Instances *)

Definition text_mem : flat_mem := FlatMem (fun a => a mod 256) (fun a => a <? 2000).

Module PipeDemo.
(** Three bytes written, two read into a buffer, and a read into memory that
    cannot be written, which loses the third. *)
Definition written : pipe := snd (pipewrite false text_mem 65 3 0 (pipe_init (replicate 512 0))).
Definition read1 : pr_result * flat_mem * pipe := piperead false text_mem 1000 2 written.
Definition read2 : pr_result * flat_mem * pipe := piperead false text_mem 3000 2 (snd read1).
Definition reads : list read_end :=
  [ReadEnd (snd (fst read1)) 1000 2 2; ReadEnd (snd (fst read2)) 3000 2 0].
Lemma demo_reachable : pipe_reachable (snd read2) [65; 66; 67] reads.
Proof.
  assert (pipe_reachable (U := flat_mem) written [65; 66; 67] []) as Hw.
  { eapply preach_step; [apply (preach_init (replicate 512 0)); reflexivity|].
    apply (pstep_write false text_mem 65 3 0 (PwDone 3) _ _ [] [] [65; 66; 67]); [reflexivity..|].
    intros [|[|[|j]]] Hj; [reflexivity..|]. simpl in Hj. lia. }
  change reads with (([] ++ [ReadEnd (snd (fst read1)) 1000 2 2]) ++ [ReadEnd (snd (fst read2)) 3000 2 0]).
  eapply preach_step; [eapply preach_step; [exact Hw|]|].
  - apply (pstep_read false text_mem (snd (fst read1)) 1000 2 2 written (snd read1)); [reflexivity|vm_compute; reflexivity].
  - apply (pstep_read false text_mem (snd (fst read2)) 3000 2 0 (snd read1) (snd read2)); [reflexivity|vm_compute; reflexivity].
Qed.
End PipeDemo.

Lemma pipe_fifo_witness :
  pipe_reachable (snd PipeDemo.read2) [65; 66; 67] PipeDemo.reads
  /\ load_bytes (snd (fst PipeDemo.read1)) 1000 2 = Some [65; 66] /\ contents (snd PipeDemo.read2) = []
  /\ exists l, delivers PipeDemo.reads l /\ [65; 66; 67] = l ++ contents (snd PipeDemo.read2).
Proof.
  split; [exact PipeDemo.demo_reachable|]. split; [vm_compute; reflexivity|]. split; [vm_compute; reflexivity|].
  exact (proj1 (pipe_fifo _ _ _ PipeDemo.demo_reachable)).
Defined.

Lemma pipe_inv_init data : length data = 512%nat -> pipe_inv (pipe_init data).
Proof. by split. Qed.

(** A memory in which every store succeeds. *)
#[program] Definition total_mem : UserMem (Z -> Z) := {|
  um_load u va := Some (u8 (u (u64 va)));
  um_store u va x := Some (fun a => if a =? u64 va then u8 x else u a) |}.
Next Obligation. intros u va x [= <-]. apply u8_range. Qed.
Next Obligation. intros u va x u' [= <-]. simpl. rewrite Z.eqb_refl. by rewrite (u8_small (u8 x)) by apply u8_range. Qed.
Next Obligation. intros u va x u' va' [= <-] Hne. simpl. by destruct (Z.eqb_spec (u64 va') (u64 va)). Qed.

Lemma pipe_progress_witness :
  exists r u2' pi2, piperead (H := total_mem) false (fun _ => 0) 0 10
    (snd (pipewrite (H := total_mem) false (fun _ => 7) 0 600 0 (pipe_init (replicate 512 0)))) = (PrDone r, u2', pi2) /\ 0 < r.
Proof.
  refine (proj1 (pipe_progress (H := total_mem) (pipe_init (replicate 512 0)) (pipe_inv_init (replicate 512 0) eq_refl))
    (fun _ => 7) 0 600 0%nat 512%nat _ _ (fun _ => 0) 0 10 ltac:(lia) ltac:(discriminate)).
  vm_compute. reflexivity.
Defined.

Lemma piperead_drops_byte_witness :
  exists ch pi', piperead false (FlatMem (fun _ => 0) (fun _ => false)) 0 10
      (pipe_put 65 (pipe_init (replicate 512 0))) = (PrDone 0, FlatMem (fun _ => 0) (fun _ => false), pi')
    /\ contents (pipe_put 65 (pipe_init (replicate 512 0))) = ch :: contents pi'.
Proof.
  apply piperead_drops_byte; [apply pipe_put_spec; [by apply pipe_inv_init | reflexivity] | reflexivity | lia | reflexivity].
Defined.
