(* ===== verification/TxStore.v ===== *)
(** The contract between the log and the file system: the operations fs.c
    calls inside a transaction, and what it relies on.

    [ts_view] is the contents of each block as the operation sees it.  An
    operation may hold a few buffers at a time, logs at most [MAXOPBLOCKS]
    distinct blocks, and logs every block it modifies before releasing it. *)

From S2P Require Import Prelude.
From S2P Require Import BlockCache.
From S2P Require Import Log.

Class TxOps (T H : Type) := {
  tx_bread : Z -> Z -> M T H;
  tx_brelse : H -> M T ();
  tx_log_write : H -> M T ();
  tx_data : H -> T -> block;
  tx_set_data : H -> block -> T -> T;
  tx_begin_op : M T ();
  tx_end_op : M T ();
  tx_initlog : Z -> Z -> M T () }.

(** The operations of log.c and bio.c. *)
#[global] Instance log_tx_ops {S H} `{CacheOps S H} : TxOps (log_st S) H := {|
  tx_bread dev k := cacheM (bc_bread dev (u32 k));
  tx_brelse h := cacheM (bc_brelse h);
  tx_log_write := log_write;
  tx_data h l := bc_data h (lg_cache l);
  tx_set_data h b l := set_cache (bc_set_data h b (lg_cache l)) l;
  tx_begin_op := begin_op;
  tx_end_op := end_op;
  tx_initlog := initlog |}.

(** Buffers an operation may hold at the same time. *)
Definition MAXHELD : nat := 4.

Class TxStore (T H : Type) `{TxOps T H} (dev : Z) := {
  ts_inv : T -> Prop;
  ts_view : T -> Z -> block;
  ts_held : T -> gset Z;
  ts_logged : T -> gset Z;
  ts_dirty : T -> gset Z;
  ts_handle : T -> Z -> H -> Prop;

  ts_bread_ok s k :
    ts_inv s -> 0 <= k < 2 ^ 31 -> k ∉ ts_held s -> (size (ts_held s) < MAXHELD)%nat ->
    exists h s', tx_bread dev k s = Ret h s' /\ ts_inv s' /\ (forall j, ts_view s' j = ts_view s j)
      /\ ts_held s' = ts_held s ∪ {[k]} /\ ts_logged s' = ts_logged s /\ ts_dirty s' = ts_dirty s
      /\ ts_handle s' k h /\ (forall j h', ts_handle s j h' -> ts_handle s' j h');
  ts_brelse_ok s k h :
    ts_inv s -> ts_handle s k h -> k ∈ ts_held s -> (k ∈ ts_dirty s -> k ∈ ts_logged s) ->
    exists s', tx_brelse h s = Ret tt s' /\ ts_inv s' /\ (forall j, ts_view s' j = ts_view s j)
      /\ ts_held s' = ts_held s ∖ {[k]} /\ ts_logged s' = ts_logged s /\ ts_dirty s' = ts_dirty s
      /\ (forall j h', j <> k -> ts_handle s j h' -> ts_handle s' j h');
  ts_log_write_ok s k h :
    ts_inv s -> ts_handle s k h -> k ∈ ts_held s -> (size (ts_logged s ∪ {[k]}) <= 10)%nat ->
    exists s', tx_log_write h s = Ret tt s' /\ ts_inv s' /\ (forall j, ts_view s' j = ts_view s j)
      /\ ts_held s' = ts_held s /\ ts_logged s' = ts_logged s ∪ {[k]} /\ ts_dirty s' = ts_dirty s
      /\ (forall j h', ts_handle s j h' -> ts_handle s' j h');
  ts_data_ok s k h : ts_inv s -> ts_handle s k h -> tx_data h s = ts_view s k;
  ts_set_ok s k h b :
    ts_inv s -> ts_handle s k h -> k ∈ ts_held s ->
    let s' := tx_set_data h b s in
    ts_inv s' /\ (forall j, ts_view s' j = upd (ts_view s) k b j)
      /\ ts_held s' = ts_held s /\ ts_logged s' = ts_logged s /\ ts_dirty s' = ts_dirty s ∪ {[k]}
      /\ (forall j h', ts_handle s j h' -> ts_handle s' j h') }.

(** ** An ideal store

    Blocks in memory: a reference implementation of the contract. *)

Record ideal := Ideal { id_view : Z -> block; id_held : gset Z; id_logged : gset Z; id_dirty : gset Z }.

#[global] Instance ideal_ops : TxOps ideal Z := {|
  tx_bread _ k s := if decide (k ∈ id_held s) then Sleep s
                    else Ret k (Ideal (id_view s) (id_held s ∪ {[k]}) (id_logged s) (id_dirty s));
  tx_brelse h s := if decide (h ∈ id_held s)
                   then Ret tt (Ideal (id_view s) (id_held s ∖ {[h]}) (id_logged s) (id_dirty s))
                   else Panic "brelse";
  tx_log_write h s := if decide (size (id_logged s ∪ {[h]}) <= 10)%nat
                      then Ret tt (Ideal (id_view s) (id_held s) (id_logged s ∪ {[h]}) (id_dirty s))
                      else Panic "too big a transaction";
  tx_data h s := id_view s h;
  tx_set_data h b s := Ideal (upd (id_view s) h b) (id_held s) (id_logged s) (id_dirty s ∪ {[h]});
  tx_begin_op s := Ret tt (Ideal (id_view s) (id_held s) ∅ ∅);
  tx_end_op s := Ret tt (Ideal (id_view s) (id_held s) ∅ ∅);
  tx_initlog _ _ s := Ret tt s |}.

#[global, program] Instance ideal_store dev : TxStore ideal Z dev := {|
  ts_inv _ := True;
  ts_view := id_view;
  ts_held := id_held;
  ts_logged := id_logged;
  ts_dirty := id_dirty;
  ts_handle s k h := h = k |}.
Next Obligation. intros dev s k _ _ Hk _. simpl. rewrite decide_False by done. eexists _, _. split; [reflexivity|]. done. Qed.
Next Obligation. intros dev s k h _ -> Hk _. simpl. rewrite decide_True by done. eexists. split; [reflexivity|]. done. Qed.
Next Obligation. intros dev s k h _ -> Hk Hs. simpl. rewrite decide_True by done. eexists. split; [reflexivity|]. done. Qed.
Next Obligation. by intros dev s k h _ ->. Qed.
Next Obligation. by intros dev s k h b _ -> _. Qed.
