(* ===== verification/Fs.v ===== *)
(** File system (src/kernel/fs.c, src/kernel/fs.h): block allocator, inode
    table, inode contents, directories and path names, on the operations of
    the log ([TxOps]).

    An inode pointer is an index into [itable.inode], [None] for a null
    pointer.  [acquiresleep] on an inode that is locked is the outcome
    [Sleep].  A C string is the list of its characters without the final
    NUL; [char name[DIRSIZ]] is a list of [DIRSIZ] bytes. *)

From S2P Require Import Prelude.
From S2P Require Import Bytes.
From S2P Require Import Locks.
From S2P Require Import BlockCache.
From S2P Require Import TxStore.
From S2P Require Import UserMem.

(** ** On-disk format *)

Definition FSMAGIC : Z := 0x10203040.
Definition ROOTINO : Z := 1.
Definition ROOTDEV : Z := 1.
Definition NINODE : nat := 50.
Definition NDIRECT : nat := 12.
Definition NINDIRECT : Z := BSIZE / 4.
Definition MAXFILE : Z := Z.of_nat NDIRECT + NINDIRECT.
Definition SZ_DINODE : Z := 64.
Definition IPB : Z := BSIZE / SZ_DINODE.
Definition BPB : Z := BSIZE * 8.
Definition DIRSIZ : nat := 14.
Definition SZ_DIRENT : Z := 16.
Definition T_DIR : Z := 1.

Record superblock := Superblock {
  sb_magic : Z; sb_size : Z; sb_nblocks : Z; sb_ninodes : Z;
  sb_nlog : Z; sb_logstart : Z; sb_inodestart : Z; sb_bmapstart : Z }.

Definition IBLOCK (i : Z) (sb : superblock) : Z := i / IPB + sb_inodestart sb.
Definition BBLOCK (b : Z) (sb : superblock) : Z := b / BPB + sb_bmapstart sb.

Record dinode := Dinode {
  di_type : Z; di_major : Z; di_minor : Z; di_nlink : Z; di_size : Z; di_addrs : list Z }.

(** The [struct dinode] at byte offset [o] of a block. *)
Definition get_dinode (o : nat) (b : block) : dinode :=
  Dinode (get_short o b) (get_short (o + 2) b) (get_short (o + 4) b) (get_short (o + 6) b)
    (get_uint (o + 8) b) ((fun i => get_uint (o + 12 + 4 * i) b) <$> seq 0 (NDIRECT + 1)).
Definition put_addrs (o : nat) (addrs : list Z) (b : block) : block :=
  fold_left (fun b i => put 4 (o + 12 + 4 * i) (addrs !!! i) b) (seq 0 (NDIRECT + 1)) b.
Definition put_dinode (o : nat) (d : dinode) (b : block) : block :=
  let b := put 2 o (di_type d) b in
  let b := put 2 (o + 2) (di_major d) b in
  let b := put 2 (o + 4) (di_minor d) b in
  let b := put 2 (o + 6) (di_nlink d) b in
  let b := put 4 (o + 8) (di_size d) b in
  put_addrs o (di_addrs d) b.

Definition dinode_off (inum : Z) : nat := Z.to_nat (SZ_DINODE * (inum mod IPB)).
Definition zero_block : block := replicate (Z.to_nat BSIZE) 0.
Definition zero_dinode : dinode := Dinode 0 0 0 0 0 (replicate (NDIRECT + 1) 0).

(** Replace the bytes from [off] on. *)
Definition splice (off : nat) (xs : list Z) (b : block) : block :=
  take off b ++ xs ++ drop (off + length xs) b.

(** ** State *)

Record inode := Inode {
  i_dev : Z; i_inum : Z; i_ref : Z; i_lock : sleeplock; i_valid : bool;
  i_type : Z; i_major : Z; i_minor : Z; i_nlink : Z; i_size : Z; i_addrs : list Z }.
#[global] Instance inode_inhabited : Inhabited inode :=
  populate (Inode 0 0 0 initsleeplock false 0 0 0 0 0 (replicate (NDIRECT + 1) 0)).

Record fs_st {T U : Type} := FsSt {
  fs_sb : superblock;
  fs_tx : T;
  fs_itable : list inode;
  fs_user : U }.
Arguments fs_st : clear implicits.

Definition set_i_dinode (d : dinode) (ip : inode) : inode :=
  Inode (i_dev ip) (i_inum ip) (i_ref ip) (i_lock ip) (i_valid ip)
    (di_type d) (di_major d) (di_minor d) (di_nlink d) (di_size d) (di_addrs d).
Definition i_dinode (ip : inode) : dinode :=
  Dinode (i_type ip) (i_major ip) (i_minor ip) (i_nlink ip) (i_size ip) (i_addrs ip).
Definition set_i_ref r ip := Inode (i_dev ip) (i_inum ip) r (i_lock ip) (i_valid ip) (i_type ip) (i_major ip) (i_minor ip) (i_nlink ip) (i_size ip) (i_addrs ip).
Definition set_i_lock l ip := Inode (i_dev ip) (i_inum ip) (i_ref ip) l (i_valid ip) (i_type ip) (i_major ip) (i_minor ip) (i_nlink ip) (i_size ip) (i_addrs ip).
Definition set_i_valid v ip := Inode (i_dev ip) (i_inum ip) (i_ref ip) (i_lock ip) v (i_type ip) (i_major ip) (i_minor ip) (i_nlink ip) (i_size ip) (i_addrs ip).
Definition set_i_type t ip := Inode (i_dev ip) (i_inum ip) (i_ref ip) (i_lock ip) (i_valid ip) t (i_major ip) (i_minor ip) (i_nlink ip) (i_size ip) (i_addrs ip).
Definition set_i_size z ip := Inode (i_dev ip) (i_inum ip) (i_ref ip) (i_lock ip) (i_valid ip) (i_type ip) (i_major ip) (i_minor ip) (i_nlink ip) z (i_addrs ip).
Definition set_i_addr (n : nat) a ip := Inode (i_dev ip) (i_inum ip) (i_ref ip) (i_lock ip) (i_valid ip) (i_type ip) (i_major ip) (i_minor ip) (i_nlink ip) (i_size ip) (<[n := a]> (i_addrs ip)).
(** [ip->dev = dev; ip->inum = inum; ip->ref = 1; ip->valid = 0;] *)
Definition recycle_inode dev inum ip := Inode dev inum 1 (i_lock ip) false (i_type ip) (i_major ip) (i_minor ip) (i_nlink ip) (i_size ip) (i_addrs ip).

Section Fs.
Context {T H U : Type} `{TxOps T H} `{UserMem U}.
(** The calling process. *)
Context (pid : Z).

Abbreviation F := (M (fs_st T U)).

Definition set_fs_tx t (s : fs_st T U) : fs_st T U := FsSt _ _ (fs_sb s) t (fs_itable s) (fs_user s).
Definition set_fs_sb b (s : fs_st T U) : fs_st T U := FsSt _ _ b (fs_tx s) (fs_itable s) (fs_user s).
Definition set_fs_user u (s : fs_st T U) : fs_st T U := FsSt _ _ (fs_sb s) (fs_tx s) (fs_itable s) u.
Definition upd_inode (i : nat) (f : inode -> inode) (s : fs_st T U) : fs_st T U :=
  FsSt _ _ (fs_sb s) (fs_tx s) (alter f i (fs_itable s)) (fs_user s).

Definition txM {A} (m : M T A) : F A := zoom fs_tx set_fs_tx m.
Definition bread dev k : F H := txM (tx_bread dev k).
Definition brelse h : F () := txM (tx_brelse h).
Definition log_write h : F () := txM (tx_log_write h).
Definition data (h : H) : F block := gets (fun s => tx_data h (fs_tx s)).
Definition set_data (h : H) (b : block) : F () := txM (modify (tx_set_data h b)).
Definition get_sb : F superblock := gets fs_sb.
Definition inode_at (i : nat) : F inode := gets (fun s => fs_itable s !!! i).
Definition set_inode (i : nat) (f : inode -> inode) : F () := modify (upd_inode i f).

(** ** Blocks *)

Definition readsb (dev : Z) : F () :=
  let* bp := bread dev 1 in
  let* d := data bp in
  modify (set_fs_sb (Superblock (get_uint 0 d) (get_uint 4 d) (get_uint 8 d) (get_uint 12 d)
                       (get_uint 16 d) (get_uint 20 d) (get_uint 24 d) (get_uint 28 d))) ;;;
  brelse bp.

Definition bzero (dev bno : Z) : F () :=
  let* bp := bread dev bno in
  set_data bp zero_block ;;;
  log_write bp ;;;
  brelse bp.

Definition bit_mask (bi : Z) : Z := Z.shiftl 1 (bi mod 8).
Definition bit_is_free (d : list Z) (bi : Z) : bool := Z.land (d !!! Z.to_nat (bi / 8)) (bit_mask bi) =? 0.
Definition set_bit (d : list Z) (bi : Z) : list Z :=
  <[Z.to_nat (bi / 8) := Z.lor (d !!! Z.to_nat (bi / 8)) (bit_mask bi)]> d.
Definition clear_bit (d : list Z) (bi : Z) : list Z :=
  <[Z.to_nat (bi / 8) := Z.land (d !!! Z.to_nat (bi / 8)) (Z.lnot (bit_mask bi))]> d.

(** The inner loop of [balloc]: the first free bit of the bitmap block for
    blocks [b ..], with [fuel] bits left. *)
Fixpoint find_free (fuel : nat) (d : list Z) (size b bi : Z) : option Z :=
  match fuel with
  | O => None
  | S fuel' =>
      if negb (b + bi <? size) then None
      else if bit_is_free d bi then Some bi
      else find_free fuel' d size b (bi + 1)
  end.

(** The outer loop, with [fuel] bitmap blocks left. *)
Fixpoint balloc_loop (fuel : nat) (dev b : Z) : F Z :=
  match fuel with
  | O => diverge
  | S fuel' =>
      let* sb := get_sb in
      if negb (b <? sb_size sb) then mreturn 0 else
      let* bp := bread dev (BBLOCK b sb) in
      let* d := data bp in
      match find_free (Z.to_nat BPB) d (sb_size sb) b 0 with
      | Some bi =>
          set_data bp (set_bit d bi) ;;;
          log_write bp ;;;
          brelse bp ;;;
          bzero dev (b + bi) ;;;
          mreturn (b + bi)
      | None =>
          brelse bp ;;;
          balloc_loop fuel' dev (b + BPB)
      end
  end.
Definition balloc (dev : Z) : F Z :=
  let* sb := get_sb in balloc_loop (S (Z.to_nat (sb_size sb))) dev 0.

Definition bfree (dev b : Z) : F () :=
  let* sb := get_sb in
  let* bp := bread dev (BBLOCK b sb) in
  let bi := b mod BPB in
  let* d := data bp in
  if bit_is_free d bi then panic "freeing free block" else
  set_data bp (clear_bit d bi) ;;;
  log_write bp ;;;
  brelse bp.

(** ** The inode table *)

Definition iinit (s : fs_st T U) : fs_st T U :=
  FsSt _ _ (fs_sb s) (fs_tx s) (set_i_lock initsleeplock <$> fs_itable s) (fs_user s).

(** The loop of [iget]: the entry found, or the empty slot remembered. *)
Fixpoint iget_scan (tbl : list inode) (i : nat) (empty : option nat) (dev inum : Z) : nat + option nat :=
  match tbl with
  | [] => inr empty
  | ip :: tbl' =>
      if (i_ref ip >? 0) && (i_dev ip =? dev) && (i_inum ip =? inum) then inl i
      else iget_scan tbl' (i + 1)
             (match empty with None => if i_ref ip =? 0 then Some i else None | Some _ => empty end) dev inum
  end.

Definition iget (dev inum : Z) : F nat :=
  let* tbl := gets fs_itable in
  match iget_scan tbl 0 None dev inum with
  | inl i => set_inode i (fun ip => set_i_ref (i32 (i_ref ip + 1)) ip) ;;; mreturn i
  | inr None => panic "iget: no inodes"
  | inr (Some i) => set_inode i (recycle_inode dev inum) ;;; mreturn i
  end.

Definition idup (i : nat) : F nat :=
  set_inode i (fun ip => set_i_ref (i32 (i_ref ip + 1)) ip) ;;; mreturn i.

Fixpoint ialloc_loop (fuel : nat) (dev type inum : Z) : F (option nat) :=
  match fuel with
  | O => diverge
  | S fuel' =>
      let* sb := get_sb in
      if negb (inum <? sb_ninodes sb) then mreturn None else
      let* bp := bread dev (IBLOCK inum sb) in
      let* d := data bp in
      if di_type (get_dinode (dinode_off inum) d) =? 0 then
        set_data bp (put 2 (dinode_off inum) type (put_dinode (dinode_off inum) zero_dinode d)) ;;;
        log_write bp ;;;
        brelse bp ;;;
        let* i := iget dev inum in
        mreturn (Some i)
      else
        brelse bp ;;;
        ialloc_loop fuel' dev type (inum + 1)
  end.
Definition ialloc (dev type : Z) : F (option nat) :=
  let* sb := get_sb in ialloc_loop (S (Z.to_nat (sb_ninodes sb))) dev type 1.

Definition iupdate (i : nat) : F () :=
  let* ip := inode_at i in
  let* sb := get_sb in
  let* bp := bread (i_dev ip) (IBLOCK (i_inum ip) sb) in
  let* d := data bp in
  set_data bp (put_dinode (dinode_off (i_inum ip)) (i_dinode ip) d) ;;;
  log_write bp ;;;
  brelse bp.

Definition ilock (i : option nat) : F () :=
  match i with
  | None => panic "ilock"
  | Some i =>
      let* ip := inode_at i in
      if i_ref ip <? 1 then panic "ilock" else
      match acquiresleep pid (i_lock ip) with
      | None => sleep
      | Some l =>
          set_inode i (set_i_lock l) ;;;
          when negb (i_valid ip) do
            (let* sb := get_sb in
             let* bp := bread (i_dev ip) (IBLOCK (i_inum ip) sb) in
             let* d := data bp in
             set_inode i (set_i_dinode (get_dinode (dinode_off (i_inum ip)) d)) ;;;
             brelse bp ;;;
             set_inode i (set_i_valid true) ;;;
             let* ip := inode_at i in
             when (i_type ip =? 0) do panic "ilock: no type")
      end
  end.

Definition iunlock (i : option nat) : F () :=
  match i with
  | None => panic "iunlock"
  | Some i =>
      let* ip := inode_at i in
      if negb (holdingsleep pid (i_lock ip)) || (i_ref ip <? 1) then panic "iunlock" else
      set_inode i (fun ip => set_i_lock (releasesleep (i_lock ip)) ip)
  end.

(** ** Inode contents *)

Definition bmap (i : nat) (bn : Z) : F Z :=
  let* ip := inode_at i in
  if bn <? Z.of_nat NDIRECT then
    let addr := i_addrs ip !!! Z.to_nat bn in
    if addr =? 0 then
      let* addr := balloc (i_dev ip) in
      if addr =? 0 then mreturn 0 else
      set_inode i (set_i_addr (Z.to_nat bn) addr) ;;;
      mreturn addr
    else mreturn addr
  else
  let bn := bn - Z.of_nat NDIRECT in
  if bn <? NINDIRECT then
    let* addr := (if i_addrs ip !!! NDIRECT =? 0 then
                    let* addr := balloc (i_dev ip) in
                    if addr =? 0 then mreturn 0 else
                    set_inode i (set_i_addr NDIRECT addr) ;;;
                    mreturn addr
                  else mreturn (i_addrs ip !!! NDIRECT)) in
    if addr =? 0 then mreturn 0 else
    let* bp := bread (i_dev ip) addr in
    let* d := data bp in
    let* addr := (if get_uint (Z.to_nat (4 * bn)) d =? 0 then
                    let* addr := balloc (i_dev ip) in
                    (when negb (addr =? 0) do
                       (let* d := data bp in
                        set_data bp (put 4 (Z.to_nat (4 * bn)) addr d) ;;;
                        log_write bp)) ;;;
                    mreturn addr
                  else mreturn (get_uint (Z.to_nat (4 * bn)) d)) in
    brelse bp ;;;
    mreturn addr
  else panic "bmap: out of range".

Definition itrunc (i : nat) : F () :=
  mfor (seq 0 NDIRECT) (fun k =>
    let* ip := inode_at i in
    when negb (i_addrs ip !!! k =? 0) do
      (bfree (i_dev ip) (i_addrs ip !!! k) ;;;
       set_inode i (set_i_addr k 0))) ;;;
  let* ip := inode_at i in
  (when negb (i_addrs ip !!! NDIRECT =? 0) do
    (let* bp := bread (i_dev ip) (i_addrs ip !!! NDIRECT) in
     mfor (seq 0 (Z.to_nat NINDIRECT)) (fun j =>
       let* d := data bp in
       when negb (get_uint (4 * j) d =? 0) do bfree (i_dev ip) (get_uint (4 * j) d)) ;;;
     brelse bp ;;;
     bfree (i_dev ip) (i_addrs ip !!! NDIRECT) ;;;
     set_inode i (set_i_addr NDIRECT 0))) ;;;
  set_inode i (set_i_size 0) ;;;
  iupdate i.

Definition iput (i : nat) : F () :=
  let* ip := inode_at i in
  (when (i_ref ip =? 1) && i_valid ip && (i_nlink ip =? 0) do
     match acquiresleep pid (i_lock ip) with
     | None => sleep
     | Some l =>
         set_inode i (set_i_lock l) ;;;
         itrunc i ;;;
         set_inode i (set_i_type 0) ;;;
         iupdate i ;;;
         set_inode i (set_i_valid false) ;;;
         set_inode i (fun ip => set_i_lock (releasesleep (i_lock ip)) ip)
     end) ;;;
  set_inode i (fun ip => set_i_ref (i32 (i_ref ip - 1)) ip).

Definition iunlockput (i : nat) : F () := iunlock (Some i) ;;; iput i.

Fixpoint ireclaim_loop (fuel : nat) (dev inum : Z) : F () :=
  match fuel with
  | O => diverge
  | S fuel' =>
      let* sb := get_sb in
      if negb (inum <? sb_ninodes sb) then skip else
      let* bp := bread dev (IBLOCK inum sb) in
      let* d := data bp in
      let di := get_dinode (dinode_off inum) d in
      let* ip := (if negb (di_type di =? 0) && (di_nlink di =? 0)
                  then let* i := iget dev inum in mreturn (Some i)
                  else mreturn None) in
      brelse bp ;;;
      (match ip with
       | Some i =>
           txM tx_begin_op ;;;
           ilock (Some i) ;;;
           iunlock (Some i) ;;;
           iput i ;;;
           txM tx_end_op
       | None => skip
       end) ;;;
      ireclaim_loop fuel' dev (inum + 1)
  end.
Definition ireclaim (dev : Z) : F () :=
  let* sb := get_sb in ireclaim_loop (S (Z.to_nat (sb_ninodes sb))) dev 1.

Definition fsinit (dev : Z) : F () :=
  readsb dev ;;;
  let* sb := get_sb in
  if negb (sb_magic sb =? FSMAGIC) then panic "invalid file system" else
  txM (tx_initlog dev (sb_logstart sb)) ;;;
  ireclaim dev.

Record stat := Stat { st_dev : Z; st_ino : Z; st_type : Z; st_nlink : Z; st_size : Z }.
Definition stati (ip : inode) : stat := Stat (i_dev ip) (i_inum ip) (i_type ip) (i_nlink ip) (i_size ip).

(** Copies between the kernel and [user_dst]/[user_src].  A kernel copy
    always succeeds; a user copy stops at the first byte it may not access. *)
Inductive dest := UserDst (va : Z) | KernelDst.
Inductive source := UserSrc (va : Z) | KernelSrc (xs : list Z).

Fixpoint store_bytes (u : U) (va : Z) (xs : list Z) : U * bool :=
  match xs with
  | [] => (u, true)
  | x :: xs' => match um_store u va x with Some u' => store_bytes u' (u64 (va + 1)) xs' | None => (u, false) end
  end.
Fixpoint fetch_bytes (u : U) (va : Z) (n : nat) : list Z * bool :=
  match n with
  | O => ([], true)
  | S n' => match um_load u va with
            | Some x => let '(xs, ok) := fetch_bytes u (u64 (va + 1)) n' in (x :: xs, ok)
            | None => ([], false)
            end
  end.
Definition either_copyout (dst : dest) (tot : Z) (xs : list Z) : F bool :=
  match dst with
  | KernelDst => mreturn true
  | UserDst va =>
      let* u := gets fs_user in
      let '(u', ok) := store_bytes u (u64 (va + tot)) xs in
      modify (set_fs_user u') ;;; mreturn ok
  end.
Definition either_copyin (src : source) (tot m : Z) : F (list Z * bool) :=
  match src with
  | KernelSrc xs => mreturn (take (Z.to_nat m) (drop (Z.to_nat tot) xs), true)
  | UserSrc va =>
      let* u := gets fs_user in
      mreturn (fetch_bytes u (u64 (va + tot)) (Z.to_nat m))
  end.

(** The loop of [readi] at [tot]; the value is [tot] at the end and the bytes
    a kernel destination received. *)
Fixpoint readi_loop (fuel : nat) (i : nat) (dst : dest) (off n tot : Z) : F (Z * list Z) :=
  match fuel with
  | O => diverge
  | S fuel' =>
      if negb (tot <? n) then mreturn (tot, []) else
      let* addr := bmap i (off / BSIZE) in
      if addr =? 0 then mreturn (tot, []) else
      let* ip := inode_at i in
      let* bp := bread (i_dev ip) addr in
      let m := Z.min (n - tot) (BSIZE - off mod BSIZE) in
      let* d := data bp in
      let xs := take (Z.to_nat m) (drop (Z.to_nat (off mod BSIZE)) d) in
      let* ok := either_copyout dst tot xs in
      brelse bp ;;;
      if negb ok then mreturn (-1, []) else
      let* r := readi_loop fuel' i dst (off + m) n (tot + m) in
      mreturn (r.1, xs ++ r.2)
  end.

Definition readi (i : nat) (dst : dest) (off n : Z) : F (Z * list Z) :=
  let* ip := inode_at i in
  if (off >? i_size ip) || (u32 (off + n) <? off) then mreturn (0, []) else
  let n := if u32 (off + n) >? i_size ip then u32 (i_size ip - off) else n in
  readi_loop (S (Z.to_nat n)) i dst off n 0.

(** The loop of [writei]; the value is [tot] and [off] at the end. *)
Fixpoint writei_loop (fuel : nat) (i : nat) (src : source) (off n tot : Z) : F (Z * Z) :=
  match fuel with
  | O => diverge
  | S fuel' =>
      if negb (tot <? n) then mreturn (tot, off) else
      let* addr := bmap i (off / BSIZE) in
      if addr =? 0 then mreturn (tot, off) else
      let* ip := inode_at i in
      let* bp := bread (i_dev ip) addr in
      let m := Z.min (n - tot) (BSIZE - off mod BSIZE) in
      let* r := either_copyin src tot m in
      let* d := data bp in
      set_data bp (splice (Z.to_nat (off mod BSIZE)) r.1 d) ;;;
      if negb r.2 then brelse bp ;;; mreturn (tot, off) else
      log_write bp ;;;
      brelse bp ;;;
      writei_loop fuel' i src (off + m) n (tot + m)
  end.

Definition writei (i : nat) (src : source) (off n : Z) : F Z :=
  let* ip := inode_at i in
  if (off >? i_size ip) || (u32 (off + n) <? off) then mreturn (-1) else
  if u32 (off + n) >? MAXFILE * BSIZE then mreturn (-1) else
  let* r := writei_loop (S (Z.to_nat n)) i src off n 0 in
  let* ip := inode_at i in
  (when (r.2 >? i_size ip) do set_inode i (set_i_size r.2)) ;;;
  iupdate i ;;;
  mreturn r.1.
End Fs.
