(* ===== verification/FsDir.v ===== *)
(** Directories and path names (the last part of src/kernel/fs.c). *)

From S2P Require Import Prelude.
From S2P Require Import Bytes.
From S2P Require Import TxStore.
From S2P Require Import UserMem.
From S2P Require Import Fs.

(** ** Names *)

Definition SLASH : Z := 47.

(** [strncmp(s, t, n) == 0] on two character buffers. *)
Fixpoint str_eqn (n : nat) (s t : list Z) : bool :=
  match n with
  | O => true
  | S n' =>
      let a := default 0 (head s) in
      let b := default 0 (head t) in
      if a =? b then if a =? 0 then true else str_eqn n' (tail s) (tail t)
      else false
  end.
Definition namecmp (s t : list Z) : bool := str_eqn DIRSIZ s t.

(** [strncpy(de.name, name, DIRSIZ)]: the characters, padded with NULs. *)
Fixpoint str_ncpy (n : nat) (s : list Z) : list Z :=
  match n with
  | O => []
  | S n' =>
      match s with
      | [] => replicate n 0
      | c :: s' => if c =? 0 then replicate n 0 else c :: str_ncpy n' s'
      end
  end.

Record dirent := Dirent { de_inum : Z; de_name : list Z }.
Definition get_dirent (b : list Z) : dirent := Dirent (get_ushort 0 b) (take DIRSIZ (drop 2 b)).
Definition put_dirent (d : dirent) : list Z := le_bytes 2 (de_inum d) ++ de_name d.

(** ** Paths *)

Fixpoint skip_slashes (path : list Z) : list Z :=
  match path with
  | c :: path' => if c =? SLASH then skip_slashes path' else path
  | [] => []
  end.
(** The element at the front of the path, and what follows it. *)
Fixpoint take_elem (path : list Z) : list Z * list Z :=
  match path with
  | c :: path' => if c =? SLASH then ([], path) else let '(e, r) := take_elem path' in (c :: e, r)
  | [] => ([], [])
  end.

(** [skipelem(path, name)]: the rest of the path and the new contents of the
    buffer [name]. *)
Definition skipelem (path name : list Z) : option (list Z * list Z) :=
  match skip_slashes path with
  | [] => None
  | p =>
      let '(s, rest) := take_elem p in
      let name := if (DIRSIZ <=? length s)%nat then take DIRSIZ s
                  else s ++ 0 :: drop (length s + 1) name in
      Some (skip_slashes rest, name)
  end.

Section Dir.
Context {T H U : Type} `{TxOps T H} `{UserMem U}.
Context (pid : Z).
Abbreviation F := (M (fs_st T U)).

(** Read the directory entry at [off]. *)
Definition read_dirent (dp : nat) (off : Z) (msg : string) : F dirent :=
  let* r := readi dp KernelDst off SZ_DIRENT in
  if negb (r.1 =? SZ_DIRENT) then panic msg else mreturn (get_dirent r.2).

Fixpoint dirlookup_loop (fuel : nat) (dp : nat) (name : list Z) (off : Z) : F (option (nat * Z)) :=
  match fuel with
  | O => diverge
  | S fuel' =>
      let* d := inode_at dp in
      if negb (off <? i_size d) then mreturn None else
      let* de := read_dirent dp off "dirlookup read" in
      if de_inum de =? 0 then dirlookup_loop fuel' dp name (u32 (off + SZ_DIRENT))
      else if namecmp name (de_name de) then
        let* i := iget (i_dev d) (de_inum de) in
        mreturn (Some (i, off))
      else dirlookup_loop fuel' dp name (u32 (off + SZ_DIRENT))
  end.

(** [dirlookup(dp, name, poff)]: the inode and the value for [*poff]. *)
Definition dirlookup (dp : nat) (name : list Z) : F (option (nat * Z)) :=
  let* d := inode_at dp in
  if negb (i_type d =? T_DIR) then panic "dirlookup not DIR" else
  dirlookup_loop (S (Z.to_nat (i_size d))) dp name 0.

Fixpoint find_slot (fuel : nat) (dp : nat) (off : Z) : F Z :=
  match fuel with
  | O => diverge
  | S fuel' =>
      let* d := inode_at dp in
      if negb (off <? i_size d) then mreturn off else
      let* de := read_dirent dp off "dirlink read" in
      if de_inum de =? 0 then mreturn off
      else find_slot fuel' dp (i32 (off + SZ_DIRENT))
  end.

Definition dirlink (dp : nat) (name : list Z) (inum : Z) : F Z :=
  let* r := dirlookup dp name in
  match r with
  | Some (ip, _) => iput pid ip ;;; mreturn (-1)
  | None =>
      let* d := inode_at dp in
      let* off := find_slot (S (Z.to_nat (i_size d))) dp 0 in
      let* w := writei dp (KernelSrc (put_dirent (Dirent (u16 inum) (str_ncpy DIRSIZ name)))) off SZ_DIRENT in
      if negb (w =? SZ_DIRENT) then mreturn (-1) else mreturn 0
  end.

(** The loop of [namex]; the value is the inode and the buffer [name]. *)
Fixpoint namex_loop (fuel : nat) (nameiparent : bool) (path name : list Z) (ip : nat) : F (option nat * list Z) :=
  match fuel with
  | O => diverge
  | S fuel' =>
      match skipelem path name with
      | None =>
          if nameiparent then iput pid ip ;;; mreturn (None, name)
          else mreturn (Some ip, name)
      | Some (path, name) =>
          ilock pid (Some ip) ;;;
          let* d := inode_at ip in
          if negb (i_type d =? T_DIR) then iunlockput pid ip ;;; mreturn (None, name) else
          if nameiparent && bool_decide (path = []) then iunlock pid (Some ip) ;;; mreturn (Some ip, name) else
          let* next := dirlookup ip name in
          match next with
          | None => iunlockput pid ip ;;; mreturn (None, name)
          | Some (next, _) =>
              iunlockput pid ip ;;;
              namex_loop fuel' nameiparent path name next
          end
      end
  end.

Definition namex (cwd : nat) (path : list Z) (nameiparent : bool) (name : list Z) : F (option nat * list Z) :=
  let* ip := (if bool_decide (head path = Some SLASH) then iget ROOTDEV ROOTINO else idup cwd) in
  namex_loop (S (length path)) nameiparent path name ip.

Definition namei (cwd : nat) (path : list Z) : F (option nat) :=
  let* r := namex cwd path false (replicate DIRSIZ 0) in mreturn r.1.
Definition nameiparent (cwd : nat) (path name : list Z) : F (option nat * list Z) :=
  namex cwd path true name.
End Dir.
