(* ===== verification/FsPath.v ===== *)
(** Path parsing: [skipelem] walks through the elements of a path. *)

From S2P Require Import Prelude.
From S2P Require Import Fs.
From S2P Require Import FsDir.

(** The elements of a path: the maximal runs of characters other than '/'. *)
Definition flush (cur : list Z) : list (list Z) := if decide (cur = []) then [] else [cur].
Fixpoint split_path (path cur : list Z) : list (list Z) :=
  match path with
  | [] => flush cur
  | c :: path' => if c =? SLASH then flush cur ++ split_path path' [] else split_path path' (cur ++ [c])
  end.

(** The name a [DIRSIZ]-byte buffer holds: up to the first NUL. *)
Fixpoint cname (n : list Z) : list Z :=
  match n with
  | [] => []
  | c :: n' => if c =? 0 then [] else c :: cname n'
  end.

(** The names a caller sees that calls [skipelem] until it returns 0. *)
Fixpoint elements (fuel : nat) (path name : list Z) : option (list (list Z)) :=
  match fuel with
  | O => None
  | S fuel' =>
      match skipelem path name with
      | None => Some []
      | Some (path', name') => (fun l => cname name' :: l) <$> elements fuel' path' name'
      end
  end.

Lemma split_skip path : split_path (skip_slashes path) [] = split_path path [].
Proof. induction path as [|c path IH]; simpl; [done|]. destruct (c =? SLASH) eqn:E; simpl; [done|]. by rewrite E. Qed.
Lemma skip_slashes_length path : (length (skip_slashes path) <= length path)%nat.
Proof. induction path as [|c path IH]; simpl; [done|]. destruct (c =? SLASH); simpl; lia. Qed.
Lemma skip_slashes_head path c p : skip_slashes path = c :: p -> c <> SLASH.
Proof.
  induction path as [|x path IH]; simpl; [done|]. destruct (Z.eqb_spec x SLASH); [done|]. by intros [= <- _].
Qed.

Lemma take_elem_split p e r cur :
  take_elem p = (e, r) -> split_path p cur = split_path r (cur ++ e) /\ (r = [] \/ head r = Some SLASH) /\ p = e ++ r.
Proof.
  revert e r cur. induction p as [|c p IH]; intros e r cur; simpl.
  - intros [= <- <-]. rewrite app_nil_r. auto.
  - destruct (Z.eqb_spec c SLASH) as [->|Hc].
    + intros [= <- <-]. rewrite app_nil_r. simpl. auto.
    + destruct (take_elem p) as [e' r'] eqn:E. intros [= <- <-].
      destruct (IH e' r' (cur ++ [c]) eq_refl) as (-> & ? & ->). by rewrite <- app_assoc.
Qed.

Lemma split_boundary r cur :
  cur <> [] -> r = [] \/ head r = Some SLASH -> split_path r cur = cur :: split_path (skip_slashes r) [].
Proof.
  intros Hne [->|Hr]; [simpl; unfold flush; by rewrite decide_False|].
  destruct r as [|c r]; [done|]. simpl in Hr. injection Hr as ->. rewrite split_skip. simpl.
  unfold flush. by rewrite decide_False.
Qed.

Lemma cname_app s rest : Forall (fun c => c <> 0) s -> cname (s ++ 0 :: rest) = s.
Proof. induction 1 as [|c s Hc _ IH]; simpl; [done|]. destruct (Z.eqb_spec c 0); [done|]. by rewrite IH. Qed.
Lemma cname_id s : Forall (fun c => c <> 0) s -> cname s = s.
Proof. induction 1 as [|c s Hc _ IH]; simpl; [done|]. destruct (Z.eqb_spec c 0); [done|]. by rewrite IH. Qed.

(** One call: the first element, truncated to [DIRSIZ] characters. *)
Lemma skipelem_step path name :
  Forall (fun c => c <> 0) path -> length name = DIRSIZ ->
  match skipelem path name with
  | None => split_path path [] = []
  | Some (path', name') =>
      exists e, split_path path [] = e :: split_path path' [] /\ cname name' = take DIRSIZ e
        /\ length name' = DIRSIZ /\ (length path' < length path)%nat /\ Forall (fun c => c <> 0) path'
  end.
Proof.
  intros Hp Hn. unfold skipelem. rewrite <- split_skip. pose proof (skip_slashes_length path) as Hlen.
  assert (forall q, Forall (fun c => c <> 0) q -> Forall (fun c => c <> 0) (skip_slashes q)) as Hskip.
  { intros q. induction q as [|c q IH]; simpl; [done|]. intros Hq. destruct (c =? SLASH); [|done]. inversion Hq; auto. }
  specialize (Hskip path Hp) as Hp'. destruct (skip_slashes path) as [|c p] eqn:Es; [done|].
  pose proof (skip_slashes_head path c p Es) as Hc. destruct (take_elem (c :: p)) as [s rest] eqn:Et.
  destruct (take_elem_split _ _ _ [] Et) as (Hsp & Hb & Hcat). simpl app in Hsp.
  assert (s <> []) as Hs.
  { simpl in Et. destruct (Z.eqb_spec c SLASH); [done|]. destruct (take_elem p). by injection Et as <- <-. }
  rewrite Hcat in Hp'. apply Forall_app in Hp' as [Hf1 Hf2].
  exists s. split; [rewrite Hsp; by apply split_boundary|].
  assert (length (skip_slashes rest) < length path)%nat.
  { pose proof (skip_slashes_length rest). rewrite Hcat, length_app in Hlen.
    destruct s; [done|]. simpl in Hlen. lia. }
  destruct (Nat.leb_spec DIRSIZ (length s)) as [Hl|Hl].
  - rewrite cname_id by (by apply Forall_take). rewrite length_take. repeat split; auto; lia.
  - rewrite cname_app, take_ge by (done || lia). repeat split; auto.
    rewrite length_app. simpl. rewrite length_drop. lia.
Qed.

(** [skipelem] splits paths.  Calling it until it returns 0 ends after at
    most one call per character and yields exactly the elements of the path,
    each cut to [DIRSIZ] characters. *)
Theorem skipelem_elements path name :
  Forall (fun c => c <> 0) path -> length name = DIRSIZ ->
  elements (S (length path)) path name = Some (take DIRSIZ <$> split_path path []).
Proof.
  intros Hp Hn. assert (forall fuel p n, (length p < fuel)%nat -> Forall (fun c => c <> 0) p -> length n = DIRSIZ ->
    elements fuel p n = Some (take DIRSIZ <$> split_path p [])) as Hall; [|by apply Hall; try lia].
  induction fuel as [|fuel IH]; intros p n Hlt Hf Hl; [lia|]. cbn [elements].
  pose proof (skipelem_step p n Hf Hl) as Hstep. destruct (skipelem p n) as [[p' n']|]; [|by rewrite Hstep].
  destruct Hstep as (e & -> & He & Hl' & Hlt' & Hf'). rewrite IH by (done || lia). simpl. by rewrite He.
Qed.

Lemma skipelem_elements_witness :
  elements 9 [47; 47; 97; 47; 47; 98; 98; 47] (replicate 14 0) = Some [[97]; [98; 98]].
Proof.
  exact (skipelem_elements [47; 47; 97; 47; 47; 98; 98; 47] (replicate 14 0)
    ltac:(repeat constructor; discriminate) eq_refl).
Defined.
