(* ===== verification/FsBlocks.v ===== *)
(** The block allocator of fs.c: [balloc], [bfree] and [bzero]. *)

From S2P Require Import Prelude.
From S2P Require Import Bytes.
From S2P Require Import BlockCache.
From S2P Require Import TxStore.
From S2P Require Import UserMem.
From S2P Require Import Fs.

(** ** Bits *)

Lemma land_mask_zero x k : 0 <= k -> (Z.land x (Z.shiftl 1 k) =? 0) = negb (Z.testbit x k).
Proof.
  intros Hk. rewrite Z.shiftl_1_l. destruct (Z.eqb_spec (Z.land x (2 ^ k)) 0) as [E|E].
  - assert (Z.testbit (Z.land x (2 ^ k)) k = false) as Ht by (by rewrite E, Z.bits_0).
    rewrite Z.land_spec, Z.pow2_bits_true, andb_true_r in Ht by done. by rewrite Ht.
  - destruct (Z.testbit x k) eqn:Ht; [done|]. exfalso. apply E. apply Z.bits_inj'. intros n Hn.
    rewrite Z.land_spec, Z.bits_0. destruct (decide (n = k)) as [->|]; [by rewrite Ht|].
    rewrite Z.pow2_bits_false by done. apply andb_false_r.
Qed.

Definition byte_of (bi : Z) : nat := Z.to_nat (bi / 8).

Lemma bit_is_free_spec d bi : bit_is_free d bi = negb (Z.testbit (d !!! byte_of bi) (bi mod 8)).
Proof. unfold bit_is_free, bit_mask. apply land_mask_zero. apply Z.mod_pos_bound. lia. Qed.

Lemma set_bit_free d bi bj :
  0 <= bi -> 0 <= bj -> (byte_of bi < length d)%nat ->
  bit_is_free (set_bit d bi) bj = if bj =? bi then false else bit_is_free d bj.
Proof.
  intros Hi Hj Hl. rewrite !bit_is_free_spec. unfold set_bit, bit_mask. fold (byte_of bi).
  assert (0 <= bi mod 8 /\ 0 <= bj mod 8) as [Hm1 Hm2] by (split; apply Z.mod_pos_bound; lia).
  destruct (decide (byte_of bj = byte_of bi)) as [E|E].
  - rewrite E, list_lookup_total_insert_eq by done. rewrite Z.lor_spec, Z.shiftl_1_l.
    destruct (Z.eqb_spec bj bi) as [->|Hne].
    + rewrite Z.pow2_bits_true by done. by rewrite orb_true_r.
    + rewrite Z.pow2_bits_false; [by rewrite orb_false_r|]. unfold byte_of in E. dlia.
  - rewrite list_lookup_total_insert_ne by done. destruct (Z.eqb_spec bj bi); [by subst|done].
Qed.

Lemma clear_bit_free d bi bj :
  0 <= bi -> 0 <= bj -> (byte_of bi < length d)%nat ->
  bit_is_free (clear_bit d bi) bj = if bj =? bi then true else bit_is_free d bj.
Proof.
  intros Hi Hj Hl. rewrite !bit_is_free_spec. unfold clear_bit, bit_mask. fold (byte_of bi).
  assert (0 <= bi mod 8 /\ 0 <= bj mod 8) as [Hm1 Hm2] by (split; apply Z.mod_pos_bound; lia).
  destruct (decide (byte_of bj = byte_of bi)) as [E|E].
  - rewrite E, list_lookup_total_insert_eq by done. rewrite Z.land_spec, Z.lnot_spec, Z.shiftl_1_l by done.
    destruct (Z.eqb_spec bj bi) as [->|Hne].
    + rewrite Z.pow2_bits_true by done. by rewrite andb_false_r.
    + rewrite Z.pow2_bits_false; [by rewrite andb_true_r|]. unfold byte_of in E. dlia.
  - rewrite list_lookup_total_insert_ne by done. destruct (Z.eqb_spec bj bi); [by subst|done].
Qed.

(** Clearing a bit that was free before it was set restores the block. *)
Lemma clear_set_bit d bi :
  0 <= bi -> (byte_of bi < length d)%nat -> bit_is_free d bi = true -> clear_bit (set_bit d bi) bi = d.
Proof.
  intros Hi Hl Hf. unfold clear_bit, set_bit. fold (byte_of bi). rewrite list_lookup_total_insert_eq by done.
  rewrite list_insert_insert_eq. apply list_insert_id.
  rewrite bit_is_free_spec in Hf. assert (0 <= bi mod 8) by (apply Z.mod_pos_bound; lia).
  rewrite (list_lookup_lookup_total_lt d (byte_of bi)) by done. f_equal. apply Z.bits_inj'. intros n Hn.
  rewrite Z.land_spec, Z.lor_spec, Z.lnot_spec by done. unfold bit_mask. rewrite Z.shiftl_1_l.
  destruct (decide (n = bi mod 8)) as [->|Hne].
  - rewrite Z.pow2_bits_true by done. simpl. rewrite andb_false_r. by destruct (Z.testbit _ _).
  - rewrite Z.pow2_bits_false by done. simpl. by rewrite orb_false_r, andb_true_r.
Qed.

Lemma find_free_spec fuel d size b bi :
  match find_free fuel d size b bi with
  | Some r => bi <= r < bi + Z.of_nat fuel /\ b + r < size /\ bit_is_free d r = true
              /\ forall j, bi <= j < r -> bit_is_free d j = false
  | None => forall j, bi <= j < bi + Z.of_nat fuel -> b + j < size -> bit_is_free d j = false
  end.
Proof.
  revert bi. induction fuel as [|fuel IH]; intros bi; cbn [find_free]; [intros; lia|].
  destruct (Z.ltb_spec (b + bi) size) as [Hs|Hs]; cbn [negb]; [|intros; lia].
  destruct (bit_is_free d bi) eqn:Hf.
  - repeat split; try lia; try done.
  - specialize (IH (bi + 1)). destruct (find_free fuel d size b (bi + 1)) as [r|].
    + destruct IH as (? & ? & ? & IH). repeat split; try lia; try done. intros j Hj.
      destruct (decide (j = bi)) as [->|]; [done|]. apply IH. lia.
    + intros j Hj Hjs. destruct (decide (j = bi)) as [->|]; [done|]. apply IH; lia.
Qed.

Lemma bblock_split b bi sb :
  0 <= b -> b mod BPB = 0 -> 0 <= bi < BPB -> BBLOCK (b + bi) sb = BBLOCK b sb /\ (b + bi) mod BPB = bi.
Proof. unfold BBLOCK, BPB, BSIZE. intros. split; [f_equal|]; dlia. Qed.

(** ** Calls on the store, from a file-system state *)

Section Blocks.
Context {T H U : Type} `{TS : TxStore T H dev} `{UserMem U}.
Implicit Type s : fs_st T U.

Definition vw s : Z -> block := ts_view (fs_tx s).
Definition held s : gset Z := ts_held (fs_tx s).
Definition logged s : gset Z := ts_logged (fs_tx s).
Definition dirty s : gset Z := ts_dirty (fs_tx s).

(** Two states that differ in the store only. *)
Definition same_fs s s' : Prop := s' = set_fs_tx (fs_tx s') s.
Lemma same_fs_refl s : same_fs s s.
Proof. by destruct s. Qed.
Lemma same_fs_trans s1 s2 s3 : same_fs s1 s2 -> same_fs s2 s3 -> same_fs s1 s3.
Proof. unfold same_fs. intros -> ->. done. Qed.
Lemma same_fs_sb s s' : same_fs s s' -> fs_sb s' = fs_sb s /\ fs_itable s' = fs_itable s /\ fs_user s' = fs_user s.
Proof. unfold same_fs. intros ->. done. Qed.

(** The buffers of the blocks in [K] are still the caller's. *)
Definition kept (K : Z -> Prop) s s' : Prop := forall j h, K j -> ts_handle (fs_tx s) j h -> ts_handle (fs_tx s') j h.
Lemma kept_trans (K : Z -> Prop) s1 s2 s3 : kept K s1 s2 -> kept K s2 s3 -> kept K s1 s3.
Proof. unfold kept. auto. Qed.
Lemma kept_weaken (K K' : Z -> Prop) s1 s2 : (forall j, K' j -> K j) -> kept K s1 s2 -> kept K' s1 s2.
Proof. unfold kept. auto. Qed.

Lemma txM_ret {A} (m : M T A) s x t : m (fs_tx s) = Ret x t -> txM (U := U) m s = Ret x (set_fs_tx t s).
Proof. unfold txM, zoom. by intros ->. Qed.

(** Read a block, and release it unchanged or rewritten and logged. *)
Lemma bread_run s k :
  ts_inv (fs_tx s) -> 0 <= k < 2 ^ 31 -> k ∉ held s -> (size (held s) < MAXHELD)%nat ->
  exists h s', bread dev k s = Ret h s' /\ same_fs s s' /\ ts_inv (fs_tx s') /\ (forall j, vw s' j = vw s j)
    /\ held s' = held s ∪ {[k]} /\ logged s' = logged s /\ dirty s' = dirty s /\ ts_handle (fs_tx s') k h
    /\ Fs.data h s' = Ret (vw s k) s' /\ kept (fun _ => True) s s'.
Proof.
  intros Hi Hk Hn Hs. destruct (ts_bread_ok (fs_tx s) k Hi Hk Hn Hs) as (h & t & R & I & V & E1 & E2 & E3 & Hh & K).
  exists h, (set_fs_tx t s). split; [by apply txM_ret|]. do 7 (split; [done|]). split; [|intros j h' _; apply K].
  unfold Fs.data, gets. simpl. by rewrite (ts_data_ok t k h I Hh), V.
Qed.

Lemma fs_brelse_run s k h :
  ts_inv (fs_tx s) -> ts_handle (fs_tx s) k h -> k ∈ held s -> (k ∈ dirty s -> k ∈ logged s) ->
  exists s', brelse h s = Ret tt s' /\ same_fs s s' /\ ts_inv (fs_tx s') /\ (forall j, vw s' j = vw s j)
    /\ held s' = held s ∖ {[k]} /\ logged s' = logged s /\ dirty s' = dirty s /\ kept (fun j => j <> k) s s'.
Proof.
  intros Hi Hh Hk Hd. destruct (ts_brelse_ok (fs_tx s) k h Hi Hh Hk Hd) as (t & R & I & V & E1 & E2 & E3 & K).
  exists (set_fs_tx t s). split; [by apply txM_ret|]. do 6 (split; [done|]). exact K.
Qed.

(** [set_data bp b; log_write(bp); brelse(bp)] *)
Lemma rewrite_run s k h b :
  ts_inv (fs_tx s) -> ts_handle (fs_tx s) k h -> k ∈ held s -> (size (logged s ∪ {[k]}) <= 10)%nat ->
  exists s1 s2 s3, Fs.set_data h b s = Ret tt s1 /\ Fs.log_write h s1 = Ret tt s2 /\ brelse h s2 = Ret tt s3
    /\ same_fs s s3 /\ ts_inv (fs_tx s3) /\ (forall j, vw s3 j = upd (vw s) k b j)
    /\ held s3 = held s ∖ {[k]} /\ logged s3 = logged s ∪ {[k]} /\ dirty s3 = dirty s ∪ {[k]}
    /\ kept (fun j => j <> k) s s3.
Proof.
  intros Hi Hh Hk Hl. destruct (ts_set_ok (fs_tx s) k h b Hi Hh Hk) as (I1 & V1 & E1 & E2 & E3 & K1).
  set (t1 := tx_set_data h b (fs_tx s)) in *.
  destruct (ts_log_write_ok t1 k h I1 (K1 _ _ Hh)) as (t2 & R2 & I2 & V2 & G1 & G2 & G3 & K2);
    [by rewrite E1 | by rewrite E2 |].
  destruct (ts_brelse_ok t2 k h I2 (K2 _ _ (K1 _ _ Hh))) as (t3 & R3 & I3 & V3 & F1 & F2 & F3 & K3);
    [by rewrite G1, E1 | rewrite G2; set_solver |].
  exists (set_fs_tx t1 s), (set_fs_tx t2 s), (set_fs_tx t3 s).
  split; [done|]. split; [by apply (txM_ret _ (set_fs_tx t1 s))|]. split; [by apply (txM_ret _ (set_fs_tx t2 s))|].
  split; [done|]. split; [done|]. unfold vw, held, logged, dirty. simpl. rewrite F1, F2, F3, G1, G2, G3, E1, E2, E3.
  split; [intros j; by rewrite V3, V2, V1|]. do 3 (split; [done|]). intros j h' Hj Hh'. by apply K3, K2, K1.
Qed.

Lemma bzero_run s bno :
  ts_inv (fs_tx s) -> 0 <= bno < 2 ^ 31 -> bno ∉ held s -> (size (held s) < MAXHELD)%nat ->
  (size (logged s ∪ {[bno]}) <= 10)%nat ->
  exists s', bzero dev bno s = Ret tt s' /\ same_fs s s' /\ ts_inv (fs_tx s')
    /\ (forall j, vw s' j = upd (vw s) bno zero_block j)
    /\ held s' = held s /\ logged s' = logged s ∪ {[bno]} /\ dirty s' = dirty s ∪ {[bno]}
    /\ kept (fun j => j <> bno) s s'.
Proof.
  intros Hi Hk Hn Hs Hl. unfold bzero.
  destruct (bread_run s bno Hi Hk Hn Hs) as (h & s1 & R1 & S1 & I1 & V1 & E1 & E2 & E3 & Hh & _ & K1).
  rewrite (mthen_ret _ _ _ _ _ R1).
  destruct (rewrite_run s1 bno h zero_block I1 Hh) as (s2 & s3 & s4 & R2 & R3 & R4 & S4 & I4 & V4 & F1 & F2 & F3 & K4);
    [rewrite E1; set_solver | by rewrite E2 |].
  rewrite (mthen_ret _ _ _ _ _ R2), (mthen_ret _ _ _ _ _ R3). exists s4. split; [done|].
  split; [by eapply same_fs_trans|]. split; [done|]. rewrite F1, F2, F3, E1, E2, E3.
  split; [intros j; rewrite V4; unfold upd; bcase; [done|apply V1]|]. split; [set_solver|]. do 2 (split; [done|]).
  intros j h' Hj Hh'. apply K4; [done|]. by apply K1.
Qed.

(** ** The allocator *)

(** Block [b] is marked free in the bitmap. *)
Definition block_free (sb : superblock) (v : Z -> block) (b : Z) : bool :=
  bit_is_free (v (BBLOCK b sb)) (b mod BPB).

(** The bitmap and the allocatable blocks are in range and apart, the bitmap
    blocks are whole, and the caller holds none of them. *)
Record alloc_ready s : Prop := {
  ar_inv : ts_inv (fs_tx s);
  ar_size : 0 <= sb_size (fs_sb s) < 2 ^ 31;
  ar_bmap b : 0 <= b < sb_size (fs_sb s) ->
    0 <= BBLOCK b (fs_sb s) < 2 ^ 31 /\ (BBLOCK b (fs_sb s) ∉ held s)
    /\ length (vw s (BBLOCK b (fs_sb s))) = 1024%nat;
  ar_dirty : dirty s ⊆ logged s;
  ar_held : (size (held s) < MAXHELD)%nat;
  ar_logged b : 0 <= b < sb_size (fs_sb s) -> (size (logged s ∪ {[BBLOCK b (fs_sb s)]} ∪ {[b]}) <= 10)%nat }.

Lemma size_sub_le (X Y : gset Z) n : (size Y <= n -> X ⊆ Y -> size X <= n)%nat.
Proof. intros Hs Hsub. pose proof (subseteq_size X Y Hsub). lia. Qed.
Lemma size_union_le (X : gset Z) k n : (size X + 1 <= n -> size (X ∪ {[k]}) <= n)%nat.
Proof. intros Hs. pose proof (size_union_alt X {[k]}). pose proof (subseteq_size ({[k]} ∖ X) ({[k]} : gset Z)) as Hle.
  rewrite size_singleton in Hle. rewrite size_union_alt. assert (size ({[k]} ∖ X) <= 1)%nat by (apply Hle; set_solver). lia. Qed.

Definition balloc_post s (r : Z) s' : Prop :=
  let sb := fs_sb s in
  (r = 0 /\ (forall j, vw s' j = vw s j) /\ logged s' = logged s /\ dirty s' = dirty s
     /\ forall b, 0 <= b < sb_size sb -> block_free sb (vw s) b = false)
  \/ (0 <= r < sb_size sb /\ block_free sb (vw s) r = true
     /\ (forall b, 0 <= b < r -> block_free sb (vw s) b = false)
     /\ (forall j, vw s' j = upd (upd (vw s) (BBLOCK r sb) (set_bit (vw s (BBLOCK r sb)) (r mod BPB))) r zero_block j)
     /\ logged s' = logged s ∪ {[BBLOCK r sb]} ∪ {[r]} /\ dirty s' = dirty s ∪ {[BBLOCK r sb]} ∪ {[r]}).

(** A block found free in the bitmap block for [b ..] is marked and zeroed. *)
Lemma balloc_take s b bi h s1 :
  alloc_ready s -> 0 <= b -> b mod BPB = 0 -> 0 <= bi < BPB -> b + bi < sb_size (fs_sb s) -> b + bi ∉ held s ->
  same_fs s s1 -> ts_inv (fs_tx s1) -> (forall j, vw s1 j = vw s j) ->
  held s1 = held s ∪ {[BBLOCK b (fs_sb s)]} -> logged s1 = logged s -> dirty s1 = dirty s ->
  ts_handle (fs_tx s1) (BBLOCK b (fs_sb s)) h ->
  let k := BBLOCK b (fs_sb s) in
  exists s', (Fs.set_data h (set_bit (vw s k) bi) ;;; Fs.log_write h ;;; brelse h ;;; bzero dev (b + bi) ;;; mreturn (b + bi)) s1
      = Ret (b + bi) s'
    /\ same_fs s s' /\ ts_inv (fs_tx s') /\ held s' = held s
    /\ (forall j, vw s' j = upd (upd (vw s) k (set_bit (vw s k) bi)) (b + bi) zero_block j)
    /\ logged s' = logged s ∪ {[k]} ∪ {[b + bi]} /\ dirty s' = dirty s ∪ {[k]} ∪ {[b + bi]}
    /\ kept (fun j => j <> k /\ j <> b + bi) s1 s'.
Proof.
  intros Hr Hb Hmod Hbi Hsz Hnh S1 I1 V1 E1 E2 E3 Hh k.
  destruct Hr as [Hinv Hsize Hbm Hdl Hheld Hlog].
  destruct (Hbm b) as (Hk & Hkh & _); [lia|]. fold k in Hk, Hkh, E1, Hh.
  pose proof (Hlog (b + bi) ltac:(lia)) as Hl2. destruct (bblock_split b bi (fs_sb s) Hb Hmod Hbi) as [Eb _]. rewrite Eb in Hl2. fold k in Hl2.
  destruct (rewrite_run s1 k h (set_bit (vw s k) bi) I1 Hh) as (s2 & s3 & s4 & R2 & R3 & R4 & S4 & I4 & V4 & F1 & F2 & F3 & K4).
  { rewrite E1. set_solver. } { rewrite E2. eapply size_sub_le; [exact Hl2 | set_solver]. }
  assert (held s4 = held s) as Hh4 by (rewrite F1, E1; set_solver).
  destruct (bzero_run s4 (b + bi) I4) as (s5 & R5 & S5 & I5 & V5 & G1 & G2 & G3 & K5).
  { lia. } { by rewrite Hh4. } { by rewrite Hh4. }
  { by rewrite F2, E2. }
  exists s5. split.
  { rewrite (mthen_ret _ _ _ _ _ R2), (mthen_ret _ _ _ _ _ R3), (mthen_ret _ _ _ _ _ R4).
    by rewrite (mthen_ret _ _ _ _ _ R5). }
  split; [eauto using same_fs_trans|]. split; [done|]. rewrite G1, G2, G3, Hh4, F2, F3, E2, E3. split; [done|].
  split; [intros j; rewrite V5; unfold upd; bcase; [done|]; rewrite V4; unfold upd; bcase; [done|]; apply V1|].
  do 2 (split; [done|]). intros j h' [H1' H2'] Hh'. apply K5; [done|]. by apply K4.
Qed.

Lemma balloc_loop_run fuel b s :
  alloc_ready s -> 0 <= b -> b mod BPB = 0 -> (sb_size (fs_sb s) <= b + BPB * (Z.of_nat fuel - 1)) ->
  (forall j, 0 <= j < sb_size (fs_sb s) -> block_free (fs_sb s) (vw s) j = true -> j ∉ held s) ->
  (forall j, 0 <= j < b -> j < sb_size (fs_sb s) -> block_free (fs_sb s) (vw s) j = false) ->
  (0 < fuel)%nat ->
  exists r s', balloc_loop fuel dev b s = Ret r s' /\ same_fs s s' /\ ts_inv (fs_tx s') /\ held s' = held s
    /\ kept (fun j => j ∈ held s) s s' /\ balloc_post s r s'.
Proof.
  revert b s. induction fuel as [|fuel IH]; intros b s Hr Hb Hmod Hfuel Hnh Hpre Hpos; [lia|]. cbn [balloc_loop].
  rewrite (mthen_ret get_sb _ s (fs_sb s) s eq_refl). set (sb := fs_sb s) in *.
  destruct (Z.ltb_spec b (sb_size sb)) as [Hlt|Hge]; cbn [negb].
  2:{ exists 0, s. split; [done|]. split; [apply same_fs_refl|]. split; [apply Hr|]. split; [done|]. split; [by intros ?|]. left.
      split; [done|]. split; [done|]. split; [done|]. split; [done|]. fold sb. intros j Hj. apply Hpre; lia. }
  destruct (ar_bmap s Hr b) as (Hk & Hkh & Hlen); [done|]. fold sb in Hk, Hkh, Hlen. set (k := BBLOCK b sb) in *.
  destruct (bread_run s k (ar_inv s Hr) Hk Hkh (ar_held s Hr)) as (h & s1 & R1 & S1 & I1 & V1 & E1 & E2 & E3 & Hh & D1 & K1).
  rewrite (mthen_ret _ _ _ _ _ R1), (mthen_ret _ _ _ _ _ D1).
  pose proof (find_free_spec (Z.to_nat BPB) (vw s k) (sb_size sb) b 0) as Hff.
  assert (forall j, 0 <= j < BPB -> block_free sb (vw s) (b + j) = bit_is_free (vw s k) j) as Hbf.
  { intros j Hj. unfold block_free. by destruct (bblock_split b j sb Hb Hmod Hj) as [-> ->]. }
  destruct (find_free _ _ _ _ _) as [bi|].
  - destruct Hff as (Hbi & Hsz & Hfree & Hfirst). assert (0 <= bi < BPB) as Hbi' by (unfold BPB, BSIZE in *; lia).
    destruct (balloc_take s b bi h s1 Hr Hb Hmod Hbi' Hsz) as (s' & R & S' & I' & H' & V' & L' & D' & K'); try done.
    { apply Hnh; [fold sb; lia | by rewrite Hbf]. }
    exists (b + bi), s'. split; [exact R|]. split; [done|]. split; [done|]. split; [done|]. split.
    { intros j h' Hj Hh'. apply K'; [|by apply K1]. split; [by intros ->|]. intros ->. revert Hj. apply Hnh; [fold sb; lia | by rewrite Hbf]. }
    right. fold sb.
    destruct (bblock_split b bi sb Hb Hmod Hbi') as [Eb Em]. rewrite Eb, Em. fold sb k in V', L', D'. fold k.
    split; [lia|]. split; [by rewrite Hbf|]. split; [|done].
    intros j Hj. destruct (decide (j < b)); [apply Hpre; lia|]. replace j with (b + (j - b)) by lia. rewrite Hbf by lia. apply Hfirst. lia.
  - destruct (fs_brelse_run s1 k h I1 Hh) as (s2 & R2 & S2 & I2 & V2 & F1 & F2 & F3 & K2); [rewrite E1; set_solver | |].
    { rewrite E2, E3. apply (ar_dirty s Hr). }
    rewrite (mthen_ret _ _ _ _ _ R2). pose proof (same_fs_trans _ _ _ S1 S2) as S12.
    assert (forall j, vw s2 j = vw s j) as V12 by (intros j; by rewrite V2, V1).
    assert (held s2 = held s) as H12 by (rewrite F1, E1; set_solver).
    destruct (same_fs_sb _ _ S12) as (Esb & _).
    destruct (IH (b + BPB) s2) as (r & s' & R & S' & I' & H' & K' & P').
    { destruct Hr as [Hinv Hsize Hbm Hdl Hheld Hlog]. split; rewrite ?Esb, ?H12, ?F2, ?F3, ?E2, ?E3; try done.
      intros j Hj. rewrite V12. by apply Hbm. }
    { unfold BPB, BSIZE in *. lia. } { unfold BPB, BSIZE in *. dlia. }
    { rewrite Esb. fold sb. lia. }
    { rewrite Esb, H12. fold sb. intros j Hj Hjf. apply Hnh; [done|]. unfold block_free in *. by rewrite V12 in Hjf. }
    { rewrite Esb. fold sb. intros j Hj Hjs. unfold block_free. rewrite V12. change (block_free sb (vw s) j = false).
      destruct (decide (j < b)); [by apply Hpre; lia|]. replace j with (b + (j - b)) by lia.
      rewrite Hbf by lia. apply Hff; unfold BPB, BSIZE in *; lia. }
    { unfold BPB, BSIZE in *. lia. }
    exists r, s'. split; [exact R|]. split; [by eapply same_fs_trans|]. split; [done|]. split; [congruence|].
    split.
    { intros j h' Hj Hh'. apply K'; [by rewrite H12|]. apply K2; [by intros ->|]. by apply K1. }
    unfold balloc_post in *. rewrite Esb in P'. fold sb in P' |- *. rewrite F2, F3, E2, E3 in P'.
    destruct P' as [(-> & P1 & P2 & P3 & P4)|(P1 & P2 & P3 & P4 & P5 & P6)]; [left|right].
    + split; [done|]. split; [intros j; by rewrite P1, V12|]. split; [done|]. split; [done|].
      intros j Hj. rewrite <- (P4 j Hj). unfold block_free. by rewrite V12.
    + unfold block_free in *. rewrite V12 in P2. split; [done|]. split; [done|].
      split; [intros j Hj; rewrite <- (P3 j Hj); by rewrite V12|]. split; [|done].
      intros j. rewrite P4. unfold upd. rewrite !V12. done.
Qed.

Lemma bfree_run s b :
  alloc_ready s -> 0 <= b < sb_size (fs_sb s) -> block_free (fs_sb s) (vw s) b = false ->
  let k := BBLOCK b (fs_sb s) in
  exists s', bfree dev b s = Ret tt s' /\ same_fs s s' /\ ts_inv (fs_tx s') /\ held s' = held s
    /\ (forall j, vw s' j = upd (vw s) k (clear_bit (vw s k) (b mod BPB)) j)
    /\ logged s' = logged s ∪ {[k]} /\ dirty s' = dirty s ∪ {[k]}.
Proof.
  intros [Hinv Hsize Hbm Hdl Hheld Hlog] Hb Hf k. destruct (Hbm b Hb) as (Hk & Hkh & Hlen). fold k in Hk, Hkh, Hlen.
  unfold bfree. rewrite (mthen_ret get_sb _ s (fs_sb s) s eq_refl). fold k.
  destruct (bread_run s k Hinv Hk Hkh Hheld) as (h & s1 & R1 & S1 & I1 & V1 & E1 & E2 & E3 & Hh & D1 & _).
  rewrite (mthen_ret _ _ _ _ _ R1). cbv zeta. rewrite (mthen_ret _ _ _ _ _ D1).
  unfold block_free in Hf. fold k in Hf. rewrite Hf.
  destruct (rewrite_run s1 k h (clear_bit (vw s k) (b mod BPB)) I1 Hh) as (s2 & s3 & s4 & R2 & R3 & R4 & S4 & I4 & V4 & F1 & F2 & F3 & _).
  { rewrite E1. set_solver. } { rewrite E2. eapply size_sub_le; [apply (Hlog b Hb) | set_solver]. }
  exists s4. split; [by rewrite (mthen_ret _ _ _ _ _ R2), (mthen_ret _ _ _ _ _ R3)|].
  split; [by eapply same_fs_trans|]. split; [done|]. rewrite F1, F2, F3, E1, E2, E3. split; [set_solver|].
  split; [|done]. intros j. rewrite V4. unfold upd. bcase; [done|]. apply V1.
Qed.

Lemma bmap_index c : 0 <= c -> 0 <= c mod BPB /\ (byte_of (c mod BPB) < 1024)%nat.
Proof. unfold byte_of, BPB, BSIZE. intros. split; dlia. Qed.

Lemma same_bit sb b c : BBLOCK b sb = BBLOCK c sb -> b mod BPB = c mod BPB -> b = c.
Proof. unfold BBLOCK, BPB, BSIZE. intros. dlia. Qed.

(** block allocation.  [balloc] returns the lowest free block of the
    disk, marked in the bitmap and zeroed, with no other block changed, and
    returns 0 with nothing changed when every block is in use. *)
Theorem balloc_first_free s :
  alloc_ready s ->
  (forall j, 0 <= j < sb_size (fs_sb s) -> block_free (fs_sb s) (vw s) j = true -> j ∉ held s) ->
  exists r s', balloc dev s = Ret r s' /\ same_fs s s' /\ ts_inv (fs_tx s') /\ held s' = held s
    /\ kept (fun j => j ∈ held s) s s' /\ balloc_post s r s'.
Proof.
  intros Hr Hnh. unfold balloc. rewrite (mthen_ret get_sb _ s (fs_sb s) s eq_refl).
  destruct (balloc_loop_run (S (Z.to_nat (sb_size (fs_sb s)))) 0 s Hr) as (r & s' & R & S' & I' & H' & K' & P'); try done; try lia.
  - pose proof (ar_size s Hr). unfold BPB, BSIZE. lia.
  - exists r, s'. done.
Qed.

(** freeing a block marks it free and changes no other bit; freeing a
    block that is free panics. *)
Theorem bfree_frees s b :
  alloc_ready s -> 0 <= b < sb_size (fs_sb s) ->
  if block_free (fs_sb s) (vw s) b then bfree dev b s = Panic "freeing free block"
  else exists s', bfree dev b s = Ret tt s'
    /\ forall c, 0 <= c < sb_size (fs_sb s) ->
         block_free (fs_sb s) (vw s') c = if c =? b then true else block_free (fs_sb s) (vw s) c.
Proof.
  intros Hr Hb. destruct (block_free (fs_sb s) (vw s) b) eqn:Hf.
  - destruct (ar_bmap s Hr b Hb) as (Hk & Hkh & _). unfold bfree.
    rewrite (mthen_ret get_sb _ s (fs_sb s) s eq_refl).
    destruct (bread_run s _ (ar_inv s Hr) Hk Hkh (ar_held s Hr)) as (h & s1 & R1 & _ & _ & _ & _ & _ & _ & _ & D1 & _).
    rewrite (mthen_ret _ _ _ _ _ R1). cbv zeta. rewrite (mthen_ret _ _ _ _ _ D1). unfold block_free in Hf. by rewrite Hf.
  - destruct (bfree_run s b Hr Hb Hf) as (s' & R & _ & _ & _ & V & _). exists s'. split; [done|].
    destruct (ar_bmap s Hr b Hb) as (_ & _ & Hlen).
    intros c Hc. unfold block_free. rewrite V. unfold upd.
    destruct (bmap_index b ltac:(lia)) as [B1 B2]. destruct (bmap_index c ltac:(lia)) as [C1 _].
    destruct (Z.eqb_spec (BBLOCK c (fs_sb s)) (BBLOCK b (fs_sb s))) as [E|E].
    + rewrite clear_bit_free by (done || lia). rewrite E.
      destruct (Z.eqb_spec (c mod BPB) (b mod BPB)) as [Em|Em], (Z.eqb_spec c b) as [Ec|Ec]; try done.
      * exfalso. apply Ec. by eapply same_bit.
      * by subst.
    + by destruct (Z.eqb_spec c b) as [->|].
Qed.

(** allocation and freeing are inverse.  Freeing the block that [balloc]
    has just returned restores every bitmap block, provided the bitmap itself
    is not marked free. *)
Theorem balloc_bfree_roundtrip s :
  alloc_ready s -> (forall j, 0 <= j < sb_size (fs_sb s) -> j ∉ held s) -> (size (logged s) + 4 <= 10)%nat ->
  (forall b c, 0 <= b < sb_size (fs_sb s) -> 0 <= c < sb_size (fs_sb s) ->
     block_free (fs_sb s) (vw s) b = true -> BBLOCK c (fs_sb s) <> b) ->
  (exists b, 0 <= b < sb_size (fs_sb s) /\ block_free (fs_sb s) (vw s) b = true) ->
  exists r s1 s2, balloc dev s = Ret r s1 /\ bfree dev r s1 = Ret tt s2
    /\ forall c, 0 <= c < sb_size (fs_sb s) -> vw s2 (BBLOCK c (fs_sb s)) = vw s (BBLOCK c (fs_sb s)).
Proof.
  intros Hr Hnh Hlog Hbmap (b0 & Hb0 & Hf0). pose proof Hr as [Hinv Hsize Hbm Hdl Hheld _].
  destruct (balloc_loop_run (S (Z.to_nat (sb_size (fs_sb s)))) 0 s Hr) as (r & s1 & R & S1 & I1 & Hh1 & _ & P1); try done; try lia.
  { unfold BPB, BSIZE. lia. } { intros. by apply Hnh. }
  destruct P1 as [(_ & _ & _ & _ & Hall)|(Hrr & Hfr & _ & V1 & L1 & D1)]; [rewrite Hall in Hf0; done|].
  destruct (same_fs_sb _ _ S1) as (Esb & _). set (sb := fs_sb s) in *. set (k := BBLOCK r sb) in *.
  assert (forall c, 0 <= c < sb_size sb -> BBLOCK c sb <> r) as Hnr by (intros c Hc; by apply Hbmap).
  assert (vw s1 k = set_bit (vw s k) (r mod BPB)) as Vk.
  { rewrite V1, upd_ne by (by apply Hnr). apply upd_eq. }
  destruct (Hbm r Hrr) as (_ & _ & Hlen). fold k in Hlen. destruct (bmap_index r ltac:(lia)) as [B1 B2].
  assert (alloc_ready s1) as Hr1.
  { split; rewrite ?Esb, ?Hh1, ?L1, ?D1; fold sb.
    - exact I1.
    - exact Hsize.
    - intros c Hc. destruct (Hbm c Hc) as (? & ? & Hlc). split; [done|]. split; [done|].
      rewrite V1, upd_ne by (by apply Hnr). unfold upd. bcase; [|done]. unfold set_bit. by rewrite length_insert.
    - clear -Hdl. set_solver.
    - exact Hheld.
    - intros c _. pose proof (size_union_le (logged s) k (size (logged s) + 1)). pose proof (size_union_le (logged s ∪ {[k]}) r (size (logged s) + 2)).
      set (L := logged s ∪ {[k]} ∪ {[r]}) in *. pose proof (size_union_le L (BBLOCK c sb) (size (logged s) + 3)).
      apply size_union_le. lia. }
  destruct (bfree_run s1 r Hr1) as (s2 & R2 & _ & _ & _ & V2 & _).
  { by rewrite Esb. } { rewrite Esb. fold sb. unfold block_free. fold k. rewrite Vk, set_bit_free by (done || lia). by rewrite Z.eqb_refl. }
  exists r, s1, s2. split; [by unfold balloc; rewrite (mthen_ret get_sb _ s sb s eq_refl)|]. split; [done|].
  intros c Hc. rewrite V2, Esb. fold sb k. unfold upd. destruct (Z.eqb_spec (BBLOCK c sb) k) as [E|E].
  - rewrite Vk, E. apply clear_set_bit; [done | lia | done].
  - rewrite V1, !upd_ne by (done || by apply Hnr). done.
Qed.
End Blocks.

(** ** Instances on the ideal store *)

Definition sample_sb : superblock := Superblock FSMAGIC 100 50 32 30 2 32 45.
(** Blocks 0 to 49 in use. *)
Definition sample_bitmap : block := replicate 6 255 ++ 3 :: replicate 1017 0.
Definition sample_fs : fs_st ideal flat_mem :=
  FsSt _ _ sample_sb (Ideal (upd (fun _ => zero_block) 45 sample_bitmap) ∅ ∅ ∅) [] (FlatMem (fun _ => 0) (fun _ => true)).

Lemma sample_bblock b : 0 <= b < 100 -> BBLOCK b sample_sb = 45.
Proof. intros. unfold BBLOCK, BPB, BSIZE. simpl. rewrite Z.div_small; lia. Qed.

Lemma sample_ready : alloc_ready (TS := ideal_store 1) sample_fs.
Proof.
  split.
  - exact I.
  - cbn. lia.
  - intros b Hb. change (fs_sb sample_fs) with sample_sb in *. rewrite (sample_bblock b Hb).
    split; [lia|]. split; [apply not_elem_of_empty | reflexivity].
  - apply empty_subseteq.
  - vm_compute. lia.
  - intros b _. change (logged sample_fs) with (∅ : gset Z). apply size_union_le.
    pose proof (size_union_le ∅ (BBLOCK b (fs_sb sample_fs)) 1) as Hu. rewrite size_empty in Hu. lia.
Qed.

Lemma balloc_first_free_witness : exists r s', balloc 1 sample_fs = Ret r s' /\ r = 50.
Proof.
  destruct (balloc_first_free (TS := ideal_store 1) sample_fs sample_ready
    ltac:(intros; apply not_elem_of_empty)) as (r & s' & R & _ & _ & _ & _ & P).
  exists r, s'. split; [exact R|]. revert R. vm_compute. by intros [= <- _].
Defined.

Lemma bfree_frees_witness :
  bfree 1 60 sample_fs = Panic "freeing free block" /\ exists s', bfree 1 10 sample_fs = Ret tt s'.
Proof.
  pose proof (bfree_frees (TS := ideal_store 1) sample_fs 60 sample_ready ltac:(vm_compute; split; [discriminate | reflexivity])) as H60.
  pose proof (bfree_frees (TS := ideal_store 1) sample_fs 10 sample_ready ltac:(vm_compute; split; [discriminate | reflexivity])) as H10.
  split; [exact H60|]. destruct H10 as (s' & R & _). exists s'. exact R.
Defined.

Lemma balloc_bfree_roundtrip_witness :
  exists r s1 s2, balloc 1 sample_fs = Ret r s1 /\ bfree 1 r s1 = Ret tt s2 /\ id_view (fs_tx s2) 45 = sample_bitmap.
Proof.
  destruct (balloc_bfree_roundtrip (TS := ideal_store 1) sample_fs sample_ready
    ltac:(intros; apply not_elem_of_empty)) as (r & s1 & s2 & R1 & R2 & Hv).
  - vm_compute. lia.
  - intros b c Hb Hc. change (fs_sb sample_fs) with sample_sb in *. rewrite (sample_bblock c Hc). intros Hf <-.
    vm_compute in Hf. discriminate.
  - exists 50. split; [vm_compute; split; [discriminate | reflexivity] | reflexivity].
  - exists r, s1, s2. split; [exact R1|]. split; [exact R2|]. exact (Hv 0 ltac:(vm_compute; split; [discriminate | reflexivity])).
Defined.
