(* ===== verification/FsInode.v ===== *)
(** Inodes: the on-disk encoding and the in-memory table of fs.c. *)

From S2P Require Import Prelude.
From S2P Require Import Bytes.
From S2P Require Import Locks.
From S2P Require Import BlockCache.
From S2P Require Import TxStore.
From S2P Require Import UserMem.
From S2P Require Import Fs.
From S2P Require Import FsBlocks.

(** Side conditions on the length of a block after stores. *)
Ltac plen := first [lia | rewrite length_put; plen].

(** ** On-disk inodes *)

(** The values the fields of a [struct dinode] can have. *)
Record dinode_ok (d : dinode) : Prop := {
  dk_type : - 2 ^ 15 <= di_type d < 2 ^ 15;
  dk_major : - 2 ^ 15 <= di_major d < 2 ^ 15;
  dk_minor : - 2 ^ 15 <= di_minor d < 2 ^ 15;
  dk_nlink : - 2 ^ 15 <= di_nlink d < 2 ^ 15;
  dk_size : 0 <= di_size d < 2 ^ 32;
  dk_len : length (di_addrs d) = 13%nat;
  dk_addrs : Forall (fun a => 0 <= a < 2 ^ 32) (di_addrs d) }.

Lemma get_short_put v off b :
  (off + 2 <= length b)%nat -> - 2 ^ 15 <= v < 2 ^ 15 -> get_short off (put 2 off v b) = v.
Proof.
  intros Hl Hv. unfold get_short. rewrite get_put_eq by done. change (8 * Z.of_nat 2) with 16. unfold i16.
  rewrite Zplus_mod_idemp_l. rewrite Z.mod_small; lia.
Qed.

Definition put_addrs_n (n o : nat) (addrs : list Z) (b : list Z) : list Z :=
  fold_left (fun b i => put 4 (o + 12 + 4 * i) (addrs !!! i) b) (seq 0 n) b.

Lemma put_addrs_S n o addrs b :
  put_addrs_n (S n) o addrs b = put 4 (o + 12 + 4 * n) (addrs !!! n) (put_addrs_n n o addrs b).
Proof. unfold put_addrs_n. by rewrite seq_S, fold_left_app. Qed.

Lemma put_addrs_length n o addrs b :
  (o + 12 + 4 * n <= length b)%nat -> length (put_addrs_n n o addrs b) = length b.
Proof.
  induction n as [|n IH]; intros Hl; [done|]. rewrite put_addrs_S, length_put; rewrite IH; lia.
Qed.

Lemma get_put_addrs_other n o addrs b m p :
  (o + 12 + 4 * n <= length b)%nat -> (p + m <= o + 12 \/ o + 12 + 4 * n <= p)%nat ->
  get m p (put_addrs_n n o addrs b) = get m p b.
Proof.
  induction n as [|n IH]; intros Hl Hp; [done|].
  rewrite put_addrs_S, get_put_ne; [apply IH; lia | rewrite put_addrs_length; lia | lia].
Qed.

Lemma get_put_addrs n o addrs b j :
  (o + 12 + 4 * n <= length b)%nat -> (j < n)%nat -> 0 <= addrs !!! j < 2 ^ 32 ->
  get_uint (o + 12 + 4 * j) (put_addrs_n n o addrs b) = addrs !!! j.
Proof.
  induction n as [|n IH]; intros Hl Hj Hr; [lia|]. rewrite put_addrs_S.
  destruct (decide (j = n)) as [->|]; [apply get_uint_put; [rewrite put_addrs_length; lia | done]|].
  unfold get_uint in *. rewrite get_put_ne; [apply IH; lia | rewrite put_addrs_length; lia | lia].
Qed.

Lemma put_dinode_length o d b : (o + 64 <= length b)%nat -> length (put_dinode o d b) = length b.
Proof.
  intros Hl. unfold put_dinode. change (put_addrs o ?a ?x) with (put_addrs_n 13 o a x).
  rewrite put_addrs_length; plen.
Qed.

(** Reading back an inode written to a block, and the inodes next to it. *)
Lemma get_put_dinode o d b :
  (o + 64 <= length b)%nat -> dinode_ok d -> get_dinode o (put_dinode o d b) = d.
Proof.
  intros Hl [K1 K2 K3 K4 K5 K6 K7]. unfold put_dinode. change (put_addrs o ?a ?x) with (put_addrs_n 13 o a x).
  set (b5 := put 4 (o + 8) _ _). assert (length b5 = length b) as L5 by (unfold b5; plen).
  unfold get_dinode.
  assert (forall n p, (p + n <= o + 12)%nat -> get n p (put_addrs_n 13 o (di_addrs d) b5) = get n p b5) as Hpre.
  { intros n p Hp. apply get_put_addrs_other; lia. }
  destruct d as [ty ma mi nl sz ad]. cbn [di_type di_major di_minor di_nlink di_size di_addrs] in *. f_equal.
  - unfold get_short. rewrite Hpre by lia. unfold b5. rewrite !get_put_ne by plen. by apply get_short_put; lia.
  - unfold get_short. rewrite Hpre by lia. unfold b5. rewrite 3!get_put_ne by plen.
    by apply get_short_put; plen.
  - unfold get_short. rewrite Hpre by lia. unfold b5. rewrite 2!get_put_ne by plen.
    by apply get_short_put; plen.
  - unfold get_short. rewrite Hpre by lia. unfold b5. rewrite get_put_ne by plen.
    by apply get_short_put; plen.
  - unfold get_uint. rewrite Hpre by lia. unfold b5. by apply get_uint_put; plen.
  - apply list_eq_same_length with 13%nat; [done | by rewrite length_fmap, length_seq|].
    intros j x y Hj. rewrite list_lookup_fmap, lookup_seq_lt by done. simpl. intros [= <-] Hy.
    rewrite <- (list_lookup_total_correct _ _ _ Hy). apply get_put_addrs; [lia | done|].
    rewrite (list_lookup_total_correct _ _ _ Hy). by eapply (Forall_lookup_1 _ _ _ _ K7).
Qed.

Lemma get_dinode_ext o b b' :
  (forall n p, (o <= p)%nat -> (p + n <= o + 64)%nat -> get n p b = get n p b') -> get_dinode o b = get_dinode o b'.
Proof.
  intros He. unfold get_dinode, get_short, get_uint. rewrite !He by lia. f_equal.
  apply list_fmap_ext. intros i j [-> Hj]%lookup_seq. apply He; unfold NDIRECT in *; lia.
Qed.

Lemma get_put_dinode_other o o' d b :
  (o + 64 <= length b)%nat -> (o' + 64 <= o \/ o + 64 <= o')%nat ->
  get_dinode o' (put_dinode o d b) = get_dinode o' b.
Proof.
  intros Hl Ho. apply get_dinode_ext. intros n p Hp1 Hp2. unfold put_dinode.
  change (put_addrs o ?a ?x) with (put_addrs_n 13 o a x).
  rewrite get_put_addrs_other; [|plen | lia].
  rewrite !get_put_ne by plen. done.
Qed.

Lemma dinode_off_bound inum : 0 <= inum -> (dinode_off inum + 64 <= 1024)%nat.
Proof. unfold dinode_off, SZ_DINODE, IPB, BSIZE, SZ_DINODE. intros. simpl. dlia. Qed.
Lemma dinode_off_apart i j sb :
  0 <= i -> 0 <= j -> IBLOCK i sb = IBLOCK j sb -> i <> j ->
  (dinode_off j + 64 <= dinode_off i \/ dinode_off i + 64 <= dinode_off j)%nat.
Proof. unfold dinode_off, IBLOCK, SZ_DINODE, IPB, BSIZE, SZ_DINODE. simpl. intros. dlia. Qed.

(** ** The inode table *)

Section Table.
Context {T H U : Type} `{TxOps T H} `{UserMem U}.
Implicit Type s : fs_st T U.

(** At most one entry in use for each inode of each device. *)
Definition itable_ok (tbl : list inode) : Prop :=
  forall i j a b, tbl !! i = Some a -> tbl !! j = Some b -> 0 < i_ref a -> 0 < i_ref b ->
    i_dev a = i_dev b -> i_inum a = i_inum b -> i = j.

Lemma itable_ok_insert tbl i ip' :
  itable_ok tbl ->
  (forall j b, tbl !! j = Some b -> j <> i -> 0 < i_ref b -> i_dev b = i_dev ip' -> i_inum b = i_inum ip' -> False) ->
  itable_ok (<[i := ip']> tbl).
Proof.
  intros Hok Hno x y a b Ha Hb Hra Hrb Hd Hn.
  destruct (decide (x = i)) as [->|Hx], (decide (y = i)) as [->|Hy]; [done| | |].
  - rewrite (list_lookup_insert_ne tbl) in Hb by done. pose proof (lookup_lt_Some _ _ _ Ha) as Hlt. rewrite length_insert in Hlt.
    rewrite (list_lookup_insert_eq tbl) in Ha by done. injection Ha as <-. exfalso. by eapply (Hno y b).
  - rewrite (list_lookup_insert_ne tbl) in Ha by done. pose proof (lookup_lt_Some _ _ _ Hb) as Hlt. rewrite length_insert in Hlt.
    rewrite (list_lookup_insert_eq tbl) in Hb by done. injection Hb as <-. exfalso. by eapply (Hno x a).
  - rewrite (list_lookup_insert_ne tbl) in Ha, Hb by done. by eapply (Hok x y a b).
Qed.

Lemma iget_scan_spec tbl k empty dev inum :
  match iget_scan tbl k empty dev inum with
  | inl i => exists ip, (k <= i)%nat /\ tbl !! (i - k)%nat = Some ip /\ 0 < i_ref ip /\ i_dev ip = dev /\ i_inum ip = inum
  | inr r =>
      (forall j ip, tbl !! j = Some ip -> 0 < i_ref ip -> i_dev ip = dev -> i_inum ip = inum -> False)
      /\ match r with
         | Some i => empty = Some i \/ (empty = None /\ (k <= i)%nat /\ exists ip, tbl !! (i - k)%nat = Some ip /\ i_ref ip = 0)
         | None => empty = None /\ forall j ip, tbl !! j = Some ip -> i_ref ip <> 0
         end
  end.
Proof.
  revert k empty. induction tbl as [|ip tbl IH]; intros k empty; cbn [iget_scan].
  { split; [done|]. destruct empty; [by left | done]. }
  destruct ((i_ref ip >? 0) && (i_dev ip =? dev) && (i_inum ip =? inum)) eqn:Hm.
  { rewrite !andb_true_iff, Z.gtb_lt, !Z.eqb_eq in Hm. exists ip. rewrite Nat.sub_diag. simpl. intuition lia. }
  assert (0 < i_ref ip -> i_dev ip = dev -> i_inum ip = inum -> False) as Hno.
  { intros. rewrite !andb_false_iff, Z.eqb_neq, Z.eqb_neq in Hm. rewrite Z.gtb_ltb, Z.ltb_ge in Hm. lia. }
  set (e := match empty with Some _ => empty | None => _ end). specialize (IH (k + 1)%nat e).
  destruct (iget_scan tbl (k + 1) e dev inum) as [i|r].
  - destruct IH as (ip' & Hk & Hl & ?). exists ip'. split; [lia|].
    replace (i - k)%nat with (S (i - (k + 1))) by lia. done.
  - destruct IH as [IH1 IH2]. split.
    + intros [|j] ip' Hl; simpl in Hl; [injection Hl as <-; done | by eapply IH1].
    + destruct r as [i|].
      * destruct IH2 as [He|(He & Hk & ip' & Hl & Hz)]; unfold e in He; destruct empty as [x|]; try done; [by left| |].
        -- right. destruct (Z.eqb_spec (i_ref ip) 0) as [Hz|]; [|done]. injection He as <-.
           split; [done|]. split; [lia|]. exists ip. rewrite Nat.sub_diag. done.
        -- right. split; [done|]. split; [lia|]. exists ip'. replace (i - k)%nat with (S (i - (k + 1))) by lia. done.
      * destruct IH2 as [He Hall]. unfold e in He. destruct empty; [done|]. split; [done|].
        intros [|j] ip' Hl; simpl in Hl; [injection Hl as <-|by eapply Hall].
        intros Hz. by rewrite Hz in He.
Qed.

(** The inode table.  [iget] returns an entry for the inode asked for
    with its reference count raised by one, keeps at most one entry in use
    per inode, leaves the other entries alone, and panics exactly when the
    inode is not in the table and no entry is free. *)
Theorem iget_unique s dev inum :
  itable_ok (fs_itable s) ->
  (forall i ip, fs_itable s !! i = Some ip -> 0 <= i_ref ip < 2 ^ 31 - 1) ->
  (exists i s' ip ip', iget dev inum s = Ret i s' /\ itable_ok (fs_itable s')
     /\ fs_itable s !! i = Some ip /\ fs_itable s' = <[i := ip']> (fs_itable s)
     /\ i_dev ip' = dev /\ i_inum ip' = inum
     /\ (i_ref ip = 0 /\ i_ref ip' = 1 /\ i_valid ip' = false
         \/ i_dev ip = dev /\ i_inum ip = inum /\ i_ref ip' = i_ref ip + 1 /\ i_valid ip' = i_valid ip))
  \/ (iget dev inum s = Panic "iget: no inodes"
      /\ (forall i ip, fs_itable s !! i = Some ip -> 0 < i_ref ip /\ (i_dev ip <> dev \/ i_inum ip <> inum))).
Proof.
  intros Hok Href. unfold iget. rewrite (mthen_ret (gets fs_itable) _ s (fs_itable s) s eq_refl).
  pose proof (iget_scan_spec (fs_itable s) 0 None dev inum) as Hscan.
  destruct (iget_scan _ _ _ _ _) as [i|[i|]].
  - left. destruct Hscan as (ip & _ & Hl & Hr & Hd & Hn). rewrite Nat.sub_0_r in Hl. pose proof (Href i ip Hl) as Hb.
    exists i, (upd_inode i (fun ip => set_i_ref (i32 (i_ref ip + 1)) ip) s), ip, (set_i_ref (i32 (i_ref ip + 1)) ip).
    split; [done|]. assert (fs_itable (upd_inode i (fun ip => set_i_ref (i32 (i_ref ip + 1)) ip) s) = <[i := set_i_ref (i32 (i_ref ip + 1)) ip]> (fs_itable s)) as E.
    { simpl. by rewrite (alter_insert _ _ _ _ Hl). }
    rewrite E. split; [|rewrite i32_small by lia; repeat split; auto].
    apply itable_ok_insert; [done|]. simpl. intros j b Hj Hji Hrb E1 E2. apply Hji.
    by apply (Hok j i b ip).
  - left. destruct Hscan as [Hno [?|(_ & _ & ip & Hl & Hz)]]; [done|]. rewrite Nat.sub_0_r in Hl.
    exists i, (upd_inode i (recycle_inode dev inum) s), ip, (recycle_inode dev inum ip).
    split; [done|]. assert (fs_itable (upd_inode i (recycle_inode dev inum) s) = <[i := recycle_inode dev inum ip]> (fs_itable s)) as E.
    { simpl. by rewrite (alter_insert _ _ _ _ Hl). }
    rewrite E. split; [|repeat split; auto].
    apply itable_ok_insert; [done|]. simpl. intros j b Hj _ Hrb E1 E2. by eapply (Hno j b).
  - right. destruct Hscan as [Hno [_ Hall]]. split; [done|]. intros i ip Hl. pose proof (Href i ip Hl). pose proof (Hall i ip Hl).
    split; [lia|]. destruct (decide (i_dev ip = dev)), (decide (i_inum ip = inum)); auto. exfalso. eapply Hno; eauto. lia.
Qed.
End Table.

(** ** Writing an inode back and reading it in *)

Section Sync.
Context {T H U : Type} `{TS : TxStore T H dev} `{UserMem U}.
Context (pid : Z).
Implicit Type s : fs_st T U.

(** What [iupdate] and [ilock] of entry [i] rely on. *)
Record inode_ready s (i : nat) (ip : inode) : Prop := {
  ir_inv : ts_inv (fs_tx s);
  ir_at : fs_itable s !! i = Some ip;
  ir_dev : i_dev ip = dev;
  ir_inum : 0 <= i_inum ip;
  ir_block : 0 <= IBLOCK (i_inum ip) (fs_sb s) < 2 ^ 31;
  ir_free : IBLOCK (i_inum ip) (fs_sb s) ∉ held s;
  ir_held : (size (held s) < MAXHELD)%nat;
  ir_dirty : dirty s ⊆ logged s;
  ir_logged : (size (logged s ∪ {[IBLOCK (i_inum ip) (fs_sb s)]}) <= 10)%nat;
  ir_len : length (vw s (IBLOCK (i_inum ip) (fs_sb s))) = 1024%nat }.

Lemma inode_at_run s i ip : fs_itable s !! i = Some ip -> inode_at i s = Ret ip s.
Proof. intros Hl. unfold inode_at, gets. by rewrite (list_lookup_total_correct _ _ _ Hl). Qed.

Lemma iupdate_run s i ip :
  inode_ready s i ip ->
  let k := IBLOCK (i_inum ip) (fs_sb s) in
  exists s', iupdate i s = Ret tt s' /\ same_fs s s' /\ ts_inv (fs_tx s') /\ held s' = held s
    /\ (forall j, vw s' j = upd (vw s) k (put_dinode (dinode_off (i_inum ip)) (i_dinode ip) (vw s k)) j)
    /\ logged s' = logged s ∪ {[k]} /\ dirty s' = dirty s ∪ {[k]}.
Proof.
  intros [Hinv Hat Hdev Hnum Hblk Hfree Hheld Hdl Hlog Hlen] k. unfold iupdate.
  rewrite (mthen_ret _ _ _ _ _ (inode_at_run s i ip Hat)). rewrite (mthen_ret get_sb _ s (fs_sb s) s eq_refl).
  rewrite Hdev. fold k. destruct (bread_run s k Hinv Hblk Hfree Hheld) as (h & s1 & R1 & S1 & I1 & V1 & E1 & E2 & E3 & Hh & D1 & _).
  rewrite (mthen_ret _ _ _ _ _ R1), (mthen_ret _ _ _ _ _ D1).
  destruct (rewrite_run s1 k h (put_dinode (dinode_off (i_inum ip)) (i_dinode ip) (vw s k)) I1 Hh)
    as (s2 & s3 & s4 & R2 & R3 & R4 & S4 & I4 & V4 & F1 & F2 & F3 & _).
  { rewrite E1. set_solver. } { by rewrite E2. }
  exists s4. split; [by rewrite (mthen_ret _ _ _ _ _ R2), (mthen_ret _ _ _ _ _ R3)|].
  split; [by eapply same_fs_trans|]. split; [done|]. rewrite F1, F2, F3, E1, E2, E3. split; [set_solver|].
  split; [|done]. intros j. rewrite V4. unfold upd. bcase; [done|]. apply V1.
Qed.

Lemma alter_lookup {A} (f : A -> A) (l : list A) i x : l !! i = Some x -> alter f i l !! i = Some (f x).
Proof. intros Hx. by rewrite list_lookup_alter_eq, Hx. Qed.

Lemma alter_over {A} (f : A -> A) (l : list A) i x : (i < length l)%nat -> alter f i (<[i := x]> l) = <[i := f x]> l.
Proof. intros Hl. rewrite (alter_insert f _ i x) by (by apply list_lookup_insert_eq). by rewrite list_insert_insert_eq. Qed.

(** [ilock] of an entry that is not valid fills it from the disk. *)
Lemma ilock_load_run s i ip :
  inode_ready s i ip -> i_valid ip = false -> 1 <= i_ref ip -> slk_locked (i_lock ip) = false ->
  let d := get_dinode (dinode_off (i_inum ip)) (vw s (IBLOCK (i_inum ip) (fs_sb s))) in
  di_type d <> 0 ->
  exists s' ip', ilock pid (Some i) s = Ret tt s' /\ fs_itable s' !! i = Some ip'
    /\ i_dinode ip' = d /\ i_valid ip' = true /\ i_lock ip' = Sleeplock true pid
    /\ i_dev ip' = i_dev ip /\ ts_inv (fs_tx s') /\ (forall j, vw s' j = vw s j) /\ held s' = held s
    /\ logged s' = logged s /\ dirty s' = dirty s /\ fs_sb s' = fs_sb s /\ fs_user s' = fs_user s
    /\ ip' = set_i_valid true (set_i_dinode d (set_i_lock (Sleeplock true pid) ip)) /\ fs_itable s' = <[i := ip']> (fs_itable s).
Proof.
  intros [Hinv Hat Hdev Hnum Hblk Hfree Hheld Hdl Hlog Hlen] Hv Hr Hul d Hty. unfold ilock.
  rewrite (mthen_ret _ _ _ _ _ (inode_at_run s i ip Hat)). destruct (Z.ltb_spec (i_ref ip) 1); [lia|].
  unfold acquiresleep. rewrite Hul, Hv. cbv beta iota delta [negb].
  set (s1 := upd_inode i (set_i_lock (Sleeplock true pid)) s).
  rewrite (mthen_ret (set_inode i (set_i_lock (Sleeplock true pid))) _ s tt s1 eq_refl).
  rewrite (mthen_ret get_sb _ s1 (fs_sb s) s1 eq_refl). rewrite Hdev. set (k := IBLOCK (i_inum ip) (fs_sb s)) in *.
  destruct (bread_run s1 k Hinv Hblk Hfree Hheld) as (h & s2 & R2 & S2 & I2 & V2 & E1 & E2 & E3 & Hh & D2 & _).
  rewrite (mthen_ret _ _ _ _ _ R2), (mthen_ret _ _ _ _ _ D2). change (vw s1 k) with (vw s k). fold d.
  set (s3 := upd_inode i (set_i_dinode d) s2).
  rewrite (mthen_ret (set_inode i (set_i_dinode d)) _ s2 tt s3 eq_refl).
  destruct (fs_brelse_run s3 k h I2 Hh) as (s4 & R4 & S4 & I4 & V4 & F1 & F2 & F3 & _).
  { change (held s3) with (held s2). rewrite E1. set_solver. }
  { change (dirty s3) with (dirty s2). change (logged s3) with (logged s2). rewrite E2, E3. apply Hdl. }
  rewrite (mthen_ret _ _ _ _ _ R4). set (s5 := upd_inode i (set_i_valid true) s4).
  rewrite (mthen_ret (set_inode i (set_i_valid true)) _ s4 tt s5 eq_refl).
  destruct (same_fs_sb _ _ S2) as (B2 & T2 & U2). destruct (same_fs_sb _ _ S4) as (B4 & T4 & U4).
  assert (fs_itable s5 !! i = Some (set_i_valid true (set_i_dinode d (set_i_lock (Sleeplock true pid) ip)))) as Hl5.
  { simpl. apply alter_lookup. rewrite T4. simpl. apply alter_lookup. rewrite T2. simpl. by apply alter_lookup. }
  rewrite (mthen_ret _ _ _ _ _ (inode_at_run s5 i _ Hl5)). cbn [i_type set_i_valid set_i_dinode].
  destruct (Z.eqb_spec (di_type d) 0); [done|]. eexists _, _. split; [reflexivity|]. split; [exact Hl5|].
  split; [by destruct d|]. do 3 (split; [done|]). split; [done|].
  change (vw s5) with (vw s4). change (held s5) with (held s4). change (logged s5) with (logged s4). change (dirty s5) with (dirty s4).
  change (vw s3) with (vw s2) in V4. change (held s3) with (held s2) in F1. change (logged s3) with (logged s2) in F2.
  change (dirty s3) with (dirty s2) in F3. rewrite F1, F2, F3, E1, E2, E3.
  change (held s1) with (held s) in *. split; [intros j; by rewrite V4, V2|]. split; [set_solver|].
  do 2 (split; [done|]). split; [exact (eq_trans B4 B2)|]. split; [exact (eq_trans U4 U2)|]. split; [done|].
  simpl. rewrite T4. simpl. rewrite T2. simpl. rewrite (alter_insert _ _ _ _ Hat).
  by rewrite !alter_over by (by eapply lookup_lt_Some).
Qed.

(** [iupdate] and [ilock] agree on the disk format.  An inode written
    back by [iupdate] is what a later [ilock] of an invalidated entry reads,
    field for field, and no other inode on the disk changes. *)
Theorem iupdate_ilock_roundtrip s i ip d' :
  inode_ready s i ip -> dinode_ok (i_dinode ip) -> i_type ip <> 0 -> 1 <= i_ref ip -> slk_locked (i_lock ip) = false ->
  exists s1 s2 ip2,
    iupdate i s = Ret tt s1
    /\ ilock pid (Some i) (upd_inode i (fun ip => set_i_valid false (set_i_dinode d' ip)) s1) = Ret tt s2
    /\ fs_itable s2 !! i = Some ip2 /\ i_dinode ip2 = i_dinode ip /\ i_valid ip2 = true
    /\ forall j, 0 <= j -> j <> i_inum ip ->
         get_dinode (dinode_off j) (vw s1 (IBLOCK j (fs_sb s))) = get_dinode (dinode_off j) (vw s (IBLOCK j (fs_sb s))).
Proof.
  intros Hr Hok Hty Href Hul. destruct (iupdate_run s i ip Hr) as (s1 & R1 & S1 & I1 & H1' & V1 & L1 & D1).
  destruct (same_fs_sb _ _ S1) as (Esb & Etb & _). pose proof (dinode_off_bound (i_inum ip) (ir_inum _ _ _ Hr)) as Hoff.
  pose proof Hr as [Hinv Hat Hdev Hnum Hblk Hfree Hheld Hdl Hlog Hlen]. set (k := IBLOCK (i_inum ip) (fs_sb s)) in *.
  set (s1' := upd_inode i (fun ip => set_i_valid false (set_i_dinode d' ip)) s1).
  set (ip1 := set_i_valid false (set_i_dinode d' ip)).
  assert (Vk : vw s1 k = put_dinode (dinode_off (i_inum ip)) (i_dinode ip) (vw s k)) by (rewrite V1; apply upd_eq).
  destruct (ilock_load_run s1' i ip1) as (s2 & ip2 & R2 & Hl2 & Hd2 & Hv2 & _).
  { split; try done.
    - unfold s1'. simpl. rewrite Etb. by apply (alter_lookup (fun ip => set_i_valid false (set_i_dinode d' ip))).
    - simpl. by rewrite Esb.
    - simpl. rewrite Esb. change (held s1') with (held s1). by rewrite H1'.
    - change (held s1') with (held s1). by rewrite H1'.
    - change (dirty s1') with (dirty s1). change (logged s1') with (logged s1). rewrite L1, D1. set_solver.
    - change (logged s1') with (logged s1). simpl. rewrite L1, Esb. eapply size_sub_le; [exact Hlog | clear; set_solver].
    - simpl. rewrite Esb. change (vw s1') with (vw s1). fold k. rewrite Vk, put_dinode_length; lia. }
  { done. } { done. } { done. }
  { change (i_inum ip1) with (i_inum ip). change (fs_sb s1') with (fs_sb s1). change (vw s1') with (vw s1).
    rewrite Esb. fold k. rewrite Vk, get_put_dinode by (done || lia). done. }
  exists s1, s2, ip2. split; [done|]. split; [exact R2|]. split; [done|]. split.
  { rewrite Hd2. change (i_inum ip1) with (i_inum ip). change (fs_sb s1') with (fs_sb s1). change (vw s1') with (vw s1).
    rewrite Esb. fold k. by rewrite Vk, get_put_dinode by (done || lia). }
  split; [done|]. intros j Hj Hne. rewrite V1. unfold upd. destruct (Z.eqb_spec (IBLOCK j (fs_sb s)) k) as [E|]; [|done].
  rewrite E. apply get_put_dinode_other; [lia|].
  destruct (dinode_off_apart (i_inum ip) j (fs_sb s)) as [?|?]; [done | done | done | congruence | by left | by right].
Qed.
End Sync.

(** ** Instances on the ideal store *)

Definition sample_inode : inode := Inode 1 5 1 initsleeplock true 2 0 0 1 700 (60 :: replicate 12 0).
Definition sample_fs2 : fs_st ideal flat_mem :=
  FsSt _ _ sample_sb (fs_tx sample_fs) (sample_inode :: replicate 49 inhabitant) (fs_user sample_fs).

Lemma iget_unique_witness :
  exists i s', iget 1 5 sample_fs2 = Ret i s' /\ i = 0%nat /\ itable_ok (fs_itable s').
Proof.
  destruct (iget_unique sample_fs2 1 5) as [(i & s' & ip & ip' & R & Hok & _)|[R _]].
  - intros i j a b Ha Hb Hra Hrb _ _.
    assert (forall k x, fs_itable sample_fs2 !! k = Some x -> 0 < i_ref x -> k = 0%nat) as H0.
    { intros [|k] x Hx Hrx; [done|]. change (replicate 49 inhabitant !! k = Some x) in Hx.
      apply lookup_replicate in Hx as [-> _]. vm_compute in Hrx. discriminate. }
    by rewrite (H0 i a), (H0 j b).
  - intros [|k] x Hx; [injection Hx as <-; vm_compute; split; [discriminate | reflexivity]|].
    change (replicate 49 inhabitant !! k = Some x) in Hx. apply lookup_replicate in Hx as [-> _]. vm_compute. split; [discriminate | reflexivity].
  - exists i, s'. split; [exact R|]. split; [|exact Hok]. revert R. vm_compute. by intros [= <- _].
  - exfalso. revert R. vm_compute. discriminate.
Defined.

Lemma iupdate_ilock_roundtrip_witness :
  exists s1 s2, iupdate 0 sample_fs2 = Ret tt s1
    /\ ilock 7 (Some 0%nat) (upd_inode 0 (fun ip => set_i_valid false (set_i_dinode zero_dinode ip)) s1) = Ret tt s2.
Proof.
  destruct (iupdate_ilock_roundtrip (TS := ideal_store 1) 7 sample_fs2 0 sample_inode zero_dinode)
    as (s1 & s2 & ip2 & R1 & R2 & _).
  - split; try reflexivity; try exact I.
    + cbn. lia.
    + vm_compute. split; [discriminate | reflexivity].
    + apply not_elem_of_empty.
    + vm_compute. lia.
    + vm_compute. lia.
  - split; cbn; try lia. repeat constructor; lia.
  - discriminate.
  - cbn. lia.
  - reflexivity.
  - exists s1, s2. split; [exact R1 | exact R2].
Defined.
