(* ===== verification/FsContent.v ===== *)
(** The contents of files on the disk: the tree of block addresses of an
    inode and the bytes it leads to, as [bmap] of fs.c and [iappend] of
    mkfs.c both read it.

    An inode has 269 address slots: the twelve direct addresses and the
    address of the indirect block (slots 0 to 12, in the inode), and the 256
    entries of the indirect block (slots 13 to 268). *)

From S2P Require Import Prelude.
From S2P Require Import Bytes.
From S2P Require Import BlockCache.
From S2P Require Import Fs.
From S2P Require Import FsInode.

(** ** Blocks *)

Lemma length_splice off xs b : (off + length xs <= length b)%nat -> length (splice off xs b) = length b.
Proof. intros. unfold splice. rewrite !length_app, length_take, length_drop. lia. Qed.

Lemma splice_lookup off xs (b : list Z) j :
  (off + length xs <= length b)%nat ->
  (splice off xs b : list Z) !! j = if decide (off <= j < off + length xs)%nat then xs !! (j - off)%nat else b !! j.
Proof.
  intros Hl. unfold splice, block. rewrite lookup_app. destruct (decide (j < off)%nat).
  - rewrite decide_False by lia. rewrite lookup_take_lt by done. destruct (b !! j) eqn:E; [done|]. apply lookup_ge_None in E. lia.
  - rewrite lookup_take_ge, length_take by lia. replace (off `min` length b)%nat with off by lia. rewrite lookup_app.
    case_decide.
    + destruct (xs !! (j - off)%nat) eqn:E; [done|]. apply lookup_ge_None in E. lia.
    + rewrite (proj2 (lookup_ge_None xs _)) by lia. rewrite lookup_drop. f_equal. lia.
Qed.

Lemma splice_total off xs (b : list Z) j :
  (off + length xs <= length b)%nat ->
  (splice off xs b : list Z) !!! j = if decide (off <= j < off + length xs)%nat then xs !!! (j - off)%nat else b !!! j.
Proof. intros. rewrite !list_lookup_total_alt, splice_lookup by done. by case_decide. Qed.

(** ** Address slots *)

Definition NSLOT : nat := 269.

(** The block a slot names, 0 for none. *)
Definition slot_addr (v : Z -> block) (ad : list Z) (s : nat) : Z :=
  if (s <=? NDIRECT)%nat then ad !!! s
  else if ad !!! NDIRECT =? 0 then 0
  else get_uint (4 * (s - 13)) (v (ad !!! NDIRECT)).

(** The slot of block [bn] of a file. *)
Definition data_slot (bn : Z) : nat := if bn <? 12 then Z.to_nat bn else Z.to_nat bn + 1.
Definition data_block (v : Z -> block) (ad : list Z) (bn : Z) : Z := slot_addr v ad (data_slot bn).
Definition byte_at (v : Z -> block) (ad : list Z) (k : Z) : Z :=
  v (data_block v ad (k / BSIZE)) !!! Z.to_nat (k mod BSIZE).

(** The bytes of the file. *)
Definition content (v : Z -> block) (d : dinode) : list Z :=
  (fun k => byte_at v (di_addrs d) (Z.of_nat k)) <$> seq 0 (Z.to_nat (di_size d)).

(** Give slot [s] the block [a]: the disk and the inode after it. *)
Definition assign (v : Z -> block) (ad : list Z) (s : nat) (a : Z) : (Z -> block) * list Z :=
  if (s <=? NDIRECT)%nat then (v, <[s := a]> ad)
  else (upd v (ad !!! NDIRECT) (put 4 (4 * (s - 13)) a (v (ad !!! NDIRECT))), ad).

(** The inodes [D] share no block. *)
Record layout (v : Z -> block) (D : gmap Z (list Z)) : Prop := {
  ly_whole k : length (v k) = 1024%nat;
  ly_len i ad : D !! i = Some ad -> length ad = 13%nat;
  ly_inj i j ad ae s t : D !! i = Some ad -> D !! j = Some ae -> (s < NSLOT)%nat -> (t < NSLOT)%nat ->
    slot_addr v ad s <> 0 -> slot_addr v ad s = slot_addr v ae t -> i = j /\ s = t }.

Lemma slot_direct v ad s : (s <= 12)%nat -> slot_addr v ad s = ad !!! s.
Proof. intros Hs. unfold slot_addr, NDIRECT. by rewrite (proj2 (Nat.leb_le s 12)). Qed.
Lemma slot_indirect v ad s :
  (12 < s)%nat -> ad !!! 12%nat <> 0 -> slot_addr v ad s = get_uint (4 * (s - 13)) (v (ad !!! 12%nat)).
Proof.
  intros Hs Ha. unfold slot_addr, NDIRECT. rewrite (proj2 (Nat.leb_gt s 12)) by lia.
  by destruct (Z.eqb_spec (ad !!! 12%nat) 0).
Qed.
Lemma slot_absent v ad s : (12 < s)%nat -> ad !!! 12%nat = 0 -> slot_addr v ad s = 0.
Proof. intros Hs Ha. unfold slot_addr, NDIRECT. rewrite (proj2 (Nat.leb_gt s 12)) by lia. by rewrite Ha. Qed.

(** The slots of an inode depend on its addresses and its indirect block. *)
Lemma slot_ext v v' ad s : (ad !!! 12%nat <> 0 -> v' (ad !!! 12%nat) = v (ad !!! 12%nat)) -> slot_addr v' ad s = slot_addr v ad s.
Proof. intros He. unfold slot_addr, NDIRECT. case_match; [done|]. destruct (Z.eqb_spec (ad !!! 12%nat) 0); [done|]. by rewrite He. Qed.

Lemma data_slot_range bn : 0 <= bn < MAXFILE -> (data_slot bn < NSLOT)%nat /\ data_slot bn <> 12%nat.
Proof. change MAXFILE with 268. unfold data_slot, NSLOT. intros. bcase; lia. Qed.
Lemma data_slot_inj b c : 0 <= b -> 0 <= c -> data_slot b = data_slot c -> b = c.
Proof. unfold data_slot. intros Hb Hc. repeat bcase; lia. Qed.

Lemma get_zero_block p : (p + 4 <= 1024)%nat -> get_uint p zero_block = 0.
Proof.
  intros Hp. unfold get_uint, get, zero_block. rewrite drop_replicate, take_replicate.
  change (Z.to_nat BSIZE) with 1024%nat. replace (4 `min` (1024 - p))%nat with 4%nat by lia. done.
Qed.

Section Layout.
Context (v : Z -> block) (D : gmap Z (list Z)) (L : layout v D).

(** Rewriting a data block moves no address. *)
Lemma slot_write i ad s b j ae t :
  D !! i = Some ad -> (s < NSLOT)%nat -> s <> 12%nat -> slot_addr v ad s <> 0 -> D !! j = Some ae ->
  slot_addr (upd v (slot_addr v ad s) b) ae t = slot_addr v ae t.
Proof.
  intros Hi Hs Hs12 Hx Hj. apply slot_ext. intros Ha. unfold upd. bcase; [|done].
  destruct (ly_inj _ _ L i j ad ae s 12) as [_ ?]; try done; by (unfold NSLOT; lia).
Qed.

Lemma layout_write i ad s b :
  D !! i = Some ad -> (s < NSLOT)%nat -> s <> 12%nat -> slot_addr v ad s <> 0 -> length b = 1024%nat ->
  layout (upd v (slot_addr v ad s) b) D.
Proof.
  intros Hi Hs Hs12 Hx Hb. split.
  - intros k. unfold upd. bcase; [done|]. apply L.
  - apply L.
  - intros i1 i2 a1 a2 s1 s2 H1 H2 Hs1 Hs2.
    rewrite (slot_write i ad s b i1 a1 s1), (slot_write i ad s b i2 a2 s2) by done. by apply (ly_inj _ _ L).
Qed.

(** A block no slot names. *)
Definition fresh (a : Z) : Prop :=
  0 < a < 2 ^ 32 /\ forall j ae t, D !! j = Some ae -> (t < NSLOT)%nat -> slot_addr v ae t <> a.

Section Assign.
Context (i : Z) (ad : list Z) (s : nat) (a : Z).
Context (Hi : D !! i = Some ad) (Hs : (s < NSLOT)%nat) (Hfree : slot_addr v ad s = 0).
Context (Hind : (12 < s)%nat -> ad !!! 12%nat <> 0) (Hf : fresh a) (Hz : s = 12%nat -> v a = zero_block).

Let v' := (assign v ad s a).1.
Let ad' := (assign v ad s a).2.

Lemma assign_direct : (s <= 12)%nat -> v' = v /\ ad' = <[s := a]> ad.
Proof using Type. intros H. unfold v', ad', assign, NDIRECT. by rewrite (proj2 (Nat.leb_le s 12)). Qed.
Lemma assign_indirect :
  (12 < s)%nat -> v' = upd v (ad !!! 12%nat) (put 4 (4 * (s - 13)) a (v (ad !!! 12%nat))) /\ ad' = ad.
Proof using Type. intros H. unfold v', ad', assign, NDIRECT. by rewrite (proj2 (Nat.leb_gt s 12)). Qed.

Lemma assign_slot : slot_addr v' ad' s = a.
Proof.
  pose proof (ly_len _ _ L _ _ Hi) as Hl. destruct (decide (s <= 12)%nat) as [H|H].
  - destruct (assign_direct H) as [-> ->]. rewrite slot_direct by done. apply list_lookup_total_insert_eq. lia.
  - destruct (assign_indirect ltac:(lia)) as [-> ->]. rewrite slot_indirect by (lia || apply Hind; lia). rewrite upd_eq.
    unfold NSLOT in *. destruct Hf. apply get_uint_put; rewrite ?(ly_whole _ _ L); lia.
Qed.

(** No other slot of any inode changes, and no data block. *)
Lemma assign_slot_other j ae t :
  D !! j = Some ae -> (t < NSLOT)%nat -> (j, t) <> (i, s) ->
  slot_addr v' (if decide (j = i) then ad' else ae) t = slot_addr v ae t.
Proof.
  intros Hj Ht Hne. pose proof (ly_len _ _ L _ _ Hi) as Hl. destruct (decide (s <= 12)%nat) as [H|H].
  - destruct (assign_direct H) as [-> ->]. case_decide as Hd; [subst j|done].
    assert (ae = ad) as -> by congruence. assert (t <> s) as Hts by congruence.
    destruct (decide (t <= 12)%nat) as [Ht12|Ht12].
    + rewrite !slot_direct by done. by apply list_lookup_total_insert_ne.
    + destruct (decide (s = 12%nat)) as [->|Hs12].
      * rewrite (slot_absent v ad) by (try lia; by rewrite <- (slot_direct v) by lia).
        rewrite slot_indirect; rewrite ?list_lookup_total_insert_eq by lia; [|lia|destruct Hf; lia].
        rewrite Hz by done. apply get_zero_block. unfold NSLOT in *. lia.
      * assert (<[s:=a]> ad !!! 12%nat = ad !!! 12%nat) as E by (by apply list_lookup_total_insert_ne).
        unfold slot_addr, NDIRECT. by rewrite (proj2 (Nat.leb_gt t 12)), E by lia.
  - destruct (assign_indirect ltac:(lia)) as [-> ->]. pose proof (Hind ltac:(lia)) as Ha.
    replace (if decide (j = i) then ad else ae) with ae by (case_decide; congruence).
    destruct (decide (t <= 12)%nat) as [Ht12|Ht12]; [by rewrite !slot_direct|].
    destruct (decide (ae !!! 12%nat = 0)) as [E0|E0]; [by rewrite !slot_absent by (done || lia)|].
    rewrite !slot_indirect by (done || lia). unfold upd. bcase; [|done].
    destruct (ly_inj _ _ L j i ae ad 12 12) as [-> _]; rewrite ?slot_direct by lia; try done; try (unfold NSLOT in *; lia).
    unfold get_uint. rewrite e, get_put_ne; [done | rewrite (ly_whole _ _ L); unfold NSLOT in *; lia |].
    assert (t <> s) by congruence. lia.
Qed.

Lemma assign_block k : (12 < s)%nat /\ k = ad !!! 12%nat \/ v' k = v k.
Proof.
  destruct (decide (s <= 12)%nat) as [H|H].
  - destruct (assign_direct H) as [-> _]. by right.
  - destruct (assign_indirect ltac:(lia)) as [-> _]. unfold upd. bcase; [left; split; [lia|done] | by right].
Qed.

Lemma assign_data j ae t : D !! j = Some ae -> (t < NSLOT)%nat -> t <> 12%nat -> v' (slot_addr v ae t) = v (slot_addr v ae t).
Proof.
  intros Hj Ht H12. destruct (assign_block (slot_addr v ae t)) as [[Hs12 E]|]; [|done].
  destruct (ly_inj _ _ L j i ae ad t 12) as [_ ?]; rewrite ?E, ?slot_direct by lia; try done; try (unfold NSLOT in *; lia).
Qed.

Lemma layout_assign : layout v' (<[i := ad']> D).
Proof.
  pose proof (ly_len _ _ L _ _ Hi) as Hl. split.
  - intros k. destruct (decide (s <= 12)%nat) as [H|H].
    + destruct (assign_direct H) as [-> _]. apply L.
    + destruct (assign_indirect ltac:(lia)) as [-> _]. unfold upd. bcase; [|apply L].
      rewrite length_put; rewrite (ly_whole _ _ L); unfold NSLOT in *; lia.
  - intros j ae. rewrite lookup_insert. case_decide; [|apply L]. intros [= <-].
    destruct (decide (s <= 12)%nat) as [H0|H0].
    + destruct (assign_direct H0) as [_ ->]. by rewrite length_insert.
    + by destruct (assign_indirect ltac:(lia)) as [_ ->].
  - assert (forall j ae, <[i:=ad']> D !! j = Some ae -> exists be, D !! j = Some be /\ ae = if decide (j = i) then ad' else be) as Hlk.
    { intros j ae. rewrite lookup_insert. destruct (decide (i = j)) as [<-|Hn].
      - intros [= <-]. exists ad. by rewrite decide_True.
      - intros. exists ae. by rewrite decide_False. }
    intros j k aj ak t u Hj Hk Ht Hu. destruct (Hlk _ _ Hj) as (bj & Bj & ->). destruct (Hlk _ _ Hk) as (bk & Bk & ->).
    destruct (decide ((j, t) = (i, s))) as [[= -> ->]|N1]; destruct (decide ((k, u) = (i, s))) as [[= -> ->]|N2]; [done|..].
    + rewrite (assign_slot_other k bk u) by done. rewrite decide_True by done. rewrite assign_slot.
      intros _ E. destruct Hf as [_ Hf']. by destruct (Hf' k bk u Bk Hu).
    + rewrite (assign_slot_other j bj t) by done. rewrite decide_True by done. rewrite assign_slot.
      intros _ E. destruct Hf as [_ Hf']. by destruct (Hf' j bj t Bj Ht).
    + rewrite (assign_slot_other j bj t), (assign_slot_other k bk u) by done. by apply (ly_inj _ _ L).
Qed.
End Assign.
End Layout.

(** ** How a change of one file leaves the others *)

(** Going from [v] and the addresses [ad] of inode [i] to [v'] and [ad']
    keeps every slot in use, and the data they lead to. *)
Record grow (v : Z -> block) (D : gmap Z (list Z)) (i : Z) (v' : Z -> block) (ad' : list Z) : Prop := {
  gr_slot j ae t : D !! j = Some ae -> (t < NSLOT)%nat -> (j <> i \/ slot_addr v ae t <> 0) ->
    slot_addr v' (if decide (j = i) then ad' else ae) t = slot_addr v ae t;
  gr_data j ae t : D !! j = Some ae -> (t < NSLOT)%nat -> t <> 12%nat -> (j <> i \/ slot_addr v ae t <> 0) ->
    v' (slot_addr v ae t) = v (slot_addr v ae t) }.

Lemma grow_refl v D i ad : D !! i = Some ad -> grow v D i v ad.
Proof. intros Hi. split; [|done]. intros j ae t Hj _ _. case_decide as Hd; [subst; congruence|done]. Qed.

Lemma grow_trans v D i v1 ad1 v2 ad2 :
  grow v D i v1 ad1 -> grow v1 (<[i := ad1]> D) i v2 ad2 -> grow v D i v2 ad2.
Proof.
  intros [S1 D1] [S2 D2].
  assert (forall j ae, D !! j = Some ae -> <[i:=ad1]> D !! j = Some (if decide (j = i) then ad1 else ae)) as Hlk.
  { intros j ae Hj. rewrite lookup_insert. destruct (decide (i = j)) as [->|]; [by rewrite decide_True|].
    by rewrite decide_False. }
  split.
  - intros j ae t Hj Ht Ho. rewrite <- (S1 j ae t Hj Ht Ho). rewrite <- (S2 j _ t (Hlk j ae Hj) Ht); [by case_decide|].
    by rewrite (S1 j ae t Hj Ht Ho).
  - intros j ae t Hj Ht H12 Ho. rewrite <- (D1 j ae t Hj Ht H12 Ho). rewrite <- (S1 j ae t Hj Ht Ho).
    apply (D2 j _ t (Hlk j ae Hj) Ht H12). by rewrite (S1 j ae t Hj Ht Ho).
Qed.

(** The other files stay as they are. *)
Record keeps (v : Z -> block) (D : gmap Z (list Z)) (i : Z) (v' : Z -> block) : Prop := {
  kp_slot j ae t : D !! j = Some ae -> j <> i -> (t < NSLOT)%nat -> slot_addr v' ae t = slot_addr v ae t;
  kp_data j ae t : D !! j = Some ae -> j <> i -> (t < NSLOT)%nat -> t <> 12%nat ->
    v' (slot_addr v ae t) = v (slot_addr v ae t) }.

Lemma keeps_refl v D i : keeps v D i v.
Proof. done. Qed.
Lemma keeps_chain v D i ad v1 v2 : keeps v D i v1 -> keeps v1 (<[i := ad]> D) i v2 -> keeps v D i v2.
Proof.
  intros [S1 D1] [S2 D2]. split.
  - intros j ae t Hj Hne Ht. rewrite (S2 j ae t), (S1 j ae t); try done. by rewrite lookup_insert_ne.
  - intros j ae t Hj Hne Ht H12. rewrite <- (D1 j ae t) by done. rewrite <- (S1 j ae t) by done.
    apply (D2 j); try done. by rewrite lookup_insert_ne.
Qed.
Lemma grow_keeps v D i v' ad' : grow v D i v' ad' -> keeps v D i v'.
Proof.
  intros [S Dt]. split; [|intros; eapply Dt; eauto]. intros j ae t Hj Hne Ht.
  rewrite <- (S j ae t) by auto. by rewrite decide_False.
Qed.


(** The blocks that the slots lead to are as before. *)
Lemma layout_same v v' D :
  layout v D -> (forall k, length (v' k) = 1024%nat) ->
  (forall j ae, D !! j = Some ae -> ae !!! 12%nat <> 0 -> v' (ae !!! 12%nat) = v (ae !!! 12%nat)) ->
  layout v' D /\ forall j ae t, D !! j = Some ae -> slot_addr v' ae t = slot_addr v ae t.
Proof.
  intros L Hw Hb. assert (forall j ae t, D !! j = Some ae -> slot_addr v' ae t = slot_addr v ae t) as Hs.
  { intros j ae t Hj. apply slot_ext. by apply (Hb j). }
  split; [|done]. split; [done | apply L |]. intros i j ad ae s t Hi Hj. rewrite (Hs i), (Hs j) by done. by apply (ly_inj _ _ L).
Qed.

Section Changes.
Context (v : Z -> block) (D : gmap Z (list Z)) (L : layout v D).

Lemma assign_grow i ad s a :
  D !! i = Some ad -> (s < NSLOT)%nat -> slot_addr v ad s = 0 -> ((12 < s)%nat -> ad !!! 12%nat <> 0) ->
  fresh v D a -> (s = 12%nat -> v a = zero_block) ->
  grow v D i (assign v ad s a).1 (assign v ad s a).2.
Proof.
  intros Hi Hs H0 Hind Hf Hz. split.
  - intros j ae t Hj Ht Ho. apply (assign_slot_other v D L i ad s a Hi Hs H0 Hind Hf Hz j ae t Hj Ht).
    intros [= -> ->]. destruct Ho as [?|N]; [done|]. by replace ae with ad in N by congruence.
  - intros j ae t Hj Ht H12 _. by apply (assign_data v D L i ad s a Hi Hs Hind Hz j ae t).
Qed.

Lemma write_keeps i ad s b :
  D !! i = Some ad -> (s < NSLOT)%nat -> s <> 12%nat -> slot_addr v ad s <> 0 ->
  keeps v D i (upd v (slot_addr v ad s) b).
Proof.
  intros Hi Hs H12 Hx. split; [intros j ae t Hj _ _; by apply (slot_write v D L i ad s b j)|].
  intros j ae t Hj Hne Ht Ht12. apply upd_ne. intros E.
  by destruct (ly_inj _ _ L i j _ ae s t Hi Hj Hs Ht Hx).
Qed.
End Changes.

(** The bytes of a file after its block [bn], possibly new, is rewritten. *)
Lemma write_bytes v v1 D i ad ad1 bn o xs k :
  D !! i = Some ad -> layout v1 (<[i := ad1]> D) -> grow v D i v1 ad1 -> 0 <= bn < MAXFILE ->
  data_block v1 ad1 bn <> 0 -> 0 <= o -> o + Z.of_nat (length xs) <= BSIZE -> 0 <= k -> k / BSIZE < MAXFILE ->
  let x := data_block v1 ad1 bn in
  let a := bn * BSIZE + o in
  a <= k < a + Z.of_nat (length xs) \/ data_block v ad (k / BSIZE) <> 0 ->
  byte_at (upd v1 x (splice (Z.to_nat o) xs (v1 x))) ad1 k
  = if (a <=? k) && (k <? a + Z.of_nat (length xs)) then xs !!! Z.to_nat (k - a) else byte_at v ad k.
Proof.
  intros Hi L1 G Hbn Hx Ho Hlen Hk Hkm x a Hor. destruct (data_slot_range bn Hbn) as [Hb1 Hb2]. unfold BSIZE in *.
  destruct (data_slot_range (k / 1024)) as [Hk1 Hk2]; [split; [dlia|done]|].
  assert (<[i := ad1]> D !! i = Some ad1) as Hi1 by apply lookup_insert_eq.
  assert (data_block v ad (k / 1024) <> 0 -> data_block v1 ad1 (k / 1024) = data_block v ad (k / 1024)
    /\ v1 (data_block v ad (k / 1024)) = v (data_block v ad (k / 1024))) as Hold.
  { intros N. pose proof (gr_slot _ _ _ _ _ G i ad _ Hi Hk1 (or_intror N)) as E. rewrite decide_True in E by done.
    split; [exact E|]. exact (gr_data _ _ _ _ _ G i ad _ Hi Hk1 Hk2 (or_intror N)). }
  unfold byte_at. unfold data_block at 1. rewrite (slot_write v1 _ L1 i ad1 _ _ i ad1 _ Hi1 Hb1 Hb2 Hx Hi1).
  change (slot_addr v1 ad1 (data_slot (k / BSIZE))) with (data_block v1 ad1 (k / 1024)). unfold BSIZE.
  destruct (decide (k / 1024 = bn)) as [E|E].
  - rewrite E. fold x. rewrite upd_eq. rewrite splice_total by (rewrite (ly_whole _ _ L1); lia). unfold a in *.
    destruct (Z.leb_spec (bn * 1024 + o) k), (Z.ltb_spec k (bn * 1024 + o + Z.of_nat (length xs))); cbn [andb];
      [rewrite decide_True by dlia; f_equal; dlia | rewrite decide_False by dlia..].
    all: destruct Hold as [E1 E2]; [destruct Hor; [lia|done]|]; rewrite E in E1, E2; unfold x; by rewrite E1, E2.
  - assert ((a <=? k) && (k <? a + Z.of_nat (length xs)) = false) as ->.
    { unfold a. destruct (Z.leb_spec (bn * 1024 + o) k), (Z.ltb_spec k (bn * 1024 + o + Z.of_nat (length xs))); try done. dlia. }
    destruct Hold as [E1 E2]; [destruct Hor; [unfold a in *; dlia|done]|].
    rewrite upd_ne; [by rewrite E1, E2|]. intros Ex. apply E, data_slot_inj; [dlia|lia|].
    symmetry. by apply (ly_inj _ _ L1 i i ad1 ad1).
Qed.

(** ** Contents *)

(** The contents depend on the blocks the slots lead to. *)
Lemma content_ext v v' d :
  (forall t, (t < NSLOT)%nat -> slot_addr v' (di_addrs d) t = slot_addr v (di_addrs d) t) ->
  (forall t, (t < NSLOT)%nat -> t <> 12%nat -> v' (slot_addr v (di_addrs d) t) = v (slot_addr v (di_addrs d) t)) ->
  di_size d <= MAXFILE * BSIZE -> content v' d = content v d.
Proof.
  intros Hs Hd Hz. unfold content. change (MAXFILE * BSIZE) with 274432 in Hz. apply list_fmap_ext.
  intros j k [-> Hk]%lookup_seq. unfold byte_at, data_block.
  destruct (data_slot_range (Z.of_nat (0 + j) / BSIZE)) as [H1 H2].
  { change MAXFILE with 268. unfold BSIZE. split; dlia. }
  by rewrite Hs, Hd by done.
Qed.

Lemma content_length v d : length (content v d) = Z.to_nat (di_size d).
Proof. unfold content. by rewrite length_fmap, length_seq. Qed.

Lemma content_total v d k : (k < Z.to_nat (di_size d))%nat -> content v d !! k = Some (byte_at v (di_addrs d) (Z.of_nat k)).
Proof. intros Hk. unfold content. by rewrite list_lookup_fmap, lookup_seq_lt. Qed.

