(* ===== verification/FsRead.v ===== *)
(** Reading files: [bmap] of an allocated block, and [readi] against the
    contents of the file. *)

From S2P Require Import Prelude.
From S2P Require Import Bytes.
From S2P Require Import Locks.
From S2P Require Import BlockCache.
From S2P Require Import TxStore.
From S2P Require Import UserMem.
From S2P Require Import Fs.
From S2P Require Import FsDir.
From S2P Require Import FsBlocks.
From S2P Require Import FsInode.
From S2P Require Import FsContent.

Lemma str_ncpy_length n x : length (str_ncpy n x) = n.
Proof.
  revert x. induction n as [|n IH]; intros [|a x]; simpl; rewrite ?length_replicate; try done.
  case_match; simpl; by rewrite ?length_replicate, ?IH.
Qed.

Lemma get_put_dirent d : 0 <= de_inum d < 2 ^ 16 -> length (de_name d) = DIRSIZ -> get_dirent (put_dirent d) = d.
Proof.
  intros Hi Hn. unfold get_dirent, put_dirent. destruct d as [inum nm]. cbn [de_inum de_name] in *. f_equal.
  - unfold get_ushort, get. rewrite drop_0, take_app_length' by (by rewrite length_le_bytes). rewrite le_val_bytes.
    change (8 * Z.of_nat 2) with 16. by apply Z.mod_small.
  - rewrite drop_app_length' by (by rewrite length_le_bytes). apply take_ge. by rewrite Hn.
Qed.

(** Comparing a name with the name field of an entry. *)
Lemma str_eqn_ncpy n a b :
  (length a <= n)%nat -> (length b <= n)%nat -> Forall (fun c => c <> 0) a -> Forall (fun c => c <> 0) b ->
  str_eqn n a (str_ncpy n b) = bool_decide (a = b).
Proof.
  revert a b. induction n as [|n IH]; intros a b Ha Hb Na Nb.
  - destruct a, b; simpl in *; first [lia | done].
  - destruct b as [|c b].
    + destruct a as [|x a]; [done|]. inversion Na; subst. simpl. destruct (Z.eqb_spec x 0); done.
    + inversion Nb as [|? ? Nc Nb']; subst. simpl. destruct (Z.eqb_spec c 0); [done|].
      destruct a as [|x a]; simpl.
      * by destruct c.
      * inversion Na as [|? ? Nx Na']; subst. destruct (Z.eqb_spec x c) as [->|Hne].
        -- destruct (Z.eqb_spec c 0); [done|]. simpl in *. rewrite IH by (done || lia).
           apply bool_decide_ext. split; [by intros ->|by intros [= ->]].
        -- symmetry. apply bool_decide_eq_false. by intros [= ?].
Qed.

Section Read.
Context {T H U : Type} `{TS : TxStore T H dev} `{UserMem U}.
Implicit Type s : fs_st T U.

(** The caller holds the inode and no buffer of the file, and the blocks of
    the file up to its size are allocated. *)
Record file_ready s (i : nat) (ip : inode) : Prop := {
  fr_inv : ts_inv (fs_tx s);
  fr_at : fs_itable s !! i = Some ip;
  fr_dev : i_dev ip = dev;
  fr_held : (size (held s) + 1 <= MAXHELD)%nat;
  fr_dirty : dirty s ⊆ logged s;
  fr_whole k : length (vw s k) = 1024%nat;
  fr_blocks t : (t < NSLOT)%nat -> slot_addr (vw s) (i_addrs ip) t <> 0 ->
    0 <= slot_addr (vw s) (i_addrs ip) t < 2 ^ 31 /\ (slot_addr (vw s) (i_addrs ip) t ∉ held s);
  fr_alloc bn : 0 <= bn -> bn * BSIZE < i_size ip -> data_block (vw s) (i_addrs ip) bn <> 0;
  fr_size : 0 <= i_size ip <= MAXFILE * BSIZE }.

(** Reading changes neither the disk nor the tables. *)
Record same_view s s' : Prop := {
  sv_fs : same_fs s s';
  sv_inv : ts_inv (fs_tx s');
  sv_vw j : vw s' j = vw s j;
  sv_held : held s' = held s;
  sv_logged : logged s' = logged s;
  sv_dirty : dirty s' = dirty s }.

Lemma same_view_refl s : ts_inv (fs_tx s) -> same_view s s.
Proof. intros. split; try done. apply same_fs_refl. Qed.
Lemma same_view_trans s1 s2 s3 : same_view s1 s2 -> same_view s2 s3 -> same_view s1 s3.
Proof.
  intros [A1 A2 A3 A4 A5 A6] [B1 B2 B3 B4 B5 B6]. split; [by eapply same_fs_trans | done | | congruence..].
  intros j. by rewrite B3, A3.
Qed.

Lemma slot_addr_ext v v' ad t : (forall k, v' k = v k) -> slot_addr v' ad t = slot_addr v ad t.
Proof. intros E. apply slot_ext. intros _. apply E. Qed.
Lemma content_view v v' d : (forall k, v' k = v k) -> content v' d = content v d.
Proof.
  intros E. unfold content. apply list_fmap_ext. intros j k _. unfold byte_at, data_block. by rewrite (slot_addr_ext v v'), E.
Qed.

Lemma file_ready_same s s' i ip : file_ready s i ip -> same_view s s' -> file_ready s' i ip.
Proof.
  intros [] [Sf Si Sv Sh Sl Sd]. destruct (same_fs_sb _ _ Sf) as (_ & Et & _).
  split; rewrite ?Et, ?Sh, ?Sl, ?Sd; try done.
  - intros k. by rewrite Sv.
  - intros t Ht. rewrite (slot_addr_ext _ _ _ t Sv). auto.
  - intros bn. unfold data_block. rewrite (slot_addr_ext _ _ _ _ Sv). apply fr_alloc0.
Qed.

(** Read a block, use its contents, release it. *)
Lemma read_block s k {A} (f : block -> A) :
  ts_inv (fs_tx s) -> 0 <= k < 2 ^ 31 -> k ∉ held s -> (size (held s) < MAXHELD)%nat -> dirty s ⊆ logged s ->
  exists h s1, bread dev k s = Ret h s1 /\ Fs.data h s1 = Ret (vw s k) s1 /\ same_fs s s1
    /\ (forall g : fs_st T U -> fs_st T U, fs_tx (g s1) = fs_tx s1 ->
        exists s2, brelse h (g s1) = Ret tt s2 /\ s2 = set_fs_tx (fs_tx s2) (g s1) /\ ts_inv (fs_tx s2)
          /\ (forall j, vw s2 j = vw s j) /\ held s2 = held s /\ logged s2 = logged s /\ dirty s2 = dirty s).
Proof.
  intros Hi Hk Hn Hs Hd. destruct (bread_run s k Hi Hk Hn Hs) as (h & s1 & R1 & S1 & I1 & V1 & E1 & E2 & E3 & Hh & D1 & _).
  exists h, s1. do 3 (split; [done|]). intros g Hg.
  destruct (fs_brelse_run (g s1) k h) as (s2 & R2 & S2 & I2 & V2 & F1 & F2 & F3 & _); unfold held, logged, dirty, vw in *; rewrite ?Hg in *; try done.
  - rewrite E1. set_solver.
  - rewrite E2, E3. auto.
  - exists s2. split; [done|]. split; [done|]. split; [done|]. split; [intros j; by rewrite V2, V1|].
    rewrite F1, E1, F2, E2, F3, E3. split; [|done]. set_solver.
Qed.

(** [bmap] of an allocated block only looks it up. *)
Lemma bmap_run s i ip bn :
  file_ready s i ip -> 0 <= bn -> bn * BSIZE < i_size ip ->
  exists s', bmap i bn s = Ret (data_block (vw s) (i_addrs ip) bn) s' /\ same_view s s'.
Proof.
  intros Hr Hbn Hsz. pose proof Hr as [Hinv Hat Hdev Hheld Hd Hw Hb Ha Hmax].
  specialize (Ha bn Hbn Hsz). change (MAXFILE * BSIZE) with 274432 in Hmax. unfold BSIZE in Hsz.
  unfold bmap. rewrite (mthen_ret _ _ _ _ _ (inode_at_run s i ip Hat)). change (Z.of_nat NDIRECT) with 12.
  unfold data_block, data_slot in *. destruct (Z.ltb_spec bn 12) as [Hlt|Hge].
  - rewrite slot_direct in * by lia. destruct (Z.eqb_spec (i_addrs ip !!! Z.to_nat bn) 0); [done|].
    exists s. split; [done|]. by apply same_view_refl.
  - change NINDIRECT with 256. destruct (Z.ltb_spec (bn - 12) 256); [|lia]. change NDIRECT with 12%nat.
    destruct (decide (i_addrs ip !!! 12%nat = 0)) as [E0|E0]; [by rewrite slot_absent in Ha by lia|].
    rewrite slot_indirect in * by lia. replace (4 * (Z.to_nat bn + 1 - 13))%nat with (Z.to_nat (4 * (bn - 12))) in * by lia.
    destruct (Z.eqb_spec (i_addrs ip !!! 12%nat) 0); [done|]. rewrite (mthen_ret _ _ s _ s eq_refl).
    destruct (Z.eqb_spec (i_addrs ip !!! 12%nat) 0); [done|]. rewrite Hdev.
    pose proof (Hb 12%nat ltac:(unfold NSLOT; lia)) as Hb12. rewrite slot_direct in Hb12 by lia. destruct (Hb12 E0) as [Hk1 Hk2].
    destruct (read_block s _ (fun b => b) Hinv Hk1 Hk2 ltac:(lia) Hd) as (h & s1 & R1 & D1 & S1 & Hrel).
    rewrite (mthen_ret _ _ _ _ _ R1), (mthen_ret _ _ _ _ _ D1).
    destruct (Z.eqb_spec (get_uint (Z.to_nat (4 * (bn - 12))) (vw s (i_addrs ip !!! 12%nat))) 0); [done|].
    rewrite (mthen_ret (mreturn _) _ s1 _ s1 eq_refl). destruct (Hrel (fun x => x) eq_refl) as (s2 & R2 & S2 & I2 & V2 & F1 & F2 & F3).
    rewrite (mthen_ret _ _ _ _ _ R2). exists s2. split; [done|]. split; try done. by eapply same_fs_trans.
Qed.

(** ** Delivering bytes *)

Definition delivers (dst : dest) (tot : Z) (xs : list Z) (u u' : U) : Prop :=
  match dst with
  | KernelDst => u' = u
  | UserDst va => store_bytes u (u64 (va + tot)) xs = (u', true)
  end.

Lemma store_bytes_app (u : U) va xs ys u' :
  store_bytes u (u64 va) (xs ++ ys) = (u', true) ->
  exists u1, store_bytes u (u64 va) xs = (u1, true) /\ store_bytes u1 (u64 (va + Z.of_nat (length xs))) ys = (u', true).
Proof.
  revert u va. induction xs as [|x xs IH]; intros u va.
  - intros Hs. exists u. split; [done|]. by rewrite Z.add_0_r.
  - simpl. destruct (um_store u (u64 va) x) as [u2|]; [|done].
    replace (u64 (u64 va + 1)) with (u64 (va + 1)) by (unfold u64; by rewrite Zplus_mod_idemp_l).
    intros (u1 & Hx & Hy)%IH. exists u1. split; [done|]. rewrite <- Hy. do 2 f_equal. lia.
Qed.

Lemma delivers_app dst tot xs ys u u' :
  delivers dst tot (xs ++ ys) u u' ->
  exists u1, delivers dst tot xs u u1 /\ delivers dst (tot + Z.of_nat (length xs)) ys u1 u'.
Proof.
  destruct dst as [va|]; simpl; [|intros ->; by exists u].
  intros (u1 & Hx & Hy)%store_bytes_app. exists u1. split; [done|]. rewrite <- Hy. do 2 f_equal. lia.
Qed.

Lemma copyout_run dst tot xs s u' :
  delivers dst tot xs (fs_user s) u' -> either_copyout dst tot xs s = Ret true (set_fs_user u' s).
Proof.
  destruct dst as [va|]; simpl.
  - intros E. unfold mthen, gets. by rewrite E.
  - intros ->. by destruct s.
Qed.

Lemma file_ready_user s u i ip : file_ready s i ip -> file_ready (set_fs_user u s) i ip.
Proof. intros []. by split. Qed.
Lemma same_view_user s s' u : same_view s s' -> same_view (set_fs_user u s) (set_fs_user u s').
Proof. intros [A1 A2 A3 A4 A5 A6]. split; try done. unfold same_fs in *. rewrite A1. done. Qed.

(** The bytes of [content] that lie in one block. *)
Lemma content_block v d off m :
  0 <= off -> 0 <= m <= BSIZE - off mod BSIZE -> off + m <= di_size d -> (forall k, length (v k) = 1024%nat) ->
  take (Z.to_nat m) (drop (Z.to_nat (off mod BSIZE)) (v (data_block v (di_addrs d) (off / BSIZE))))
  = take (Z.to_nat m) (drop (Z.to_nat off) (content v d)).
Proof.
  intros Hoff Hm Hsz Hw. unfold BSIZE in *. apply list_eq. intros j. destruct (decide (j < Z.to_nat m)%nat) as [Hj|Hj].
  - rewrite !lookup_take_lt, !lookup_drop by done. rewrite content_total by lia. unfold byte_at, BSIZE.
    replace (Z.of_nat (Z.to_nat off + j) / 1024) with (off / 1024) by dlia.
    replace (Z.to_nat (off mod 1024) + j)%nat with (Z.to_nat (Z.of_nat (Z.to_nat off + j) mod 1024)) by dlia.
    apply list_lookup_lookup_total_lt. rewrite Hw. dlia.
  - by rewrite !lookup_take_ge by lia.
Qed.

Lemma readi_loop_run fuel : forall s i ip dst off n tot u',
  file_ready s i ip -> 0 <= tot <= n -> 0 <= off -> off + (n - tot) <= i_size ip -> n - tot < Z.of_nat fuel ->
  let xs := take (Z.to_nat (n - tot)) (drop (Z.to_nat off) (content (vw s) (i_dinode ip))) in
  delivers dst tot xs (fs_user s) u' ->
  exists s', readi_loop fuel i dst off n tot s = Ret (n, xs) s' /\ same_view (set_fs_user u' s) s'.
Proof.
  induction fuel as [|fuel IH]; intros s i ip dst off n tot u' Hr Ht Hoff Hsz Hf xs Hdel; [lia|].
  cbn [readi_loop]. pose proof Hr as [Hinv Hat Hdev Hheld Hd Hw Hb Ha Hmax].
  destruct (Z.ltb_spec tot n) as [Hlt|Hge]; cbn [negb].
  - set (m := Z.min (n - tot) (BSIZE - off mod BSIZE)). assert (0 < m <= n - tot) as Hm by (unfold m, BSIZE; dlia).
    assert (0 <= off / BSIZE /\ off / BSIZE * BSIZE < i_size ip) as [Hb1 Hb2] by (unfold BSIZE; dlia).
    destruct (bmap_run s i ip (off / BSIZE) Hr Hb1 Hb2) as (s1 & R1 & V1). rewrite (mthen_ret _ _ _ _ _ R1).
    pose proof (Ha _ Hb1 Hb2) as Hnz. destruct (Z.eqb_spec (data_block (vw s) (i_addrs ip) (off / BSIZE)) 0); [done|].
    pose proof (file_ready_same _ _ _ _ Hr V1) as Hr1.
    rewrite (mthen_ret _ _ _ _ _ (inode_at_run s1 i ip (fr_at _ _ _ Hr1))). rewrite Hdev.
    destruct (data_slot_range (off / BSIZE)) as [Hs1 _].
    { change MAXFILE with 268. change (MAXFILE * BSIZE) with 274432 in Hmax. unfold BSIZE in *. lia. }
    set (x := data_block (vw s) (i_addrs ip) (off / BSIZE)) in *. destruct (Hb _ Hs1 Hnz) as [Hx1 Hx2].
    change (slot_addr (vw s) (i_addrs ip) (data_slot (off / BSIZE))) with x in Hx1, Hx2.
    destruct V1 as [Sf1 Si1 Sv1 Sh1 Sl1 Sd1].
    destruct (read_block s1 x (fun b => b) Si1 Hx1) as (h & s2 & R2 & D2 & S2 & Hrel);
      [by rewrite Sh1 | rewrite Sh1; lia | by rewrite Sl1, Sd1 |].
    rewrite (mthen_ret _ _ _ _ _ R2), (mthen_ret _ _ _ _ _ D2). rewrite Sv1.
    pose proof (content_block (vw s) (i_dinode ip) off m Hoff ltac:(unfold m; lia) ltac:(simpl; lia) Hw) as Ec.
    change (di_addrs (i_dinode ip)) with (i_addrs ip) in Ec. fold x in Ec. rewrite Ec.
    set (c := content (vw s) (i_dinode ip)) in *. set (ys := take (Z.to_nat m) (drop (Z.to_nat off) c)) in *.
    assert (length c = Z.to_nat (i_size ip)) as Lc by apply content_length.
    assert (length ys = Z.to_nat m) as Ly by (unfold ys; rewrite length_take, length_drop; lia).
    assert (xs = ys ++ take (Z.to_nat (n - (tot + m))) (drop (Z.to_nat (off + m)) c)) as Exs.
    { unfold xs, ys. replace (Z.to_nat (off + m)) with (Z.to_nat off + Z.to_nat m)%nat by lia. rewrite <- drop_drop.
      replace (Z.to_nat (n - tot)) with (Z.to_nat m + Z.to_nat (n - (tot + m)))%nat by lia. symmetry. apply take_take_drop. }
    rewrite Exs in Hdel. apply delivers_app in Hdel as (u1 & Hd1 & Hd2). rewrite Ly, Z2Nat.id in Hd2 by lia.
    destruct (same_fs_sb _ _ Sf1) as (_ & _ & Eu1). destruct (same_fs_sb _ _ S2) as (_ & _ & Eu2).
    rewrite (mthen_ret _ _ _ _ _ (copyout_run dst tot ys s2 u1 ltac:(by rewrite Eu2, Eu1))).
    destruct (Hrel (set_fs_user u1) eq_refl) as (s3 & R3 & S3 & I3 & V3 & F1 & F2 & F3).
    rewrite (mthen_ret _ _ _ _ _ R3). cbn [negb].
    assert (same_view (set_fs_user u1 s) s3) as SV.
    { split; try done; [|intros j; by rewrite V3, Sv1 | by rewrite F1 | by rewrite F2 | by rewrite F3].
      unfold same_fs in *. rewrite S3, S2, Sf1. done. }
    pose proof (file_ready_same _ _ _ _ (file_ready_user s u1 i ip Hr) SV) as Hr3.
    destruct (IH s3 i ip dst (off + m) n (tot + m) u' Hr3 ltac:(lia) ltac:(lia) ltac:(lia) ltac:(lia)) as (s4 & R4 & V4).
    { rewrite (content_view (vw s) (vw s3)) by apply SV. fold c. destruct SV as [SV _]. rewrite SV. exact Hd2. }
    rewrite (mthen_ret _ _ _ _ _ R4). cbn [fst snd]. rewrite (content_view (vw s) (vw s3)) by apply SV. fold c.
    exists s4. split; [by rewrite Exs|]. eapply same_view_trans; [|exact V4].
    by apply (same_view_user (set_fs_user u1 s) s3 u').
  - assert (tot = n) as -> by lia. assert (xs = []) as -> by (unfold xs; by rewrite Z.sub_diag).
    exists s. split; [done|]. assert (u' = fs_user s) as -> by (destruct dst; simpl in Hdel; congruence).
    destruct s. by apply same_view_refl.
Qed.

(** [readi] returns the file.  For any offset and length it returns the
    bytes of the contents from [off] on, at most [n] and none past the end of
    the file, delivers exactly those to the destination, and changes neither
    the disk nor the inode table. *)
Lemma readi_run s i ip dst off n u' :
  file_ready s i ip -> 0 <= off -> 0 <= n -> off + n < 2 ^ 32 ->
  let xs := take (Z.to_nat n) (drop (Z.to_nat off) (content (vw s) (i_dinode ip))) in
  delivers dst 0 xs (fs_user s) u' ->
  exists s', readi i dst off n s = Ret (Z.of_nat (length xs), xs) s' /\ same_view (set_fs_user u' s) s'.
Proof.
  intros Hr Hoff Hn Hov xs Hdel. pose proof (fr_size _ _ _ Hr) as Hmax. change (MAXFILE * BSIZE) with 274432 in Hmax.
  pose proof (content_length (vw s) (i_dinode ip)) as Lc. cbn [di_size i_dinode] in Lc.
  unfold readi. rewrite (mthen_ret _ _ _ _ _ (inode_at_run s i ip (fr_at _ _ _ Hr))).
  rewrite (u32_small (off + n)) by lia. rewrite !Z.gtb_ltb, (proj2 (Z.ltb_ge (off + n) off)) by lia. rewrite orb_false_r.
  destruct (Z.ltb_spec (i_size ip) off) as [Hpast|Hin].
  - assert (xs = []) as E by (unfold xs; rewrite drop_ge by lia; by rewrite take_nil). rewrite E in *.
    exists s. split; [done|]. assert (u' = fs_user s) as -> by (destruct dst; simpl in Hdel; congruence).
    destruct s. apply same_view_refl, Hr.
  - set (n' := if i_size ip <? off + n then u32 (i_size ip - off) else n).
    assert (n' = Z.min n (i_size ip - off)) as En by (unfold n'; bcase; [rewrite u32_small|]; lia).
    assert (xs = take (Z.to_nat (n' - 0)) (drop (Z.to_nat off) (content (vw s) (i_dinode ip)))) as Ex.
    { unfold xs. rewrite En. destruct (Z.min_spec n (i_size ip - off)) as [[? ->]|[? ->]]; [f_equal; lia|].
      rewrite !take_ge by (rewrite length_drop, Lc; lia). done. }
    destruct (readi_loop_run (S (Z.to_nat n')) s i ip dst off n' 0 u' Hr) as (s' & R & V); try lia; [by rewrite <- Ex|].
    exists s'. split; [|done]. rewrite R, <- Ex. do 2 f_equal. rewrite Ex, length_take, length_drop, Lc. lia.
Qed.

(** ** Directories *)

(** The entries of a directory. *)
Definition dirents (c : list Z) : list dirent :=
  (fun k => get_dirent (take 16 (drop (16 * k) c))) <$> seq 0 (length c / 16).

Definition entry_is (name : list Z) (d : dirent) : Prop := de_inum d <> 0 /\ namecmp name (de_name d) = true.
#[global] Instance entry_is_dec name d : Decision (entry_is name d) := ltac:(unfold entry_is; apply _).

Lemma read_dirent_run s dp ip k msg :
  file_ready s dp ip -> 16 * Z.of_nat k + 16 <= i_size ip ->
  exists s', read_dirent dp (16 * Z.of_nat k) msg s
    = Ret (get_dirent (take 16 (drop (16 * k) (content (vw s) (i_dinode ip))))) s' /\ same_view s s'.
Proof.
  intros Hr Hk. pose proof (fr_size _ _ _ Hr) as Hmax. change (MAXFILE * BSIZE) with 274432 in Hmax.
  destruct (readi_run s dp ip KernelDst (16 * Z.of_nat k) 16 (fs_user s) Hr) as (s' & R & V); [lia | lia | lia | done |].
  exists s'. replace (set_fs_user (fs_user s) s) with s in V by (by destruct s). split; [|done].
  unfold read_dirent. rewrite (mthen_ret _ _ _ _ _ R). cbn [fst snd]. change (Z.to_nat 16) with 16%nat.
  replace (Z.to_nat (16 * Z.of_nat k)) with (16 * k)%nat by lia.
  rewrite length_take, length_drop, content_length. cbn [di_size i_dinode].
  replace (16 `min` (Z.to_nat (i_size ip) - 16 * k))%nat with 16%nat by lia. done.
Qed.

Lemma dirlookup_loop_run fuel : forall s dp ip name k,
  file_ready s dp ip -> 16 * Z.of_nat k <= i_size ip -> i_size ip mod 16 = 0 -> i_size ip < 16 * Z.of_nat k + Z.of_nat fuel ->
  exists s', same_view s s' /\
    dirlookup_loop fuel dp name (16 * Z.of_nat k) s
    = match list_find (entry_is name) (drop k (dirents (content (vw s) (i_dinode ip)))) with
      | None => Ret None s'
      | Some (j, d) => (let* i := iget dev (de_inum d) in mreturn (Some (i, 16 * Z.of_nat (k + j)))) s'
      end.
Proof.
  induction fuel as [|fuel IH]; intros s dp ip name k Hr Hk Hm Hf; [lia|]. cbn [dirlookup_loop].
  rewrite (mthen_ret _ _ _ _ _ (inode_at_run s dp ip (fr_at _ _ _ Hr))).
  pose proof (fr_size _ _ _ Hr) as Hmax. change (MAXFILE * BSIZE) with 274432 in Hmax.
  set (c := content (vw s) (i_dinode ip)). assert (length c = Z.to_nat (i_size ip)) as Lc by apply content_length.
  assert (length (dirents c) = Z.to_nat (i_size ip / 16)) as Ld.
  { unfold dirents. rewrite length_fmap, length_seq, Lc. rewrite Z2Nat.inj_div by lia. done. }
  destruct (Z.ltb_spec (16 * Z.of_nat k) (i_size ip)) as [Hlt|Hge]; cbn [negb].
  - destruct (read_dirent_run s dp ip k "dirlookup read" Hr ltac:(dlia)) as (s1 & R1 & V1). rewrite (mthen_ret _ _ _ _ _ R1). fold c.
    set (d := get_dirent (take 16 (drop (16 * k) c))).
    assert (drop k (dirents c) = d :: drop (S k) (dirents c)) as ->.
    { apply drop_S. unfold dirents. rewrite list_lookup_fmap, lookup_seq_lt; [done|]. rewrite Lc.
      apply (Nat.div_le_lower_bound (Z.to_nat (i_size ip)) 16 (S k)); dlia. }
    rewrite (fr_dev _ _ _ Hr). cbn [list_find]. pose proof (file_ready_same _ _ _ _ Hr V1) as Hr1.
    assert (exists s', same_view s s' /\ dirlookup_loop fuel dp name (u32 (16 * Z.of_nat k + SZ_DIRENT)) s1
      = match list_find (entry_is name) (drop (S k) (dirents c)) with
        | None => Ret None s'
        | Some (j, d) => (let* i := iget dev (de_inum d) in mreturn (Some (i, 16 * Z.of_nat (S k + j)))) s'
        end) as (s' & V & R).
    { destruct (IH s1 dp ip name (S k) Hr1 ltac:(dlia) Hm ltac:(lia)) as (s' & V & R).
      rewrite (content_view (vw s) (vw s1)) in R by apply V1. fold c in R. exists s'. split; [by eapply same_view_trans|].
      rewrite <- R. f_equal. change SZ_DIRENT with 16. rewrite u32_small; lia. }
    destruct (decide (entry_is name d)) as [[N E]|Hno].
    + rewrite (proj2 (Z.eqb_neq (de_inum d) 0) N), E. exists s1. split; [done|]. by rewrite Nat.add_0_r.
    + exists s'. split; [done|].
      assert ((if de_inum d =? 0 then dirlookup_loop fuel dp name (u32 (16 * Z.of_nat k + SZ_DIRENT))
               else if namecmp name (de_name d) then let* i := iget dev (de_inum d) in mreturn (Some (i, 16 * Z.of_nat k))
               else dirlookup_loop fuel dp name (u32 (16 * Z.of_nat k + SZ_DIRENT))) s1
              = dirlookup_loop fuel dp name (u32 (16 * Z.of_nat k + SZ_DIRENT)) s1) as ->.
      { destruct (Z.eqb_spec (de_inum d) 0); [done|]. destruct (namecmp name (de_name d)) eqn:E; [|done]. by destruct Hno. }
      rewrite R. destruct (list_find (entry_is name) (drop (S k) (dirents c))) as [[j e]|]; [|done]. simpl.
      by replace (k + S j)%nat with (S (k + j)) by lia.
  - exists s. split; [apply same_view_refl, Hr|]. rewrite drop_ge by (rewrite Ld; dlia). done.
Qed.

(** [dirlookup] finds the first entry in use with the name, and returns
    its inode and offset, or [None] when no entry has it. *)
Lemma dirlookup_run s dp ip name :
  file_ready s dp ip -> i_type ip = T_DIR -> i_size ip mod 16 = 0 ->
  exists s', same_view s s' /\
    dirlookup dp name s
    = match list_find (entry_is name) (dirents (content (vw s) (i_dinode ip))) with
      | None => Ret None s'
      | Some (k, d) => (let* i := iget dev (de_inum d) in mreturn (Some (i, 16 * Z.of_nat k))) s'
      end.
Proof.
  intros Hr Hty Hm. unfold dirlookup. rewrite (mthen_ret _ _ _ _ _ (inode_at_run s dp ip (fr_at _ _ _ Hr))).
  rewrite Hty. cbn [negb Z.eqb Pos.eqb T_DIR]. pose proof (fr_size _ _ _ Hr).
  apply (dirlookup_loop_run _ s dp ip name 0 Hr); lia.
Qed.
End Read.
