(* ===== verification/FsWrite.v ===== *)
(** Writing files: [bmap] with allocation and [writei], on a file system whose
    bitmap agrees with the blocks the inodes use. *)

From S2P Require Import Prelude.
From S2P Require Import Bytes.
From S2P Require Import Locks.
From S2P Require Import BlockCache.
From S2P Require Import TxStore.
From S2P Require Import UserMem.
From S2P Require Import Fs.
From S2P Require Import FsBlocks.
From S2P Require Import FsInode.
From S2P Require Import FsContent.
From S2P Require Import FsRead.

Lemma mthen_assoc {S A B C} (m : M S A) (f : A -> M S B) (g : B -> M S C) s :
  mthen (mthen m f) g s = mthen m (fun a => mthen (f a) g) s.
Proof. unfold mthen. by destruct (m s). Qed.

(** ** Consistency of the disk

    The blocks below [dstart] hold metadata; the bitmap is one block (the disk
    has at most [BPB] blocks, as FSSIZE does); every block the inodes [D] use
    is above [dstart] and marked. *)
Record cv (dstart : Z) (sb : superblock) (v : Z -> block) (D : gmap Z (list Z)) : Prop := {
  cv_layout : layout v D;
  cv_size : 0 < sb_bmapstart sb < dstart /\ dstart <= sb_size sb <= BPB;
  cv_meta b : 0 <= b < dstart -> block_free sb v b = false;
  cv_used i ad t : D !! i = Some ad -> (t < NSLOT)%nat -> slot_addr v ad t <> 0 ->
    dstart <= slot_addr v ad t < sb_size sb /\ block_free sb v (slot_addr v ad t) = false }.

Lemma one_bitmap dstart sb v D b : cv dstart sb v D -> 0 <= b < sb_size sb -> BBLOCK b sb = sb_bmapstart sb /\ b mod BPB = b.
Proof.
  intros C Hb. destruct (cv_size _ _ _ _ C). change BPB with 8192 in *. unfold BBLOCK. change BPB with 8192.
  rewrite Z.div_small, Z.mod_small by lia. lia.
Qed.

Section Cv.
Context (dstart : Z) (sb : superblock) (v : Z -> block) (D : gmap Z (list Z)) (C : cv dstart sb v D).
Let bm := sb_bmapstart sb.

Lemma free_ext v' b : 0 <= b < sb_size sb -> v' bm = v bm -> block_free sb v' b = block_free sb v b.
Proof. intros Hb E. unfold block_free. destruct (one_bitmap _ _ _ _ b C Hb) as [-> _]. fold bm. by rewrite E. Qed.

Lemma free_fresh r : 0 <= r < sb_size sb -> block_free sb v r = true -> dstart <= r /\ fresh v D r.
Proof.
  intros Hr Hf. destruct (cv_size _ _ _ _ C) as [? ?]. change BPB with 8192 in *.
  assert (dstart <= r) as Hd by (destruct (decide (r < dstart)); [rewrite (cv_meta _ _ _ _ C) in Hf by lia; done | lia]).
  split; [done|]. split; [lia|]. intros j ae t Hj Ht E.
  destruct (cv_used _ _ _ _ C j ae t Hj Ht) as [_ N]; [lia|]. rewrite E in N. congruence.
Qed.

(** A block leaves the bitmap. *)
Lemma cv_alloc v' r :
  0 <= r < sb_size sb -> block_free sb v r = true ->
  (forall k, v' k = upd (upd v bm (set_bit (v bm) r)) r zero_block k) ->
  cv dstart sb v' D /\ fresh v' D r /\ block_free sb v' r = false
  /\ (forall i ad, D !! i = Some ad -> grow v D i v' ad)
  /\ forall i ad t, D !! i = Some ad -> slot_addr v' ad t = slot_addr v ad t.
Proof.
  intros Hr Hf Hv. destruct (free_fresh r Hr Hf) as [Hd Hfr]. destruct (cv_size _ _ _ _ C) as [Hbm Hsz]. change BPB with 8192 in *.
  pose proof (cv_layout _ _ _ _ C) as L. fold bm in Hbm.
  assert (forall k, k = 0 \/ dstart <= k -> k <> r -> v' k = v k) as Hsame.
  { intros k Hk Hn. rewrite Hv, !upd_ne by (unfold bm in *; lia). done. }
  assert (forall j ae t, D !! j = Some ae -> (t < NSLOT)%nat -> v' (slot_addr v ae t) = v (slot_addr v ae t)) as Hdata.
  { intros j ae t Hj Ht. destruct (decide (slot_addr v ae t = 0)) as [->|N]; [apply Hsame; [by left|lia]|].
    apply Hsame; [right; by apply (cv_used _ _ _ _ C j)|]. by apply (proj2 Hfr j). }
  destruct (layout_same v v' D L) as [L' Hs].
  { intros k. rewrite Hv. unfold upd. repeat bcase; [done | unfold set_bit; rewrite length_insert; apply L | apply L]. }
  { intros j ae Hj _. rewrite <- (slot_direct v) by lia. apply (Hdata j); [done|unfold NSLOT; lia]. }
  assert (forall b, 0 <= b < sb_size sb -> block_free sb v' b = if b =? r then false else block_free sb v b) as Hfree.
  { intros b Hb. unfold block_free. destruct (one_bitmap _ _ _ _ b C Hb) as [-> ->]. fold bm.
    rewrite Hv, upd_ne, upd_eq by (unfold bm in *; lia). apply set_bit_free; [lia|lia|]. rewrite (ly_whole _ _ L). unfold byte_of. dlia. }
  split; [split; [done|done| |] | split; [split; [apply Hfr|]| split; [|split; [|exact Hs]]]].
  - intros b Hb. rewrite Hfree by lia. destruct (b =? r); [done|]. by apply (cv_meta _ _ _ _ C).
  - intros j ae t Hj Ht. rewrite (Hs j) by done. intros N. destruct (cv_used _ _ _ _ C j ae t Hj Ht N) as [? E].
    rewrite Hfree by lia. split; [done|]. by destruct (_ =? r).
  - intros j ae t Hj Ht. rewrite (Hs j) by done. by apply (proj2 Hfr j).
  - rewrite Hfree by done. by rewrite Z.eqb_refl.
  - intros i ad Hi. split.
    + intros j ae t Hj Ht _. rewrite <- (Hs j) by done. case_decide as Hji; [|done]. subst j. by replace ad with ae by congruence.
    + intros j ae t Hj Ht _ _. by apply (Hdata j).
Qed.

(** A marked block no inode uses is given to a slot. *)
Lemma cv_assign i ad s r :
  D !! i = Some ad -> (s < NSLOT)%nat -> slot_addr v ad s = 0 -> ((12 < s)%nat -> ad !!! 12%nat <> 0) ->
  fresh v D r -> dstart <= r < sb_size sb -> block_free sb v r = false -> (s = 12%nat -> v r = zero_block) ->
  let v' := (assign v ad s r).1 in let ad' := (assign v ad s r).2 in
  cv dstart sb v' (<[i := ad']> D) /\ grow v D i v' ad' /\ slot_addr v' ad' s = r
  /\ forall k, (12 < s)%nat /\ k = ad !!! 12%nat \/ v' k = v k.
Proof.
  intros Hi Hs H0 Hind Hf Hr Hmk Hz v' ad'. pose proof (cv_layout _ _ _ _ C) as L. destruct (cv_size _ _ _ _ C) as [Hbm Hsz].
  pose proof (assign_slot v D L i ad s r Hi Hs Hind Hf Hz) as E.
  pose proof (assign_slot_other v D L i ad s r Hi Hs H0 Hind Hf Hz) as O.
  pose proof (assign_block v ad s r Hs Hind Hz) as B.
  fold v' ad' in E, O, B. split; [|split; [by apply assign_grow|split; [done|done]]].
  assert (v' bm = v bm) as Ebm.
  { destruct (B bm) as [[H12 Ek]|]; [|done]. exfalso.
    destruct (cv_used _ _ _ _ C i ad 12%nat Hi) as [Hu _]; [unfold NSLOT; lia | rewrite slot_direct by lia; auto|].
    rewrite slot_direct in Hu by lia. unfold bm in *. lia. }
  assert (forall b, 0 <= b < sb_size sb -> block_free sb v' b = block_free sb v b) as Hfree by (intros; by apply free_ext).
  split; [by apply layout_assign | done | |].
  - intros b Hb. rewrite Hfree by lia. by apply (cv_meta _ _ _ _ C).
  - intros j ae t. rewrite lookup_insert. destruct (decide (i = j)) as [<-|Hne]; [intros [= <-]|intros Hj]; intros Ht N.
    + destruct (decide (t = s)) as [->|Hts]; [by rewrite E, Hfree by lia|].
      pose proof (O i ad t Hi Ht ltac:(congruence)) as O'. rewrite decide_True in O' by done. rewrite O' in *.
      destruct (cv_used _ _ _ _ C i ad t Hi Ht N). by rewrite Hfree by lia.
    + pose proof (O j ae t Hj Ht ltac:(congruence)) as O'. rewrite decide_False in O' by congruence. rewrite O' in *.
      destruct (cv_used _ _ _ _ C j ae t Hj Ht N). by rewrite Hfree by lia.
Qed.

(** A data block is rewritten. *)
Lemma cv_write i ad s b :
  D !! i = Some ad -> (s < NSLOT)%nat -> s <> 12%nat -> slot_addr v ad s <> 0 -> length b = 1024%nat ->
  cv dstart sb (upd v (slot_addr v ad s) b) D.
Proof.
  intros Hi Hs H12 Hx Hb. pose proof (cv_layout _ _ _ _ C) as L. destruct (cv_size _ _ _ _ C) as [Hbm Hsz].
  destruct (cv_used _ _ _ _ C i ad s Hi Hs Hx) as [Hxr _].
  assert (forall c, 0 <= c < sb_size sb -> block_free sb (upd v (slot_addr v ad s) b) c = block_free sb v c) as Hfree.
  { intros c Hc. apply free_ext; [done|]. apply upd_ne. unfold bm. lia. }
  split; [by apply (layout_write v D L i) | done | |].
  - intros c Hc. rewrite Hfree by lia. by apply (cv_meta _ _ _ _ C).
  - intros j ae t Hj Ht. rewrite (slot_write v D L i ad s b j) by done. intros N.
    destruct (cv_used _ _ _ _ C j ae t Hj Ht N). by rewrite Hfree by lia.
Qed.
End Cv.

Lemma keeps_ext v D i v1 v2 : (forall k, v2 k = v1 k) -> keeps v D i v1 -> keeps v D i v2.
Proof.
  intros E [S Dt]. split.
  - intros j ae t Hj Hn Ht. rewrite <- (S j ae t Hj Hn Ht). by apply slot_addr_ext.
  - intros j ae t Hj Hn Ht H12. rewrite <- (Dt j ae t Hj Hn Ht H12). apply E.
Qed.
Lemma byte_at_ext v v' ad k : (forall k, v' k = v k) -> byte_at v' ad k = byte_at v ad k.
Proof. intros E. unfold byte_at, data_block. by rewrite (slot_addr_ext v v'), E. Qed.
Lemma size_union_sum (X Y : gset Z) : (size (X ∪ Y) <= size X + size Y)%nat.
Proof. rewrite size_union_alt. pose proof (subseteq_size (Y ∖ X) Y ltac:(set_solver)). lia. Qed.

Lemma cv_ext dstart sb v v' D : (forall k, v' k = v k) -> cv dstart sb v D -> cv dstart sb v' D.
Proof.
  intros E C. destruct C as [L1 L2 L3 L4]. destruct (layout_same v v' D L1) as [L1' Hs].
  { intros k. rewrite E. apply L1. } { intros. apply E. }
  split; [done|done| |].
  - intros b Hb. unfold block_free. rewrite E. by apply L3.
  - intros j ae t Hj Ht. rewrite (Hs j) by done. unfold block_free. rewrite E. by apply (L4 j).
Qed.
Lemma grow_ext v D i v1 v2 ad : (forall k, v2 k = v1 k) -> grow v D i v1 ad -> grow v D i v2 ad.
Proof.
  intros E [S Dt]. split.
  - intros j ae t Hj Ht Ho. rewrite <- (S j ae t Hj Ht Ho). by apply slot_addr_ext.
  - intros j ae t Hj Ht H12 Ho. rewrite <- (Dt j ae t Hj Ht H12 Ho). apply E.
Qed.

Lemma grow_ext_src v v0 D i v1 ad : (forall k, v k = v0 k) -> grow v D i v1 ad -> grow v0 D i v1 ad.
Proof.
  intros E [S Dt]. assert (forall ae t, slot_addr v ae t = slot_addr v0 ae t) as Es by (intros; by apply slot_addr_ext). split.
  - intros j ae t Hj Ht Ho. rewrite <- Es in *. by apply S.
  - intros j ae t Hj Ht H12 Ho. rewrite <- E, <- Es. rewrite <- Es in Ho. by apply (Dt j).
Qed.

(** ** States during a write *)

Definition with_addrs (ad : list Z) (ip : inode) : inode :=
  Inode (i_dev ip) (i_inum ip) (i_ref ip) (i_lock ip) (i_valid ip) (i_type ip) (i_major ip) (i_minor ip) (i_nlink ip) (i_size ip) ad.

Lemma alter_with_addrs a b i (l : list inode) : alter (with_addrs b) i (alter (with_addrs a) i l) = alter (with_addrs b) i l.
Proof.
  apply list_eq. intros j. destruct (decide (i = j)) as [<-|Hne].
  - rewrite !list_lookup_alter_eq. by destruct (l !! i) as [[]|].
  - by rewrite !list_lookup_alter_ne.
Qed.
Lemma alter_with_same i ip (l : list inode) : l !! i = Some ip -> alter (with_addrs (i_addrs ip)) i l = l.
Proof.
  intros Hl. apply list_eq. intros j. destruct (decide (i = j)) as [<-|Hne]; [|by rewrite list_lookup_alter_ne].
  rewrite list_lookup_alter_eq, Hl. by destruct ip.
Qed.

Section Write.
Context {T H U : Type} `{TS : TxStore T H dev} `{UserMem U}.
Context (dstart inum : Z) (i : nat).
Implicit Type s : fs_st T U.

(** The bitmap block. *)
Definition bm s : Z := sb_bmapstart (fs_sb s).

(** Entry [i] of the inode table is inode [inum], and the disk is consistent;
    the buffers held are data blocks in use. *)
Record wstate s (D : gmap Z (list Z)) (ip : inode) : Prop := {
  wt_inv : ts_inv (fs_tx s);
  wt_cv : cv dstart (fs_sb s) (vw s) D;
  wt_at : fs_itable s !! i = Some ip;
  wt_dev : i_dev ip = dev;
  wt_in : D !! inum = Some (i_addrs ip);
  wt_dirty : dirty s ⊆ logged s;
  wt_held k : k ∈ held s -> dstart <= k < sb_size (fs_sb s) /\ block_free (fs_sb s) (vw s) k = false }.

(** What a step towards more blocks for the inode has done; [X] are the
    blocks it logged besides the bitmap. *)
Record wpost s (D : gmap Z (list Z)) ip (X : gset Z) s' ip' : Prop := {
  wp_state : wstate s' (<[inum := i_addrs ip']> D) ip';
  wp_grow : grow (vw s) D inum (vw s') (i_addrs ip');
  wp_ip : ip' = with_addrs (i_addrs ip') ip;
  wp_fs : s' = set_fs_tx (fs_tx s') (upd_inode i (with_addrs (i_addrs ip')) s);
  wp_held : held s' = held s;
  wp_meta k : k < dstart -> k <> bm s -> vw s' k = vw s k;
  wp_logged : logged s' ⊆ logged s ∪ {[bm s]} ∪ X }.

Definition disk_full s : Prop := forall b, 0 <= b < sb_size (fs_sb s) -> block_free (fs_sb s) (vw s) b = false.

Lemma wpost_fs s D ip X s' ip' : wpost s D ip X s' ip' ->
  fs_sb s' = fs_sb s /\ fs_user s' = fs_user s /\ fs_itable s' = alter (with_addrs (i_addrs ip')) i (fs_itable s).
Proof. intros W. by rewrite (wp_fs _ _ _ _ _ _ W). Qed.

Lemma wpost_trans s D ip X1 s1 ip1 X2 s2 ip2 :
  wpost s D ip X1 s1 ip1 -> wpost s1 (<[inum := i_addrs ip1]> D) ip1 X2 s2 ip2 -> wpost s D ip (X1 ∪ X2) s2 ip2.
Proof.
  intros W1 W2. pose proof (wpost_fs _ _ _ _ _ _ W1) as (E1 & E2 & E3). unfold bm in *.
  destruct W1 as [A1 G1 P1 F1 H1' M1 L1], W2 as [A2 G2 P2 F2 H2' M2 L2].
  assert (bm s1 = bm s) as Eb by (unfold bm; by rewrite E1). rewrite insert_insert, decide_True in A2 by done.
  split; [done | by eapply grow_trans | by rewrite P2, P1 | | congruence | | ].
  - etransitivity; [exact F2|]. unfold upd_inode, set_fs_tx. simpl. rewrite E1, E2, E3. by rewrite alter_with_addrs.
  - intros k Hk Hn. rewrite M2, M1; [done|done|done|done|by rewrite Eb].
  - rewrite Eb in L2. clear -L1 L2. set_solver.
Qed.

Lemma fs_eq s s' f :
  fs_sb s' = fs_sb s -> fs_user s' = fs_user s -> fs_itable s' = alter f i (fs_itable s) ->
  s' = set_fs_tx (fs_tx s') (upd_inode i f s).
Proof. destruct s'. simpl. by intros -> -> ->. Qed.

Lemma fs_data_run s k h : ts_inv (fs_tx s) -> ts_handle (fs_tx s) k h -> Fs.data h s = Ret (vw s k) s.
Proof. intros Hi Hh. unfold Fs.data, gets. by rewrite (ts_data_ok _ _ _ Hi Hh). Qed.

(** A step that leaves the inode's addresses alone. *)
Lemma wpost_view s D ip X s' :
  wstate s D ip -> same_fs s s' -> wstate s' D ip -> held s' = held s -> (forall k, vw s' k = vw s k) ->
  logged s' ⊆ logged s ∪ {[bm s]} ∪ X -> wpost s D ip X s' ip.
Proof.
  intros W Sf W' Hh Hv Hl. split; try done.
  - by rewrite insert_id by apply W.
  - split; [|done]. intros j ae t Hj _ _. rewrite (slot_addr_ext _ _ _ t Hv). case_decide as Hd; [|done].
    subst j. pose proof (wt_in _ _ _ W). by replace (i_addrs ip) with ae by congruence.
  - by destruct ip.
  - etransitivity; [exact Sf|]. unfold upd_inode, set_fs_tx. simpl. by rewrite alter_with_same by apply W.
Qed.

Lemma wstate_view s s' D ip :
  wstate s D ip -> same_fs s s' -> ts_inv (fs_tx s') -> (forall k, vw s' k = vw s k) -> dirty s' ⊆ logged s' ->
  (forall k, k ∈ held s' -> dstart <= k < sb_size (fs_sb s) /\ block_free (fs_sb s) (vw s) k = false) -> wstate s' D ip.
Proof.
  intros [W1 W2 W3 W4 W5 W6 W7] Sf Hi Hv Hd Hh. destruct (same_fs_sb _ _ Sf) as (Eb & Et & Eu).
  split; rewrite ?Eb, ?Et; try done.
  - by apply (cv_ext _ _ (vw s)).
  - intros k Hk. unfold block_free. rewrite Hv. by apply Hh.
Qed.

(** [balloc] on a consistent disk. *)
Lemma balloc_run s D ip :
  wstate s D ip -> (size (held s) < MAXHELD)%nat -> (forall b, (size (logged s ∪ {[bm s]} ∪ {[b]}) <= 10)%nat) ->
  exists r s', balloc dev s = Ret r s' /\ kept (fun j => j ∈ held s) s s' /\
    (r = 0 /\ wpost s D ip ∅ s' ip /\ same_view s s' /\ disk_full s'
     \/ dstart <= r < sb_size (fs_sb s) /\ wpost s D ip {[r]} s' ip /\ fresh (vw s') D r
        /\ block_free (fs_sb s) (vw s') r = false /\ vw s' r = zero_block
        /\ forall t, slot_addr (vw s') (i_addrs ip) t = slot_addr (vw s) (i_addrs ip) t).
Proof.
  intros W Hn Hlog. pose proof W as [Hi C Hat Hdev Hin Hd Hh]. destruct (cv_size _ _ _ _ C) as [Hbm Hsz].
  change BPB with 8192 in Hsz. fold (bm s) in Hbm.
  assert (alloc_ready s) as AR.
  { split; try done.
    - lia.
    - intros b Hb. destruct (one_bitmap _ _ _ _ b C Hb) as [-> _]. fold (bm s). split; [lia|].
      split; [|apply (cv_layout _ _ _ _ C)]. intros Hk. destruct (Hh _ Hk). lia.
    - intros b Hb. destruct (one_bitmap _ _ _ _ b C Hb) as [-> _]. apply Hlog. }
  destruct (balloc_first_free s AR) as (r & s' & R & Sf & I' & H' & K' & P).
  { intros j Hj Hf Hk. destruct (Hh _ Hk). congruence. }
  exists r, s'. split; [done|]. split; [done|].
  destruct P as [(-> & V & L' & D' & Hfull)|(Hr & Hf & _ & V & L' & D')]; [left|right].
  - split; [done|]. split; [|split; [by split|]]. 2:{ intros b Hb. destruct (same_fs_sb _ _ Sf) as (Eb & _). rewrite Eb in *. rewrite <- (Hfull b Hb). unfold block_free. by rewrite V. }
    apply wpost_view; try done.
    + apply (wstate_view s); try done; [by rewrite L', D' | by rewrite H'].
    + rewrite L'. set_solver.
  - destruct (one_bitmap _ _ _ _ r C Hr) as [Eb Em]. rewrite Eb, Em in *. fold (bm s) in V, L', D'.
    destruct (cv_alloc _ _ _ _ C (vw s') r Hr Hf V) as (C' & Hfr & Hmk & Hgr & Hsl).
    destruct (free_fresh _ _ _ _ C r Hr Hf) as [Hds _]. destruct (same_fs_sb _ _ Sf) as (Esb & Et & Eu).
    split; [lia|]. split; [|split; [done|split; [done|split; [rewrite V; apply upd_eq|intros t; by apply (Hsl inum)]]]].
    split; try done; [| by apply Hgr | by destruct ip | | |].
    + rewrite insert_id by done. split; rewrite ?Esb, ?Et, ?L', ?D', ?H'; try done; [set_solver|].
      intros k Hk. destruct (Hh k Hk) as [Hk1 Hk2]. split; [done|].
      destruct (one_bitmap _ _ _ _ k C ltac:(lia)) as [Ek Emk]. unfold block_free in *. rewrite Ek, Emk in *. fold (bm s) in *.
      rewrite V, upd_ne, upd_eq by lia. rewrite set_bit_free; [by case_match | lia | lia |].
      rewrite (ly_whole _ _ (cv_layout _ _ _ _ C)). unfold byte_of. dlia.
    + etransitivity; [exact Sf|]. unfold upd_inode, set_fs_tx. simpl. by rewrite alter_with_same.
    + intros k Hk Hnk. rewrite V, !upd_ne by (done || lia). done.
    + rewrite L'. set_solver.
Qed.

(** A direct slot, or the slot of the indirect block, is given a block. *)
Lemma slot_run s D ip n :
  wstate s D ip -> (size (held s) < MAXHELD)%nat -> (forall b, (size (logged s ∪ {[bm s]} ∪ {[b]}) <= 10)%nat) ->
  (n <= 12)%nat -> i_addrs ip !!! n = 0 ->
  exists r s' ip', (let* addr := balloc (i_dev ip) in
                if addr =? 0 then mreturn 0 else set_inode i (set_i_addr n addr) ;;; mreturn addr) s = Ret r s'
    /\ (r = 0 /\ wpost s D ip ∅ s' ip' /\ disk_full s' \/ r <> 0 /\ wpost s D ip {[r]} s' ip' /\ i_addrs ip' !!! n = r).
Proof.
  intros W Hh Hlog Hn H0'. destruct (balloc_run s D ip W Hh Hlog) as (r & s1 & R & _ & P).
  rewrite (wt_dev _ _ _ W), (mthen_ret _ _ _ _ _ R). destruct P as [(-> & P & _ & Hf)|(Hr & P & Hfr & Hmk & Hz & Hsl)].
  - exists 0, s1, ip. split; [done|]. by left.
  - destruct (Z.eqb_spec r 0); [destruct (cv_size _ _ _ _ (wt_cv _ _ _ W)); lia|].
    pose proof (wpost_fs _ _ _ _ _ _ P) as (Esb & Eu & Et). pose proof P as [W1 G1 _ F1 H1' M1 L1].
    rewrite insert_id in W1 by apply W. pose proof W1 as [I1 C1 At1 Dv1 In1 D1 Hh1].
    destruct (cv_assign _ _ _ _ C1 inum (i_addrs ip) n r In1) as (C2 & G2 & E2 & _);
      [unfold NSLOT; lia | by rewrite slot_direct by lia | lia | done | by rewrite Esb | by rewrite Esb | done |].
    unfold assign, NDIRECT in C2, G2, E2. rewrite (proj2 (Nat.leb_le n 12) Hn) in C2, G2, E2. cbn [fst snd] in *.
    rewrite slot_direct in E2 by lia. set (ad' := <[n := r]> (i_addrs ip)) in *.
    exists r, (upd_inode i (set_i_addr n r) s1), (with_addrs ad' ip). split; [done|]. right. split; [done|]. split; [|exact E2].
    assert (fs_itable (upd_inode i (set_i_addr n r) s1) !! i = Some (with_addrs ad' ip)) as At2.
    { simpl. by rewrite (alter_lookup _ _ _ _ At1). }
    split; try done.
    + split; try done. by rewrite lookup_insert_eq.
    + eapply grow_trans; [exact G1|]. rewrite insert_id by apply W. exact G2.
    + unfold upd_inode, set_fs_tx. simpl. rewrite Esb, Eu, Et. f_equal.
      apply list_eq. intros j. destruct (decide (i = j)) as [<-|Hne]; [|by rewrite !list_lookup_alter_ne].
      rewrite !list_lookup_alter_eq, (wt_at _ _ _ W). by destruct ip.
Qed.

(** An entry of the indirect block, read or given a block. *)
Lemma entry_run s D ip n :
  let ind := i_addrs ip !!! 12%nat in
  let o := (4 * (n - 13))%nat in
  wstate s D ip -> (size (held s) + 1 < MAXHELD)%nat -> ind ∉ held s ->
  (forall b, (size (logged s ∪ {[bm s]} ∪ {[ind]} ∪ {[b]}) <= 10)%nat) ->
  (12 < n < NSLOT)%nat -> ind <> 0 ->
  exists r s', (let* bp := bread (i_dev ip) ind in
    let* d := Fs.data bp in
    let* addr := (if get_uint o d =? 0 then
                    let* addr := balloc (i_dev ip) in
                    (when negb (addr =? 0) do
                       (let* d := Fs.data bp in
                        Fs.set_data bp (put 4 o addr d) ;;;
                        log_write bp)) ;;;
                    mreturn addr
                  else mreturn (get_uint o d)) in
    brelse bp ;;;
    mreturn addr) s = Ret r s'
    /\ (r = 0 /\ wpost s D ip {[ind]} s' ip /\ disk_full s'
        \/ r <> 0 /\ wpost s D ip ({[ind]} ∪ {[r]}) s' ip /\ slot_addr (vw s') (i_addrs ip) n = r).
Proof.
  intros ind o W Hhn Hnh Hlog Hn Hind. pose proof W as [Hi C Hat Hdev Hin Hd Hh].
  assert (slot_addr (vw s) (i_addrs ip) n = get_uint o (vw s ind)) as En by (rewrite slot_indirect by (done || lia); done).
  destruct (cv_used _ _ _ _ C inum _ 12%nat Hin ltac:(unfold NSLOT; lia)) as [Hir Him]; [by rewrite slot_direct by lia|].
  rewrite slot_direct in Hir, Him by lia. fold ind in Hir, Him. destruct (cv_size _ _ _ _ C) as [Hbm Hsz]. change BPB with 8192 in *.
  destruct (bread_run s ind Hi ltac:(lia) Hnh ltac:(lia)) as (h & s1 & R1 & S1 & I1 & V1 & E1 & E2 & E3 & Hh1 & D1 & _).
  rewrite Hdev, (mthen_ret _ _ _ _ _ R1), (mthen_ret _ _ _ _ _ D1). destruct (same_fs_sb _ _ S1) as (B1 & T1 & U1).
  assert (wstate s1 D ip) as W1.
  { apply (wstate_view s); try done; [by rewrite E2, E3|]. intros k. rewrite E1, elem_of_union, elem_of_singleton.
    intros [Hk| ->]; [by apply Hh | done]. }
  destruct (Z.eqb_spec (get_uint o (vw s ind)) 0) as [Ez|Ez].
  - destruct (balloc_run s1 D ip W1) as (r & s2 & R2 & K2 & P2).
    { rewrite E1. pose proof (size_union_le (held s) ind (size (held s) + 1)). lia. }
    { intros b. unfold bm. rewrite B1, E2. eapply size_sub_le; [apply (Hlog b) | clear; set_solver]. }
    rewrite mthen_assoc, (mthen_ret _ _ _ _ _ R2).
    assert (ts_handle (fs_tx s2) ind h) as Hh2 by (apply K2; [rewrite E1; clear; set_solver | done]).
    destruct P2 as [(-> & _ & [S2 I2 V2 F1 F2 F3] & Hf)|(Hr & P & Hfr & Hmk & Hz & Hsl)].
    + cbn [Z.eqb negb]. rewrite (mthen_ret _ _ s2 0 s2 eq_refl).
      destruct (fs_brelse_run s2 ind h I2 Hh2) as (s3 & R3 & S3 & I3 & V3 & G1 & G2 & G3 & _);
        [rewrite F1, E1; clear; set_solver | by rewrite F2, F3, E2, E3; auto|].
      rewrite (mthen_ret _ _ _ _ _ R3). exists 0, s3. split; [done|]. left. split; [done|].
      pose proof (same_fs_trans _ _ _ (same_fs_trans _ _ _ S1 S2) S3) as S13.
      assert (forall k, vw s3 k = vw s k) as V13 by (intros k; by rewrite V3, V2, V1).
      assert (held s3 = held s) as H3 by (rewrite G1, F1, E1; clear -Hnh; set_solver). split.
      * apply wpost_view; try done; [|rewrite G2, F2, E2; clear; set_solver].
        apply (wstate_view s); try done; [by rewrite G2, G3, F2, F3, E2, E3 | by rewrite H3].
      * intros b Hb. destruct (same_fs_sb _ _ S3) as (B3 & _). rewrite B3 in *. rewrite <- (Hf b Hb). unfold block_free. by rewrite V3.
    + rewrite B1 in Hr, Hmk. destruct (Z.eqb_spec r 0); [lia|]. cbn [negb].
      pose proof (wpost_fs _ _ _ _ _ _ P) as (B2 & U2 & T2). pose proof P as [W2 Gr2 _ _ H2' M2 L2].
      rewrite insert_id in W2 by done. pose proof W2 as [I2 C2 At2 _ In2 D2 Hh2'].
      assert (bm s1 = bm s) as Ebm by (unfold bm; by rewrite B1). rewrite Ebm, E2 in L2.
      set (nb := put 4 o r (vw s2 ind)).
      destruct (rewrite_run s2 ind h nb I2 Hh2) as (s3 & s4 & s5 & R3 & R4 & R5 & S5 & I5 & V5 & F1 & F2 & F3 & _).
      { rewrite H2', E1. clear. set_solver. }
      { eapply size_sub_le; [apply (Hlog r) | clear -L2; set_solver]. }
      destruct (cv_assign _ _ _ _ C2 inum (i_addrs ip) n r In2) as (C5 & G5 & E5 & _);
        [lia | by rewrite Hsl, (slot_addr_ext _ _ _ n V1), En | done | done | rewrite B2, B1; lia | by rewrite B2, B1 | lia |].
      unfold assign, NDIRECT in C5, G5, E5. rewrite (proj2 (Nat.leb_gt n 12)) in C5, G5, E5 by lia. cbn [fst snd] in *.
      rewrite insert_id in C5 by done. fold ind o nb in C5, G5, E5.
      exists r, s5. split.
      { unfold mthen, mreturn. rewrite (fs_data_run s2 ind h I2 Hh2). fold nb. by rewrite R3, R4, R5. }
      right. split; [done|]. split; [|by rewrite (slot_addr_ext _ _ _ n V5)].
      destruct (same_fs_sb _ _ S5) as (B5 & T5 & U5).
      assert (held s5 = held s) as H5 by (rewrite F1, H2', E1; clear -Hnh; set_solver).
      assert (wstate s5 D ip) as W5.
      { split; rewrite ?B5, ?T5, ?F2, ?F3, ?H5; try done.
        - by apply (cv_ext _ _ _ _ _ V5).
        - clear -D2. set_solver.
        - intros k Hk. rewrite B2, B1. destruct (Hh k Hk) as [Hk1 Hk2]. split; [done|].
          destruct (Hh2' k) as [_ Hk3]; [rewrite H2', E1; clear -Hk; set_solver|]. rewrite B2, B1 in Hk3.
          rewrite <- Hk3. unfold block_free. rewrite V5. f_equal. apply upd_ne.
          destruct (one_bitmap _ _ _ _ k C ltac:(lia)) as [-> _]. unfold bm in Hbm. lia. }
      split; try done.
      * by rewrite insert_id.
      * apply (grow_ext _ _ _ _ _ _ V5). eapply grow_trans; [by apply (grow_ext_src (vw s1))|]. by rewrite insert_id.
      * by destruct ip.
      * apply fs_eq; [congruence|congruence|]. by rewrite T5, T2, T1.
      * intros k Hk Hkb. rewrite V5, upd_ne by lia. rewrite M2, V1; [done|done|by rewrite Ebm].
      * rewrite F2. clear -L2. set_solver.
  - rewrite (mthen_ret (mreturn _) _ s1 _ s1 eq_refl).
    destruct (fs_brelse_run s1 ind h I1 Hh1) as (s2 & R2 & S2 & I2 & V2 & F1 & F2 & F3 & _); [rewrite E1; set_solver | by rewrite E2, E3; auto|].
    rewrite (mthen_ret _ _ _ _ _ R2). pose proof (same_fs_trans _ _ _ S1 S2) as S12.
    assert (forall k, vw s2 k = vw s k) as V12 by (intros k; by rewrite V2, V1).
    exists (get_uint o (vw s ind)), s2. split; [done|]. right. split; [done|]. split.
    + assert (held s2 = held s) as Hh2 by (rewrite F1, E1; clear -Hnh; set_solver).
      apply wpost_view; try done; [|rewrite F2, E2; clear; set_solver].
      apply (wstate_view s); try done; [by rewrite F2, F3, E2, E3 | by rewrite Hh2].
    + by rewrite (slot_addr_ext _ _ _ n V12).
Qed.

Lemma wpost_weaken s D ip X X' s' ip' : wpost s D ip X s' ip' -> X ⊆ X' -> wpost s D ip X' s' ip'.
Proof. intros [] HX. split; try done. clear -wp_logged0 HX. set_solver. Qed.

Lemma size_pair (a b : Z) : (size ({[a]} ∪ {[b]} : gset Z) <= 2)%nat.
Proof. apply size_union_le. by rewrite size_singleton. Qed.

(** [bmap] finds or allocates block [bn] of the file; it returns 0 only when
    no block is free.  Besides the bitmap at most two blocks are logged, the
    one returned among them. *)
Lemma bmap_alloc_run s D ip bn :
  wstate s D ip -> held s = ∅ -> 0 <= bn < MAXFILE -> (forall a b, (size (logged s ∪ {[bm s]} ∪ {[a]} ∪ {[b]}) <= 10)%nat) ->
  exists r s' ip' X, bmap i bn s = Ret r s' /\ (size X <= 2)%nat /\ wpost s D ip X s' ip'
    /\ (r = 0 /\ disk_full s' \/ r <> 0 /\ r ∈ X /\ data_block (vw s') (i_addrs ip') bn = r).
Proof.
  intros W Hh Hbn Hlog. change MAXFILE with 268 in Hbn. pose proof W as [Hi C Hat Hdev Hin Hd _].
  assert (forall b, (size (logged s ∪ {[bm s]} ∪ {[b]}) <= 10)%nat) as Hlog1.
  { intros b. eapply size_sub_le; [apply (Hlog b b) | clear; set_solver]. }
  assert (size (held s) + 1 < MAXHELD)%nat as Hhn by (rewrite Hh, size_empty; unfold MAXHELD; lia).
  unfold bmap. rewrite (mthen_ret _ _ _ _ _ (inode_at_run s i ip Hat)). change (Z.of_nat NDIRECT) with 12.
  unfold data_block, data_slot. destruct (Z.ltb_spec bn 12) as [Hlt|Hge].
  - destruct (Z.eqb_spec (i_addrs ip !!! Z.to_nat bn) 0) as [E|E].
    + destruct (slot_run s D ip (Z.to_nat bn) W ltac:(lia) Hlog1 ltac:(lia) E) as (r & s' & ip' & R & [(-> & P & F)|(N & P & Es)]).
      * exists 0, s', ip', ∅. split; [done|]. split; [rewrite size_empty; lia|]. split; [done|by left].
      * exists r, s', ip', {[r]}. split; [done|]. split; [rewrite size_singleton; lia|]. split; [done|].
        right. split; [done|]. split; [set_solver|]. by rewrite slot_direct by lia.
    + exists (i_addrs ip !!! Z.to_nat bn), s, ip, {[i_addrs ip !!! Z.to_nat bn]}. split; [done|]. split; [rewrite size_singleton; lia|].
      split; [apply wpost_view; try done; [apply same_fs_refl | clear; set_solver]|].
      right. split; [done|]. split; [set_solver|]. by rewrite slot_direct by lia.
  - change NINDIRECT with 256. destruct (Z.ltb_spec (bn - 12) 256); [|lia]. change NDIRECT with 12%nat.
    set (n := (Z.to_nat bn + 1)%nat). assert (12 < n < NSLOT)%nat as Hn by (unfold n, NSLOT; lia).
    assert (exists addr s1 ip1 X, (if i_addrs ip !!! 12%nat =? 0
        then let* addr := balloc (i_dev ip) in if addr =? 0 then mreturn 0 else set_inode i (set_i_addr 12 addr) ;;; mreturn addr
        else mreturn (i_addrs ip !!! 12%nat)) s = Ret addr s1 /\ wpost s D ip X s1 ip1 /\ X ⊆ {[addr]}
        /\ (addr = 0 /\ disk_full s1 \/ addr <> 0 /\ i_addrs ip1 !!! 12%nat = addr)) as (addr & s1 & ip1 & X & R1 & P1 & HX & Hc).
    { destruct (Z.eqb_spec (i_addrs ip !!! 12%nat) 0) as [E|E].
      - destruct (slot_run s D ip 12 W ltac:(lia) Hlog1 ltac:(lia) E) as (r & s' & ip' & R & [(-> & P & F)|(N & P & Es)]).
        + exists 0, s', ip', ∅. split; [done|]. split; [done|]. split; [set_solver|by left].
        + exists r, s', ip', {[r]}. split; [done|]. split; [done|]. split; [done|by right].
      - exists (i_addrs ip !!! 12%nat), s, ip, ∅. split; [done|].
        split; [apply wpost_view; try done; [apply same_fs_refl | clear; set_solver]|]. split; [set_solver|by right]. }
    rewrite (mthen_ret _ _ _ _ _ R1). destruct Hc as [[-> Hf]|[Hnz Ha]].
    + exists 0, s1, ip1, X. split; [done|]. split; [|split; [done|by left]].
      pose proof (subseteq_size _ _ HX) as Hs. rewrite size_singleton in Hs. lia.
    + destruct (Z.eqb_spec addr 0); [done|]. pose proof (wpost_fs _ _ _ _ _ _ P1) as (B1 & _). pose proof (wp_held _ _ _ _ _ _ P1) as H1'.
      assert (bm s1 = bm s) as Eb by (unfold bm; by rewrite B1). pose proof (wp_logged _ _ _ _ _ _ P1) as L1.
      destruct (entry_run s1 _ ip1 n (wp_state _ _ _ _ _ _ P1)) as (r & s2 & R2 & Hc2); rewrite ?Ha, ?H1'; try done.
      { rewrite Hh. set_solver. }
      { intros b. rewrite Eb. eapply size_sub_le; [apply (Hlog addr b) | clear -L1 HX; set_solver]. }
      rewrite Ha in *. rewrite (wt_dev _ _ _ (wp_state _ _ _ _ _ _ P1)) in R2. rewrite Hdev.
      replace (4 * (n - 13))%nat with (Z.to_nat (4 * (bn - 12))) in R2 by (unfold n; lia).
      destruct Hc2 as [(-> & P2 & Hf)|(N & P2 & Es)].
      * exists 0, s2, ip1, {[addr]}. split; [done|]. split; [rewrite size_singleton; lia|].
        pose proof (wpost_trans _ _ _ _ _ _ _ _ _ P1 P2) as P. split; [|by left].
        apply (wpost_weaken _ _ _ _ _ _ _ P). clear -HX. set_solver.
      * exists r, s2, ip1, ({[addr]} ∪ {[r]}). split; [done|]. split; [apply size_pair|].
        pose proof (wpost_trans _ _ _ _ _ _ _ _ _ P1 P2) as P.
        split; [apply (wpost_weaken _ _ _ _ _ _ _ P); clear -HX; set_solver|]. right. split; [done|]. split; [set_solver|done].
Qed.
End Write.
