(* ===== verification/FsWritei.v ===== *)
(** [writei]: the bytes reach the file, and nothing else changes. *)

From S2P Require Import Prelude.
From S2P Require Import Bytes.
From S2P Require Import Locks.
From S2P Require Import BlockCache.
From S2P Require Import TxStore.
From S2P Require Import UserMem.
From S2P Require Import Fs.
From S2P Require Import FsBlocks.
From S2P Require Import FsInode.
From S2P Require Import FsContent.
From S2P Require Import FsRead.
From S2P Require Import FsWrite.

Section Writei.
Context {T H U : Type} `{TS : TxStore T H dev} `{UserMem U}.
Context (dstart inum : Z) (i : nat).
Implicit Type s : fs_st T U.

(** ** The bytes to write *)

(** The source holds the bytes [xs]. *)
Definition supplies (src : source) (xs : list Z) (u : U) : Prop :=
  match src with
  | KernelSrc ys => take (length xs) ys = xs
  | UserSrc va => fetch_bytes u (u64 va) (length xs) = (xs, true)
  end.

Lemma fetch_bytes_part (u : U) a b : forall va xs,
  fetch_bytes u (u64 va) (a + b) = (xs, true) ->
  fetch_bytes u (u64 va) a = (take a xs, true) /\ fetch_bytes u (u64 (va + Z.of_nat a)) b = (drop a xs, true).
Proof.
  induction a as [|a IH]; intros va xs Hf.
  - rewrite Z.add_0_r. done.
  - cbn [fetch_bytes Nat.add] in *. destruct (um_load u (u64 va)) as [x|]; [|done].
    replace (u64 (u64 va + 1)) with (u64 (va + 1)) in * by (unfold u64; by rewrite Zplus_mod_idemp_l).
    destruct (fetch_bytes u (u64 (va + 1)) (a + b)) as [ys ok] eqn:E. injection Hf as <- ->.
    destruct (IH (va + 1) ys E) as [-> E2]. split; [done|]. cbn [drop]. rewrite <- E2. do 2 f_equal. lia.
Qed.

Lemma copyin_run src xs s tot m :
  supplies src xs (fs_user s) -> 0 <= tot -> 0 <= m -> tot + m <= Z.of_nat (length xs) ->
  either_copyin src tot m s = Ret (take (Z.to_nat m) (drop (Z.to_nat tot) xs), true) s.
Proof.
  intros Hs Ht Hm Hl. destruct src as [va|ys]; simpl in *; unfold mthen, gets, mreturn.
  - replace (length xs) with (Z.to_nat tot + (Z.to_nat m + (length xs - Z.to_nat (tot + m))))%nat in Hs by lia.
    apply fetch_bytes_part in Hs as [_ Hs]. apply fetch_bytes_part in Hs as [Hs _].
    rewrite Z2Nat.id in Hs by lia. by rewrite Hs.
  - do 2 f_equal. rewrite <- Hs at 1. apply list_eq. intros j. destruct (decide (j < Z.to_nat m)%nat).
    + rewrite !lookup_take_lt, !lookup_drop, lookup_take_lt by lia. done.
    + by rewrite !lookup_take_ge by lia.
Qed.

(** ** The loop *)

(** The bytes [xs] are now in the file from [off] on. *)
Record wrote s (D : gmap Z (list Z)) ip off (xs : list Z) (X : gset Z) s' ip' : Prop := {
  wr_state : wstate dstart inum i s' (<[inum := i_addrs ip']> D) ip';
  wr_keeps : keeps (vw s) D inum (vw s');
  wr_ip : ip' = with_addrs (i_addrs ip') ip;
  wr_fs : s' = set_fs_tx (fs_tx s') (upd_inode i (with_addrs (i_addrs ip')) s);
  wr_held : held s' = held s;
  wr_meta k : k < dstart -> k <> bm s -> vw s' k = vw s k;
  wr_logged : logged s' ⊆ logged s ∪ {[bm s]} ∪ X;
  wr_alloc k : 0 <= k < MAXFILE * BSIZE ->
    off <= k < off + Z.of_nat (length xs) \/ data_block (vw s) (i_addrs ip) (k / BSIZE) <> 0 ->
    data_block (vw s') (i_addrs ip') (k / BSIZE) <> 0;
  wr_bytes k : 0 <= k < MAXFILE * BSIZE ->
    off <= k < off + Z.of_nat (length xs) \/ data_block (vw s) (i_addrs ip) (k / BSIZE) <> 0 ->
    byte_at (vw s') (i_addrs ip') k
    = if (off <=? k) && (k <? off + Z.of_nat (length xs)) then xs !!! Z.to_nat (k - off)
      else byte_at (vw s) (i_addrs ip) k }.

Lemma max_block k : 0 <= k < MAXFILE * BSIZE -> 0 <= k / BSIZE < MAXFILE.
Proof. change (MAXFILE * BSIZE) with 274432. change MAXFILE with 268. unfold BSIZE. intros. split; dlia. Qed.

Lemma wpost_wrote s D ip off X s' ip' : wstate dstart inum i s D ip -> wpost dstart inum i s D ip X s' ip' -> wrote s D ip off [] X s' ip'.
Proof.
  intros W [A G P F Hh M L]. pose proof (wt_in _ _ _ _ _ _ W) as Hi.
  assert (forall k, 0 <= k < MAXFILE * BSIZE -> data_block (vw s) (i_addrs ip) (k / BSIZE) <> 0 ->
    data_block (vw s') (i_addrs ip') (k / BSIZE) = data_block (vw s) (i_addrs ip) (k / BSIZE)) as Hold.
  { intros k Hk N. destruct (data_slot_range _ (max_block k Hk)) as [H1' _].
    pose proof (gr_slot _ _ _ _ _ G inum _ _ Hi H1' (or_intror N)) as E. by rewrite decide_True in E. }
  split; try done.
  - by apply grow_keeps in G.
  - intros k Hk [?|N]; [simpl in *; lia|]. by rewrite Hold.
  - intros k Hk [?|N]; [simpl in *; lia|]. destruct (data_slot_range _ (max_block k Hk)) as [H1' H2'].
    destruct (Z.leb_spec off k), (Z.ltb_spec k (off + Z.of_nat (length (@nil Z)))); simpl in *; try lia;
      unfold byte_at; rewrite Hold by done; f_equal; apply (gr_data _ _ _ _ _ G inum _ _ Hi H1' H2' (or_intror N)).
Qed.

Lemma wrote_trans s D ip off xs X s1 ip1 ys Y s2 ip2 :
  wrote s D ip off xs X s1 ip1 -> wrote s1 (<[inum := i_addrs ip1]> D) ip1 (off + Z.of_nat (length xs)) ys Y s2 ip2 ->
  wrote s D ip off (xs ++ ys) (X ∪ Y) s2 ip2.
Proof.
  intros [A1 K1 P1 F1 H1' M1 L1 Al1 By1] [A2 K2 P2 F2 H2' M2 L2 Al2 By2].
  assert (fs_sb s1 = fs_sb s /\ fs_user s1 = fs_user s /\ fs_itable s1 = alter (with_addrs (i_addrs ip1)) i (fs_itable s)) as (B1 & U1 & T1)
    by (by rewrite F1).
  assert (bm s1 = bm s) as Eb by (unfold bm; by rewrite B1). rewrite insert_insert, decide_True in A2 by done. split; try done.
  - by eapply keeps_chain.
  - by rewrite P2, P1.
  - etransitivity; [exact F2|]. unfold upd_inode, set_fs_tx. simpl. rewrite B1, U1, T1. by rewrite alter_with_addrs.
  - congruence.
  - intros k Hk Hn. rewrite M2, M1; [done|done|done|done|by rewrite Eb].
  - rewrite Eb in L2. clear -L1 L2. set_solver.
  - rewrite length_app. intros k Hk Ho. apply Al2; [done|].
    destruct (decide (off + Z.of_nat (length xs) <= k < off + Z.of_nat (length xs) + Z.of_nat (length ys))); [by left|right].
    apply Al1; [done|]. destruct Ho; [left; lia | by right].
  - rewrite length_app. intros k Hk Ho. set (a := off + Z.of_nat (length xs)) in *.
    destruct (decide (a <= k < a + Z.of_nat (length ys))) as [Hin|Hout].
    + rewrite By2 by (done || by left). rewrite (proj2 (Z.leb_le a k)), (proj2 (Z.ltb_lt k (a + Z.of_nat (length ys)))) by lia.
      rewrite (proj2 (Z.leb_le off k)), (proj2 (Z.ltb_lt k (off + Z.of_nat (length xs + length ys)))) by lia. cbn [andb].
      rewrite lookup_total_app_r by lia. f_equal. lia.
    + assert (off <= k < a \/ data_block (vw s) (i_addrs ip) (k / BSIZE) <> 0) as Ho1 by (destruct Ho; [left; lia | by right]).
      rewrite By2 by (done || right; by apply Al1). rewrite By1 by done.
      destruct (Z.leb_spec a k), (Z.ltb_spec k (a + Z.of_nat (length ys))), (Z.leb_spec off k), (Z.ltb_spec k a),
        (Z.ltb_spec k (off + Z.of_nat (length xs + length ys))); cbn [andb]; try lia; try done.
      by rewrite lookup_total_app_l by lia.
Qed.

(** A data block is read, changed, logged and released. *)
Lemma rewrite_block s D ip t b :
  let x := slot_addr (vw s) (i_addrs ip) t in
  wstate dstart inum i s D ip -> held s = ∅ -> (t < NSLOT)%nat -> t <> 12%nat -> x <> 0 -> length b = 1024%nat ->
  (size (logged s ∪ {[x]}) <= 10)%nat ->
  exists h s2, bread dev x s = Ret h s2 /\ fs_user s2 = fs_user s /\ Fs.data h s2 = Ret (vw s x) s2
    /\ exists s3 s4 s5, Fs.set_data h b s2 = Ret tt s3 /\ Fs.log_write h s3 = Ret tt s4 /\ brelse h s4 = Ret tt s5
      /\ wstate dstart inum i s5 D ip /\ same_fs s s5 /\ held s5 = ∅ /\ (forall k, vw s5 k = upd (vw s) x b k)
      /\ logged s5 = logged s ∪ {[x]}.
Proof.
  intros x W Hh Ht H12 Hx Hb Hlog. pose proof W as [Hi C Hat Hdev Hin Hd _]. destruct (cv_size _ _ _ _ C) as [Hbm Hsz].
  change BPB with 8192 in *. destruct (cv_used _ _ _ _ C inum _ t Hin Ht Hx) as [Hxr _]. fold x in Hxr.
  destruct (bread_run s x Hi ltac:(lia)) as (h & s2 & R2 & S2 & I2 & V2 & E1 & E2 & E3 & Hh2 & D2 & _);
    [rewrite Hh; set_solver | rewrite Hh, size_empty; unfold MAXHELD; lia |].
  destruct (rewrite_run s2 x h b I2 Hh2) as (s3 & s4 & s5 & R3 & R4 & R5 & S5 & I5 & V5 & F1 & F2 & F3 & _);
    [rewrite E1; clear; set_solver | by rewrite E2 |].
  destruct (same_fs_sb _ _ S2) as (B2 & T2 & U2). destruct (same_fs_sb _ _ S5) as (B5 & T5 & U5).
  exists h, s2. do 3 (split; [done|]). exists s3, s4, s5. do 3 (split; [done|]).
  assert (held s5 = ∅) as H5 by (rewrite F1, E1, Hh; clear; set_solver).
  assert (forall k, vw s5 k = upd (vw s) x b k) as V by (intros k; rewrite V5; unfold upd; bcase; [done|apply V2]).
  split; [|split; [by eapply same_fs_trans|split; [done|split; [done|by rewrite F2, E2]]]].
  split; rewrite ?B5, ?B2, ?T5, ?T2, ?F2, ?F3, ?E2, ?E3, ?H5; try done.
  - apply (cv_ext _ _ _ _ _ V). by apply (cv_write _ _ _ _ C inum).
  - clear -Hd. set_solver.
Qed.

(** One iteration of the loop, for the bytes [ys] of one block. *)
Lemma write_step s D ip off ys :
  let bn := off / BSIZE in
  wstate dstart inum i s D ip -> held s = ∅ -> 0 <= off -> bn < MAXFILE -> ys <> [] -> off + Z.of_nat (length ys) <= (bn + 1) * BSIZE ->
  (size (logged s ∪ {[bm s]}) + 2 <= 10)%nat ->
  exists r s1 ip1, bmap i bn s = Ret r s1 /\
    (r = 0 /\ disk_full s1 /\ (exists X, (size X <= 2)%nat /\ wrote s D ip off [] X s1 ip1)
     \/ r <> 0 /\ inode_at i s1 = Ret ip1 s1 /\ i_dev ip1 = dev /\ exists h s2 d, bread dev r s1 = Ret h s2 /\ fs_user s2 = fs_user s
       /\ Fs.data h s2 = Ret d s2
       /\ exists s3 s4 s5 X, Fs.set_data h (splice (Z.to_nat (off mod BSIZE)) ys d) s2 = Ret tt s3
         /\ Fs.log_write h s3 = Ret tt s4 /\ brelse h s4 = Ret tt s5
         /\ (size X <= 2)%nat /\ wrote s D ip off ys X s5 ip1).
Proof.
  intros bn W Hh H0' Hbn Hys Hend Hlog. pose proof W as [Hi C Hat Hdev Hin Hd _].
  assert (0 <= bn /\ bn * 1024 <= off < bn * 1024 + 1024) as [Hb0 Hb] by (unfold bn, BSIZE; split; dlia).
  destruct (bmap_alloc_run dstart inum i s D ip bn W Hh ltac:(lia)) as (r & s1 & ip1 & X & R & HX & P & Hc).
  { intros a b. apply size_union_le. pose proof (size_union_le (logged s ∪ {[bm s]}) a (size (logged s ∪ {[bm s]}) + 1)). lia. }
  exists r, s1, ip1. split; [done|]. destruct Hc as [[-> Hf]|(Hr & HrX & Hdb)]; [left|right].
  { split; [done|]. split; [done|]. exists X. split; [done|]. by apply wpost_wrote. }
  pose proof (wp_state _ _ _ _ _ _ _ _ _ P) as W1. pose proof (wpost_fs _ _ _ _ _ _ _ _ _ P) as (B1 & U1 & T1).
  pose proof (wp_held _ _ _ _ _ _ _ _ _ P) as H1'. pose proof (wp_logged _ _ _ _ _ _ _ _ _ P) as L1.
  pose proof (cv_layout _ _ _ _ (wt_cv _ _ _ _ _ _ W1)) as Ly1.
  destruct (data_slot_range bn ltac:(lia)) as [Hs1 Hs2].
  set (b' := splice (Z.to_nat (off mod BSIZE)) ys (vw s1 r)).
  assert (off mod BSIZE = off - bn * BSIZE) as Em by (unfold bn, BSIZE; dlia). unfold BSIZE in Em, Hend.
  assert (length b' = 1024%nat) as Lb by (unfold b', BSIZE; rewrite length_splice; rewrite (ly_whole _ _ Ly1); lia).
  destruct (rewrite_block s1 _ ip1 (data_slot bn) b' W1) as (h & s2 & R2 & U2 & D2 & s3 & s4 & s5 & R3 & R4 & R5 & W5 & S5 & H5 & V5 & L5);
    [by rewrite H1' | done | done | by rewrite <- Hdb in Hr | done | |].
  { unfold data_block in Hdb. rewrite Hdb. assert (logged s1 ∪ {[r]} ⊆ logged s ∪ {[bm s]} ∪ X) as Hsub by (clear -L1 HrX; set_solver).
    eapply size_sub_le; [|exact Hsub]. pose proof (size_union_sum (logged s ∪ {[bm s]}) X). lia. }
  unfold data_block in Hdb. rewrite Hdb in *.
  split; [done|]. split; [by apply inode_at_run, W1|]. split; [apply W1|].
  exists h, s2, (vw s1 r). split; [done|]. split; [by rewrite U2|]. split; [done|]. exists s3, s4, s5, X. fold b'.
  do 3 (split; [done|]). split; [done|]. clear R R2 R3 R4 R5.
  assert (<[inum := i_addrs ip1]> D !! inum = Some (i_addrs ip1)) as In1 by apply lookup_insert_eq.
  assert (slot_addr (vw s1) (i_addrs ip1) (data_slot bn) <> 0) as Hnz by (by rewrite Hdb).
  destruct (cv_used _ _ _ _ (wt_cv _ _ _ _ _ _ W1) inum _ _ In1 Hs1 Hnz) as [Hr1 _]. rewrite Hdb in Hr1.
  pose proof (wp_grow _ _ _ _ _ _ _ _ _ P) as G1. destruct (same_fs_sb _ _ S5) as (B5 & T5 & U5).
  assert (forall t, slot_addr (vw s5) (i_addrs ip1) t = slot_addr (vw s1) (i_addrs ip1) t) as Hsl.
  { intros t. rewrite (slot_addr_ext _ _ _ t V5), <- Hdb. by apply (slot_write (vw s1) _ Ly1 inum (i_addrs ip1) _ _ inum). }
  assert (forall k, 0 <= k < MAXFILE * BSIZE -> off <= k < off + Z.of_nat (length ys) -> k / BSIZE = bn) as Hkb.
  { intros k _ Hk. unfold BSIZE. dlia. }
  split; try done.
  - apply (keeps_ext _ _ _ _ _ V5). eapply keeps_chain; [by apply grow_keeps in G1|]. rewrite <- Hdb. by apply write_keeps.
  - apply (wp_ip _ _ _ _ _ _ _ _ _ P).
  - apply fs_eq; [congruence|congruence|]. by rewrite T5, T1.
  - by rewrite H5, Hh.
  - intros k Hk Hkbm. rewrite V5, upd_ne by lia. by apply (wp_meta _ _ _ _ _ _ _ _ _ P).
  - rewrite L5. clear -L1 HrX. set_solver.
  - intros k Hk Ho'. unfold data_block. rewrite Hsl. destruct Ho' as [Hk'|N]; [by rewrite (Hkb k Hk Hk')|].
    destruct (data_slot_range _ (max_block k Hk)) as [Hk1 _]. pose proof (gr_slot _ _ _ _ _ G1 inum _ _ Hin Hk1 (or_intror N)) as E.
    rewrite decide_True in E by done. by rewrite E.
  - intros k Hk Ho'. rewrite (byte_at_ext _ _ _ k V5). unfold b'. rewrite <- Hdb.
    change (slot_addr (vw s1) (i_addrs ip1) (data_slot bn)) with (data_block (vw s1) (i_addrs ip1) bn).
    rewrite (write_bytes (vw s) (vw s1) D inum (i_addrs ip) (i_addrs ip1) bn (off mod BSIZE) ys k); try done;
      try (unfold BSIZE; lia); try (apply max_block, Hk); replace (bn * BSIZE + off mod BSIZE) with off by (unfold BSIZE; lia); done.
Qed.

(** The blocks that [m] bytes from [off] on lie in. *)
Definition nblk (off m : Z) : Z := if m =? 0 then 0 else (off + m - 1) / BSIZE - off / BSIZE + 1.

Lemma nblk_step off m k :
  0 <= off -> k = Z.min m (BSIZE - off mod BSIZE) -> 0 < m -> nblk off m = 1 + nblk (off + k) (m - k).
Proof. unfold nblk, BSIZE. intros H0' -> Hm. repeat bcase; dlia. Qed.

Lemma wrote_user s D ip off xs X s' ip' : wrote s D ip off xs X s' ip' -> fs_user s' = fs_user s /\ bm s' = bm s /\ fs_sb s' = fs_sb s.
Proof. intros W. unfold bm. by rewrite (wr_fs _ _ _ _ _ _ _ _ W). Qed.

Section Loop.
Context (src : source) (xs : list Z).

Lemma writei_loop_run fuel : forall s D ip off n tot,
  wstate dstart inum i s D ip -> held s = ∅ -> supplies src xs (fs_user s) -> 0 <= tot <= n -> n <= Z.of_nat (length xs) ->
  0 <= off -> off + (n - tot) <= MAXFILE * BSIZE -> n - tot < Z.of_nat fuel ->
  Z.of_nat (size (logged s ∪ {[bm s]})) + 2 * nblk off (n - tot) <= 10 ->
  exists r s' ip' X, writei_loop fuel i src off n tot s = Ret (tot + r, off + r) s' /\ 0 <= r <= n - tot
    /\ (r < n - tot -> disk_full s') /\ Z.of_nat (size X) <= 2 * nblk off (n - tot)
    /\ wrote s D ip off (take (Z.to_nat r) (drop (Z.to_nat tot) xs)) X s' ip'.
Proof.
  induction fuel as [|fuel IH]; intros s D ip off n tot W Hh Hsup Ht Hn H0' Hmax Hf Hlog; [lia|]. cbn [writei_loop].
  change (MAXFILE * BSIZE) with 274432 in Hmax. destruct (Z.ltb_spec tot n) as [Hlt|Hge]; cbn [negb].
  - set (m := Z.min (n - tot) (BSIZE - off mod BSIZE)). assert (0 < m <= n - tot) as Hm by (unfold m, BSIZE; dlia).
    pose proof (nblk_step off (n - tot) m H0' eq_refl ltac:(lia)) as Hnb.
    assert (0 <= nblk (off + m) (n - tot - m)) by (unfold nblk, BSIZE; bcase; dlia).
    set (ys := take (Z.to_nat m) (drop (Z.to_nat tot) xs)).
    assert (length ys = Z.to_nat m) as Ly by (unfold ys; rewrite length_take, length_drop; lia).
    destruct (write_step s D ip off ys W Hh H0') as (r & s1 & ip1 & R1 & Hc).
    { change MAXFILE with 268. unfold BSIZE. dlia. } { intros E. rewrite E in Ly. simpl in Ly. lia. }
    { rewrite Ly. unfold m, BSIZE. dlia. } { lia. }
    rewrite (mthen_ret _ _ _ _ _ R1). destruct Hc as [(-> & Hfull & X & HX & Wr)|(Hr & Rat & Hdev & h & s2 & d & R2 & U2 & D2 & s3 & s4 & s5 & X & R3 & R4 & R5 & HX & Wr)].
    + exists 0, s1, ip1, X. split; [by rewrite !Z.add_0_r|]. split; [lia|]. split; [done|]. split; [lia|]. exact Wr.
    + destruct (Z.eqb_spec r 0); [done|]. rewrite (mthen_ret _ _ _ _ _ Rat), Hdev, (mthen_ret _ _ _ _ _ R2).
      fold m. rewrite (mthen_ret _ _ _ _ _ (copyin_run src xs s2 tot m ltac:(by rewrite U2) ltac:(lia) ltac:(lia) ltac:(lia))).
      rewrite (mthen_ret _ _ _ _ _ D2). cbn [fst snd negb]. fold ys.
      rewrite (mthen_ret _ _ _ _ _ R3), (mthen_ret _ _ _ _ _ R4), (mthen_ret _ _ _ _ _ R5).
      destruct (wrote_user _ _ _ _ _ _ _ _ Wr) as (U5 & Eb & _). pose proof (wr_held _ _ _ _ _ _ _ _ Wr) as H5.
      pose proof (wr_logged _ _ _ _ _ _ _ _ Wr) as L5.
      assert (size (logged s5 ∪ {[bm s5]}) <= size (logged s ∪ {[bm s]}) + 2)%nat as Hl5.
      { eapply (size_sub_le _ (logged s ∪ {[bm s]} ∪ X)); [pose proof (size_union_sum (logged s ∪ {[bm s]}) X); lia | rewrite Eb; clear -L5; set_solver]. }
      destruct (IH s5 _ ip1 (off + m) n (tot + m) (wr_state _ _ _ _ _ _ _ _ Wr)) as (r2 & s' & ip' & Y & R & Hr2 & Hfull & HY & Wr2).
      { by rewrite H5. } { by rewrite U5. } { lia. } { done. } { lia. } { change (MAXFILE * BSIZE) with 274432. lia. } { lia. }
      { replace (n - (tot + m)) with (n - tot - m) by lia. lia. }
      replace (n - (tot + m)) with (n - tot - m) in * by lia.
      exists (m + r2), s', ip', (X ∪ Y). split; [rewrite R; do 2 f_equal; lia|]. split; [lia|]. split; [intros; apply Hfull; lia|].
      split; [pose proof (size_union_sum X Y); lia|].
      assert (take (Z.to_nat (m + r2)) (drop (Z.to_nat tot) xs) = ys ++ take (Z.to_nat r2) (drop (Z.to_nat (tot + m)) xs)) as ->.
      { unfold ys. replace (Z.to_nat (tot + m)) with (Z.to_nat tot + Z.to_nat m)%nat by lia. rewrite <- drop_drop.
        replace (Z.to_nat (m + r2)) with (Z.to_nat m + Z.to_nat r2)%nat by lia. symmetry. apply take_take_drop. }
      eapply wrote_trans; [exact Wr|]. rewrite Ly, Z2Nat.id by lia. exact Wr2.
  - assert (tot = n) as -> by lia. exists 0, s, ip, ∅. rewrite !Z.add_0_r. split; [done|]. split; [lia|]. split; [lia|].
    rewrite size_empty. split; [rewrite Z.sub_diag; done|]. apply wpost_wrote; [done|].
    apply wpost_view; try done; [apply same_fs_refl | clear; set_solver].
Qed.
End Loop.
End Writei.
