(* ===== verification/FsWriteThm.v ===== *)
(** What [writei] does to the file, to the other files and to the inode on the
    disk, and that [readi] returns what was written. *)

From S2P Require Import Prelude.
From S2P Require Import Bytes.
From S2P Require Import Locks.
From S2P Require Import BlockCache.
From S2P Require Import TxStore.
From S2P Require Import UserMem.
From S2P Require Import Fs.
From S2P Require Import FsBlocks.
From S2P Require Import FsInode.
From S2P Require Import FsContent.
From S2P Require Import FsRead.
From S2P Require Import FsWrite.
From S2P Require Import FsWritei.

(** Rewriting a metadata block other than the bitmap. *)
Lemma cv_meta_write dstart sb v D k b :
  cv dstart sb v D -> 0 < k < dstart -> k <> sb_bmapstart sb -> length b = 1024%nat ->
  cv dstart sb (upd v k b) D
  /\ forall j ae t, D !! j = Some ae -> (t < NSLOT)%nat ->
       slot_addr (upd v k b) ae t = slot_addr v ae t /\ upd v k b (slot_addr v ae t) = v (slot_addr v ae t).
Proof.
  intros C Hk Hkb Hb. destruct (cv_size _ _ _ _ C) as [Hbm Hsz].
  assert (forall j ae t, D !! j = Some ae -> (t < NSLOT)%nat -> upd v k b (slot_addr v ae t) = v (slot_addr v ae t)) as Hd.
  { intros j ae t Hj Ht. apply upd_ne. destruct (decide (slot_addr v ae t = 0)) as [->|N]; [lia|].
    destruct (cv_used _ _ _ _ C j ae t Hj Ht N). lia. }
  destruct (layout_same v (upd v k b) D (cv_layout _ _ _ _ C)) as [L' Hs].
  { intros c. unfold upd. bcase; [done | apply (cv_layout _ _ _ _ C)]. }
  { intros j ae Hj _. rewrite <- (slot_direct v) by lia. apply (Hd j); [done|unfold NSLOT; lia]. }
  assert (forall c, 0 <= c < sb_size sb -> block_free sb (upd v k b) c = block_free sb v c) as Hf.
  { intros c Hc. apply (free_ext _ _ _ _ C); [done|]. apply upd_ne. lia. }
  split; [split; [done|done| |]|intros j ae t Hj Ht; split; [by apply (Hs j)|by apply (Hd j)]].
  - intros c Hc. rewrite Hf by lia. by apply (cv_meta _ _ _ _ C).
  - intros j ae t Hj Ht. rewrite (Hs j) by done. intros N. destruct (cv_used _ _ _ _ C j ae t Hj Ht N). by rewrite Hf by lia.
Qed.

Section Thm.
Context {T H U : Type} `{TS : TxStore T H dev} `{UserMem U}.
Context (dstart inum : Z) (i : nat).
Implicit Type s : fs_st T U.

(** The caller holds the inode, of which the table entry is up to date, and
    its blocks are allocated up to its size. *)
Record write_ready s (D : gmap Z (list Z)) ip : Prop := {
  wy_state : wstate dstart inum i s D ip;
  wy_held : held s = ∅;
  wy_inum : i_inum ip = inum /\ 0 <= inum;
  wy_dinode : dinode_ok (i_dinode ip);
  wy_alloc bn : 0 <= bn -> bn * BSIZE < i_size ip -> data_block (vw s) (i_addrs ip) bn <> 0;
  wy_size : i_size ip <= MAXFILE * BSIZE;
  wy_iblock : 0 < IBLOCK inum (fs_sb s) < dstart /\ IBLOCK inum (fs_sb s) <> bm s }.

(** The inode after a write that reached [off]. *)
Definition grown (off : Z) (ip : inode) : inode := if off >? i_size ip then set_i_size off ip else ip.

Lemma grown_addrs off ip : i_addrs (grown off ip) = i_addrs ip.
Proof. unfold grown. by case_match. Qed.
Lemma grown_size off ip : i_size (grown off ip) = Z.max (i_size ip) off.
Proof. unfold grown. rewrite Z.gtb_ltb. bcase; simpl; lia. Qed.

Lemma grown_ip z a ip : grown z (with_addrs a ip) = with_addrs a (set_i_size (Z.max (i_size ip) z) ip).
Proof.
  unfold grown. rewrite Z.gtb_ltb. cbn [i_size with_addrs]. destruct ip as [? ? ? ? ? ? ? ? ? sz ?]; unfold set_i_size, with_addrs; simpl.
  destruct (Z.ltb_spec sz z); [rewrite Z.max_r by lia | rewrite Z.max_l by lia]; done.
Qed.

Lemma written_dinode_ok s (D : gmap Z (list Z)) ip z :
  cv dstart (fs_sb s) (vw s) D -> D !! inum = Some (i_addrs ip) -> dinode_ok (i_dinode (with_addrs (replicate 13 0) ip)) ->
  0 <= i_size (grown z ip) < 2 ^ 32 -> dinode_ok (i_dinode (grown z ip)).
Proof.
  intros C Hi [K1 K2 K3 K4 K5 _ _] Hz. pose proof (ly_len _ _ (cv_layout _ _ _ _ C) _ _ Hi) as Hl.
  destruct (cv_size _ _ _ _ C) as [Hbm Hsz]. change BPB with 8192 in *.
  assert (Forall (fun a => 0 <= a < 2 ^ 32) (i_addrs ip)) as Hall.
  { apply Forall_lookup. intros k a Ha. pose proof (lookup_lt_Some _ _ _ Ha) as Hk. rewrite Hl in Hk.
    rewrite <- (list_lookup_total_correct _ _ _ Ha). destruct (decide (i_addrs ip !!! k = 0)) as [->|N]; [lia|].
    destruct (cv_used _ _ _ _ C inum _ k Hi ltac:(unfold NSLOT; lia)) as [Hu _]; rewrite slot_direct in * by lia; [done|lia]. }
  split; simpl; rewrite ?grown_addrs; try done; unfold grown; case_match; done.
Qed.

(** The contents of the file before and after. *)
Lemma written_content v v' d d' off xs :
  0 <= off <= di_size d -> di_size d' = Z.max (di_size d) (off + Z.of_nat (length xs)) ->
  (forall k, 0 <= k < di_size d' ->
     byte_at v' (di_addrs d') k = if (off <=? k) && (k <? off + Z.of_nat (length xs)) then xs !!! Z.to_nat (k - off) else byte_at v (di_addrs d) k) ->
  content v' d' = take (Z.to_nat off) (content v d) ++ xs ++ drop (Z.to_nat off + length xs) (content v d).
Proof.
  intros Ho Hs Hb. pose proof (content_length v d) as Lc. apply list_eq. intros k.
  assert (length (take (Z.to_nat off) (content v d)) = Z.to_nat off) as Lt by (rewrite length_take; lia).
  destruct (decide (k < Z.to_nat (di_size d'))%nat) as [Hk|Hk].
  - rewrite content_total by done. rewrite Hb by lia.
    destruct (Z.leb_spec off (Z.of_nat k)), (Z.ltb_spec (Z.of_nat k) (off + Z.of_nat (length xs))); cbn [andb].
    + rewrite lookup_app_r, lookup_app_l by lia. rewrite Lt. replace (Z.to_nat (Z.of_nat k - off)) with (k - Z.to_nat off)%nat by lia.
      symmetry. apply list_lookup_lookup_total_lt. lia.
    + rewrite !lookup_app_r by lia. rewrite lookup_drop, Lt, <- content_total by lia. f_equal. lia.
    + rewrite lookup_app_l, lookup_take_lt by lia. by rewrite content_total by lia.
    + lia.
  - rewrite (proj2 (lookup_ge_None _ _)) by (rewrite content_length; lia). symmetry. apply lookup_ge_None.
    rewrite !length_app, Lt, length_drop. lia.
Qed.

(** The outcome of a write of [r] of the bytes [xs] at [off]. *)
Record written s (D : gmap Z (list Z)) ip off xs r s' ip' : Prop := {
  wn_state : wstate dstart inum i s' (<[inum := i_addrs ip']> D) ip';
  wn_ip : ip' = with_addrs (i_addrs ip') (set_i_size (Z.max (i_size ip) (off + r)) ip);
  wn_full : r < Z.of_nat (length xs) -> disk_full s';
  wn_content : let c := content (vw s) (i_dinode ip) in
    content (vw s') (i_dinode ip') = take (Z.to_nat off) c ++ take (Z.to_nat r) xs ++ drop (Z.to_nat (off + r)) c;
  wn_disk : get_dinode (dinode_off inum) (vw s' (IBLOCK inum (fs_sb s))) = i_dinode ip';
  wn_others j e : D !! j = Some (di_addrs e) -> j <> inum -> di_size e <= MAXFILE * BSIZE -> content (vw s') e = content (vw s) e;
  wn_inodes j : 0 <= j -> j <> inum -> IBLOCK j (fs_sb s) < dstart -> IBLOCK j (fs_sb s) <> bm s ->
    get_dinode (dinode_off j) (vw s' (IBLOCK j (fs_sb s))) = get_dinode (dinode_off j) (vw s (IBLOCK j (fs_sb s)));
  wn_ready : write_ready s' (<[inum := i_addrs ip']> D) ip' }.

(** The end of [writei]: the size and the inode on the disk. *)
Lemma finish_write s1 D ip1 z :
  let ib := IBLOCK inum (fs_sb s1) in
  let ip2 := grown z ip1 in
  wstate dstart inum i s1 D ip1 -> held s1 = ∅ -> i_inum ip1 = inum -> 0 <= inum ->
  0 < ib < dstart -> ib <> bm s1 -> (size (logged s1 ∪ {[ib]}) <= 10)%nat ->
  exists s3, ((when (z >? i_size ip1) do set_inode i (set_i_size z)) ;;; iupdate i) s1 = Ret tt s3
    /\ wstate dstart inum i s3 D ip2 /\ held s3 = ∅ /\ fs_user s3 = fs_user s1 /\ fs_sb s3 = fs_sb s1
    /\ (forall k, k <> ib -> vw s3 k = vw s1 k)
    /\ (forall j ae t, D !! j = Some ae -> (t < NSLOT)%nat ->
          slot_addr (vw s3) ae t = slot_addr (vw s1) ae t /\ vw s3 (slot_addr (vw s1) ae t) = vw s1 (slot_addr (vw s1) ae t))
    /\ (dinode_ok (i_dinode ip2) -> get_dinode (dinode_off inum) (vw s3 ib) = i_dinode ip2)
    /\ (forall j, 0 <= j -> j <> inum ->
          get_dinode (dinode_off j) (vw s3 (IBLOCK j (fs_sb s1))) = get_dinode (dinode_off j) (vw s1 (IBLOCK j (fs_sb s1)))).
Proof.
  intros ib ip2 W Hh Hn Hn0 Hib Hibm Hlog. pose proof W as [Hi C Hat Hdev Hin Hd _].
  destruct (cv_size _ _ _ _ C) as [Hbm Hsz]. change BPB with 8192 in *.
  pose proof (ly_whole _ _ (cv_layout _ _ _ _ C)) as Hwh. pose proof (dinode_off_bound inum Hn0) as Hoff.
  set (s2 := FsSt _ _ (fs_sb s1) (fs_tx s1) (<[i := ip2]> (fs_itable s1)) (fs_user s1)).
  assert ((when (z >? i_size ip1) do set_inode i (set_i_size z)) s1 = Ret tt s2) as R2.
  { unfold s2, ip2, grown. destruct (z >? i_size ip1).
    - unfold set_inode, modify, upd_inode. by rewrite (alter_insert _ _ _ _ Hat).
    - unfold skip, mreturn. rewrite list_insert_id by done. by destruct s1. }
  assert (i_dev ip2 = dev /\ i_inum ip2 = inum) as [Hdev2 Hn2] by (unfold ip2, grown; case_match; done).
  assert (fs_itable s2 !! i = Some ip2) as Hat2.
  { simpl. apply list_lookup_insert_eq. by eapply lookup_lt_Some. }
  destruct (iupdate_run s2 i ip2) as (s3 & R3 & S3 & I3 & H3 & V3 & L3 & D3).
  { split; rewrite ?Hn2; try done; try (change (fs_sb s2) with (fs_sb s1); fold ib).
    - lia.
    - change (held s2) with (held s1). rewrite Hh. apply not_elem_of_empty.
    - change (held s2) with (held s1). rewrite Hh, size_empty. unfold MAXHELD. lia.
    - apply Hwh. }
  rewrite Hn2 in *. change (fs_sb s2) with (fs_sb s1) in *. change (vw s2) with (vw s1) in *. fold ib in V3, L3, D3.
  destruct (same_fs_sb _ _ S3) as (B3 & T3 & U3). change (held s2) with (held s1) in H3. change (logged s2) with (logged s1) in L3. change (dirty s2) with (dirty s1) in D3.
  assert (length (put_dinode (dinode_off inum) (i_dinode ip2) (vw s1 ib)) = 1024%nat) as Lp by (rewrite put_dinode_length; rewrite Hwh; lia).
  destruct (cv_meta_write _ _ _ _ ib _ C Hib Hibm Lp) as [C3 Hsame].
  exists s3. split; [by rewrite (mthen_ret _ _ _ _ _ R2)|]. split.
  { split; rewrite ?B3, ?T3, ?L3, ?D3, ?H3, ?Hh; try done.
    - by apply (cv_ext _ _ _ _ _ V3).
    - by rewrite <- (grown_addrs z ip1) in Hin.
    - clear -Hd. set_solver. }
  split; [by rewrite H3|]. split; [done|]. split; [done|]. split; [intros k Hk; by rewrite V3, upd_ne|]. split.
  { intros j ae t Hj Ht. destruct (Hsame j ae t Hj Ht) as [E1 E2]. by rewrite (slot_addr_ext _ _ _ t V3), V3. }
  split.
  - intros Hok. rewrite V3, upd_eq. apply get_put_dinode; [rewrite Hwh; lia | done].
  - intros j Hj Hne. rewrite V3. unfold upd. destruct (Z.eqb_spec (IBLOCK j (fs_sb s1)) ib) as [E|]; [|done].
    rewrite E. apply get_put_dinode_other; [rewrite Hwh; lia|].
    destruct (dinode_off_apart inum j (fs_sb s1)) as [?|?]; [done | done | done | congruence | by left | by right].
Qed.

Lemma writei_run s D ip src off xs :
  let n := Z.of_nat (length xs) in
  write_ready s D ip -> supplies src xs (fs_user s) -> 0 <= off <= i_size ip -> off + n <= MAXFILE * BSIZE ->
  Z.of_nat (size (logged s ∪ {[bm s]} ∪ {[IBLOCK inum (fs_sb s)]})) + 2 * nblk off n <= 10 ->
  exists r s' ip', writei i src off n s = Ret r s' /\ 0 <= r <= n /\ written s D ip off xs r s' ip'.
Proof.
  intros n [W Hh [Hin Hin0] Hok Hal Hsz [Hib Hibm]] Hsup Hoff Hmax Hlog. pose proof (wt_at _ _ _ _ _ _ W) as Hat.
  pose proof (dk_size _ Hok) as Hsz0. cbn [di_size i_dinode] in Hsz0. change (MAXFILE * BSIZE) with 274432 in *.
  set (ib := IBLOCK inum (fs_sb s)) in *.
  unfold writei. rewrite (mthen_ret _ _ _ _ _ (inode_at_run s i ip Hat)). rewrite !Z.gtb_ltb.
  rewrite (proj2 (Z.ltb_ge (i_size ip) off)) by lia. rewrite u32_small by lia. rewrite (proj2 (Z.ltb_ge (off + n) off)) by lia. cbn [orb].
  change (MAXFILE * BSIZE) with 274432. rewrite (proj2 (Z.ltb_ge 274432 (off + n))) by lia.
  destruct (writei_loop_run dstart inum i src xs (S (Z.to_nat n)) s D ip off n 0 W Hh Hsup)
    as (r & s1 & ip1 & X & R & Hr & Hfull & HX & Wr); try (change (MAXFILE * BSIZE) with 274432); try lia.
  { rewrite Z.sub_0_r. assert (size (logged s ∪ {[bm s]}) <= size (logged s ∪ {[bm s]} ∪ {[ib]}))%nat by (apply subseteq_size; clear; set_solver). lia. }
  rewrite Z.add_0_l, Z.sub_0_r in *. rewrite (mthen_ret _ _ _ _ _ R). cbn [fst snd].
  rewrite drop_0 in Wr. destruct (wrote_user _ _ _ _ _ _ _ _ _ _ _ Wr) as (U1 & Eb & B1).
  pose proof Wr as [W1 K1 P1 F1 H1' M1 L1 Al1 By1]. pose proof W1 as [I1 C1 At1 Dv1 In1 D1 _].
  assert (length (take (Z.to_nat r) xs) = Z.to_nat r) as Lr by (rewrite length_take; lia). rewrite Lr, Z2Nat.id in Al1, By1 by lia.
  assert (i_size ip1 = i_size ip /\ i_inum ip1 = inum) as [Z1 N1] by (rewrite P1; simpl; auto).
  assert (fs_sb s1 = fs_sb s) as Es1 by done. rewrite (mthen_ret _ _ _ _ _ (inode_at_run s1 i ip1 At1)).
  destruct (finish_write s1 _ ip1 (off + r) W1) as (s3 & R3 & W3 & H3 & U3 & B3 & V3 & Sm & G3 & O3); rewrite ?B1, ?Eb; fold ib; try done.
  { by rewrite H1'. }
  { eapply (size_sub_le _ (logged s ∪ {[bm s]} ∪ {[ib]} ∪ X)); [|clear -L1; set_solver].
    pose proof (size_union_sum (logged s ∪ {[bm s]} ∪ {[ib]}) X). lia. }
  rewrite <- mthen_assoc, (mthen_ret _ _ _ _ _ R3).
  set (ip2 := grown (off + r) ip1) in *. pose proof (grown_addrs (off + r) ip1) as A2. pose proof (grown_size (off + r) ip1) as Z2. fold ip2 in A2, Z2.
  rewrite B1 in B3, O3, V3, G3. fold ib in V3, G3. rewrite Z1 in Z2.
  assert (D' : D !! inum = Some (i_addrs ip)) by apply W.
  assert (forall k, 0 <= k < i_size ip2 -> off <= k < off + r \/ data_block (vw s) (i_addrs ip) (k / BSIZE) <> 0) as Hk.
  { intros k Hk. destruct (decide (k < i_size ip)); [right; apply Hal; unfold BSIZE; dlia | left; lia]. }
  assert (forall k, 0 <= k < i_size ip2 -> byte_at (vw s3) (i_addrs ip2) k = byte_at (vw s1) (i_addrs ip1) k
    /\ data_block (vw s3) (i_addrs ip2) (k / BSIZE) = data_block (vw s1) (i_addrs ip1) (k / BSIZE)) as Hby.
  { intros k Hk'. destruct (data_slot_range _ (max_block k ltac:(change (MAXFILE * BSIZE) with 274432; lia))) as [Hs _].
    unfold byte_at, data_block. rewrite A2. destruct (Sm inum _ _ In1 Hs) as [-> ->]. done. }
  assert (dinode_ok (i_dinode ip2)) as Hok2.
  { apply (written_dinode_ok s1 (<[inum := i_addrs ip1]> D)); [done | done | | fold ip2; lia].
    rewrite P1. destruct Hok. split; simpl; try done. repeat constructor; lia. }
  exists r, s3, ip2. split; [done|]. split; [lia|]. split.
  - by rewrite A2.
  - rewrite A2. unfold ip2. rewrite P1. by apply grown_ip.
  - intros Hlt b Hb. rewrite B3 in Hb. rewrite <- (Hfull Hlt b) by (by rewrite B1). rewrite B3, B1. unfold block_free.
    destruct (one_bitmap _ _ _ _ b (wt_cv _ _ _ _ _ _ W) Hb) as [-> _]. rewrite V3; [done|]. intros E. apply Hibm. by rewrite <- E.
  - cbv zeta. replace (Z.to_nat (off + r)) with (Z.to_nat off + length (take (Z.to_nat r) xs))%nat by lia.
    apply written_content; [done | cbn [di_size i_dinode]; rewrite Lr; lia|].
    intros k Hk'. cbn [di_addrs di_size i_dinode] in *. rewrite Lr, Z2Nat.id by lia. destruct (Hby k Hk') as [-> _].
    apply By1; [change (MAXFILE * BSIZE) with 274432; lia | by apply Hk].
  - by apply G3.
  - intros j e He Hne Hsize.
    apply content_ext; [| |done]; intros t Ht; assert (<[inum := i_addrs ip1]> D !! j = Some (di_addrs e)) as He1 by (by rewrite lookup_insert_ne).
    + destruct (Sm j _ t He1 Ht) as [-> _]. by apply (kp_slot _ _ _ _ K1 j).
    + intros H12. rewrite <- (kp_slot _ _ _ _ K1 j _ t He Hne Ht) at 1. destruct (Sm j _ t He1 Ht) as [_ ->].
      rewrite (kp_slot _ _ _ _ K1 j _ t He Hne Ht). by apply (kp_data _ _ _ _ K1 j).
  - intros j Hj Hne Hjd Hjb. rewrite O3 by done. by rewrite M1.
  - rewrite <- A2 in W3, In1. split; try done; rewrite ?B3; try (by split).
    + by unfold ip2, grown; case_match.
    + intros bn Hbn Hlt. destruct (Hby (bn * BSIZE) ltac:(unfold BSIZE in *; lia)) as [_ E].
      replace (bn * BSIZE / BSIZE) with bn in E by (unfold BSIZE; dlia). rewrite E.
      pose proof (Al1 (bn * BSIZE) ltac:(change (MAXFILE * BSIZE) with 274432; unfold BSIZE in *; lia)) as Ha.
      pose proof (Hk (bn * BSIZE) ltac:(unfold BSIZE in *; lia)) as Hk'.
      replace (bn * BSIZE / BSIZE) with bn in Ha, Hk' by (unfold BSIZE; dlia). by apply Ha.
    + rewrite Z2. change (MAXFILE * BSIZE) with 274432. lia.
    + split; [done|]. unfold bm. by rewrite B3.
Qed.

Lemma write_file_ready s D ip : write_ready s D ip -> file_ready s i ip.
Proof.
  intros [[Hi C Hat Hdev Hin Hd _] Hh _ Hok Hal Hsz _]. destruct (cv_size _ _ _ _ C) as [Hbm Hsb]. change BPB with 8192 in *.
  split; rewrite ?Hh; try done.
  - rewrite size_empty. unfold MAXHELD. lia.
  - apply (cv_layout _ _ _ _ C).
  - intros t Ht N. destruct (cv_used _ _ _ _ C inum _ t Hin Ht N) as [Hu _]. split; [lia | apply not_elem_of_empty].
  - split; [|done]. apply (dk_size _ Hok).
Qed.

(** C31: [writei] writes, and [readi] reads it back.  On a disk whose bitmap
    agrees with the blocks the inodes use, a write of [xs] at [off], within
    the file and what the log has room for, returns the number [r] of bytes
    written, all of them unless the disk is full.  The file then holds those
    bytes at [off] and is as before elsewhere, its inode on the disk is the one
    in memory, every other file and inode is unchanged, the disk is consistent
    again, and [readi] at [off] returns exactly the bytes written. *)
Theorem writei_readi s D ip src off xs :
  let n := Z.of_nat (length xs) in
  write_ready s D ip -> supplies src xs (fs_user s) -> 0 <= off <= i_size ip -> off + n <= MAXFILE * BSIZE ->
  Z.of_nat (size (logged s ∪ {[bm s]} ∪ {[IBLOCK inum (fs_sb s)]})) + 2 * nblk off n <= 10 ->
  exists r s' ip', writei i src off n s = Ret r s' /\ 0 <= r <= n /\ written s D ip off xs r s' ip'
    /\ forall dst u', delivers dst 0 (take (Z.to_nat r) xs) (fs_user s') u' ->
         exists s'', readi i dst off r s' = Ret (r, take (Z.to_nat r) xs) s'' /\ fs_user s'' = u'.
Proof.
  intros n W Hsup Hoff Hmax Hlog. destruct (writei_run s D ip src off xs W Hsup Hoff Hmax Hlog) as (r & s' & ip' & R & Hr & Wn).
  exists r, s', ip'. split; [done|]. split; [done|]. split; [done|]. intros dst u' Hdel. change (MAXFILE * BSIZE) with 274432 in Hmax.
  pose proof (wn_content _ _ _ _ _ _ _ _ Wn) as Hc. cbv zeta in Hc.
  pose proof (dk_size _ (wy_dinode _ _ _ W)) as Hsz. cbn [di_size i_dinode] in Hsz.
  assert (take (Z.to_nat r) (drop (Z.to_nat off) (content (vw s') (i_dinode ip'))) = take (Z.to_nat r) xs) as E.
  { rewrite Hc. rewrite drop_app_length' by (rewrite length_take, content_length; cbn [di_size i_dinode]; lia).
    rewrite take_app_length' by (rewrite length_take; lia). done. }
  destruct (readi_run s' i ip' dst off r u' (write_file_ready _ _ _ (wn_ready _ _ _ _ _ _ _ _ Wn))) as (s'' & R2 & V2); try lia; [by rewrite E|].
  exists s''. rewrite R2, E, length_take. split; [do 2 f_equal; lia|]. destruct V2 as [Sf _]. by rewrite Sf.
Qed.
End Thm.

(** ** An instance on the ideal store *)

(** An empty file or directory on a disk of 100 blocks, of which 50 are in use. *)
Definition empty_inode (ty : Z) : inode := Inode 1 5 1 (Sleeplock true 7) true ty 0 0 1 0 (replicate 13 0).
Definition sample_write_fs (ty : Z) : fs_st ideal flat_mem :=
  FsSt _ _ sample_sb (Ideal (upd (fun _ => zero_block) 45 sample_bitmap) ∅ ∅ ∅) [empty_inode ty] (FlatMem (fun _ => 0) (fun _ => true)).

Lemma sample_write_ready ty :
  0 <= ty < 4 -> write_ready (TS := ideal_store 1) 50 5 0 (sample_write_fs ty) {[5 := replicate 13 0]} (empty_inode ty).
Proof.
  intros Hty.
  assert (forall (D : gmap Z (list Z)) j ae, D = {[5 := replicate 13 0]} -> D !! j = Some ae -> ae = replicate 13 0) as HD.
  { intros D j ae ->. rewrite lookup_singleton. case_decide; [by intros [= <-] | done]. }
  assert (forall v t, (t < NSLOT)%nat -> slot_addr v (replicate 13 0) t = 0) as H0.
  { intros v t Ht. destruct (decide (t <= 12)%nat); [rewrite slot_direct by done; apply list_lookup_total_correct, lookup_replicate; lia|].
    by apply slot_absent; [lia|]. }
  split; try done.
  - split; try done.
    + split.
      * split.
        -- intros k. change (length (upd (fun _ => zero_block) 45 sample_bitmap k) = 1024%nat). unfold upd. by bcase.
        -- intros j ae Hj. by rewrite (HD _ j ae eq_refl Hj).
        -- intros j k ae be t u Hj Hk Ht Hu N. rewrite (HD _ j ae eq_refl Hj), H0 in N by done. done.
      * change (0 < 45 < 50 /\ 50 <= 100 <= 8192). lia.
      * intros b Hb.
        assert (forallb (fun b => negb (block_free sample_sb (upd (fun _ => zero_block) 45 sample_bitmap) (Z.of_nat b))) (seq 0 50) = true) as Hall by (vm_compute; reflexivity).
        rewrite forallb_forall in Hall. specialize (Hall (Z.to_nat b)). rewrite Z2Nat.id in Hall by lia.
        apply negb_true_iff, Hall, in_seq. lia.
      * intros j ae t Hj Ht N. by rewrite (HD _ j ae eq_refl Hj), H0 in N.
  - split; simpl; try lia; try done. repeat constructor; lia.
  - intros bn Hbn Hlt. cbn in Hlt. unfold BSIZE in Hlt. lia.
Qed.

Lemma writei_readi_witness :
  exists r s' ip' s'', writei 0 (KernelSrc [104; 105; 10]) 0 3 (sample_write_fs 2) = Ret r s'
    /\ written (TS := ideal_store 1) 50 5 0 (sample_write_fs 2) {[5 := replicate 13 0]} (empty_inode 2) 0 [104; 105; 10] r s' ip'
    /\ readi 0 KernelDst 0 r s' = Ret (r, take (Z.to_nat r) [104; 105; 10]) s''.
Proof.
  destruct (writei_readi (TS := ideal_store 1) 50 5 0 (sample_write_fs 2) {[5 := replicate 13 0]} (empty_inode 2)
    (KernelSrc [104; 105; 10]) 0 [104; 105; 10] (sample_write_ready 2 ltac:(lia)) eq_refl) as (r & s' & ip' & R & _ & Wn & Hread).
  - cbn. lia.
  - vm_compute. discriminate.
  - vm_compute. discriminate.
  - destruct (Hread KernelDst (fs_user s') eq_refl) as (s'' & R2 & _).
    exists r, s', ip', s''. split; [exact R|]. split; [exact Wn | exact R2].
Defined.
