(* ===== verification/FsNamex.v ===== *)
(** Path resolution: what [namei] and [nameiparent] find, and what they do to
    the inode table.

    [walk] reads a path off the disk: the directories' contents, with no
    table, locks or buffers.  The theorem says that [namex], which locks each
    directory in turn, loads it, searches it, and drops one reference as it
    takes the next, finds the same inode, returns it with one reference more,
    and leaves every other count as it was, whatever the outcome. *)

From S2P Require Import Prelude.
From S2P Require Import Bytes.
From S2P Require Import Locks.
From S2P Require Import BlockCache.
From S2P Require Import TxStore.
From S2P Require Import UserMem.
From S2P Require Import Fs.
From S2P Require Import FsDir.
From S2P Require Import FsPath.
From S2P Require Import FsBlocks.
From S2P Require Import FsInode.
From S2P Require Import FsContent.
From S2P Require Import FsRead.

(** ** The tree on the disk *)

Section Tree.
Context (v : Z -> block) (sb : superblock).

Definition disk_ino (inum : Z) : dinode := get_dinode (dinode_off inum) (v (IBLOCK inum sb)).
(** The inode number a directory gives a name. *)
Definition names (d : dinode) (name : list Z) : option Z :=
  '(_, e) ← list_find (entry_is name) (dirents (content v d)); Some (de_inum e).

(** The inode at the end of a path, or the directory it is in ([parent]). *)
Fixpoint walk (parent : bool) (inum : Z) (es : list (list Z)) : option Z :=
  match es with
  | [] => if parent then None else Some inum
  | e :: es' =>
      if di_type (disk_ino inum) =? T_DIR then
        if parent && bool_decide (es' = []) then Some inum
        else n ← names (disk_ino inum) e; walk parent n es'
      else None
  end.

(** The inodes [D] and what their blocks hold: every address is a block, every
    inode has a type, a link and its blocks, every directory holds whole
    entries that name inodes of [D]. *)
Record tree (D : gmap Z (list Z)) : Prop := {
  tr_whole k : length (v k) = 1024%nat;
  tr_block j ad : D !! j = Some ad -> 0 <= j /\ 0 <= IBLOCK j sb < 2 ^ 31;
  tr_addrs j ad : D !! j = Some ad -> di_addrs (disk_ino j) = ad;
  tr_live j ad : D !! j = Some ad -> di_type (disk_ino j) <> 0 /\ di_nlink (disk_ino j) <> 0;
  tr_size j ad : D !! j = Some ad -> 0 <= di_size (disk_ino j) <= MAXFILE * BSIZE;
  tr_alloc j ad bn : D !! j = Some ad -> 0 <= bn -> bn * BSIZE < di_size (disk_ino j) -> data_block v ad bn <> 0;
  tr_slot j ad t : D !! j = Some ad -> (t < NSLOT)%nat -> slot_addr v ad t <> 0 -> 0 <= slot_addr v ad t < 2 ^ 31;
  tr_dir j ad : D !! j = Some ad -> di_type (disk_ino j) = T_DIR -> di_size (disk_ino j) mod 16 = 0;
  tr_entry j ad e : D !! j = Some ad -> di_type (disk_ino j) = T_DIR ->
    e ∈ dirents (content v (disk_ino j)) -> de_inum e <> 0 -> is_Some (D !! de_inum e) }.

Lemma names_in D j ad name n :
  tree D -> D !! j = Some ad -> di_type (disk_ino j) = T_DIR -> names (disk_ino j) name = Some n -> is_Some (D !! n).
Proof.
  intros T Hj Hty. unfold names. destruct (list_find _ _) as [[k e]|] eqn:E; [|done]. intros [= <-].
  apply list_find_Some in E as (He & [Hz _] & _). eapply tr_entry; [done..| |done]. by eapply list_elem_of_lookup_2.
Qed.
End Tree.

(** A name in the buffer of [skipelem] ends at its first NUL. *)
Lemma str_eqn_cname n s t : str_eqn n (cname s) t = str_eqn n s t.
Proof.
  revert s t. induction n as [|n IH]; intros s t; [done|]. destruct s as [|c s]; [done|]. simpl.
  destruct (Z.eqb_spec c 0) as [->|Hc]; simpl.
  - by destruct (0 =? default 0 (head t)).
  - destruct (c =? default 0 (head t)); [|done]. destruct (Z.eqb_spec c 0); [done|]. apply IH.
Qed.
Lemma find_cname name es : list_find (entry_is name) es = list_find (entry_is (cname name)) es.
Proof. apply list_find_ext. intros e. unfold entry_is, namecmp. by rewrite str_eqn_cname. Qed.

(** Nothing is left after the last element. *)
Lemma skipelem_rest path name path' name' :
  skipelem path name = Some (path', name') -> path' = [] <-> split_path path' [] = [].
Proof.
  unfold skipelem. destruct (skip_slashes path) as [|c p]; [done|]. destruct (take_elem (c :: p)) as [s rest]. intros [= <- _].
  split; [by intros ->|]. destruct (skip_slashes rest) as [|x q] eqn:E; [done|]. apply skip_slashes_head in E.
  destruct (take_elem (x :: q)) as [e r] eqn:Et. destruct (take_elem_split _ _ _ [] Et) as (Hs & Hb & Hc). intros Hn.
  assert (e <> []) as He.
  { simpl in Et. destruct (Z.eqb_spec x SLASH); [done|]. destruct (take_elem q). by injection Et as <- <-. }
  rewrite Hs, split_boundary in Hn by done. done.
Qed.

(** ** Counting references *)

Definition tsum (f : inode -> Z) (tbl : list inode) : Z := foldr (fun ip n => f ip + n) 0 tbl.
(** The references the table has to inode [j], and its free entries. *)
Definition refs (tbl : list inode) (j : Z) : Z := tsum (fun ip => if i_inum ip =? j then i_ref ip else 0) tbl.
Definition free_entries (tbl : list inode) : Z := tsum (fun ip => if i_ref ip =? 0 then 1 else 0) tbl.

Lemma tsum_insert f tbl i ip ip' : tbl !! i = Some ip -> tsum f (<[i := ip']> tbl) = tsum f tbl - f ip + f ip'.
Proof.
  revert i. induction tbl as [|x tbl IH]; intros [|i] Hi; simpl in *; try done.
  - injection Hi as ->. lia.
  - rewrite IH by done. lia.
Qed.
Lemma refs_insert tbl i ip ip' j :
  tbl !! i = Some ip ->
  refs (<[i := ip']> tbl) j = refs tbl j - (if i_inum ip =? j then i_ref ip else 0) + (if i_inum ip' =? j then i_ref ip' else 0).
Proof. apply tsum_insert. Qed.
Lemma free_insert tbl i ip ip' :
  tbl !! i = Some ip ->
  free_entries (<[i := ip']> tbl) = free_entries tbl - (if i_ref ip =? 0 then 1 else 0) + (if i_ref ip' =? 0 then 1 else 0).
Proof. apply tsum_insert. Qed.

Lemma tsum_nonneg f tbl : (forall i ip, tbl !! i = Some ip -> 0 <= f ip) -> 0 <= tsum f tbl.
Proof.
  induction tbl as [|x tbl IH]; intros Hf; simpl; [lia|]. pose proof (Hf 0%nat x eq_refl).
  specialize (IH (fun i ip Hi => Hf (S i) ip Hi)). lia.
Qed.
Lemma tsum_le f tbl i ip : (forall i ip, tbl !! i = Some ip -> 0 <= f ip) -> tbl !! i = Some ip -> f ip <= tsum f tbl.
Proof.
  revert i. induction tbl as [|x tbl IH]; intros [|i] Hf Hi; simpl in *; try done.
  - injection Hi as ->. pose proof (tsum_nonneg f tbl (fun i ip Hi => Hf (S i) ip Hi)). lia.
  - specialize (IH i (fun i ip Hi => Hf (S i) ip Hi) Hi). pose proof (Hf 0%nat x eq_refl). lia.
Qed.
Lemma ref_le_refs tbl i ip :
  (forall i ip, tbl !! i = Some ip -> 0 <= i_ref ip) -> tbl !! i = Some ip -> i_ref ip <= refs tbl (i_inum ip).
Proof.
  intros Hp Hi. pose proof (tsum_le (fun x => if i_inum x =? i_inum ip then i_ref x else 0) tbl i ip) as Hle.
  cbv beta in Hle. rewrite Z.eqb_refl in Hle. apply Hle; [|done]. intros k x Hx. pose proof (Hp k x Hx). case_match; lia.
Qed.
Lemma free_exists tbl : 1 <= free_entries tbl -> exists i ip, tbl !! i = Some ip /\ i_ref ip = 0.
Proof.
  induction tbl as [|x tbl IH]; intros Hf; unfold free_entries in *; simpl in Hf; [lia|].
  destruct (Z.eqb_spec (i_ref x) 0) as [E|E]; [by exists 0%nat, x|]. destruct IH as (i & ip & ? & ?); [lia|]. by exists (S i), ip.
Qed.

(** ** The inode table *)

Section Table.
Context {T H U : Type} `{TS : TxStore T H dev} `{UserMem U}.
Context (pid : Z).
Implicit Type s : fs_st T U.

Definition set_table (tbl : list inode) s : fs_st T U := FsSt _ _ (fs_sb s) (fs_tx s) tbl (fs_user s).

(** An entry in use stands for an inode of the tree, and when it is valid it
    has the contents of that inode. *)
Record entry_ok v sb (D : gmap Z (list Z)) (ip : inode) : Prop := {
  eo_ref : 0 <= i_ref ip;
  eo_dev : 0 < i_ref ip -> i_dev ip = dev;
  eo_inum : 0 < i_ref ip -> is_Some (D !! i_inum ip);
  eo_valid : 0 < i_ref ip -> i_valid ip = true -> i_dinode ip = disk_ino v sb (i_inum ip) }.
(** Only entry [k] may be locked. *)
Definition table_ok v sb D (k : option nat) (tbl : list inode) : Prop :=
  forall i ip, tbl !! i = Some ip -> entry_ok v sb D ip /\ (slk_locked (i_lock ip) = true -> k = Some i).

Lemma table_ok_insert v sb D k k' tbl i ip :
  table_ok v sb D k tbl -> entry_ok v sb D ip -> (slk_locked (i_lock ip) = true -> k' = Some i) ->
  (forall j, j <> i -> k = Some j -> k' = Some j) -> table_ok v sb D k' (<[i := ip]> tbl).
Proof.
  intros Ht He Hl Hk j x Hj. destruct (decide (j = i)) as [->|Hne].
  - pose proof (lookup_lt_Some _ _ _ Hj) as Hlt. rewrite length_insert in Hlt. rewrite list_lookup_insert_eq in Hj by done.
    by injection Hj as <-.
  - rewrite list_lookup_insert_ne in Hj by done. destruct (Ht j x Hj) as [? Hlk]. split; [done|]. intros E. apply Hk; auto.
Qed.

(** [iget] with an entry to spare. *)
Lemma iget_table s v sb D k inum :
  let tbl := fs_itable s in
  table_ok v sb D k tbl -> is_Some (D !! inum) -> 1 <= free_entries tbl -> (forall j, refs tbl j < 2 ^ 31 - 1) ->
  exists i ip ip', iget dev inum s = Ret i (set_table (<[i := ip']> tbl) s) /\ tbl !! i = Some ip
    /\ i_inum ip' = inum /\ i_ref ip' = i_ref ip + 1 /\ table_ok v sb D k (<[i := ip']> tbl)
    /\ (ip' = set_i_ref (i_ref ip + 1) ip \/ i_ref ip = 0)
    /\ (forall j, refs (<[i := ip']> tbl) j = refs tbl j + (if inum =? j then 1 else 0)).
Proof.
  intros tbl Ht HD Hf Hb. unfold iget. rewrite (mthen_ret (gets fs_itable) _ s tbl s eq_refl).
  assert (forall i ip, tbl !! i = Some ip -> 0 <= i_ref ip) as Hpos by (intros i ip Hi; apply (Ht i ip Hi)).
  pose proof (iget_scan_spec tbl 0 None dev inum) as Hscan. destruct (iget_scan tbl 0 None dev inum) as [i|[i|]].
  - destruct Hscan as (ip & _ & Hi & Hr & Hd & Hn). rewrite Nat.sub_0_r in Hi. destruct (Ht i ip Hi) as [He Hl].
    pose proof (ref_le_refs tbl i ip Hpos Hi) as Hle. specialize (Hb (i_inum ip)).
    assert (i32 (i_ref ip + 1) = i_ref ip + 1) as E by (apply i32_small; lia).
    exists i, ip, (set_i_ref (i_ref ip + 1) ip). split; [|split; [done|]]; [|split; [done|]; split; [done|]; split; [|split; [by left|]]].
    + unfold set_inode, modify, upd_inode, mthen, mreturn, set_table. fold tbl. rewrite (alter_insert _ _ _ _ Hi), E. done.
    + apply (table_ok_insert v sb D k k tbl i); [done | | done | done]. destruct He. split; simpl; auto; lia.
    + intros j. rewrite (refs_insert _ _ _ _ _ Hi). cbn [i_inum i_ref set_i_ref]. rewrite Hn. case_match; lia.
  - destruct Hscan as [Hno [?|(_ & _ & ip & Hi & Hz)]]; [done|]. rewrite Nat.sub_0_r in Hi. destruct (Ht i ip Hi) as [He Hl].
    exists i, ip, (recycle_inode dev inum ip). split; [|split; [done|]; split; [done|]; split; [by rewrite Hz|]; split; [|split; [by right|]]].
    + unfold set_inode, modify, upd_inode, mthen, mreturn, set_table. fold tbl. by rewrite (alter_insert _ _ _ _ Hi).
    + apply (table_ok_insert v sb D k k tbl i); [done | by split; simpl; auto; lia | done | done].
    + intros j. rewrite (refs_insert _ _ _ _ _ Hi), Hz. cbn [i_inum i_ref recycle_inode]. repeat case_match; lia.
  - destruct Hscan as [_ [_ Hall]]. destruct (free_exists tbl Hf) as (i & ip & Hi & Hz). by destruct (Hall i ip Hi).
Qed.

(** [iunlock] and [iput] of an entry whose inode has a link. *)
Lemma iunlock_table s i ip :
  fs_itable s !! i = Some ip -> i_lock ip = Sleeplock true pid -> 1 <= i_ref ip ->
  iunlock pid (Some i) s = Ret tt (set_table (<[i := set_i_lock (Sleeplock false 0) ip]> (fs_itable s)) s).
Proof.
  intros Hi Hl Hr. unfold iunlock. rewrite (mthen_ret _ _ _ _ _ (inode_at_run s i ip Hi)).
  unfold holdingsleep. rewrite Hl. cbn [slk_locked slk_pid andb]. rewrite Z.eqb_refl. cbn [negb orb].
  rewrite (proj2 (Z.ltb_ge _ _)) by lia. unfold set_inode, modify, upd_inode, set_table. by rewrite (alter_insert _ _ _ _ Hi).
Qed.
Lemma iput_table s i ip :
  fs_itable s !! i = Some ip -> (i_valid ip = true -> i_nlink ip <> 0) -> 1 <= i_ref ip < 2 ^ 31 ->
  iput pid i s = Ret tt (set_table (<[i := set_i_ref (i_ref ip - 1) ip]> (fs_itable s)) s).
Proof.
  intros Hi Hl Hr. unfold iput. rewrite (mthen_ret _ _ _ _ _ (inode_at_run s i ip Hi)).
  assert ((i_ref ip =? 1) && i_valid ip && (i_nlink ip =? 0) = false) as ->.
  { destruct (i_valid ip); [|by rewrite andb_false_r]. apply andb_false_intro2. apply Z.eqb_neq. auto. }
  rewrite (mthen_ret skip _ s tt s eq_refl). unfold set_inode, modify, upd_inode, set_table.
  by rewrite (alter_insert _ _ _ _ Hi), i32_small by lia.
Qed.
Lemma iunlockput_table s i ip :
  fs_itable s !! i = Some ip -> i_lock ip = Sleeplock true pid -> (i_valid ip = true -> i_nlink ip <> 0) -> 1 <= i_ref ip < 2 ^ 31 ->
  iunlockput pid i s = Ret tt (set_table (<[i := set_i_ref (i_ref ip - 1) (set_i_lock (Sleeplock false 0) ip)]> (fs_itable s)) s).
Proof.
  intros Hi Hl Hn Hr. unfold iunlockput. rewrite (mthen_ret _ _ _ _ _ (iunlock_table s i ip Hi Hl ltac:(lia))).
  erewrite iput_table; [|simpl; apply list_lookup_insert_eq; by eapply lookup_lt_Some|done|done].
  unfold set_table. simpl. by rewrite list_insert_insert_eq.
Qed.
End Table.

(** ** One step of the walk *)

Section Walk.
Context {T H U : Type} `{TS : TxStore T H dev} `{UserMem U}.
Context (pid : Z) (D : gmap Z (list Z)) (s0 : fs_st T U).
Implicit Type s : fs_st T U.
Abbreviation v := (vw s0).
Abbreviation sb := (fs_sb s0).

(** What the walk leaves as it was at [s0]: everything but the inode table. *)
Record calm s : Prop := {
  cm_sb : fs_sb s = sb;
  cm_user : fs_user s = fs_user s0;
  cm_inv : ts_inv (fs_tx s);
  cm_vw j : vw s j = v j;
  cm_held : held s = held s0;
  cm_logged : logged s = logged s0;
  cm_dirty : dirty s = dirty s0 }.

Lemma calm_table s tbl : calm s -> calm (set_table tbl s).
Proof. intros []. by split. Qed.
Lemma calm_view s s' : calm s -> same_view s s' -> calm s' /\ fs_itable s' = fs_itable s.
Proof.
  intros [] [Sf Si Sv Sh Sl Sd]. destruct (same_fs_sb _ _ Sf) as (E1 & E2 & E3). split; [|done].
  split; try congruence.
Qed.

(** The store the walk starts from: no buffer held, nothing unlogged, a tree
    on the disk, an inode table that agrees with it and locks nothing. *)
Record walk_ready : Prop := {
  wr_inv : ts_inv (fs_tx s0);
  wr_held : held s0 = ∅;
  wr_dirty : dirty s0 ⊆ logged s0;
  wr_logged : (size (logged s0) + 1 <= 10)%nat;
  wr_tree : tree v sb D;
  wr_table : table_ok (dev := dev) v sb D None (fs_itable s0);
  wr_refs j : refs (fs_itable s0) j < 2 ^ 31 - 3 }.
Context (WR : walk_ready).

(** The walk has reached inode [inum], through entry [i]. *)
Record at_inode s (i : nat) (inum : Z) (ip : inode) : Prop := {
  ai_calm : calm s;
  ai_table : table_ok (dev := dev) v sb D None (fs_itable s);
  ai_at : fs_itable s !! i = Some ip;
  ai_inum : i_inum ip = inum;
  ai_ref : 0 < i_ref ip;
  ai_refs j : refs (fs_itable s) j = refs (fs_itable s0) j + (if inum =? j then 1 else 0);
  ai_free : 1 <= free_entries (fs_itable s) /\ (2 <= free_entries (fs_itable s) \/ i_ref ip = 1) }.

(** The entry, locked and loaded. *)
Definition loaded (ip : inode) : inode :=
  set_i_valid true (set_i_dinode (disk_ino v sb (i_inum ip)) (set_i_lock (Sleeplock true pid) ip)).

Lemma entry_positive k tbl : table_ok (dev := dev) v sb D k tbl -> forall i ip, tbl !! i = Some ip -> 0 <= i_ref ip.
Proof. intros Ht i ip Hi. apply (Ht i ip Hi). Qed.

Lemma entry_bound s i inum ip : at_inode s i inum ip -> i_ref ip < 2 ^ 31 - 2.
Proof.
  intros [C Ht Hi Hn Hr Hrefs Hf]. pose proof (ref_le_refs _ _ _ (entry_positive _ _ Ht) Hi) as Hle.
  rewrite Hrefs in Hle. pose proof (wr_refs WR (i_inum ip)). case_match; lia.
Qed.

Lemma loaded_dinode ip : i_dinode (loaded ip) = disk_ino v sb (i_inum ip).
Proof. unfold loaded. by destruct (disk_ino v sb (i_inum ip)). Qed.

Lemma loaded_ok k tbl i ip : table_ok (dev := dev) v sb D k tbl -> tbl !! i = Some ip -> 0 < i_ref ip -> entry_ok (dev := dev) v sb D (loaded ip).
Proof.
  intros Ht Hi Hr. destruct (Ht i ip Hi) as [He _]. destruct He. split; [done | auto | auto|]. intros _ _. exact (loaded_dinode ip).
Qed.

(** [ilock] of the entry. *)
Lemma ilock_at s i inum ip :
  at_inode s i inum ip -> exists s1, ilock pid (Some i) s = Ret tt s1 /\ calm s1 /\ fs_itable s1 = <[i := loaded ip]> (fs_itable s).
Proof.
  intros [C Ht Hi Hn Hr Hrefs Hf]. destruct (Ht i ip Hi) as [He Hl]. destruct (eo_inum _ _ _ _ He Hr) as [ad Had].
  assert (slk_locked (i_lock ip) = false) as Hul by (destruct (slk_locked (i_lock ip)); [by specialize (Hl eq_refl)|done]).
  destruct (i_valid ip) eqn:Hv.
  - pose proof (eo_valid _ _ _ _ He Hr Hv) as Ed. unfold ilock. rewrite (mthen_ret _ _ _ _ _ (inode_at_run s i ip Hi)).
    rewrite (proj2 (Z.ltb_ge _ _)) by lia. unfold acquiresleep. rewrite Hul, Hv. cbn [negb].
    exists (set_table (<[i := loaded ip]> (fs_itable s)) s). split; [|split; [by apply calm_table|done]].
    unfold mthen, set_inode, modify, skip, mreturn, upd_inode, set_table. rewrite (alter_insert _ _ _ _ Hi). do 4 f_equal.
    unfold loaded. rewrite <- Ed. destruct ip. simpl in *. by rewrite Hv.
  - pose proof (wr_tree WR) as HT. destruct (tr_block _ _ _ HT _ _ Had) as [Hb1 Hb2]. destruct (tr_live _ _ _ HT _ _ Had) as [Hty _].
    destruct C as [Csb Cu Ci Cv Ch Cl Cd].
    destruct (ilock_load_run pid s i ip) as (s1 & ip1 & R & _ & _ & _ & _ & _ & I1 & V1 & H1' & L1 & D1 & B1 & U1 & E & Et).
    { split; rewrite ?Ch, ?(wr_held WR), ?Csb, ?Cd, ?Cl; try done.
      - by apply (eo_dev _ _ _ _ He).
      - unfold MAXHELD. rewrite size_empty. lia.
      - apply WR.
      - apply size_union_le, WR.
      - rewrite Cv. apply HT. }
    { done. } { lia. } { done. } { rewrite Csb, Cv. exact Hty. }
    exists s1. split; [done|]. split; [split; try congruence; intros j; by rewrite V1|].
    rewrite Et, E. unfold loaded, disk_ino. by rewrite Csb, Cv.
Qed.

(** The locked directory can be searched. *)
Lemma loaded_ready s s1 i inum ip :
  at_inode s i inum ip -> calm s1 -> fs_itable s1 = <[i := loaded ip]> (fs_itable s) -> file_ready s1 i (loaded ip).
Proof.
  intros [C Ht Hi Hn Hr Hrefs Hf] C1 E1. destruct (Ht i ip Hi) as [He _]. destruct (eo_inum _ _ _ _ He Hr) as [ad Had].
  pose proof (wr_tree WR) as HT. pose proof (loaded_dinode ip) as Ed. destruct C1 as [Csb Cu Ci Cv Ch Cl Cd].
  assert (i_addrs (loaded ip) = ad) as Ea.
  { transitivity (di_addrs (i_dinode (loaded ip))); [done|]. rewrite Ed. by apply (tr_addrs _ _ _ HT). }
  assert (i_size (loaded ip) = di_size (disk_ino v sb (i_inum ip))) as Ez by (by rewrite <- Ed).
  split; rewrite ?Ch, ?(wr_held WR), ?Cl, ?Cd, ?Ea, ?Ez; try done.
  - rewrite E1. apply list_lookup_insert_eq. by eapply lookup_lt_Some.
  - by apply (eo_dev _ _ _ _ He).
  - rewrite size_empty. unfold MAXHELD. lia.
  - apply WR.
  - intros j. rewrite Cv. apply HT.
  - intros t Ht'. rewrite (slot_addr_ext _ _ _ t Cv). intros N. split; [by eapply (tr_slot _ _ _ HT) | apply not_elem_of_empty].
  - intros bn Hbn Hlt. unfold data_block. rewrite (slot_addr_ext _ _ _ _ Cv). by eapply (tr_alloc _ _ _ HT).
  - by eapply (tr_size _ _ _ HT).
Qed.

(** Searching it. *)
Lemma lookup_at s s1 i inum ip name :
  at_inode s i inum ip -> calm s1 -> fs_itable s1 = <[i := loaded ip]> (fs_itable s) -> di_type (disk_ino v sb inum) = T_DIR ->
  exists s2, calm s2 /\ fs_itable s2 = <[i := loaded ip]> (fs_itable s) /\
    match names v (disk_ino v sb inum) (cname name) with
    | None => dirlookup i name s1 = Ret None s2
    | Some n => exists off, dirlookup i name s1 = (let* j := iget dev n in mreturn (Some (j, off))) s2
    end.
Proof.
  intros A C1 E1 Hty. pose proof (loaded_ready s s1 i inum ip A C1 E1) as FR. pose proof A as [C Ht Hi Hn Hr Hrefs Hf].
  destruct (Ht i ip Hi) as [He _]. destruct (eo_inum _ _ _ _ He Hr) as [ad Had]. rewrite Hn in Had.
  pose proof (loaded_dinode ip) as Ed. rewrite Hn in Ed.
  destruct (dirlookup_run s1 i (loaded ip) name FR) as (s2 & V & R).
  { transitivity (di_type (i_dinode (loaded ip))); [done|]. by rewrite Ed. }
  { transitivity (di_size (i_dinode (loaded ip)) mod 16); [done|]. rewrite Ed. by eapply (tr_dir _ _ _ (wr_tree WR)). }
  destruct (calm_view _ _ C1 V) as [C2 E2]. exists s2. split; [done|]. split; [by rewrite E2|].
  rewrite Ed, (content_view v (vw s1)) in R by apply C1. rewrite find_cname in R. unfold names.
  destruct (list_find _ _) as [[k e]|]; [by eexists | done].
Qed.

Lemma entry_ok_put ip l : entry_ok (dev := dev) v sb D ip -> 0 < i_ref ip -> entry_ok (dev := dev) v sb D (set_i_ref (i_ref ip - 1) (set_i_lock l ip)).
Proof. intros [] Hr. split; simpl; [lia|..]; intros; [apply eo_dev0 | apply eo_inum0 | apply (eo_valid0 Hr)]; done. Qed.

Lemma live_nlink ip : entry_ok (dev := dev) v sb D ip -> 0 < i_ref ip -> i_valid ip = true -> i_nlink ip <> 0.
Proof.
  intros He Hr Hv. destruct (eo_inum _ _ _ _ He Hr) as [ad Had]. pose proof (eo_valid _ _ _ _ He Hr Hv) as E.
  change (di_nlink (i_dinode ip) <> 0). rewrite E. by eapply (tr_live _ _ _ (wr_tree WR)).
Qed.

(** Letting the locked inode go, with nothing found. *)
Lemma put_at s s1 i inum ip :
  at_inode s i inum ip -> calm s1 -> fs_itable s1 = <[i := loaded ip]> (fs_itable s) ->
  exists s2, iunlockput pid i s1 = Ret tt s2 /\ calm s2 /\ table_ok (dev := dev) v sb D None (fs_itable s2)
    /\ forall j, refs (fs_itable s2) j = refs (fs_itable s0) j.
Proof.
  intros A C1 E1. pose proof (entry_bound _ _ _ _ A) as Hb. pose proof A as [C Ht Hi Hn Hr Hrefs Hf].
  pose proof (loaded_ok _ _ _ _ Ht Hi Hr) as Hok. assert (i < length (fs_itable s))%nat as Hlt by (by eapply lookup_lt_Some).
  eexists. split; [apply (iunlockput_table pid s1 i (loaded ip)); [rewrite E1; by apply list_lookup_insert_eq | done | by apply live_nlink | simpl; lia]|].
  split; [by apply calm_table|]. simpl. rewrite E1, list_insert_insert_eq. split.
  - eapply table_ok_insert; [exact Ht | exact (entry_ok_put (loaded ip) _ Hok Hr) | done | done].
  - intros j. rewrite (refs_insert _ _ _ _ _ Hi), Hrefs. simpl. rewrite Hn. case_match; lia.
Qed.

(** Stepping to the inode found. *)
Lemma step_at s s1 i inum ip n (off : Z) :
  at_inode s i inum ip -> calm s1 -> fs_itable s1 = <[i := loaded ip]> (fs_itable s) -> is_Some (D !! n) ->
  exists j s2 s3 ip3, (let* j := iget dev n in mreturn (Some (j, off))) s1 = Ret (Some (j, off)) s2
    /\ iunlockput pid i s2 = Ret tt s3 /\ at_inode s3 j n ip3.
Proof.
  intros A C1 E1 HD. pose proof (entry_bound _ _ _ _ A) as Hb. pose proof A as [C Ht Hi Hn Hr Hrefs Hf].
  pose proof (loaded_ok _ _ _ _ Ht Hi Hr) as Hok. assert (i < length (fs_itable s))%nat as Hlt by (by eapply lookup_lt_Some).
  set (T1 := <[i := loaded ip]> (fs_itable s)) in *. assert (T1 !! i = Some (loaded ip)) as Hi1 by (by apply list_lookup_insert_eq).
  assert (table_ok (dev := dev) v sb D (Some i) T1) as Ht1 by (by eapply table_ok_insert).
  assert (forall j, refs T1 j = refs (fs_itable s) j) as Hr1 by (intros j; unfold T1; rewrite (refs_insert _ _ _ _ _ Hi); simpl; lia).
  assert (free_entries T1 = free_entries (fs_itable s)) as Hf1 by (unfold T1; rewrite (free_insert _ _ _ _ Hi); simpl; lia).
  destruct (iget_table (dev := dev) s1 v sb D (Some i) n) as (j & x & x' & R2 & Hx & Hxn & Hxr & Ht2 & Hx' & Hr2); rewrite ?E1; try done; [lia| |].
  { intros j. rewrite Hr1, Hrefs. pose proof (wr_refs WR j). case_match; lia. }
  rewrite E1 in *. set (T2 := <[j := x']> T1) in *. pose proof (free_insert T1 j x x' Hx) as Hf2. fold T2 in Hf2.
  assert (j < length T1)%nat as Hlj by (by eapply lookup_lt_Some). pose proof (proj1 (Ht1 j x Hx)) as Hxok.
  assert (exists y, T2 !! i = Some y /\ i_lock y = Sleeplock true pid /\ i_inum y = inum /\ 0 < i_ref y < 2 ^ 31
    /\ i_ref y = (if decide (i = j) then i_ref ip + 1 else i_ref ip)) as (y & Hy & Hyl & Hyn & Hyr & Eyr).
  { destruct (decide (i = j)) as [->|Hne].
    - rewrite Hi1 in Hx. injection Hx as <-. destruct Hx' as [->|Hz]; [|simpl in Hz; lia].
      eexists. split; [by apply list_lookup_insert_eq|]. simpl. repeat split; [done|lia|lia].
    - exists (loaded ip). unfold T2. rewrite list_lookup_insert_ne by done. simpl. repeat split; [done|done|lia|lia]. }
  set (y' := set_i_ref (i_ref y - 1) (set_i_lock (Sleeplock false 0) y)).
  exists j, (set_table T2 s1), (set_table (<[i := y']> T2) s1). pose proof (proj1 (Ht2 i y Hy)) as Hyok.
  assert (exists ip3, <[i := y']> T2 !! j = Some ip3 /\ i_inum ip3 = n
    /\ i_ref ip3 = (if decide (i = j) then i_ref ip else i_ref x + 1)) as (ip3 & H3 & H3n & H3r).
  { destruct (decide (i = j)) as [->|Hne].
    - exists y'. rewrite list_lookup_insert_eq by (by eapply lookup_lt_Some). unfold y'. simpl.
      unfold T2 in Hy. rewrite list_lookup_insert_eq in Hy by done. injection Hy as <-. repeat split; [done|lia].
    - exists x'. rewrite list_lookup_insert_ne by done. unfold T2. by rewrite list_lookup_insert_eq. }
  exists ip3. split; [by rewrite (mthen_ret _ _ _ _ _ R2)|].
  split; [apply (iunlockput_table pid (set_table T2 s1) i y Hy Hyl); [apply live_nlink; [done|lia] | lia]|].
  assert (0 <= i_ref x) as Hx0 by apply Hxok. pose proof (free_insert T2 i y y' Hy) as Hf3. unfold y' in Hf3. simpl in Hf3. fold y' in Hf3.
  split; try done.
  - by apply calm_table, C1.
  - simpl. eapply table_ok_insert; [exact Ht2 | apply entry_ok_put; [done|lia] | done | congruence].
  - rewrite H3r. destruct (decide (i = j)); lia.
  - intros m. simpl. rewrite (refs_insert _ _ _ _ _ Hy). unfold y'. simpl. rewrite Hr2, Hr1, Hrefs, Hyn. repeat case_match; lia.
  - simpl. rewrite Hf3, Hf2, Hxr, H3r, Hf1. clear -Hf Hr Hx0 Eyr Hyr Hx Hi1.
    destruct (decide (i = j)) as [->|Hne]; [assert (i_ref x = i_ref ip) as -> by (rewrite Hi1 in Hx; by injection Hx as <-)|]; repeat case_match; lia.
Qed.

(** The outcome of a walk: the inode found, with one reference more, or none
    and no reference. *)
Definition walked (parent : bool) (inum : Z) (es : list (list Z)) (r : option nat) (name : list Z) s : Prop :=
  calm s /\ table_ok (dev := dev) v sb D None (fs_itable s) /\
  match walk v sb parent inum es with
  | Some n => exists j ip, r = Some j /\ fs_itable s !! j = Some ip /\ i_inum ip = n /\ 0 < i_ref ip
      /\ (parent = true -> last es = Some (cname name))
      /\ forall m, refs (fs_itable s) m = refs (fs_itable s0) m + (if n =? m then 1 else 0)
  | None => r = None /\ forall m, refs (fs_itable s) m = refs (fs_itable s0) m
  end.

(** No element is left. *)
Lemma walk_end (parent : bool) s i inum ip name :
  at_inode s i inum ip ->
  exists r s', ((if parent then iput pid i ;;; mreturn (None, name) else mreturn (Some i, name)) : M (fs_st T U) (option nat * list Z)) s = Ret (r, name) s'
    /\ walked parent inum [] r name s'.
Proof.
  intros A. pose proof (entry_bound _ _ _ _ A) as Hb. destruct A as [C Ht Hi Hn Hr Hrefs Hf]. pose proof (proj1 (Ht i ip Hi)) as He. destruct parent.
  - pose proof (iput_table pid s i ip Hi (live_nlink _ He Hr) ltac:(lia)) as R. rewrite (mthen_ret _ _ _ _ _ R).
    eexists _, _. split; [done|]. split; [by apply calm_table|]. split; [|split; [done|]].
    + pose proof (entry_ok_put ip (i_lock ip) He Hr) as Hput. replace (set_i_lock (i_lock ip) ip) with ip in Hput by (by destruct ip).
      simpl. eapply table_ok_insert; [exact Ht | exact Hput | apply (Ht i ip Hi) | done].
    + intros m. simpl. rewrite (refs_insert _ _ _ _ _ Hi), Hrefs. simpl. rewrite Hn. case_match; lia.
  - eexists _, s. split; [done|]. split; [done|]. split; [done|]. exists i, ip. repeat split; try done.
Qed.

(** The directory of the last element: unlocked and returned. *)
Lemma walk_parent s s1 i inum ip e name :
  at_inode s i inum ip -> calm s1 -> fs_itable s1 = <[i := loaded ip]> (fs_itable s) ->
  di_type (disk_ino v sb inum) = T_DIR -> cname name = e ->
  exists s', iunlock pid (Some i) s1 = Ret tt s' /\ walked true inum [e] (Some i) name s'.
Proof.
  intros A C1 E1 Hty Hname. pose proof A as [C Ht Hi Hn Hr Hrefs Hf]. pose proof (loaded_ok _ _ _ _ Ht Hi Hr) as [].
  assert (i < length (fs_itable s))%nat as Hlt by (by eapply lookup_lt_Some).
  eexists. split; [apply (iunlock_table pid s1 i (loaded ip)); [rewrite E1; by apply list_lookup_insert_eq | done | simpl; lia]|].
  split; [by apply calm_table|]. cbn [set_table fs_itable walk]. rewrite E1, list_insert_insert_eq, Hty. split.
  - eapply table_ok_insert; [exact Ht | by split | done | done].
  - simpl. eexists i, _. split; [done|]. split; [by apply list_lookup_insert_eq|]. split; [done|]. split; [done|].
    split; [intros _; by rewrite Hname|]. intros m. rewrite (refs_insert _ _ _ _ _ Hi), Hrefs. simpl. rewrite Hn. case_match; lia.
Qed.

Lemma namex_loop_run parent fuel : forall s path name i inum ip,
  at_inode s i inum ip -> Forall (fun c => c <> 0) path -> length name = DIRSIZ -> (length path < fuel)%nat ->
  exists r name' s', namex_loop pid fuel parent path name i s = Ret (r, name') s'
    /\ walked parent inum (take DIRSIZ <$> split_path path []) r name' s'.
Proof.
  induction fuel as [|fuel IH]; intros s path name i inum ip A Hp Hl Hf; [lia|]. cbn [namex_loop].
  pose proof (skipelem_step path name Hp Hl) as Hstep. destruct (skipelem path name) as [[path' name1]|] eqn:Esk.
  2:{ rewrite Hstep. destruct (walk_end parent s i inum ip name A) as (r & s' & R & W). by exists r, name, s'. }
  destruct Hstep as (e & -> & He & Hl1 & Hlt & Hp1). rewrite fmap_cons. apply skipelem_rest in Esk.
  destruct (ilock_at s i inum ip A) as (s1 & R1 & C1 & E1). rewrite (mthen_ret _ _ _ _ _ R1).
  pose proof (loaded_ready s s1 i inum ip A C1 E1) as FR. rewrite (mthen_ret _ _ _ _ _ (inode_at_run s1 i _ (fr_at _ _ _ FR))).
  pose proof (loaded_dinode ip) as Ed. rewrite (ai_inum _ _ _ _ A) in Ed.
  assert (i_type (loaded ip) = di_type (disk_ino v sb inum)) as Ety by (by rewrite <- Ed).
  rewrite Ety. destruct (Z.eqb_spec (di_type (disk_ino v sb inum)) T_DIR) as [Hty|Hty]; cbn [negb].
  2:{ destruct (put_at s s1 i inum ip A C1 E1) as (s2 & R2 & C2 & T2 & F2). rewrite (mthen_ret _ _ _ _ _ R2).
      exists None, name1, s2. split; [done|]. split; [done|]. split; [done|]. cbn [walk].
      by rewrite (proj2 (Z.eqb_neq _ _) Hty). }
  assert (parent && bool_decide (path' = []) = parent && bool_decide (take DIRSIZ <$> split_path path' [] = [])) as Ep.
  { f_equal. apply bool_decide_ext. rewrite Esk. split; [by intros ->|]. by destruct (split_path path' []). }
  rewrite Ep. destruct (parent && bool_decide (take DIRSIZ <$> split_path path' [] = [])) eqn:Elast.
  { apply andb_true_iff in Elast as [-> El%bool_decide_eq_true]. rewrite El.
    destruct (walk_parent s s1 i inum ip (take DIRSIZ e) name1 A C1 E1 Hty He) as (s2 & R2 & W). rewrite (mthen_ret _ _ _ _ _ R2).
    by exists (Some i), name1, s2. }
  destruct (lookup_at s s1 i inum ip name1 A C1 E1 Hty) as (s2 & C2 & E2 & R2). rewrite He in R2.
  assert (forall r nm st, walked parent inum (take DIRSIZ e :: (take DIRSIZ <$> split_path path' [])) r nm st
    <-> match names v (disk_ino v sb inum) (take DIRSIZ e) with
        | Some n => walked parent n (take DIRSIZ <$> split_path path' []) r nm st
        | None => calm st /\ table_ok (dev := dev) v sb D None (fs_itable st) /\ r = None /\ forall m, refs (fs_itable st) m = refs (fs_itable s0) m
        end) as Hw.
  { intros r nm st. unfold walked. cbn [walk]. rewrite Hty, Elast. cbn [Z.eqb Pos.eqb T_DIR].
    destruct (names v (disk_ino v sb inum) (take DIRSIZ e)) as [n|]; [|done]. simpl.
    destruct (walk v sb parent n (take DIRSIZ <$> split_path path' [])) eqn:Ew; [|done].
    destruct (take DIRSIZ <$> split_path path' []) eqn:Es; [|done]. destruct parent; [by simpl in Elast|].
    by split; intros (HC & HT & j & x & X1 & X2 & X3 & X4 & _ & X6); (do 2 (split; [done|])); exists j, x. }
  destruct (names v (disk_ino v sb inum) (take DIRSIZ e)) as [n|] eqn:En.
  - destruct R2 as (off & R2). destruct (eo_inum _ _ _ _ (proj1 (ai_table _ _ _ _ A i ip (ai_at _ _ _ _ A))) (ai_ref _ _ _ _ A)) as [ad Had].
    rewrite (ai_inum _ _ _ _ A) in Had. pose proof (names_in v sb D inum ad _ n (wr_tree WR) Had Hty En) as Hn.
    destruct (step_at s s2 i inum ip n off A C2 E2 Hn) as (j & s3 & s4 & ip4 & R3 & R4 & A4).
    rewrite R3 in R2. rewrite (mthen_ret _ _ _ _ _ R2), (mthen_ret _ _ _ _ _ R4).
    destruct (IH s4 path' name1 j n ip4 A4 Hp1 Hl1 ltac:(lia)) as (r & name' & s' & R & W). exists r, name', s'. split; [done|]. by apply Hw.
  - rewrite (mthen_ret _ _ _ _ _ R2). destruct (put_at s s2 i inum ip A C2 E2) as (s3 & R3 & C3 & T3 & F3).
    rewrite (mthen_ret _ _ _ _ _ R3). exists None, name1, s3. split; [done|]. by apply Hw.
Qed.
End Walk.

Section Resolve.
Context {T H U : Type} `{TS : TxStore T H dev} `{UserMem U}.
Context (pid : Z).
Implicit Type s : fs_st T U.

(** C34: path resolution.  Given a tree on the disk and an inode table that
    agrees with it, [namex] of an absolute or relative path terminates without
    a panic and returns exactly the inode [walk] finds by reading the
    directories ([None] when an element is missing or is not in a directory),
    or for [parent] the directory of the last element together with that
    element.  The inode found has one reference more, every other inode the
    references it had, no lock is left taken, and nothing but the inode table
    has changed. *)
Theorem namex_resolves D s cwd path name (parent : bool) :
  walk_ready D s -> 2 <= free_entries (fs_itable s) ->
  Forall (fun c => c <> 0) path -> length name = DIRSIZ ->
  let absolute := bool_decide (head path = Some SLASH) in
  (if absolute then dev = ROOTDEV /\ is_Some (D !! ROOTINO) else exists ip, fs_itable s !! cwd = Some ip /\ 0 < i_ref ip) ->
  let start := if absolute then ROOTINO else i_inum (fs_itable s !!! cwd) in
  exists r name' s', namex pid cwd path parent name s = Ret (r, name') s'
    /\ walked D s parent start (take DIRSIZ <$> split_path path []) r name' s'.
Proof.
  intros WR Hf Hp Hl absolute Hstart start. unfold namex. fold absolute.
  assert (calm s s) as C0 by (split; [done..| | | | |]; done || apply WR). pose proof (wr_table _ _ WR) as Ht.
  assert (exists i s1 ip, (if absolute then iget ROOTDEV ROOTINO else idup cwd) s = Ret i s1 /\ at_inode D s s1 i start ip) as (i & s1 & ip & R & A).
  { unfold start. destruct absolute.
    - destruct Hstart as [<- HD]. destruct (iget_table s (vw s) (fs_sb s) D None ROOTINO Ht HD ltac:(lia)) as (i & x & x' & R & Hx & Hn & Hr & Ht' & _ & Hrefs).
      { intros j. pose proof (wr_refs _ _ WR j). lia. }
      assert (0 <= i_ref x) as Hx0 by apply (Ht i x Hx).
      eexists i, _, x'. split; [exact R|]. split; try done; [by apply calm_table | simpl; apply list_lookup_insert_eq; by eapply lookup_lt_Some | lia|].
      simpl. rewrite (free_insert _ _ _ _ Hx), Hr. repeat case_match; lia.
    - destruct Hstart as (x & Hx & Hr). rewrite (list_lookup_total_correct _ _ _ Hx). destruct (Ht cwd x Hx) as [Hok Hul].
      pose proof (ref_le_refs _ _ _ (entry_positive D s _ _ Ht) Hx) as Hle. pose proof (wr_refs _ _ WR (i_inum x)).
      exists cwd, (set_table (<[cwd := set_i_ref (i_ref x + 1) x]> (fs_itable s)) s), (set_i_ref (i_ref x + 1) x). split.
      { unfold idup, set_inode, modify, mthen, mreturn, upd_inode, set_table. by rewrite (alter_insert _ _ _ _ Hx), i32_small by lia. }
      split; try done; simpl; [by apply calm_table | | apply list_lookup_insert_eq; by eapply lookup_lt_Some | lia | |].
      + eapply table_ok_insert; [exact Ht | | done | done]. destruct Hok. split; simpl; auto; lia.
      + intros j. rewrite (refs_insert _ _ _ _ _ Hx). simpl. case_match; lia.
      + rewrite (free_insert _ _ _ _ Hx). simpl. repeat case_match; lia. }
  rewrite (mthen_ret _ _ _ _ _ R). apply (namex_loop_run pid D s WR parent _ s1 path name i start ip A Hp Hl). lia.
Qed.
End Resolve.

(** ** An instance on the ideal store *)

(** A root directory in block 50 with one entry, [a], an empty file. *)
Definition tree_disk : Z -> block :=
  let root := Dinode T_DIR 0 0 1 16 (50 :: replicate 12 0) in
  let file := Dinode 2 0 0 1 0 (replicate 13 0) in
  upd (upd (fun _ => zero_block) 32 (put_dinode (dinode_off 1) root (put_dinode (dinode_off 2) file zero_block)))
    50 (splice 0 (put_dirent (Dirent 2 (str_ncpy DIRSIZ [97]))) zero_block).
Definition tree_inodes : gmap Z (list Z) := {[1 := 50 :: replicate 12 0; 2 := replicate 13 0]}.
Definition tree_fs : fs_st ideal flat_mem :=
  FsSt _ _ sample_sb (Ideal tree_disk ∅ ∅ ∅) (replicate NINODE inhabitant) (FlatMem (fun _ => 0) (fun _ => true)).

Lemma tree_inodes_inv j ad :
  tree_inodes !! j = Some ad -> j = 1 /\ ad = 50 :: replicate 12 0 \/ j = 2 /\ ad = replicate 13 0.
Proof.
  unfold tree_inodes. rewrite lookup_insert. case_decide; [intros [= <-]; by left|].
  rewrite lookup_singleton. case_decide; [intros [= <-]; by right | done].
Qed.
Lemma tree_slots j ad t :
  tree_inodes !! j = Some ad -> (t < NSLOT)%nat -> slot_addr tree_disk ad t = (if decide (j = 1 /\ t = 0%nat) then 50 else 0).
Proof.
  intros Hj Ht. apply tree_inodes_inv in Hj. destruct (decide (t <= 12)%nat) as [Hle|Hgt].
  - rewrite slot_direct by done. destruct Hj as [[-> ->]|[-> ->]].
    + do 13 (destruct t as [|t]; [done|]). lia.
    + rewrite decide_False by lia. apply list_lookup_total_correct, lookup_replicate. lia.
  - rewrite decide_False by lia. destruct Hj as [[-> ->]|[-> ->]]; apply slot_absent; done || lia.
Qed.

Lemma tree_fs_tree : tree tree_disk sample_sb tree_inodes.
Proof.
  assert (disk_ino tree_disk sample_sb 1 = Dinode T_DIR 0 0 1 16 (50 :: replicate 12 0)) as E1 by (vm_compute; reflexivity).
  assert (disk_ino tree_disk sample_sb 2 = Dinode 2 0 0 1 0 (replicate 13 0)) as E2 by (vm_compute; reflexivity).
  split.
  - intros k. unfold tree_disk, upd. repeat case_match; vm_compute; reflexivity.
  - intros j ad [[-> ->]|[-> ->]]%tree_inodes_inv; vm_compute; intuition discriminate.
  - intros j ad [[-> ->]|[-> ->]]%tree_inodes_inv; [rewrite E1 | rewrite E2]; reflexivity.
  - intros j ad [[-> ->]|[-> ->]]%tree_inodes_inv; [rewrite E1 | rewrite E2]; split; discriminate.
  - intros j ad [[-> ->]|[-> ->]]%tree_inodes_inv; [rewrite E1 | rewrite E2]; vm_compute; intuition discriminate.
  - intros j ad bn Hj Hbn Hlt. destruct (tree_inodes_inv _ _ Hj) as [[-> ->]|[-> ->]]; [rewrite E1 in Hlt | rewrite E2 in Hlt];
      cbn [di_size] in Hlt; unfold BSIZE in Hlt; [|lia]. assert (bn = 0) as -> by lia. done.
  - intros j ad t Hj Ht. rewrite (tree_slots j ad t Hj Ht). case_decide; lia.
  - intros j ad [[-> ->]|[-> ->]]%tree_inodes_inv; [rewrite E1; reflexivity | rewrite E2; discriminate].
  - intros j ad e [[-> ->]|[-> ->]]%tree_inodes_inv; [|rewrite E2; discriminate]. intros _.
    assert (dirents (content tree_disk (disk_ino tree_disk sample_sb 1)) = [Dirent 2 (str_ncpy DIRSIZ [97])]) as -> by (vm_compute; reflexivity).
    intros ->%list_elem_of_singleton _. by eexists.
Qed.

Lemma tsum_replicate f n ip : f ip = 0 -> tsum f (replicate n ip) = 0.
Proof. intros E. induction n as [|n IH]; [done|]. change (f ip + tsum f (replicate n ip) = 0). lia. Qed.

Lemma tree_fs_ready : walk_ready (TS := ideal_store 1) tree_inodes tree_fs.
Proof.
  split; try done.
  - vm_compute. lia.
  - apply tree_fs_tree.
  - intros i ip [-> _]%lookup_replicate. split; [by split|]. done.
  - intros j. unfold refs. cbn [fs_itable tree_fs]. rewrite tsum_replicate; [lia|]. simpl. by case_match.
Qed.

(** [namei("/a")] and [namei("/a/b")]. *)
Lemma namex_resolves_witness :
  (exists i name s' ip, namex 7 0 [47; 97] false (replicate DIRSIZ 0) tree_fs = Ret (Some i, name) s'
     /\ fs_itable s' !! i = Some ip /\ i_inum ip = 2)
  /\ exists name s', namex 7 0 [47; 97; 47; 98] false (replicate DIRSIZ 0) tree_fs = Ret (None, name) s'.
Proof.
  split.
  - destruct (namex_resolves (TS := ideal_store 1) 7 tree_inodes tree_fs 0 [47; 97] (replicate DIRSIZ 0) false tree_fs_ready)
      as (r & name & s' & R & _ & _ & W).
    + vm_compute. discriminate.
    + repeat constructor; discriminate.
    + reflexivity.
    + split; [reflexivity | eexists; reflexivity].
    + match type of W with context [walk ?a ?b ?c ?d ?e] => assert (walk a b c d e = Some 2) as E by (vm_compute; reflexivity) end.
      rewrite E in W.
      destruct W as (i & ip & -> & Hi & Hn & _). exists i, name, s', ip. split; [exact R|]. split; [exact Hi | exact Hn].
  - destruct (namex_resolves (TS := ideal_store 1) 7 tree_inodes tree_fs 0 [47; 97; 47; 98] (replicate DIRSIZ 0) false tree_fs_ready)
      as (r & name & s' & R & _ & _ & W).
    + vm_compute. discriminate.
    + repeat constructor; discriminate.
    + reflexivity.
    + split; [reflexivity | eexists; reflexivity].
    + match type of W with context [walk ?a ?b ?c ?d ?e] => assert (walk a b c d e = None) as E by (vm_compute; reflexivity) end.
      rewrite E in W.
      destruct W as [-> _]. exists name, s'. exact R.
Defined.
