(* ===== verification/FsDirlink.v ===== *)
(** [dirlink]: adding a name to a directory. *)

From S2P Require Import Prelude.
From S2P Require Import Bytes.
From S2P Require Import Locks.
From S2P Require Import BlockCache.
From S2P Require Import TxStore.
From S2P Require Import UserMem.
From S2P Require Import Fs.
From S2P Require Import FsDir.
From S2P Require Import FsBlocks.
From S2P Require Import FsInode.
From S2P Require Import FsContent.
From S2P Require Import FsRead.
From S2P Require Import FsWrite.
From S2P Require Import FsWritei.
From S2P Require Import FsWriteThm.

(** ** Entries as lists *)

(** The slot a new entry goes to: the first one not in use, or the end. *)
Definition free_slot (es : list dirent) : nat :=
  match list_find (fun d => de_inum d = 0) es with Some (k, _) => k | None => length es end.

Lemma free_slot_le es : (free_slot es <= length es)%nat.
Proof.
  unfold free_slot. destruct (list_find _ es) as [[k d]|] eqn:E; [|done].
  apply list_find_Some in E as (Hk & _). apply lookup_lt_Some in Hk. lia.
Qed.

(** The entries after the new one is put in its slot. *)
Definition link_at (k : nat) (d : dirent) (es : list dirent) : list dirent := take k es ++ d :: drop (S k) es.

Lemma link_at_lookup k d es j :
  (k <= length es)%nat -> link_at k d es !! j = if decide (j = k) then Some d else es !! j.
Proof.
  intros Hk. unfold link_at. assert (length (take k es) = k) as Lt by (rewrite length_take; lia).
  destruct (decide (j < k)%nat).
  - rewrite decide_False by lia. by rewrite lookup_app_l, lookup_take_lt by lia.
  - rewrite lookup_app_r by lia. rewrite Lt. case_decide as Hj; [subst; by rewrite Nat.sub_diag|].
    replace (j - k)%nat with (S (j - S k)) by lia. rewrite lookup_cons, lookup_drop. f_equal. lia.
Qed.

(** A name that was absent is found at its new slot, and the other names keep
    the entries they had. *)
Lemma link_at_found (name : list Z) es inum :
  let d := Dirent inum (str_ncpy DIRSIZ name) in
  inum <> 0 -> entry_is name d -> list_find (entry_is name) es = None ->
  list_find (entry_is name) (link_at (free_slot es) d es) = Some (free_slot es, d).
Proof.
  intros d Hi Hd Hno. pose proof (free_slot_le es) as Hk. apply list_find_Some.
  rewrite link_at_lookup, decide_True by done. split; [done|]. split; [done|].
  intros j e Hj Hlt He. rewrite link_at_lookup, decide_False in Hj by lia.
  apply list_find_None in Hno. rewrite Forall_lookup in Hno. by apply (Hno j e).
Qed.

Lemma link_at_other (name : list Z) es d :
  ~ entry_is name d -> list_find (entry_is name) (link_at (free_slot es) d es) = list_find (entry_is name) es.
Proof.
  intros Hd. pose proof (free_slot_le es) as Hk.
  assert (forall j e, link_at (free_slot es) d es !! j = Some e -> entry_is name e -> es !! j = Some e) as Hto.
  { intros j e Hj He. rewrite link_at_lookup in Hj by done. case_decide; [|done]. injection Hj as <-. done. }
  assert (forall j e, es !! j = Some e -> entry_is name e -> link_at (free_slot es) d es !! j = Some e) as Hfrom.
  { intros j e Hj [Hz He]. rewrite link_at_lookup by done. case_decide as Hjk; [|done]. exfalso. apply Hz. subst j.
    unfold free_slot in Hj. destruct (list_find (fun d => de_inum d = 0) es) as [[k d']|] eqn:E.
    - apply list_find_Some in E as (E & E0 & _). congruence.
    - apply lookup_lt_Some in Hj. lia. }
  destruct (list_find (entry_is name) es) as [[j e]|] eqn:E.
  - apply list_find_Some in E as (Ej & Ee & Emin). apply list_find_Some. split; [by apply Hfrom|]. split; [done|].
    intros j' e' Hj' Hlt He'. apply (Emin j' e'); [by apply Hto | done | done].
  - apply list_find_None. apply list_find_None in E. rewrite Forall_lookup in *. intros j e Hj He. by apply (E j e), He; apply Hto.
Qed.

Section Link.
Context {T H U : Type} `{TS : TxStore T H dev} `{UserMem U}.
Context (pid dstart dinum : Z) (i : nat).
Implicit Type s : fs_st T U.

(** [find_slot] stops at the slot for a new entry. *)
Lemma find_slot_run fuel : forall s ip k,
  file_ready s i ip -> 16 * Z.of_nat k <= i_size ip -> i_size ip mod 16 = 0 -> i_size ip < 16 * Z.of_nat k + Z.of_nat fuel ->
  let es := dirents (content (vw s) (i_dinode ip)) in
  exists s', same_view s s'
    /\ find_slot fuel i (16 * Z.of_nat k) s = Ret (16 * Z.of_nat (k + free_slot (drop k es))) s'.
Proof.
  induction fuel as [|fuel IH]; intros s ip k Hr Hk Hm Hf es; [lia|]. cbn [find_slot].
  rewrite (mthen_ret _ _ _ _ _ (inode_at_run s i ip (fr_at _ _ _ Hr))).
  pose proof (fr_size _ _ _ Hr) as Hmax. change (MAXFILE * BSIZE) with 274432 in Hmax.
  set (c := content (vw s) (i_dinode ip)) in *. assert (length c = Z.to_nat (i_size ip)) as Lc by apply content_length.
  assert (length es = Z.to_nat (i_size ip / 16)) as Ld.
  { unfold es, dirents. rewrite length_fmap, length_seq, Lc. rewrite Z2Nat.inj_div by lia. done. }
  destruct (Z.ltb_spec (16 * Z.of_nat k) (i_size ip)) as [Hlt|Hge]; cbn [negb].
  - destruct (read_dirent_run s i ip k "dirlink read" Hr ltac:(dlia)) as (s1 & R1 & V1). rewrite (mthen_ret _ _ _ _ _ R1). fold c.
    set (d := get_dirent (take 16 (drop (16 * k) c))).
    assert (drop k es = d :: drop (S k) es) as ->.
    { apply drop_S. unfold es, dirents. rewrite list_lookup_fmap, lookup_seq_lt; [done|]. rewrite Lc.
      apply (Nat.div_le_lower_bound (Z.to_nat (i_size ip)) 16 (S k)); dlia. }
    destruct (Z.eqb_spec (de_inum d) 0) as [E|E].
    + exists s1. split; [done|]. unfold free_slot. simpl. rewrite decide_True by done. by rewrite Nat.add_0_r.
    + pose proof (file_ready_same _ _ _ _ Hr V1) as Hr1.
      destruct (IH s1 ip (S k) Hr1 ltac:(dlia) Hm ltac:(lia)) as (s' & V & R).
      rewrite (content_view (vw s) (vw s1)) in R by apply V1. fold c es in R. exists s'. split; [by eapply same_view_trans|].
      change SZ_DIRENT with 16. rewrite i32_small by lia. replace (16 * Z.of_nat k + 16) with (16 * Z.of_nat (S k)) by lia. rewrite R.
      unfold free_slot. simpl. rewrite decide_False by done.
      destruct (list_find (fun d0 => de_inum d0 = 0) (drop (S k) es)) as [[j e]|]; simpl; do 2 f_equal; lia.
  - exists s. split; [apply same_view_refl, Hr|]. rewrite drop_ge by (rewrite Ld; dlia). unfold free_slot. simpl. do 2 f_equal. dlia.
Qed.

Lemma write_ready_same s s' D ip : write_ready dstart dinum i s D ip -> same_view s s' -> write_ready dstart dinum i s' D ip.
Proof.
  intros [W Hh Hn Hok Hal Hsz [Hib Hibm]] [Sf Si Sv Sh Sl Sd]. destruct (same_fs_sb _ _ Sf) as (Eb & Et & Eu).
  split; rewrite ?Sh, ?Eb; try done.
  - apply (wstate_view dstart dinum i s); try done; [rewrite Sd, Sl; apply W | rewrite Sh; apply W].
  - intros bn Hb Hlt. unfold data_block. rewrite (slot_addr_ext _ _ _ _ Sv). by apply Hal.
  - unfold bm in *. by rewrite Eb.
Qed.

(** The entries of the contents with one entry written. *)
Lemma dirents_write c k d :
  (16 * k <= length c)%nat -> (length c mod 16 = 0)%nat -> 0 <= de_inum d < 2 ^ 16 -> length (de_name d) = 14%nat ->
  dirents (take (16 * k) c ++ put_dirent d ++ drop (16 * k + 16) c) = link_at k d (dirents c).
Proof.
  intros Hk Hm Hi Hn. assert (length (put_dirent d) = 16%nat) as Lp by (unfold put_dirent; by rewrite length_app, length_le_bytes, Hn).
  set (c' := take (16 * k) c ++ put_dirent d ++ drop (16 * k + 16) c).
  assert (length c' = Nat.max (length c) (16 * k + 16)) as Lc by (unfold c'; rewrite !length_app, length_take, Lp, length_drop; lia).
  assert (length (dirents c) = (length c / 16)%nat) as Ld by (unfold dirents; by rewrite length_fmap, length_seq).
  assert (k <= length c / 16)%nat as Hkl by (apply Nat.div_le_lower_bound; lia).
  pose proof (get_put_dirent d Hi Hn) as Eg.
  apply list_eq. intros j. rewrite link_at_lookup by (by rewrite Ld).
  assert (forall x, (j < length x / 16)%nat -> dirents x !! j = Some (get_dirent (take 16 (drop (16 * j) x)))) as Hl.
  { intros x Hj. unfold dirents. by rewrite list_lookup_fmap, lookup_seq_lt. }
  assert (forall x, (length x / 16 <= j)%nat -> dirents x !! j = None) as Hl'.
  { intros x Hj. apply lookup_ge_None. unfold dirents. by rewrite length_fmap, length_seq. }
  assert (length c = 16 * (length c / 16))%nat as Hdiv by (pose proof (Nat.div_mod_eq (length c) 16); lia).
  assert (length c' / 16 = Nat.max (length c / 16) (S k))%nat as Ldiv.
  { rewrite Lc. replace (Nat.max (length c) (16 * k + 16)) with (Nat.max (length c / 16) (S k) * 16)%nat by lia. apply Nat.div_mul. lia. }
  case_decide as Hjk.
  - subst j. rewrite Hl by lia. do 2 f_equal. unfold c'. rewrite drop_app_length' by (rewrite length_take; lia).
    by rewrite take_app_length'.
  - destruct (decide (j < length c / 16)%nat) as [Hj|Hj]; [|rewrite (Hl' c), (Hl' c') by lia; done].
    rewrite (Hl c), (Hl c') by lia. do 2 f_equal. apply list_eq. intros m. destruct (decide (m < 16)%nat); [|by rewrite !lookup_take_ge by lia].
    rewrite !lookup_take_lt, !lookup_drop by done. unfold c'. destruct (decide (j < k)%nat).
    + rewrite lookup_app_l by (rewrite length_take; lia). by rewrite lookup_take_lt by lia.
    + rewrite lookup_app_r by (rewrite length_take; lia). rewrite lookup_app_r by (rewrite length_take, Lp; lia).
      rewrite lookup_drop, length_take, Lp. f_equal. lia.
Qed.

(** The steps of [dirlink]: the search for the name, the search for a slot, the write. *)
Lemma dirlink_run s D ip name inum :
  let es := dirents (content (vw s) (i_dinode ip)) in
  let k := free_slot es in
  let xs := put_dirent (Dirent inum (str_ncpy DIRSIZ name)) in
  write_ready dstart dinum i s D ip -> i_type ip = T_DIR -> i_size ip mod 16 = 0 -> i_size ip + 16 <= MAXFILE * BSIZE ->
  0 < inum < 2 ^ 16 -> list_find (entry_is name) es = None ->
  (size (logged s ∪ {[bm s]} ∪ {[IBLOCK dinum (fs_sb s)]}) + 2 <= 10)%nat ->
  exists r s2 s3 ip3, dirlink pid i name inum s = Ret (if negb (r =? SZ_DIRENT) then -1 else 0) s3
    /\ same_view s s2 /\ 0 <= r <= 16 /\ length xs = 16%nat /\ written dstart dinum i s2 D ip (16 * Z.of_nat k) xs r s3 ip3.
Proof.
  intros es k xs W Hty Hm Hsz Hi Hno Hlog. change (MAXFILE * BSIZE) with 274432 in Hsz.
  pose proof (write_file_ready _ _ _ _ _ _ W) as FR. pose proof (fr_size _ _ _ FR) as Hsz0.
  set (c := content (vw s) (i_dinode ip)) in *. assert (length c = Z.to_nat (i_size ip)) as Lc by apply content_length.
  assert (length es = Z.to_nat (i_size ip / 16)) as Le.
  { unfold es, dirents. rewrite length_fmap, length_seq, Lc. rewrite Z2Nat.inj_div by lia. done. }
  pose proof (free_slot_le es) as Hk. fold k in Hk.
  destruct (dirlookup_run s i ip name FR Hty Hm) as (s1 & V1 & R1). fold c es in R1. rewrite Hno in R1.
  pose proof (write_ready_same _ _ _ _ W V1) as W1. pose proof (write_file_ready _ _ _ _ _ _ W1) as FR1.
  unfold dirlink. rewrite (mthen_ret _ _ _ _ _ R1). rewrite (mthen_ret _ _ _ _ _ (inode_at_run s1 i ip (fr_at _ _ _ FR1))).
  destruct (find_slot_run (S (Z.to_nat (i_size ip))) s1 ip 0 FR1) as (s2 & V2 & R2); [lia|done|lia|].
  rewrite (content_view (vw s) (vw s1)) in R2 by apply V1. fold c es in R2. rewrite drop_0 in R2. fold k in R2.
  change (16 * Z.of_nat 0) with 0 in R2. rewrite (mthen_ret _ _ _ _ _ R2). cbn [Nat.add].
  pose proof (same_view_trans _ _ _ V1 V2) as V12. pose proof (write_ready_same _ _ _ _ W V12) as W2.
  assert (u16 inum = inum) as -> by (apply Z.mod_small; lia). fold xs.
  assert (length xs = 16%nat) as Lx by (unfold xs, put_dirent; cbn [de_inum de_name]; by rewrite length_app, length_le_bytes, str_ncpy_length).
  destruct (same_fs_sb _ _ (sv_fs _ _ V12)) as (B2 & T2 & U2).
  destruct (writei_run dstart dinum i s2 D ip (KernelSrc xs) (16 * Z.of_nat k) xs W2) as (r & s3 & ip3 & R3 & Hr & Wn).
  { simpl. by rewrite firstn_all. } { dlia. } { change (MAXFILE * BSIZE) with 274432. rewrite Lx. dlia. }
  { unfold bm. rewrite B2, (sv_logged _ _ V12). fold (bm s). rewrite Lx. change (Z.of_nat 16) with 16.
    assert (nblk (16 * Z.of_nat k) 16 = 1) as -> by (unfold nblk, BSIZE; simpl; dlia). lia. }
  rewrite Lx in R3, Hr. change (Z.of_nat 16) with SZ_DIRENT in R3. rewrite (mthen_ret _ _ _ _ _ R3).
  exists r, s2, s3, ip3. split; [by destruct (r =? SZ_DIRENT)|]. done.
Qed.

(** Once the whole entry is written, [dirlookup] searches the new list of entries. *)
Lemma entry_written s D ip k d s' ip' :
  let es := dirents (content (vw s) (i_dinode ip)) in
  written dstart dinum i s D ip (16 * Z.of_nat k) (put_dirent d) 16 s' ip' ->
  (k <= length es)%nat -> i_type ip = T_DIR -> 0 <= i_size ip -> i_size ip mod 16 = 0 ->
  0 <= de_inum d < 2 ^ 16 -> length (de_name d) = 14%nat -> length (put_dirent d) = 16%nat ->
  dirents (content (vw s') (i_dinode ip')) = link_at k d es
  /\ forall x, exists s'', same_view s' s'' /\ dirlookup i x s' = match list_find (entry_is x) (link_at k d es) with
       | None => Ret None s''
       | Some (m, e) => (let* j := iget dev (de_inum e) in mreturn (Some (j, 16 * Z.of_nat m))) s''
       end.
Proof.
  intros es Wn Hk Hty Hsz Hm Hi Hn Lx. set (c := content (vw s) (i_dinode ip)) in *.
  assert (length c = Z.to_nat (i_size ip)) as Lc by apply content_length.
  assert (length es = Z.to_nat (i_size ip / 16)) as Le.
  { unfold es, dirents. rewrite length_fmap, length_seq, Lc. rewrite Z2Nat.inj_div by lia. done. }
  assert (dirents (content (vw s') (i_dinode ip')) = link_at k d es) as E.
  { rewrite (wn_content _ _ _ _ _ _ _ _ _ _ _ Wn). fold c. rewrite (take_ge (put_dirent d)) by lia.
    replace (Z.to_nat (16 * Z.of_nat k)) with (16 * k)%nat by lia. replace (Z.to_nat (16 * Z.of_nat k + 16)) with (16 * k + 16)%nat by lia.
    apply dirents_write; try done; rewrite Lc; [dlia|]. apply Nat2Z.inj. rewrite Nat2Z.inj_mod, Z2Nat.id by lia. exact Hm. }
  split; [done|]. intros x. rewrite <- E. pose proof (wn_ip _ _ _ _ _ _ _ _ _ _ _ Wn) as Eip.
  apply dirlookup_run; [eapply write_file_ready, (wn_ready _ _ _ _ _ _ _ _ _ _ _ Wn) | by rewrite Eip|].
  rewrite Eip. cbn [i_size with_addrs set_i_size]. dlia.
Qed.

(** C35: [dirlink] adds a name and [dirlookup] finds it.  Given a name the
    directory does not have, and unless the disk is full (then it returns -1),
    [dirlink] puts the entry into the first slot not in use, or at the end of
    the directory.  [dirlookup] then returns the inode of the number given and
    the offset of that slot, and finds every other name, or its absence, as in
    the entries before.  No other file changes. *)
Theorem dirlink_adds s D ip name inum :
  let es := dirents (content (vw s) (i_dinode ip)) in
  let k := free_slot es in
  let d := Dirent inum (str_ncpy DIRSIZ name) in
  write_ready dstart dinum i s D ip -> i_type ip = T_DIR -> i_size ip mod 16 = 0 -> i_size ip + 16 <= MAXFILE * BSIZE ->
  0 < inum < 2 ^ 16 -> (length name <= DIRSIZ)%nat -> Forall (fun c => c <> 0) name -> list_find (entry_is name) es = None ->
  (size (logged s ∪ {[bm s]} ∪ {[IBLOCK dinum (fs_sb s)]}) + 2 <= 10)%nat ->
  exists r s' ip', dirlink pid i name inum s = Ret r s' /\ write_ready dstart dinum i s' (<[dinum := i_addrs ip']> D) ip'
    /\ (forall j e, D !! j = Some (di_addrs e) -> j <> dinum -> di_size e <= MAXFILE * BSIZE -> content (vw s') e = content (vw s) e)
    /\ (r = 0 /\ (let es' := dirents (content (vw s') (i_dinode ip')) in
          es' = link_at k d es
          /\ (exists s'', same_view s' s'' /\ dirlookup i name s' = (let* j := iget dev inum in mreturn (Some (j, 16 * Z.of_nat k))) s'')
          /\ forall other, ~ entry_is other d -> exists s'', same_view s' s''
               /\ dirlookup i other s' = match list_find (entry_is other) es with
                    | None => Ret None s''
                    | Some (m, e) => (let* j := iget dev (de_inum e) in mreturn (Some (j, 16 * Z.of_nat m))) s''
                    end)
        \/ r = -1 /\ disk_full s').
Proof.
  intros es k d W Hty Hm Hsz Hi Hlen Hnul Hno Hlog.
  pose proof (fr_size _ _ _ (write_file_ready _ _ _ _ _ _ W)) as Hsz0.
  destruct (dirlink_run s D ip name inum W Hty Hm Hsz Hi Hno Hlog) as (r & s2 & s3 & ip3 & R & V & Hr & Lx & Wn).
  exists (if negb (r =? SZ_DIRENT) then -1 else 0), s3, ip3. split; [done|].
  split; [apply (wn_ready _ _ _ _ _ _ _ _ _ _ _ Wn)|]. split.
  { intros j e Hj Hne Hse. rewrite (wn_others _ _ _ _ _ _ _ _ _ _ _ Wn j e Hj Hne Hse). apply content_view, V. }
  change SZ_DIRENT with 16. destruct (Z.eqb_spec r 16) as [->|Hne]; cbn [negb]; [left|right].
  - split; [done|]. cbv zeta.
    assert (content (vw s2) (i_dinode ip) = content (vw s) (i_dinode ip)) as Ec by apply content_view, V.
    pose proof (entry_written s2 D ip k d s3 ip3 Wn) as Hw. rewrite Ec in Hw. fold es in Hw. destruct Hw as [E Hfind]; try done.
    { apply free_slot_le. } { lia. } { change (0 <= inum < 2 ^ 16). lia. } { apply str_ncpy_length. }
    split; [done|]. split.
    + destruct (Hfind name) as (s'' & V' & R'). exists s''. split; [done|]. rewrite R'. unfold k, d. rewrite link_at_found; [done | lia | | done].
      split; [change (inum <> 0); lia|]. cbn [de_name]. unfold namecmp. rewrite str_eqn_ncpy by done. by apply bool_decide_eq_true.
    + intros other Ho. destruct (Hfind other) as (s'' & V' & R'). exists s''. split; [done|]. rewrite R'. unfold k. by rewrite link_at_other.
  - split; [done|]. apply (wn_full _ _ _ _ _ _ _ _ _ _ _ Wn). rewrite Lx. lia.
Qed.
End Link.

(** ** An instance on the ideal store *)

(** The name [a], added to an empty directory. *)
Lemma dirlink_adds_witness :
  exists r s' ip', dirlink 7 0 [97] 9 (sample_write_fs T_DIR) = Ret r s'
    /\ write_ready (TS := ideal_store 1) 50 5 0 s' {[5 := i_addrs ip']} ip'
    /\ (r = 0 /\ (exists s'', dirlookup 0 [97] s' = (let* j := iget 1 9 in mreturn (Some (j, 0))) s'')
        \/ r = -1 /\ disk_full (TS := ideal_store 1) s').
Proof.
  destruct (dirlink_adds (TS := ideal_store 1) 7 50 5 0 (sample_write_fs T_DIR) {[5 := replicate 13 0]} (empty_inode T_DIR) [97] 9)
    as (r & s' & ip' & R & W & _ & Hr).
  - apply sample_write_ready. unfold T_DIR. lia.
  - reflexivity.
  - reflexivity.
  - vm_compute. discriminate.
  - lia.
  - unfold DIRSIZ. simpl. lia.
  - repeat constructor. lia.
  - vm_compute. reflexivity.
  - vm_compute. lia.
  - exists r, s', ip'. split; [exact R|]. split; [rewrite insert_singleton_eq in W; exact W|].
    destruct Hr as [[-> (_ & (s'' & _ & Hf) & _)]|Hr]; [left; split; [reflexivity | exact (ex_intro _ s'' Hf)] | right; exact Hr].
Defined.
