(* ===== verification/Mkfs.v ===== *)
(** mkfs (src/mkfs/mkfs.c): the program that builds the file system image the
    kernel boots from.

    The image file is [mk_img], the contents of each sector, and [mk_len], its
    length in sectors (a sector past the end cannot be read).  [xshort] and
    [xint] are the values of their results on the little-endian host the
    program runs on.  A failed [assert], [die] and [exit(1)] are [Panic];
    reads and writes of the image within its length succeed. *)

From S2P Require Import Prelude.
From S2P Require Import Bytes.
From S2P Require Import BlockCache.
From S2P Require Import Fs.
From S2P Require Import FsDir.

Definition FSSIZE : Z := 2000.
Definition LOGBLOCKS : Z := 30.
Definition NINODES : Z := 200.
Definition T_FILE : Z := 2.

Definition nbitmap : Z := FSSIZE / BPB + 1.
Definition ninodeblocks : Z := NINODES / IPB + 1.
Definition nlog : Z := LOGBLOCKS + 1.
Definition nmeta : Z := 2 + nlog + ninodeblocks + nbitmap.
Definition nblocks : Z := FSSIZE - nmeta.

Record mkfs_st := Mkfs {
  mk_img : Z -> block;
  mk_len : Z;
  mk_sb : superblock;
  freeinode : Z;
  freeblock : Z }.
Definition set_img f n (s : mkfs_st) : mkfs_st := Mkfs f n (mk_sb s) (freeinode s) (freeblock s).
Definition set_mk_sb b (s : mkfs_st) : mkfs_st := Mkfs (mk_img s) (mk_len s) b (freeinode s) (freeblock s).
Definition set_freeinode i (s : mkfs_st) : mkfs_st := Mkfs (mk_img s) (mk_len s) (mk_sb s) i (freeblock s).
Definition set_freeblock b (s : mkfs_st) : mkfs_st := Mkfs (mk_img s) (mk_len s) (mk_sb s) (freeinode s) b.

Abbreviation K := (M mkfs_st).

(** ** Byte order: the two or four bytes, least significant first. *)

Definition xshort (x : Z) : Z := le_val [u8 x; u8 (Z.shiftr x 8)].
Definition xint (x : Z) : Z := le_val [u8 x; u8 (Z.shiftr x 8); u8 (Z.shiftr x 16); u8 (Z.shiftr x 24)].

(** ** Sectors and inodes of the image *)

(** The sector at the file position [sec * BSIZE], an [unsigned int]. *)
Definition sector (sec : Z) : Z := u32 (sec * BSIZE) / BSIZE.

Definition wsect (sec : Z) (buf : block) : K () :=
  modify (fun s => set_img (upd (mk_img s) (sector sec) buf) (Z.max (mk_len s) (sector sec + 1)) s).
Definition rsect (sec : Z) : K block :=
  let* n := gets mk_len in
  if negb (sector sec <? n) then panic "read" else gets (fun s => mk_img s (sector sec)).

Definition winode (inum : Z) (ip : dinode) : K () :=
  let* sb := gets mk_sb in
  let bn := IBLOCK inum sb in
  let* buf := rsect bn in
  wsect bn (put_dinode (dinode_off inum) ip buf).

Definition rinode (inum : Z) : K dinode :=
  let* sb := gets mk_sb in
  let bn := IBLOCK inum sb in
  let* buf := rsect bn in
  mreturn (get_dinode (dinode_off inum) buf).

Definition ialloc (type : Z) : K Z :=
  let* inum := gets freeinode in
  modify (set_freeinode (u32 (inum + 1))) ;;;
  winode inum (Dinode (xshort type) 0 0 (xshort 1) (xint 0) (replicate (NDIRECT + 1) 0)) ;;;
  mreturn inum.

(** [freeblock++] *)
Definition next_block : K Z :=
  let* b := gets freeblock in modify (set_freeblock (u32 (b + 1))) ;;; mreturn b.

(** Mark the first [used] blocks in the bitmap. *)
Definition balloc (used : Z) : K () :=
  if negb (used <? BPB) then panic "used < BPB" else
  let buf := fold_left (fun b i => set_bit b (Z.of_nat i)) (seq 0 (Z.to_nat used)) zero_block in
  let* sb := gets mk_sb in
  wsect (sb_bmapstart sb) buf.

(** ** Appending to a file *)

Definition set_addr (n : nat) (a : Z) (d : dinode) : dinode :=
  Dinode (di_type d) (di_major d) (di_minor d) (di_nlink d) (di_size d) (<[n := a]> (di_addrs d)).
Definition set_size (z : Z) (d : dinode) : dinode :=
  Dinode (di_type d) (di_major d) (di_minor d) (di_nlink d) z (di_addrs d).

(** The slot [n] of the inode, given a block if it has none. *)
Definition take_addr (n : nat) (din : dinode) : K dinode :=
  if xint (di_addrs din !!! n) =? 0 then
    let* b := next_block in mreturn (set_addr n (xint b) din)
  else mreturn din.

(** The part of the loop of [iappend] that finds or allocates block [fbn]. *)
Definition file_block (fbn : Z) (din : dinode) : K (dinode * Z) :=
  if fbn <? Z.of_nat NDIRECT then
    let* din := take_addr (Z.to_nat fbn) din in
    mreturn (din, xint (di_addrs din !!! Z.to_nat fbn))
  else
    let* din := take_addr NDIRECT din in
    let o := Z.to_nat (4 * (fbn - Z.of_nat NDIRECT)) in
    let ind := xint (di_addrs din !!! NDIRECT) in
    let* indirect := rsect ind in
    let* indirect := (if get_uint o indirect =? 0 then
                        let* b := next_block in
                        let indirect := put 4 o (xint b) indirect in
                        wsect ind indirect ;;;
                        mreturn indirect
                      else mreturn indirect) in
    mreturn (din, xint (get_uint o indirect)).

(** The loop of [iappend]: the inode and the offset at its end. *)
Fixpoint iappend_loop (fuel : nat) (din : dinode) (off : Z) (p : list Z) (n : Z) : K (dinode * Z) :=
  match fuel with
  | O => diverge
  | S fuel' =>
      if negb (n >? 0) then mreturn (din, off) else
      let fbn := off / BSIZE in
      if negb (fbn <? MAXFILE) then panic "fbn < MAXFILE" else
      let* r := file_block fbn din in
      let n1 := Z.min n (u32 ((fbn + 1) * BSIZE - off)) in
      let* buf := rsect r.2 in
      wsect r.2 (splice (Z.to_nat (off - fbn * BSIZE)) (take (Z.to_nat n1) p) buf) ;;;
      iappend_loop fuel' r.1 (u32 (off + n1)) (drop (Z.to_nat n1) p) (n - n1)
  end.

Definition iappend (inum : Z) (xp : list Z) (n : Z) : K () :=
  let* din := rinode inum in
  let* r := iappend_loop (S (Z.to_nat n)) din (xint (di_size din)) xp n in
  winode inum (set_size (xint r.2) r.1).

(** ** main *)

(** [memmove(buf, &sb, sizeof(sb))] into a zeroed buffer. *)
Definition put_superblock (sb : superblock) : block :=
  splice 0 (le_bytes 4 (sb_magic sb) ++ le_bytes 4 (sb_size sb) ++ le_bytes 4 (sb_nblocks sb)
            ++ le_bytes 4 (sb_ninodes sb) ++ le_bytes 4 (sb_nlog sb) ++ le_bytes 4 (sb_logstart sb)
            ++ le_bytes 4 (sb_inodestart sb) ++ le_bytes 4 (sb_bmapstart sb)) zero_block.

(** An entry with [strcpy] or [strncpy] of the name into its zeroed field. *)
Definition add_dirent (dir inum : Z) (name : list Z) : K () :=
  iappend dir (put_dirent (Dirent (xshort inum) (str_ncpy DIRSIZ name))) SZ_DIRENT.

Definition user_prefix : list Z := [117; 115; 101; 114; 47].
Definition UNDERSCORE : Z := 95.

Definition short_name (arg : list Z) : list Z :=
  if str_eqn 5 arg user_prefix then drop 5 arg else arg.

Section Main.
(** The host's files: for each name what the successive calls of [read] on
    the opened file return, [None] when [open] fails. *)
Context (host : list Z -> option (list (list Z))).

(** One iteration of the loop over the arguments. *)
Definition add_file (rootino : Z) (arg : list Z) : K () :=
  let shortname := short_name arg in
  if bool_decide (SLASH ∈ shortname) then panic "strchr(shortname, '/') == 0" else
  match host arg with
  | None => panic "open"
  | Some reads =>
      let shortname := if default 0 (head shortname) =? UNDERSCORE then tail shortname else shortname in
      if negb (length shortname <=? DIRSIZ)%nat then panic "strlen(shortname) <= DIRSIZ" else
      let* inum := ialloc T_FILE in
      add_dirent rootino inum shortname ;;;
      mfor reads (fun buf => iappend inum buf (Z.of_nat (length buf)))
  end.

Definition mkfs_sb : superblock :=
  Superblock FSMAGIC (xint FSSIZE) (xint nblocks) (xint NINODES) (xint nlog) (xint 2)
    (xint (2 + nlog)) (xint (2 + nlog + ninodeblocks)).

(** The image before any file: all sectors zero, then the superblock. *)
Definition init_image : K () :=
  modify (set_mk_sb mkfs_sb) ;;;
  modify (set_freeblock nmeta) ;;;
  mfor (seq 0 (Z.to_nat FSSIZE)) (fun i => wsect (Z.of_nat i) zero_block) ;;;
  wsect 1 (put_superblock mkfs_sb).

(** "fix size of root inode dir" *)
Definition fix_root (rootino : Z) : K () :=
  let* din := rinode rootino in
  let off := u32 ((xint (di_size din) / BSIZE + 1) * BSIZE) in
  winode rootino (set_size (xint off) din).

(** [main], given the names of the files to add. *)
Definition mkfs (files : list (list Z)) : K () :=
  init_image ;;;
  let* rootino := ialloc T_DIR in
  if negb (rootino =? ROOTINO) then panic "rootino == ROOTINO" else
  add_dirent rootino rootino [46] ;;;
  add_dirent rootino rootino [46; 46] ;;;
  mfor files (add_file rootino) ;;;
  fix_root rootino ;;;
  let* used := gets freeblock in
  balloc (i32 used).

(** The whole program: [argv], and whether the image can be opened. *)
Definition main (argv : list (list Z)) (opens : bool) : K () :=
  if (length argv <? 2)%nat then panic "usage"
  else if negb opens then panic "open"
  else mkfs (drop 2 argv).
End Main.

(** The state in which [main] starts: an empty image (O_TRUNC). *)
Definition mkfs_start : mkfs_st :=
  Mkfs (fun _ => zero_block) 0 (Superblock 0 0 0 0 0 0 0 0) 1 0.
