(* ===== verification/MkfsAppend.v ===== *)
(** [iappend] of mkfs: how one call grows the tree of blocks of a file, what
    it leaves to the other files, and how many blocks it takes. *)

From S2P Require Import Prelude.
From S2P Require Import Bytes.
From S2P Require Import BlockCache.
From S2P Require Import Fs.
From S2P Require Import FsInode.
From S2P Require Import FsContent.
From S2P Require Import Mkfs.

Lemma xint_u32 x : xint x = u32 x.
Proof.
  unfold xint, u8, u32. rewrite !Z.shiftr_div_pow2 by lia. cbn [le_val foldr].
  change (2 ^ 8) with 256. change (2 ^ 16) with 65536. change (2 ^ 24) with 16777216. change (2 ^ 32) with 4294967296. dlia.
Qed.
Lemma xint_small x : 0 <= x < 2 ^ 32 -> xint x = x.
Proof. intros. rewrite xint_u32. by apply u32_small. Qed.
Lemma xshort_small x : 0 <= x < 2 ^ 16 -> xshort x = x.
Proof.
  intros. unfold xshort, u8. rewrite !Z.shiftr_div_pow2 by lia. cbn [le_val foldr]. change (2 ^ 8) with 256. dlia.
Qed.
Lemma sector_small k : 0 <= k < 2 ^ 22 -> sector k = k.
Proof. intros. unfold sector, BSIZE. rewrite u32_small by lia. apply Z.div_mul. lia. Qed.

(** ** Sectors *)

Lemma rsect_run k s : 0 <= k < mk_len s -> mk_len s <= 2 ^ 22 -> rsect k s = Ret (mk_img s k) s.
Proof.
  intros Hk Hn. unfold rsect, mthen, gets. rewrite sector_small by lia.
  destruct (Z.ltb_spec k (mk_len s)); [done|lia].
Qed.
Lemma wsect_run k b s :
  0 <= k < mk_len s -> mk_len s <= 2 ^ 22 -> wsect k b s = Ret tt (set_img (upd (mk_img s) k b) (mk_len s) s).
Proof. intros Hk Hn. unfold wsect, modify. rewrite sector_small by lia. by rewrite Z.max_l by lia. Qed.

(** ** The tree of blocks, with blocks taken in order *)

Definition slots (v : Z -> block) (ad : list Z) (P : nat -> bool) : Prop :=
  forall t, (t < NSLOT)%nat -> (slot_addr v ad t <> 0 <-> P t = true).

(** All blocks the inodes of [D] use lie between the metadata and [fb], and
    those from [fb] on are zero. *)
Record rep (v : Z -> block) (fb : Z) (D : gmap Z (list Z)) : Prop := {
  rp_layout : layout v D;
  rp_fb : nmeta <= fb;
  rp_used i ad t : D !! i = Some ad -> (t < NSLOT)%nat -> slot_addr v ad t <> 0 -> nmeta <= slot_addr v ad t < fb;
  rp_zero k : fb <= k -> v k = zero_block }.

(** The metadata stays as it is. *)
Definition low (v v' : Z -> block) : Prop := forall k, k < nmeta -> v' k = v k.

Lemma nmeta_eq : nmeta = 47.
Proof. reflexivity. Qed.

Lemma rep_fresh v fb D : rep v fb D -> fb < 2 ^ 32 -> fresh v D fb.
Proof.
  intros [L Hfb Hu _] Hb. rewrite nmeta_eq in *. split; [lia|]. intros j ae t Hj Ht E.
  destruct (Hu j ae t Hj Ht); lia.
Qed.

(** Slot [s] is given the next block. *)
Lemma rep_assign v fb D i ad P s :
  rep v fb D -> D !! i = Some ad -> slots v ad P -> (s < NSLOT)%nat -> P s = false ->
  ((12 < s)%nat -> P 12%nat = true) -> fb < 2 ^ 32 ->
  let '(v', ad') := assign v ad s fb in
  rep v' (fb + 1) (<[i := ad']> D) /\ slots v' ad' (fun t => P t || (t =? s)%nat)
  /\ grow v D i v' ad' /\ low v v' /\ slot_addr v' ad' s = fb.
Proof.
  intros R Hi HP Hs Hfree Hind Hfb. pose proof (rep_fresh _ _ _ R Hfb) as Hf. destruct R as [L Hm Hu Hz].
  assert (slot_addr v ad s = 0) as H0.
  { destruct (decide (slot_addr v ad s = 0)) as [|N]; [done|]. apply (HP s Hs) in N. congruence. }
  assert ((12 < s)%nat -> ad !!! 12%nat <> 0) as Hind'.
  { intros H12. rewrite <- (slot_direct v) by lia. apply HP; [unfold NSLOT; lia|auto]. }
  assert (s = 12%nat -> v fb = zero_block) as Hz' by (intros _; apply Hz; lia).
  pose proof (assign_slot v D L i ad s fb Hi Hs Hind' Hf Hz') as E.
  pose proof (assign_slot_other v D L i ad s fb Hi Hs H0 Hind' Hf Hz') as O.
  pose proof (assign_grow v D L i ad s fb Hi Hs H0 Hind' Hf Hz') as G.
  pose proof (assign_block v ad s fb Hs Hind' Hz') as B.
  pose proof (layout_assign v D L i ad s fb Hi Hs H0 Hind' Hf Hz') as L'.
  destruct (assign v ad s fb) as [v' ad'] eqn:Ea. cbn [fst snd] in *.
  assert (0 < fb) by (rewrite nmeta_eq in *; lia).
  split; [|split; [|split; [exact G|split; [|exact E]]]].
  - split; [exact L' | lia | | ].
    + intros j ae t. rewrite lookup_insert. case_decide as Hj; [subst j; intros [= <-] | intros Hj'] ; intros Ht N.
      * destruct (decide (t = s)) as [->|Ht']; [rewrite E; lia|].
        pose proof (O i ad t Hi Ht ltac:(congruence)) as O'. rewrite decide_True in O' by done. rewrite O' in *.
        pose proof (Hu i ad t Hi Ht N). lia.
      * pose proof (O j ae t Hj' Ht ltac:(congruence)) as O'. rewrite decide_False in O' by congruence. rewrite O' in *.
        pose proof (Hu j ae t Hj' Ht N). lia.
    + intros k Hk. destruct (B k) as [[H12 Ek]|Ek]; [|rewrite Ek; apply Hz; lia].
      pose proof (Hu i ad 12%nat Hi ltac:(unfold NSLOT; lia)) as Hb. rewrite slot_direct in Hb by lia.
      specialize (Hb (Hind' H12)). lia.
  - intros t Ht. destruct (Nat.eqb_spec t s) as [->|Ht'].
    + rewrite E, orb_true_r. split; [done|lia].
    + pose proof (O i ad t Hi Ht ltac:(congruence)) as O'. rewrite decide_True in O' by done.
      rewrite O', orb_false_r. by apply HP.
  - intros k Hk. destruct (B k) as [[H12 Ek]|Ek]; [|done].
    pose proof (Hu i ad 12%nat Hi ltac:(unfold NSLOT; lia)) as Hb. rewrite slot_direct in Hb by lia.
    specialize (Hb (Hind' H12)). lia.
Qed.

(** ** One block of a file *)

Definition set_addrs (ad : list Z) (d : dinode) : dinode :=
  Dinode (di_type d) (di_major d) (di_minor d) (di_nlink d) (di_size d) ad.

(** The image while [iappend] works on inode [i], whose copy is [din]. *)
Record at_file (s : mkfs_st) (D : gmap Z (list Z)) (i : Z) (din : dinode) (P : nat -> bool) : Prop := {
  af_rep : rep (mk_img s) (freeblock s) D;
  af_in : D !! i = Some (di_addrs din);
  af_slots : slots (mk_img s) (di_addrs din) P;
  af_len : mk_len s = FSSIZE;
  af_room : freeblock s <= FSSIZE }.

(** What a step that gave slot [n] a block, when it had none, has done. *)
Record took s (D : gmap Z (list Z)) i din (P : nat -> bool) (n : nat) s' din' : Prop := {
  tk_file : at_file s' (<[i := di_addrs din']> D) i din' (fun t => P t || (t =? n)%nat);
  tk_grow : grow (mk_img s) D i (mk_img s') (di_addrs din');
  tk_low : low (mk_img s) (mk_img s');
  tk_free : freeblock s' = freeblock s + (if P n then 0 else 1);
  tk_sb : mk_sb s' = mk_sb s;
  tk_inode : freeinode s' = freeinode s;
  tk_din : din' = set_addrs (di_addrs din') din }.

Lemma took_none s D i din P n : at_file s D i din P -> P n = true -> took s D i din P n s din.
Proof.
  intros A Hn. pose proof A as [R Hi HP Hl Hr]. split; try done.
  - rewrite insert_id by done. split; try done. intros t Ht. rewrite (HP t Ht).
    destruct (Nat.eqb_spec t n) as [->|]; [by rewrite Hn, orb_true_r | by rewrite orb_false_r].
  - by apply grow_refl.
  - rewrite Hn. lia.
  - by destruct din.
Qed.

Lemma slot_byte_range s D i din P t :
  at_file s D i din P -> (t < NSLOT)%nat -> 0 <= slot_addr (mk_img s) (di_addrs din) t < FSSIZE.
Proof.
  intros [R Hi HP Hl Hr] Ht. destruct (decide (slot_addr (mk_img s) (di_addrs din) t = 0)) as [->|N]; [done|].
  pose proof (rp_used _ _ _ R i _ t Hi Ht N) as Hu. rewrite nmeta_eq in Hu. lia.
Qed.

Lemma next_block_run s : 0 <= freeblock s < FSSIZE -> next_block s = Ret (freeblock s) (set_freeblock (freeblock s + 1) s).
Proof.
  intros Hb. unfold next_block, mthen, gets, modify, mreturn. change FSSIZE with 2000 in Hb.
  by rewrite u32_small by lia.
Qed.

Lemma take_addr_run s D i din P n :
  at_file s D i din P -> (n <= 12)%nat -> freeblock s + (if P n then 0 else 1) <= FSSIZE ->
  exists s' din', take_addr n din s = Ret din' s' /\ took s D i din P n s' din'.
Proof.
  intros A Hn Hroom. pose proof A as [R Hi HP Hl Hr]. pose proof (slot_byte_range _ _ _ _ _ n A ltac:(unfold NSLOT; lia)) as Hb.
  specialize (HP n ltac:(unfold NSLOT; lia)) as HPn. rewrite slot_direct in Hb, HPn by done.
  unfold take_addr. rewrite xint_small by (change FSSIZE with 2000 in Hb; lia). destruct (P n) eqn:Epn.
  - destruct (Z.eqb_spec (di_addrs din !!! n) 0) as [E|_]; [by apply HPn in E|].
    exists s, din. split; [done|]. by apply took_none.
  - destruct (Z.eqb_spec (di_addrs din !!! n) 0) as [E|E]; [|apply HPn in E; done].
    pose proof (rp_fb _ _ _ R) as Hm. rewrite nmeta_eq in Hm. rewrite (mthen_ret _ _ _ _ _ (next_block_run s ltac:(lia))).
    change FSSIZE with 2000 in *. rewrite xint_small by lia. eexists _, _. split; [reflexivity|].
    pose proof (rep_assign _ _ _ i _ P n R Hi HP ltac:(unfold NSLOT; lia) Epn ltac:(lia) ltac:(lia)) as S.
    unfold assign, NDIRECT in S. rewrite (proj2 (Nat.leb_le n 12) Hn) in S. destruct S as (R' & HP' & G & Lo & _).
    split; try done; [|simpl; rewrite Epn; lia]. split; try done; simpl; try (by rewrite lookup_insert_eq); lia.
Qed.

(** The entry of the indirect block for slot [13 + k]. *)
Definition take_entry (o : nat) (ind : Z) : K Z :=
  let* indirect := rsect ind in
  let* indirect := (if get_uint o indirect =? 0 then
                      let* b := next_block in
                      let indirect := put 4 o (xint b) indirect in
                      wsect ind indirect ;;;
                      mreturn indirect
                    else mreturn indirect) in
  mreturn (xint (get_uint o indirect)).

Lemma take_entry_run s D i din P n :
  at_file s D i din P -> (12 < n < NSLOT)%nat -> P 12%nat = true -> freeblock s + (if P n then 0 else 1) <= FSSIZE ->
  exists s', take_entry (4 * (n - 13)) (di_addrs din !!! 12%nat) s = Ret (slot_addr (mk_img s') (di_addrs din) n) s'
    /\ took s D i din P n s' din.
Proof.
  intros A Hn H12 Hroom. pose proof A as [R Hi HP Hl Hr].
  pose proof (slot_byte_range _ _ _ _ _ 12 A ltac:(unfold NSLOT; lia)) as Hb. rewrite slot_direct in Hb by done.
  pose proof (slot_byte_range _ _ _ _ _ n A ltac:(lia)) as Hbn.
  assert (di_addrs din !!! 12%nat <> 0) as Hind.
  { rewrite <- (slot_direct (mk_img s)) by lia. apply HP; [unfold NSLOT; lia|done]. }
  pose proof (rp_used _ _ _ R i _ 12%nat Hi ltac:(unfold NSLOT; lia) ltac:(by rewrite slot_direct by lia)) as Hu.
  rewrite slot_direct in Hu by lia. rewrite nmeta_eq in Hu.
  specialize (HP n ltac:(lia)) as HPn. rewrite slot_indirect in Hbn, HPn by (done || lia).
  unfold take_entry. set (ind := di_addrs din !!! 12%nat) in *. change FSSIZE with 2000 in *.
  rewrite (mthen_ret _ _ _ _ _ (rsect_run ind s ltac:(lia) ltac:(lia))).
  destruct (P n) eqn:Epn.
  - destruct (Z.eqb_spec (get_uint (4 * (n - 13)) (mk_img s ind)) 0) as [E|_]; [by apply HPn in E|].
    exists s. split; [|by apply took_none]. unfold mthen, mreturn. rewrite slot_indirect by (done || lia).
    by rewrite xint_small by (fold ind; lia).
  - destruct (Z.eqb_spec (get_uint (4 * (n - 13)) (mk_img s ind)) 0) as [E|E]; [|apply HPn in E; done].
    pose proof (rp_fb _ _ _ R) as Hm. rewrite nmeta_eq in Hm.
    pose proof (rep_assign _ _ _ i _ P n R Hi HP ltac:(lia) Epn ltac:(done) ltac:(lia)) as S.
    unfold assign, NDIRECT in S. rewrite (proj2 (Nat.leb_gt n 12)) in S by lia. fold ind in S. destruct S as (R' & HP' & G & Lo & E').
    set (b' := put 4 (4 * (n - 13)) (freeblock s) (mk_img s ind)) in *.
    exists (set_img (upd (mk_img s) ind b') (mk_len s) (set_freeblock (freeblock s + 1) s)). split.
    + unfold mthen at 1. rewrite (mthen_ret _ _ _ _ _ (next_block_run s ltac:(change FSSIZE with 2000; lia))).
      rewrite xint_small by lia. fold b'. rewrite (mthen_ret _ _ _ _ _ (wsect_run ind b' (set_freeblock (freeblock s + 1) s) ltac:(simpl; lia) ltac:(simpl; lia))).
      unfold mreturn. cbn [mk_img set_img]. rewrite E'.
      assert (get_uint (4 * (n - 13)) b' = freeblock s) as ->.
      { rewrite <- E'. rewrite slot_indirect by (done || lia). fold ind. by rewrite upd_eq. }
      by rewrite xint_small by lia.
    + split; try done; [|simpl; rewrite Epn; lia|by destruct din].
      split; try done; simpl; try (by rewrite lookup_insert_eq); lia.
Qed.

(** ** How much of the tree a size needs *)

(** The first byte for which a slot is needed. *)
Definition slot_start (t : nat) : Z :=
  if (t <? 12)%nat then Z.of_nat t * BSIZE
  else if (t =? 12)%nat then 12 * BSIZE else (Z.of_nat t - 1) * BSIZE.
Definition below (size : Z) (t : nat) : bool := slot_start t <? size.
(** The blocks a file of a given size takes, the indirect block included. *)
Definition need (size : Z) : Z := (size + (BSIZE - 1)) / BSIZE + (if 12 * BSIZE <? size then 1 else 0).

Lemma at_file_ext s D i din P Q :
  at_file s D i din P -> (forall t, (t < NSLOT)%nat -> P t = Q t) -> at_file s D i din Q.
Proof. intros [R Hi HP Hl Hr] E. split; try done. intros t Ht. rewrite (HP t Ht). by rewrite E. Qed.

Ltac slot_arith :=
  unfold below, slot_start, need, data_slot, NSLOT, BSIZE;
  repeat match goal with
         | |- context [(?a <? ?b)%nat] => destruct (Nat.ltb_spec a b)
         | |- context [(?a =? ?b)%nat] => destruct (Nat.eqb_spec a b)
         end; repeat bcase; try dlia.

Lemma below_data size bn : 0 <= bn -> below size (data_slot bn) = (bn * BSIZE <? size).
Proof. intros Hb. unfold data_slot. destruct (Z.ltb_spec bn 12); slot_arith. Qed.

Lemma file_block_run s D i din off off' :
  let bn := off / BSIZE in
  at_file s D i din (below off) -> 0 <= off -> bn < MAXFILE -> off < off' <= (bn + 1) * BSIZE ->
  freeblock s + need off' - need off <= FSSIZE ->
  exists s' din', file_block bn din s = Ret (din', data_block (mk_img s') (di_addrs din') bn) s'
    /\ at_file s' (<[i := di_addrs din']> D) i din' (below off') /\ grow (mk_img s) D i (mk_img s') (di_addrs din')
    /\ low (mk_img s) (mk_img s') /\ freeblock s' = freeblock s + need off' - need off /\ mk_sb s' = mk_sb s /\ freeinode s' = freeinode s
    /\ din' = set_addrs (di_addrs din') din.
Proof.
  intros bn A H0 Hbn Ho Hroom. assert (bn * 1024 <= off < bn * 1024 + 1024) as Hb by (unfold bn, BSIZE; dlia).
  change MAXFILE with 268 in Hbn. unfold BSIZE in Ho. unfold file_block. change (Z.of_nat NDIRECT) with 12.
  destruct (Z.ltb_spec bn 12) as [Hd|Hd].
  - set (n := Z.to_nat bn). assert (below off n = (bn * 1024 <? off)) as En by (unfold n; slot_arith).
    assert (need off' - need off = if below off n then 0 else 1) as Ew.
    { rewrite En. clear A Hroom En. clearbody bn. slot_arith. }
    destruct (take_addr_run s D i din _ n A) as (s1 & d1 & R1 & T1); [lia | rewrite <- Ew; lia |].
    rewrite (mthen_ret _ _ _ _ _ R1). destruct T1 as [A1 G1 W1 F1 B1 I1 E1].
    exists s1, d1. split; [|split; [|split; [done|split; [done|split; [lia|done]]]]].
    + unfold mreturn, data_block, data_slot. rewrite (proj2 (Z.ltb_lt bn 12)) by lia. fold n. rewrite slot_direct by lia.
      pose proof (slot_byte_range _ _ _ _ _ n A1 ltac:(unfold NSLOT; lia)) as Hr. rewrite slot_direct in Hr by lia.
      change FSSIZE with 2000 in Hr. by rewrite xint_small by lia.
    + apply (at_file_ext _ _ _ _ _ _ A1). intros t Ht. clear -Hb Ho Ht Hd H0. unfold NSLOT in Ht. clearbody bn. unfold n. slot_arith.
  - set (n := S (Z.to_nat bn)). assert (need off' - need off = (if below off 12 then 0 else 1) + (if below off n then 0 else 1)) as Ew.
    { clear A Hroom. clearbody bn. unfold n. slot_arith. }
    assert ((n =? 12)%nat = false) as Hn12 by (apply Nat.eqb_neq; lia).
    destruct (take_addr_run s D i din _ 12 A) as (s1 & d1 & R1 & T1); [lia | case_match; case_match; lia |].
    change NDIRECT with 12%nat. rewrite (mthen_ret _ _ _ _ _ R1). destruct T1 as [A1 G1 W1 F1 B1 I1 E1].
    destruct (take_entry_run s1 _ i d1 _ n A1) as (s2 & R2 & [A2 G2 W2 F2 B2 I2 _]).
    { unfold n, NSLOT. lia. } { simpl. by rewrite orb_true_r. }
    { rewrite Hn12, orb_false_r. lia. }
    rewrite Hn12, orb_false_r in F2.
    pose proof (slot_byte_range _ _ _ _ _ 12 A1 ltac:(unfold NSLOT; lia)) as Hr. rewrite slot_direct in Hr by lia.
    change FSSIZE with 2000 in Hr. exists s2, d1. split; [|split; [|split; [by eapply grow_trans|split; [|split; [lia|]]]]].
    + rewrite xint_small by lia. replace (Z.to_nat (4 * (bn - 12))) with (4 * (n - 13))%nat by (unfold n; lia).
      unfold take_entry in R2. unfold data_block, data_slot. rewrite (proj2 (Z.ltb_ge bn 12)) by lia.
      replace (Z.to_nat bn + 1)%nat with n by (unfold n; lia). revert R2. unfold mthen, mreturn.
      destruct (rsect (di_addrs d1 !!! 12%nat) s1); try done. repeat (case_match; try done); congruence.
    + rewrite insert_insert, decide_True in A2 by done. apply (at_file_ext _ _ _ _ _ _ A2).
      intros t Ht. clear -Hb Ho Ht Hd H0. unfold NSLOT in Ht. clearbody bn. unfold n. slot_arith.
    + intros k Hk. by rewrite W2, W1.
    + split; [congruence|]. split; [congruence|done].
Qed.

(** ** The data *)

(** Rewriting a block of the file. *)
Lemma at_file_write s D i din P t b :
  at_file s D i din P -> (t < NSLOT)%nat -> t <> 12%nat -> P t = true -> length b = 1024%nat ->
  let x := slot_addr (mk_img s) (di_addrs din) t in
  let s' := set_img (upd (mk_img s) x b) (mk_len s) s in
  at_file s' D i din P /\ keeps (mk_img s) D i (mk_img s') /\ low (mk_img s) (mk_img s')
  /\ forall u, (u < NSLOT)%nat -> slot_addr (mk_img s') (di_addrs din) u = slot_addr (mk_img s) (di_addrs din) u.
Proof.
  intros [R Hi HP Hl Hr] Ht H12 HPt Hb x s'. assert (x <> 0) as Hx by (by apply HP). pose proof R as [L Hm Hu Hz].
  assert (forall j ae u, D !! j = Some ae -> slot_addr (mk_img s') ae u = slot_addr (mk_img s) ae u) as HW.
  { intros. by apply (slot_write _ D L i _ t b j). }
  destruct (Hu i _ t Hi Ht Hx) as [Hx1 Hx2]. split; [|split; [|split]].
  - split; try done.
    + split; [by apply (layout_write _ D L i) | done | |].
      * intros j ae u Hj Hu'. rewrite (HW j) by done. by apply (Hu j).
      * intros k Hk. simpl in *. rewrite upd_ne by (fold x in Hx2; lia). by apply Hz.
    + intros u Hu'. rewrite (HW i) by done. by apply HP.
  - by apply (write_keeps _ D L i).
  - intros k Hk. simpl. apply upd_ne. fold x in Hx1. lia.
  - intros u Hu'. by apply (HW i).
Qed.

(** ** The loop *)

Record appended s (D : gmap Z (list Z)) i din off n (p : list Z) s' din' : Prop := {
  ap_file : at_file s' (<[i := di_addrs din']> D) i din' (below (off + n));
  ap_keeps : keeps (mk_img s) D i (mk_img s');
  ap_low : low (mk_img s) (mk_img s');
  ap_bytes k : 0 <= k < off + n ->
    byte_at (mk_img s') (di_addrs din') k
    = if k <? off then byte_at (mk_img s) (di_addrs din) k else p !!! Z.to_nat (k - off);
  ap_free : freeblock s' = freeblock s + need (off + n) - need off;
  ap_sb : mk_sb s' = mk_sb s;
  ap_inode : freeinode s' = freeinode s;
  ap_din : din' = set_addrs (di_addrs din') din }.

Lemma appended_trans s D i din off n1 n2 p s1 d1 s2 d2 :
  0 <= off -> 0 <= n1 -> 0 <= n2 ->
  appended s D i din off n1 p s1 d1 ->
  appended s1 (<[i := di_addrs d1]> D) i d1 (off + n1) n2 (drop (Z.to_nat n1) p) s2 d2 ->
  appended s D i din off (n1 + n2) p s2 d2.
Proof.
  intros H0 H1 H2 [A1 K1 W1 B1 F1 S1 I1 E1] [A2 K2 W2 B2 F2 S2 I2 E2].
  rewrite insert_insert, decide_True in A2 by done. rewrite <- Z.add_assoc in *. split; try congruence.
  - by eapply keeps_chain.
  - intros k Hk. by rewrite W2, W1.
  - intros k Hk. rewrite B2 by lia. destruct (Z.ltb_spec k (off + n1)); [apply B1; lia|].
    rewrite (proj2 (Z.ltb_ge k off)) by lia. rewrite lookup_total_drop. f_equal. lia.
  - lia.
  - by rewrite E2 at 1; rewrite E1.
Qed.

(** One iteration of the loop. *)
Lemma iappend_step s D i din off n1 p :
  let bn := off / BSIZE in
  at_file s D i din (below off) -> 0 <= off -> bn < MAXFILE -> 0 < n1 -> off + n1 <= (bn + 1) * BSIZE ->
  n1 <= Z.of_nat (length p) -> freeblock s + need (off + n1) - need off <= FSSIZE ->
  exists s1 din' s',
    file_block bn din s = Ret (din', data_block (mk_img s1) (di_addrs din') bn) s1
    /\ (let x := data_block (mk_img s1) (di_addrs din') bn in
        0 <= x < FSSIZE /\ mk_len s1 = FSSIZE
        /\ s' = set_img (upd (mk_img s1) x (splice (Z.to_nat (off - bn * BSIZE)) (take (Z.to_nat n1) p) (mk_img s1 x))) (mk_len s1) s1)
    /\ appended s D i din off n1 p s' din'.
Proof.
  intros bn A H0 Hbn Hn1 Ho Hp Hroom. assert (bn * 1024 <= off < bn * 1024 + 1024) as Hb by (unfold bn, BSIZE; dlia).
  destruct (file_block_run s D i din off (off + n1) A H0 Hbn ltac:(fold bn; lia) Hroom)
    as (s1 & d1 & R1 & A1 & G1 & W1 & F1 & B1 & I1 & E1). fold bn in R1. unfold BSIZE in Ho.
  destruct (data_slot_range bn ltac:(lia)) as [Hds1 Hds2].
  set (x := data_block (mk_img s1) (di_addrs d1) bn). set (xs := take (Z.to_nat n1) p).
  assert (length xs = Z.to_nat n1) as Hxs by (unfold xs; rewrite length_take; lia).
  set (b' := splice (Z.to_nat (off - bn * BSIZE)) xs (mk_img s1 x)).
  assert (length (mk_img s1 x) = 1024%nat) as Hlx by apply (af_rep _ _ _ _ _ A1).
  assert (length b' = 1024%nat) as Hlb by (unfold b', BSIZE; rewrite length_splice; lia).
  assert (below (off + n1) (data_slot bn) = true) as Hbel
    by (rewrite below_data by lia; apply Z.ltb_lt; unfold BSIZE; lia).
  destruct (at_file_write s1 _ i d1 _ _ b' A1 Hds1 Hds2 Hbel Hlb) as (A2 & K2 & V2 & _).
  change (slot_addr (mk_img s1) (di_addrs d1) (data_slot bn)) with x in A2, K2, V2.
  exists s1, d1. eexists. split; [exact R1|]. split.
  { split; [by apply (slot_byte_range _ _ _ _ _ _ A1)|]. split; [apply A1|reflexivity]. }
  fold x xs b'. split; try done.
  - eapply keeps_chain; [by apply (grow_keeps _ _ _ _ _ G1) | exact K2].
  - intros k Hk. by rewrite V2, W1.
  - intros k Hk. assert (0 <= k / BSIZE <= bn) as Hkb by (unfold BSIZE; dlia).
    pose proof (rp_layout _ _ _ (af_rep _ _ _ _ _ A1)) as L1. change (MAXFILE) with 268 in *.
    assert (x <> 0) as Hx by (by apply (af_slots _ _ _ _ _ A1)).
    cbn [mk_img set_img]. unfold b', x.
    rewrite (write_bytes (mk_img s) (mk_img s1) D i (di_addrs din) (di_addrs d1) bn (off - bn * BSIZE) xs k);
      rewrite ?Hxs; try done; try (change MAXFILE with 268; unfold BSIZE in *; lia); [| apply A |].
    + unfold BSIZE. replace (bn * 1024 + (off - bn * 1024)) with off by lia.
      destruct (Z.leb_spec off k), (Z.ltb_spec k off), (Z.ltb_spec k (off + Z.of_nat (Z.to_nat n1))); cbn [andb]; try lia; try done.
      unfold xs. rewrite lookup_total_take_lt by lia. done.
    + destruct (decide (off <= k)); [left; unfold BSIZE; lia | right]. apply (af_slots _ _ _ _ _ A).
      * apply data_slot_range. change MAXFILE with 268. lia.
      * rewrite below_data by lia. apply Z.ltb_lt. unfold BSIZE. dlia.
Qed.

Lemma iappend_loop_run fuel : forall s D i din off p n,
  at_file s D i din (below off) -> 0 <= off -> 0 <= n <= Z.of_nat (length p) -> off + n <= MAXFILE * BSIZE ->
  freeblock s + need (off + n) - need off <= FSSIZE -> n < Z.of_nat fuel ->
  exists s' din', iappend_loop fuel din off p n s = Ret (din', off + n) s' /\ appended s D i din off n p s' din'.
Proof.
  induction fuel as [|fuel IH]; intros s D i din off p n A H0 Hn Hmax Hroom Hf; [lia|].
  cbn [iappend_loop]. rewrite Z.gtb_ltb. destruct (Z.ltb_spec 0 n) as [Hp|Hp].
  - cbn [negb]. change (MAXFILE * BSIZE) with 274432 in Hmax.
    assert (off / BSIZE < MAXFILE) as Hbn by (unfold BSIZE; change MAXFILE with 268; dlia).
    rewrite (proj2 (Z.ltb_lt _ _) Hbn). cbn [negb].
    set (bn := off / BSIZE) in *. assert (bn * 1024 <= off < bn * 1024 + 1024) as Hb by (unfold bn, BSIZE; dlia).
    rewrite (u32_small ((bn + 1) * BSIZE - off)) by (unfold BSIZE; lia).
    set (n1 := n `min` ((bn + 1) * BSIZE - off)). assert (0 < n1 <= n) by (unfold n1, BSIZE; lia).
    assert (need (off + n1) <= need (off + n)) as Hw by (clear -H H0; slot_arith).
    destruct (iappend_step s D i din off n1 p A H0 Hbn) as (s1 & d1 & s2 & R1 & (Hx & Hl & E2) & Ap);
      [lia | unfold n1; fold bn; lia | lia | lia |]. fold bn in R1, Hx, E2.
    rewrite (mthen_ret _ _ _ _ _ R1). cbn [fst snd]. change FSSIZE with 2000 in *.
    set (x := data_block _ _ bn) in *. rewrite (mthen_ret _ _ _ _ _ (rsect_run x s1 ltac:(lia) ltac:(lia))).
    set (b' := splice _ _ (mk_img s1 x)) in *.
    rewrite (mthen_ret _ _ _ _ _ (wsect_run x b' s1 ltac:(lia) ltac:(lia))). rewrite <- E2.
    rewrite u32_small by lia. destruct (IH s2 _ i d1 (off + n1) (drop (Z.to_nat n1) p) (n - n1) (ap_file _ _ _ _ _ _ _ _ _ Ap))
      as (s3 & d3 & R3 & Ap3); [lia | rewrite length_drop; lia | change (MAXFILE * BSIZE) with 274432; lia | | lia |].
    { rewrite (ap_free _ _ _ _ _ _ _ _ _ Ap). replace (off + n1 + (n - n1)) with (off + n) by lia. change FSSIZE with 2000. lia. }
    exists s3, d3. split; [rewrite R3; do 2 f_equal; lia|].
    replace n with (n1 + (n - n1)) at 1 by lia. eapply appended_trans; [lia|lia|lia|exact Ap|exact Ap3].
  - cbn [negb]. assert (n = 0) as -> by lia. exists s, din. rewrite Z.add_0_r. split; [done|]. split; try done.
    + rewrite insert_id by apply A. by rewrite Z.add_0_r.
    + intros k Hk. by rewrite (proj2 (Z.ltb_lt k off)) by lia.
    + by rewrite Z.add_0_r; lia.
    + by destruct din.
Qed.
