(* ===== verification/MkfsImage.v ===== *)
(** The image mkfs builds, as a list of files: [ialloc] adds an empty file at
    the end of the list and [iappend] bytes at the end of one file. *)

From S2P Require Import Prelude.
From S2P Require Import Bytes.
From S2P Require Import BlockCache.
From S2P Require Import Fs.
From S2P Require Import FsInode.
From S2P Require Import FsContent.
From S2P Require Import Mkfs.
From S2P Require Import MkfsAppend.

(** Inodes the inode blocks have room for. *)
Definition INODE_ROOM : Z := ninodeblocks * IPB.
Definition inode_block (k : Z) : Prop := 33 <= k < 46.

(** The image holds the inodes [D]. *)
Record image (s : mkfs_st) (D : gmap Z dinode) : Prop := {
  im_len : mk_len s = FSSIZE;
  im_room : freeblock s <= FSSIZE;
  im_sb : mk_sb s = mkfs_sb;
  im_rep : rep (mk_img s) (freeblock s) (di_addrs <$> D);
  im_dom i d : D !! i = Some d -> 1 <= i < freeinode s;
  im_free : 1 <= freeinode s <= INODE_ROOM;
  im_disk i d : D !! i = Some d ->
    get_dinode (dinode_off i) (mk_img s (IBLOCK i mkfs_sb)) = d /\ dinode_ok d;
  im_slots i d : D !! i = Some d -> slots (mk_img s) (di_addrs d) (below (di_size d));
  im_size i d : D !! i = Some d -> di_size d <= MAXFILE * BSIZE }.

Lemma IBLOCK_eq i : IBLOCK i mkfs_sb = i / 16 + 33.
Proof. reflexivity. Qed.
Lemma INODE_ROOM_eq : INODE_ROOM = 208.
Proof. reflexivity. Qed.
Lemma inode_block_range i : 1 <= i < INODE_ROOM -> inode_block (IBLOCK i mkfs_sb).
Proof. rewrite INODE_ROOM_eq, IBLOCK_eq. unfold inode_block. intros. dlia. Qed.

(** ** Reading and writing an inode of the image *)

Lemma rinode_run s D i d : image s D -> D !! i = Some d -> rinode i s = Ret d s.
Proof.
  intros I Hi. pose proof (im_dom _ _ I _ _ Hi) as Hd. pose proof (im_free _ _ I) as Hf. rewrite INODE_ROOM_eq in Hf.
  pose proof (inode_block_range i ltac:(rewrite INODE_ROOM_eq; lia)) as Hb. unfold inode_block in Hb.
  unfold rinode. rewrite mthen_gets, (im_sb _ _ I).
  rewrite (mthen_ret _ _ _ _ _ (rsect_run (IBLOCK i mkfs_sb) s ltac:(rewrite (im_len _ _ I); change FSSIZE with 2000; lia)
    ltac:(rewrite (im_len _ _ I); change FSSIZE with 2000; lia))).
  unfold mreturn. by destruct (im_disk _ _ I _ _ Hi) as [-> _].
Qed.

(** Writing one inode leaves the others and everything else. *)
Lemma winode_run s i d :
  mk_len s = FSSIZE -> mk_sb s = mkfs_sb -> 1 <= i < INODE_ROOM -> (forall k, length (mk_img s k) = 1024%nat) -> dinode_ok d ->
  exists f, winode i d s = Ret tt (set_img f FSSIZE s)
    /\ (forall k, ~ inode_block k -> f k = mk_img s k)
    /\ (forall k, length (f k) = 1024%nat)
    /\ get_dinode (dinode_off i) (f (IBLOCK i mkfs_sb)) = d
    /\ forall j, 1 <= j < INODE_ROOM -> j <> i ->
         get_dinode (dinode_off j) (f (IBLOCK j mkfs_sb)) = get_dinode (dinode_off j) (mk_img s (IBLOCK j mkfs_sb)).
Proof.
  intros Hl Hsb Hi Hw Hd. pose proof (inode_block_range i Hi) as Hb. unfold inode_block in Hb.
  pose proof (dinode_off_bound i ltac:(lia)) as Ho.
  exists (upd (mk_img s) (IBLOCK i mkfs_sb) (put_dinode (dinode_off i) d (mk_img s (IBLOCK i mkfs_sb)))).
  change FSSIZE with 2000 in *. split; [|split; [|split; [|split]]].
  - unfold winode. rewrite mthen_gets, Hsb.
    rewrite (mthen_ret _ _ _ _ _ (rsect_run (IBLOCK i mkfs_sb) s ltac:(lia) ltac:(lia))).
    rewrite (wsect_run (IBLOCK i mkfs_sb) _ s) by lia. by rewrite Hl.
  - intros k Hk. apply upd_ne. intros ->. apply Hk. done.
  - intros k. unfold upd. bcase; [|apply Hw]. rewrite put_dinode_length; rewrite Hw; lia.
  - rewrite upd_eq. apply get_put_dinode; [rewrite Hw; lia | done].
  - intros j Hj Hne. unfold upd. bcase; [|done]. rewrite get_put_dinode_other, e; [done | rewrite Hw; lia|].
    destruct (dinode_off_apart i j mkfs_sb); [lia | lia | by rewrite e | done | by left | by right].
Qed.

Lemma data_not_inode k : k = 0 \/ nmeta <= k -> ~ inode_block k.
Proof. rewrite nmeta_eq. unfold inode_block. lia. Qed.

(** The part of the image above the inode blocks is the same. *)
Lemma rep_low v f fb D :
  rep v fb D -> (forall k, length (f k) = 1024%nat) -> (forall k, k = 0 \/ nmeta <= k -> f k = v k) ->
  rep f fb D /\ forall j ae t, D !! j = Some ae -> (t < NSLOT)%nat ->
    slot_addr f ae t = slot_addr v ae t /\ (f (slot_addr v ae t) = v (slot_addr v ae t)).
Proof.
  intros [L Hm Hu Hz] Hw Hk.
  assert (forall j ae t, D !! j = Some ae -> (t < NSLOT)%nat -> f (slot_addr v ae t) = v (slot_addr v ae t)) as Hb.
  { intros j ae t Hj Ht. apply Hk. destruct (decide (slot_addr v ae t = 0)) as [|N]; [by left|right].
    pose proof (Hu j ae t Hj Ht N). lia. }
  assert (forall j ae t, D !! j = Some ae -> slot_addr f ae t = slot_addr v ae t) as Hs.
  { intros j ae t Hj. apply slot_ext. intros _. rewrite <- (slot_direct v) by lia. apply (Hb j); [done|unfold NSLOT; lia]. }
  split; [|intros j ae t Hj Ht; split; [by apply (Hs j)|by apply (Hb j)]]. split.
  - split; [done | apply L |]. intros i j ad ae s t Hi Hj. rewrite (Hs i), (Hs j) by done. by apply (ly_inj _ _ L).
  - done.
  - intros j ae t Hj. rewrite (Hs j) by done. by apply (Hu j).
  - intros k Hk'. rewrite Hk; [by apply Hz|]. lia.
Qed.

(** ** The operations on the image *)

Definition frame (s : mkfs_st) (D : gmap Z dinode) (i : Z) (s' : mkfs_st) : Prop :=
  (forall j e, D !! j = Some e -> j <> i -> content (mk_img s') e = content (mk_img s) e)
  /\ forall k, k < nmeta -> ~ inode_block k -> mk_img s' k = mk_img s k.

(** Writing back the copy [d'] of inode [i] completes the change of its
    blocks. *)
Lemma image_winode s1 (D : gmap Z dinode) i d' :
  mk_len s1 = FSSIZE -> mk_sb s1 = mkfs_sb -> freeblock s1 <= FSSIZE -> 1 <= freeinode s1 <= INODE_ROOM ->
  1 <= i < freeinode s1 -> rep (mk_img s1) (freeblock s1) (di_addrs <$> <[i := d']> D) ->
  (forall j e, D !! j = Some e -> j <> i -> 1 <= j < freeinode s1 /\ dinode_ok e /\ di_size e <= MAXFILE * BSIZE
     /\ get_dinode (dinode_off j) (mk_img s1 (IBLOCK j mkfs_sb)) = e
     /\ slots (mk_img s1) (di_addrs e) (below (di_size e))) ->
  dinode_ok d' -> di_size d' <= MAXFILE * BSIZE -> slots (mk_img s1) (di_addrs d') (below (di_size d')) ->
  exists s', winode i d' s1 = Ret tt s' /\ image s' (<[i := d']> D) /\ freeblock s' = freeblock s1
    /\ freeinode s' = freeinode s1 /\ (forall k, ~ inode_block k -> mk_img s' k = mk_img s1 k)
    /\ forall j e, <[i := d']> D !! j = Some e -> content (mk_img s') e = content (mk_img s1) e.
Proof.
  intros Hl Hsb Hr Hfi Hi R Ho Hok Hsz Hsl.
  destruct (winode_run s1 i d' Hl Hsb ltac:(lia) (ly_whole _ _ (rp_layout _ _ _ R)) Hok) as (f & Rw & Fk & Fl & Fd & Fo).
  destruct (rep_low _ f _ _ R Fl) as (R' & Hsame); [intros k Hk; apply Fk, data_not_inode, Hk|].
  assert (forall j e, <[i:=d']> D !! j = Some e -> (di_addrs <$> <[i:=d']> D) !! j = Some (di_addrs e)) as Hfm.
  { intros j e He. by rewrite lookup_fmap, He. }
  assert (forall j e, <[i:=d']> D !! j = Some e ->
    1 <= j < freeinode s1 /\ dinode_ok e /\ di_size e <= MAXFILE * BSIZE
    /\ get_dinode (dinode_off j) (f (IBLOCK j mkfs_sb)) = e /\ slots (mk_img s1) (di_addrs e) (below (di_size e))) as Hall.
  { intros j e. rewrite lookup_insert. case_decide as Hj; [subst j; by intros [= <-]|]. intros He.
    destruct (Ho j e He ltac:(congruence)) as (? & ? & ? & Hg & ?). do 3 (split; [done|]). split; [|done].
    rewrite Fo; [done|lia|congruence]. }
  exists (set_img f FSSIZE s1). split; [done|]. split; [|split; [done|split; [done|split; [done|]]]].
  - split; try done.
    + intros j e He. by destruct (Hall j e He).
    + intros j e He. by destruct (Hall j e He) as (? & ? & ? & ? & ?).
    + intros j e He t Ht. destruct (Hsame j _ t (Hfm j e He) Ht) as [E _]. simpl. rewrite E. by apply (Hall j e He).
    + intros j e He. by destruct (Hall j e He) as (? & ? & ? & ? & ?).
  - intros j e He. apply content_ext; [| |by apply (Hall j e He)].
    + intros t Ht. by apply (Hsame j _ t (Hfm j e He)).
    + intros t Ht _. by apply (Hsame j _ t (Hfm j e He)).
Qed.

Lemma insert_fmap_addrs (D : gmap Z dinode) i d : di_addrs <$> <[i := d]> D = <[i := di_addrs d]> (di_addrs <$> D).
Proof. apply fmap_insert. Qed.

Lemma at_file_dinode s D i din P d :
  at_file s D i din P -> dinode_ok d -> forall z, 0 <= z < 2 ^ 32 -> dinode_ok (set_size z (set_addrs (di_addrs din) d)).
Proof.
  intros A [K1 K2 K3 K4 K5 K6 K7] z Hz. pose proof (ly_len _ _ (rp_layout _ _ _ (af_rep _ _ _ _ _ A)) _ _ (af_in _ _ _ _ _ A)) as Hl.
  split; try done. apply Forall_lookup. intros k a Ha. pose proof (lookup_lt_Some _ _ _ Ha) as Hk. cbn in Ha, Hk. rewrite Hl in Hk.
  pose proof (slot_byte_range _ _ _ _ _ k A ltac:(unfold NSLOT; lia)) as Hb. rewrite slot_direct in Hb by lia.
  rewrite (list_lookup_total_correct _ _ _ Ha) in Hb. change FSSIZE with 2000 in Hb. lia.
Qed.

(** [iappend] adds the bytes at the end of one file. *)
Lemma iappend_run s D i d p n :
  image s D -> D !! i = Some d -> 0 <= n <= Z.of_nat (length p) -> di_size d + n <= MAXFILE * BSIZE ->
  freeblock s + need (di_size d + n) - need (di_size d) <= FSSIZE ->
  exists s' d', iappend i p n s = Ret tt s' /\ image s' (<[i := d']> D)
    /\ content (mk_img s') d' = content (mk_img s) d ++ take (Z.to_nat n) p
    /\ di_size d' = di_size d + n /\ di_type d' = di_type d /\ di_nlink d' = di_nlink d
    /\ freeblock s' = freeblock s + need (di_size d + n) - need (di_size d) /\ freeinode s' = freeinode s
    /\ frame s D i s'.
Proof.
  intros I Hi Hn Hmax Hroom. destruct (im_disk _ _ I _ _ Hi) as [Hg Hok]. pose proof (dk_size _ Hok) as Hsz.
  change (MAXFILE * BSIZE) with 274432 in *.
  assert (at_file s (di_addrs <$> D) i d (below (di_size d))) as A.
  { split; [apply I | by rewrite lookup_fmap, Hi | by apply (im_slots _ _ I i) | apply I | apply I]. }
  destruct (iappend_loop_run (S (Z.to_nat n)) s _ i d (di_size d) p n A) as (s1 & d1 & R1 & Ap);
    [lia | lia | change (MAXFILE * BSIZE) with 274432; lia | done | lia |].
  destruct Ap as [A1 K1 W1 B1 F1 Sb1 I1 E1].
  set (d' := set_size (di_size d + n) d1).
  pose proof (at_file_dinode _ _ _ _ _ d A1 Hok (di_size d + n) ltac:(lia)) as Hok'. rewrite <- E1 in Hok'. fold d' in Hok'.
  destruct (image_winode s1 D i d') as (s' & Rw & I' & Fb & Fi & Fk & Fc); try done.
  { apply A1. } { rewrite Sb1. apply I. } { apply A1. } { rewrite I1. apply I. }
  { rewrite I1. by apply (im_dom _ _ I _ d). } { rewrite insert_fmap_addrs. apply A1. }
  { intros j e He Hne. assert ((di_addrs <$> D) !! j = Some (di_addrs e)) as Hje by (by rewrite lookup_fmap, He).
    pose proof (im_dom _ _ I _ _ He) as Hdom. pose proof (im_free _ _ I) as Hfree. destruct (im_disk _ _ I _ _ He) as [Hgj Hokj].
    rewrite I1. split; [done|]. split; [done|]. split; [by apply (im_size _ _ I j)|]. split.
    - pose proof (inode_block_range j ltac:(lia)) as [? ?]. rewrite W1; [done|rewrite nmeta_eq; lia].
    - intros t Ht. rewrite (kp_slot _ _ _ _ K1 j _ t) by done. by apply (im_slots _ _ I j). }
  { apply A1. }
  exists s', d'. split.
  { unfold iappend. rewrite (mthen_ret _ _ _ _ _ (rinode_run s D i d I Hi)). rewrite xint_small by lia.
    rewrite (mthen_ret _ _ _ _ _ R1). simpl. by rewrite xint_small by lia. }
  split; [done|]. split.
  { rewrite (Fc i d') by (by rewrite lookup_insert_eq). apply list_eq. intros k.
    destruct (decide (k < Z.to_nat (di_size d + n))%nat) as [Hk|Hk].
    - rewrite content_total by done. simpl. rewrite B1 by lia. rewrite lookup_app. destruct (Z.ltb_spec (Z.of_nat k) (di_size d)).
      + by rewrite content_total by lia.
      + rewrite (proj2 (lookup_ge_None _ _)) by (rewrite content_length; lia). rewrite content_length, lookup_take_lt by lia.
        replace (Z.to_nat (Z.of_nat k - di_size d)) with (k - Z.to_nat (di_size d))%nat by lia.
        symmetry. apply list_lookup_lookup_total_lt. lia.
    - rewrite (proj2 (lookup_ge_None _ _)) by (rewrite content_length; simpl; lia). symmetry. apply lookup_ge_None.
      rewrite length_app, content_length, length_take. lia. }
  split; [done|]. split; [by unfold d'; rewrite E1|]. split; [by unfold d'; rewrite E1|]. split; [by rewrite Fb|]. split; [by rewrite Fi|]. split.
  - intros j e He Hne. rewrite (Fc j e) by (by rewrite lookup_insert_ne).
    assert ((di_addrs <$> D) !! j = Some (di_addrs e)) as Hje by (by rewrite lookup_fmap, He).
    apply content_ext; [| |by apply (im_size _ _ I j)]; intros t Ht.
    + by apply (kp_slot _ _ _ _ K1 j).
    + intros. by apply (kp_data _ _ _ _ K1 j).
  - intros k Hk Hnk. rewrite Fk by done. by apply W1.
Qed.
