(* ===== verification/MkfsThm.v ===== *)
(** What mkfs writes: the files it was given, in order, under the root
    directory, with the superblock and the bitmap that go with them. *)

From S2P Require Import Prelude.
From S2P Require Import Bytes.
From S2P Require Import BlockCache.
From S2P Require Import Fs.
From S2P Require Import FsDir.
From S2P Require Import FsBlocks.
From S2P Require Import FsInode.
From S2P Require Import FsContent.
From S2P Require Import FsRead.
From S2P Require Import Mkfs.
From S2P Require Import MkfsAppend.
From S2P Require Import MkfsImage.

(** ** The image as a list of files *)

(** Blocks the files take; a file is its type and its bytes. *)
Definition blocks (C : list (Z * list Z)) : Z := foldr (fun f acc => need (Z.of_nat (length f.2)) + acc) 0 C.

(** The files of the image, from inode 1 on. *)
Definition holds (s : mkfs_st) (C : list (Z * list Z)) : Prop :=
  freeinode s = Z.of_nat (length C) + 1 /\ freeblock s = nmeta + blocks C
  /\ mk_img s 1 = put_superblock mkfs_sb
  /\ exists D, image s D /\ forall k ty c, C !! k = Some (ty, c) ->
       exists d, D !! (Z.of_nat k + 1) = Some d /\ di_type d = ty /\ di_nlink d = 1 /\ content (mk_img s) d = c.

Lemma need_range n : 0 <= n -> 0 <= need n.
Proof. intros. unfold need, BSIZE. bcase; dlia. Qed.
Lemma need_mono m n : 0 <= m <= n -> need m <= need n.
Proof. intros. unfold need, BSIZE. repeat bcase; dlia. Qed.

Lemma blocks_app C C' : blocks (C ++ C') = blocks C + blocks C'.
Proof. unfold blocks. induction C as [|f C IH]; simpl; [lia|]. rewrite IH. lia. Qed.
Lemma blocks_nonneg C : 0 <= blocks C.
Proof. induction C as [|f C IH]; simpl; [lia|]. unfold blocks in *. pose proof (need_range (Z.of_nat (length f.2))). lia. Qed.
Lemma blocks_insert C k ty c ty' c' :
  C !! k = Some (ty, c) -> blocks (<[k := (ty', c')]> C) = blocks C + need (Z.of_nat (length c')) - need (Z.of_nat (length c)).
Proof.
  intros Hk. rewrite <- (take_drop_middle C k (ty, c) Hk) at 2.
  rewrite insert_take_drop by (by eapply lookup_lt_Some). rewrite !blocks_app.
  change (blocks (?x :: ?l)) with (need (Z.of_nat (length x.2)) + blocks l). simpl. lia.
Qed.

Lemma holds_iappend s C k ty c p :
  holds s C -> C !! k = Some (ty, c) -> Z.of_nat (length c + length p) <= MAXFILE * BSIZE ->
  nmeta + blocks C + need (Z.of_nat (length c + length p)) - need (Z.of_nat (length c)) <= FSSIZE ->
  exists s', iappend (Z.of_nat k + 1) p (Z.of_nat (length p)) s = Ret tt s' /\ holds s' (<[k := (ty, c ++ p)]> C).
Proof.
  intros (Hfi & Hfb & Hsb & D & I & Hc) Hk Hmax Hroom. destruct (Hc _ _ _ Hk) as (d & Hd & Hty & Hnl & Hcd).
  assert (di_size d = Z.of_nat (length c)) as Hsz.
  { rewrite <- Hcd, content_length. pose proof (dk_size _ (proj2 (im_disk _ _ I _ _ Hd))). lia. }
  destruct (iappend_run s D _ d p (Z.of_nat (length p)) I Hd ltac:(lia)) as (s' & d' & R & I' & C' & Z' & T' & N' & F' & Fi' & Fr1 & Fr2).
  { rewrite Hsz. lia. } { rewrite Hsz, Hfb. rewrite <- Nat2Z.inj_add. lia. }
  exists s'. split; [done|]. split; [by rewrite Fi', length_insert|]. split.
  { rewrite F', Hfb, Hsz, (blocks_insert C k ty c) by done. rewrite length_app, <- Nat2Z.inj_add. lia. }
  split. { rewrite Fr2; [done | rewrite nmeta_eq; lia | unfold inode_block; lia]. }
  exists (<[Z.of_nat k + 1 := d']> D). split; [done|]. intros j ty' c' Hj. destruct (decide (j = k)) as [->|Hne].
  - rewrite list_lookup_insert_eq in Hj by (by eapply lookup_lt_Some). injection Hj as <- <-.
    exists d'. rewrite lookup_insert_eq. rewrite C', Hcd, Nat2Z.id, firstn_all. by rewrite T', N'.
  - rewrite list_lookup_insert_ne in Hj by done. destruct (Hc _ _ _ Hj) as (e & He & ? & ? & Hce). exists e.
    rewrite lookup_insert_ne by lia. do 3 (split; [done|]). rewrite (Fr1 (Z.of_nat j + 1)); [done|done|lia].
Qed.

(** A new inode has no block. *)
Definition empty_inode (ty : Z) : dinode := Dinode ty 0 0 1 0 (replicate 13 0).

Lemma empty_slot v t : (t < NSLOT)%nat -> slot_addr v (replicate 13 0) t = 0.
Proof.
  intros Ht. destruct (decide (t <= 12)%nat).
  - rewrite slot_direct by done. apply list_lookup_total_correct, lookup_replicate. lia.
  - by apply slot_absent; [lia|].
Qed.

Lemma rep_empty v fb D i : rep v fb D -> D !! i = None -> rep v fb (<[i := replicate 13 0]> D).
Proof.
  intros [L Hm Hu Hz] Hi.
  assert (forall j ae t, <[i:=replicate 13 0]> D !! j = Some ae -> (t < NSLOT)%nat -> slot_addr v ae t <> 0 -> D !! j = Some ae) as Hold.
  { intros j ae t. rewrite lookup_insert. case_decide; [|done]. intros [= <-] Ht N. by rewrite empty_slot in N. }
  split; try done.
  - split; [apply L| |].
    + intros j ae. rewrite lookup_insert. case_decide; [by intros [= <-]|apply L].
    + intros j k ae be s t Hj Hk Hs Ht N E. apply (ly_inj _ _ L j k ae be); try done; [exact (Hold j ae s Hj Hs N)|].
      apply (Hold k be t Hk Ht). by rewrite <- E.
  - intros j ae t Hj Ht N. apply (Hu j); [exact (Hold j ae t Hj Ht N)|exact Ht|exact N].
Qed.

Lemma holds_ialloc s C ty :
  holds s C -> Z.of_nat (length C) + 2 <= INODE_ROOM -> 0 <= ty < 2 ^ 15 ->
  exists s', ialloc ty s = Ret (Z.of_nat (length C) + 1) s' /\ holds s' (C ++ [(ty, [])]).
Proof.
  intros (Hfi & Hfb & Hsb & D & I & Hc) Hn Hty. rewrite INODE_ROOM_eq in Hn.
  set (i := freeinode s). set (d' := empty_inode ty). set (s1 := set_freeinode (i + 1) s).
  assert (D !! i = None) as Hi.
  { destruct (D !! i) as [e|] eqn:E; [|done]. pose proof (im_dom _ _ I _ _ E). unfold i in *. lia. }
  destruct (image_winode s1 D i d') as (s' & Rw & I' & Fb & Fi & Fk & Fc).
  { apply I. } { apply I. } { apply I. }
  { rewrite INODE_ROOM_eq. simpl. unfold i. lia. } { simpl. unfold i. lia. }
  { rewrite insert_fmap_addrs. apply rep_empty; [apply I|]. by rewrite lookup_fmap, Hi. }
  { intros j e He Hne. pose proof (im_dom _ _ I _ _ He). destruct (im_disk _ _ I _ _ He). simpl. fold i in H.
    split; [lia|]. split; [done|]. split; [by apply (im_size _ _ I j)|]. split; [done|by apply (im_slots _ _ I j)]. }
  { split; simpl; try lia; try done. repeat constructor; lia. }
  { done. }
  { intros t Ht. simpl. rewrite empty_slot by done. assert (below 0 t = false) as -> by slot_arith. done. }
  exists s'. split.
  { unfold ialloc. rewrite mthen_gets. fold i. rewrite u32_small by (unfold i; lia). rewrite mthen_modify. fold s1.
    rewrite !xshort_small, xint_small by lia. change (Dinode ty 0 0 1 0 _) with d'. rewrite (mthen_ret _ _ _ _ _ Rw).
    unfold mreturn. unfold i. by rewrite Hfi. }
  split; [rewrite Fi, length_app; simpl; unfold i; lia|]. split; [rewrite Fb, blocks_app; change (blocks [(ty, [])]) with 0; simpl; lia|].
  split; [rewrite Fk; [done|unfold inode_block; lia]|].
  exists (<[i := d']> D). split; [done|]. intros k ty' c' Hk. destruct (decide (k < length C)%nat) as [Hlt|Hge].
  - rewrite lookup_app_l in Hk by done. destruct (Hc _ _ _ Hk) as (e & He & ? & ? & Hce). exists e.
    rewrite lookup_insert_ne by (unfold i; lia). do 3 (split; [done|]). rewrite (Fc (Z.of_nat k + 1)); [done|].
    rewrite lookup_insert_ne by (unfold i; lia). done.
  - rewrite lookup_app_r in Hk by lia. destruct (k - length C)%nat eqn:Ek; [|done]. injection Hk as <- <-.
    replace (Z.of_nat k + 1) with i by (unfold i; lia). exists d'. by rewrite lookup_insert_eq.
Qed.

(** ** The parts of main *)

Definition blank (s : mkfs_st) (n : nat) : Prop :=
  (forall k, mk_img s k = zero_block) /\ mk_len s = Z.of_nat n /\ mk_sb s = mkfs_sb /\ freeinode s = 1 /\ freeblock s = nmeta.

Lemma init_image_run : exists s, init_image mkfs_start = Ret tt s /\ holds s [].
Proof.
  unfold init_image. rewrite !mthen_modify.
  destruct (mfor_inv (fun i s => blank s i) (fun i => wsect (Z.of_nat i) zero_block) (Z.to_nat FSSIZE)
    (set_freeblock nmeta (set_mk_sb mkfs_sb mkfs_start))) as (s & R & Hi & Hl & Hsb & Hfi & Hfb).
  { done. }
  { intros i s Hi (Hz & Hl & ? & ? & ?). change (Z.to_nat FSSIZE) with 2000%nat in Hi. unfold wsect, modify.
    eexists. split; [reflexivity|]. rewrite sector_small by lia. split; [|split; [simpl; lia|done]].
    intros k. simpl. unfold upd. by bcase. }
  rewrite (mthen_ret _ _ _ _ _ R). assert (mk_len s = 2000) as Hl' by (rewrite Hl; reflexivity).
  rewrite (wsect_run 1 _ s) by lia. eexists. split; [reflexivity|].
  split; [done|]. split; [by rewrite Z.add_0_r|]. split; [simpl; apply upd_eq|]. exists ∅. split; [|done].
  split; cbn [mk_img mk_len mk_sb freeblock freeinode set_img]; [exact Hl' | | exact Hsb | | by intros | | by intros | by intros | by intros].
  - by rewrite Hfb.
  - rewrite fmap_empty, Hfb. split; [split; [|by intros|by intros] | lia | by intros |].
    + intros k. unfold upd. bcase; [done|]. by rewrite Hi.
    + intros k Hk. rewrite nmeta_eq in Hk. rewrite upd_ne by lia. apply Hi.
  - rewrite Hfi. by rewrite INODE_ROOM_eq.
Qed.

(** The bytes of a directory entry. *)
Definition entry (name : list Z) (inum : Z) : list Z := put_dirent (Dirent inum (str_ncpy DIRSIZ name)).

#[global] Arguments entry : simpl never.

Lemma entry_length name inum : length (entry name inum) = 16%nat.
Proof. unfold entry, put_dirent. cbn [de_inum de_name]. by rewrite length_app, length_le_bytes, str_ncpy_length. Qed.

Lemma holds_add_dirent s ty c C name inum :
  holds s ((ty, c) :: C) -> 0 <= inum < 2 ^ 16 -> Z.of_nat (length c + 16) <= MAXFILE * BSIZE ->
  nmeta + blocks ((ty, c ++ entry name inum) :: C) <= FSSIZE ->
  exists s', add_dirent ROOTINO inum name s = Ret tt s' /\ holds s' ((ty, c ++ entry name inum) :: C).
Proof.
  intros H Hi Hmax Hroom. unfold add_dirent. rewrite xshort_small by done. fold (entry name inum).
  destruct (holds_iappend s _ 0 ty c (entry name inum) H eq_refl) as (s' & R & H'); rewrite ?entry_length; [done| |].
  { revert Hroom. unfold blocks. simpl. rewrite length_app, entry_length. lia. }
  rewrite entry_length in R. by exists s'.
Qed.

(** The successive reads of one file. *)
Lemma holds_reads reads : forall s C k ty c,
  holds s C -> C !! k = Some (ty, c) -> Z.of_nat (length c + length (concat reads)) <= MAXFILE * BSIZE ->
  nmeta + blocks C + need (Z.of_nat (length c + length (concat reads))) - need (Z.of_nat (length c)) <= FSSIZE ->
  exists s', mfor reads (fun buf => iappend (Z.of_nat k + 1) buf (Z.of_nat (length buf))) s = Ret tt s'
    /\ holds s' (<[k := (ty, c ++ concat reads)]> C).
Proof.
  induction reads as [|buf reads IH]; intros s C k ty c H Hk Hmax Hroom.
  - simpl. rewrite app_nil_r, list_insert_id by done. by exists s.
  - simpl in *. rewrite length_app in *.
    pose proof (need_mono (Z.of_nat (length c + length buf)) (Z.of_nat (length c + (length buf + length (concat reads)))) ltac:(lia)).
    destruct (holds_iappend s C k ty c buf H Hk ltac:(lia) ltac:(lia)) as (s1 & R1 & H1).
    rewrite (mthen_ret _ _ _ _ _ R1).
    destruct (IH s1 _ k ty (c ++ buf) H1) as (s2 & R2 & H2).
    { apply list_lookup_insert_eq. by eapply lookup_lt_Some. }
    { rewrite length_app. lia. }
    { rewrite (blocks_insert C k ty c) by done. rewrite length_app.
      replace (length c + length buf + length (concat reads))%nat with (length c + (length buf + length (concat reads)))%nat by lia. lia. }
    exists s2. split; [done|]. by rewrite list_insert_insert_eq, <- app_assoc in H2.
Qed.

Section Files.
Context (host : list Z -> option (list (list Z))).

(** The name and the bytes a file of the image gets, if mkfs accepts it. *)
Definition file_of (arg : list Z) : option (list Z * list Z) :=
  let shortname := short_name arg in
  if bool_decide (SLASH ∈ shortname) then None else
  match host arg with
  | None => None
  | Some reads =>
      let name := if default 0 (head shortname) =? UNDERSCORE then tail shortname else shortname in
      if (length name <=? DIRSIZ)%nat then Some (name, concat reads) else None
  end.

(** The entries of the root directory from inode [i] on. *)
Fixpoint entries (i : nat) (fs : list (list Z * list Z)) : list Z :=
  match fs with [] => [] | f :: fs' => entry f.1 (Z.of_nat i) ++ entries (S i) fs' end.
Definition root_entries (fs : list (list Z * list Z)) : list Z :=
  entry [46] ROOTINO ++ entry [46; 46] ROOTINO ++ entries 2 fs.
Definition regular (fs : list (list Z * list Z)) : list (Z * list Z) := (fun f => (T_FILE, f.2)) <$> fs.

Lemma entries_cons i f fs : entries i (f :: fs) = entry f.1 (Z.of_nat i) ++ entries (S i) fs.
Proof. done. Qed.
Lemma entries_length i fs : length (entries i fs) = (16 * length fs)%nat.
Proof. revert i. induction fs as [|f fs IH]; intros i; [done|]. rewrite entries_cons, length_app, entry_length, IH. simpl. lia. Qed.

Lemma add_file_run s c C arg name bytes :
  holds s ((T_DIR, c) :: C) -> file_of arg = Some (name, bytes) -> Z.of_nat (length C) + 3 <= INODE_ROOM ->
  Z.of_nat (length c + 16) <= MAXFILE * BSIZE -> Z.of_nat (length bytes) <= MAXFILE * BSIZE ->
  nmeta + blocks ((T_DIR, c ++ entry name (Z.of_nat (length C + 2))) :: C ++ [(T_FILE, bytes)]) <= FSSIZE ->
  exists s', add_file host ROOTINO arg s = Ret tt s'
    /\ holds s' ((T_DIR, c ++ entry name (Z.of_nat (length C + 2))) :: C ++ [(T_FILE, bytes)]).
Proof.
  intros H Hf Hn Hmax Hlen Hroom. unfold file_of in Hf. unfold add_file. set (inum := Z.of_nat (length C + 2)).
  rewrite INODE_ROOM_eq in Hn. case_match eqn:Hsl; [done|]. destruct (host arg) as [reads|]; [|done].
  set (nm := if _ =? UNDERSCORE then _ else _) in *. case_match eqn:Hd; [|done]. injection Hf as <- <-. cbn [negb].
  destruct (holds_ialloc s _ T_FILE H) as (s1 & R1 & H1); [rewrite INODE_ROOM_eq; simpl; lia | done|].
  replace (Z.of_nat (length ((T_DIR, c) :: C)) + 1) with inum in R1 by (unfold inum; simpl; lia).
  rewrite (mthen_ret _ _ _ _ _ R1). cbn [app] in H1. fold inum in Hroom.
  assert (nmeta + blocks ((T_DIR, c ++ entry nm inum) :: C ++ [(T_FILE, [])]) + need (Z.of_nat (length (concat reads))) <= FSSIZE) as Hr.
  { revert Hroom. unfold blocks. simpl. fold (blocks (C ++ [(T_FILE, concat reads)])). fold (blocks (C ++ [(T_FILE, [])])).
    rewrite !blocks_app. change (blocks [(T_FILE, [])]) with 0. unfold blocks at 2. simpl. lia. }
  pose proof (need_range (Z.of_nat (length (concat reads)))).
  destruct (holds_add_dirent s1 T_DIR c _ nm inum H1 ltac:(unfold inum; lia) Hmax ltac:(lia)) as (s2 & R2 & H2).
  rewrite (mthen_ret _ _ _ _ _ R2).
  destruct (holds_reads reads s2 _ (S (length C)) T_FILE [] H2) as (s3 & R3 & H3).
  { simpl. rewrite lookup_app_r, Nat.sub_diag by lia. done. } { simpl. lia. }
  { cbn [length Nat.add]. change (need (Z.of_nat 0)) with 0. lia. }
  exists s3. split.
  { replace inum with (Z.of_nat (S (length C)) + 1) by (unfold inum; lia). done. }
  simpl in H3. by rewrite insert_app_r_alt, Nat.sub_diag in H3 by lia.
Qed.

Lemma blocks_pos f C : blocks (f :: C) = need (Z.of_nat (length f.2)) + blocks C.
Proof. done. Qed.

Lemma add_files_run args : forall fs s c C,
  Forall2 (fun a f => file_of a = Some f) args fs -> holds s ((T_DIR, c) :: C) ->
  Z.of_nat (length C + length fs) + 2 <= INODE_ROOM ->
  Z.of_nat (length c + 16 * length fs) <= MAXFILE * BSIZE -> Forall (fun f => Z.of_nat (length f.2) <= MAXFILE * BSIZE) fs ->
  nmeta + blocks ((T_DIR, c ++ entries (length C + 2) fs) :: C ++ regular fs) <= FSSIZE ->
  exists s', mfor args (add_file host ROOTINO) s = Ret tt s'
    /\ holds s' ((T_DIR, c ++ entries (length C + 2) fs) :: C ++ regular fs).
Proof.
  induction args as [|arg args IH]; intros fs s c C HF H Hn Hmax Hlen Hroom.
  - apply Forall2_nil_inv_l in HF as ->. exists s. simpl. by rewrite !app_nil_r.
  - apply Forall2_cons_inv_l in HF as ([name bytes] & fs' & Hf & HF & ->). apply Forall_cons in Hlen as [Hl1 Hlen].
    simpl in Hn, Hmax, Hl1. rewrite entries_cons in *. change (regular ((name, bytes) :: fs')) with ([(T_FILE, bytes)] ++ regular fs') in *.
    assert (length (C ++ [(T_FILE, bytes)]) = S (length C)) as EL by (rewrite length_app; simpl; lia).
    rewrite !app_assoc in *. simpl fst in *.
    destruct (add_file_run s c C arg name bytes H Hf ltac:(lia) ltac:(lia) Hl1) as (s1 & R1 & H1).
    { pose proof (blocks_nonneg (regular fs')). revert Hroom. rewrite !blocks_pos, !blocks_app. simpl.
      rewrite !length_app, !entry_length.
      pose proof (need_mono (Z.of_nat (length c + 16)) (Z.of_nat (length c + 16 + length (entries (S (length C + 2)) fs'))) ltac:(lia)).
      lia. }
    simpl. rewrite (mthen_ret _ _ _ _ _ R1).
    replace (S (length C + 2)) with (length (C ++ [(T_FILE, bytes)]) + 2)%nat in * by (rewrite EL; lia).
    apply IH; try done; [rewrite EL; lia | rewrite length_app, entry_length; lia].
Qed.
End Files.
