(* ===== verification/MkfsSpec.v ===== *)
(** mkfs as a whole: the image it leaves. *)

From S2P Require Import Prelude.
From S2P Require Import Bytes.
From S2P Require Import BlockCache.
From S2P Require Import Fs.
From S2P Require Import FsDir.
From S2P Require Import FsBlocks.
From S2P Require Import FsInode.
From S2P Require Import FsContent.
From S2P Require Import Mkfs.
From S2P Require Import MkfsAppend.
From S2P Require Import MkfsImage.
From S2P Require Import MkfsThm.

(** Inode [i] as it is on the disk. *)
Definition disk_inode (s : mkfs_st) (i : Z) : dinode := get_dinode (dinode_off i) (mk_img s (IBLOCK i mkfs_sb)).

(** ** The bitmap *)

Definition mark (used : Z) : block :=
  fold_left (fun b i => set_bit b (Z.of_nat i)) (seq 0 (Z.to_nat used)) zero_block.

Lemma mark_spec n b :
  Z.of_nat n <= 8192 -> 0 <= b < 8192 ->
  length (mark (Z.of_nat n)) = 1024%nat /\ bit_is_free (mark (Z.of_nat n)) b = (Z.of_nat n <=? b).
Proof.
  unfold mark. rewrite Nat2Z.id. intros Hn Hb. induction n as [|n IH].
  - split; [done|]. cbn [seq fold_left]. rewrite (proj2 (Z.leb_le (Z.of_nat 0) b)) by lia. unfold bit_is_free, zero_block.
    rewrite list_lookup_total_alt, lookup_replicate_2; [done|]. unfold BSIZE. dlia.
  - destruct IH as [Hl IH]; [lia|]. rewrite seq_S, fold_left_app. cbn [fold_left Nat.add].
    set (m := fold_left _ _ _) in *. split; [unfold set_bit; by rewrite length_insert|].
    rewrite set_bit_free; [|lia|lia|unfold byte_of; rewrite Hl; dlia]. rewrite IH.
    destruct (Z.eqb_spec b (Z.of_nat n)); repeat bcase; try done; lia.
Qed.

(** ** The image *)

(** What mkfs has made of the files [fs]. *)
Record built (s : mkfs_st) (fs : list (list Z * list Z)) : Prop := {
  bt_sb : mk_img s 1 = put_superblock mkfs_sb;
  bt_file k name bytes : fs !! k = Some (name, bytes) ->
    let d := disk_inode s (Z.of_nat k + 2) in
    di_type d = T_FILE /\ di_nlink d = 1 /\ content (mk_img s) d = bytes
    /\ dinode_ok d /\ slots (mk_img s) (di_addrs d) (below (di_size d));
  bt_root :
    let d := disk_inode s ROOTINO in
    let n := length (root_entries fs) in
    di_type d = T_DIR /\ di_nlink d = 1 /\ di_size d = (Z.of_nat n / BSIZE + 1) * BSIZE
    /\ take n (content (mk_img s) d) = root_entries fs
    /\ slots (mk_img s) (di_addrs d) (below (Z.of_nat n));
  bt_bitmap b : 0 <= b < BPB -> bit_is_free (mk_img s (BBLOCK b mkfs_sb)) b = (freeblock s <=? b);
  bt_blocks : exists A, rep (mk_img s) (freeblock s) A
    /\ forall i, 1 <= i <= Z.of_nat (length fs) + 1 -> A !! i = Some (di_addrs (disk_inode s i));
  bt_used : freeblock s = nmeta + blocks ((T_DIR, root_entries fs) :: regular fs) }.

(** The last two steps: the size of the root directory and the bitmap. *)
Lemma image_finish_run s root C :
  holds s ((T_DIR, root) :: C) -> Z.of_nat (length root) <= MAXFILE * BSIZE -> nmeta + blocks ((T_DIR, root) :: C) <= FSSIZE ->
  exists s', (fix_root ROOTINO ;;; let* used := gets freeblock in balloc (i32 used)) s = Ret tt s'
    /\ mk_img s' 1 = put_superblock mkfs_sb /\ freeblock s' = nmeta + blocks ((T_DIR, root) :: C)
    /\ (forall b, 0 <= b < BPB -> bit_is_free (mk_img s' (BBLOCK b mkfs_sb)) b = (freeblock s' <=? b))
    /\ (forall k ty c, C !! k = Some (ty, c) ->
          let d := disk_inode s' (Z.of_nat k + 2) in
          di_type d = ty /\ di_nlink d = 1 /\ content (mk_img s') d = c
          /\ dinode_ok d /\ slots (mk_img s') (di_addrs d) (below (di_size d)))
    /\ (exists A, rep (mk_img s') (freeblock s') A
          /\ forall i, 1 <= i <= Z.of_nat (length C) + 1 -> A !! i = Some (di_addrs (disk_inode s' i)))
    /\ let d := disk_inode s' ROOTINO in
       di_type d = T_DIR /\ di_nlink d = 1 /\ di_size d = (Z.of_nat (length root) / BSIZE + 1) * BSIZE
       /\ take (length root) (content (mk_img s') d) = root
       /\ slots (mk_img s') (di_addrs d) (below (Z.of_nat (length root))).
Proof.
  intros (Hfi & Hfb & Hsb & D & I & Hc) Hmax Hroom. change (MAXFILE * BSIZE) with 274432 in Hmax.
  destruct (Hc 0%nat T_DIR root eq_refl) as (d & Hd & Hty & Hnl & Hcd). change (Z.of_nat 0 + 1) with ROOTINO in Hd.
  destruct (im_disk _ _ I _ _ Hd) as [_ Hok]. pose proof (dk_size _ Hok) as Hz.
  assert (di_size d = Z.of_nat (length root)) as Hsz by (rewrite <- Hcd, content_length; lia).
  set (off := (Z.of_nat (length root) / BSIZE + 1) * BSIZE).
  assert (Z.of_nat (length root) < off <= 275456) as Hoff by (unfold off, BSIZE; dlia).
  pose proof (im_room _ _ I) as Hrm. change FSSIZE with 2000 in Hrm. pose proof (rp_fb _ _ _ (im_rep _ _ I)) as Hfm. rewrite nmeta_eq in Hfm.
  pose proof (ly_whole _ _ (rp_layout _ _ _ (im_rep _ _ I))) as Hwh.
  destruct (winode_run s ROOTINO (set_size off d)) as (f & Rw & Fk & Fl & Fd & Fo); try apply I; try done.
  { destruct Hok. split; simpl; try done. lia. }
  set (v := upd f 46 (mark (freeblock s))). set (s' := set_img v FSSIZE s).
  destruct (mark_spec (Z.to_nat (freeblock s)) 0 ltac:(lia) ltac:(lia)) as [Lm _]. rewrite Z2Nat.id in Lm by lia.
  assert (forall k, length (v k) = 1024%nat) as Lv by (intros k; unfold v, upd; bcase; [done|apply Fl]).
  assert (forall k, k = 0 \/ nmeta <= k -> v k = mk_img s k) as Vk.
  { intros k Hk. unfold v. rewrite nmeta_eq in Hk. rewrite upd_ne by lia. apply Fk, data_not_inode. rewrite nmeta_eq. lia. }
  destruct (rep_low _ v _ _ (im_rep _ _ I) Lv Vk) as [Hrep Hsame].
  assert (forall i, 1 <= i < INODE_ROOM -> disk_inode s' i = get_dinode (dinode_off i) (f (IBLOCK i mkfs_sb))) as Hdi.
  { intros i Hi. unfold disk_inode. simpl. unfold v. pose proof (inode_block_range i Hi) as [? ?]. by rewrite upd_ne by lia. }
  assert (forall j e, D !! j = Some e -> (di_addrs <$> D) !! j = Some (di_addrs e)) as Hfm'.
  { intros j e He. by rewrite lookup_fmap, He. }
  pose proof (im_free _ _ I) as Hfree. exists s'. split; [|split; [|split; [done|split; [|split; [|split]]]]].
  - unfold mthen at 1. unfold fix_root at 1. rewrite (mthen_ret _ _ _ _ _ (rinode_run s D _ d I Hd)).
    rewrite (xint_small (di_size d)), Hsz by lia. fold off. rewrite u32_small, xint_small by lia. rewrite Rw.
    rewrite mthen_gets. unfold balloc. change (freeblock (set_img f FSSIZE s)) with (freeblock s). rewrite i32_small by lia. change BPB with 8192.
    destruct (Z.ltb_spec (freeblock s) 8192); [|lia]. cbn [negb]. rewrite mthen_gets. change (mk_sb (set_img f FSSIZE s)) with (mk_sb s). rewrite (im_sb _ _ I).
    change (sb_bmapstart mkfs_sb) with 46. fold (mark (freeblock s)). by rewrite (wsect_run 46 _ (set_img f FSSIZE s)).
  - simpl. unfold v. rewrite upd_ne by lia. rewrite Fk; [done|unfold inode_block; lia].
  - intros b Hb. change BPB with 8192 in Hb. unfold BBLOCK. rewrite (Z.div_small b) by (change BPB with 8192; lia).
    change (0 + sb_bmapstart mkfs_sb) with 46. simpl. unfold v. rewrite upd_eq.
    destruct (mark_spec (Z.to_nat (freeblock s)) b ltac:(lia) Hb) as [_ E]. by rewrite Z2Nat.id in E by lia.
  - intros k ty c Hk. destruct (Hc (S k) ty c Hk) as (e & He & Te & Ne & Ce).
    replace (Z.of_nat (S k) + 1) with (Z.of_nat k + 2) in He by lia.
    pose proof (im_dom _ _ I _ _ He). destruct (im_disk _ _ I _ _ He) as [Ge Oe].
    rewrite Hdi by lia. rewrite Fo, Ge by (unfold ROOTINO; lia). split; [done|]. split; [done|]. split.
    { rewrite <- Ce.
      apply content_ext; [| |by apply (im_size _ _ I _ e He)]; intros t Ht; [|intros _]; by apply (Hsame _ _ t (Hfm' _ _ He)). }
    split; [done|]. intros t Ht. destruct (Hsame _ _ t (Hfm' _ _ He) Ht) as [E _]. simpl. rewrite E. by apply (im_slots _ _ I _ e He).
  - exists (di_addrs <$> D). split; [exact Hrep|]. intros i Hi. simpl in Hfi. rewrite Hdi by lia.
    destruct (decide (i = ROOTINO)) as [->|Hne]; [by rewrite Fd, (Hfm' _ _ Hd)|].
    destruct (lookup_lt_is_Some_2 C (Z.to_nat (i - 2))) as [[ty c] Hk]; [unfold ROOTINO in *; lia|].
    destruct (Hc (S (Z.to_nat (i - 2))) ty c Hk) as (e & He & _).
    replace (Z.of_nat (S (Z.to_nat (i - 2))) + 1) with i in He by (unfold ROOTINO in *; lia).
    destruct (im_disk _ _ I _ _ He) as [Ge _]. by rewrite Fo, Ge, (Hfm' _ _ He) by lia.
  - rewrite Hdi by (unfold ROOTINO; rewrite INODE_ROOM_eq; lia). rewrite Fd. split; [done|]. split; [done|]. split; [done|].
    split; [|intros t Ht; destruct (Hsame _ _ t (Hfm' _ _ Hd) Ht) as [E _]; simpl; rewrite E, <- Hsz; by apply (im_slots _ _ I _ d Hd)].
    rewrite <- Hcd at 2. apply list_eq. intros k. destruct (decide (k < length root)%nat) as [Hk|Hk].
    + rewrite lookup_take_lt by done. rewrite !content_total by (simpl; lia). simpl. f_equal. unfold byte_at, data_block.
      destruct (data_slot_range (Z.of_nat k / BSIZE)) as [Hs1 _].
      { change MAXFILE with 268. unfold BSIZE. split; dlia. }
      destruct (Hsame _ _ _ (Hfm' _ _ Hd) Hs1) as [-> ->]. done.
    + rewrite lookup_take_ge by lia. symmetry. apply lookup_ge_None. rewrite content_length. lia.
Qed.

Lemma mkfs_run host args fs :
  Forall2 (fun a f => file_of host a = Some f) args fs ->
  Z.of_nat (length fs) + 2 <= INODE_ROOM ->
  Forall (fun f => Z.of_nat (length f.2) <= MAXFILE * BSIZE) fs ->
  nmeta + blocks ((T_DIR, root_entries fs) :: regular fs) <= FSSIZE ->
  exists s, mkfs host args mkfs_start = Ret tt s /\ built s fs.
Proof.
  intros HF Hn Hlen Hroom. rewrite INODE_ROOM_eq in Hn. pose proof (entries_length 2 fs) as EL.
  destruct init_image_run as (s0 & R0 & H0). unfold mkfs. rewrite (mthen_ret _ _ _ _ _ R0).
  destruct (holds_ialloc s0 [] T_DIR H0) as (s1 & R1 & H1); [by rewrite INODE_ROOM_eq | done|].
  rewrite (mthen_ret _ _ _ _ _ R1). change (negb _) with false. cbv iota. simpl app in H1. change (Z.of_nat (length []) + 1) with ROOTINO.
  destruct (holds_add_dirent s1 T_DIR [] [] [46] ROOTINO H1) as (s2 & R2 & H2);
    [done | done | rewrite blocks_pos; cbn [fst snd]; rewrite app_nil_l, entry_length; by vm_compute |].
  rewrite (mthen_ret _ _ _ _ _ R2).
  destruct (holds_add_dirent s2 T_DIR _ [] [46; 46] ROOTINO H2) as (s3 & R3 & H3);
    [done | done | rewrite blocks_pos; cbn [fst snd]; rewrite app_nil_l, length_app, !entry_length; by vm_compute |].
  rewrite (mthen_ret _ _ _ _ _ R3). rewrite app_nil_l in H3.
  destruct (add_files_run host args fs s3 _ [] HF H3) as (s4 & R4 & H4).
  { rewrite INODE_ROOM_eq. simpl. lia. }
  { rewrite length_app, !entry_length. change (MAXFILE * BSIZE) with 274432. lia. }
  { done. }
  { rewrite <- app_assoc. exact Hroom. }
  rewrite (mthen_ret _ _ _ _ _ R4). rewrite <- app_assoc in H4. change (holds s4 ((T_DIR, root_entries fs) :: regular fs)) in H4.
  destruct (image_finish_run s4 _ _ H4) as (s & R & Sb & Fb & Bm & Fl & Bl & Rt).
  { unfold root_entries. rewrite !length_app, !entry_length, EL. change (MAXFILE * BSIZE) with 274432. lia. }
  { exact Hroom. }
  exists s. split; [exact R|]. unfold regular in Bl. rewrite length_fmap in Bl.
  split; [exact Sb | | exact Rt | exact Bm | exact Bl | exact Fb].
  intros k name bytes Hk. apply Fl. unfold regular. by rewrite list_lookup_fmap, Hk.
Qed.

(** C32: mkfs builds the file system it was asked for.  If every argument names
    a file the host can open, with a name that fits a directory entry, and the
    files fit the image, mkfs finishes; inode [k + 2] of the image is a regular
    file whose contents are the bytes read from the [k]-th file, the root
    directory starts with the entries ".", ".." and one entry for each
    file, the superblock is on block 1, no two files share a block, and the
    bitmap marks exactly the metadata and the blocks the files take. *)
Theorem mkfs_builds host prog img args fs :
  Forall2 (fun a f => file_of host a = Some f) args fs ->
  Z.of_nat (length fs) + 2 <= INODE_ROOM ->
  Forall (fun f => Z.of_nat (length f.2) <= MAXFILE * BSIZE) fs ->
  nmeta + blocks ((T_DIR, root_entries fs) :: regular fs) <= FSSIZE ->
  exists s, main host (prog :: img :: args) true mkfs_start = Ret tt s /\ built s fs.
Proof. intros. by apply mkfs_run. Qed.

(** ** An instance *)

(** A host with the files "user/_cat" (in two reads) and "README". *)
Definition cat_arg : list Z := user_prefix ++ [95; 99; 97; 116].
Definition readme_arg : list Z := [82; 69; 65; 68; 77; 69].
Definition sample_host (arg : list Z) : option (list (list Z)) :=
  if bool_decide (arg = cat_arg) then Some [replicate 1024 7; [8; 9]]
  else if bool_decide (arg = readme_arg) then Some [[104; 105; 10]] else None.
Definition sample_files : list (list Z * list Z) := [([99; 97; 116], replicate 1024 7 ++ [8; 9]); (readme_arg, [104; 105; 10])].

Lemma mkfs_builds_witness :
  exists s, main sample_host [[109]; [105]; cat_arg; readme_arg] true mkfs_start = Ret tt s
    /\ content (mk_img s) (disk_inode s 3) = [104; 105; 10] /\ freeblock s = 51.
Proof.
  destruct (mkfs_builds sample_host [109] [105] [cat_arg; readme_arg] sample_files) as (s & R & B).
  - repeat constructor; vm_compute; reflexivity.
  - vm_compute. discriminate.
  - repeat constructor; vm_compute; discriminate.
  - vm_compute. discriminate.
  - exists s. split; [exact R|]. split.
    + by destruct (bt_file s sample_files B 1%nat _ _ eq_refl) as (_ & _ & ? & _).
    + rewrite (bt_used s sample_files B). vm_compute. reflexivity.
Defined.
