(* ===== verification/MkfsKernel.v ===== *)
(** The kernel on the image of mkfs: fs.c finds the superblock, the inodes
    and the bytes mkfs wrote. *)

From S2P Require Import Prelude.
From S2P Require Import Bytes.
From S2P Require Import Locks.
From S2P Require Import BlockCache.
From S2P Require Import TxStore.
From S2P Require Import UserMem.
From S2P Require Import Fs.
From S2P Require Import FsDir.
From S2P Require Import FsBlocks.
From S2P Require Import FsInode.
From S2P Require Import FsContent.
From S2P Require Import FsRead.
From S2P Require Import FsWrite.
From S2P Require Import Mkfs.
From S2P Require Import MkfsAppend.
From S2P Require Import MkfsImage.
From S2P Require Import MkfsThm.
From S2P Require Import MkfsSpec.

(** ** Finding a file by name *)

(** The entries of the root directory, as pairs of a name and an inode. *)
Definition listing (fs : list (list Z * list Z)) : list (list Z * Z) :=
  ([46], ROOTINO) :: ([46; 46], ROOTINO) :: imap (fun k f => (f.1, Z.of_nat (k + 2))) fs.

Lemma listing_root fs : root_entries fs = concat ((fun p => entry p.1 p.2) <$> listing fs).
Proof.
  unfold root_entries, listing. rewrite !fmap_cons. cbn [concat fst snd]. do 2 f_equal.
  assert (forall i, entries i fs = concat ((fun p => entry p.1 p.2) <$> imap (fun k f => (f.1, Z.of_nat (k + i))) fs)) as Hg; [|apply Hg].
  induction fs as [|f fs IH]; intros i; [done|]. rewrite entries_cons. simpl imap. rewrite fmap_cons. cbn [concat fst snd].
  rewrite IH. do 3 f_equal. apply imap_ext. intros k x _. cbn. do 2 f_equal. lia.
Qed.

Lemma concat_entry (l : list (list Z * Z)) j p rest :
  l !! j = Some p -> take 16 (drop (16 * j) (concat ((fun p => entry p.1 p.2) <$> l) ++ rest)) = entry p.1 p.2.
Proof.
  revert j. induction l as [|q l IH]; intros j Hj; [done|]. rewrite fmap_cons. cbn [concat]. rewrite <- app_assoc. destruct j as [|j].
  - injection Hj as ->. rewrite Nat.mul_0_r, drop_0. rewrite take_app_length' by (by rewrite entry_length). done.
  - replace (16 * S j)%nat with (16 + 16 * j)%nat by lia. rewrite <- drop_drop.
    rewrite (drop_app_length' (entry q.1 q.2)) by (by rewrite entry_length). by apply IH.
Qed.

Lemma get_entry name inum : 0 <= inum < 2 ^ 16 -> get_dirent (entry name inum) = Dirent inum (str_ncpy DIRSIZ name).
Proof. intros Hi. apply get_put_dirent; [done | apply str_ncpy_length]. Qed.

(** The names of a directory that can be told apart. *)
Definition good_names (fs : list (list Z * list Z)) : Prop :=
  NoDup ((listing fs).*1) /\ Forall (fun p => (length p.1 <= DIRSIZ)%nat /\ Forall (fun c => c <> 0) p.1) (listing fs).

(** The image is one the kernel can write to: its bitmap agrees with the
    blocks its inodes use. *)
Lemma mkfs_consistent img fs :
  built img fs -> freeblock img <= FSSIZE ->
  exists D, cv nmeta mkfs_sb (mk_img img) D
    /\ forall i, 1 <= i <= Z.of_nat (length fs) + 1 -> D !! i = Some (di_addrs (disk_inode img i)).
Proof.
  intros B Hfb. destruct (bt_blocks _ _ B) as (A & R & HA). exists A. split; [|done]. change FSSIZE with 2000 in Hfb.
  pose proof (rp_fb _ _ _ R) as Hm. rewrite nmeta_eq in Hm.
  assert (forall b, 0 <= b < 2000 -> block_free mkfs_sb (mk_img img) b = (freeblock img <=? b)) as Hf.
  { intros b Hb. unfold block_free. rewrite Z.mod_small by (change BPB with 8192; lia). apply (bt_bitmap _ _ B). change BPB with 8192. lia. }
  split; [apply R | rewrite nmeta_eq; change (0 < 46 < 47 /\ 47 <= 2000 <= 8192); lia | |].
  - rewrite nmeta_eq. intros b Hb. rewrite Hf by lia. apply Z.leb_gt. lia.
  - intros j ae t Hj Ht N. pose proof (rp_used _ _ _ R j ae t Hj Ht N) as Hu. rewrite nmeta_eq in *.
    change (sb_size mkfs_sb) with 2000. split; [lia|]. rewrite Hf by lia. apply Z.leb_gt. lia.
Qed.

Section Kernel.
Context {T H U : Type} `{TS : TxStore T H dev} `{UserMem U}.
Context (pid : Z).

(** A file system mounted on the image: nothing modified, no buffer held. *)
Record mounted (img : mkfs_st) (s : fs_st T U) : Prop := {
  mt_inv : ts_inv (fs_tx s);
  mt_view j : vw s j = mk_img img j;
  mt_held : held s = ∅;
  mt_dirty : dirty s ⊆ logged s;
  mt_logged : (size (logged s) + 1 <= 10)%nat }.

(** [readsb] reads back the superblock mkfs put on block 1. *)
Theorem readsb_mkfs img fs s :
  built img fs -> mounted img s ->
  exists s', readsb dev s = Ret tt s' /\ fs_sb s' = mkfs_sb /\ mounted img s'
    /\ fs_itable s' = fs_itable s /\ fs_user s' = fs_user s.
Proof.
  intros B [Hi Hv Hh Hd Hl]. unfold readsb.
  destruct (read_block s 1 (fun b => b) Hi ltac:(lia)) as (h & s1 & R1 & D1 & S1 & Hrel);
    [by rewrite Hh | rewrite Hh; unfold MAXHELD; rewrite size_empty; lia | done |].
  rewrite (mthen_ret _ _ _ _ _ R1), (mthen_ret _ _ _ _ _ D1), Hv, (bt_sb _ _ B).
  change (Superblock _ _ _ _ _ _ _ _) with mkfs_sb. rewrite mthen_modify.
  destruct (Hrel (set_fs_sb mkfs_sb) eq_refl) as (s2 & R2 & S2 & I2 & V2 & F1 & F2 & F3).
  exists s2. split; [done|]. destruct (same_fs_sb _ _ S1) as (_ & T1 & U1).
  rewrite S2. split; [done|]. split; [|by rewrite <- T1, <- U1].
  rewrite <- S2. split; rewrite ?F1, ?F2, ?F3; try done. intros j. by rewrite V2.
Qed.

(** Entry [i] of the inode table stands for inode [inum], not yet read. *)
Record unread (s : fs_st T U) (i : nat) (inum : Z) (ip : inode) : Prop := {
  ur_at : fs_itable s !! i = Some ip;
  ur_dev : i_dev ip = dev;
  ur_inum : i_inum ip = inum;
  ur_ref : 1 <= i_ref ip;
  ur_valid : i_valid ip = false;
  ur_lock : slk_locked (i_lock ip) = false }.

(** C33: the kernel reads the files mkfs wrote.  With the image as its disk,
    [ilock] of inode [k + 2] and [readi] from any offset return the bytes of
    the [k]-th file given to mkfs. *)
Theorem kernel_reads_mkfs_file img fs s k name bytes i ip dst off n u' :
  built img fs -> mounted img s -> fs_sb s = mkfs_sb ->
  fs !! k = Some (name, bytes) -> Z.of_nat k + 2 < INODE_ROOM -> Z.of_nat (length bytes) <= MAXFILE * BSIZE -> freeblock img <= FSSIZE ->
  unread s i (Z.of_nat k + 2) ip ->
  0 <= off -> 0 <= n -> off + n < 2 ^ 32 ->
  let xs := take (Z.to_nat n) (drop (Z.to_nat off) bytes) in
  delivers dst 0 xs (fs_user s) u' ->
  exists s1 s2, ilock pid (Some i) s = Ret tt s1
    /\ readi i dst off n s1 = Ret (Z.of_nat (length xs), xs) s2 /\ fs_user s2 = u' /\ mounted img s2.
Proof.
  intros B [Hi Hv Hh Hd Hl] Hsb Hk Hroom Hmax Hfb [Uat Udev Uinum Uref Uval Ulock] Hoff Hn Hov xs Hdel.
  rewrite INODE_ROOM_eq in Hroom. set (inum := Z.of_nat k + 2) in *.
  destruct (bt_file _ _ B k name bytes Hk) as (Fty & _ & Fc & Fok & Fs). fold inum in Fty, Fc, Fok, Fs. set (d := disk_inode img inum) in *.
  destruct (bt_blocks _ _ B) as (A & R & HA).
  pose proof (HA inum ltac:(apply lookup_lt_Some in Hk; unfold inum; lia)) as HAd. fold d in HAd.
  pose proof (inode_block_range inum ltac:(rewrite INODE_ROOM_eq; unfold inum; lia)) as [Hb1 Hb2].
  destruct (ilock_load_run pid s i ip) as (s1 & ip1 & R1 & At1 & Di1 & Va1 & Lk1 & Dv1 & I1 & V1 & H1' & L1 & D1 & B1 & U1 & _).
  { split; rewrite ?Uinum, ?Hsb, ?Hh; try done; [unfold inum; lia | lia | unfold MAXHELD; rewrite size_empty; lia | by apply size_union_le |].
    rewrite Hv. apply (rp_layout _ _ _ R). }
  { done. } { done. } { done. }
  { rewrite Uinum, Hsb, Hv. change (di_type d <> 0). by rewrite Fty. }
  rewrite Uinum, Hsb, Hv in Di1. change (get_dinode _ _) with d in Di1.
  assert (forall j, vw s1 j = mk_img img j) as V1' by (intros j; by rewrite V1, Hv).
  assert (i_addrs ip1 = di_addrs d /\ i_size ip1 = di_size d) as [Ea Ez] by (by rewrite <- Di1).
  assert (di_size d = Z.of_nat (length bytes)) as Hsz.
  { rewrite <- Fc, content_length. pose proof (dk_size _ Fok). lia. }
  assert (file_ready s1 i ip1) as FR.
  { split; rewrite ?H1', ?Hh, ?L1, ?D1, ?Ea, ?Ez, ?Hsz; try done.
    - by rewrite Dv1.
    - unfold MAXHELD. rewrite size_empty. lia.
    - intros j. rewrite V1'. apply (rp_layout _ _ _ R).
    - intros t Ht. rewrite (slot_addr_ext _ _ _ t V1'). intros N. pose proof (rp_used _ _ _ R _ _ _ HAd Ht N) as Hu.
      rewrite nmeta_eq in Hu. change FSSIZE with 2000 in Hfb. split; [lia | apply not_elem_of_empty].
    - intros bn Hbn Hlt. unfold data_block. rewrite (slot_addr_ext _ _ _ _ V1'). change (MAXFILE * BSIZE) with 274432 in Hmax.
      destruct (data_slot_range bn) as [Hs _]; [change MAXFILE with 268; unfold BSIZE in *; lia|].
      apply Fs; [done|]. rewrite below_data by done. apply Z.ltb_lt. lia.
    - lia. }
  assert (content (vw s1) (i_dinode ip1) = bytes) as Ec by (by rewrite Di1, (content_view _ _ _ V1')).
  destruct (readi_run s1 i ip1 dst off n u' FR Hoff Hn Hov) as (s2 & R2 & V2); [by rewrite Ec, U1|].
  rewrite Ec in R2. exists s1, s2. split; [done|]. split; [done|]. destruct V2 as [Sf Si Sv Sh Sl Sd].
  split; [by rewrite Sf|]. split; [done | | | |].
  - intros j. rewrite Sv. apply V1'.
  - rewrite Sh. by rewrite <- Hh, <- H1'.
  - rewrite Sd, Sl. change (dirty s1 ⊆ logged s1). by rewrite D1, L1.
  - rewrite Sl. change (size (logged s1) + 1 <= 10)%nat. by rewrite L1.
Qed.
(** Lookups among the first entries of the root directory. *)
Lemma root_dirents img fs j p :
  built img fs -> Z.of_nat (length fs) + 2 <= INODE_ROOM -> listing fs !! j = Some p -> 0 <= p.2 < 2 ^ 16 ->
  dirents (content (mk_img img) (disk_inode img ROOTINO)) !! j = Some (Dirent p.2 (str_ncpy DIRSIZ p.1)).
Proof.
  intros B Hn Hj Hp. destruct (bt_root _ _ B) as (_ & _ & Hsz & Hc & _). rewrite INODE_ROOM_eq in Hn.
  set (c := content (mk_img img) (disk_inode img ROOTINO)) in *. set (n := length (root_entries fs)) in *.
  assert (n = (16 * (2 + length fs))%nat) as En.
  { unfold n, root_entries. rewrite !length_app, !entry_length, entries_length. lia. }
  assert (j < 2 + length fs)%nat as Hjl.
  { apply lookup_lt_Some in Hj. unfold listing in Hj. simpl in Hj. rewrite length_imap in Hj. lia. }
  assert (n <= length c)%nat as Hlc.
  { unfold c. rewrite content_length, Hsz. unfold BSIZE. clearbody n. dlia. }
  unfold dirents. rewrite list_lookup_fmap, lookup_seq_lt.
  - simpl. f_equal. rewrite <- (take_drop n c), Hc, listing_root, (concat_entry _ j p _ Hj). by apply get_entry.
  - apply (Nat.div_le_lower_bound (length c) 16 (S j)); lia.
Qed.

Lemma listing_inum fs j p : listing fs !! j = Some p -> Z.of_nat (length fs) + 2 <= INODE_ROOM -> 1 <= p.2 < 2 ^ 16.
Proof.
  rewrite INODE_ROOM_eq. destruct j as [|[|j]]; simpl; [by intros [= <-]..|]. intros Hj Hn.
  rewrite list_lookup_imap in Hj. destruct (fs !! j) as [f|] eqn:E; [|done]. apply lookup_lt_Some in E. simplify_eq/=. lia.
Qed.

(** The kernel finds the files of mkfs by name.  With distinct names,
    [dirlookup] in the root directory returns, for the name of the [k]-th
    file, inode [k + 2] and the offset of its entry.  (The directory must not
    end at a block boundary: there the size mkfs sets covers a block the
    directory does not have.) *)
Theorem kernel_finds_mkfs_file img fs s k name bytes i ip :
  built img fs -> mounted img s -> good_names fs -> Z.of_nat (length fs) + 2 <= INODE_ROOM ->
  (Z.of_nat (length fs) + 2) mod 64 <> 0 -> freeblock img <= FSSIZE ->
  fs !! k = Some (name, bytes) ->
  fs_itable s !! i = Some ip -> i_dev ip = dev -> i_dinode ip = disk_inode img ROOTINO ->
  exists s', same_view s s' /\
    dirlookup i name s = (let* j := iget dev (Z.of_nat k + 2) in mreturn (Some (j, 16 * (Z.of_nat k + 2)))) s'.
Proof.
  intros B [Hi Hv Hh Hd Hl] [Hnd Hgood] Hn H64 Hfb Hk At Dv Di. pose proof Hn as Hn'. rewrite INODE_ROOM_eq in Hn'.
  pose proof (root_dirents img fs) as RD. destruct (bt_root _ _ B) as (Ty & _ & Hsz & Hc & Sl). destruct (bt_blocks _ _ B) as (A & R & HA).
  pose proof (HA ROOTINO ltac:(unfold ROOTINO; lia)) as HAd. set (d := disk_inode img ROOTINO) in *.
  assert (length (root_entries fs) = (16 * (2 + length fs))%nat) as En.
  { unfold root_entries. rewrite !length_app, !entry_length, entries_length. lia. }
  rewrite En in *. assert (i_addrs ip = di_addrs d /\ i_size ip = di_size d /\ i_type ip = T_DIR) as (Ea & Ez & Et) by (by rewrite <- Di, <- Ty, <- Di).
  unfold BSIZE in Hsz.
  assert (file_ready s i ip) as FR.
  { split; rewrite ?Hh, ?Ea, ?Ez; try done.
    - unfold MAXHELD. rewrite size_empty. lia.
    - intros j. rewrite Hv. apply (rp_layout _ _ _ R).
    - intros t Ht. rewrite (slot_addr_ext _ _ _ t Hv). intros N. pose proof (rp_used _ _ _ R _ _ _ HAd Ht N) as Hu.
      rewrite nmeta_eq in Hu. change FSSIZE with 2000 in Hfb. split; [lia | apply not_elem_of_empty].
    - intros bn Hbn Hlt. unfold data_block. rewrite (slot_addr_ext _ _ _ _ Hv). unfold BSIZE in Hlt.
      destruct (data_slot_range bn) as [Hs _]; [change MAXFILE with 268; dlia|].
      apply Sl; [done|]. rewrite below_data by done. apply Z.ltb_lt. unfold BSIZE. dlia.
    - change (MAXFILE * BSIZE) with 274432. dlia. }
  destruct (dirlookup_run s i ip name FR Et ltac:(rewrite Ez; dlia)) as (s' & V & ->).
  exists s'. split; [done|]. rewrite Di, (content_view _ _ _ Hv).
  assert (listing fs !! (k + 2)%nat = Some (name, Z.of_nat (k + 2))) as Hlk.
  { rewrite Nat.add_comm. unfold listing. simpl. rewrite list_lookup_imap, Hk. simpl. by rewrite Nat.add_comm. }
  assert (list_find (entry_is name) (dirents (content (mk_img img) d))
    = Some ((k + 2)%nat, Dirent (Z.of_nat (k + 2)) (str_ncpy DIRSIZ name))) as ->.
  { apply list_find_Some. pose proof (listing_inum _ _ _ Hlk Hn) as Hin. simpl in Hin.
    destruct (Forall_lookup_1 _ _ _ _ Hgood Hlk) as [Gl Gz]. simpl in Gl, Gz.
    split; [exact (RD _ _ B Hn Hlk ltac:(simpl; lia))|]. split.
    - split; [simpl; lia|]. cbn [de_name]. unfold namecmp. rewrite str_eqn_ncpy by done. by apply bool_decide_eq_true.
    - intros j e He Hlt [N E]. destruct (lookup_lt_is_Some_2 (listing fs) j) as [p Hp].
      { apply lookup_lt_Some in Hlk. lia. }
      pose proof (listing_inum _ _ _ Hp Hn) as Hip. rewrite (RD j p B Hn Hp ltac:(lia)) in He.
      assert (e = Dirent p.2 (str_ncpy DIRSIZ p.1)) as -> by congruence.
      destruct (Forall_lookup_1 _ _ _ _ Hgood Hp) as [Pl Pz]. cbn [de_name] in E. unfold namecmp in E.
      rewrite str_eqn_ncpy in E by done. apply bool_decide_eq_true in E.
      assert (j = (k + 2)%nat); [|lia]. eapply NoDup_lookup; [exact Hnd | |]; rewrite list_lookup_fmap; [by rewrite Hp|].
      rewrite Hlk. simpl. by rewrite E. }
  cbn [de_inum]. by replace (Z.of_nat (k + 2)) with (Z.of_nat k + 2) by lia.
Qed.
End Kernel.

(** ** Instances on the ideal store *)

Lemma sample_built : exists img, built img sample_files /\ freeblock img = 51.
Proof.
  destruct (mkfs_run sample_host [cat_arg; readme_arg] sample_files) as (s & _ & B).
  - repeat constructor; vm_compute; reflexivity.
  - vm_compute. discriminate.
  - repeat constructor; vm_compute; discriminate.
  - vm_compute. discriminate.
  - exists s. split; [exact B|]. by rewrite (bt_used s sample_files B).
Qed.

(** A kernel with the image as its disk and one inode in the table. *)
Definition kernel_on (img : mkfs_st) (ip : inode) : fs_st ideal flat_mem :=
  FsSt _ _ mkfs_sb (Ideal (mk_img img) ∅ ∅ ∅) [ip] (FlatMem (fun _ => 0) (fun _ => true)).

Lemma kernel_on_mounted img ip : mounted (TS := ideal_store 1) img (kernel_on img ip).
Proof.
  split; [exact I | reflexivity | reflexivity | apply empty_subseteq |].
  change (size (∅ : gset Z) + 1 <= 10)%nat. rewrite size_empty. lia.
Qed.

Lemma readsb_mkfs_witness :
  exists img s', built img sample_files /\ readsb 1 (kernel_on img inhabitant) = Ret tt s' /\ fs_sb s' = mkfs_sb.
Proof.
  destruct sample_built as (img & B & _).
  destruct (readsb_mkfs (TS := ideal_store 1) img _ (kernel_on img inhabitant) B (kernel_on_mounted img _)) as (s' & R & E & _).
  by exists img, s'.
Defined.

Lemma kernel_reads_mkfs_file_witness :
  exists img s1 s2, built img sample_files
    /\ ilock 7 (Some 0%nat) (kernel_on img (Inode 1 3 1 initsleeplock false 0 0 0 0 0 (replicate 13 0))) = Ret tt s1
    /\ readi 0 KernelDst 1 100 s1 = Ret (2, [105; 10]) s2.
Proof.
  destruct sample_built as (img & B & F).
  destruct (kernel_reads_mkfs_file (TS := ideal_store 1) 7 img sample_files
    (kernel_on img (Inode 1 3 1 initsleeplock false 0 0 0 0 0 (replicate 13 0))) 1 readme_arg [104; 105; 10] 0
    (Inode 1 3 1 initsleeplock false 0 0 0 0 0 (replicate 13 0)) KernelDst 1 100 (FlatMem (fun _ => 0) (fun _ => true))
    B (kernel_on_mounted img _) eq_refl eq_refl) as (s1 & s2 & R1 & R2 & _).
  - reflexivity.
  - vm_compute. discriminate.
  - rewrite F. vm_compute. discriminate.
  - split; try reflexivity.
  - lia.
  - lia.
  - lia.
  - reflexivity.
  - exists img, s1, s2. split; [exact B|]. split; [exact R1 | exact R2].
Defined.

Lemma kernel_finds_mkfs_file_witness :
  exists img s', built img sample_files
    /\ dirlookup 0 readme_arg (kernel_on img (set_i_dinode (disk_inode img ROOTINO) (Inode 1 1 1 initsleeplock true 0 0 0 0 0 [])))
       = (let* j := iget 1 3 in mreturn (Some (j, 48))) s'.
Proof.
  destruct sample_built as (img & B & F).
  set (ip := set_i_dinode (disk_inode img ROOTINO) (Inode 1 1 1 initsleeplock true 0 0 0 0 0 [])).
  destruct (kernel_finds_mkfs_file (TS := ideal_store 1) img sample_files (kernel_on img ip) 1 readme_arg [104; 105; 10] 0 ip
    B (kernel_on_mounted img ip)) as (s' & _ & R).
  - split.
    + refine (bool_decide_eq_true_1 _ _). vm_compute. reflexivity.
    + refine (bool_decide_eq_true_1 _ _). vm_compute. reflexivity.
  - vm_compute. discriminate.
  - vm_compute. discriminate.
  - rewrite F. vm_compute. discriminate.
  - reflexivity.
  - reflexivity.
  - reflexivity.
  - by unfold ip; destruct (disk_inode img ROOTINO).
  - exists img, s'. split; [exact B | exact R].
Defined.
