(* ===== verification/File.v ===== *)
(** Open files (src/kernel/file.c, src/kernel/file.h) and the creation of
    pipes ([pipealloc] of src/kernel/pipe.c).

    A file pointer is an index into [ftable.file], [None] for a null pointer;
    a pipe pointer is the address of its page, 0 for a null pointer.  The
    pages the allocator has free are the list [ft_free], taken and given back
    at its head as [kalloc] and [kfree] do (Kalloc.v); a page comes filled
    with 5.  The table lock makes each critical section atomic.  A call that
    waits (for a pipe, an inode or the log) is the outcome [Sleep]; Pipe.v
    describes how a sleeping pipe reader or writer continues. *)

From S2P Require Import Prelude.
From S2P Require Import Bytes.
From S2P Require Import BlockCache.
From S2P Require Import TxStore.
From S2P Require Import UserMem.
From S2P Require Import Pipe.
From S2P Require Import Fs.

Definition NFILE : nat := 100.
Definition NDEV : Z := 10.
Definition MAXOPBLOCKS : Z := 10.

Inductive ftype := FD_NONE | FD_PIPE | FD_INODE | FD_DEVICE.
#[global] Instance ftype_eq_dec : EqDecision ftype.
Proof. solve_decision. Defined.

Record file := File {
  f_type : ftype; f_ref : Z; f_readable : bool; f_writable : bool;
  f_pipe : Z; f_ip : option nat; f_off : Z; f_major : Z }.
Definition empty_file : file := File FD_NONE 0 false false 0 None 0 0.
#[global] Instance file_inhabited : Inhabited file := populate empty_file.

Record file_st {T U : Type} := FileSt {
  ft_file : list file;
  ft_pipe : gmap Z pipe;
  ft_free : list Z;
  ft_fs : fs_st T U }.
Arguments file_st : clear implicits.

Definition set_f_ref r f := File (f_type f) r (f_readable f) (f_writable f) (f_pipe f) (f_ip f) (f_off f) (f_major f).
Definition set_f_off o f := File (f_type f) (f_ref f) (f_readable f) (f_writable f) (f_pipe f) (f_ip f) o (f_major f).
(** [f->type = FD_PIPE; f->readable = r; f->writable = w; f->pipe = pi;] *)
Definition set_f_pipe (r w : bool) pi f := File FD_PIPE (f_ref f) r w pi (f_ip f) (f_off f) (f_major f).

Section File.
Context {T H U : Type} `{TxOps T H} `{UserMem U}.
(** The calling process, and whether it has been killed. *)
Context (pid : Z) (killed : bool).
Abbreviation G := (M (file_st T U)).

(** [devsw[major].read] and [.write], [None] for a null function pointer. *)
Context (dev_read dev_write : Z -> option (Z -> Z -> G Z)).

Definition set_file (i : nat) (f : file -> file) : G () :=
  modify (fun s => FileSt _ _ (alter f i (ft_file s)) (ft_pipe s) (ft_free s) (ft_fs s)).
Definition file_at (i : nat) : G file := gets (fun s => ft_file s !!! i).
Definition fsM {A} (m : M (fs_st T U) A) : G A :=
  zoom ft_fs (fun fs s => FileSt _ _ (ft_file s) (ft_pipe s) (ft_free s) fs) m.
Definition set_pipe (pi : Z) (p : pipe) : G () :=
  modify (fun s => FileSt _ _ (ft_file s) (<[pi := p]> (ft_pipe s)) (ft_free s) (ft_fs s)).

Definition fileinit : G () :=
  modify (fun s => FileSt _ _ (replicate NFILE empty_file) (ft_pipe s) (ft_free s) (ft_fs s)).

(** The scan of [filealloc] from entry [i]. *)
Fixpoint find_unused (fs : list file) (i : nat) : option nat :=
  match fs with
  | [] => None
  | f :: fs' => if f_ref f =? 0 then Some i else find_unused fs' (S i)
  end.
Definition filealloc : G (option nat) :=
  let* fs := gets ft_file in
  match find_unused fs 0 with
  | Some i => set_file i (fun _ => set_f_ref 1 empty_file) ;;; mreturn (Some i)
  | None => mreturn None
  end.

Definition filedup (f : option nat) : G (option nat) :=
  match f with
  | None => mreturn None
  | Some i =>
      let* ff := file_at i in
      if f_ref ff <? 1 then panic "filedup" else
      set_file i (fun f => set_f_ref (i32 (f_ref f + 1)) f) ;;;
      mreturn (Some i)
  end.

(** [pipeclose(pi, writable)]: the page goes back to the allocator when both
    ends are closed. *)
Definition pipeclose_at (pi : Z) (writable : bool) : G () :=
  let* ps := gets ft_pipe in
  match ps !! pi with
  | None => panic "null dereference"
  | Some p =>
      let '(p', freed) := pipeclose p writable in
      if freed
      then modify (fun s => FileSt _ _ (ft_file s) (delete pi (ft_pipe s)) (pi :: ft_free s) (ft_fs s))
      else set_pipe pi p'
  end.

Definition fileclose (f : option nat) : G () :=
  match f with
  | None => skip
  | Some i =>
      let* ff := file_at i in
      if f_ref ff <? 1 then panic "fileclose" else
      if f_ref ff - 1 >? 0 then set_file i (set_f_ref (f_ref ff - 1)) else
      set_file i (fun _ => empty_file) ;;;
      match f_type ff with
      | FD_PIPE => pipeclose_at (f_pipe ff) (f_writable ff)
      | FD_INODE | FD_DEVICE =>
          fsM (txM tx_begin_op) ;;;
          (match f_ip ff with
           | Some ip => fsM (iput pid ip)
           | None => panic "null dereference"
           end) ;;;
          fsM (txM tx_end_op)
      | FD_NONE => skip
      end
  end.

Definition pipealloc : G (option (nat * nat)) :=
  let* f0 := filealloc in
  match f0 with
  | None => mreturn None
  | Some f0 =>
      let* f1 := filealloc in
      match f1 with
      | None => fileclose (Some f0) ;;; mreturn None
      | Some f1 =>
          let* free := gets ft_free in
          match free with
          | [] => fileclose (Some f0) ;;; fileclose (Some f1) ;;; mreturn None
          | pi :: free' =>
              modify (fun s => FileSt _ _ (ft_file s) (<[pi := pipe_init (replicate 512 5)]> (ft_pipe s)) free' (ft_fs s)) ;;;
              set_file f0 (set_f_pipe true false pi) ;;;
              set_file f1 (set_f_pipe false true pi) ;;;
              mreturn (Some (f0, f1))
          end
      end
  end.

(** [struct stat] in memory; [pad] is what the four bytes of padding before
    [size] hold. *)
Definition stat_bytes (pad : list Z) (st : stat) : list Z :=
  le_bytes 4 (st_dev st) ++ le_bytes 4 (st_ino st) ++ le_bytes 2 (st_type st) ++ le_bytes 2 (st_nlink st)
  ++ pad ++ le_bytes 8 (st_size st).

Definition filestat (pad : list Z) (f : option nat) (addr : Z) : G Z :=
  match f with
  | None => mreturn (-1)
  | Some i =>
      let* ff := file_at i in
      match f_type ff, f_ip ff with
      | (FD_INODE | FD_DEVICE), None => mreturn (-1)
      | (FD_INODE | FD_DEVICE), Some ip =>
          fsM (ilock pid (Some ip)) ;;;
          let* ino := fsM (inode_at ip) in
          fsM (iunlock pid (Some ip)) ;;;
          let* ok := fsM (either_copyout (UserDst addr) 0 (stat_bytes pad (stati ino))) in
          if negb ok then mreturn (-1) else mreturn 0
      | _, _ => mreturn (-1)
      end
  end.

Definition piperead_at (pi addr n : Z) : G Z :=
  let* ps := gets ft_pipe in
  match ps !! pi with
  | None => panic "null dereference"
  | Some p =>
      let* u := gets (fun s => fs_user (ft_fs s)) in
      let '(r, u', p') := piperead killed u addr n p in
      fsM (modify (set_fs_user u')) ;;;
      set_pipe pi p' ;;;
      match r with PrDone r => mreturn r | PrBlocked => sleep end
  end.
Definition pipewrite_at (pi addr n : Z) : G Z :=
  let* ps := gets ft_pipe in
  match ps !! pi with
  | None => panic "null dereference"
  | Some p =>
      let* u := gets (fun s => fs_user (ft_fs s)) in
      let '(r, p') := pipewrite killed u addr n 0 p in
      set_pipe pi p' ;;;
      match r with PwDone r => mreturn r | PwBlocked _ => sleep end
  end.

Definition fileread (f : option nat) (addr n : Z) : G Z :=
  match f with
  | None => mreturn (-1)
  | Some i =>
      let* ff := file_at i in
      if negb (f_readable ff) then mreturn (-1) else
      if n <? 0 then mreturn (-1) else
      if n =? 0 then mreturn 0 else
      match f_type ff with
      | FD_PIPE => piperead_at (f_pipe ff) addr n
      | FD_DEVICE =>
          if (f_major ff <? 0) || (f_major ff >=? NDEV) then mreturn (-1) else
          match dev_read (f_major ff) with
          | None => mreturn (-1)
          | Some read => read addr n
          end
      | FD_INODE =>
          match f_ip ff with
          | None => mreturn (-1)
          | Some ip =>
              fsM (ilock pid (Some ip)) ;;;
              let* r := fsM (readi ip (UserDst addr) (f_off ff) n) in
              (when (i32 r.1 >? 0) do set_file i (fun f => set_f_off (u32 (f_off f + r.1)) f)) ;;;
              fsM (iunlock pid (Some ip)) ;;;
              mreturn (i32 r.1)
          end
      | FD_NONE => panic "fileread"
      end
  end.

(** Bytes [filewrite] writes in one transaction. *)
Definition write_max : Z := (MAXOPBLOCKS - 1 - 1 - 2) / 2 * BSIZE.

(** The loop of [filewrite] at [i]: the value is [i] at the end. *)
Fixpoint filewrite_loop (fuel : nat) (fd ip : nat) (addr n i : Z) : G Z :=
  match fuel with
  | O => diverge
  | S fuel' =>
      if negb (i <? n) then mreturn i else
      let n1 := if n - i >? write_max then write_max else n - i in
      fsM (txM tx_begin_op) ;;;
      fsM (ilock pid (Some ip)) ;;;
      let* ff := file_at fd in
      let* r := fsM (writei ip (UserSrc (u64 (addr + i))) (f_off ff) n1) in
      (when (r >? 0) do set_file fd (fun f => set_f_off (u32 (f_off f + r)) f)) ;;;
      fsM (iunlock pid (Some ip)) ;;;
      fsM (txM tx_end_op) ;;;
      if negb (r =? n1) then mreturn i
      else filewrite_loop fuel' fd ip addr n (i + r)
  end.

Definition filewrite (f : option nat) (addr n : Z) : G Z :=
  match f with
  | None => mreturn (-1)
  | Some fd =>
      let* ff := file_at fd in
      if negb (f_writable ff) then mreturn (-1) else
      if n <? 0 then mreturn (-1) else
      if n =? 0 then mreturn 0 else
      match f_type ff with
      | FD_PIPE => pipewrite_at (f_pipe ff) addr n
      | FD_DEVICE =>
          if (f_major ff <? 0) || (f_major ff >=? NDEV) then mreturn (-1) else
          match dev_write (f_major ff) with
          | None => mreturn (-1)
          | Some write => write addr n
          end
      | FD_INODE =>
          match f_ip ff with
          | None => mreturn (-1)
          | Some ip =>
              let* i := filewrite_loop (S (Z.to_nat n)) fd ip addr n 0 in
              mreturn (if i =? n then n else -1)
          end
      | FD_NONE => panic "filewrite"
      end
  end.
End File.
