(* ===== verification/FileProof.v ===== *)
(** The file table and its pipes: reference counts, the two ends of every
    pipe, and the pages they live in. *)

From S2P Require Import Prelude.
From S2P Require Import Bytes.
From S2P Require Import BlockCache.
From S2P Require Import TxStore.
From S2P Require Import UserMem.
From S2P Require Import Pipe.
From S2P Require Import Fs.
From S2P Require Import File.

(** Whether the end of a pipe named by a file's [writable] flag is open. *)
Definition open_end (w : bool) (p : pipe) : bool := if w then pi_writeopen p else pi_readopen p.

Lemma pipeclose_ends p w :
  let '(p', freed) := pipeclose p w in
  open_end w p' = false /\ open_end (negb w) p' = open_end (negb w) p /\ freed = negb (open_end (negb w) p)
  /\ (pipe_inv p -> pipe_inv p').
Proof.
  destruct p as [d r wr ro wo], w, ro, wo; simpl; (do 3 (split; [done|])); intros [? ? ? ?]; by split.
Qed.

Section Inv.
Context {T U : Type}.
Implicit Types s : file_st T U.

(** Entry [i] of the table is the end [w] of the pipe [pi]. *)
Definition is_end (fs : list file) (i : nat) (pi : Z) (w : bool) : Prop :=
  exists f, fs !! i = Some f /\ f_type f = FD_PIPE /\ f_pipe f = pi /\ f_writable f = w.

Record file_inv (s : file_st T U) : Prop := {
  fi_len : length (ft_file s) = NFILE;
  fi_ref i f : ft_file s !! i = Some f -> 0 <= f_ref f < 2 ^ 31;
  fi_empty i f : ft_file s !! i = Some f -> f_ref f = 0 -> f = empty_file;
  fi_end i pi w : is_end (ft_file s) i pi w -> exists p, ft_pipe s !! pi = Some p /\ open_end w p = true;
  fi_uniq i j pi w : is_end (ft_file s) i pi w -> is_end (ft_file s) j pi w -> i = j;
  fi_live pi p w : ft_pipe s !! pi = Some p -> open_end w p = true -> exists i, is_end (ft_file s) i pi w;
  fi_some pi p : ft_pipe s !! pi = Some p -> exists w, open_end w p = true;
  fi_ring pi p : ft_pipe s !! pi = Some p -> pipe_inv p;
  fi_nodup : NoDup (ft_free s);
  fi_apart pi : pi ∈ ft_free s -> ft_pipe s !! pi = None }.

(** The pages the files and the allocator share. *)
Definition pages s : gset Z := list_to_set (ft_free s) ∪ dom (ft_pipe s).

(** What the operations on file contents may change: offsets, and the contents
    of pipes. *)
Definition same_file (f g : file) : Prop :=
  f_type g = f_type f /\ f_ref g = f_ref f /\ f_writable g = f_writable f /\ f_pipe g = f_pipe f /\ (f_type f = FD_NONE -> g = f).
Record same_shape s s' : Prop := {
  ss_files i : match ft_file s !! i, ft_file s' !! i with
               | Some f, Some g => same_file f g | None, None => True | _, _ => False end;
  ss_len : length (ft_file s') = length (ft_file s);
  ss_pipes pi : match ft_pipe s !! pi, ft_pipe s' !! pi with
                | Some p, Some q => (pipe_inv p -> pipe_inv q) /\ forall w, open_end w q = open_end w p
                | None, None => True | _, _ => False end;
  ss_free : ft_free s' = ft_free s }.

Lemma same_shape_refl s : same_shape s s.
Proof.
  split; [intros i; by destruct (ft_file s !! i) | done | intros pi; by destruct (ft_pipe s !! pi) | done].
Qed.

Lemma same_shape_trans s1 s2 s3 : same_shape s1 s2 -> same_shape s2 s3 -> same_shape s1 s3.
Proof.
  intros [A1 A2 A3 A4] [B1 B2 B3 B4]. split; try congruence.
  - intros i. specialize (A1 i). specialize (B1 i). unfold same_file in *.
    destruct (ft_file s1 !! i), (ft_file s2 !! i), (ft_file s3 !! i); try done. naive_solver congruence.
  - intros pi. specialize (A3 pi). specialize (B3 pi).
    destruct (ft_pipe s1 !! pi), (ft_pipe s2 !! pi), (ft_pipe s3 !! pi); try done. destruct A3, B3. split; [tauto|]. intros w. congruence.
Qed.

Lemma same_shape_end s s' i pi w : same_shape s s' -> is_end (ft_file s') i pi w <-> is_end (ft_file s) i pi w.
Proof.
  intros [A _ _ _]. specialize (A i). unfold is_end, same_file in *.
  destruct (ft_file s !! i) as [f|], (ft_file s' !! i) as [g|]; try done.
  destruct A as (? & ? & ? & ? & _). split; intros (x & [= <-] & ? & ? & ?); eexists; (split; [done|]); split_and!; congruence.
Qed.

Lemma same_shape_inv s s' : same_shape s s' -> file_inv s -> file_inv s' /\ pages s' = pages s.
Proof.
  intros Hs [I1 I2 I3 I4 I5 I6 I7 I8 I9 I10]. pose proof Hs as [A1 A2 A3 A4]. split; [split|].
  - congruence.
  - intros i g Hg. specialize (A1 i). rewrite Hg in A1. destruct (ft_file s !! i) as [f|] eqn:E; [|done].
    destruct A1 as (_ & -> & _). by eapply I2.
  - intros i g Hg H0. specialize (A1 i). rewrite Hg in A1. destruct (ft_file s !! i) as [f|] eqn:E; [|done].
    destruct A1 as (_ & Hr & _ & _ & He). assert (f = empty_file) as -> by (apply (I3 i); congruence). by apply He.
  - intros i pi w He. apply (same_shape_end s s') in He; [|done]. destruct (I4 _ _ _ He) as (p & Hp & Ho).
    specialize (A3 pi). rewrite Hp in A3. destruct (ft_pipe s' !! pi) as [q|]; [|done]. exists q. split; [done|]. by rewrite (proj2 A3).
  - intros i j pi w Hi Hj. apply (same_shape_end s s') in Hi, Hj; [by eapply I5 | done | done].
  - intros pi q w Hq Ho. specialize (A3 pi). rewrite Hq in A3. destruct (ft_pipe s !! pi) as [p|] eqn:E; [|done].
    rewrite (proj2 A3) in Ho. destruct (I6 _ _ _ E Ho) as [i Hi]. exists i. by apply (same_shape_end s s').
  - intros pi q Hq. specialize (A3 pi). rewrite Hq in A3. destruct (ft_pipe s !! pi) as [p|] eqn:E; [|done].
    destruct (I7 _ _ E) as [w Hw]. exists w. by rewrite (proj2 A3).
  - intros pi q Hq. specialize (A3 pi). rewrite Hq in A3. destruct (ft_pipe s !! pi) as [p|] eqn:E; [|done]. by apply A3, (I8 pi).
  - by rewrite A4.
  - intros pi Hpi. rewrite A4 in Hpi. apply I10 in Hpi. specialize (A3 pi). rewrite Hpi in A3. by destruct (ft_pipe s' !! pi).
  - unfold pages. rewrite A4. f_equal. apply set_eq. intros pi. rewrite !elem_of_dom. specialize (A3 pi).
    destruct (ft_pipe s !! pi), (ft_pipe s' !! pi); try done; split; by intros [? ?].
Qed.
End Inv.

(** ** Runs *)

Lemma mthen_inv {S A B} (m : M S A) (k : A -> M S B) s r s' :
  mthen m k s = Ret r s' -> exists a s1, m s = Ret a s1 /\ k a s1 = Ret r s'.
Proof. unfold mthen. destruct (m s); try done. eauto. Qed.
Ltac step H :=
  let a := fresh "a" in let s1 := fresh "s1" in let R := fresh "R" in
  apply mthen_inv in H as (a & s1 & R & H).
Ltac gstep H := rewrite mthen_gets in H.

Section Runs.
Context {T H U : Type} `{TxOps T H} `{UserMem U}.
Context (pid : Z) (killed : bool).
Implicit Types s : file_st T U.

Lemma fsM_shape {A} (m : M (fs_st T U) A) s a s' : fsM m s = Ret a s' -> same_shape s s'.
Proof.
  unfold fsM, zoom. destruct (m (ft_fs s)); try done. intros [= <- <-].
  split; simpl; [intros i; by destruct (ft_file s !! i) | done | intros pi; by destruct (ft_pipe s !! pi) | done].
Qed.

Lemma set_file_shape i f s s' : (forall g, ft_file s !! i = Some g -> same_file g (f g)) -> set_file i f s = Ret tt s' -> same_shape s s'.
Proof.
  intros Hf [= <-]. split; simpl; [|by rewrite length_alter | intros pi; by destruct (ft_pipe s !! pi) | done].
  intros j. destruct (decide (i = j)) as [<-|Hne].
  - rewrite list_lookup_alter_eq. destruct (ft_file s !! i); simpl; [by apply Hf | done].
  - rewrite list_lookup_alter_ne by done. by destruct (ft_file s !! j).
Qed.

Lemma set_pipe_shape pi p q s s' :
  ft_pipe s !! pi = Some p -> (pipe_inv p -> pipe_inv q) -> (forall w, open_end w q = open_end w p) ->
  set_pipe pi q s = Ret tt s' -> same_shape s s'.
Proof.
  intros Hp Hi Ho [= <-]. split; simpl; [intros i; by destruct (ft_file s !! i) | done | | done].
  intros x. destruct (decide (pi = x)) as [<-|Hne].
  - rewrite lookup_insert_eq, Hp. done.
  - rewrite lookup_insert_ne by done. by destruct (ft_pipe s !! x).
Qed.

Lemma piperead_keeps u addr n p r u' p' :
  piperead killed u addr n p = (r, u', p') -> (pipe_inv p -> pipe_inv p') /\ forall w, open_end w p' = open_end w p.
Proof.
  assert (forall fuel u i p r u' p', piperead_loop fuel u addr i p = (r, u', p') ->
    (pipe_inv p -> pipe_inv p') /\ forall w, open_end w p' = open_end w p) as Hl.
  { clear. induction fuel as [|fuel IH]; intros u i p r u' p'; cbn [piperead_loop]; [by intros [= _ _ <-]|].
    destruct (Z.eqb_spec (pi_nread p) (pi_nwrite p)) as [|Hne]; [by intros [= _ _ <-]|].
    destruct (pipe_get p) as [ch p1] eqn:Hg.
    assert ((pipe_inv p -> pipe_inv p1) /\ forall w, open_end w p1 = open_end w p) as [K1 K2].
    { split; [|injection Hg as <- <-; by intros []]. intros Hi. eapply pipe_get_spec; [exact Hi | | exact Hg].
      pose proof (pipe_empty p Hi) as He. destruct (Z.eqb_spec (pi_nread p) (pi_nwrite p)); [done|].
      pose proof (u32_range (pi_nwrite p - pi_nread p)) as Hr. unfold pipe_len in *. symmetry in He. apply Z.eqb_neq in He. lia. }
    destruct (um_store u _ ch) as [u1|]; [|by intros [= _ _ <-]].
    intros HR. destruct (IH _ _ _ _ _ _ HR) as [K3 K4]. split; [tauto|]. intros w. by rewrite K4. }
  unfold piperead. destruct (_ && _); [destruct killed; by intros [= _ _ <-]|].
  destruct (piperead_loop _ _ _ _ _) as [[r0 u0] p0] eqn:E. intros [= _ _ <-]. by eapply Hl.
Qed.

Lemma pipewrite_keeps u addr n p r p' :
  pipewrite killed u addr n 0 p = (r, p') -> (pipe_inv p -> pipe_inv p') /\ forall w, open_end w p' = open_end w p.
Proof.
  unfold pipewrite. generalize (Z.to_nat (n - Z.of_nat 0)) as fuel. intros fuel. generalize 0%nat as i. revert p. induction fuel as [|fuel IH]; intros p i; cbn [pipewrite_loop]; [by intros [= _ <-]|].
  destruct (_ || _); [by intros [= _ <-]|]. destruct (Z.eqb_spec (pi_nwrite p) (u32 (pi_nread p + PIPESIZE))) as [|Hne]; [by intros [= _ <-]|].
  destruct (um_load u _) as [ch|]; [|by intros [= _ <-]]. intros HR. destruct (IH _ _ HR) as [K3 K4].
  assert ((pipe_inv p -> pipe_inv (pipe_put ch p)) /\ forall w, open_end w (pipe_put ch p) = open_end w p) as [K1 K2].
  { split; [|by intros []]. intros Hi. apply pipe_put_spec; [done|]. pose proof (pipe_full p Hi) as Hf.
    destruct (Z.eqb_spec (pi_nwrite p) (u32 (pi_nread p + PIPESIZE))); [done|]. symmetry in Hf. apply Z.eqb_neq in Hf.
    pose proof (pp_fill _ Hi). lia. }
  split; [tauto|]. intros w. by rewrite K4.
Qed.

Lemma piperead_at_shape pi addr n s r s' : piperead_at killed pi addr n s = Ret r s' -> same_shape s s'.
Proof.
  unfold piperead_at. intros HR. gstep HR. destruct (ft_pipe s !! pi) as [p|] eqn:Hp; [|done]. gstep HR.
  destruct (piperead killed _ addr n p) as [[r0 u'] p'] eqn:E. destruct (piperead_keeps _ _ _ _ _ _ _ E) as [K1 K2].
  step HR. pose proof (fsM_shape _ _ _ _ R) as S1. step HR. destruct a0.
  assert (ft_pipe s1 !! pi = Some p) as Hp1 by (cbn in R; injection R as E1 E2; by subst s1).
  pose proof (set_pipe_shape _ _ _ _ _ Hp1 K1 K2 R0) as S2. destruct r0; [|done]. injection HR as _ <-. by eapply same_shape_trans.
Qed.
Lemma pipewrite_at_shape pi addr n s r s' : pipewrite_at killed pi addr n s = Ret r s' -> same_shape s s'.
Proof.
  unfold pipewrite_at. intros HR. gstep HR. destruct (ft_pipe s !! pi) as [p|] eqn:Hp; [|done]. gstep HR.
  destruct (pipewrite killed _ addr n 0 p) as [r0 p'] eqn:E. destruct (pipewrite_keeps _ _ _ _ _ _ E) as [K1 K2].
  step HR. destruct a. pose proof (set_pipe_shape _ _ _ _ _ Hp K1 K2 R) as S2. destruct r0; [|done]. by injection HR as _ <-.
Qed.

(** Device functions leave the file table alone. *)
Definition dev_frame (dev : Z -> option (Z -> Z -> M (file_st T U) Z)) : Prop :=
  forall major op addr n s r s', dev major = Some op -> op addr n s = Ret r s' -> same_shape s s'.

Lemma set_off_shape i off s s' :
  f_type (ft_file s !!! i) <> FD_NONE -> set_file i (fun f => set_f_off (off f) f) s = Ret tt s' -> same_shape s s'.
Proof.
  intros Hn. apply set_file_shape. intros g Hg. rewrite (list_lookup_total_correct _ _ _ Hg) in Hn. by do 4 (split; [done|]).
Qed.
Lemma shape_type s s' i : same_shape s s' -> f_type (ft_file s' !!! i) = f_type (ft_file s !!! i).
Proof.
  intros [Hs _ _ _]. specialize (Hs i). rewrite !list_lookup_total_alt.
  destruct (ft_file s !! i), (ft_file s' !! i); try done. by destruct Hs.
Qed.

Lemma fileread_shape dev f addr n s r s' :
  dev_frame dev -> fileread pid killed dev f addr n s = Ret r s' -> same_shape s s'.
Proof.
  intros Hd. destruct f as [i|]; [|intros [= _ <-]; apply same_shape_refl]. unfold fileread, file_at. intros HR. gstep HR.
  repeat match type of HR with (if ?b then _ else _) _ = _ => destruct b; [injection HR as _ <-; apply same_shape_refl|] end.
  destruct (f_type (ft_file s !!! i)) eqn:Et; [done | by eapply piperead_at_shape | |].
  - destruct (f_ip _) as [ip|]; [|injection HR as _ <-; apply same_shape_refl].
    step HR. apply fsM_shape in R. step HR. apply fsM_shape in R0. step HR. step HR. apply fsM_shape in R2. injection HR as _ <-.
    assert (same_shape s s0) as Hs0 by (by eapply same_shape_trans).
    eapply same_shape_trans; [exact Hs0|]. eapply same_shape_trans; [|exact R2].
    destruct (_ >? 0); [|injection R1 as _ <-; apply same_shape_refl]. destruct a1.
    eapply set_off_shape; [|exact R1]. rewrite (shape_type _ _ _ Hs0). congruence.
  - destruct (_ || _); [injection HR as _ <-; apply same_shape_refl|].
    destruct (dev _) as [op|] eqn:Ed; [by eapply Hd | injection HR as _ <-; apply same_shape_refl].
Qed.

Lemma filewrite_loop_shape fuel fd ip addr n i s r s' :
  f_type (ft_file s !!! fd) <> FD_NONE -> filewrite_loop pid fuel fd ip addr n i s = Ret r s' -> same_shape s s'.
Proof.
  revert i s. induction fuel as [|fuel IH]; intros i s Ht HR; [done|]. cbn [filewrite_loop] in HR.
  destruct (negb _); [injection HR as _ <-; apply same_shape_refl|].
  step HR. apply fsM_shape in R. step HR. apply fsM_shape in R0. unfold file_at in HR. gstep HR. step HR. apply fsM_shape in R1.
  step HR. step HR. apply fsM_shape in R3. step HR. apply fsM_shape in R4.
  assert (same_shape s s2) as Hs2 by (eapply same_shape_trans; [exact R | by eapply same_shape_trans]).
  assert (same_shape s2 s3) as Hs3.
  { destruct (_ >? 0); [|injection R2 as _ <-; apply same_shape_refl]. destruct a2.
    eapply set_off_shape; [|exact R2]. by rewrite (shape_type _ _ _ Hs2). }
  assert (same_shape s s5) as Hs5.
  { eapply same_shape_trans; [exact Hs2|]. eapply same_shape_trans; [exact Hs3|]. by eapply same_shape_trans. }
  destruct (negb _); [by injection HR as _ <-|]. eapply same_shape_trans; [exact Hs5|]. eapply IH; [|exact HR].
  by rewrite (shape_type _ _ _ Hs5).
Qed.

Lemma filewrite_shape dev f addr n s r s' :
  dev_frame dev -> filewrite pid killed dev f addr n s = Ret r s' -> same_shape s s'.
Proof.
  intros Hd. destruct f as [i|]; [|intros [= _ <-]; apply same_shape_refl]. unfold filewrite, file_at. intros HR. gstep HR.
  repeat match type of HR with (if ?b then _ else _) _ = _ => destruct b; [injection HR as _ <-; apply same_shape_refl|] end.
  destruct (f_type (ft_file s !!! i)) eqn:Et; [done | by eapply pipewrite_at_shape | |].
  - destruct (f_ip _) as [ip|]; [|injection HR as _ <-; apply same_shape_refl]. step HR. injection HR as _ <-.
    eapply filewrite_loop_shape; [|exact R]. by rewrite Et.
  - destruct (_ || _); [injection HR as _ <-; apply same_shape_refl|].
    destruct (dev _) as [op|] eqn:Ed; [by eapply Hd | injection HR as _ <-; apply same_shape_refl].
Qed.
End Runs.

(** ** Table operations *)

Section Table.
Context {T H U : Type} `{TxOps T H} `{UserMem U}.
Context (pid : Z).
Implicit Types s : file_st T U.

Definition end_of (f : file) (pi : Z) (w : bool) : Prop := f_type f = FD_PIPE /\ f_pipe f = pi /\ f_writable f = w.

Lemma is_end_insert fs i g j pi w :
  (i < length fs)%nat -> is_end (<[i := g]> fs) j pi w <-> if decide (j = i) then end_of g pi w else is_end fs j pi w.
Proof.
  intros Hi. unfold is_end. case_decide as E.
  - subst j. rewrite list_lookup_insert_eq by done. split; [by intros (f & [= <-] & ?) | intros ?; by exists g].
  - by rewrite list_lookup_insert_ne.
Qed.

(** Replacing an entry by one that is the same pipe end, or none. *)
Lemma inv_replace s i f g :
  file_inv s -> ft_file s !! i = Some f -> 0 <= f_ref g < 2 ^ 31 -> (f_ref g = 0 -> g = empty_file) ->
  (forall pi w, end_of g pi w <-> end_of f pi w) ->
  file_inv (FileSt T U (<[i := g]> (ft_file s)) (ft_pipe s) (ft_free s) (ft_fs s)).
Proof.
  intros [I1 I2 I3 I4 I5 I6 I7 I8 I9 I10] Hf Hr He Hg. pose proof (lookup_lt_Some _ _ _ Hf) as Hi.
  assert (forall j pi w, is_end (<[i := g]> (ft_file s)) j pi w <-> is_end (ft_file s) j pi w) as Hend.
  { intros j pi w. rewrite is_end_insert by done. case_decide; [subst j|done]. rewrite Hg.
    unfold is_end, end_of. rewrite Hf. split; [intros; by exists f | by intros (? & [= <-] & ?)]. }
  split; simpl; try done.
  - by rewrite length_insert.
  - intros j x. rewrite list_lookup_insert_Some. intros [(_ & <- & _)|[_ ?]]; [done | by eapply I2].
  - intros j x. rewrite list_lookup_insert_Some. intros [(_ & <- & _)|[_ ?]]; [done | by eapply I3].
  - intros j pi w. rewrite Hend. apply I4.
  - intros j k pi w. rewrite !Hend. apply I5.
  - intros pi p w Hp Ho. destruct (I6 pi p w Hp Ho) as [j Hj]. exists j. by apply Hend.
Qed.

Lemma find_unused_spec fs k :
  match find_unused fs k with
  | Some i => exists f, (k <= i)%nat /\ fs !! (i - k)%nat = Some f /\ f_ref f = 0
                /\ forall j g, (j < i - k)%nat -> fs !! j = Some g -> f_ref g <> 0
  | None => forall j g, fs !! j = Some g -> f_ref g <> 0
  end.
Proof.
  revert k. induction fs as [|f fs IH]; intros k; simpl; [done|]. destruct (Z.eqb_spec (f_ref f) 0) as [Hf|Hf].
  { exists f. rewrite Nat.sub_diag. split; [lia|]. split; [done|]. split; [done|]. lia. }
  specialize (IH (S k)). destruct (find_unused fs (S k)) as [i|].
  - destruct IH as (g & Hk & Hg & Hr & Hb). exists g. split; [lia|].
    replace (i - k)%nat with (S (i - S k)) by lia. split; [done|]. split; [done|].
    intros [|j] x Hj Hx; simpl in Hx; [congruence|]. apply (Hb j); [lia|done].
  - intros [|j] x Hx; simpl in Hx; [congruence | by apply (IH j)].
Qed.

(** [filealloc] takes the first unused entry, or finds every entry in use. *)
Lemma filealloc_spec s :
  file_inv s ->
  (exists i s', filealloc s = Ret (Some i) s' /\ ft_file s !! i = Some empty_file
     /\ (forall j g, (j < i)%nat -> ft_file s !! j = Some g -> 0 < f_ref g)
     /\ s' = FileSt T U (<[i := set_f_ref 1 empty_file]> (ft_file s)) (ft_pipe s) (ft_free s) (ft_fs s) /\ file_inv s')
  \/ (filealloc s = Ret None s /\ forall j g, ft_file s !! j = Some g -> 0 < f_ref g).
Proof.
  intros Hi. unfold filealloc. rewrite mthen_gets. pose proof (find_unused_spec (ft_file s) 0) as Hs.
  destruct (find_unused (ft_file s) 0) as [i|].
  - left. destruct Hs as (f & _ & Hf & Hr & Hb). rewrite Nat.sub_0_r in *. pose proof (fi_empty _ Hi _ _ Hf Hr) as ->.
    exists i. eexists. split; [reflexivity|]. split; [done|].
    split; [intros j g Hj Hg; pose proof (fi_ref _ Hi _ _ Hg); pose proof (Hb j g Hj Hg); lia|].
    split; [by rewrite (alter_insert _ _ _ _ Hf)|]. simpl. rewrite (alter_insert _ _ _ _ Hf).
    apply (inv_replace s i empty_file); try done.
  - right. split; [done|]. intros j g Hg. pose proof (Hs j g Hg). pose proof (fi_ref _ Hi _ _ Hg). lia.
Qed.

Lemma filedup_inv s f r s' :
  file_inv s -> (forall i g, ft_file s !! i = Some g -> f_ref g < 2 ^ 31 - 1) ->
  filedup f s = Ret r s' -> file_inv s' /\ pages s' = pages s.
Proof.
  intros Hi Hb. destruct f as [i|]; [|by intros [= _ <-]]. unfold filedup, file_at. rewrite mthen_gets.
  destruct (ft_file s !! i) as [f|] eqn:Hf; [|rewrite (list_lookup_total_alt _ i), Hf; done].
  rewrite (list_lookup_total_correct _ _ _ Hf). destruct (Z.ltb_spec (f_ref f) 1); [done|].
  intros [= _ <-]. split; [|done]. simpl. rewrite (alter_insert _ _ _ _ Hf).
  pose proof (Hb _ _ Hf). apply (inv_replace s i f); try done; simpl; rewrite i32_small by lia; lia.
Qed.

(** Closing an end of a pipe. *)
Lemma close_end s i f p :
  file_inv s -> ft_file s !! i = Some f -> f_type f = FD_PIPE -> ft_pipe s !! f_pipe f = Some p ->
  let '(p', freed) := pipeclose p (f_writable f) in
  let files := <[i := empty_file]> (ft_file s) in
  let s' := if freed then FileSt T U files (delete (f_pipe f) (ft_pipe s)) (f_pipe f :: ft_free s) (ft_fs s)
            else FileSt T U files (<[f_pipe f := p']> (ft_pipe s)) (ft_free s) (ft_fs s) in
  file_inv s' /\ pages s' = pages s.
Proof.
  intros Hinv Hf Ht Hp. pose proof Hinv as [I1 I2 I3 I4 I5 I6 I7 I8 I9 I10]. pose proof (lookup_lt_Some _ _ _ Hf) as Hi.
  pose proof (pipeclose_ends p (f_writable f)) as He. destruct (pipeclose p (f_writable f)) as [p' freed].
  destruct He as (E1 & E2 & E3 & E4). set (w := f_writable f) in *. set (pi := f_pipe f) in *. cbv zeta.
  assert (is_end (ft_file s) i pi w) as Hend by (by exists f).
  assert (forall j x v, is_end (<[i := empty_file]> (ft_file s)) j x v <-> j <> i /\ is_end (ft_file s) j x v) as Hme.
  { intros j x v. rewrite is_end_insert by done. case_decide; [|naive_solver]. split; [by intros [? _] | naive_solver]. }
  assert (forall j v, is_end (ft_file s) j pi v -> j <> i -> v = negb w) as Hother.
  { intros j v Hj Hne. destruct (decide (v = w)) as [->|Hv]; [by destruct (Hne (I5 _ _ _ _ Hj Hend))|]. by destruct v, w. }
  assert (file_inv (FileSt T U (<[i := empty_file]> (ft_file s)) (if freed then delete pi (ft_pipe s) else <[pi := p']> (ft_pipe s))
    (if freed then pi :: ft_free s else ft_free s) (ft_fs s))) as Hres.
  { split; simpl.
    - by rewrite length_insert.
    - intros j x. rewrite list_lookup_insert_Some. intros [(_ & <- & _)|[_ ?]]; [done | by eapply I2].
    - intros j x. rewrite list_lookup_insert_Some. intros [(_ & <- & _)|[_ ?]]; [done | by eapply I3].
    - intros j x v. rewrite Hme. intros [Hne Hj]. destruct (I4 _ _ _ Hj) as (q & Hq & Ho). destruct (decide (x = pi)) as [->|Hx].
      + pose proof (Hother _ _ Hj Hne) as ->. assert (q = p) as -> by congruence. rewrite E3, Ho. simpl.
        exists p'. rewrite lookup_insert_eq, E2. done.
      + exists q. split; [|done]. destruct freed; [by rewrite lookup_delete_ne | by rewrite lookup_insert_ne].
    - intros j k x v. rewrite !Hme. intros [_ ?] [_ ?]. by eapply I5.
    - intros x q v Hq Ho. destruct (decide (x = pi)) as [->|Hx].
      + destruct freed; [by rewrite lookup_delete_eq in Hq|]. rewrite lookup_insert_eq in Hq. injection Hq as <-.
        destruct (decide (v = w)) as [->|Hv]; [congruence|]. assert (v = negb w) as -> by (by destruct v, w). rewrite E2 in Ho.
        destruct (I6 _ _ _ Hp Ho) as [j Hj]. exists j. apply Hme. split; [|done]. intros ->. destruct Hj as (? & ? & _ & _ & ?).
        by simplify_eq.
      + assert (ft_pipe s !! x = Some q) as Hq' by (destruct freed; [by rewrite lookup_delete_ne in Hq | by rewrite lookup_insert_ne in Hq]).
        destruct (I6 _ _ _ Hq' Ho) as [j Hj]. exists j. apply Hme. split; [|done]. intros ->. destruct Hj as (g & Hg & _ & Hpg & _). unfold pi in Hx. congruence.
    - intros x q Hq. destruct (decide (x = pi)) as [->|Hx].
      + destruct freed; [by rewrite lookup_delete_eq in Hq|]. rewrite lookup_insert_eq in Hq. injection Hq as <-.
        exists (negb w). rewrite E2. by destruct (open_end (negb w) p).
      + apply (I7 x). destruct freed; [by rewrite lookup_delete_ne in Hq | by rewrite lookup_insert_ne in Hq].
    - intros x q Hq. destruct freed; [apply lookup_delete_Some in Hq as [_ Hq]; by eapply I8|].
      apply lookup_insert_Some in Hq as [[<- <-]|[_ Hq]]; [by apply E4, (I8 pi) | by eapply I8].
    - destruct freed; [|done]. constructor; [|done]. intros Hin. apply I10 in Hin. congruence.
    - intros x Hx. destruct freed.
      + apply list_elem_of_In in Hx. destruct Hx as [<-|Hx]; [by rewrite lookup_delete_eq|].
        apply lookup_delete_None. right. by apply I10, list_elem_of_In.
      + rewrite lookup_insert_ne; [by apply I10|]. intros <-. apply I10 in Hx. congruence. }
  assert (pi ∈ dom (ft_pipe s)) as Hdom by (apply elem_of_dom; by eexists).
  destruct freed; (split; [exact Hres|]); unfold pages; simpl; rewrite ?dom_delete_L, ?dom_insert_L.
  - apply set_eq. intros x. destruct (decide (x = pi)); set_solver.
  - set_solver.
Qed.

Lemma end_of_none f pi w : f_type f <> FD_PIPE -> ~ end_of f pi w.
Proof. by intros Hn [? _]. Qed.

Lemma fileclose_inv s f r s' :
  file_inv s -> fileclose pid f s = Ret r s' -> file_inv s' /\ pages s' = pages s.
Proof.
  intros Hi. destruct f as [i|]; [|by intros [= _ <-]]. unfold fileclose, file_at. rewrite mthen_gets.
  destruct (ft_file s !! i) as [f|] eqn:Hf; [|rewrite (list_lookup_total_alt _ i), Hf; done].
  rewrite (list_lookup_total_correct _ _ _ Hf). destruct (Z.ltb_spec (f_ref f) 1); [done|].
  pose proof (fi_ref _ Hi _ _ Hf) as Hr. rewrite Z.gtb_ltb. destruct (Z.ltb_spec 0 (f_ref f - 1)).
  { intros [= _ <-]. split; [|done]. simpl. rewrite (alter_insert _ _ _ _ Hf). apply (inv_replace s i f); try done; simpl; lia. }
  intros HR. step HR. injection R as _ <-. rewrite (alter_insert _ _ _ _ Hf) in HR.
  assert (f_type f <> FD_PIPE -> file_inv (FileSt T U (<[i := empty_file]> (ft_file s)) (ft_pipe s) (ft_free s) (ft_fs s))) as Hplain.
  { intros Hn. apply (inv_replace s i f); try done. intros pi w. split; [by intros [? _] | by intros []%end_of_none]. }
  assert (f_type f <> FD_PIPE -> forall ip,
    (fsM (txM tx_begin_op) ;;; (match ip with Some ip => fsM (iput pid ip) | None => panic "null dereference" end) ;;; fsM (txM tx_end_op))
      (FileSt T U (<[i := empty_file]> (ft_file s)) (ft_pipe s) (ft_free s) (ft_fs s)) = Ret r s' -> file_inv s' /\ pages s' = pages s) as Hino.
  { intros Hn ip HQ. step HQ. apply fsM_shape in R. step HQ. destruct ip as [ip|]; [|done]. apply fsM_shape in R0, HQ.
    pose proof (same_shape_trans _ _ _ R (same_shape_trans _ _ _ R0 HQ)) as Hs. by apply (same_shape_inv _ _ Hs), Hplain. }
  destruct (f_type f) eqn:Ht; [| | by eapply (Hino ltac:(done) (f_ip f)) | by eapply (Hino ltac:(done) (f_ip f))].
  - injection HR as _ <-. split; [by apply Hplain | done].
  - destruct (fi_end _ Hi i (f_pipe f) (f_writable f)) as (p & Hp & _); [by exists f|].
    pose proof (close_end s i f p Hi Hf Ht Hp) as Hc. unfold pipeclose_at in HR. rewrite mthen_gets in HR. cbn [ft_pipe] in HR. rewrite Hp in HR.
    destruct (pipeclose p (f_writable f)) as [p' freed]. destruct freed; injection HR as _ <-; apply Hc.
Qed.

(** Closing a pipe end never panics. *)
Lemma fileclose_pipe_runs s i f :
  file_inv s -> ft_file s !! i = Some f -> f_type f = FD_PIPE -> exists s', fileclose pid (Some i) s = Ret tt s'.
Proof.
  intros Hi Hf Ht. destruct (fi_end _ Hi i (f_pipe f) (f_writable f)) as (p & Hp & _); [by exists f|].
  assert (0 < f_ref f) as Hr.
  { pose proof (fi_ref _ Hi _ _ Hf). destruct (decide (f_ref f = 0)) as [E|]; [|lia]. by rewrite (fi_empty _ Hi _ _ Hf E) in Ht. }
  unfold fileclose, file_at. rewrite mthen_gets, (list_lookup_total_correct _ _ _ Hf).
  destruct (Z.ltb_spec (f_ref f) 1); [lia|]. destruct (_ >? 0); [by eexists|]. rewrite (mthen_ret (set_file i _) _ s tt _ eq_refl).
  rewrite Ht. unfold pipeclose_at. rewrite mthen_gets. cbn [ft_pipe]. rewrite Hp.
  destruct (pipeclose p (f_writable f)) as [p' []]; by eexists.
Qed.

(** A new pipe between two unused entries. *)
Lemma new_pipe s i j pi free' :
  file_inv s -> i <> j -> ft_file s !! i = Some (set_f_ref 1 empty_file) -> ft_file s !! j = Some (set_f_ref 1 empty_file) ->
  ft_free s = pi :: free' ->
  let files := <[j := set_f_pipe false true pi (set_f_ref 1 empty_file)]> (<[i := set_f_pipe true false pi (set_f_ref 1 empty_file)]> (ft_file s)) in
  let s' := FileSt T U files (<[pi := pipe_init (replicate 512 5)]> (ft_pipe s)) free' (ft_fs s) in
  file_inv s' /\ pages s' = pages s.
Proof.
  intros Hinv Hij Hi Hj Hfr files s'. pose proof Hinv as [I1 I2 I3 I4 I5 I6 I7 I8 I9 I10].
  pose proof (lookup_lt_Some _ _ _ Hi) as Li. pose proof (lookup_lt_Some _ _ _ Hj) as Lj.
  rewrite Hfr in I9. apply NoDup_cons in I9 as [Hpf I9]. assert (ft_pipe s !! pi = None) as Hnone by (apply I10; rewrite Hfr; by left).
  assert (forall k x w, is_end files k x w <-> (x = pi /\ (k = i /\ w = false \/ k = j /\ w = true)) \/ (x <> pi /\ is_end (ft_file s) k x w)) as Hme.
  { intros k x w. unfold files. rewrite is_end_insert by (by rewrite length_insert).
    assert (forall k, is_end (ft_file s) k x w -> x <> pi /\ k <> i /\ k <> j) as Hold.
    { intros k' Hk'. split_and!; intros ->; [destruct (I4 _ _ _ Hk') as (? & ? & _); congruence |
        destruct Hk' as (g & Hg & Hgt & _); simplify_eq.. ]. }
    unfold end_of. destruct (decide (k = j)) as [->|Hkj]; [|rewrite is_end_insert by done; destruct (decide (k = i)) as [->|Hki]].
    - split; [intros (_ & E1 & E2); cbn in E1, E2; subst x w; left; split; [done | by right]|].
      intros [[-> [[? _]|[_ ->]]]|[_ Hk]]; [by destruct Hij | done | by destruct (Hold _ Hk) as (_ & _ & ?)].
    - split; [intros (_ & E1 & E2); cbn in E1, E2; subst x w; left; split; [done | by left]|].
      intros [[-> [[_ ->]|[? _]]]|[_ Hk]]; [done | done | by destruct (Hold _ Hk) as (_ & ? & _)].
    - split; [intros Hk; right; split; [by eapply Hold | done] | by intros [[_ [[? _]|[? _]]]|[_ ?]]]. }
  split; [split; simpl|].
  - unfold files. by rewrite !length_insert.
  - intros k x. unfold files. rewrite !list_lookup_insert_Some.
    intros [(_ & <- & _)|[_ [(_ & <- & _)|[_ ?]]]]; [done | done | by eapply I2].
  - intros k x. unfold files. rewrite !list_lookup_insert_Some.
    intros [(_ & <- & _)|[_ [(_ & <- & _)|[_ ?]]]]; [done | done | by eapply I3].
  - intros k x w Hk. apply Hme in Hk as [[-> Hk]|[Hx Hk]].
    + exists (pipe_init (replicate 512 5)). rewrite lookup_insert_eq. split; [done|]. by destruct w.
    + destruct (I4 _ _ _ Hk) as (p & Hp & Ho). exists p. by rewrite lookup_insert_ne.
  - intros k k' x w Hk Hk'. apply Hme in Hk, Hk'. destruct Hk as [[-> Hk]|[Hx Hk]], Hk' as [[? Hk']|[? Hk']]; try done; [naive_solver | by eapply I5].
  - intros x p w Hp Ho. apply lookup_insert_Some in Hp as [[<- <-]|[Hx Hp]].
    + exists (if w then j else i). apply Hme. left. split; [done|]. destruct w; [by right | by left].
    + destruct (I6 _ _ _ Hp Ho) as [k Hk]. exists k. apply Hme. by right.
  - intros x p Hp. apply lookup_insert_Some in Hp as [[<- <-]|[Hx Hp]]; [by exists true | by eapply I7].
  - intros x p Hp. apply lookup_insert_Some in Hp as [[<- <-]|[Hx Hp]]; [by apply pipe_inv_init | by eapply I8].
  - done.
  - intros x Hx. rewrite lookup_insert_ne by congruence. apply I10. rewrite Hfr. by right.
  - unfold pages, s'. simpl. rewrite Hfr, dom_insert_L. set_solver.
Qed.

Lemma pipealloc_inv s r s' :
  file_inv s -> pipealloc pid s = Ret r s' -> file_inv s' /\ pages s' = pages s.
Proof.
  intros Hi. unfold pipealloc. destruct (filealloc_spec s Hi) as [(i & s1 & R1 & Hei & _ & E1 & Hi1)|[R1 _]];
    rewrite (mthen_ret _ _ _ _ _ R1); [|by intros [= _ <-]].
  assert (pages s1 = pages s) as Hp1 by (by subst s1).
  destruct (filealloc_spec s1 Hi1) as [(j & s2 & R2 & Hej & _ & E2 & Hi2)|[R2 _]]; rewrite (mthen_ret _ _ _ _ _ R2).
  2:{ intros HR. step HR. injection HR as _ <-. apply fileclose_inv in R; [|done]. destruct R. split; congruence. }
  assert (pages s2 = pages s) as Hp2 by (by subst s2). rewrite mthen_gets.
  pose proof (lookup_lt_Some _ _ _ Hei) as Li. pose proof (lookup_lt_Some _ _ _ Hej) as Lj.
  assert (i <> j) as Hij by (intros ->; subst s1; simpl in Hej; rewrite list_lookup_insert_eq in Hej by done; done).
  destruct (ft_free s2) as [|pi free'] eqn:Hfr.
  { intros HR. step HR. apply fileclose_inv in R as [Hi3 Hp3]; [|done]. step HR. apply fileclose_inv in R as [Hi4 Hp4]; [|done].
    injection HR as _ <-. split; [done|congruence]. }
  intros [= _ <-]. simpl.
  assert (ft_file s2 !! i = Some (set_f_ref 1 empty_file)) as Hi'.
  { subst s2. simpl. rewrite list_lookup_insert_ne by done. subst s1. simpl. by apply list_lookup_insert_eq. }
  assert (ft_file s2 !! j = Some (set_f_ref 1 empty_file)) as Hj' by (subst s2; simpl; by apply list_lookup_insert_eq).
  rewrite (alter_insert _ _ _ _ Hi'). rewrite (alter_insert _ _ j (set_f_ref 1 empty_file)) by (by rewrite list_lookup_insert_ne).
  rewrite <- Hp2. by apply new_pipe.
Qed.
End Table.

(** ** Sequences of operations *)

Inductive file_op :=
| OpAlloc | OpDup (f : option nat) | OpClose (f : option nat) | OpPipe
| OpRead (f : option nat) (addr n : Z) | OpWrite (f : option nat) (addr n : Z) | OpStat (pad : list Z) (f : option nat) (addr : Z).

Section Reach.
Context {T H U : Type} `{TxOps T H} `{UserMem U}.
Implicit Types s : file_st T U.

Lemma fileinit_inv s : NoDup (ft_free s) -> ft_pipe s = ∅ -> exists s', fileinit s = Ret tt s' /\ file_inv s' /\ pages s' = list_to_set (ft_free s).
Proof.
  intros Hnd Hp. eexists. split; [reflexivity|]. split.
  - assert (forall i f, replicate NFILE empty_file !! i = Some f -> f = empty_file) as He by (intros i f Hf; by apply lookup_replicate in Hf as [-> _]).
    assert (forall i pi w, ~ is_end (replicate NFILE empty_file) i pi w) as Hne by (intros i pi w (f & Hf & Ht & _); apply He in Hf; by subst f).
    split; cbn [ft_file ft_pipe ft_free]; rewrite ?Hp.
    + apply length_replicate.
    + intros i f ->%He. simpl. lia.
    + by intros i f Hf%He.
    + by intros i pi w ?%Hne.
    + by intros i j pi w ?%Hne.
    + intros pi p w. by rewrite lookup_empty.
    + intros pi p. by rewrite lookup_empty.
    + intros pi p. by rewrite lookup_empty.
    + done.
    + intros. apply lookup_empty.
  - unfold pages. cbn [ft_pipe ft_free]. rewrite Hp, dom_empty_L. set_solver.
Qed.

Context (dev_read dev_write : Z -> option (Z -> Z -> M (file_st T U) Z)).

Definition run_fop (pid : Z) (killed : bool) (op : file_op) : M (file_st T U) () :=
  match op with
  | OpAlloc => filealloc ;;; skip
  | OpDup f => filedup f ;;; skip
  | OpClose f => fileclose pid f
  | OpPipe => pipealloc pid ;;; skip
  | OpRead f addr n => fileread pid killed dev_read f addr n ;;; skip
  | OpWrite f addr n => filewrite pid killed dev_write f addr n ;;; skip
  | OpStat pad f addr => filestat pid pad f addr ;;; skip
  end.

(** A call of any process that returns, with reference counts short of
    overflow. *)
Definition file_step (s s' : file_st T U) : Prop :=
  (forall i f, ft_file s !! i = Some f -> f_ref f < 2 ^ 31 - 1) /\ exists pid killed op, run_fop pid killed op s = Ret tt s'.

Lemma filestat_shape pid pad f addr s r s' : filestat pid pad f addr s = Ret r s' -> same_shape s s'.
Proof.
  destruct f as [i|]; [|intros [= _ <-]; apply same_shape_refl]. unfold filestat, file_at. intros HR. gstep HR.
  assert (forall ip, (fsM (ilock pid (Some ip)) ;;; let* ino := fsM (inode_at ip) in fsM (iunlock pid (Some ip)) ;;;
     let* ok := fsM (either_copyout (UserDst addr) 0 (stat_bytes pad (stati ino))) in
     if negb ok then mreturn (-1) else mreturn 0) s = Ret r s' -> same_shape s s') as Hgen.
  { intros ip HQ. step HQ. apply fsM_shape in R. step HQ. apply fsM_shape in R0. step HQ. apply fsM_shape in R1.
    step HQ. apply fsM_shape in R2.
    pose proof (same_shape_trans _ _ _ R (same_shape_trans _ _ _ R0 (same_shape_trans _ _ _ R1 R2))) as Hs.
    by destruct (negb _); injection HQ as _ <-. }
  destruct (f_type (ft_file s !!! i)), (f_ip (ft_file s !!! i)); try (injection HR as _ <-; apply same_shape_refl); by eapply Hgen.
Qed.

Lemma run_fop_inv pid killed op s s' :
  dev_frame dev_read -> dev_frame dev_write -> file_inv s -> (forall i f, ft_file s !! i = Some f -> f_ref f < 2 ^ 31 - 1) ->
  run_fop pid killed op s = Ret tt s' -> file_inv s' /\ pages s' = pages s.
Proof.
  intros Hr Hw Hi Hb. destruct op as [|f|f| |f addr n|f addr n|pad f addr]; simpl; intros HR.
  - step HR. injection HR as <-. destruct (filealloc_spec s Hi) as [(i & s2 & R2 & _ & _ & E & Hi2)|[R2 _]];
      rewrite R2 in R; injection R as _ <-; [by subst s2|done].
  - step HR. injection HR as <-. by eapply filedup_inv.
  - by eapply fileclose_inv.
  - step HR. injection HR as <-. by eapply pipealloc_inv.
  - step HR. injection HR as <-. apply fileread_shape in R; [|done]. by apply same_shape_inv.
  - step HR. injection HR as <-. apply filewrite_shape in R; [|done]. by apply same_shape_inv.
  - step HR. injection HR as <-. apply filestat_shape in R. by apply same_shape_inv.
Qed.

(** C5: pipes neither leak nor dangle.  Whatever sequence of calls the
    processes make after [fileinit], reference counts stay non-negative and an
    unused entry is blank; every pipe an open file refers to is allocated with
    that end open, no two entries share an end, an end marked open has its
    file, and a pipe with both ends closed is gone; the ring of every pipe is
    well-formed; and the pages in use by pipes and the free pages together are
    always the pages there were at the start, none of them both. *)
Theorem file_table_invariant s0 s1 s :
  dev_frame dev_read -> dev_frame dev_write ->
  NoDup (ft_free s0) -> ft_pipe s0 = ∅ -> fileinit s0 = Ret tt s1 -> rtc file_step s1 s ->
  file_inv s /\ pages s = list_to_set (ft_free s0).
Proof.
  intros Hr Hw Hnd Hp HR Hs. destruct (fileinit_inv s0 Hnd Hp) as (s1' & R & Hi & Hpg). rewrite HR in R. injection R as <-.
  clear HR. revert Hi Hpg. induction Hs as [s|s s2 s3 (Hb & pid & killed & op & Hop) _ IH]; [done|]. intros Hi Hpg.
  destruct (run_fop_inv pid killed op s s2 Hr Hw Hi Hb Hop) as [Hi2 Hp2]. apply IH; [done | congruence].
Qed.

(** The last close of an entry. *)
Lemma fileclose_pipe_last pid s i f p :
  ft_file s !! i = Some f -> f_ref f = 1 -> f_type f = FD_PIPE -> ft_pipe s !! f_pipe f = Some p ->
  fileclose pid (Some i) s
  = let '(p', freed) := pipeclose p (f_writable f) in
    Ret tt (FileSt T U (<[i := empty_file]> (ft_file s)) (if freed then delete (f_pipe f) (ft_pipe s) else <[f_pipe f := p']> (ft_pipe s))
              (if freed then f_pipe f :: ft_free s else ft_free s) (ft_fs s)).
Proof.
  intros Hf Hr Ht Hp. unfold fileclose, file_at. rewrite mthen_gets, (list_lookup_total_correct _ _ _ Hf), Hr. 
  change (1 <? 1) with false. change (1 - 1 >? 0) with false. cbv iota.
  rewrite (mthen_ret (set_file i _) _ s tt _ eq_refl), Ht. unfold pipeclose_at. rewrite mthen_gets. cbn [ft_pipe]. rewrite Hp.
  rewrite (alter_insert _ _ _ _ Hf). by destruct (pipeclose p (f_writable f)) as [p' []].
Qed.
Lemma fileclose_blank pid s i :
  ft_file s !! i = Some (set_f_ref 1 empty_file) ->
  fileclose pid (Some i) s = Ret tt (FileSt T U (<[i := empty_file]> (ft_file s)) (ft_pipe s) (ft_free s) (ft_fs s)).
Proof.
  intros Hf. unfold fileclose, file_at. rewrite mthen_gets, (list_lookup_total_correct _ _ _ Hf).
  rewrite <- (alter_insert (fun _ => empty_file) _ _ _ Hf). done.
Qed.

Lemma file_st_eta s : FileSt T U (ft_file s) (ft_pipe s) (ft_free s) (ft_fs s) = s.
Proof. by destruct s. Qed.

(** Two entries written twice. *)
Lemma insert_rewrite {A} (l : list A) i j x y x' y' :
  i <> j -> <[j := y']> (<[i := x']> (<[j := y]> (<[i := x]> l))) = <[j := y']> (<[i := x']> l).
Proof.
  intros Hij. rewrite (list_insert_insert_ne _ i j) by done. by rewrite !list_insert_insert_eq.
Qed.
(** Two entries written and restored. *)
Lemma insert_restore {A} (l : list A) i j a b x y :
  i <> j -> l !! i = Some a -> l !! j = Some b -> <[j := b]> (<[i := a]> (<[j := y]> (<[i := x]> l))) = l.
Proof.
  intros Hij Hi Hj. rewrite insert_rewrite by done. by rewrite (list_insert_id l i), (list_insert_id l j).
Qed.

(** Closing a pipe whose ends are the entries [i] and [j], [i] first. *)
Lemma close_both pid s files i j f g pi p :
  i <> j -> (i < length files)%nat -> (j < length files)%nat -> f_ref f = 1 -> f_ref g = 1 -> end_of f pi (f_writable f) -> end_of g pi (negb (f_writable f)) ->
  files !! i = Some empty_file -> files !! j = Some empty_file -> ft_pipe s !! pi = None -> open_end true p = true -> open_end false p = true ->
  ft_file s = <[j := g]> (<[i := f]> files) ->
  exists s2, fileclose pid (Some i) (FileSt T U (ft_file s) (<[pi := p]> (ft_pipe s)) (ft_free s) (ft_fs s)) = Ret tt s2
    /\ fileclose pid (Some j) s2 = Ret tt (FileSt T U files (ft_pipe s) (pi :: ft_free s) (ft_fs s)).
Proof.
  intros Hij Li Lj Rf Rg (Tf & Pf & _) (Tg & Pg & Wg) Ei Ej Hn Ho1 Ho2 Hfs.
  pose proof (pipeclose_ends p (f_writable f)) as He1. destruct (pipeclose p (f_writable f)) as [p1 freed1] eqn:C1.
  destruct He1 as (A1 & A2 & A3 & _). assert (open_end (negb (f_writable f)) p = true) as Ho by (by destruct (f_writable f)).
  rewrite Ho in A2, A3. simpl in A3. subst freed1.
  eexists. split.
  { rewrite (fileclose_pipe_last pid _ i f p); [rewrite C1; reflexivity | | done | done | simpl; by rewrite Pf, lookup_insert_eq].
    simpl. rewrite Hfs, list_lookup_insert_ne by done. by apply list_lookup_insert_eq. }
  cbn [ft_file ft_pipe ft_free ft_fs]. rewrite Pf, insert_insert_eq.
  pose proof (pipeclose_ends p1 (negb (f_writable f))) as He2. destruct (pipeclose p1 (negb (f_writable f))) as [p2 freed2] eqn:C2.
  destruct He2 as (_ & _ & B3 & _). rewrite negb_involutive, A1 in B3. simpl in B3. subst freed2.
  rewrite (fileclose_pipe_last pid _ j g p1); [| simpl | done | done | simpl; by rewrite Pg, lookup_insert_eq].
  - rewrite Wg, C2. cbn [ft_file ft_pipe ft_free ft_fs]. rewrite Pg, delete_insert_id by done. f_equal. f_equal.
    rewrite Hfs. by apply insert_restore.
  - rewrite Hfs, list_lookup_insert_ne by done. apply list_lookup_insert_eq. by rewrite length_insert.
Qed.

(** [pipealloc] and closing both ends cancel out.  A pipe is made
    whenever two entries and a page are there, and after the two closes, in
    either order, the file table, the pipes and the free pages are exactly as
    before; otherwise the call fails and changes nothing. *)
Theorem pipealloc_close_roundtrip pid s (reader_first : bool) :
  file_inv s ->
  (exists i j s1 s2, pipealloc pid s = Ret (Some (i, j)) s1
     /\ fileclose pid (Some (if reader_first then i else j)) s1 = Ret tt s2
     /\ fileclose pid (Some (if reader_first then j else i)) s2 = Ret tt s)
  \/ (pipealloc pid s = Ret None s
      /\ (ft_free s = [] \/ exists i, forall j g, ft_file s !! j = Some g -> j <> i -> 0 < f_ref g)).
Proof.
  intros Hi. unfold pipealloc. destruct (filealloc_spec s Hi) as [(i & s1 & R1 & Hei & _ & E1 & Hi1)|[R1 Hall]];
    rewrite (mthen_ret _ _ _ _ _ R1).
  2:{ right. split; [done|]. right. exists 0%nat. intros j g Hg _. by eapply Hall. }
  pose proof (lookup_lt_Some _ _ _ Hei) as Li.
  assert (ft_file s1 !! i = Some (set_f_ref 1 empty_file)) as Hi' by (subst s1; by apply list_lookup_insert_eq).
  destruct (filealloc_spec s1 Hi1) as [(j & s2 & R2 & Hej & _ & E2 & Hi2)|[R2 Hall]]; rewrite (mthen_ret _ _ _ _ _ R2).
  2:{ right. rewrite (mthen_ret _ _ _ _ _ (fileclose_blank pid s1 i Hi')). subst s1. cbn [ft_file ft_pipe ft_free ft_fs] in *.
      rewrite list_insert_insert_eq, (list_insert_id (ft_file s)), file_st_eta by done. split; [done|]. right. exists i.
      intros j g Hg Hj. apply (Hall j). by rewrite list_lookup_insert_ne. }
  assert (i <> j) as Hij by (intros <-; by rewrite Hi' in Hej).
  assert (ft_file s !! j = Some empty_file) as Hej' by (subst s1; simpl in Hej; by rewrite list_lookup_insert_ne in Hej).
  pose proof (lookup_lt_Some _ _ _ Hej') as Lj. rewrite mthen_gets. destruct (ft_free s2) as [|pi free'] eqn:Hfr.
  { right. assert (ft_file s2 !! i = Some (set_f_ref 1 empty_file)) as Hi2' by (subst s2; simpl; by rewrite list_lookup_insert_ne).
    rewrite (mthen_ret _ _ _ _ _ (fileclose_blank pid s2 i Hi2')).
    set (sA := FileSt T U (<[i := empty_file]> (ft_file s2)) (ft_pipe s2) (ft_free s2) (ft_fs s2)).
    assert (ft_file sA !! j = Some (set_f_ref 1 empty_file)) as Hj2.
    { unfold sA. cbn [ft_file]. rewrite list_lookup_insert_ne by done. subst s2. apply list_lookup_insert_eq. subst s1. simpl. by rewrite length_insert. }
    rewrite (mthen_ret _ _ _ _ _ (fileclose_blank pid sA j Hj2)). unfold sA. clear Hj2 sA.
    subst s2 s1. cbn [ft_file ft_pipe ft_free ft_fs] in *. split; [|by left]. unfold mreturn. f_equal.
    rewrite <- (file_st_eta s) at 5. f_equal. by apply insert_restore. }
  left. set (f := set_f_pipe true false pi (set_f_ref 1 empty_file)). set (g := set_f_pipe false true pi (set_f_ref 1 empty_file)).
  assert (ft_pipe s !! pi = None) as Hn by (apply (fi_apart _ Hi); subst s2 s1; cbn [ft_free] in Hfr; rewrite Hfr; by left).
  assert (FileSt T U (ft_file s) (ft_pipe s) (pi :: free') (ft_fs s) = s) as Es.
  { subst s2 s1. cbn [ft_free] in Hfr. rewrite <- Hfr. apply file_st_eta. }
  set (s3 := FileSt T U (<[j := g]> (<[i := f]> (ft_file s))) (ft_pipe s) free' (ft_fs s)).
  eexists i, j, (FileSt T U (ft_file s3) (<[pi := pipe_init (replicate 512 5)]> (ft_pipe s3)) (ft_free s3) (ft_fs s3)).
  assert (ft_file s3 = <[i := f]> (<[j := g]> (ft_file s))) as Hswap by (by apply list_insert_insert_ne).
  destruct (close_both pid s3 (ft_file s) i j f g pi (pipe_init (replicate 512 5))) as (sa & Ca & Cb); try done.
  destruct (close_both pid s3 (ft_file s) j i g f pi (pipe_init (replicate 512 5))) as (sb & Da & Db); try done.
  exists (if reader_first then sa else sb). split.
  - cbn. unfold mreturn. f_equal. subst s2 s1. cbn [ft_file ft_pipe ft_fs].
    rewrite (alter_insert _ _ i (set_f_ref 1 empty_file)) by (rewrite list_lookup_insert_ne by done; by apply list_lookup_insert_eq).
    rewrite (alter_insert _ _ j (set_f_ref 1 empty_file))
      by (rewrite list_lookup_insert_ne by done; apply list_lookup_insert_eq; by rewrite length_insert).
    f_equal. unfold s3. cbn [ft_file]. fold f g. by apply insert_rewrite.
  - destruct reader_first; (split; [done|]); [rewrite Cb | rewrite Db]; cbn [ft_pipe ft_free ft_fs s3]; by rewrite Es.
Qed.
End Reach.

(** ** A small system: no device, two free pages. *)
Module FileDemo.
Definition no_dev : Z -> option (Z -> Z -> M (file_st ideal flat_mem) Z) := fun _ => None.
Definition fs0 : fs_st ideal flat_mem :=
  FsSt _ _ (Superblock 0 0 0 0 0 0 0 0) (Ideal (fun _ => []) ∅ ∅ ∅) [] (FlatMem (fun _ => 0) (fun _ => true)).
Definition boot : file_st ideal flat_mem := FileSt _ _ [] ∅ [4096; 8192] fs0.
Definition ready : file_st ideal flat_mem := FileSt _ _ (replicate NFILE empty_file) ∅ [4096; 8192] fs0.
Definition with_pipe : file_st ideal flat_mem :=
  match run_fop no_dev no_dev 1 false OpPipe ready with Ret _ s => s | _ => ready end.

Lemma no_dev_frame : dev_frame no_dev.
Proof. by intros major op addr n s r s'. Qed.
Lemma free_nodup : NoDup (ft_free boot).
Proof. apply (bool_decide_unpack _). by vm_compute. Qed.
Lemma ready_inv : file_inv ready.
Proof. by destruct (fileinit_inv boot free_nodup eq_refl) as (s & [= <-] & Hi & _). Qed.
End FileDemo.

Lemma file_table_invariant_witness :
  rtc (file_step FileDemo.no_dev FileDemo.no_dev) FileDemo.ready FileDemo.with_pipe
  /\ file_inv FileDemo.with_pipe /\ pages FileDemo.with_pipe = list_to_set (ft_free FileDemo.boot).
Proof.
  assert (rtc (file_step FileDemo.no_dev FileDemo.no_dev) FileDemo.ready FileDemo.with_pipe) as Hs.
  { apply rtc_once. split.
    - intros i f Hf. by apply lookup_replicate in Hf as [-> _].
    - exists 1, false, OpPipe. vm_compute. reflexivity. }
  split; [exact Hs|].
  exact (file_table_invariant FileDemo.no_dev FileDemo.no_dev FileDemo.boot FileDemo.ready FileDemo.with_pipe
    FileDemo.no_dev_frame FileDemo.no_dev_frame FileDemo.free_nodup eq_refl eq_refl Hs).
Defined.

Lemma pipealloc_close_roundtrip_witness :
  exists i j s1 s2, pipealloc 1 FileDemo.ready = Ret (Some (i, j)) s1
    /\ fileclose 1 (Some i) s1 = Ret tt s2 /\ fileclose 1 (Some j) s2 = Ret tt FileDemo.ready.
Proof.
  destruct (pipealloc_close_roundtrip 1 FileDemo.ready true FileDemo.ready_inv) as [Hp|[Hp _]]; [exact Hp|].
  vm_compute in Hp. discriminate.
Defined.
