(* ===== verification/Console.v ===== *)
(** Console input (src/kernel/console.c) and the UART's receive side
    (src/kernel/uart.c): a ring of 128 characters with free-running 32-bit
    read, write and edit indices.

    [cn_out] is what has been written to the UART's transmit register and
    [cn_rx] the characters waiting in its receive register.  A reader that has
    to wait is [CrBlocked] with the address and the count it continues from.
    The files pass user addresses ([user_dst] = 1); [cons.lock] makes each run
    atomic.  [procdump] is a parameter
    (Boot.v has it). *)

From S2P Require Import Prelude.
From S2P Require Import UserMem.

Definition INPUT_BUF_SIZE : Z := 128.
Definition BACKSPACE : Z := 0x100.
(** [C(x)] *)
Definition ctrl (x : Z) : Z := x - 64.
Definition CTRL_P : Z := ctrl 80.
Definition CTRL_U : Z := ctrl 85.
Definition CTRL_H : Z := ctrl 72.
Definition CTRL_D : Z := ctrl 68.
Definition DEL : Z := 0x7f.
Definition NL : Z := 10.
Definition CR : Z := 13.

Record cons_t := Cons {
  cn_buf : list Z;
  cn_r : Z; cn_w : Z; cn_e : Z;
  cn_out : list Z;
  cn_rx : list Z }.

Section Console.
(** What [procdump] sends to the console. *)
Context (procdump : list Z).

Definition uartputc_sync (c : Z) (s : cons_t) : cons_t :=
  Cons (cn_buf s) (cn_r s) (cn_w s) (cn_e s) (cn_out s ++ [u8 c]) (cn_rx s).
Definition consputc (c : Z) (s : cons_t) : cons_t :=
  if c =? BACKSPACE then uartputc_sync 8 (uartputc_sync 32 (uartputc_sync 8 s)) else uartputc_sync c s.

Definition cons_at (i : Z) (s : cons_t) : Z := cn_buf s !!! Z.to_nat (i mod INPUT_BUF_SIZE).
Definition set_e (e : Z) (s : cons_t) : cons_t := Cons (cn_buf s) (cn_r s) (cn_w s) e (cn_out s) (cn_rx s).
Definition set_w (w : Z) (s : cons_t) : cons_t := Cons (cn_buf s) (cn_r s) w (cn_e s) (cn_out s) (cn_rx s).
Definition set_r (r : Z) (s : cons_t) : cons_t := Cons (cn_buf s) r (cn_w s) (cn_e s) (cn_out s) (cn_rx s).
(** [cons.buf[cons.e++ % INPUT_BUF_SIZE] = c] *)
Definition cons_push (c : Z) (s : cons_t) : cons_t :=
  Cons (<[Z.to_nat (cn_e s mod INPUT_BUF_SIZE) := u8 c]> (cn_buf s)) (cn_r s) (cn_w s) (u32 (cn_e s + 1)) (cn_out s) (cn_rx s).

(** The loop of kill-line; [fuel] bounds the characters being edited. *)
Fixpoint kill_line (fuel : nat) (s : cons_t) : cons_t :=
  match fuel with
  | O => s
  | S fuel' =>
      if negb (cn_e s =? cn_w s) && negb (cons_at (u32 (cn_e s - 1)) s =? NL)
      then kill_line fuel' (consputc BACKSPACE (set_e (u32 (cn_e s - 1)) s))
      else s
  end.

Definition consoleintr (c : Z) (s : cons_t) : cons_t :=
  if c =? CTRL_P then
    Cons (cn_buf s) (cn_r s) (cn_w s) (cn_e s) (cn_out s ++ procdump) (cn_rx s)
  else if c =? CTRL_U then kill_line (Z.to_nat INPUT_BUF_SIZE) s
  else if (c =? CTRL_H) || (c =? DEL) then
    if negb (cn_e s =? cn_w s) then consputc BACKSPACE (set_e (u32 (cn_e s - 1)) s) else s
  else if negb (c =? 0) && (u32 (cn_e s - cn_r s) <? INPUT_BUF_SIZE) then
    let c := if c =? CR then NL else c in
    let s := cons_push c (consputc c s) in
    if (c =? NL) || (c =? CTRL_D) || (u32 (cn_e s - cn_r s) =? INPUT_BUF_SIZE)
    then set_w (cn_e s) s else s
  else s.

(** [uartgetc]: [None] is -1. *)
Definition uartgetc (s : cons_t) : option (Z * cons_t) :=
  match cn_rx s with
  | [] => None
  | c :: rx => Some (u8 c, Cons (cn_buf s) (cn_r s) (cn_w s) (cn_e s) (cn_out s) rx)
  end.

(** The loop of [uartintr] that processes incoming characters, up to [fuel]
    of them. *)
Fixpoint uartintr_loop (fuel : nat) (s : cons_t) : cons_t :=
  match fuel with
  | O => s
  | S fuel' => match uartgetc s with None => s | Some (c, s') => uartintr_loop fuel' (consoleintr c s') end
  end.
Definition uartintr (s : cons_t) : cons_t := uartintr_loop (length (cn_rx s)) s.
End Console.

(** The fields [consoleinit] sets. *)
Definition consoleinit (s : cons_t) : cons_t := Cons (cn_buf s) 0 0 0 (cn_out s) (cn_rx s).

Inductive cr_result := CrDone (r : Z) | CrBlocked (dst n : Z).

Section Read.
Context {U : Type} `{UserMem U} (killed : bool).

(** The loop of [consoleread], with [target] the count asked for. *)
Fixpoint consoleread_loop (fuel : nat) (target : Z) (u : U) (dst n : Z) (s : cons_t) : cr_result * U * cons_t :=
  match fuel with
  | O => (CrDone (target - n), u, s)
  | S fuel' =>
      if cn_r s =? cn_w s then
        if killed then (CrDone (-1), u, s) else (CrBlocked dst n, u, s)
      else
        let c := cons_at (cn_r s) s in
        let s := set_r (u32 (cn_r s + 1)) s in
        if c =? CTRL_D then
          let s := if n <? target then set_r (u32 (cn_r s - 1)) s else s in
          (CrDone (target - n), u, s)
        else match um_store u dst c with
             | None => (CrDone (target - n), u, s)
             | Some u' =>
                 if c =? NL then (CrDone (target - (n - 1)), u', s)
                 else consoleread_loop fuel' target u' (u64 (dst + 1)) (n - 1) s
             end
  end.

(** [consoleread(1, dst, n)]. *)
Definition consoleread (u : U) (dst n : Z) (s : cons_t) : cr_result * U * cons_t :=
  if n <=? 0 then (CrDone 0, u, s) else consoleread_loop (Z.to_nat n) n u dst n s.
End Read.

(** ** The line discipline *)

(** Input the reader may take, and the line being edited. *)
Record line_st := Line { ln_ready : list Z; ln_edit : list Z }.

Definition line_input (c : Z) (l : line_st) : line_st :=
  if c =? CTRL_P then l
  else if c =? CTRL_U then Line (ln_ready l) []
  else if (c =? CTRL_H) || (c =? DEL) then Line (ln_ready l) (removelast (ln_edit l))
  else if (c =? 0) || bool_decide (128 <= length (ln_ready l) + length (ln_edit l))%nat then l
  else
    let c := if c =? CR then NL else c in
    let edit := ln_edit l ++ [c] in
    if (c =? NL) || (c =? CTRL_D) || bool_decide (length (ln_ready l) + length edit = 128)%nat
    then Line (ln_ready l ++ edit) [] else Line (ln_ready l) edit.

(** Stores of consecutive bytes. *)
Fixpoint put_bytes {U} `{UserMem U} (u : U) (va : Z) (xs : list Z) : option U :=
  match xs with
  | [] => Some u
  | x :: xs' => u' ← um_store u va x; put_bytes u' (u64 (va + 1)) xs'
  end.

(** How a read goes that has [n] of [target] characters to go, at address
    [dst] of the memory [u]: from the characters handed over to its result,
    the memory, and the characters left.  It stores characters in order up to
    the count, through a newline, or up to an end of file, which it takes only
    when it has nothing else to return; it stops at a character that cannot be
    stored, which is lost; and when the characters run out it waits, to continue
    behind those it has stored, or fails in a process that has been killed. *)
Definition plain (xs : list Z) : Prop := Forall (fun c => c <> NL /\ c <> CTRL_D) xs.
Inductive read_ends {U} `{UserMem U} (killed : bool) (target n dst : Z) (u : U) : list Z -> cr_result -> U -> list Z -> Prop :=
| re_full xs rest u' :
    plain xs -> Z.of_nat (length xs) = n -> put_bytes u dst xs = Some u' ->
    read_ends killed target n dst u (xs ++ rest) (CrDone target) u' rest
| re_line xs rest u' :
    plain xs -> Z.of_nat (length xs) < n -> put_bytes u dst (xs ++ [NL]) = Some u' ->
    read_ends killed target n dst u (xs ++ NL :: rest) (CrDone (target - n + Z.of_nat (length xs) + 1)) u' rest
| re_eof xs rest u' :
    plain xs -> Z.of_nat (length xs) < n -> put_bytes u dst xs = Some u' -> 0 < target - n + Z.of_nat (length xs) ->
    read_ends killed target n dst u (xs ++ CTRL_D :: rest) (CrDone (target - n + Z.of_nat (length xs))) u' (CTRL_D :: rest)
| re_eof_first rest :
    0 < n -> n = target -> read_ends killed target n dst u (CTRL_D :: rest) (CrDone 0) u rest
| re_fault xs c rest u' :
    plain xs -> Z.of_nat (length xs) < n -> put_bytes u dst xs = Some u' ->
    c <> CTRL_D -> um_store u' (u64 (dst + Z.of_nat (length xs))) c = None ->
    read_ends killed target n dst u (xs ++ c :: rest) (CrDone (target - n + Z.of_nat (length xs))) u' rest
| re_wait xs u' :
    plain xs -> Z.of_nat (length xs) < n -> put_bytes u dst xs = Some u' -> killed = false ->
    read_ends killed target n dst u xs (CrBlocked (u64 (dst + Z.of_nat (length xs))) (n - Z.of_nat (length xs))) u' []
| re_killed xs u' :
    plain xs -> Z.of_nat (length xs) < n -> put_bytes u dst xs = Some u' -> killed = true ->
    read_ends killed target n dst u xs (CrDone (-1)) u' [].

(** ** The ring *)

Definition ring (s : cons_t) (from : Z) (n : nat) : list Z := (fun j => cons_at (from + Z.of_nat j) s) <$> seq 0 n.
Definition abs (s : cons_t) : line_st :=
  Line (ring s (cn_r s) (Z.to_nat (u32 (cn_w s - cn_r s)))) (ring s (cn_w s) (Z.to_nat (u32 (cn_e s - cn_w s)))).

Record cons_core (s : cons_t) : Prop := {
  ci_len : length (cn_buf s) = 128%nat;
  ci_r : 0 <= cn_r s < 2 ^ 32;
  ci_w : 0 <= cn_w s < 2 ^ 32;
  ci_e : 0 <= cn_e s < 2 ^ 32;
  ci_fill : u32 (cn_w s - cn_r s) + u32 (cn_e s - cn_w s) <= 128;
  ci_bytes : Forall (fun x => 0 <= x < 256) (cn_buf s) }.
(** No newline in the line being edited. *)
Definition cons_inv (s : cons_t) : Prop := cons_core s /\ Forall (fun c => c <> NL) (ln_edit (abs s)).

Lemma ring_length s from n : length (ring s from n) = n.
Proof. unfold ring. by rewrite length_fmap, length_seq. Qed.

Lemma cons_at_mod s i j : i mod 128 = j mod 128 -> cons_at i s = cons_at j s.
Proof. intros E. unfold cons_at, INPUT_BUF_SIZE. by rewrite E. Qed.

Lemma ring_app s from from' n m : from' mod 128 = (from + Z.of_nat n) mod 128 -> ring s from (n + m) = ring s from n ++ ring s from' m.
Proof.
  intros E. unfold ring. rewrite seq_app, fmap_app. f_equal. simpl. rewrite <- (Nat.add_0_r n) at 1.
  rewrite <- fmap_add_seq, <- list_fmap_compose. apply list_fmap_ext. intros x j _. simpl.
  apply cons_at_mod. dlia.
Qed.

Lemma ring_congr s s' from from' n :
  from' mod 128 = from mod 128 -> (forall j, (j < n)%nat -> cons_at (from + Z.of_nat j) s' = cons_at (from + Z.of_nat j) s) ->
  ring s' from' n = ring s from n.
Proof.
  intros E Hj. unfold ring. apply list_fmap_ext. intros x j [-> Hx]%lookup_seq. simpl. rewrite <- Hj by done.
  apply cons_at_mod. dlia.
Qed.

(** Sizes of the two parts. *)
Definition n_ready (s : cons_t) : nat := Z.to_nat (u32 (cn_w s - cn_r s)).
Definition n_edit (s : cons_t) : nat := Z.to_nat (u32 (cn_e s - cn_w s)).

Lemma n_total s : cons_core s -> u32 (cn_e s - cn_r s) = Z.of_nat (n_ready s + n_edit s) /\ (n_ready s + n_edit s <= 128)%nat.
Proof. intros [_ Hr Hw He Hf _]. unfold n_ready, n_edit, u32 in *. dlia. Qed.

Lemma consputc_fields c s :
  cn_buf (consputc c s) = cn_buf s /\ cn_r (consputc c s) = cn_r s /\ cn_w (consputc c s) = cn_w s /\ cn_e (consputc c s) = cn_e s.
Proof. unfold consputc. by destruct (c =? BACKSPACE). Qed.

(** A state with the same ring and indices is the same line. *)
Definition same_ring (s s' : cons_t) : Prop :=
  cn_buf s' = cn_buf s /\ cn_r s' = cn_r s /\ cn_w s' = cn_w s /\ cn_e s' = cn_e s.
Lemma same_ring_abs s s' : same_ring s s' -> abs s' = abs s.
Proof. intros (E1 & E2 & E3 & E4). unfold abs, ring, cons_at. by rewrite E1, E2, E3, E4. Qed.
Lemma same_ring_inv s s' : same_ring s s' -> cons_inv s -> cons_inv s'.
Proof.
  intros Hs [[? ? ? ? ? ?] Hn]. pose proof (same_ring_abs s s' Hs) as Ha. destruct Hs as (E1 & E2 & E3 & E4).
  split; [split; congruence | by rewrite Ha].
Qed.

(** Erasing a character. *)
Lemma erase_spec s :
  cons_inv s -> cn_e s <> cn_w s ->
  let s' := set_e (u32 (cn_e s - 1)) s in
  cons_inv s' /\ abs s' = Line (ln_ready (abs s)) (removelast (ln_edit (abs s))) /\ n_edit s = S (n_edit s').
Proof.
  intros Hi Hne s'. pose proof Hi as [[Hl Hr Hw He Hf Hb] Hn].
  assert (n_edit s = S (n_edit s')) as Hs by (unfold n_edit, s', u32 in *; simpl; dlia).
  assert (abs s' = Line (ln_ready (abs s)) (removelast (ln_edit (abs s)))) as Ha.
  { unfold abs. simpl. f_equal. change (Z.to_nat (u32 (cn_e s - cn_w s))) with (n_edit s). rewrite Hs.
    change (Z.to_nat (u32 (u32 (cn_e s - 1) - cn_w s))) with (n_edit s').
    replace (S (n_edit s')) with (n_edit s' + 1)%nat by lia.
    rewrite (ring_app s _ (cn_w s + Z.of_nat (n_edit s'))) by done. simpl. rewrite removelast_app by done. simpl. by rewrite app_nil_r. }
  split; [|done]. split; [split; simpl; try done|].
  - apply u32_range.
  - unfold u32 in *. dlia.
  - rewrite Ha. simpl. rewrite removelast_firstn_len. by apply Forall_take.
Qed.

Lemma u32_next e w : 0 <= e < 2 ^ 32 -> 0 <= w < 2 ^ 32 -> u32 (e - w) < 2 ^ 31 -> u32 (u32 (e + 1) - w) = u32 (e - w) + 1.
Proof. unfold u32. intros. dlia. Qed.

Lemma slot_apart e r j : 0 <= e < 2 ^ 32 -> 0 <= r < 2 ^ 32 -> 0 <= j < u32 (e - r) -> u32 (e - r) <= 127 -> e mod 128 <> (r + j) mod 128.
Proof. unfold u32. intros. dlia. Qed.
Lemma slot_nat x y : x mod 128 <> y mod 128 -> Z.to_nat (x mod 128) <> Z.to_nat (y mod 128).
Proof. intros Hne E. apply Hne. apply Z2Nat.inj in E; [done | apply Z.mod_pos_bound; lia..]. Qed.
Lemma slot_lt x : (Z.to_nat (x mod 128) < 128)%nat.
Proof. pose proof (Z.mod_pos_bound x 128 ltac:(lia)). lia. Qed.
Lemma slot_after w r n : 0 <= w < 2 ^ 32 -> 0 <= r < 2 ^ 32 -> n = u32 (w - r) -> w mod 128 = (r + n) mod 128.
Proof. unfold u32. intros ? ? ->. dlia. Qed.

(** Appending a character to the line being edited. *)
Lemma push_spec s c :
  cons_core s -> (n_ready s + n_edit s < 128)%nat -> 0 <= c < 256 ->
  let s' := cons_push c s in
  ln_ready (abs s') = ln_ready (abs s) /\ ln_edit (abs s') = ln_edit (abs s) ++ [c]
  /\ n_ready s' = n_ready s /\ n_edit s' = S (n_edit s) /\ cons_core s'.
Proof.
  intros Hi Hlt Hc s'. pose proof Hi as [Hl Hr Hw He Hf Hb].
  assert (n_edit s' = S (n_edit s)) as Hs.
  { pose proof (u32_range (cn_w s - cn_r s)). pose proof (u32_range (cn_e s - cn_w s)).
    unfold n_edit, n_ready in *. cbn [cn_e cn_w s' cons_push]. rewrite u32_next; lia. }
  assert (forall j, (j < n_ready s + n_edit s)%nat -> cons_at (cn_r s + Z.of_nat j) s' = cons_at (cn_r s + Z.of_nat j) s) as Hold.
  { intros j Hj. unfold cons_at, s', INPUT_BUF_SIZE. simpl. apply list_lookup_total_insert_ne.
    destruct (n_total s Hi) as [Ht _]. apply slot_nat, slot_apart; (done || lia). }
  split; [apply ring_congr; [done|]; intros j Hj; apply Hold; unfold n_ready; simpl in Hj; lia|].
  split; [|split; [done|]; split; [done|]].
  - unfold abs. cbn [ln_edit]. fold (n_edit s) (n_edit s'). rewrite Hs.
    replace (S (n_edit s)) with (n_edit s + 1)%nat by lia. rewrite (ring_app s' _ (cn_w s + Z.of_nat (n_edit s))) by done. f_equal.
    + apply ring_congr; [done|]. intros j Hj. pose proof (Hold (n_ready s + j)%nat ltac:(lia)) as E.
      pose proof (slot_after (cn_w s) (cn_r s) (Z.of_nat (n_ready s)) Hw Hr ltac:(unfold n_ready; rewrite Z2Nat.id; [done | apply u32_range])) as Ew.
      rewrite (cons_at_mod s' _ (cn_r s + Z.of_nat (n_ready s + j))), E by (clear -Ew; dlia).
      apply cons_at_mod. clear -Ew. dlia.
    + pose proof (slot_after (cn_e s) (cn_w s) (Z.of_nat (n_edit s)) He Hw ltac:(unfold n_edit; rewrite Z2Nat.id; [done | apply u32_range])) as Ee.
      unfold ring. simpl. f_equal. rewrite (cons_at_mod s' _ (cn_e s)) by (clear -Ee; dlia).
      unfold cons_at, s', INPUT_BUF_SIZE. simpl. rewrite list_lookup_total_insert_eq by (rewrite Hl; apply slot_lt). by apply u8_small.
  - split; try done; unfold s', cons_push; cbn [cn_buf cn_e cn_r cn_w].
    + by rewrite length_insert.
    + apply u32_range.
    + pose proof (u32_range (cn_w s - cn_r s)). pose proof (u32_range (cn_e s - cn_w s)). unfold n_ready, n_edit in Hlt. rewrite u32_next; lia.
    + apply Forall_insert; [done|]. apply u8_range.
Qed.

(** Handing the line over to the reader. *)
Lemma commit_spec s :
  cons_core s -> cons_inv (set_w (cn_e s) s) /\ abs (set_w (cn_e s) s) = Line (ln_ready (abs s) ++ ln_edit (abs s)) [].
Proof.
  intros Hi. pose proof Hi as [Hl Hr Hw He Hf Hb]. destruct (n_total s Hi) as [Ht Hle].
  assert (abs (set_w (cn_e s) s) = Line (ln_ready (abs s) ++ ln_edit (abs s)) []) as Ha.
  { unfold abs. simpl. rewrite Z.sub_diag. f_equal. rewrite Ht, Nat2Z.id. fold (n_ready s) (n_edit s).
    change (ring (set_w (cn_e s) s)) with (ring s). apply ring_app, slot_after; [done | done |]. unfold n_ready. rewrite Z2Nat.id; [done | apply u32_range]. }
  split; [|done]. split; [split; simpl; try done | by rewrite Ha].
  rewrite Ht, Z.sub_diag. change (u32 0) with 0. lia.
Qed.

(** Kill-line empties the line being edited. *)
Lemma kill_line_spec fuel s :
  cons_inv s -> (n_edit s <= fuel)%nat ->
  cons_inv (kill_line fuel s) /\ abs (kill_line fuel s) = Line (ln_ready (abs s)) [].
Proof.
  revert s. induction fuel as [|fuel IH]; intros s Hi Hle.
  { split; [done|]. simpl. unfold abs. fold (n_edit s). assert (n_edit s = 0%nat) as -> by lia. done. }
  cbn [kill_line]. destruct (Z.eqb_spec (cn_e s) (cn_w s)) as [E|Hne].
  { split; [done|]. simpl. unfold abs. by rewrite E, Z.sub_diag. }
  destruct (erase_spec s Hi Hne) as (Hi' & Ha & Hn).
  assert (cons_at (u32 (cn_e s - 1)) s <> NL) as Hnl.
  { destruct Hi as [[Hl Hr Hw He Hf Hb] Hed]. rewrite Forall_forall in Hed. apply Hed. unfold abs. cbn [ln_edit].
    fold (n_edit s). rewrite Hn. unfold ring. apply list_elem_of_fmap.
    exists (n_edit (set_e (u32 (cn_e s - 1)) s)). split; [|apply elem_of_seq; lia].
    apply cons_at_mod. unfold n_edit. cbn [set_e cn_e cn_w]. rewrite Z2Nat.id by apply u32_range. unfold u32. dlia. }
  destruct (Z.eqb_spec (cons_at (u32 (cn_e s - 1)) s) NL); [done|]. cbn [negb andb].
  set (s' := set_e (u32 (cn_e s - 1)) s) in *.
  assert (same_ring s' (consputc BACKSPACE s')) as Hs by done.
  destruct (IH (consputc BACKSPACE s')) as [IH1 IH2]; [by eapply same_ring_inv | change (n_edit (consputc BACKSPACE s')) with (n_edit s'); lia|].
  split; [done|]. rewrite IH2. by rewrite (same_ring_abs _ _ Hs), Ha.
Qed.

Lemma consoleintr_spec pd c s :
  cons_inv s -> 0 <= c < 256 -> cons_inv (consoleintr pd c s) /\ abs (consoleintr pd c s) = line_input c (abs s).
Proof.
  intros Hi Hc. unfold consoleintr, line_input. pose proof (proj1 Hi) as Hcore. destruct (n_total s Hcore) as [Ht Hle].
  destruct (c =? CTRL_P).
  { split; [by apply (same_ring_inv s) | by apply (same_ring_abs s)]. }
  destruct (c =? CTRL_U); [by apply kill_line_spec; [done | unfold INPUT_BUF_SIZE; lia]|].
  destruct ((c =? CTRL_H) || (c =? DEL)).
  { destruct (Z.eqb_spec (cn_e s) (cn_w s)) as [E|Hne]; cbn [negb].
    - split; [done|]. unfold abs. rewrite E, Z.sub_diag. done.
    - destruct (erase_spec s Hi Hne) as (Hi' & Ha & _). set (s' := set_e (u32 (cn_e s - 1)) s) in *.
      assert (same_ring s' (consputc BACKSPACE s')) as Hs by done.
      split; [by eapply same_ring_inv | by rewrite (same_ring_abs _ _ Hs)]. }
  assert (length (ln_ready (abs s)) = n_ready s /\ length (ln_edit (abs s)) = n_edit s) as [-> Hne] by (split; apply ring_length).
  rewrite Hne, Ht. destruct (Z.eqb_spec c 0) as [|Hc0]; [done|]. cbn [negb andb orb].
  unfold INPUT_BUF_SIZE. destruct (Z.ltb_spec (Z.of_nat (n_ready s + n_edit s)) 128) as [Hlt|Hge].
  2:{ rewrite bool_decide_true by lia. done. }
  rewrite bool_decide_false by lia. set (c' := if c =? CR then NL else c).
  assert (0 <= c' < 256) as Hc' by (unfold c', NL; destruct (c =? CR); lia).
  assert (same_ring s (consputc c' s)) as Hs by apply consputc_fields.
  assert (cons_core (consputc c' s)) as Hcore' by (by apply (same_ring_inv s (consputc c' s) Hs)).
  destruct (push_spec (consputc c' s) c' Hcore') as (P1 & P2 & P3 & P4 & P5); [|done|].
  { destruct Hs as (_ & E2 & E3 & E4). unfold n_ready, n_edit in *. rewrite E2, E3, E4. lia. }
  rewrite (same_ring_abs _ _ Hs) in P1, P2. set (s2 := cons_push c' (consputc c' s)) in *. destruct (n_total s2 P5) as [Ht2 _].
  assert (n_ready s2 = n_ready s /\ n_edit s2 = S (n_edit s)) as [Q1 Q2].
  { destruct Hs as (_ & E2 & E3 & E4). rewrite P3, P4. unfold n_ready, n_edit. by rewrite E2, E3, E4. }
  rewrite length_app, Hne, Ht2, Q1, Q2. simpl length.
  assert ((Z.of_nat (n_ready s + S (n_edit s)) =? 128) = bool_decide (n_ready s + (n_edit s + 1) = 128)%nat) as ->.
  { case_bool_decide; [apply Z.eqb_eq | apply Z.eqb_neq]; lia. }
  destruct (c' =? NL) eqn:E1; cbn [orb].
  { destruct (commit_spec s2 P5) as [K1 K2]. split; [done|]. by rewrite K2, P1, P2. }
  destruct ((c' =? CTRL_D) || bool_decide (n_ready s + (n_edit s + 1) = 128)%nat).
  { destruct (commit_spec s2 P5) as [K1 K2]. split; [done|]. by rewrite K2, P1, P2. }
  assert (abs s2 = Line (ln_ready (abs s)) (ln_edit (abs s) ++ [c'])) as Ha by (destruct (abs s2); simpl in *; by subst).
  split; [|done]. split; [done|]. rewrite P2. apply Forall_app. split; [apply Hi|]. constructor; [by apply Z.eqb_neq | done].
Qed.

Lemma line_eta l : Line (ln_ready l) (ln_edit l) = l.
Proof. by destruct l. Qed.

(** Taking a character. *)
Lemma take_spec s :
  cons_inv s -> cn_r s <> cn_w s ->
  let s' := set_r (u32 (cn_r s + 1)) s in
  cons_inv s' /\ ln_edit (abs s') = ln_edit (abs s) /\ ln_ready (abs s) = cons_at (cn_r s) s :: ln_ready (abs s').
Proof.
  intros [[Hl Hr Hw He Hf Hb] Hn] Hne s'.
  assert (n_ready s = S (n_ready s')) as Hs by (unfold n_ready, s', u32 in *; simpl; dlia).
  split; [split; [split; simpl; try done|done]|].
  - apply u32_range.
  - unfold u32 in *. dlia.
  - split; [done|]. unfold abs. cbn [ln_ready]. fold (n_ready s) (n_ready s'). rewrite Hs. change (S (n_ready s')) with (1 + n_ready s')%nat.
    rewrite (ring_app s (cn_r s) (cn_r s') 1) by (unfold s', u32; simpl; dlia). unfold ring at 1. simpl. by rewrite Z.add_0_r.
Qed.

Lemma ready_nil s : cons_inv s -> cn_r s = cn_w s <-> ln_ready (abs s) = [].
Proof.
  intros [[Hl Hr Hw He Hf Hb] Hn]. rewrite <- length_zero_iff_nil. unfold abs. cbn [ln_ready]. rewrite ring_length. unfold u32. dlia.
Qed.

Lemma consoleinit_abs s : abs (consoleinit s) = Line [] [].
Proof. done. Qed.

#[local] Opaque abs.

Section ReadSpec.
Context {U : Type} `{UserMem U}.

Lemma u64_step dst k : u64 (u64 (dst + 1) + Z.of_nat k) = u64 (dst + Z.of_nat (S k)).
Proof. unfold u64. rewrite Z.add_mod_idemp_l by lia. f_equal. lia. Qed.

(** A character stored, and the rest of the read. *)
Lemma read_ends_cons killed target n dst (u u1 : U) c l r u' rest :
  c <> NL -> c <> CTRL_D -> um_store u dst c = Some u1 -> n <= target ->
  read_ends killed target (n - 1) (u64 (dst + 1)) u1 l r u' rest -> read_ends killed target n dst u (c :: l) r u' rest.
Proof.
  intros Hn Hc Hs Ht He.
  assert (forall xs, plain xs -> plain (c :: xs)) as Hp by (intros xs; by constructor).
  assert (forall xs, put_bytes u dst (c :: xs) = put_bytes u1 (u64 (dst + 1)) xs) as Hb by (intros xs; simpl; by rewrite Hs).
  destruct He as [xs rest u' P L B|xs rest u' P L B|xs rest u' P L B T|rest L T|xs d rest u' P L B D F|xs u' P L B K|xs u' P L B K].
  - apply (re_full _ _ _ _ _ (c :: xs)); [auto|simpl; lia|by rewrite Hb].
  - replace (target - (n - 1) + Z.of_nat (length xs) + 1) with (target - n + Z.of_nat (length (c :: xs)) + 1) by (simpl; lia).
    apply (re_line _ _ _ _ _ (c :: xs)); [auto|simpl; lia|]. by rewrite <- app_comm_cons, Hb.
  - replace (target - (n - 1) + Z.of_nat (length xs)) with (target - n + Z.of_nat (length (c :: xs))) by (simpl; lia).
    apply (re_eof _ _ _ _ _ (c :: xs)); [auto|simpl; lia|by rewrite Hb|simpl; lia].
  - lia.
  - replace (target - (n - 1) + Z.of_nat (length xs)) with (target - n + Z.of_nat (length (c :: xs))) by (simpl; lia).
    apply (re_fault _ _ _ _ _ (c :: xs)); [auto|simpl; lia|by rewrite Hb|done|]. simpl length. by rewrite <- u64_step.
  - rewrite u64_step. replace (n - 1 - Z.of_nat (length xs)) with (n - Z.of_nat (length (c :: xs))) by (simpl; lia).
    apply (re_wait _ _ _ _ _ (c :: xs)); [auto|simpl; lia|by rewrite Hb|done].
  - apply (re_killed _ _ _ _ _ (c :: xs)); [auto|simpl; lia|by rewrite Hb|done].
Qed.

(** The state a read leaves, next to its result. *)
Definition read_leaves (killed : bool) (target n dst : Z) (u : U) (s : cons_t) (run : cr_result * U * cons_t) : Prop :=
  let '(r, u', s') := run in
  cons_inv s' /\ ln_edit (abs s') = ln_edit (abs s) /\ cn_rx s' = cn_rx s
  /\ read_ends killed target n dst u (ln_ready (abs s)) r u' (ln_ready (abs s')).

Lemma consoleread_loop_spec killed fuel target n dst u s :
  cons_inv s -> 0 <= dst < 2 ^ 64 -> n = Z.of_nat fuel -> n <= target ->
  read_leaves killed target n dst u s (consoleread_loop killed fuel target u dst n s).
Proof.
  revert n dst u s. induction fuel as [|fuel IH]; intros n dst u s Hi Hd Hn Ht; cbn [consoleread_loop].
  { split; [done|]. split; [done|]. split; [done|]. rewrite Hn, Z.sub_0_r. apply (re_full _ _ _ _ _ []); [constructor|simpl; lia|done]. }
  destruct (Z.eqb_spec (cn_r s) (cn_w s)) as [E|Hne].
  { pose proof (proj1 (ready_nil s Hi) E) as Hnil. destruct killed; (split; [done|]; split; [done|]; split; [done|]); rewrite Hnil.
    - apply (re_killed _ _ _ _ _ []); [constructor|simpl; lia|done|done].
    - replace (CrBlocked dst n) with (CrBlocked (u64 (dst + Z.of_nat 0)) (n - Z.of_nat 0)).
      + apply (re_wait _ _ _ _ _ []); [constructor|simpl; lia|done|done].
      + rewrite Z.add_0_r, u64_small, Z.sub_0_r by done. done. }
  destruct (take_spec s Hi Hne) as (Hi' & Hed & Hrd). set (s' := set_r (u32 (cn_r s + 1)) s) in *.
  set (c := cons_at (cn_r s) s) in *. destruct (Z.eqb_spec c CTRL_D) as [ED|HD].
  { destruct (Z.ltb_spec n target).
    - assert (set_r (u32 (cn_r s' - 1)) s' = s) as Hback.
      { destruct Hi as [[_ Hr _ _ _ _] _]. destruct s as [b r w e o x]. unfold s', set_r. simpl in *. f_equal. unfold u32. dlia. }
      rewrite Hback. split; [done|]. split; [done|]. split; [done|]. rewrite Hrd, ED, <- (Z.add_0_r (target - n)).
      apply (re_eof _ _ _ _ _ []); [constructor|simpl; lia|done|simpl; lia].
    - split; [done|]. split; [done|]. split; [done|]. rewrite Hrd, ED. assert (n = target) as -> by lia. rewrite Z.sub_diag.
      apply re_eof_first; [lia|done]. }
  destruct (um_store u dst c) as [u1|] eqn:Hst.
  2:{ split; [done|]. split; [done|]. split; [done|]. rewrite Hrd, <- (Z.add_0_r (target - n)).
      apply (re_fault _ _ _ _ _ []); [constructor|simpl; lia|done|done|]. change (Z.of_nat (length [])) with 0. by rewrite Z.add_0_r, u64_small. }
  destruct (Z.eqb_spec c NL) as [Hnl|Hnl].
  { split; [done|]. split; [done|]. split; [done|]. rewrite Hrd, Hnl. replace (target - (n - 1)) with (target - n + Z.of_nat 0 + 1) by lia.
    apply (re_line _ _ _ _ _ []); [constructor|simpl; lia|]. simpl. by rewrite <- Hnl, Hst. }
  specialize (IH (n - 1) (u64 (dst + 1)) u1 s' Hi' (u64_range _) ltac:(lia) ltac:(lia)). unfold read_leaves in *.
  destruct (consoleread_loop killed fuel target u1 (u64 (dst + 1)) (n - 1) s') as [[r u'] s2]. destruct IH as (I1 & I2 & I3 & I4).
  split; [done|]. split; [by rewrite I2|]. split; [by rewrite I3|]. rewrite Hrd. by eapply read_ends_cons.
Qed.

Lemma consoleread_spec killed u dst n s :
  cons_inv s -> 0 <= dst < 2 ^ 64 -> 0 < n -> read_leaves killed n n dst u s (consoleread killed u dst n s).
Proof.
  intros Hi Hd Hn. unfold consoleread. destruct (Z.leb_spec n 0); [lia|]. apply consoleread_loop_spec; [done|done|lia|lia].
Qed.
End ReadSpec.

(** ** The theorems *)

Lemma consoleintr_rx pd c s : cn_rx (consoleintr pd c s) = cn_rx s.
Proof.
  assert (forall c s, cn_rx (consputc c s) = cn_rx s) as Hp by (intros; unfold consputc; by destruct (_ =? _)).
  assert (forall fuel s, cn_rx (kill_line fuel s) = cn_rx s) as Hk.
  { induction fuel as [|fuel IH]; intros; cbn [kill_line]; [done|]. destruct (_ && _); [by rewrite IH, Hp | done]. }
  unfold consoleintr. cbv zeta.
  repeat match goal with |- context [if ?b then _ else _] => destruct b end; cbn [cn_rx set_w cons_push]; rewrite ?Hp, ?Hk, ?Hp; done.
Qed.

Lemma uartintr_loop_spec pd fuel s :
  cons_inv s -> length (cn_rx s) = fuel ->
  let s' := uartintr_loop pd fuel s in
  cons_inv s' /\ cn_rx s' = [] /\ abs s' = foldl (fun l c => line_input (u8 c) l) (abs s) (cn_rx s).
Proof.
  revert s. induction fuel as [|fuel IH]; intros s Hi Hl; cbn [uartintr_loop].
  { apply length_zero_iff_nil in Hl. by rewrite Hl. }
  unfold uartgetc. destruct (cn_rx s) as [|c rx] eqn:Hrx; [done|]. injection Hl as Hl.
  set (s1 := Cons (cn_buf s) (cn_r s) (cn_w s) (cn_e s) (cn_out s) rx).
  assert (same_ring s s1) as Hs by done.
  destruct (consoleintr_spec pd (u8 c) s1 (same_ring_inv _ _ Hs Hi) (u8_range c)) as [Hi2 Ha2].
  destruct (IH (consoleintr pd (u8 c) s1) Hi2) as (I1 & I2 & I3); [by rewrite consoleintr_rx|].
  split; [done|]. split; [done|]. rewrite I3, Ha2, consoleintr_rx. simpl. by rewrite (same_ring_abs _ _ Hs).
Qed.

Lemma consoleinit_inv s :
  length (cn_buf s) = 128%nat -> Forall (fun x => 0 <= x < 256) (cn_buf s) -> cons_inv (consoleinit s).
Proof. intros Hl Hb. split; [|constructor]. split; simpl; try done; lia. Qed.

(** ** The console and its users *)

(** What happens at a console: a character arrives, the interrupt handler runs,
    or a process reads, in one atomic run, either from the start of the call or
    where it went to sleep. *)
Inductive cons_event {U : Type} :=
| CeArrive (c : Z)
| CeIntr
| CeRead (killed : bool) (target n dst : Z) (u : U) (r : cr_result) (u' : U).
#[global] Arguments cons_event : clear implicits.

Section Discipline.
Context {U : Type} `{UserMem U} (pd : list Z).

Inductive cons_step : cons_t -> cons_event U -> cons_t -> Prop :=
| cs_arrive c s : cons_step s (CeArrive c) (Cons (cn_buf s) (cn_r s) (cn_w s) (cn_e s) (cn_out s) (cn_rx s ++ [c]))
| cs_intr s : cons_step s CeIntr (uartintr pd s)
| cs_read killed n dst u r u' s s' :
    0 < n -> 0 <= dst < 2 ^ 64 -> consoleread killed u dst n s = (r, u', s') -> cons_step s (CeRead killed n n dst u r u') s'
| cs_resume killed target n dst u r u' s s' :
    0 < n <= target -> 0 <= dst < 2 ^ 64 -> consoleread_loop killed (Z.to_nat n) target u dst n s = (r, u', s') ->
    cons_step s (CeRead killed target n dst u r u') s'.

(** The line discipline: the line and the characters that have arrived and
    are not handled yet. *)
Inductive line_step : line_st * list Z -> cons_event U -> line_st * list Z -> Prop :=
| lst_arrive c l q : line_step (l, q) (CeArrive c) (l, q ++ [c])
| lst_intr l q : line_step (l, q) CeIntr (foldl (fun l c => line_input (u8 c) l) l q, [])
| lst_read killed target n dst u r u' l rest q :
    read_ends killed target n dst u (ln_ready l) r u' rest ->
    line_step (l, q) (CeRead killed target n dst u r u') (Line rest (ln_edit l), q).

Inductive runs_of {S : Type} (step : S -> cons_event U -> S -> Prop) : S -> list (cons_event U) -> S -> Prop :=
| ro_nil s : runs_of step s [] s
| ro_step s s1 s2 tr ev : runs_of step s tr s1 -> step s1 ev s2 -> runs_of step s (tr ++ [ev]) s2.

Lemma cons_line_step s ev s' :
  cons_inv s -> cons_step s ev s' -> cons_inv s' /\ line_step (abs s, cn_rx s) ev (abs s', cn_rx s').
Proof.
  intros Hi. destruct 1 as [c s|s|killed n dst u r u' s s' Hn Hd R|killed target n dst u r u' s s' Hn Hd R].
  - set (s1 := Cons _ _ _ _ _ _). assert (same_ring s s1) as Hs by done. rewrite (same_ring_abs _ _ Hs).
    split; [by eapply same_ring_inv|apply lst_arrive].
  - destruct (uartintr_loop_spec pd _ s Hi eq_refl) as (I1 & I2 & I3). fold (uartintr pd s) in I1, I2, I3. split; [done|]. rewrite I2, I3. apply lst_intr.
  - pose proof (consoleread_spec killed u dst n s Hi Hd Hn) as Hr. rewrite R in Hr. destruct Hr as (I1 & I2 & I3 & I4).
    split; [done|]. rewrite I3, <- (line_eta (abs s')), I2. by apply lst_read.
  - pose proof (consoleread_loop_spec killed (Z.to_nat n) target n dst u s Hi Hd ltac:(lia) ltac:(lia)) as Hr. rewrite R in Hr.
    destruct Hr as (I1 & I2 & I3 & I4). split; [done|]. rewrite I3, <- (line_eta (abs s')), I2. by apply lst_read.
Qed.

(** C28: console input is a line discipline.  From [consoleinit], or from a
    ring that has reached any indices, every interleaving of arriving
    characters, interrupts and reads is one of the specification: erase removes
    the last character of the line being edited and never a character already
    handed to the reader, kill empties the line, carriage return is newline, and
    a line is handed over at a newline, an end of file or a full buffer; reads
    return the characters handed over in order, line by line.  The indices stay
    32-bit numbers with at most 128 characters between them, however often they
    wrap around. *)
Theorem console_line_discipline :
  (forall s, length (cn_buf s) = 128%nat -> Forall (fun x => 0 <= x < 256) (cn_buf s) ->
     cons_inv (consoleinit s) /\ abs (consoleinit s) = Line [] [])
  /\ forall s tr s', cons_inv s -> runs_of cons_step s tr s' ->
     cons_inv s' /\ runs_of line_step (abs s, cn_rx s) tr (abs s', cn_rx s').
Proof.
  split; [intros s Hl Hb; split; [by apply consoleinit_inv|apply consoleinit_abs]|]. intros s tr s' Hi Hr.
  induction Hr as [s|s s1 s2 tr ev _ IH Hst]; [split; [done|constructor]|]. destruct (IH Hi) as [Hi1 Hl].
  destruct (cons_line_step s1 ev s2 Hi1 Hst) as [Hi2 Hl2]. split; [done|]. econstructor; [exact Hl|exact Hl2].
Qed.
End Discipline.

Module ConsoleDemo.
(** A ring whose indices are about to wrap around, both at 128 and at 2^32, with
    "hi", an erase, "o", a carriage return and "b" waiting. *)
Definition last : cons_t :=
  Cons (replicate 128 0) (2 ^ 32 - 2) (2 ^ 32 - 2) (2 ^ 32 - 2) [] [104; 105; 8; 111; 13; 98].
Lemma last_inv : cons_inv last.
Proof.
  split; [|vm_compute; constructor]. split; simpl; try lia; [by vm_compute|].
  change (Forall (fun x => 0 <= x < 256) (replicate 128 0)). apply Forall_replicate. lia.
Qed.
Definition mem0 : flat_mem := FlatMem (fun _ => 0) (fun _ => true).
Definition typed : cons_t := uartintr [] last.
Definition answer : cr_result * flat_mem * cons_t := consoleread false mem0 64 10 typed.
Definition events : list (cons_event flat_mem) := [CeIntr; CeRead false 10 10 64 mem0 (CrDone 3) (snd (fst answer))].
Lemma demo_runs : runs_of (cons_step []) last events (snd answer).
Proof.
  assert (fst (fst answer) = CrDone 3) as E by (vm_compute; reflexivity). unfold events. rewrite <- E.
  apply (ro_step _ _ typed _ [CeIntr]); [apply (ro_step _ _ last _ []); [constructor|apply cs_intr]|].
  apply cs_read; [lia|lia|]. unfold answer. by destruct (consoleread false mem0 64 10 typed) as [[? ?] ?].
Qed.
End ConsoleDemo.

Lemma console_line_discipline_witness :
  cn_r (snd ConsoleDemo.answer) = 1 /\ load_bytes (snd (fst ConsoleDemo.answer)) 64 3 = Some [104; 111; 10]
  /\ cons_inv (snd ConsoleDemo.answer)
  /\ runs_of line_step (Line [] [], [104; 105; 8; 111; 13; 98]) ConsoleDemo.events (Line [] [98], []).
Proof.
  split; [by vm_compute|]. split; [by vm_compute|].
  exact (proj2 (console_line_discipline []) ConsoleDemo.last ConsoleDemo.events _ ConsoleDemo.last_inv ConsoleDemo.demo_runs).
Defined.
