(* ===== verification/UartTx.v ===== *)
(** Console output: [consolewrite] (src/kernel/console.c) and the transmit side
    of the UART (src/kernel/uart.c).

    A process writes through [uartwrite], which hands the UART one byte at a
    time and sleeps on [tx_chan] in between; the kernel's printf and the echo of
    the console use [uartputc_sync], which does not take [tx_lock] but spins
    until the UART is idle.  Both, the interrupt handler and the device are
    steps of [tx_step], for any number of writers on up to [NCPU] harts.

    The UART is the 16550a with its FIFOs enabled: it queues up to 16 bytes,
    drops a byte written to a full queue, sets [LSR_TX_IDLE] when the queue is
    empty, and raises the transmit interrupt when the queue becomes empty; the
    interrupt is cleared by reading [ISR] or by writing a byte. *)

From S2P Require Import Prelude.
From S2P Require Import UserMem.

Definition FIFO_SIZE : nat := 16.
Definition NCPU : nat := 8.

(** [tx_busy] with the device: the bytes queued, the bytes sent, and whether
    the transmit interrupt is pending. *)
Record uart := Uart { tx_busy : bool; u_fifo : list Z; u_wire : list Z; u_pend : bool }.

Definition lsr_tx_idle (s : uart) : bool := bool_decide (u_fifo s = []).
(** [WriteReg(THR, c)] *)
Definition write_thr (c : Z) (s : uart) : uart :=
  Uart (tx_busy s) (if (length (u_fifo s) <? FIFO_SIZE)%nat then u_fifo s ++ [c] else u_fifo s) (u_wire s) false.
Definition set_busy (b : bool) (s : uart) : uart := Uart b (u_fifo s) (u_wire s) (u_pend s).

(** The registers, and what [uartinit] writes to them. *)
Definition IER : Z := 1.
Definition FCR : Z := 2.
Definition LCR : Z := 3.
Definition IER_RX_ENABLE : Z := Z.shiftl 1 0.
Definition IER_TX_ENABLE : Z := Z.shiftl 1 1.
Definition FCR_FIFO_ENABLE : Z := Z.shiftl 1 0.
Definition FCR_FIFO_CLEAR : Z := Z.shiftl 3 1.
Definition LCR_EIGHT_BITS : Z := Z.shiftl 3 0.
Definition LCR_BAUD_LATCH : Z := Z.shiftl 1 7.
Definition uartinit_writes : list (Z * Z) :=
  [ (IER, 0); (LCR, LCR_BAUD_LATCH); (0, 3); (1, 0); (LCR, LCR_EIGHT_BITS);
    (FCR, Z.lor FCR_FIFO_ENABLE FCR_FIFO_CLEAR); (IER, Z.lor IER_TX_ENABLE IER_RX_ENABLE) ].

(** After [uartinit]: the FIFOs are empty and enabled, nothing is pending. *)
Definition uart_reset : uart := Uart false [] [] false.

(** The loop of [uartwrite] until it returns or sleeps: the bytes it still has
    to write when it sleeps on [tx_chan], none when it returns. *)
Fixpoint uartwrite (buf : list Z) (s : uart) : list Z * uart :=
  match buf with
  | [] => ([], s)
  | c :: buf' => if tx_busy s then (buf, s) else uartwrite buf' (set_busy true (write_thr c s))
  end.

(** The locked part of [uartintr]: whether it wakes up [tx_chan]. *)
Definition uartintr_tx (s : uart) : bool * uart :=
  if lsr_tx_idle s then (true, set_busy false s) else (false, s).
(** [ReadReg(ISR)] *)
Definition read_isr (s : uart) : uart := Uart (tx_busy s) (u_fifo s) (u_wire s) false.

(** ** [consolewrite] *)

Definition CHUNK : Z := 32.

(** Done with the value returned, or asleep in [uartwrite] with the offset and
    length of the chunk and the bytes left of it. *)
Inductive cw := CwDone (r : Z) | CwSleep (i nn : Z) (rest : list Z).

Section Write.
Context {U : Type} `{UserMem U} (u : U) (src n : Z).

(** The loop of [consolewrite] at [i], until the process is done or sleeps. *)
Fixpoint consolewrite_loop (fuel : nat) (i : Z) (s : uart) : cw * uart :=
  match fuel with
  | O => (CwDone i, s)
  | S fuel' =>
      if negb (i <? n) then (CwDone i, s) else
      let nn := if CHUNK >? n - i then n - i else CHUNK in
      match load_bytes u (u64 (src + i)) (Z.to_nat nn) with
      | None => (CwDone i, s)
      | Some buf =>
          let '(rest, s) := uartwrite buf s in
          match rest with
          | [] => consolewrite_loop fuel' (i + nn) s
          | _ => (CwSleep i nn rest, s)
          end
      end
  end.

Definition consolewrite (s : uart) : cw * uart :=
  if n <=? 0 then (CwDone 0, s) else consolewrite_loop (S (Z.to_nat n)) 0 s.

(** The process runs again after it slept. *)
Definition consolewrite_wake (i nn : Z) (rest : list Z) (s : uart) : cw * uart :=
  let '(rest, s) := uartwrite rest s in
  match rest with
  | [] => consolewrite_loop (S (Z.to_nat n)) (i + nn) s
  | _ => (CwSleep i nn rest, s)
  end.
End Write.

(** ** Writers, harts, the interrupt handler and the device *)

Inductive phase := Idle | Asleep (i nn : Z) (rest : list Z) | Awake (i nn : Z) (rest : list Z) | Returned (r : Z).

Section System.
Context {U : Type} `{UserMem U}.

Record writer := Writer { w_user : U; w_src : Z; w_n : Z; w_phase : phase }.
Definition set_phase (p : phase) (w : writer) : writer := Writer (w_user w) (w_src w) (w_n w) p.

(** [sy_spun h]: hart [h] has seen the UART idle in [uartputc_sync] and is about
    to write this byte.  [sy_intr]: a hart is in [uartintr], past reading [ISR]. *)
Record sys := Sys { sy_uart : uart; sy_writers : list writer; sy_spun : list (option Z); sy_intr : bool }.

Definition outcome_phase (c : cw) : phase :=
  match c with CwDone r => Returned r | CwSleep i nn rest => Asleep i nn rest end.
Definition wake (w : writer) : writer :=
  match w_phase w with Asleep i nn rest => set_phase (Awake i nn rest) w | _ => w end.

(** Who wrote a byte: a process or a hart. *)
Inductive source := Process (w : nat) | Hart (h : nat).

(** The bytes of the user's buffer that a writer has handed over. *)
Definition progress (p : phase) : Z :=
  match p with
  | Idle => 0
  | Asleep i nn rest | Awake i nn rest => i + nn - Z.of_nat (length rest)
  | Returned r => r
  end.
(** The bytes a step of a writer handed over. *)
Definition emitted (w : writer) (p' : phase) : list Z :=
  default [] (load_bytes (w_user w) (u64 (w_src w + progress (w_phase w))) (Z.to_nat (progress p' - progress (w_phase w)))).

(** A step with the bytes it wrote to the transmit register. *)
Inductive tx_step : sys -> list (source * Z) -> sys -> Prop :=
| step_write y k w c u' :
    sy_writers y !! k = Some w -> w_phase w = Idle ->
    consolewrite (w_user w) (w_src w) (w_n w) (sy_uart y) = (c, u') ->
    tx_step y ((fun b => (Process k, b)) <$> emitted w (outcome_phase c))
      (Sys u' (<[k := set_phase (outcome_phase c) w]> (sy_writers y)) (sy_spun y) (sy_intr y))
| step_resume y k w i nn rest c u' :
    sy_writers y !! k = Some w -> w_phase w = Awake i nn rest ->
    consolewrite_wake (w_user w) (w_src w) (w_n w) i nn rest (sy_uart y) = (c, u') ->
    tx_step y ((fun b => (Process k, b)) <$> emitted w (outcome_phase c))
      (Sys u' (<[k := set_phase (outcome_phase c) w]> (sy_writers y)) (sy_spun y) (sy_intr y))
| step_spin y h c :
    sy_spun y !! h = Some None -> lsr_tx_idle (sy_uart y) = true ->
    tx_step y [] (Sys (sy_uart y) (sy_writers y) (<[h := Some c]> (sy_spun y)) (sy_intr y))
| step_putc y h c :
    sy_spun y !! h = Some (Some c) ->
    tx_step y [(Hart h, c)] (Sys (write_thr c (sy_uart y)) (sy_writers y) (<[h := None]> (sy_spun y)) (sy_intr y))
| step_ack y :
    sy_intr y = false -> tx_step y [] (Sys (read_isr (sy_uart y)) (sy_writers y) (sy_spun y) true)
| step_intr y woken u' :
    sy_intr y = true -> uartintr_tx (sy_uart y) = (woken, u') ->
    tx_step y [] (Sys u' (if woken then wake <$> sy_writers y else sy_writers y) (sy_spun y) false)
| step_send y c fifo :
    u_fifo (sy_uart y) = c :: fifo ->
    tx_step y [] (Sys (Uart (tx_busy (sy_uart y)) fifo (u_wire (sy_uart y) ++ [c]) (u_pend (sy_uart y) || bool_decide (fifo = [])))
                      (sy_writers y) (sy_spun y) (sy_intr y)).
End System.
