(* ===== verification/UartTxProof.v ===== *)
(** Console output arrives: nothing a writer or a hart hands to the UART is
    lost or reordered, and no writer sleeps for ever. *)

From S2P Require Import Prelude.
From S2P Require Import UserMem.
From S2P Require Import UartTx.

(** ** Buffers in user memory *)

Section Load.
Context {U : Type} `{UserMem U} (u : U).

Lemma load_bytes_Forall2 va n xs :
  load_bytes u va n = Some xs <-> Forall2 (fun i x => um_load u (u64 (va + Z.of_nat i)) = Some x) (seq 0 n) xs.
Proof. apply mapM_Some. Qed.

Lemma load_bytes_length va n xs : load_bytes u va n = Some xs -> length xs = n.
Proof. intros E. apply length_mapM in E. by rewrite length_seq in E. Qed.

Lemma load_bytes_lookup va n xs :
  load_bytes u va n = Some xs <->
  length xs = n /\ forall i x, xs !! i = Some x -> um_load u (u64 (va + Z.of_nat i)) = Some x.
Proof.
  rewrite load_bytes_Forall2, Forall2_lookup. split.
  - intros Hf. assert (length xs = n) as Hl.
    { apply load_bytes_length with (va := va). by apply load_bytes_Forall2, Forall2_lookup. }
    split; [done|]. intros i x Hx. specialize (Hf i). rewrite Hx, lookup_seq_lt in Hf by (rewrite <- Hl; by eapply lookup_lt_Some).
    by inversion Hf.
  - intros [Hl Hx] i. destruct (xs !! i) as [x|] eqn:E.
    + rewrite lookup_seq_lt by (rewrite <- Hl; by eapply lookup_lt_Some). constructor. by apply Hx.
    + apply lookup_ge_None in E. rewrite lookup_seq_ge by lia. constructor.
Qed.

Lemma load_bytes_u64 va n : load_bytes u (u64 va) n = load_bytes u va n.
Proof. unfold load_bytes. apply mapM_ext. intros i. f_equal. unfold u64. by rewrite Zplus_mod_idemp_l. Qed.

Lemma load_bytes_app va a b xs ys :
  load_bytes u va a = Some xs -> load_bytes u (va + Z.of_nat a) b = Some ys -> load_bytes u va (a + b) = Some (xs ++ ys).
Proof.
  rewrite !load_bytes_lookup. intros [Hl1 H1] [Hl2 H2]. rewrite length_app. split; [lia|]. intros i x Hx.
  apply lookup_app_Some in Hx as [Hx|[Hge Hx]]; [auto|]. specialize (H2 _ _ Hx). rewrite <- H2. do 2 f_equal. lia.
Qed.

Lemma load_bytes_part va n pre xs post :
  load_bytes u va n = Some (pre ++ xs ++ post) -> load_bytes u (va + Z.of_nat (length pre)) (length xs) = Some xs.
Proof.
  rewrite !load_bytes_lookup. intros [_ H1]. split; [done|]. intros i x Hx. rewrite <- (H1 (length pre + i)%nat x).
  - do 2 f_equal. lia.
  - rewrite lookup_app_r by lia. replace (length pre + i - length pre)%nat with i by lia. by apply lookup_app_l_Some.
Qed.
End Load.

(** ** One run of a writer *)

Lemma uartwrite_eq buf s :
  uartwrite buf s = match buf with
                    | [] => ([], s)
                    | c :: buf' => if tx_busy s then (buf, s) else (buf', set_busy true (write_thr c s))
                    end.
Proof. destruct buf as [|c [|c' buf]]; [done| |]; simpl; by destruct (tx_busy s). Qed.

Section Run.
Context {U : Type} `{UserMem U} (u : U) (src n : Z).

(** An outcome of [consolewrite]: all of the buffer or up to a chunk that
    cannot be read, or asleep inside a chunk. *)
Definition cw_ok (c : cw) : Prop :=
  match c with
  | CwDone r => 0 <= r /\ (r = Z.max n 0 \/ r < n /\ load_bytes u (u64 (src + r)) (Z.to_nat (Z.min CHUNK (n - r))) = None)
  | CwSleep i nn rest => 0 <= i /\ i + nn <= n /\ rest <> [] /\ exists pre, load_bytes u (u64 (src + i)) (Z.to_nat nn) = Some (pre ++ rest)
  end.

(** A run hands over at most one byte, the next one of the buffer, and sleeps
    only when the UART is busy. *)
Definition hands (s : uart) (p : Z) (c : cw) (s' : uart) : Prop :=
  (s' = s /\ progress (outcome_phase c) = p
   \/ tx_busy s = false /\ exists x, s' = set_busy true (write_thr x s) /\ progress (outcome_phase c) = p + 1
        /\ load_bytes u (u64 (src + p)) 1 = Some [x])
  /\ match c with CwSleep _ _ _ => tx_busy s' = true | CwDone _ => True end.

Lemma loop_busy fuel i s c s' :
  consolewrite_loop u src n (S fuel) i s = (c, s') -> 0 <= i <= n -> tx_busy s = true -> cw_ok c /\ s' = s /\ progress (outcome_phase c) = i.
Proof.
  cbn [consolewrite_loop]. intros R Hi Hb. destruct (Z.ltb_spec i n) as [Hlt|Hge]; cbn [negb] in R.
  2:{ injection R as <- <-. split; [|done]. simpl. lia. }
  set (nn := if CHUNK >? n - i then n - i else CHUNK) in *.
  assert (nn = Z.min CHUNK (n - i)) as En by (unfold nn; rewrite Z.gtb_ltb; bcase; lia).
  destruct (load_bytes u (u64 (src + i)) (Z.to_nat nn)) as [buf|] eqn:El.
  - pose proof (load_bytes_length _ _ _ _ El) as Ln. unfold CHUNK in En. rewrite uartwrite_eq, Hb in R. destruct buf as [|x buf]; [simpl in Ln; lia|].
    injection R as <- <-. split; [|split; [done|]].
    + simpl. split; [lia|]. split; [lia|]. split; [done|]. by exists [].
    + cbn [progress outcome_phase]. rewrite Ln. lia.
  - injection R as <- <-. split; [|done]. split; [lia|]. right. by rewrite <- En.
Qed.

Lemma hands_first s p i nn pre x rest fuel c s' :
  tx_busy s = false -> load_bytes u (u64 (src + i)) (Z.to_nat nn) = Some (pre ++ x :: rest) -> 0 <= i -> 0 <= nn -> i + nn <= n -> n - (i + nn) < Z.of_nat fuel ->
  p = i + Z.of_nat (length pre) ->
  match rest with
  | [] => consolewrite_loop u src n fuel (i + nn) (set_busy true (write_thr x s))
  | _ => (CwSleep i nn rest, set_busy true (write_thr x s))
  end = (c, s') -> cw_ok c /\ hands s p c s'.
Proof.
  intros Hb El Hi Hnn Hin Hf -> R. pose proof (load_bytes_length _ _ _ _ El) as Ln. rewrite length_app in Ln. simpl in Ln.
  assert (load_bytes u (u64 (src + (i + Z.of_nat (length pre)))) 1 = Some [x]) as E1.
  { rewrite load_bytes_u64 in *. rewrite Z.add_assoc. apply (load_bytes_part u (src + i) (Z.to_nat nn) pre [x] rest El). }
  destruct rest as [|y rest].
  - destruct fuel as [|fuel]; [lia|]. destruct (loop_busy fuel (i + nn) _ c s' R) as (Hok & -> & Hp); [lia|done|].
    split; [done|]. split; [|by destruct c]. right. split; [done|]. exists x. split; [done|]. split; [|done]. simpl in Ln. rewrite Hp. lia.
  - injection R as <- <-. split.
    + split; [lia|]. split; [lia|]. split; [done|]. exists (pre ++ [x]). by rewrite <- app_assoc.
    + split; [|done]. right. split; [done|]. exists x. split; [done|]. split; [|done]. cbn [progress outcome_phase]. simpl in Ln |- *. lia.
Qed.

Lemma loop_run fuel i s c s' :
  consolewrite_loop u src n fuel i s = (c, s') -> 0 <= i <= n -> n - i < Z.of_nat fuel -> cw_ok c /\ hands s i c s'.
Proof.
  intros R Hi Hf. destruct fuel as [|fuel]; [lia|]. destruct (tx_busy s) eqn:Hb.
  { destruct (loop_busy fuel i s c s' R Hi Hb) as (Hok & -> & Hp). split; [done|]. split; [by left|]. by destruct c. }
  cbn [consolewrite_loop] in R. destruct (Z.ltb_spec i n) as [Hlt|Hge]; cbn [negb] in R.
  2:{ injection R as <- <-. split; [simpl; lia|]. split; [by left|done]. }
  set (nn := if CHUNK >? n - i then n - i else CHUNK) in *.
  assert (nn = Z.min CHUNK (n - i)) as En by (unfold nn; rewrite Z.gtb_ltb; bcase; lia).
  destruct (load_bytes u (u64 (src + i)) (Z.to_nat nn)) as [buf|] eqn:El.
  - pose proof (load_bytes_length _ _ _ _ El) as Ln. unfold CHUNK in En. rewrite uartwrite_eq, Hb in R. destruct buf as [|x buf]; [simpl in Ln; lia|].
    eapply (hands_first s i i nn [] x buf fuel c s'); try done; try lia. simpl. lia.
  - injection R as <- <-. split; [|split; [by left|done]]. split; [lia|]. right. by rewrite <- En.
Qed.

Lemma write_run s c s' : consolewrite u src n s = (c, s') -> cw_ok c /\ hands s 0 c s'.
Proof.
  unfold consolewrite. destruct (Z.leb_spec n 0).
  - intros [= <- <-]. split; [simpl; lia|]. split; [by left|done].
  - intros R. apply (loop_run _ _ _ _ _ R); lia.
Qed.

Lemma wake_run i nn rest s c s' :
  cw_ok (CwSleep i nn rest) -> consolewrite_wake u src n i nn rest s = (c, s') ->
  cw_ok c /\ hands s (progress (Asleep i nn rest)) c s'.
Proof.
  intros Hok R. pose proof Hok as (Hi & Hin & Hne & pre & El). pose proof (load_bytes_length _ _ _ _ El) as Ln. rewrite length_app in Ln.
  unfold consolewrite_wake in R. rewrite uartwrite_eq in R. destruct rest as [|x rest]; [done|]. simpl in Ln. destruct (tx_busy s) eqn:Hb.
  - injection R as <- <-. split; [done|]. split; [by left|done].
  - eapply (hands_first s _ i nn pre x rest (S (Z.to_nat n)) c s'); try done; try lia. cbn [progress]. simpl length. lia.
Qed.
End Run.

(** ** The system *)

Section System.
Context {U : Type} `{UserMem U}.
Implicit Types (y : sys (U := U)) (w : writer (U := U)).
Abbreviation trace := (list (source * Z)).

(** The bytes process [k] wrote. *)
Fixpoint bytes_of (k : nat) (tr : trace) : list Z :=
  match tr with
  | [] => []
  | (Process j, b) :: tr' => if decide (j = k) then b :: bytes_of k tr' else bytes_of k tr'
  | (Hart _, _) :: tr' => bytes_of k tr'
  end.

Lemma bytes_of_app k t1 t2 : bytes_of k (t1 ++ t2) = bytes_of k t1 ++ bytes_of k t2.
Proof. induction t1 as [|[[j|h] b] t1 IH]; simpl; [done| |done]. case_decide; simpl; by rewrite IH. Qed.
Lemma bytes_of_process k j xs : bytes_of k ((fun b => (Process j, b)) <$> xs) = if decide (j = k) then xs else [].
Proof. induction xs as [|x xs IH]; [by case_decide|]. rewrite fmap_cons. cbn [bytes_of]. rewrite IH. by case_decide. Qed.

Definition phase_ok w : Prop :=
  match w_phase w with
  | Idle => True
  | Asleep i nn rest | Awake i nn rest => cw_ok (w_user w) (w_src w) (w_n w) (CwSleep i nn rest)
  | Returned r => cw_ok (w_user w) (w_src w) (w_n w) (CwDone r)
  end.
Definition asleep w : Prop := match w_phase w with Asleep _ _ _ => True | _ => False end.

(** A writer has handed over the first bytes of its buffer, in order. *)
Definition delivered w (xs : list Z) : Prop :=
  0 <= progress (w_phase w) /\ load_bytes (w_user w) (w_src w) (Z.to_nat (progress (w_phase w))) = Some xs.

Definition spun (l : list (option Z)) : nat := length (filter is_Some l).

Record tx_inv (tr : trace) y : Prop := {
  ti_all : u_wire (sy_uart y) ++ u_fifo (sy_uart y) = tr.*2;
  ti_writer k w : sy_writers y !! k = Some w -> phase_ok w /\ delivered w (bytes_of k tr);
  ti_asleep k w : sy_writers y !! k = Some w -> asleep w -> tx_busy (sy_uart y) = true;
  ti_busy : tx_busy (sy_uart y) = true -> u_fifo (sy_uart y) <> [] \/ u_pend (sy_uart y) = true \/ sy_intr y = true;
  ti_harts : (length (sy_spun y) <= NCPU)%nat;
  ti_room : (length (u_fifo (sy_uart y)) + spun (sy_spun y) + (if tx_busy (sy_uart y) then 0 else 1) <= NCPU + 1)%nat }.

Lemma spun_insert (l : list (option Z)) h (o o' : option Z) :
  l !! h = Some o -> (spun (<[h := o']> l) + (if o is Some _ then 1 else 0) = spun l + (if o' is Some _ then 1 else 0))%nat.
Proof.
  revert h. induction l as [|x l IH]; intros [|h] Hh; simpl in Hh; try done.
  - injection Hh as ->. unfold spun. simpl. destruct o, o'; rewrite ?filter_cons; simpl; lia.
  - specialize (IH h Hh). unfold spun in *. simpl. rewrite !filter_cons. destruct x; simpl; lia.
Qed.
Lemma spun_le l : (spun l <= length l)%nat.
Proof. unfold spun. apply length_filter. Qed.

(** The queue has room whenever a byte is written. *)
Lemma write_thr_room tr y c :
  tx_inv tr y -> (length (u_fifo (sy_uart y)) <= NCPU)%nat ->
  u_fifo (write_thr c (sy_uart y)) = u_fifo (sy_uart y) ++ [c].
Proof. intros I Hl. simpl. unfold NCPU, FIFO_SIZE in *. by rewrite (proj2 (Nat.ltb_lt _ _)) by lia. Qed.

(** A run of a writer. *)
Lemma inv_hands tr y k w c u' :
  tx_inv tr y -> sy_writers y !! k = Some w -> ~ asleep w ->
  cw_ok (w_user w) (w_src w) (w_n w) c ->
  hands (w_user w) (w_src w) (sy_uart y) (progress (w_phase w)) c u' ->
  tx_inv (tr ++ ((fun b => (Process k, b)) <$> emitted w (outcome_phase c)))
    (Sys u' (<[k := set_phase (outcome_phase c) w]> (sy_writers y)) (sy_spun y) (sy_intr y)).
Proof.
  intros I Hk Hna Hok [Hp Hb]. pose proof I as [A W S B Hh R]. destruct (W k w Hk) as [_ [Hp0 HL]]. set (p := progress (w_phase w)) in *.
  assert (phase_ok (set_phase (outcome_phase c) w)) as Hph by (by destruct c).
  assert (forall p', bytes_of k (tr ++ ((fun b => (Process k, b)) <$> p')) = bytes_of k tr ++ p') as Hself.
  { intros p'. rewrite bytes_of_app, bytes_of_process. by rewrite decide_True. }
  assert (forall j p', j <> k -> bytes_of j (tr ++ ((fun b => (Process k, b)) <$> p')) = bytes_of j tr) as Hother.
  { intros j p' Hj. rewrite bytes_of_app, bytes_of_process. by rewrite decide_False, app_nil_r. }
  assert (exists xs, emitted w (outcome_phase c) = xs /\ u_wire u' ++ u_fifo u' = tr.*2 ++ xs
    /\ delivered (set_phase (outcome_phase c) w) (bytes_of k tr ++ xs)
    /\ (tx_busy (sy_uart y) = true -> u' = sy_uart y)
    /\ (tx_busy u' = true -> u_fifo u' <> [] \/ u_pend u' = true \/ sy_intr y = true)
    /\ (length (u_fifo u') + spun (sy_spun y) + (if tx_busy u' then 0 else 1) <= NCPU + 1)%nat) as (xs & -> & A' & D' & S' & B' & R').
  { unfold emitted. fold p. destruct Hp as [[-> Ep]|(Hnb & x & -> & Ep & El)].
    - exists []. unfold delivered. cbn [w_phase set_phase w_user w_src]. rewrite Ep, Z.sub_diag, !app_nil_r. done.
    - exists [x]. rewrite Ep. replace (p + 1 - p) with 1 by lia. change (Z.to_nat 1) with 1%nat. rewrite El. rewrite Hnb in R.
      assert (u_fifo (write_thr x (sy_uart y)) = u_fifo (sy_uart y) ++ [x]) as Ef by (eapply write_thr_room; [done|lia]).
      split; [done|]. cbn [set_busy u_fifo u_wire tx_busy u_pend]. rewrite Ef. cbn [write_thr u_wire u_pend]. split; [by rewrite app_assoc, A|].
      split; [|split; [by rewrite Hnb|split; [intros _; left; by destruct (u_fifo (sy_uart y))|rewrite length_app; cbn [length]; lia]]].
      unfold delivered. cbn [w_phase set_phase w_user w_src]. rewrite Ep. split; [lia|].
      replace (Z.to_nat (p + 1)) with (Z.to_nat p + 1)%nat by lia. apply load_bytes_app; [done|].
      rewrite Z2Nat.id by lia. by rewrite load_bytes_u64 in El. }
  split; cbn [sy_uart sy_writers sy_spun sy_intr]; try done.
  - rewrite A', fmap_app. f_equal. rewrite <- list_fmap_compose. symmetry. apply list_fmap_id.
  - intros j x Hj. destruct (decide (j = k)) as [->|Hne].
    + rewrite list_lookup_insert_eq in Hj by (by eapply lookup_lt_Some). injection Hj as <-. by rewrite Hself.
    + rewrite list_lookup_insert_ne in Hj by done. rewrite Hother by done. by apply W.
  - intros j x Hj Ha. destruct (decide (j = k)) as [->|Hne].
    + rewrite list_lookup_insert_eq in Hj by (by eapply lookup_lt_Some). injection Hj as <-. by destruct c.
    + rewrite list_lookup_insert_ne in Hj by done. pose proof (S j x Hj Ha) as Hbusy. by rewrite S'.
Qed.

Lemma wake_phase w : phase_ok w -> phase_ok (wake w).
Proof. by destruct w as [? ? ? []]. Qed.
Lemma wake_delivered w xs : delivered w xs -> delivered (wake w) xs.
Proof. by destruct w as [? ? ? []]. Qed.
Lemma wake_awake w : ~ asleep (wake w).
Proof. destruct w as [? ? ? []]; compute; auto. Qed.

Lemma tx_inv_step tr y ev y' : tx_inv tr y -> tx_step y ev y' -> tx_inv (tr ++ ev) y'.
Proof.
  intros I St. destruct St as [y k w c u' Hk Hp R|y k w i nn rest c u' Hk Hp R|y h c Hh Hi|y h c Hh|y Hi|y woken u' Hi R|y c fifo Hf].
  - destruct (write_run _ _ _ _ _ _ R) as [Hok Hd]. apply inv_hands; [done | done | unfold asleep; rewrite Hp; tauto | done | by rewrite Hp].
  - destruct (ti_writer _ _ I k w Hk) as [Ho _]. unfold phase_ok in Ho. rewrite Hp in Ho.
    destruct (wake_run _ _ _ _ _ _ _ _ _ Ho R) as [Hok Hd]. apply inv_hands; [done | done | unfold asleep; rewrite Hp; tauto | done | by rewrite Hp].
  - rewrite app_nil_r. destruct I as [A W S B HH Rm]. apply bool_decide_eq_true in Hi. split; try done; simpl.
    + by rewrite length_insert.
    + pose proof (spun_insert _ _ _ (Some c) Hh) as Hs. pose proof (spun_le (<[h := Some c]> (sy_spun y))) as Hle. rewrite length_insert in Hle.
      rewrite Hi. unfold NCPU in *. simpl. destruct (tx_busy (sy_uart y)); lia.
  - pose proof I as [A W S B HH Rm]. pose proof (spun_insert _ _ _ None Hh) as Hs. simpl in Hs.
    assert (u_fifo (write_thr c (sy_uart y)) = u_fifo (sy_uart y) ++ [c]) as Ef by (eapply write_thr_room; [done|lia]).
    assert (forall k, bytes_of k (tr ++ [(Hart h, c)]) = bytes_of k tr) as Eb by (intros k; by rewrite bytes_of_app, app_nil_r).
    split; cbn [sy_uart sy_writers sy_spun sy_intr]; rewrite ?Ef.
    + cbn [write_thr u_wire]. by rewrite app_assoc, A, fmap_app.
    + intros k w. rewrite Eb. apply W.
    + exact S.
    + intros _. left. by destruct (u_fifo (sy_uart y)).
    + by rewrite length_insert.
    + cbn [write_thr tx_busy]. rewrite length_app. cbn [length]. lia.
  - rewrite app_nil_r. destruct I as [A W S B HH Rm]. split; try done; simpl; auto.
  - rewrite app_nil_r. destruct I as [A W S B HH Rm]. unfold uartintr_tx, lsr_tx_idle in R. revert R.
    case_bool_decide as Hf; intros [= <- <-]; split; try done; simpl.
    + intros k w. rewrite list_lookup_fmap. destruct (sy_writers y !! k) as [x|] eqn:Hk; [|done]. intros [= <-].
      destruct (W k x Hk). split; [by apply wake_phase | by apply wake_delivered].
    + intros k w. rewrite list_lookup_fmap. destruct (sy_writers y !! k) as [x|]; [|done]. intros [= <-] Ha. by apply wake_awake in Ha.
    + rewrite Hf. pose proof (spun_le (sy_spun y)). unfold NCPU in *. simpl. lia.
    + auto.
  - rewrite app_nil_r. destruct I as [A W S B HH Rm]. rewrite Hf in *. split; try done; simpl.
    + rewrite <- A. by rewrite <- app_assoc.
    + intros _. destruct fifo; [right; left; by rewrite orb_true_r | by left].
    + simpl in Rm. lia.
Qed.

(** ** Reachable states *)

(** The UART initialised, writers that have not started, no hart printing. *)
Definition tx_initial (ws : list (writer (U := U))) (harts : nat) : sys (U := U) := Sys uart_reset ws (replicate harts None) false.

Inductive tx_reach (y0 : sys (U := U)) : trace -> sys (U := U) -> Prop :=
| reach_start : tx_reach y0 [] y0
| reach_next tr y ev y' : tx_reach y0 tr y -> tx_step y ev y' -> tx_reach y0 (tr ++ ev) y'.

Lemma initial_inv ws harts :
  Forall (fun w => w_phase w = Idle) ws -> (harts <= NCPU)%nat -> tx_inv [] (tx_initial ws harts).
Proof.
  intros Hws Hh. rewrite Forall_lookup in Hws. split; try done; cbn [sy_uart sy_writers sy_spun sy_intr tx_initial].
  - intros k w Hk. unfold phase_ok, delivered. rewrite (Hws k w Hk). done.
  - intros k w Hk. unfold asleep. by rewrite (Hws k w Hk).
  - by rewrite length_replicate.
  - assert (spun (replicate harts None) = 0%nat) as -> by (clear; induction harts as [|m IH]; [done|]; exact IH). simpl. lia.
Qed.

Lemma reach_inv ws harts tr y :
  Forall (fun w => w_phase w = Idle) ws -> (harts <= NCPU)%nat -> tx_reach (tx_initial ws harts) tr y -> tx_inv tr y.
Proof. intros Hws Hh. induction 1 as [|tr y ev y' _ IH St]; [by apply initial_inv | by eapply tx_inv_step]. Qed.

(** C29: console output is complete and in order.  However writers, printing
    harts, the interrupt handler and the UART interleave, the bytes on the wire
    and in the queue are the bytes handed over, in that order: none is lost,
    since the queue never holds more than [NCPU + 1] of its 16 bytes.  What a
    process has handed over are the first bytes of its buffer, and when
    [consolewrite] returns [r] it has handed over exactly [r]: all of the
    buffer, or everything before a chunk it cannot read. *)
Theorem console_output ws harts tr y :
  Forall (fun w => w_phase w = Idle) ws -> (harts <= NCPU)%nat -> tx_reach (tx_initial ws harts) tr y ->
  u_wire (sy_uart y) ++ u_fifo (sy_uart y) = tr.*2
  /\ (length (u_fifo (sy_uart y)) <= NCPU + 1)%nat
  /\ forall k w, sy_writers y !! k = Some w ->
       load_bytes (w_user w) (w_src w) (Z.to_nat (progress (w_phase w))) = Some (bytes_of k tr)
       /\ forall r, w_phase w = Returned r ->
            0 <= r /\ (r = Z.max (w_n w) 0
                       \/ r < w_n w /\ load_bytes (w_user w) (u64 (w_src w + r)) (Z.to_nat (Z.min CHUNK (w_n w - r))) = None).
Proof.
  intros Hws Hh Hr. destruct (reach_inv _ _ _ _ Hws Hh Hr) as [A W S B HH Rm]. split; [done|]. split; [lia|].
  intros k w Hk. destruct (W k w Hk) as [Hok [_ Hd]]. split; [done|]. intros r Hp. unfold phase_ok in Hok. by rewrite Hp in Hok.
Qed.

(** The UART sends its queue. *)
Lemma drain tr y :
  tx_inv tr y ->
  exists y1, rtc (fun a b => tx_step a [] b) y y1 /\ tx_inv tr y1 /\ u_fifo (sy_uart y1) = [] /\ sy_writers y1 = sy_writers y
    /\ tx_busy (sy_uart y1) = tx_busy (sy_uart y) /\ u_wire (sy_uart y1) = u_wire (sy_uart y) ++ u_fifo (sy_uart y).
Proof.
  remember (u_fifo (sy_uart y)) as f eqn:Ef. revert y Ef. induction f as [|c f IH]; intros y Ef I.
  - exists y. split; [apply rtc_refl|]. by rewrite app_nil_r.
  - pose proof (step_send y c f (eq_sym Ef)) as St. pose proof (tx_inv_step _ _ _ _ I St) as I1. rewrite app_nil_r in I1.
    match type of St with tx_step _ _ ?z => destruct (IH z eq_refl I1) as (y1 & R & I' & E1 & E2 & E3 & E4) end.
    exists y1. split; [by eapply rtc_l|]. split; [done|]. split; [done|].
    split; [by rewrite E2|]. split; [by rewrite E3|]. rewrite E4. simpl. by rewrite <- app_assoc.
Qed.

(** C30: no writer sleeps for ever.  While one sleeps the UART has bytes to
    send, or its interrupt is pending or being handled; once the queue is
    empty the interrupt is pending or being handled, and handling it wakes up
    every sleeping writer and finds the UART free, without any step of a
    process. *)
Theorem console_wakes_writers ws harts tr y k w :
  Forall (fun w => w_phase w = Idle) ws -> (harts <= NCPU)%nat -> tx_reach (tx_initial ws harts) tr y ->
  sy_writers y !! k = Some w -> asleep w ->
  (u_fifo (sy_uart y) <> [] \/ u_pend (sy_uart y) = true \/ sy_intr y = true)
  /\ exists y1 y2, rtc (fun a b => tx_step a [] b) y y1 /\ u_fifo (sy_uart y1) = []
       /\ (u_pend (sy_uart y1) = true \/ sy_intr y1 = true)
       /\ rtc (fun a b => tx_step a [] b) y1 y2 /\ tx_busy (sy_uart y2) = false /\ sy_writers y2 = wake <$> sy_writers y
       /\ u_wire (sy_uart y2) = tr.*2.
Proof.
  intros Hws Hh Hr Hk Ha. pose proof (reach_inv _ _ _ _ Hws Hh Hr) as I. pose proof (ti_asleep _ _ I k w Hk Ha) as Hb.
  split; [by apply (ti_busy _ _ I)|]. destruct (drain tr y I) as (y1 & R1 & I1 & E1 & E2 & E3 & E4).
  assert (u_pend (sy_uart y1) = true \/ sy_intr y1 = true) as Hp by (destruct (ti_busy _ _ I1) as [?|?]; congruence || done).
  assert (exists y1', rtc (fun a b => tx_step a [] b) y1 y1' /\ sy_intr y1' = true /\ u_fifo (sy_uart y1') = []
    /\ sy_writers y1' = sy_writers y1 /\ u_wire (sy_uart y1') = u_wire (sy_uart y1)) as (y1' & R1' & Hi & F1 & W1 & V1).
  { destruct (sy_intr y1) eqn:E; [by exists y1; split; [apply rtc_refl|]|].
    eexists. split; [apply rtc_once, step_ack, E|]. done. }
  pose proof (step_intr y1' true (set_busy false (sy_uart y1')) Hi) as St.
  unfold uartintr_tx, lsr_tx_idle in St. rewrite bool_decide_true in St by done. specialize (St eq_refl).
  eexists y1, _. split; [done|]. split; [done|]. split; [done|]. split; [by eapply rtc_r|]. simpl.
  split; [done|]. rewrite W1, E2. split; [done|]. rewrite V1, E4. apply (ti_all _ _ I).
Qed.
End System.

(** ** A run *)

(** Two bytes of one process: it sleeps after the first, the UART sends it, the
    handler wakes the process up, and it writes the second. *)
Module Demo.
Definition mem : flat_mem := FlatMem (fun a => a) (fun _ => true).
Definition w (p : phase) : writer := Writer mem 65 2 p.
Definition y0 : sys := tx_initial [w Idle] 1.
Definition y1 : sys := Sys (Uart true [65] [] false) [w (Asleep 0 2 [66])] [None] false.

Lemma sleeps : tx_reach y0 [(Process 0, 65)] y1.
Proof.
  apply (reach_next y0 [] y0 [(Process 0, 65)] y1); [apply reach_start|].
  assert (emitted (w Idle) (outcome_phase (CwSleep 0 2 [66])) = [65]) as E by (vm_compute; reflexivity).
  assert (consolewrite mem 65 2 uart_reset = (CwSleep 0 2 [66], Uart true [65] [] false)) as R by (vm_compute; reflexivity).
  pose proof (step_write y0 0 (w Idle) (CwSleep 0 2 [66]) (Uart true [65] [] false) eq_refl eq_refl R) as St.
  rewrite E in St. exact St.
Qed.
End Demo.

Lemma console_output_witness :
  u_wire (sy_uart Demo.y1) ++ u_fifo (sy_uart Demo.y1) = [65]
  /\ load_bytes Demo.mem 65 1 = Some [65].
Proof.
  destruct (console_output [Demo.w Idle] 1 [(Process 0, 65)] Demo.y1) as (A & _ & W).
  - repeat constructor.
  - unfold NCPU. lia.
  - exact Demo.sleeps.
  - split; [exact A|]. destruct (W 0%nat (Demo.w (Asleep 0 2 [66])) eq_refl) as [L _]. exact L.
Defined.

Lemma console_wakes_writers_witness :
  exists y2, sy_writers y2 = [Demo.w (Awake 0 2 [66])] /\ u_wire (sy_uart y2) = [65] /\ tx_busy (sy_uart y2) = false.
Proof.
  destruct (console_wakes_writers [Demo.w Idle] 1 [(Process 0, 65)] Demo.y1 0 (Demo.w (Asleep 0 2 [66])))
    as (_ & y1 & y2 & _ & _ & _ & _ & Hb & Hw & Hv).
  - repeat constructor.
  - unfold NCPU. lia.
  - exact Demo.sleeps.
  - reflexivity.
  - exact I.
  - exists y2. split; [exact Hw|]. split; [exact Hv | exact Hb].
Defined.
