(* ===== verification/Proc.v ===== *)
(** Processes (src/kernel/proc.c, src/kernel/proc.h): the process table, the
    life of a process from [fork] to [wait], sleeping and waking, and the
    scheduler's choice.

    A [struct proc *] is an index into the table, [None] for a null pointer;
    [proc_addr i] is its address where the code uses it as a sleep channel.
    Memory is that of the page allocator and the page tables (Kalloc.v, Vm.v);
    the file calls are those of the class [FileEnv].  [p->lock] and
    [wait_lock] make each routine a step of its own between two calls of
    [sched]; a routine that gives up the CPU is the outcome [Sleep], with the
    process table as the scheduler finds it. *)

From S2P Require Import Prelude.
From S2P Require Import KString.
From S2P Require Import Riscv.
From S2P Require Import Kalloc.
From S2P Require Import Vm.
From S2P Require Import Locks.

Definition NOFILE : nat := 16.

Inductive procstate := UNUSED | USED | SLEEPING | RUNNABLE | RUNNING | ZOMBIE.
#[global] Instance procstate_eq_dec : EqDecision procstate.
Proof. solve_decision. Defined.

(** [struct proc]; [p_ra] and [p_sp] are the fields of [context] a new process
    starts from, [p_name] the string in [name]. *)
Record proc := Proc {
  p_state : procstate;
  p_chan : Z;
  p_killed : bool;
  p_xstate : Z;
  p_pid : Z;
  p_parent : option nat;
  p_kstack : Z;
  p_sz : Z;
  p_pagetable : Z;
  p_trapframe : Z;
  p_ra : Z; p_sp : Z;
  p_ofile : list (option nat);
  p_cwd : option nat;
  p_name : list Z }.
#[global] Instance proc_inhabited : Inhabited proc :=
  populate (Proc UNUSED 0 false 0 0 None 0 0 0 0 0 0 (replicate NOFILE None) None []).

Definition set_p_state x p := Proc x (p_chan p) (p_killed p) (p_xstate p) (p_pid p) (p_parent p) (p_kstack p) (p_sz p) (p_pagetable p) (p_trapframe p) (p_ra p) (p_sp p) (p_ofile p) (p_cwd p) (p_name p).
Definition set_p_chan x p := Proc (p_state p) x (p_killed p) (p_xstate p) (p_pid p) (p_parent p) (p_kstack p) (p_sz p) (p_pagetable p) (p_trapframe p) (p_ra p) (p_sp p) (p_ofile p) (p_cwd p) (p_name p).
Definition set_p_killed x p := Proc (p_state p) (p_chan p) x (p_xstate p) (p_pid p) (p_parent p) (p_kstack p) (p_sz p) (p_pagetable p) (p_trapframe p) (p_ra p) (p_sp p) (p_ofile p) (p_cwd p) (p_name p).
Definition set_p_xstate x p := Proc (p_state p) (p_chan p) (p_killed p) x (p_pid p) (p_parent p) (p_kstack p) (p_sz p) (p_pagetable p) (p_trapframe p) (p_ra p) (p_sp p) (p_ofile p) (p_cwd p) (p_name p).
Definition set_p_pid x p := Proc (p_state p) (p_chan p) (p_killed p) (p_xstate p) x (p_parent p) (p_kstack p) (p_sz p) (p_pagetable p) (p_trapframe p) (p_ra p) (p_sp p) (p_ofile p) (p_cwd p) (p_name p).
Definition set_p_parent x p := Proc (p_state p) (p_chan p) (p_killed p) (p_xstate p) (p_pid p) x (p_kstack p) (p_sz p) (p_pagetable p) (p_trapframe p) (p_ra p) (p_sp p) (p_ofile p) (p_cwd p) (p_name p).
Definition set_p_kstack x p := Proc (p_state p) (p_chan p) (p_killed p) (p_xstate p) (p_pid p) (p_parent p) x (p_sz p) (p_pagetable p) (p_trapframe p) (p_ra p) (p_sp p) (p_ofile p) (p_cwd p) (p_name p).
Definition set_p_sz x p := Proc (p_state p) (p_chan p) (p_killed p) (p_xstate p) (p_pid p) (p_parent p) (p_kstack p) x (p_pagetable p) (p_trapframe p) (p_ra p) (p_sp p) (p_ofile p) (p_cwd p) (p_name p).
Definition set_p_pagetable x p := Proc (p_state p) (p_chan p) (p_killed p) (p_xstate p) (p_pid p) (p_parent p) (p_kstack p) (p_sz p) x (p_trapframe p) (p_ra p) (p_sp p) (p_ofile p) (p_cwd p) (p_name p).
Definition set_p_trapframe x p := Proc (p_state p) (p_chan p) (p_killed p) (p_xstate p) (p_pid p) (p_parent p) (p_kstack p) (p_sz p) (p_pagetable p) x (p_ra p) (p_sp p) (p_ofile p) (p_cwd p) (p_name p).
Definition set_p_context ra sp p := Proc (p_state p) (p_chan p) (p_killed p) (p_xstate p) (p_pid p) (p_parent p) (p_kstack p) (p_sz p) (p_pagetable p) (p_trapframe p) ra sp (p_ofile p) (p_cwd p) (p_name p).
Definition set_p_ofile x p := Proc (p_state p) (p_chan p) (p_killed p) (p_xstate p) (p_pid p) (p_parent p) (p_kstack p) (p_sz p) (p_pagetable p) (p_trapframe p) (p_ra p) (p_sp p) x (p_cwd p) (p_name p).
Definition set_p_cwd x p := Proc (p_state p) (p_chan p) (p_killed p) (p_xstate p) (p_pid p) (p_parent p) (p_kstack p) (p_sz p) (p_pagetable p) (p_trapframe p) (p_ra p) (p_sp p) (p_ofile p) x (p_name p).
Definition set_p_name x p := Proc (p_state p) (p_chan p) (p_killed p) (p_xstate p) (p_pid p) (p_parent p) (p_kstack p) (p_sz p) (p_pagetable p) (p_trapframe p) (p_ra p) (p_sp p) (p_ofile p) (p_cwd p) x.

(** The file calls of proc.c: [filedup], [fileclose], [idup], [iput] inside a
    transaction, and [namei("/")]. *)
Class FileEnv (E : Type) := {
  fe_filedup : nat -> M E ();
  fe_fileclose : nat -> M E ();
  fe_idup : nat -> M E ();
  fe_iput : nat -> M E ();
  fe_root : M E (option nat) }.

Record proc_st {E : Type} := ProcSt {
  ps_proc : list proc;
  ps_nextpid : Z;
  ps_init : option nat;
  ps_ka : kalloc_st;
  ps_env : E }.
Arguments proc_st : clear implicits.

(** ** The table alone *)

Section Table.
(** The address of an entry. *)
Context (proc_addr : nat -> Z).

(** [wakeup(chan)] called by process [me]. *)
Definition wakeup (me : option nat) (chan : Z) (ps : list proc) : list proc :=
  imap (fun i p => if bool_decide (Some i <> me) && bool_decide (p_state p = SLEEPING) && (p_chan p =? chan)
                   then set_p_state RUNNABLE p else p) ps.

(** One iteration of the loop of [reparent]. *)
Definition reparent_one (me : option nat) (init : option nat) (p : nat) (ps : list proc) (pp : nat) : list proc :=
  if bool_decide (p_parent (ps !!! pp) = Some p) then
    wakeup me (match init with Some i => proc_addr i | None => 0 end) (alter (set_p_parent init) pp ps)
  else ps.
Definition reparent (me : option nat) (init : option nat) (p : nat) (ps : list proc) : list proc :=
  fold_left (reparent_one me init p) (seq 0 (Z.to_nat NPROC)) ps.

(** [kkill(pid)] from entry [i] on: the index of the victim. *)
Fixpoint find_pid (pid : Z) (ps : list proc) (i : nat) : option nat :=
  match ps with
  | [] => None
  | p :: ps' => if p_pid p =? pid then Some i else find_pid pid ps' (S i)
  end.
Definition kill_proc (p : proc) : proc :=
  let p := set_p_killed true p in
  if bool_decide (p_state p = SLEEPING) then set_p_state RUNNABLE p else p.

(** The scan of [allocproc]. *)
Fixpoint find_unused_proc (ps : list proc) (i : nat) : option nat :=
  match ps with
  | [] => None
  | p :: ps' => if bool_decide (p_state p = UNUSED) then Some i else find_unused_proc ps' (S i)
  end.

(** One pass of the scan of [kwait]: whether there are children, and the first
    that has exited. *)
Fixpoint scan_children (p : nat) (ps : list proc) (i : nat) (havekids : bool) : bool * option nat :=
  match ps with
  | [] => (havekids, None)
  | pp :: ps' =>
      if bool_decide (p_parent pp = Some p) then
        if bool_decide (p_state pp = ZOMBIE) then (true, Some i)
        else scan_children p ps' (S i) true
      else scan_children p ps' (S i) havekids
  end.

(** The scan of [scheduler] from entry [i] on: the next process to run. *)
Fixpoint find_runnable (ps : list proc) (i : nat) : option nat :=
  match ps with
  | [] => None
  | p :: ps' => if bool_decide (p_state p = RUNNABLE) then Some i else find_runnable ps' (S i)
  end.
End Table.

(** [sched] on a hart that holds [p->lock] or not, with the process in state
    [st]; [swtch] is what the other threads do to the hart's [struct cpu]
    before control comes back. *)
Definition sched (held : bool) (st : procstate) (swtch : cpu -> cpu) : M cpu () :=
  if negb held then panic "sched p->lock" else
  let* c := gets (fun c => c) in
  if negb (noff c =? 1) then panic "sched locks" else
  if bool_decide (st = RUNNING) then panic "sched RUNNING" else
  if sie c then panic "sched interruptible" else
  modify swtch ;;;
  modify (fun c' => Cpu (noff c') (intena c) (sie c')).

Section Proc.
(** Linker symbols and the addresses of the entries and of their [xstate]. *)
Context (end_ trampoline forkret : Z) (proc_addr xstate_addr : nat -> Z).
Context {E : Type} `{FileEnv E}.
Abbreviation PM := (M (proc_st E)).

Definition set_ps_proc ps (s : proc_st E) : proc_st E := ProcSt _ ps (ps_nextpid s) (ps_init s) (ps_ka s) (ps_env s).
Definition memM {A} (m : M kalloc_st A) : PM A :=
  zoom ps_ka (fun k s => ProcSt _ (ps_proc s) (ps_nextpid s) (ps_init s) k (ps_env s)) m.
Definition envM {A} (m : M E A) : PM A :=
  zoom ps_env (fun e s => ProcSt _ (ps_proc s) (ps_nextpid s) (ps_init s) (ps_ka s) e) m.
Definition proc_at (i : nat) : PM proc := gets (fun s => ps_proc s !!! i).
Definition set_proc (i : nat) (f : proc -> proc) : PM () := modify (fun s => set_ps_proc (alter f i (ps_proc s)) s).
Definition on_table (f : list proc -> list proc) : PM () := modify (fun s => set_ps_proc (f (ps_proc s)) s).

Definition procinit : PM () :=
  mfor (seq 0 (Z.to_nat NPROC)) (fun i => set_proc i (fun p => set_p_kstack (KSTACK (Z.of_nat i)) (set_p_state UNUSED p))).

Definition allocpid : PM Z :=
  let* pid := gets ps_nextpid in
  modify (fun s => ProcSt _ (ps_proc s) (i32 (pid + 1)) (ps_init s) (ps_ka s) (ps_env s)) ;;;
  mreturn pid.

(** [proc_pagetable] for a process whose trapframe page is [trapframe]. *)
Definition proc_pagetable (trapframe : Z) : M kalloc_st Z :=
  let* pagetable := uvmcreate in
  if pagetable =? 0 then mreturn 0 else
  let* r := mappages pagetable TRAMPOLINE PGSIZE trampoline (Z.lor PTE_R PTE_X) in
  if r <? 0 then uvmfree end_ pagetable 0 ;;; mreturn 0 else
  let* r := mappages pagetable TRAPFRAME PGSIZE trapframe (Z.lor PTE_R PTE_W) in
  if r <? 0 then
    uvmunmap end_ pagetable TRAMPOLINE 1 false ;;;
    uvmfree end_ pagetable 0 ;;;
    mreturn 0
  else mreturn pagetable.

Definition proc_freepagetable (pagetable sz : Z) : M kalloc_st () :=
  uvmunmap end_ pagetable TRAMPOLINE 1 false ;;;
  uvmunmap end_ pagetable TRAPFRAME 1 false ;;;
  uvmfree end_ pagetable sz.

(** The assignments of [freeproc]. *)
Definition blank_proc (p : proc) : proc :=
  Proc UNUSED 0 false 0 0 None (p_kstack p) 0 0 0 (p_ra p) (p_sp p) (p_ofile p) (p_cwd p) [].
Definition freeproc (i : nat) : PM () :=
  let* p := proc_at i in
  (when negb (p_trapframe p =? 0) do memM (kfree end_ (p_trapframe p))) ;;;
  (when negb (p_pagetable p =? 0) do memM (proc_freepagetable (p_pagetable p) (p_sz p))) ;;;
  set_proc i blank_proc.

Definition allocproc : PM (option nat) :=
  let* ps := gets ps_proc in
  match find_unused_proc ps 0 with
  | None => mreturn None
  | Some i =>
      let* pid := allocpid in
      set_proc i (fun p => set_p_state USED (set_p_pid pid p)) ;;;
      let* tf := memM kalloc in
      set_proc i (set_p_trapframe tf) ;;;
      if tf =? 0 then freeproc i ;;; mreturn None else
      let* pagetable := memM (proc_pagetable tf) in
      set_proc i (set_p_pagetable pagetable) ;;;
      if pagetable =? 0 then freeproc i ;;; mreturn None else
      set_proc i (fun p => set_p_context forkret (p_kstack p + PGSIZE) p) ;;;
      mreturn (Some i)
  end.

Definition userinit : PM () :=
  let* p := allocproc in
  modify (fun s => ProcSt _ (ps_proc s) (ps_nextpid s) p (ps_ka s) (ps_env s)) ;;;
  match p with
  | None => panic "null dereference"
  | Some i =>
      let* ip := envM fe_root in
      set_proc i (set_p_cwd ip) ;;;
      set_proc i (set_p_state RUNNABLE)
  end.

Definition growproc (me : nat) (n : Z) : PM Z :=
  let* p := proc_at me in
  let sz := p_sz p in
  if n >? 0 then
    let* sz := memM (uvmalloc end_ (p_pagetable p) sz (u64 (sz + n)) PTE_W) in
    if sz =? 0 then mreturn (-1) else
    set_proc me (set_p_sz sz) ;;; mreturn 0
  else if n <? 0 then
    let* sz := memM (uvmdealloc end_ (p_pagetable p) sz (u64 (sz + n))) in
    set_proc me (set_p_sz sz) ;;; mreturn 0
  else set_proc me (set_p_sz sz) ;;; mreturn 0.

Definition SZ_TRAPFRAME : nat := 288.
Definition OFF_A0 : Z := 112.
(** [*(np->trapframe) = *(p->trapframe); np->trapframe->a0 = 0;] *)
Definition copy_trapframe (dst src : Z) : M kalloc_st () :=
  modify (fun s => set_ka_mem (copy_forward SZ_TRAPFRAME (ka_mem s) dst src) s) ;;;
  modify (fun s => set_ka_mem (store64 (ka_mem s) (dst + OFF_A0) 0) s).

(** The loop of [kfork] over the open files of [p]. *)
Definition dup_files (np : nat) (ofile : list (option nat)) : PM () :=
  mfor (seq 0 NOFILE) (fun i =>
    match ofile !!! i with
    | Some f => envM (fe_filedup f) ;;; set_proc np (fun q => set_p_ofile (<[i := Some f]> (p_ofile q)) q)
    | None => skip
    end).

Definition kfork (me : nat) : PM Z :=
  let* np := allocproc in
  match np with
  | None => mreturn (-1)
  | Some np =>
      let* p := proc_at me in
      let* q := proc_at np in
      let* r := memM (uvmcopy end_ (p_pagetable p) (p_pagetable q) (p_sz p)) in
      if r <? 0 then freeproc np ;;; mreturn (-1) else
      set_proc np (set_p_sz (p_sz p)) ;;;
      memM (copy_trapframe (p_trapframe q) (p_trapframe p)) ;;;
      dup_files np (p_ofile p) ;;;
      (match p_cwd p with
       | Some ip => envM (fe_idup ip) ;;; set_proc np (set_p_cwd (Some ip))
       | None => panic "null dereference"
       end) ;;;
      set_proc np (set_p_name (take 15 (p_name p))) ;;;
      let* q := proc_at np in
      set_proc np (set_p_parent (Some me)) ;;;
      set_proc np (set_p_state RUNNABLE) ;;;
      mreturn (p_pid q)
  end.

(** "Close all open files." *)
Definition close_files (me : nat) : PM () :=
  mfor (seq 0 NOFILE) (fun fd =>
    let* p := proc_at me in
    match p_ofile p !!! fd with
    | Some f => envM (fe_fileclose f) ;;; set_proc me (fun p => set_p_ofile (<[fd := None]> (p_ofile p)) p)
    | None => skip
    end).

(** [kexit] does not return: its outcome is [Sleep], with the zombie in the
    table. *)
Definition kexit (me : nat) (status : Z) : PM () :=
  let* init := gets ps_init in
  if bool_decide (init = Some me) then panic "init exiting" else
  close_files me ;;;
  let* p := proc_at me in
  (match p_cwd p with
   | Some ip => envM (fe_iput ip)
   | None => panic "null dereference"
   end) ;;;
  set_proc me (set_p_cwd None) ;;;
  on_table (reparent proc_addr (Some me) init me) ;;;
  let* p := proc_at me in
  on_table (wakeup (Some me) (match p_parent p with Some q => proc_addr q | None => 0 end)) ;;;
  set_proc me (fun p => set_p_state ZOMBIE (set_p_xstate status p)) ;;;
  sleep.

(** [sleep(chan, lk)] up to the switch, and what it does after it. *)
Definition sleep_on {A} (me : nat) (chan : Z) : PM A :=
  set_proc me (fun p => set_p_state SLEEPING (set_p_chan chan p)) ;;; sleep.
Definition sleep_done (me : nat) : PM () := set_proc me (set_p_chan 0).

(** One round of the loop of [kwait]; a process that was asleep in it comes
    back with [sleep_done] and another round. *)
Definition kwait (me : nat) (addr : Z) : PM Z :=
  let* ps := gets ps_proc in
  let* p := proc_at me in
  match scan_children me ps 0 false with
  | (_, Some i) =>
      let* pp := proc_at i in
      let* ok := (if addr =? 0 then mreturn 0 else
                    memM (modify (fun k => set_ka_mem (store_le 4 (ka_mem k) (xstate_addr i) (p_xstate pp)) k) ;;;
                          copyout end_ (p_sz p) (p_pagetable p) (p_pagetable p) addr (xstate_addr i) 4)) in
      if ok <? 0 then mreturn (-1) else
      freeproc i ;;;
      mreturn (p_pid pp)
  | (havekids, None) =>
      if negb havekids || p_killed p then mreturn (-1)
      else sleep_on me (proc_addr me)
  end.

Definition yield {A} (me : nat) : PM A := set_proc me (set_p_state RUNNABLE) ;;; sleep.

Definition kkill (pid : Z) : PM Z :=
  let* ps := gets ps_proc in
  match find_pid pid ps 0 with
  | Some i => set_proc i kill_proc ;;; mreturn 0
  | None => mreturn (-1)
  end.
Definition setkilled (i : nat) : PM () := set_proc i (set_p_killed true).
Definition killed (i : nat) : PM bool := let* p := proc_at i in mreturn (p_killed p).
End Proc.

(** ** Harts *)

(** The table and the process each hart runs ([cpus[h].proc]). *)
Record sys {E : Type} := Sys { sy_st : proc_st E; sy_cpu : nat -> option nat }.
Arguments sys : clear implicits.
Arguments Sys {E} _ _.

Definition set_hart (h : nat) (i : option nat) (cpu : nat -> option nat) : nat -> option nat :=
  fun g => if decide (g = h) then i else cpu g.

(** An iteration of the loop of [scheduler] that finds a process, from entry
    [from] on: the process is marked running and the hart switches to it. *)
Definition scheduler_pick {E} (h from : nat) (y : sys E) : option (sys E) :=
  let s := sy_st y in
  match sy_cpu y h, find_runnable (drop from (ps_proc s)) from with
  | None, Some i => Some (Sys (set_ps_proc (alter (set_p_state RUNNING) i (ps_proc s)) s) (set_hart h (Some i) (sy_cpu y)))
  | _, _ => None
  end.
