(* ===== verification/ProcProof.v ===== *)
(** The process table: what the routines do to it, and its invariant over
    every interleaving of the harts. *)

From S2P Require Import Prelude.
From S2P Require Import KString.
From S2P Require Import Riscv.
From S2P Require Import Kalloc.
From S2P Require Import Vm.
From S2P Require Import Locks.
From S2P Require Import Proc.

(** ** Steps of runs *)

Lemma run_then {S A B} (m : M S A) (k : A -> M S B) s r s' :
  mthen m k s = Ret r s' -> exists a s1, m s = Ret a s1 /\ k a s1 = Ret r s'.
Proof. unfold mthen. destruct (m s); try done. eauto. Qed.
Lemma run_then_sleep {S A B} (m : M S A) (k : A -> M S B) s s' :
  mthen m k s = Sleep s' -> m s = Sleep s' \/ exists a s1, m s = Ret a s1 /\ k a s1 = Sleep s'.
Proof. unfold mthen. destruct (m s); try done; eauto. intros [= ->]. by left. Qed.

Lemma Ret_inj {S A} (a b : A) (s t : S) : Ret a s = Ret b t -> a = b /\ s = t.
Proof. by intros [= -> ->]. Qed.
Lemma Sleep_inj {S A} (s t : S) : @Sleep S A s = Sleep t -> s = t.
Proof. by intros [= ->]. Qed.

(** Case analysis on the condition of a run. *)
Ltac ite R := match type of R with (if ?b then _ else _) _ = _ => destruct b end.

Section Table.
Context (proc_addr : nat -> Z).

(** ** wakeup, reparent *)

Lemma wakeup_lookup me chan ps i :
  wakeup me chan ps !! i
  = (fun p => if bool_decide (Some i <> me) && bool_decide (p_state p = SLEEPING) && (p_chan p =? chan)
              then set_p_state RUNNABLE p else p) <$> ps !! i.
Proof. unfold wakeup. rewrite list_lookup_imap. by destruct (ps !! i). Qed.

Lemma wakeup_length me chan ps : length (wakeup me chan ps) = length ps.
Proof. apply length_imap. Qed.

(** What a wake-up may do to an entry. *)
Definition woken (p q : proc) : Prop := q = p \/ p_state p = SLEEPING /\ q = set_p_state RUNNABLE p.

Lemma wakeup_woken me chan ps i p : ps !! i = Some p -> exists q, wakeup me chan ps !! i = Some q /\ woken p q.
Proof.
  intros Hp. rewrite wakeup_lookup, Hp. eexists. split; [reflexivity|].
  destruct (bool_decide (Some i <> me)), (bool_decide_reflect (p_state p = SLEEPING)), (p_chan p =? chan); cbn [andb]; unfold woken; auto.
Qed.

(** A process asleep on the channel is runnable after it. *)
Lemma wakeup_wakes me chan ps i p :
  ps !! i = Some p -> Some i <> me -> p_state p = SLEEPING -> p_chan p = chan ->
  wakeup me chan ps !! i = Some (set_p_state RUNNABLE p).
Proof.
  intros Hp Hm Hs Hc. rewrite wakeup_lookup, Hp. simpl. rewrite !bool_decide_true by done. by rewrite Hc, Z.eqb_refl.
Qed.

Definition chan_of (o : option nat) : Z := match o with Some i => proc_addr i | None => 0 end.

(** The entry [pp] after [reparent] has passed index [k]. *)
Definition adopted (init : option nat) (p : nat) (x : proc) : proc :=
  if bool_decide (p_parent x = Some p) then set_p_parent init x else x.

Lemma adopted_chan init p x : p_chan (adopted init p x) = p_chan x.
Proof. unfold adopted. by case_bool_decide. Qed.
Lemma adopted_state init p x : p_state (adopted init p x) = p_state x.
Proof. unfold adopted. by case_bool_decide. Qed.

Lemma woken_parent p q : woken p q -> p_parent q = p_parent p.
Proof. by intros [->|[_ ->]]. Qed.

Lemma reparent_prefix me init p ps k :
  (k <= length ps)%nat -> init <> Some p ->
  let ps' := fold_left (reparent_one proc_addr me init p) (seq 0 k) ps in
  length ps' = length ps
  /\ (forall i x, ps !! i = Some x -> exists y, ps' !! i = Some y
        /\ woken (if decide (i < k)%nat then adopted init p x else x) y)
  /\ ((exists i x, (i < k)%nat /\ ps !! i = Some x /\ p_parent x = Some p) ->
      forall i x, ps !! i = Some x -> Some i <> me -> p_chan x = chan_of init -> exists y, ps' !! i = Some y /\ p_state y <> SLEEPING).
Proof.
  intros Hk Hne ps'. subst ps'. induction k as [|k IH].
  { simpl. split; [done|]. split; [intros i x Hx; exists x; split; [done | by left]|]. intros (i & x & Hi & _). lia. }
  destruct IH as (Hl & Hlk & Hw); [lia|]. rewrite seq_S, fold_left_app. simpl. set (ps1 := fold_left _ _ _) in *.
  destruct (lookup_lt_is_Some_2 ps k) as [x Hx]; [lia|]. destruct (Hlk k x Hx) as (y & Hy & Hyw). rewrite decide_False in Hyw by lia.
  assert (p_parent y = p_parent x) as Hyp by (by apply woken_parent).
  unfold reparent_one. rewrite (list_lookup_total_correct _ _ _ Hy), Hyp. case_bool_decide as Hpar.
  - split; [by rewrite wakeup_length, length_alter|].
    assert (forall i z, ps !! i = Some z -> exists y, alter (set_p_parent init) k ps1 !! i = Some y
      /\ woken (if decide (i < S k)%nat then adopted init p z else z) y) as Halt.
    { intros i z Hz. destruct (Hlk i z Hz) as (yi & Hyi & Hwi). destruct (decide (i = k)) as [->|Hik].
      - simplify_eq. rewrite list_lookup_alter_eq, Hy. simpl. eexists. split; [reflexivity|]. rewrite decide_True by lia.
        unfold adopted. rewrite bool_decide_true by done. rewrite decide_False in Hwi by lia.
        destruct Hwi as [->|[Hs ->]]; [by left | right]. by split.
      - rewrite list_lookup_alter_ne by done. exists yi. split; [done|].
        destruct (decide (i < k)%nat), (decide (i < S k)%nat); try lia; done. }
    split.
    + intros i z Hz. destruct (Halt i z Hz) as (yi & Hyi & Hwi).
      destruct (wakeup_woken me (match init with Some i => proc_addr i | None => 0 end) _ i yi Hyi) as (u & Hu & Hwu).
      exists u. split; [done|]. destruct Hwi as [->|[Hs ->]], Hwu as [->|[Hs' ->]]; unfold woken; auto.
    + intros _ i z Hz Hme Hc. destruct (Halt i z Hz) as (yi & Hyi & Hwi). fold (chan_of init).
      assert (p_chan yi = chan_of init) as Hci.
      { destruct Hwi as [->|[_ ->]]; destruct (decide (i < S k)%nat); simpl; by rewrite ?adopted_chan. }
      rewrite wakeup_lookup, Hyi. simpl. eexists. split; [reflexivity|].
      rewrite (bool_decide_true (Some i <> me)) by done. rewrite Hci, Z.eqb_refl, andb_true_r. cbn [andb].
      by case_bool_decide.
  - split; [done|]. split.
    + intros i z Hz. destruct (Hlk i z Hz) as (yi & Hyi & Hwi). exists yi. split; [done|].
      destruct (decide (i = k)) as [->|Hik].
      * simplify_eq. rewrite decide_True by lia. rewrite decide_False in Hwi by lia. unfold adopted. by rewrite bool_decide_false.
      * destruct (decide (i < k)%nat), (decide (i < S k)%nat); try lia; done.
    + intros (i & z & Hi & Hz & Hpz). apply Hw. exists i, z. split; [|done].
      destruct (decide (i = k)) as [->|]; [simplify_eq | lia].
Qed.
End Table.

(** ** The shared part of the table *)

(** The fields other processes look at. *)
Record core_t := Core { c_state : procstate; c_chan : Z; c_killed : bool; c_pid : Z; c_parent : option nat }.
Definition core (p : proc) : core_t := Core (p_state p) (p_chan p) (p_killed p) (p_pid p) (p_parent p).

Section Runs.
Context (end_ trampoline forkret : Z) (proc_addr xstate_addr : nat -> Z).
Context {E : Type} `{FileEnv E}.
Implicit Types s : proc_st E.

Definition cores s : list core_t := core <$> ps_proc s.

(** Nothing but private fields, memory and files has changed. *)
Definition same_cores s s' : Prop :=
  cores s' = cores s /\ ps_nextpid s' = ps_nextpid s /\ ps_init s' = ps_init s.
Lemma same_cores_refl s : same_cores s s.
Proof. done. Qed.
Lemma same_cores_trans s1 s2 s3 : same_cores s1 s2 -> same_cores s2 s3 -> same_cores s1 s3.
Proof. intros (? & ? & ?) (? & ? & ?). split; [congruence|]. split; congruence. Qed.

Lemma memM_cores {A} (m : M kalloc_st A) s a s' : memM m s = Ret a s' -> same_cores s s' /\ ps_proc s' = ps_proc s.
Proof. unfold memM, zoom. destruct (m (ps_ka s)); try done. by intros [= <- <-]. Qed.
Lemma memM_sleep {A} (m : M kalloc_st A) s s' : memM m s = Sleep s' -> ps_proc s' = ps_proc s.
Proof. unfold memM, zoom. destruct (m (ps_ka s)); try done. by intros [= <-]. Qed.
Lemma envM_cores {A} (m : M E A) s a s' : envM m s = Ret a s' -> same_cores s s' /\ ps_proc s' = ps_proc s.
Proof. unfold envM, zoom. destruct (m (ps_env s)); try done. by intros [= <- <-]. Qed.
Lemma envM_sleep {A} (m : M E A) s s' : envM m s = Sleep s' -> ps_proc s' = ps_proc s.
Proof. unfold envM, zoom. destruct (m (ps_env s)); try done. by intros [= <-]. Qed.

Lemma alter_core (f : proc -> proc) (i : nat) (ps : list proc) x c :
  ps !! i = Some x -> core (f x) = c -> core <$> alter f i ps = <[i := c]> (core <$> ps).
Proof. intros Hx <-. rewrite (alter_insert _ _ _ _ Hx). apply list_fmap_insert. Qed.
Lemma alter_private (f : proc -> proc) (i : nat) (ps : list proc) : (forall p, core (f p) = core p) -> core <$> alter f i ps = core <$> ps.
Proof.
  intros Hf. apply list_eq. intros j. rewrite !list_lookup_fmap. destruct (decide (i = j)) as [<-|].
  - rewrite list_lookup_alter_eq. destruct (ps !! i); simpl; [by rewrite Hf | done].
  - by rewrite list_lookup_alter_ne.
Qed.
Lemma set_private i f s a s' : (forall p, core (f p) = core p) -> set_proc i f s = Ret a s' -> same_cores s s'.
Proof. intros Hf [= _ <-]. split; [|done]. by apply alter_private. Qed.

Lemma freeproc_run i s a s' :
  freeproc end_ i s = Ret a s' ->
  ps_proc s' = alter blank_proc i (ps_proc s) /\ ps_nextpid s' = ps_nextpid s /\ ps_init s' = ps_init s.
Proof.
  unfold freeproc. intros HR. apply run_then in HR as (p & s1 & [= <- <-] & HR).
  apply run_then in HR as (a1 & s2 & R1 & HR). apply run_then in HR as (a2 & s3 & R2 & HR).
  assert (same_cores s s2 /\ ps_proc s2 = ps_proc s) as [(_ & A2 & A3) A1].
  { ite R1; [by eapply memM_cores | by injection R1 as _ <-]. }
  assert (same_cores s2 s3 /\ ps_proc s3 = ps_proc s2) as [(_ & B2 & B3) B1].
  { ite R2; [by eapply memM_cores | by injection R2 as _ <-]. }
  injection HR as _ <-. simpl. rewrite B1, A1. split; [done|]. split; congruence.
Qed.
Lemma freeproc_sleep i s s' : freeproc end_ i s = Sleep s' -> ps_proc s' = ps_proc s.
Proof.
  unfold freeproc. intros HR. apply run_then_sleep in HR as [HR|(p & s1 & [= <- <-] & HR)]; [done|].
  apply run_then_sleep in HR as [HR|(a1 & s2 & R1 & HR)]; [ite HR; [by eapply memM_sleep | done]|].
  assert (ps_proc s2 = ps_proc s) as A1 by (ite R1; [by eapply memM_cores | by injection R1 as _ <-]).
  apply run_then_sleep in HR as [HR|(a2 & s3 & R2 & HR)]; [|done]. rewrite <- A1. ite HR; [by eapply memM_sleep | done].
Qed.

Lemma find_unused_proc_spec ps k i :
  find_unused_proc ps k = Some i -> exists x, (k <= i)%nat /\ ps !! (i - k)%nat = Some x /\ p_state x = UNUSED.
Proof.
  revert k. induction ps as [|p ps IH]; intros k; simpl; [done|]. case_bool_decide as Hs.
  - intros [= <-]. exists p. rewrite Nat.sub_diag. auto.
  - intros Hf. destruct (IH _ Hf) as (x & Hk & Hx & Hu). exists x. split; [lia|]. by replace (i - k)%nat with (S (i - S k)) by lia.
Qed.

(** What [allocproc] and [kfork] do to the table when they fail half way: a
    process number is used up and the entry is blank again. *)
Definition entry_reset s s' : Prop :=
  exists i x, ps_proc s !! i = Some x /\ p_state x = UNUSED /\ cores s' = <[i := core (blank_proc x)]> (cores s)
    /\ ps_nextpid s' = i32 (ps_nextpid s + 1) /\ ps_init s' = ps_init s.

(** The entry [i], unused in [s], is in state [st] with a new number. *)
Definition entry_taken s (i : nat) (st : procstate) (par : option nat) s' : Prop :=
  exists x, ps_proc s !! i = Some x /\ p_state x = UNUSED
    /\ cores s' = <[i := Core st (p_chan x) (p_killed x) (ps_nextpid s) (default (p_parent x) (Some <$> par))]> (cores s)
    /\ ps_nextpid s' = i32 (ps_nextpid s + 1) /\ ps_init s' = ps_init s.

Lemma taken_same s i st par s1 s2 : entry_taken s i st par s1 -> same_cores s1 s2 -> entry_taken s i st par s2.
Proof. intros (x & A1 & A2 & A3 & A4 & A5) (B1 & B2 & B3). exists x. split; [done|]. split; [done|]. split; [congruence|]. split; congruence. Qed.

Lemma taken_freed s i st par s1 a s2 : entry_taken s i st par s1 -> freeproc end_ i s1 = Ret a s2 -> entry_reset s s2.
Proof.
  intros (x & A1 & A2 & A3 & A4 & A5) (B1 & B2 & B3)%freeproc_run. exists i, x. split; [done|]. split; [done|].
  assert (is_Some (cores s1 !! i)) as [c Hc].
  { rewrite A3, list_lookup_insert_eq; [done|]. unfold cores. rewrite length_fmap. by eapply lookup_lt_Some. }
  unfold cores in Hc. rewrite list_lookup_fmap in Hc. apply fmap_Some in Hc as (y & Hy & _).
  split; [|split; congruence]. unfold cores at 1. rewrite B1, (alter_core _ _ _ y (core (blank_proc x)) Hy) by done.
  change (core <$> ps_proc s1) with (cores s1). rewrite A3. apply list_insert_insert_eq.
Qed.

Lemma allocproc_run s r s' :
  allocproc end_ trampoline forkret s = Ret r s' ->
  match r with
  | Some i => entry_taken s i USED None s'
  | None => same_cores s s' \/ entry_reset s s'
  end.
Proof.
  unfold allocproc. intros HR. apply run_then in HR as (ps & s0 & [= <- <-] & HR).
  destruct (find_unused_proc (ps_proc s) 0) as [i|] eqn:Hf; [|injection HR as <- <-; by left].
  destruct (find_unused_proc_spec _ _ _ Hf) as (x & _ & Hx & Hu). rewrite Nat.sub_0_r in Hx.
  apply run_then in HR as (pid & s1 & R1 & HR). injection R1 as <- <-.
  apply run_then in HR as (a2 & s2 & R2 & HR). injection R2 as _ <-. cbn [ps_proc] in HR.
  set (s2 := set_ps_proc _ _) in HR.
  assert (entry_taken s i USED None s2) as H2.
  { exists x. split; [done|]. split; [done|]. split; [|done]. unfold cores, s2. simpl. by apply alter_core with x. }
  apply run_then in HR as (tf & s3 & R3 & HR). apply memM_cores in R3 as [R3 _]. apply (taken_same _ _ _ _ _ _ H2) in R3.
  apply run_then in HR as (a4 & s4 & R4 & HR). apply set_private in R4; [|done]. apply (taken_same _ _ _ _ _ _ R3) in R4.
  destruct (tf =? 0).
  { apply run_then in HR as (a5 & s5 & R5 & HR). injection HR as <- <-. right. exact (taken_freed _ _ _ _ _ _ _ R4 R5). }
  apply run_then in HR as (pt & s5 & R5 & HR). apply memM_cores in R5 as [R5 _]. apply (taken_same _ _ _ _ _ _ R4) in R5.
  apply run_then in HR as (a6 & s6 & R6 & HR). apply set_private in R6; [|done]. apply (taken_same _ _ _ _ _ _ R5) in R6.
  destruct (pt =? 0).
  { apply run_then in HR as (a7 & s7 & R7 & HR). injection HR as <- <-. right. exact (taken_freed _ _ _ _ _ _ _ R6 R7). }
  apply run_then in HR as (a7 & s7 & R7 & HR). apply set_private in R7; [|done]. injection HR as <- <-.
  exact (taken_same _ _ _ _ _ _ R6 R7).
Qed.

(** Loops that touch private fields only. *)
Lemma mfor_private {X} (l : list X) (body : X -> M (proc_st E) ()) s s' :
  (forall x s s', body x s = Ret tt s' -> same_cores s s') -> mfor l body s = Ret tt s' -> same_cores s s'.
Proof.
  intros Hb. revert s. induction l as [|x l IH]; intros s; simpl; [by intros [= <-]|]. intros HR.
  apply run_then in HR as ([] & s1 & R1 & HR). apply same_cores_trans with s1; [by eapply Hb | by apply IH].
Qed.
Lemma mfor_private_sleep {X} (l : list X) (body : X -> M (proc_st E) ()) s s' :
  (forall x s s', body x s = Ret tt s' -> same_cores s s') -> (forall x s s', body x s = Sleep s' -> cores s' = cores s) ->
  mfor l body s = Sleep s' -> cores s' = cores s.
Proof.
  intros Hb Hs. revert s. induction l as [|x l IH]; intros s; simpl; [done|]. intros HR.
  apply run_then_sleep in HR as [HR|([] & s1 & R1 & HR)]; [by eapply Hs|]. rewrite (IH s1 HR). by eapply Hb.
Qed.

Lemma dup_files_cores np l s s' : dup_files np l s = Ret tt s' -> same_cores s s'.
Proof.
  apply mfor_private. intros i s1 s2. destruct (l !!! i) as [f|]; [|by intros [= <-]]. intros HR.
  apply run_then in HR as (a & s3 & [R1 _]%envM_cores & HR). apply set_private in HR; [by eapply same_cores_trans | done].
Qed.

Lemma kfork_run me s r s' :
  kfork end_ trampoline forkret me s = Ret r s' ->
  (r = -1 /\ (same_cores s s' \/ entry_reset s s'))
  \/ (exists i, r = ps_nextpid s /\ entry_taken s i RUNNABLE (Some me) s').
Proof.
  unfold kfork. intros HR. apply run_then in HR as (np & s1 & R1%allocproc_run & HR).
  destruct np as [i|]; [|injection HR as <- <-; by left].
  apply run_then in HR as (p & s1' & [= <- <-] & HR). apply run_then in HR as (q & s1' & [= <- <-] & HR).
  apply run_then in HR as (c & s2 & [R2 _]%memM_cores & HR). apply (taken_same _ _ _ _ _ _ R1) in R2.
  destruct (c <? 0).
  { apply run_then in HR as (a & s3 & R3 & HR). injection HR as <- <-. left. split; [done|]. right. exact (taken_freed _ _ _ _ _ _ _ R2 R3). }
  apply run_then in HR as (a3 & s3 & R3 & HR). apply set_private in R3; [|done].
  apply run_then in HR as (a4 & s4 & [R4 _]%memM_cores & HR).
  apply run_then in HR as ([] & s5 & R5%dup_files_cores & HR).
  apply run_then in HR as (a6 & s6 & R6 & HR).
  assert (same_cores s5 s6) as S6.
  { destruct (p_cwd _) as [ip|]; [|done]. apply run_then in R6 as (a & s7 & [R7 _]%envM_cores & R6).
    apply set_private in R6; [by eapply same_cores_trans | done]. }
  apply run_then in HR as (a7 & s7 & R7 & HR). apply set_private in R7; [|done].
  pose proof (same_cores_trans _ _ _ R3 (same_cores_trans _ _ _ R4 (same_cores_trans _ _ _ R5 (same_cores_trans _ _ _ S6 R7)))) as S7.
  apply (taken_same _ _ _ _ _ _ R2) in S7. destruct S7 as (x & A1 & A2 & A3 & A4 & A5).
  apply run_then in HR as (q & s7' & [= <- <-] & HR). apply run_then in HR as (a8 & s8 & R8 & HR). injection R8 as _ <-.
  apply run_then in HR as (a9 & s9 & R9 & HR). injection R9 as _ <-. injection HR as <- <-. right. exists i.
  assert (i < length (cores s))%nat as Hi by (unfold cores; rewrite length_fmap; by eapply lookup_lt_Some).
  assert (cores s7 !! i = Some (Core USED (p_chan x) (p_killed x) (ps_nextpid s) (p_parent x))) as Hc by (rewrite A3; by apply list_lookup_insert_eq).
  unfold cores in Hc. rewrite list_lookup_fmap in Hc. apply fmap_Some in Hc as (y & Hy & Ey). injection Ey as E1 E2 E3 E4 E5.
  rewrite (list_lookup_total_correct _ _ _ Hy). split; [done|]. exists x. split; [done|]. split; [done|]. split; [|done].
  unfold cores at 1. simpl. rewrite (alter_core _ i _ (set_p_parent (Some me) y) (Core RUNNABLE (p_chan x) (p_killed x) (ps_nextpid s) (Some me))).
  - rewrite (alter_core _ i _ y (Core USED (p_chan x) (p_killed x) (ps_nextpid s) (Some me)) Hy) by (unfold core; simpl; congruence).
    rewrite list_insert_insert_eq. change (core <$> ps_proc s7) with (cores s7). rewrite A3. apply list_insert_insert_eq.
  - by rewrite list_lookup_alter_eq, Hy.
  - unfold core. simpl. congruence.
Qed.

(** [kwait]: the child reaped, or the sleep. *)
Lemma scan_children_spec p ps k hk :
  match scan_children p ps k hk with
  | (b, Some i) => exists x, (k <= i)%nat /\ ps !! (i - k)%nat = Some x /\ p_parent x = Some p /\ p_state x = ZOMBIE
      /\ b = true /\ forall j y, (j < i - k)%nat -> ps !! j = Some y -> p_parent y = Some p -> p_state y <> ZOMBIE
  | (b, None) => (forall j y, ps !! j = Some y -> p_parent y = Some p -> p_state y <> ZOMBIE)
      /\ (b = true <-> hk = true \/ exists j y, ps !! j = Some y /\ p_parent y = Some p)
  end.
Proof.
  revert k hk. induction ps as [|x ps IH]; intros k hk; cbn [scan_children].
  { split; [done|]. split; [by left | by intros [?|(? & ? & ? & _)]]. }
  assert (forall hk', match scan_children p ps (S k) hk' with
    | (b, Some i) => exists x, (S k <= i)%nat /\ ps !! (i - S k)%nat = Some x /\ p_parent x = Some p /\ p_state x = ZOMBIE
        /\ b = true /\ forall j y, (j < i - S k)%nat -> ps !! j = Some y -> p_parent y = Some p -> p_state y <> ZOMBIE
    | (b, None) => (forall j y, ps !! j = Some y -> p_parent y = Some p -> p_state y <> ZOMBIE)
        /\ (b = true <-> hk' = true \/ exists j y, ps !! j = Some y /\ p_parent y = Some p)
    end) as IH' by (intros hk'; apply IH). clear IH.
  case_bool_decide as Hp; [case_bool_decide as Hz|].
  { exists x. rewrite Nat.sub_diag. split; [lia|]. repeat (split; [done|]). lia. }
  all: match goal with |- context [scan_children ?p' ?ps' (S ?k') ?h] => specialize (IH' h); destruct (scan_children p' ps' (S k') h) as [b [i|]] end;
    first [destruct IH' as (y & Hk & Hy & Hpar & Hst & Hb & Hfst); exists y; split; [lia|];
      replace (i - k)%nat with (S (i - S k)) by lia; split; [done|]; split; [done|]; split; [done|]; split; [done|];
      intros [|j] z Hj Hz'; simpl in Hz'; [congruence | apply (Hfst j); [lia | done]]
    | destruct IH' as [Hno Hb]; split; [intros [|j] z Hz'; simpl in Hz'; [congruence | by apply (Hno j)]|]; rewrite Hb].
  - split; [intros _; right; by exists 0%nat, x | by left].
  - split; [intros [?|(j & y & ? & ?)]; [by left | right; by exists (S j), y]|].
    intros [?|([|j] & y & Hy & Hpy)]; [by left | simpl in Hy; congruence | right; by exists j, y].
Qed.

Lemma kwait_run me addr s r s' :
  kwait end_ proc_addr xstate_addr me addr s = Ret r s' ->
  same_cores s s' /\ r = -1
  \/ exists i x, ps_proc s !! i = Some x /\ p_parent x = Some me /\ p_state x = ZOMBIE /\ r = p_pid x
       /\ cores s' = <[i := core (blank_proc x)]> (cores s) /\ ps_nextpid s' = ps_nextpid s /\ ps_init s' = ps_init s.
Proof.
  unfold kwait. intros HR. apply run_then in HR as (ps & s0 & [= <- <-] & HR). apply run_then in HR as (p & s0 & [= <- <-] & HR).
  pose proof (scan_children_spec me (ps_proc s) 0 false) as Hsc. destruct (scan_children me (ps_proc s) 0 false) as [b [i|]].
  2:{ ite HR; [injection HR as <- <-; by left | done]. }
  destruct Hsc as (x & _ & Hx & Hpar & Hz & _). rewrite Nat.sub_0_r in Hx.
  apply run_then in HR as (pp & s0 & [= <- <-] & HR). apply run_then in HR as (ok & s1 & R1 & HR).
  assert (same_cores s s1 /\ ps_proc s1 = ps_proc s) as [S1 P1] by (ite R1; [by injection R1 as _ <- | by eapply memM_cores]).
  ite HR; [injection HR as <- <-; by left|]. apply run_then in HR as (a & s2 & (F1 & F2 & F3)%freeproc_run & HR). injection HR as <- <-.
  right. exists i, x. rewrite (list_lookup_total_correct _ _ _ Hx). repeat (split; [done|]). destruct S1 as (C1 & C2 & C3).
  split; [|split; congruence]. unfold cores. rewrite F1, P1. by apply alter_core with x.
Qed.

Lemma kwait_sleeps me addr s s' :
  kwait end_ proc_addr xstate_addr me addr s = Sleep s' -> p_state (ps_proc s !!! me) <> SLEEPING -> p_state (ps_proc s' !!! me) = SLEEPING ->
  s' = set_ps_proc (alter (fun p => set_p_state SLEEPING (set_p_chan (proc_addr me) p)) me (ps_proc s)) s
  /\ (forall j y, ps_proc s !! j = Some y -> p_parent y = Some me -> p_state y <> ZOMBIE)
  /\ exists j y, ps_proc s !! j = Some y /\ p_parent y = Some me.
Proof.
  unfold kwait. intros HR Hns Hs. apply run_then_sleep in HR as [HR|(ps & s0 & [= <- <-] & HR)]; [done|].
  apply run_then_sleep in HR as [HR|(p & s0 & [= <- <-] & HR)]; [done|].
  pose proof (scan_children_spec me (ps_proc s) 0 false) as Hsc. destruct (scan_children me (ps_proc s) 0 false) as [b [i|]].
  - exfalso. apply Hns. rewrite <- Hs. f_equal. f_equal. symmetry.
    apply run_then_sleep in HR as [HR|(pp & s0 & [= <- <-] & HR)]; [done|].
    apply run_then_sleep in HR as [HR|(ok & s1 & R1 & HR)]; [ite HR; [done | by eapply memM_sleep]|].
    assert (ps_proc s1 = ps_proc s) as P1 by (ite R1; [by injection R1 as _ <- | by eapply memM_cores]).
    ite HR; [done|]. apply run_then_sleep in HR as [HR|(a & s2 & _ & HR)]; [|done]. by rewrite (freeproc_sleep _ _ _ HR).
  - destruct Hsc as [Hno Hb]. destruct (negb b || _) eqn:Ek; [done|]. apply orb_false_iff in Ek as [Eb _]. apply negb_false_iff in Eb.
    cbn in HR. injection HR as <-. split; [done|]. split; [done|]. apply Hb in Eb as [?|?]; done.
Qed.

#[local] Opaque reparent.

(** [kexit] up to the switch away from the zombie. *)
Lemma kexit_run me status s s' :
  kexit proc_addr me status s = Sleep s' -> p_state (ps_proc s !!! me) <> ZOMBIE -> p_state (ps_proc s' !!! me) = ZOMBIE ->
  exists sA sB s1, close_files me s = Ret tt sA
    /\ (exists ip u, p_cwd (ps_proc sA !!! me) = Some ip /\ envM (fe_iput ip) sA = Ret u sB)
    /\ s1 = set_ps_proc (alter (set_p_cwd None) me (ps_proc sB)) sB
    /\ same_cores s s1 /\ ps_init s <> Some me
    /\ let ps2 := reparent proc_addr (Some me) (ps_init s) me (ps_proc s1) in
       s' = set_ps_proc (alter (fun p => set_p_state ZOMBIE (set_p_xstate status p)) me
              (wakeup (Some me) (chan_of proc_addr (p_parent (ps2 !!! me))) ps2)) s1.
Proof.
  intros HR Hn Hz. unfold kexit in HR. apply run_then_sleep in HR as [HR|(init & s0 & [= <- <-] & HR)]; [done|].
  case_bool_decide as Hi; [done|].
  assert (forall x s1, cores s1 = cores s -> ps_proc s1 !!! me = x -> p_state x <> ZOMBIE) as Hkeep.
  { intros x s1 Hc Hx HZ. apply Hn. assert (core <$> ps_proc s1 !! me = core <$> ps_proc s !! me) as E1.
    { rewrite <- !list_lookup_fmap. by unfold cores in Hc; rewrite Hc. }
    rewrite list_lookup_total_alt in Hx |- *. destruct (ps_proc s1 !! me), (ps_proc s !! me); try done; simpl in *; [|by subst].
    injection E1 as E1 _ _ _ _. congruence. }
  assert (forall s1, cores s1 = cores s -> s' <> s1) as Hne by (intros s1 Hc ->; by eapply Hkeep).
  apply run_then_sleep in HR as [HR|([] & s1 & R1 & HR)].
  { exfalso. eapply Hne; [|reflexivity]. eapply mfor_private_sleep; [| |exact HR].
    - intros fd s1 s2 R. apply run_then in R as (p & s3 & [= <- <-] & R). destruct (p_ofile _ !!! fd) as [f|]; [|by injection R as <-].
      apply run_then in R as (a & s3 & [R3 _]%envM_cores & R). apply set_private in R; [by eapply same_cores_trans | done].
    - intros fd s1 s2 R. apply run_then_sleep in R as [R|(p & s3 & [= <- <-] & R)]; [done|].
      destruct (p_ofile _ !!! fd) as [f|]; [|done]. apply run_then_sleep in R as [R|(a & s3 & _ & R)]; [|done].
      unfold cores. by rewrite (envM_sleep _ _ _ R). }
  assert (same_cores s s1) as S1.
  { eapply mfor_private; [|exact R1]. intros fd s2 s3 R. apply run_then in R as (p & s4 & [= <- <-] & R).
    destruct (p_ofile _ !!! fd) as [f|]; [|by injection R as <-].
    apply run_then in R as (a & s4 & [R3 _]%envM_cores & R). apply set_private in R; [by eapply same_cores_trans | done]. }
  apply run_then_sleep in HR as [HR|(p & s1' & [= <- <-] & HR)]; [done|].
  apply run_then_sleep in HR as [HR|(a & s2 & R2 & HR)].
  { exfalso. destruct (p_cwd _); [|done]. eapply Hne; [|reflexivity]. unfold cores. rewrite (envM_sleep _ _ _ HR). apply S1. }
  destruct (p_cwd _) as [ip|] eqn:Hcwd; [|done]. pose proof (envM_cores _ _ _ _ R2) as [S2 _].
  apply run_then_sleep in HR as [HR|(a3 & s3 & R3 & HR)]; [done|]. pose proof (set_private me (set_p_cwd None) _ _ _ (fun p => eq_refl) R3) as S3.
  exists s1, s2, s3. split; [exact R1|]. split; [by exists ip, a|]. apply Ret_inj in R3 as [_ R3]. split; [by rewrite <- R3|]. split; [exact (same_cores_trans _ _ _ S1 (same_cores_trans _ _ _ S2 S3))|]. split; [done|].
  apply run_then_sleep in HR as [HR|(a4 & s4 & R4 & HR)]; [discriminate HR|]. apply Ret_inj in R4 as [_ <-].
  apply run_then_sleep in HR as [HR|(q & s4 & R4 & HR)]; [discriminate HR|]. apply Ret_inj in R4 as [<- <-].
  apply run_then_sleep in HR as [HR|(a5 & s5 & R5 & HR)]; [discriminate HR|]. apply Ret_inj in R5 as [_ <-].
  apply run_then_sleep in HR as [HR|(a6 & s6 & R6 & HR)]; [discriminate HR|]. apply Ret_inj in R6 as [_ <-].
  apply Sleep_inj in HR as <-. reflexivity.
Qed.
End Runs.
