(* ===== verification/ProcInv.v ===== *)
(** The invariant of the process table under every interleaving of harts. *)

From S2P Require Import Prelude.
From S2P Require Import KString.
From S2P Require Import Riscv.
From S2P Require Import Kalloc.
From S2P Require Import Vm.
From S2P Require Import Locks.
From S2P Require Import Proc.
From S2P Require Import ProcProof.

Definition alive (c : core_t) : Prop := c_state c <> UNUSED /\ c_state c <> ZOMBIE.
Definition blank_core : core_t := Core UNUSED 0 false 0 None.

Section Inv.
(** The addresses of the entries, as sleep channels. *)
Context (proc_addr : nat -> Z).

Record pinv (cs : list core_t) (next : Z) (init : option nat) (cpu : nat -> option nat) : Prop := {
  iv_len : length cs = Z.to_nat NPROC;
  iv_next : 0 < next < 2 ^ 31;
  iv_init : exists k c, init = Some k /\ cs !! k = Some c /\ alive c;
  iv_run h i : cpu h = Some i -> exists c, cs !! i = Some c /\ c_state c = RUNNING;
  iv_hart i c : cs !! i = Some c -> c_state c = RUNNING -> exists h, cpu h = Some i;
  iv_one h g i : cpu h = Some i -> cpu g = Some i -> h = g;
  iv_blank i c : cs !! i = Some c -> c_state c = UNUSED -> c = blank_core;
  iv_pid i c : cs !! i = Some c -> c_state c <> UNUSED -> 0 < c_pid c < next;
  iv_uniq i j c d : cs !! i = Some c -> cs !! j = Some d -> c_state c <> UNUSED -> c_pid c = c_pid d -> i = j;
  iv_parent i c j : cs !! i = Some c -> c_parent c = Some j -> exists d, cs !! j = Some d /\ alive d;
  iv_orphan i c : cs !! i = Some c -> c_state c <> UNUSED -> init <> Some i -> c_parent c <> None;
  iv_wait i c j d : cs !! i = Some c -> c_state c = SLEEPING -> c_chan c = proc_addr i ->
    cs !! j = Some d -> c_parent d = Some i -> c_state d <> ZOMBIE;
  iv_kids i c : cs !! i = Some c -> c_state c = SLEEPING -> c_chan c = proc_addr i -> exists j d, cs !! j = Some d /\ c_parent d = Some i }.

Lemma live_lookup (cs : list core_t) i c' j d : <[i := c']> cs !! j = Some d -> j = i /\ d = c' \/ j <> i /\ cs !! j = Some d.
Proof. rewrite list_lookup_insert_Some. intros [(-> & <- & _)|[? ?]]; [by left | right; by split]. Qed.

(** An entry that stays alive and keeps its number and its parent. *)
Section Live.
Context (cs : list core_t) (next : Z) (init : option nat) (cpu cpu' : nat -> option nat) (i : nat) (c c' : core_t).
Context (I : pinv cs next init cpu) (Hc : cs !! i = Some c) (Ha : alive c) (Ha' : alive c').
Context (Hpid : c_pid c' = c_pid c) (Hpar : c_parent c' = c_parent c).
Context (Hw : c_state c' = SLEEPING -> c_chan c' = proc_addr i -> forall j d, cs !! j = Some d -> c_parent d = Some i -> c_state d <> ZOMBIE).
Context (Hkid : c_state c' = SLEEPING -> c_chan c' = proc_addr i -> exists j d, cs !! j = Some d /\ c_parent d = Some i).
Context (Hoth : forall h j, j <> i -> cpu' h = Some j <-> cpu h = Some j).
Context (Hrun : forall h, cpu' h = Some i -> c_state c' = RUNNING) (Hhart : c_state c' = RUNNING -> exists h, cpu' h = Some i).
Context (Hone : forall h g, cpu' h = Some i -> cpu' g = Some i -> h = g).

Lemma live_eq : <[i := c']> cs !! i = Some c'.
Proof. apply list_lookup_insert_eq. by eapply lookup_lt_Some. Qed.
(** Entries that were alive are. *)
Lemma live_alive j d : cs !! j = Some d -> alive d -> exists e, <[i := c']> cs !! j = Some e /\ alive e.
Proof.
  intros Hd Had. destruct (decide (i = j)) as [<-|]; [exists c'; by rewrite live_eq|]. exists d. by rewrite list_lookup_insert_ne.
Qed.
(** The unchanged part of an entry. *)
Lemma live_old j d : <[i := c']> cs !! j = Some d ->
  exists e, cs !! j = Some e /\ c_pid d = c_pid e /\ c_parent d = c_parent e
    /\ (c_state d = UNUSED <-> c_state e = UNUSED) /\ (c_state d = ZOMBIE <-> c_state e = ZOMBIE) /\ (j <> i -> d = e).
Proof.
  intros [[-> ->]|[Hj Hd]]%live_lookup; [exists c | exists d; by split_and!]. destruct Ha, Ha'. split_and!; done.
Qed.

Lemma pinv_live : pinv (<[i := c']> cs) next init cpu'.
Proof.
  destruct I as [L1 L2 L3 L4 L5 L6 L7 L8 L9 L10 L11 L12 L13]. split.
  - by rewrite length_insert.
  - done.
  - destruct L3 as (k & d & Hk & Hd & Had). destruct (live_alive k d Hd Had) as (e & He & Hae). by exists k, e.
  - intros h j Hj. destruct (decide (j = i)) as [->|Hne]; [exists c'; split; [apply live_eq | by eapply Hrun]|].
    apply Hoth in Hj; [|done]. destruct (L4 h j Hj) as (d & Hd & Hs). exists d. by rewrite list_lookup_insert_ne.
  - intros j d [[-> ->]|[Hne Hd]]%live_lookup Hs; [by apply Hhart|]. destruct (L5 j d Hd Hs) as [h Hh]. exists h. by apply Hoth.
  - intros h g j Hj Hg. destruct (decide (j = i)) as [->|Hne]; [by eapply Hone|]. apply Hoth in Hj, Hg; [by eapply L6 | done | done].
  - intros j d [[-> ->]|[Hne Hd]]%live_lookup Hs; [by destruct Ha' | by eapply L7].
  - intros j d Hd Hs. destruct (live_old j d Hd) as (e & He & E1 & E2 & E3 & _). rewrite E1. apply (L8 j e He). by rewrite <- E3.
  - intros j k d e Hd He Hs Hp. destruct (live_old j d Hd) as (d0 & Hd0 & D1 & _ & D3 & _). destruct (live_old k e He) as (e0 & He0 & E1 & _).
    apply (L9 j k d0 e0); [done | done | by rewrite <- D3 | congruence].
  - intros j d k Hd Hk. destruct (live_old j d Hd) as (e & He & _ & E2 & _). rewrite E2 in Hk. destruct (L10 j e k He Hk) as (f & Hf & Haf). by eapply live_alive.
  - intros j d Hd Hs Hi. destruct (live_old j d Hd) as (e & He & _ & -> & E3 & _). apply (L11 j e He); [by rewrite <- E3 | done].
  - intros j d k e Hd Hs Hch He Hp. destruct (live_old k e He) as (e0 & He0 & _ & E2 & _ & E4 & _). rewrite E2 in Hp.
    rewrite E4. apply live_lookup in Hd as [[-> ->]|[Hne Hd]]; [by eapply Hw | by eapply (L12 j d k e0)].
  - intros j d Hd Hs Hch. assert (exists k e, cs !! k = Some e /\ c_parent e = Some j) as (k & e & He & Hp).
    { apply live_lookup in Hd as [[-> ->]|[Hne Hd]]; [by apply Hkid | by eapply L13]. }
    destruct (decide (k = i)) as [->|Hki]; [exists i, c'; simplify_eq; by rewrite live_eq, Hpar|]. exists k, e. by rewrite list_lookup_insert_ne.
Qed.
End Live.

(** ** Wake-ups *)

(** An entry made runnable if it was asleep, marked killed, or left alone. *)
Definition cwoken (c d : core_t) : Prop :=
  d = c \/ c_state c <> UNUSED /\ c_pid d = c_pid c /\ c_parent d = c_parent c /\ c_chan d = c_chan c
    /\ (c_state d = c_state c \/ c_state c = SLEEPING /\ c_state d = RUNNABLE).

Lemma cwoken_facts c d : cwoken c d ->
  c_pid d = c_pid c /\ c_parent d = c_parent c /\ c_chan d = c_chan c
  /\ (c_state d = UNUSED <-> c_state c = UNUSED) /\ (c_state d = ZOMBIE <-> c_state c = ZOMBIE)
  /\ (c_state d = RUNNING <-> c_state c = RUNNING) /\ (c_state d = SLEEPING -> c_state c = SLEEPING).
Proof. intros [->|(Hu & -> & -> & -> & Hs)]; [done|]. destruct Hs as [->|[-> ->]]; by split_and!. Qed.

Lemma cwoken_alive c d : cwoken c d -> alive c -> alive d.
Proof. intros (_ & _ & _ & E1 & E2 & _)%cwoken_facts [? ?]. split; tauto. Qed.

Lemma pinv_woken cs cs' next init cpu : Forall2 cwoken cs cs' -> pinv cs next init cpu -> pinv cs' next init cpu.
Proof.
  intros Hf [L1 L2 L3 L4 L5 L6 L7 L8 L9 L10 L11 L12 L13].
  assert (forall j d, cs' !! j = Some d -> exists c, cs !! j = Some c /\ cwoken c d) as Hb.
  { intros j d Hd. eapply Forall2_lookup_r in Hd as (c & ? & ?); [|exact Hf]. eauto. }
  assert (forall j c, cs !! j = Some c -> exists d, cs' !! j = Some d /\ cwoken c d) as Hfw.
  { intros j c Hc. eapply Forall2_lookup_l in Hc as (d & ? & ?); [|exact Hf]. eauto. }
  split.
  - by rewrite <- (Forall2_length _ _ _ Hf).
  - done.
  - destruct L3 as (k & c & Hk & Hc & Hac). destruct (Hfw k c Hc) as (d & Hd & Hw). exists k, d. split; [done|]. split; [done | by eapply cwoken_alive].
  - intros h i Hi. destruct (L4 h i Hi) as (c & Hc & Hs). destruct (Hfw i c Hc) as (d & Hd & Hw). exists d. split; [done|]. by apply (cwoken_facts _ _ Hw).
  - intros i d Hd Hs. destruct (Hb i d Hd) as (c & Hc & Hw). apply (L5 i c Hc). by apply (cwoken_facts _ _ Hw).
  - done.
  - intros i d Hd Hs. destruct (Hb i d Hd) as (c & Hc & Hw). assert (c_state c = UNUSED) as Hu by (by apply (cwoken_facts _ _ Hw)).
    destruct Hw as [->|[? _]]; [by eapply L7 | congruence].
  - intros i d Hd Hs. destruct (Hb i d Hd) as (c & Hc & Hw). destruct (cwoken_facts _ _ Hw) as (-> & _ & _ & E & _). apply (L8 i c Hc). tauto.
  - intros i j d e Hd He Hs Hp. destruct (Hb i d Hd) as (c & Hc & Hw). destruct (Hb j e He) as (c' & Hc' & Hw').
    destruct (cwoken_facts _ _ Hw) as (E1 & _ & _ & E & _). destruct (cwoken_facts _ _ Hw') as (E1' & _). apply (L9 i j c c'); [done | done | tauto | congruence].
  - intros i d j Hd Hj. destruct (Hb i d Hd) as (c & Hc & Hw). destruct (cwoken_facts _ _ Hw) as (_ & E & _). rewrite E in Hj.
    destruct (L10 i c j Hc Hj) as (e & He & Hae). destruct (Hfw j e He) as (e' & He' & Hw'). exists e'. split; [done | by eapply cwoken_alive].
  - intros i d Hd Hs Hi. destruct (Hb i d Hd) as (c & Hc & Hw). destruct (cwoken_facts _ _ Hw) as (_ & -> & _ & E & _). apply (L11 i c Hc); tauto.
  - intros i d j e Hd Hs Hch He Hp. destruct (Hb i d Hd) as (c & Hc & Hw). destruct (Hb j e He) as (c' & Hc' & Hw').
    destruct (cwoken_facts _ _ Hw) as (_ & _ & E1 & _ & _ & _ & E2). destruct (cwoken_facts _ _ Hw') as (_ & E3 & _ & _ & E4 & _).
    rewrite E4. apply (L12 i c j c'); [done | by apply E2 | congruence | done | congruence].
  - intros i d Hd Hs Hch. destruct (Hb i d Hd) as (c & Hc & Hw). destruct (cwoken_facts _ _ Hw) as (_ & _ & E1 & _ & _ & _ & E2).
    destruct (L13 i c Hc) as (j & e & He & Hp); [by apply E2 | congruence|]. destruct (Hfw j e He) as (e' & He' & Hw').
    exists j, e'. split; [done|]. by destruct (cwoken_facts _ _ Hw') as (_ & -> & _).
Qed.

Lemma wakeup_cwoken me chan ps : Forall2 cwoken (core <$> ps) (core <$> wakeup me chan ps).
Proof.
  apply Forall2_fmap. apply Forall2_same_length_lookup_2; [by rewrite wakeup_length|].
  intros i p q Hp Hq. destruct (wakeup_woken me chan ps i p Hp) as (q' & Hq' & Hw). simplify_eq.
  destruct Hw as [->|[Hs ->]]; [by left | right; unfold core; simpl; rewrite Hs; split_and!; auto].
Qed.

(** ** Creation and removal *)

Lemma pinv_next cs next next' init cpu : next <= next' < 2 ^ 31 -> pinv cs next init cpu -> pinv cs next' init cpu.
Proof.
  intros Hn [L1 L2 L3 L4 L5 L6 L7 L8 L9 L10 L11 L12 L13]. split; try done; [lia|]. intros i c Hc Hs. pose proof (L8 i c Hc Hs). lia.
Qed.

(** A new child of the live process [me] in the unused entry [i]. *)
Lemma pinv_fork cs next init cpu i me c :
  pinv cs next init cpu -> cs !! i = Some c -> c_state c = UNUSED -> (exists d, cs !! me = Some d /\ alive d) -> next + 1 < 2 ^ 31 ->
  pinv (<[i := Core RUNNABLE 0 false next (Some me)]> cs) (next + 1) init cpu.
Proof.
  intros [L1 L2 L3 L4 L5 L6 L7 L8 L9 L10 L11 L12 L13] Hc Hu (m & Hm & Ham) Hn. set (c' := Core _ _ _ _ _).
  pose proof (lookup_lt_Some _ _ _ Hc) as Hi. pose proof (L7 i c Hc Hu) as ->.
  assert (forall j d, cs !! j = Some d -> alive d -> <[i := c']> cs !! j = Some d) as Hal.
  { intros j d Hd [Hd1 _]. rewrite list_lookup_insert_ne; [done|]. intros <-. congruence. }
  assert (forall j d, <[i := c']> cs !! j = Some d -> j = i /\ d = c' \/ j <> i /\ cs !! j = Some d) as Hlk by apply live_lookup.
  split.
  - by rewrite length_insert.
  - lia.
  - destruct L3 as (k & d & Hk & Hd & Had). exists k, d. eauto.
  - intros h j Hj. destruct (L4 h j Hj) as (d & Hd & Hs). exists d. split; [|done]. apply Hal; [done|]. split; congruence.
  - intros j d [[-> ->]|[_ Hd]]%Hlk Hs; [done | by eapply L5].
  - done.
  - intros j d [[-> ->]|[_ Hd]]%Hlk Hs; [done | by eapply L7].
  - intros j d [[-> ->]|[_ Hd]]%Hlk Hs; [simpl; lia|]. pose proof (L8 j d Hd Hs). lia.
  - intros j k d e [[-> ->]|[Hj Hd]]%Hlk [[-> ->]|[Hk He]]%Hlk Hs Hp; [done | | | by apply (L9 j k d e)].
    + simpl in Hp. destruct (decide (c_state e = UNUSED)) as [Eu|Eu]; [rewrite (L7 k e He Eu) in Hp; simpl in Hp; lia|].
      pose proof (L8 k e He Eu). lia.
    + simpl in Hp. pose proof (L8 j d Hd Hs). lia.
  - intros j d k [[-> ->]|[Hj Hd]]%Hlk Hk; [injection Hk as <-; exists m; auto|].
    destruct (L10 j d k Hd Hk) as (e & He & Hae). exists e. auto.
  - intros j d [[-> ->]|[Hj Hd]]%Hlk Hs Hin; [done | by eapply L11].
  - intros j d k e [[-> ->]|[Hj Hd]]%Hlk Hs Hch [[-> ->]|[Hk He]]%Hlk Hp; [done | done | done | by apply (L12 j d k e)].
  - intros j d [[-> ->]|[Hj Hd]]%Hlk Hs Hch; [done|]. destruct (L13 j d Hd Hs Hch) as (k & e & He & Hp).
    exists k, e. rewrite list_lookup_insert_ne; [done|]. intros <-. simplify_eq.
Qed.

(** A zombie entry made blank. *)
Lemma pinv_reap cs next init cpu i c :
  pinv cs next init cpu -> cs !! i = Some c -> c_state c = ZOMBIE ->
  (forall k d, c_parent c = Some k -> cs !! k = Some d -> c_state d <> SLEEPING) -> pinv (<[i := blank_core]> cs) next init cpu.
Proof.
  intros [L1 L2 L3 L4 L5 L6 L7 L8 L9 L10 L11 L12 L13] Hc Hz Hpar.
  assert (forall j d, cs !! j = Some d -> alive d -> <[i := blank_core]> cs !! j = Some d) as Hal.
  { intros j d Hd [_ Hd1]. rewrite list_lookup_insert_ne; [done|]. intros <-. congruence. }
  assert (forall j d, <[i := blank_core]> cs !! j = Some d -> j = i /\ d = blank_core \/ j <> i /\ cs !! j = Some d) as Hlk by apply live_lookup.
  split.
  - by rewrite length_insert.
  - done.
  - destruct L3 as (k & d & Hk & Hd & Had). exists k, d. eauto.
  - intros h j Hj. destruct (L4 h j Hj) as (d & Hd & Hs). exists d. split; [|done]. apply Hal; [done|]. split; congruence.
  - intros j d [[-> ->]|[_ Hd]]%Hlk Hs; [done | by eapply L5].
  - done.
  - intros j d [[-> ->]|[_ Hd]]%Hlk Hs; [done | by eapply L7].
  - intros j d [[-> ->]|[_ Hd]]%Hlk Hs; [done | by eapply L8].
  - intros j k d e [[-> ->]|[Hj Hd]]%Hlk [[-> ->]|[Hk He]]%Hlk Hs Hp; [done | done | | by apply (L9 j k d e)].
    simpl in Hp. pose proof (L8 j d Hd Hs). lia.
  - intros j d k [[-> ->]|[Hj Hd]]%Hlk Hk; [done|]. destruct (L10 j d k Hd Hk) as (e & He & Hae). exists e. auto.
  - intros j d [[-> ->]|[Hj Hd]]%Hlk Hs Hin; [done | by eapply L11].
  - intros j d k e [[-> ->]|[Hj Hd]]%Hlk Hs Hch [[-> ->]|[Hk He]]%Hlk Hp; [done | done | done | by apply (L12 j d k e)].
  - intros j d [[-> ->]|[Hj Hd]]%Hlk Hs Hch; [done|]. destruct (L13 j d Hd Hs Hch) as (k & e & He & Hp).
    exists k, e. rewrite list_lookup_insert_ne; [done|]. intros <-. simplify_eq. by apply (Hpar j d).
Qed.

(** ** Exit *)

(** The entry [i] when [me] exits. *)
Definition heir (init : option nat) (me : nat) (c : core_t) : option nat :=
  if bool_decide (c_parent c = Some me) then init else c_parent c.
Definition exit_entry (init : option nat) (me i : nat) (c d : core_t) : Prop :=
  c_chan d = c_chan c /\ c_killed d = c_killed c /\ c_pid d = c_pid c /\ c_parent d = heir init me c
  /\ (if decide (i = me) then c_state d = ZOMBIE else c_state d = c_state c \/ c_state c = SLEEPING /\ c_state d = RUNNABLE).

Lemma exit_entry_state init me i c d : exit_entry init me i c d -> i <> me ->
  (c_state d = UNUSED <-> c_state c = UNUSED) /\ (c_state d = ZOMBIE <-> c_state c = ZOMBIE)
  /\ (c_state d = RUNNING <-> c_state c = RUNNING) /\ (c_state d = SLEEPING -> c_state c = SLEEPING).
Proof. intros (_ & _ & _ & _ & Hs) Hi. rewrite decide_False in Hs by done. destruct Hs as [->|[-> ->]]; by split_and!. Qed.

Section Exit.
Context (cs cs' : list core_t) (next : Z) (init : option nat) (cpu : nat -> option nat) (h me : nat) (c : core_t).
Context (I : pinv cs next init cpu) (Hh : cpu h = Some me) (Hme : cs !! me = Some c) (Hini : init <> Some me) (Hlen : length cs' = length cs).
Context (Hent : forall i a, cs !! i = Some a -> exists b, cs' !! i = Some b /\ exit_entry init me i a b).
(** Sleepers on the channels of the parent and, if there are children, of init are awake. *)
Context (Hwp : forall i b, cs' !! i = Some b -> i <> me -> c_chan b = chan_of proc_addr (heir init me c) -> c_state b <> SLEEPING).
Context (Hwi : (exists j d, cs !! j = Some d /\ c_parent d = Some me) ->
   forall i b, cs' !! i = Some b -> i <> me -> c_chan b = chan_of proc_addr init -> c_state b <> SLEEPING).

Lemma exit_running : c_state c = RUNNING.
Proof. destruct (iv_run _ _ _ _ I h me Hh) as (? & ? & ?). congruence. Qed.
Lemma exit_back i b : cs' !! i = Some b -> exists a, cs !! i = Some a /\ exit_entry init me i a b.
Proof.
  intros Hb. destruct (lookup_lt_is_Some_2 cs i) as [a Ha]; [rewrite <- Hlen; by eapply lookup_lt_Some|].
  destruct (Hent i a Ha) as (b' & Hb' & He). simplify_eq. eauto.
Qed.
(** Who is unused does not change. *)
Lemma exit_unused i a b : cs !! i = Some a -> exit_entry init me i a b -> c_state b = UNUSED <-> c_state a = UNUSED.
Proof.
  intros Ha He. destruct (decide (i = me)) as [->|Hi]; [|by apply (exit_entry_state _ _ _ _ _ He Hi)].
  destruct He as (_ & _ & _ & _ & Hs). rewrite decide_True in Hs by done. pose proof exit_running. simplify_eq. by rewrite Hs, H.
Qed.
Lemma exit_alive k a : cs !! k = Some a -> alive a -> k <> me -> exists b, cs' !! k = Some b /\ alive b.
Proof.
  intros Ha [A1 A2] Hk. destruct (Hent k a Ha) as (b & Hb & He). exists b. split; [done|].
  destruct (exit_entry_state _ _ _ _ _ He Hk) as (E1 & E2 & _). split; tauto.
Qed.
Lemma exit_init_alive k : init = Some k -> exists b, cs' !! k = Some b /\ alive b.
Proof.
  intros Hk. destruct (iv_init _ _ _ _ I) as (k' & d & Hk' & Hd & Had). rewrite Hk in Hk'. injection Hk' as <-. eapply exit_alive; [done | done | congruence].
Qed.
Lemma exit_parent i b j : cs' !! i = Some b -> c_parent b = Some j -> exists d, cs' !! j = Some d /\ alive d.
Proof.
  intros (a & Ha & (_ & _ & _ & Hp & _))%exit_back Hj. rewrite Hp in Hj. unfold heir in Hj. case_bool_decide as Hc; [by apply exit_init_alive|].
  destruct (iv_parent _ _ _ _ I i a j Ha Hj) as (d & Hd & Had). eapply exit_alive; [done | done | congruence].
Qed.
Lemma exit_wait i b j d : cs' !! i = Some b -> c_state b = SLEEPING -> c_chan b = proc_addr i ->
  cs' !! j = Some d -> c_parent d = Some i -> c_state d <> ZOMBIE.
Proof.
  intros Hb Hs Hch Hd Hp. destruct (exit_back i b Hb) as (a & Ha & Hea). destruct (exit_back j d Hd) as (e & He & Hee).
  assert (i <> me) as Him. { intros ->. destruct Hea as (_ & _ & _ & _ & Hz). rewrite decide_True in Hz by done. congruence. }
  pose proof Hee as (_ & _ & _ & Hpar & _). rewrite Hpar in Hp. destruct (decide (j = me)) as [->|Hj].
  - simplify_eq. intros _. apply (Hwp i b Hb Him); [|done]. by rewrite Hp.
  - unfold heir in Hp. case_bool_decide as Hc.
    + intros _. apply (Hwi (ex_intro _ j (ex_intro _ e (conj He Hc))) i b Hb Him); [|done]. by rewrite Hp.
    + destruct (exit_entry_state _ _ _ _ _ Hee Hj) as (_ & -> & _). destruct (exit_entry_state _ _ _ _ _ Hea Him) as (_ & _ & _ & E).
      destruct Hea as (Ec & _). apply (iv_wait _ _ _ _ I i a j e); [done | by apply E | congruence | done | done].
Qed.

Lemma pinv_exit : pinv cs' next init (set_hart h None cpu).
Proof.
  assert (forall g i, set_hart h None cpu g = Some i -> g <> h /\ cpu g = Some i) as Hset.
  { intros g i. unfold set_hart. by destruct (decide (g = h)). }
  split.
  - rewrite Hlen. apply I.
  - apply I.
  - destruct (iv_init _ _ _ _ I) as (k & d & Hk & _). destruct (exit_init_alive k Hk) as (b & Hb & Hab). by exists k, b.
  - intros g i [Hg Hi]%Hset. assert (i <> me) as Him by (intros ->; apply Hg; by eapply (iv_one _ _ _ _ I)).
    destruct (iv_run _ _ _ _ I g i Hi) as (a & Ha & Hs). destruct (Hent i a Ha) as (b & Hb & He). exists b. split; [done|].
    by apply (exit_entry_state _ _ _ _ _ He Him).
  - intros i b (a & Ha & He)%exit_back Hs. destruct (decide (i = me)) as [->|Him].
    { destruct He as (_ & _ & _ & _ & Hz). rewrite decide_True in Hz by done. congruence. }
    destruct (iv_hart _ _ _ _ I i a Ha) as [g Hg]; [by apply (exit_entry_state _ _ _ _ _ He Him)|].
    exists g. unfold set_hart. rewrite decide_False; [done|]. congruence.
  - intros g g' i [_ Hg]%Hset [_ Hg']%Hset. by eapply (iv_one _ _ _ _ I).
  - intros i b (a & Ha & He)%exit_back Hs. apply (exit_unused i a b Ha He) in Hs as Hu. pose proof (iv_blank _ _ _ _ I i a Ha Hu) as ->.
    destruct He as (E1 & E2 & E3 & E4 & _). unfold heir in E4. rewrite bool_decide_false in E4 by done. destruct b; simpl in *. by subst.
  - intros i b (a & Ha & He)%exit_back Hs. rewrite (exit_unused i a b Ha He) in Hs. destruct He as (_ & _ & -> & _). by eapply (iv_pid _ _ _ _ I).
  - intros i j b d (a & Ha & He)%exit_back (e & Hd & Hf)%exit_back Hs Hp. rewrite (exit_unused i a b Ha He) in Hs.
    destruct He as (_ & _ & E1 & _), Hf as (_ & _ & E2 & _). apply (iv_uniq _ _ _ _ I i j a e); [done | done | done | congruence].
  - apply exit_parent.
  - intros i b (a & Ha & He)%exit_back Hs Hi. rewrite (exit_unused i a b Ha He) in Hs. destruct He as (_ & _ & _ & -> & _).
    unfold heir. case_bool_decide; [|by eapply (iv_orphan _ _ _ _ I)]. destruct (iv_init _ _ _ _ I) as (k & d & -> & _). done.
  - apply exit_wait.
  - intros i b (a & Ha & He)%exit_back Hs Hch. assert (i <> me) as Him.
    { intros ->. destruct He as (_ & _ & _ & _ & Hz). rewrite decide_True in Hz by done. congruence. }
    destruct (exit_entry_state _ _ _ _ _ He Him) as (_ & _ & _ & E). destruct He as (Ec & _).
    destruct (iv_kids _ _ _ _ I i a Ha) as (j & e & Hj & Hp); [by apply E | congruence|]. destruct (Hent j e Hj) as (d & Hd & (_ & _ & _ & Hpd & _)).
    exists j, d. split; [done|]. rewrite Hpd. unfold heir. rewrite bool_decide_false; [done | congruence].
Qed.
End Exit.
End Inv.
