(* ===== verification/ProcSys.v ===== *)
(** The process table under every interleaving of the harts: the steps the
    kernel takes between two switches, and the invariant of ProcInv.v over
    every state they reach from [procinit] and [userinit]. *)

From S2P Require Import Prelude.
From S2P Require Import KString.
From S2P Require Import Riscv.
From S2P Require Import Kalloc.
From S2P Require Import Vm.
From S2P Require Import Locks.
From S2P Require Import Proc.
From S2P Require Import ProcProof.
From S2P Require Import ProcInv.

Section Sys.
Context (end_ trampoline forkret : Z) (proc_addr xstate_addr : nat -> Z).
Context {E : Type} `{FileEnv E}.
Implicit Types s : proc_st E.

(** One step of hart [h].  A routine that switches away leaves the hart to
    the scheduler.  Processes other than in [kwait] sleep on channels that are
    not their own entry; [kkill] is called with a positive number (sys_kill
    refuses the others); everything else the kernel does leaves the shared
    part of the table alone ([sys_private]). *)
Inductive sys_step : sys E -> sys E -> Prop :=
| sys_dispatch h from y y' :
    scheduler_pick h from y = Some y' -> sys_step y y'
| sys_yield h me s cpu s' :
    cpu h = Some me -> yield (A:=()) me s = Sleep s' -> sys_step (Sys s cpu) (Sys s' (set_hart h None cpu))
| sys_sleep h me chan s cpu s' :
    cpu h = Some me -> chan <> proc_addr me -> sleep_on (A:=()) me chan s = Sleep s' ->
    sys_step (Sys s cpu) (Sys s' (set_hart h None cpu))
| sys_awake h me s cpu s' :
    cpu h = Some me -> sleep_done me s = Ret tt s' -> sys_step (Sys s cpu) (Sys s' cpu)
| sys_wakeup h chan s cpu :
    sys_step (Sys s cpu) (Sys (set_ps_proc (wakeup (cpu h) chan (ps_proc s)) s) cpu)
| sys_kkill pid s cpu r s' :
    0 < pid -> kkill pid s = Ret r s' -> sys_step (Sys s cpu) (Sys s' cpu)
| sys_setkilled h me s cpu s' :
    cpu h = Some me -> setkilled me s = Ret tt s' -> sys_step (Sys s cpu) (Sys s' cpu)
| sys_kfork h me s cpu r s' :
    cpu h = Some me -> ps_nextpid s + 1 < 2 ^ 31 -> kfork end_ trampoline forkret me s = Ret r s' -> sys_step (Sys s cpu) (Sys s' cpu)
| sys_kexit h me status s cpu s' :
    cpu h = Some me -> kexit proc_addr me status s = Sleep s' -> p_state (ps_proc s' !!! me) = ZOMBIE ->
    sys_step (Sys s cpu) (Sys s' (set_hart h None cpu))
| sys_kwait h me addr s cpu r s' :
    cpu h = Some me -> kwait end_ proc_addr xstate_addr me addr s = Ret r s' -> sys_step (Sys s cpu) (Sys s' cpu)
| sys_kwait_sleep h me addr s cpu s' :
    cpu h = Some me -> kwait end_ proc_addr xstate_addr me addr s = Sleep s' -> p_state (ps_proc s' !!! me) = SLEEPING ->
    sys_step (Sys s cpu) (Sys s' (set_hart h None cpu))
| sys_private s s' cpu :
    same_cores s s' -> sys_step (Sys s cpu) (Sys s' cpu).

Definition sys_inv (y : sys E) : Prop := pinv proc_addr (cores (sy_st y)) (ps_nextpid (sy_st y)) (ps_init (sy_st y)) (sy_cpu y).

(** The table of a kernel that has run [procinit] and [userinit]; before, the
    memory of the table is zero. *)
Definition proc_boot (ka : kalloc_st) (e : E) : proc_st E := ProcSt _ (replicate (Z.to_nat NPROC) inhabitant) 1 None ka e.
Definition booted (y : sys E) : Prop :=
  exists ka e s, (procinit ;;; userinit end_ trampoline forkret) (proc_boot ka e) = Ret tt s /\ y = Sys s (fun _ => None).

(** ** Entries *)

Lemma cores_lookup s i p : ps_proc s !! i = Some p -> cores s !! i = Some (core p).
Proof. intros Hp. unfold cores. by rewrite list_lookup_fmap, Hp. Qed.
Lemma cores_inv s i c : cores s !! i = Some c -> exists p, ps_proc s !! i = Some p /\ core p = c.
Proof. unfold cores. rewrite list_lookup_fmap. intros (p & ? & ?)%fmap_Some. eauto. Qed.

(** The entry of the process a hart runs. *)
Lemma running_entry s cpu h me : sys_inv (Sys s cpu) -> cpu h = Some me ->
  exists p, ps_proc s !! me = Some p /\ ps_proc s !!! me = p /\ p_state p = RUNNING /\ alive (core p).
Proof.
  intros Hinv Hh. destruct (iv_run _ _ _ _ _ Hinv h me Hh) as (c & Hc & Hs). apply cores_inv in Hc as (p & Hp & <-).
  exists p. split; [done|]. split; [by apply list_lookup_total_correct|]. split; [done|]. split; by rewrite Hs.
Qed.

(** An entry that stays alive with its number and its parent, when the hart
    keeps running it, or [h] leaves it. *)
Lemma inv_alter s cpu i p f :
  sys_inv (Sys s cpu) -> ps_proc s !! i = Some p -> alive (core p) -> alive (core (f p)) ->
  p_pid (f p) = p_pid p -> p_parent (f p) = p_parent p ->
  (p_state (f p) = RUNNING <-> p_state p = RUNNING) ->
  (p_state (f p) = SLEEPING -> p_chan (f p) = proc_addr i -> p_state p = SLEEPING /\ p_chan p = proc_addr i) ->
  sys_inv (Sys (set_ps_proc (alter f i (ps_proc s)) s) cpu).
Proof.
  intros Hinv Hp Ha Ha' Hpid Hpar Hrun Hsl. unfold sys_inv in *. simpl in *.
  assert (cores (set_ps_proc (alter f i (ps_proc s)) s) = <[i := core (f p)]> (cores s)) as -> by (by apply alter_core with p).
  eapply pinv_live with (c := core p) (cpu := cpu); try done.
  - by apply cores_lookup.
  - intros Hs Hch j d Hd Hdp. destruct (Hsl Hs Hch) as [Hs0 Hc0]. by apply (iv_wait _ _ _ _ _ Hinv i (core p) j d); [apply cores_lookup| | | |].
  - intros Hs Hch. destruct (Hsl Hs Hch) as [Hs0 Hc0]. by apply (iv_kids _ _ _ _ _ Hinv i (core p)); [apply cores_lookup | |].
  - intros h Hh. destruct (iv_run _ _ _ _ _ Hinv h i Hh) as (c & Hc & Hs). rewrite (cores_lookup _ _ _ Hp) in Hc. injection Hc as <-. by apply Hrun.
  - intros Hs. apply (iv_hart _ _ _ _ _ Hinv i (core p)); [by apply cores_lookup | by apply Hrun].
  - intros h g. apply (iv_one _ _ _ _ _ Hinv).
Qed.

Lemma set_hart_other h (cpu : nat -> option nat) me g j : cpu h = Some me -> j <> me -> set_hart h None cpu g = Some j <-> cpu g = Some j.
Proof. intros Hh Hj. unfold set_hart. destruct (decide (g = h)) as [->|]; [|done]. split; congruence. Qed.
Lemma set_hart_left h (cpu : nat -> option nat) me g :
  (forall h' g', cpu h' = Some me -> cpu g' = Some me -> h' = g') -> cpu h = Some me -> set_hart h None cpu g <> Some me.
Proof. intros Ho Hh. unfold set_hart. destruct (decide (g = h)) as [|Hne]; [done|]. intros Hg. by apply Hne, Ho. Qed.

Lemma inv_leave s cpu h i p f :
  sys_inv (Sys s cpu) -> cpu h = Some i -> ps_proc s !! i = Some p -> alive (core (f p)) ->
  p_pid (f p) = p_pid p -> p_parent (f p) = p_parent p -> p_state (f p) <> RUNNING ->
  (p_state (f p) = SLEEPING -> p_chan (f p) = proc_addr i -> forall j q, ps_proc s !! j = Some q -> p_parent q = Some i -> p_state q <> ZOMBIE) ->
  (p_state (f p) = SLEEPING -> p_chan (f p) = proc_addr i -> exists j q, ps_proc s !! j = Some q /\ p_parent q = Some i) ->
  sys_inv (Sys (set_ps_proc (alter f i (ps_proc s)) s) (set_hart h None cpu)).
Proof.
  intros Hinv Hh Hp Ha' Hpid Hpar Hrun Hsl Hki. unfold sys_inv in *. simpl in *.
  assert (cores (set_ps_proc (alter f i (ps_proc s)) s) = <[i := core (f p)]> (cores s)) as -> by (by apply alter_core with p).
  assert (forall g, set_hart h None cpu g <> Some i) as Hl by (intros g; apply set_hart_left; [intros; by eapply (iv_one _ _ _ _ _ Hinv) | done]).
  eapply pinv_live with (c := core p) (cpu := cpu); try done.
  - by apply cores_lookup.
  - destruct (running_entry s cpu h i) as (q & Hq & _ & _ & Ha); [done | done|]. by simplify_eq.
  - intros Hs Hch j d Hd Hdp. apply cores_inv in Hd as (q & Hq & <-). by apply (Hsl Hs Hch j q).
  - intros Hs Hch. destruct (Hki Hs Hch) as (j & q & Hq & Hqp). exists j, (core q). by rewrite (cores_lookup _ _ _ Hq).
  - intros g j Hj. by apply (set_hart_other h cpu i).
  - intros g Hg. by destruct (Hl g).
  - intros g g' Hg. by destruct (Hl g).
Qed.
(** ** The steps *)

Lemma find_runnable_spec ps k i : find_runnable ps k = Some i -> exists p, (k <= i)%nat /\ ps !! (i - k)%nat = Some p /\ p_state p = RUNNABLE.
Proof.
  revert k. induction ps as [|p ps IH]; intros k; simpl; [done|]. case_bool_decide as Hs.
  - intros [= <-]. exists p. rewrite Nat.sub_diag. auto.
  - intros Hf. destruct (IH _ Hf) as (x & Hk & Hx & Hu). exists x. split; [lia|]. by replace (i - k)%nat with (S (i - S k)) by lia.
Qed.

Lemma scheduler_pick_run h from s cpu y :
  scheduler_pick h from (Sys s cpu) = Some y ->
  exists i p, cpu h = None /\ (from <= i)%nat /\ ps_proc s !! i = Some p /\ p_state p = RUNNABLE
    /\ y = Sys (set_ps_proc (alter (set_p_state RUNNING) i (ps_proc s)) s) (set_hart h (Some i) cpu).
Proof.
  unfold scheduler_pick. simpl. destruct (cpu h); [done|]. destruct (find_runnable _ _) as [i|] eqn:Hf; [|done]. intros [= <-].
  destruct (find_runnable_spec _ _ _ Hf) as (p & Hk & Hp & Hs). rewrite lookup_drop in Hp. replace (from + (i - from))%nat with i in Hp by lia.
  by exists i, p.
Qed.

Lemma inv_dispatch h from y y' : sys_inv y -> scheduler_pick h from y = Some y' -> sys_inv y'.
Proof.
  destruct y as [s cpu]. intros Hinv (i & p & Hh & _ & Hp & Hs & ->)%scheduler_pick_run. unfold sys_inv in *. simpl in *.
  assert (cores (set_ps_proc (alter (set_p_state RUNNING) i (ps_proc s)) s) = <[i := core (set_p_state RUNNING p)]> (cores s)) as -> by (by apply alter_core with p).
  assert (forall g, cpu g <> Some i) as Hno.
  { intros g Hg. destruct (iv_run _ _ _ _ _ Hinv g i Hg) as (c & Hc & Hr). rewrite (cores_lookup _ _ _ Hp) in Hc. injection Hc as <-. simpl in Hr. congruence. }
  assert (forall g, set_hart h (Some i) cpu g = Some i -> g = h) as Hone by (intros g; unfold set_hart; destruct (decide (g = h)); [done | by intros []%Hno]).
  eapply pinv_live with (c := core p) (cpu := cpu); try done.
  - by apply cores_lookup.
  - split; simpl; by rewrite Hs.
  - intros g j Hj. unfold set_hart. destruct (decide (g = h)) as [->|]; [|done]. split; congruence.
  - intros _. exists h. unfold set_hart. by rewrite decide_True.
  - intros g g' ->%Hone ->%Hone. done.
Qed.

(** Changes that wake or mark entries only. *)
Lemma inv_woken s cpu ps : sys_inv (Sys s cpu) -> Forall2 cwoken (cores s) (core <$> ps) -> sys_inv (Sys (set_ps_proc ps s) cpu).
Proof. intros Hinv Hw. unfold sys_inv in *. simpl in *. by eapply pinv_woken. Qed.

Lemma cwoken_all (cs : list core_t) : Forall2 cwoken cs cs.
Proof. apply Forall_Forall2_diag, Forall_true. intros c. by left. Qed.
Lemma alter_cwoken (f : proc -> proc) (i : nat) (ps : list proc) p : ps !! i = Some p -> cwoken (core p) (core (f p)) -> Forall2 cwoken (core <$> ps) (core <$> alter f i ps).
Proof.
  intros Hp Hw. rewrite (alter_core f i ps p _ Hp eq_refl). apply Forall2_same_length_lookup_2; [by rewrite length_insert|].
  intros j c d Hc Hd. rewrite list_lookup_insert_Some in Hd. destruct Hd as [(<- & <- & _)|[_ Hd]]; [|simplify_eq; by left].
  rewrite list_lookup_fmap, Hp in Hc. by injection Hc as <-.
Qed.

Lemma find_pid_spec pid ps k i : find_pid pid ps k = Some i -> exists p, (k <= i)%nat /\ ps !! (i - k)%nat = Some p /\ p_pid p = pid.
Proof.
  revert k. induction ps as [|p ps IH]; intros k; simpl; [done|]. destruct (Z.eqb_spec (p_pid p) pid) as [Hs|].
  - intros [= <-]. exists p. rewrite Nat.sub_diag. auto.
  - intros Hf. destruct (IH _ Hf) as (x & Hk & Hx & Hu). exists x. split; [lia|]. by replace (i - k)%nat with (S (i - S k)) by lia.
Qed.

Lemma inv_kkill pid s cpu r s' : sys_inv (Sys s cpu) -> 0 < pid -> kkill pid s = Ret r s' -> sys_inv (Sys s' cpu).
Proof.
  intros Hinv Hpid HR. unfold kkill in HR. apply run_then in HR as (ps & s0 & [= <- <-] & HR).
  destruct (find_pid _ _ _) as [i|] eqn:Hf; [|by injection HR as _ <-]. apply run_then in HR as (a & s1 & R1 & HR).
  injection R1 as _ <-. injection HR as _ <-. destruct (find_pid_spec _ _ _ _ Hf) as (p & _ & Hp & Hpp). rewrite Nat.sub_0_r in Hp.
  apply inv_woken; [done|]. apply alter_cwoken with p; [done|]. right. split.
  - simpl. intros Hu. pose proof (iv_blank _ _ _ _ _ Hinv i (core p) (cores_lookup _ _ _ Hp) Hu) as Eb. injection Eb as _ _ _ Eb _. lia.
  - unfold kill_proc, core. simpl. case_bool_decide as Hs; simpl; auto 8.
Qed.

Lemma core_at s cpu i p : sys_inv (Sys s cpu) -> ps_proc s !! i = Some p -> p_state p = UNUSED -> core p = blank_core.
Proof. intros Hinv Hp Hu. by apply (iv_blank _ _ _ _ _ Hinv i); [apply cores_lookup|]. Qed.

Lemma inv_same s s' cpu : sys_inv (Sys s cpu) -> same_cores s s' -> sys_inv (Sys s' cpu).
Proof. unfold sys_inv. simpl. by intros Hinv (-> & -> & ->). Qed.

Lemma next_pid s cpu : sys_inv (Sys s cpu) -> ps_nextpid s + 1 < 2 ^ 31 -> i32 (ps_nextpid s + 1) = ps_nextpid s + 1.
Proof. intros Hinv Hn. pose proof (iv_next _ _ _ _ _ Hinv) as Hb. simpl in Hb. apply i32_small. lia. Qed.

Lemma inv_kfork h me s cpu r s' :
  sys_inv (Sys s cpu) -> cpu h = Some me -> ps_nextpid s + 1 < 2 ^ 31 -> kfork end_ trampoline forkret me s = Ret r s' -> sys_inv (Sys s' cpu).
Proof.
  intros Hinv Hh Hn [[_ [Hs|(i & x & Hx & Hu & C & N & I)]]|(i & _ & (x & Hx & Hu & C & N & I))]%kfork_run; [by eapply inv_same| |];
    pose proof (core_at _ _ _ _ Hinv Hx Hu) as Eb; unfold sys_inv in *; simpl in *; rewrite C, N, I; erewrite next_pid by done.
  - rewrite list_insert_id by (rewrite (cores_lookup _ _ _ Hx); by rewrite Eb). apply pinv_next with (ps_nextpid s); [|done].
    pose proof (iv_next _ _ _ _ _ Hinv). lia.
  - destruct (running_entry s cpu h me) as (p & Hp & _ & _ & Ha); [done | done|].
    injection Eb as _ E2 E3 _ _. rewrite E2, E3. apply pinv_fork with (core x); [done | by apply cores_lookup | done | | done].
    exists (core p). split; [by apply cores_lookup | done].
Qed.

Lemma inv_kwait h me addr s cpu r s' :
  sys_inv (Sys s cpu) -> cpu h = Some me -> kwait end_ proc_addr xstate_addr me addr s = Ret r s' -> sys_inv (Sys s' cpu).
Proof.
  intros Hinv Hh [[Hs _]|(i & x & Hx & Hpar & Hz & _ & C & N & I)]%kwait_run; [by eapply inv_same|].
  destruct (running_entry s cpu h me) as (p & Hp & _ & Hr & _); [done | done|].
  unfold sys_inv in *. simpl in *. rewrite C, N, I. apply pinv_reap with (core x); [done | by apply cores_lookup | done|].
  intros k d Hk Hd. simpl in Hk. rewrite Hpar in Hk. injection Hk as <-. rewrite (cores_lookup _ _ _ Hp) in Hd. injection Hd as <-. simpl. congruence.
Qed.

Lemma inv_kwait_sleep h me addr s cpu s' :
  sys_inv (Sys s cpu) -> cpu h = Some me -> kwait end_ proc_addr xstate_addr me addr s = Sleep s' -> p_state (ps_proc s' !!! me) = SLEEPING ->
  sys_inv (Sys s' (set_hart h None cpu)).
Proof.
  intros Hinv Hh HR Hs. destruct (running_entry s cpu h me) as (p & Hp & Ep & Hr & _); [done | done|].
  destruct (kwait_sleeps _ _ _ _ _ _ _ HR) as (-> & Hno & Hk); [by rewrite Ep, Hr | done|]. by eapply inv_leave.
Qed.
(** ** Exit *)

(** The table after the last part of [kexit]. *)
Section ExitTable.
Context (init : option nat) (me : nat) (status : Z) (ps : list proc) (m : proc).
Context (Hlen : length ps = Z.to_nat NPROC) (Hini : init <> Some me) (Hm : ps !! me = Some m).
Let ps2 := reparent proc_addr (Some me) init me ps.
Let parent := chan_of proc_addr (heir init me (core m)).
Let ps3 := wakeup (Some me) parent ps2.
Let zombie (p : proc) := set_p_state ZOMBIE (set_p_xstate status p).

Lemma reparent_all :
  length ps2 = length ps
  /\ (forall i x, ps !! i = Some x -> exists y, ps2 !! i = Some y /\ woken (adopted init me x) y)
  /\ ((exists i x, ps !! i = Some x /\ p_parent x = Some me) ->
      forall i x, ps !! i = Some x -> i <> me -> p_chan x = chan_of proc_addr init -> exists y, ps2 !! i = Some y /\ p_state y <> SLEEPING).
Proof.
  assert (fold_left (reparent_one proc_addr (Some me) init me) (seq 0 (length ps)) ps = ps2) as E2.
  { unfold ps2, reparent. rewrite Hlen. reflexivity. }
  destruct (reparent_prefix proc_addr (Some me) init me ps (length ps)) as (L & K & W); [apply le_n | exact Hini|].
  rewrite E2 in L, K, W. split; [exact L|]. split.
  - intros i x Hx. destruct (K i x Hx) as (y & Hy & Hw). rewrite decide_True in Hw by (by eapply lookup_lt_Some). eauto.
  - intros (i & x & Hx & Hp) j z Hz Hj Hc. apply W with z; [|exact Hz | congruence | exact Hc]. exists i, x. split; [|auto].
    by eapply lookup_lt_Some.
Qed.

Lemma adopted_fields x : p_chan (adopted init me x) = p_chan x /\ p_killed (adopted init me x) = p_killed x
  /\ p_pid (adopted init me x) = p_pid x /\ p_parent (adopted init me x) = heir init me (core x) /\ p_state (adopted init me x) = p_state x.
Proof. unfold adopted, heir. simpl. by case_bool_decide. Qed.

Lemma reparent_me : exists y, ps2 !! me = Some y /\ p_parent y = heir init me (core m).
Proof.
  destruct reparent_all as (_ & K & _). destruct (K me m Hm) as (y & Hy & Hw). exists y. split; [done|].
  rewrite (woken_parent _ _ Hw). apply adopted_fields.
Qed.

(** The entry after both wake-ups. *)
Lemma woken_twice i x : ps !! i = Some x -> exists z, ps3 !! i = Some z /\ woken (adopted init me x) z.
Proof.
  intros Hx. destruct reparent_all as (_ & K & _). destruct (K i x Hx) as (y & Hy & Hw).
  destruct (wakeup_woken (Some me) parent ps2 i y Hy) as (z & Hz & Hwz). exists z. split; [done|].
  destruct Hw as [->|[Hs ->]], Hwz as [->|[Hs' ->]]; unfold woken; auto.
Qed.

Lemma exit_entries i x : ps !! i = Some x -> exists z, alter zombie me ps3 !! i = Some z /\ exit_entry init me i (core x) (core z).
Proof.
  intros Hx. destruct (woken_twice i x Hx) as (z & Hz & Hw). destruct (adopted_fields x) as (A1 & A2 & A3 & A4 & A5). destruct (decide (i = me)) as [->|Hi].
  - exists (zombie z). rewrite list_lookup_alter_eq, Hz. split; [done|]. unfold exit_entry. rewrite decide_True by done.
    destruct Hw as [->|[Hs ->]]; simpl; by split_and!.
  - exists z. rewrite list_lookup_alter_ne by done. split; [done|]. unfold exit_entry. rewrite decide_False by done.
    destruct Hw as [->|[Hs ->]]; simpl; split_and!; auto. right. by rewrite <- A5.
Qed.

(** Nobody but the zombie sleeps on the parent's channel. *)
Lemma exit_wakes_parent i z : alter zombie me ps3 !! i = Some z -> i <> me -> p_chan z = parent -> p_state z <> SLEEPING.
Proof.
  intros Hz Hi Hc Hs. rewrite list_lookup_alter_ne in Hz by done. unfold ps3 in Hz. rewrite wakeup_lookup in Hz.
  apply fmap_Some in Hz as (y & Hy & ->). destruct (_ && _) eqn:Ew; [done|].
  rewrite Hs, Hc, Z.eqb_refl, !bool_decide_true in Ew; [done | done | congruence].
Qed.
(** Nor on that of init, if it has new children. *)
Lemma exit_wakes_init i z :
  (exists j x, ps !! j = Some x /\ p_parent x = Some me) ->
  alter zombie me ps3 !! i = Some z -> i <> me -> p_chan z = chan_of proc_addr init -> p_state z <> SLEEPING.
Proof.
  intros Hk Hz Hi Hc. rewrite list_lookup_alter_ne in Hz by done.
  destruct reparent_all as (L & K & W). destruct (lookup_lt_is_Some_2 ps i) as [x Hx].
  { rewrite <- L. unfold ps3 in Hz. rewrite <- (wakeup_length (Some me) parent ps2). by eapply lookup_lt_Some. }
  destruct (woken_twice i x Hx) as (z' & Hz' & Hw). simplify_eq.
  assert (p_chan x = chan_of proc_addr init) as Hcx by (destruct (adopted_fields x) as (A1 & _); destruct Hw as [->|[_ ->]]; simpl in Hc; congruence).
  destruct (W Hk i x Hx Hi Hcx) as (y & Hy & Hns). destruct (wakeup_woken (Some me) parent ps2 i y Hy) as (z' & Hz1 & Hw1).
  unfold ps3 in Hz. simplify_eq. by destruct Hw1 as [->|[_ ->]].
Qed.
Lemma exit_length : length (alter zombie me ps3) = length ps.
Proof. unfold ps3. rewrite length_alter, wakeup_length. apply reparent_all. Qed.
End ExitTable.

#[local] Opaque reparent.
Lemma inv_kexit h me status s cpu s' :
  sys_inv (Sys s cpu) -> cpu h = Some me -> kexit proc_addr me status s = Sleep s' -> p_state (ps_proc s' !!! me) = ZOMBIE ->
  sys_inv (Sys s' (set_hart h None cpu)).
Proof.
  intros Hinv Hh HR Hz. destruct (running_entry s cpu h me) as (p0 & _ & E0 & Hr0 & _); [done | done|].
  destruct (kexit_run _ _ _ _ _ HR) as (sA & sB & s1 & _ & _ & _ & (C & N & I) & Hini & Es); [by rewrite E0, Hr0 | done|]. cbv zeta in Es.
  assert (sys_inv (Sys s1 cpu)) as H1 by (by eapply inv_same).
  destruct (running_entry s1 cpu h me) as (p & Hp & _); [done | done|].
  assert (length (ps_proc s1) = Z.to_nat NPROC) as Hl by (pose proof (iv_len _ _ _ _ _ H1) as L; simpl in L; unfold cores in L; by rewrite length_fmap in L).
  rewrite <- I in Hini, Es. destruct (reparent_me _ _ _ _ Hl Hini Hp) as (y & Hy & Hyp).
  rewrite (list_lookup_total_correct _ _ _ Hy), Hyp in Es. subst s'. unfold sys_inv in *. simpl in *. unfold cores. simpl.
  eapply pinv_exit with (cs := cores s1) (c := core p); [exact H1 | done | by apply cores_lookup | done | | | |].
  - unfold cores. rewrite !length_fmap. by apply exit_length.
  - intros i a (x & Hx & <-)%cores_inv. destruct (exit_entries _ _ status _ p Hl Hini i x Hx) as (z & Hz' & He).
    exists (core z). rewrite list_lookup_fmap, Hz'. done.
  - intros i b Hb Hi Hc. rewrite list_lookup_fmap in Hb. apply fmap_Some in Hb as (z & Hz' & ->). by eapply exit_wakes_parent.
  - intros (j & d & (x & Hx & <-)%cores_inv & Hd) i b Hb Hi Hc. rewrite list_lookup_fmap in Hb. apply fmap_Some in Hb as (z & Hz' & ->).
    eapply (exit_wakes_init (ps_init s1) me status (ps_proc s1) p); eauto.
Qed.

Lemma inv_step y y' : sys_inv y -> sys_step y y' -> sys_inv y'.
Proof.
  intros Hinv Hst. destruct Hst as
    [h from y y' HR|h me s cpu s' Hh HR|h me chan s cpu s' Hh Hch HR|h me s cpu s' Hh HR|h chan s cpu|pid s cpu r s' Hp HR
    |h me s cpu s' Hh HR|h me s cpu r s' Hh Hn HR|h me status s cpu s' Hh HR Hz|h me addr s cpu r s' Hh HR|h me addr s cpu s' Hh HR Hs|s s' cpu Hsame].
  - by eapply inv_dispatch.
  - destruct (running_entry s cpu h me) as (p & Hp & _); [done | done|]. cbn in HR. apply Sleep_inj in HR as <-. by eapply inv_leave.
  - destruct (running_entry s cpu h me) as (p & Hp & _); [done | done|]. cbn in HR. apply Sleep_inj in HR as <-. by eapply inv_leave.
  - destruct (running_entry s cpu h me) as (p & Hp & _ & Hr & Ha); [done | done|]. cbn in HR. apply Ret_inj in HR as [_ <-].
    eapply inv_alter; try done. simpl. congruence.
  - apply inv_woken; [done|]. apply wakeup_cwoken.
  - by eapply inv_kkill.
  - destruct (running_entry s cpu h me) as (p & Hp & _ & Hr & Ha); [done | done|]. cbn in HR. apply Ret_inj in HR as [_ <-].
    eapply inv_alter; try done.
  - by eapply inv_kfork.
  - by eapply inv_kexit.
  - by eapply inv_kwait.
  - by eapply inv_kwait_sleep.
  - by eapply inv_same.
Qed.
End Sys.
