(* ===== verification/ProcThm.v ===== *)
(** The theorems about processes: the invariant of the process table from boot
    on, exit and wait, and kill. *)

From S2P Require Import Prelude.
From S2P Require Import KString.
From S2P Require Import Riscv.
From S2P Require Import Kalloc.
From S2P Require Import Vm.
From S2P Require Import Locks.
From S2P Require Import Proc.
From S2P Require Import ProcProof.
From S2P Require Import ProcInv.
From S2P Require Import ProcSys.

Lemma mfor_keeps {S X} (P : S -> Prop) (l : list X) (body : X -> M S ()) s s' :
  (forall x s s', P s -> body x s = Ret tt s' -> P s') -> P s -> mfor l body s = Ret tt s' -> P s'.
Proof.
  intros Hb. revert s. induction l as [|x l IH]; intros s Hs; simpl; [by intros [= <-]|]. intros HR.
  apply run_then in HR as ([] & s1 & R1 & HR). by eapply IH, HR; eapply Hb.
Qed.

#[local] Arguments replicate : simpl never.

Section Boot.
Context (end_ trampoline forkret : Z) (proc_addr xstate_addr : nat -> Z).
Context {E : Type} `{FileEnv E}.
Implicit Types s : proc_st E.

(** ** Boot *)

(** A table with no process. *)
Definition empty_table s : Prop :=
  cores s = replicate (Z.to_nat NPROC) blank_core /\ ps_nextpid s = 1 /\ ps_init s = None.

Lemma procinit_run ka e s : procinit (proc_boot ka e) = Ret tt s -> empty_table s.
Proof.
  apply mfor_keeps; [|split; [|done]; unfold cores, proc_boot; cbn [ps_proc]; rewrite fmap_replicate; reflexivity].
  intros i s1 s2 (C & N & I) HR. apply Ret_inj in HR as [_ <-]. split; [|done]. unfold cores in *. unfold set_ps_proc. cbn [ps_proc].
  destruct (ps_proc s1 !! i) as [p|] eqn:Hp.
  - assert (core p = blank_core) as Eb.
    { assert ((core <$> ps_proc s1) !! i = Some (core p)) as Hc by (by rewrite list_lookup_fmap, Hp). rewrite C in Hc. by apply lookup_replicate in Hc as [-> _]. }
    rewrite (alter_core _ i _ p blank_core Hp) by (unfold core in *; simpl; injection Eb as _ -> -> -> ->; done).
    rewrite list_insert_id; [done|]. by rewrite list_lookup_fmap, Hp, <- Eb.
  - rewrite <- C. f_equal. apply list_eq. intros j. destruct (decide (i = j)) as [<-|]; [by rewrite list_lookup_alter_eq, Hp | by rewrite list_lookup_alter_ne].
Qed.

Lemma userinit_run s s' : empty_table s -> userinit end_ trampoline forkret s = Ret tt s' ->
  exists i, (i < Z.to_nat NPROC)%nat /\ cores s' = <[i := Core RUNNABLE 0 false 1 None]> (replicate (Z.to_nat NPROC) blank_core)
    /\ ps_nextpid s' = 2 /\ ps_init s' = Some i.
Proof.
  intros (C & N & I) HR. unfold userinit in HR. apply run_then in HR as (p & s1 & R1%allocproc_run & HR).
  apply run_then in HR as (a & s2 & [= _ <-] & HR). destruct p as [i|]; [|done]. exists i.
  destruct R1 as (x & Hx & Hu & C1 & N1 & I1). assert (cores s !! i = Some (core x)) as Hc by (by apply cores_lookup).
  rewrite C in Hc. apply lookup_replicate in Hc as [Eb Hi]. injection Eb as _ E2 E3 _ E5. split; [done|].
  apply run_then in HR as (ip & s3 & R3 & HR). apply envM_cores in R3 as [(C3 & N3 & I3) _].
  apply run_then in HR as (a4 & s4 & R4 & HR). apply set_private in R4 as (C4 & N4 & I4); [|done].
  apply Ret_inj in HR as [_ <-]. simpl in *.
  assert (cores s4 = cores s1) as C41 by (rewrite C4, C3; done).
  assert (cores s1 !! i = Some (Core USED 0 false 1 None)) as Hc1.
  { rewrite C1, list_lookup_insert_eq; [by rewrite E2, E3, E5, N | by rewrite C, length_replicate]. }
  rewrite <- C41 in Hc1. apply cores_inv in Hc1 as (q & Hq & Eq). injection Eq as Q1 Q2 Q3 Q4 Q5.
  split; [|split; [rewrite N4, N3; simpl; by rewrite N1, N | rewrite I4, I3; done]].
  unfold cores at 1. simpl. rewrite (alter_core _ i _ q (Core RUNNABLE 0 false 1 None) Hq) by (unfold core; simpl; congruence).
  fold (cores s4). rewrite C41, C1, C. apply list_insert_insert_eq.
Qed.

(** The table with one process, init. *)
Lemma boot_inv y : booted end_ trampoline forkret y -> sys_inv proc_addr y.
Proof.
  intros (ka & e & s' & HR & ->). apply run_then in HR as (a & s & R1 & HR). destruct a.
  apply procinit_run in R1. destruct (userinit_run s s' R1 HR) as (i & Hi & C & N & I). unfold sys_inv. simpl. rewrite C, N, I.
  set (c0 := Core RUNNABLE 0 false 1 None).
  assert (<[i := c0]> (replicate (Z.to_nat NPROC) blank_core) !! i = Some c0) as H0 by (apply list_lookup_insert_eq; by rewrite length_replicate).
  assert (forall j c, <[i := c0]> (replicate (Z.to_nat NPROC) blank_core) !! j = Some c -> j = i /\ c = c0 \/ j <> i /\ c = blank_core) as Hlk.
  { intros j c [[-> ->]|[Hj Hc]]%live_lookup; [by left|]. apply lookup_replicate in Hc as [-> _]. by right. }
  split.
  - by rewrite length_insert, length_replicate.
  - lia.
  - by exists i, c0.
  - done.
  - intros j c [[-> ->]|[_ ->]]%Hlk Hs; done.
  - done.
  - intros j c [[-> ->]|[_ ->]]%Hlk Hs; done.
  - intros j c [[-> ->]|[_ ->]]%Hlk Hs; [simpl; lia | done].
  - intros j k c d [[-> ->]|[_ ->]]%Hlk [[-> ->]|[_ ->]]%Hlk Hs Hp; done.
  - intros j c k [[-> ->]|[_ ->]]%Hlk Hs; done.
  - intros j c [[-> ->]|[_ ->]]%Hlk Hs Hn; done.
  - intros j c k d [[-> ->]|[_ ->]]%Hlk Hs; done.
  - intros j c [[-> ->]|[_ ->]]%Hlk Hs; done.
Qed.

Lemma reachable_inv y0 y :
  booted end_ trampoline forkret y0 -> rtc (sys_step end_ trampoline forkret proc_addr xstate_addr) y0 y -> sys_inv proc_addr y.
Proof. intros Hb Hr. apply (boot_inv y0) in Hb. induction Hr as [|? ? ? Hst _ IH]; [done|]. apply IH. by eapply inv_step. Qed.

(** ** What the invariant says of the table *)


(** C8: no lost wake-up in wait.  In every reachable state a process that is
    asleep on its own entry, as [kwait] leaves it, has a child that is alive,
    and no child of it is a zombie: the exit that will wake it is still to
    come. *)
Theorem kwait_no_lost_wakeup y0 y i p :
  booted end_ trampoline forkret y0 -> rtc (sys_step end_ trampoline forkret proc_addr xstate_addr) y0 y ->
  ps_proc (sy_st y) !! i = Some p -> p_state p = SLEEPING -> p_chan p = proc_addr i ->
  (exists j q, ps_proc (sy_st y) !! j = Some q /\ p_parent q = Some i /\ p_state q <> UNUSED /\ p_state q <> ZOMBIE)
  /\ (forall j q, ps_proc (sy_st y) !! j = Some q -> p_parent q = Some i -> p_state q <> ZOMBIE).
Proof.
  intros Hb Hr Hp Hs Hch. pose proof (reachable_inv y0 y Hb Hr) as I. unfold sys_inv in I.
  assert (forall j q, ps_proc (sy_st y) !! j = Some q -> p_parent q = Some i -> p_state q <> ZOMBIE) as Hz.
  { intros j q Hq Hpq. by apply (iv_wait _ _ _ _ _ I i (core p) j (core q)); [apply cores_lookup | | | apply cores_lookup |]. }
  split; [|done]. destruct (iv_kids _ _ _ _ _ I i (core p)) as (j & c & (q & Hq & <-)%cores_inv & Hpq); [by apply cores_lookup | done | done|].
  exists j, q. split; [done|]. split; [done|]. split; [|by eapply Hz]. intros Hu.
  pose proof (iv_blank _ _ _ _ _ I j (core q) (cores_lookup _ _ _ Hq) Hu) as Eb. injection Eb as _ _ _ _ Eb. simpl in Hpq. congruence.
Qed.
End Boot.

(** ** Exit *)

Section Exit.
Context (end_ trampoline forkret : Z) (proc_addr xstate_addr : nat -> Z).
Context {E : Type} `{FileEnv E}.
Implicit Types s : proc_st E.

(** The state before [reparent] while the files of [me] are closed. *)
Definition closing (s0 : proc_st E) (me : nat) (s : proc_st E) : Prop :=
  same_cores s0 s /\ p_cwd (ps_proc s !!! me) = p_cwd (ps_proc s0 !!! me).

Lemma set_ofile_closing s0 me s l : closing s0 me s -> closing s0 me (set_ps_proc (alter (fun p => set_p_ofile (l p) p) me (ps_proc s)) s).
Proof.
  intros [Hs Hc]. split.
  - eapply same_cores_trans; [exact Hs|]. split; [|done]. by apply alter_private.
  - rewrite <- Hc. simpl. rewrite !list_lookup_total_alt, list_lookup_alter_eq. by destruct (ps_proc s !! me).
Qed.
Lemma envM_closing {A} s0 me s (m : M E A) a s' : closing s0 me s -> envM m s = Ret a s' -> closing s0 me s'.
Proof. intros [Hs Hc] [H1 H2]%envM_cores. split; [by eapply same_cores_trans | by rewrite H2]. Qed.

Section Total.
Context (Hclose : forall f (e : E), exists e', fe_fileclose f e = Ret tt e') (Hput : forall ip (e : E), exists e', fe_iput ip e = Ret tt e').

Lemma envM_total (m : M E ()) s : (forall e, exists e', m e = Ret tt e') -> exists s', envM m s = Ret tt s'.
Proof. intros Hm. unfold envM, zoom. destruct (Hm (ps_env s)) as [e' ->]. eauto. Qed.

#[local] Opaque reparent.
Lemma kexit_total me status s m ip :
  ps_init s <> Some me -> ps_proc s !! me = Some m -> p_cwd m = Some ip ->
  exists s1, same_cores s s1
    /\ let ps2 := reparent proc_addr (Some me) (ps_init s) me (ps_proc s1) in
       kexit proc_addr me status s = Sleep (set_ps_proc (alter (fun p => set_p_state ZOMBIE (set_p_xstate status p)) me
              (wakeup (Some me) (chan_of proc_addr (p_parent (ps2 !!! me))) ps2)) s1).
Proof.
  intros Hini Hm Hcwd. unfold kexit. rewrite (mthen_ret _ _ s (ps_init s) s) by done. rewrite bool_decide_false by done.
  unfold close_files.
  match goal with |- context [mfor _ ?b] => pose proof (mfor_inv (fun _ => closing s me) b NOFILE s) as Hloop end.
  destruct Hloop as (s1 & R1 & S1 & C1); [done| |].
  { intros fd s1 _ Hcl. rewrite (mthen_ret _ _ s1 (ps_proc s1 !!! me) s1) by done.
    destruct (p_ofile _ !!! fd) as [f|]; [|by exists s1]. destruct (envM_total (fe_fileclose f) s1 (Hclose f)) as [s2 R2].
    rewrite (mthen_ret _ _ _ _ _ R2). eexists. split; [reflexivity|]. apply set_ofile_closing. by eapply envM_closing. }
  rewrite (mthen_ret _ _ _ _ _ R1), (mthen_ret _ _ s1 (ps_proc s1 !!! me) s1) by done. rewrite C1, (list_lookup_total_correct _ _ _ Hm), Hcwd.
  destruct (envM_total (fe_iput ip) s1 (Hput ip)) as [s2 R2]. rewrite (mthen_ret _ _ _ _ _ R2). apply envM_cores in R2 as [R2 _].
  exists (set_ps_proc (alter (set_p_cwd None) me (ps_proc s2)) s2). split.
  2:{ unfold set_proc, on_table, proc_at, gets, modify, sleep, set_ps_proc, mthen, chan_of. cbn [ps_proc ps_nextpid ps_init ps_ka ps_env]. reflexivity. }
  apply (same_cores_trans _ _ _ S1), (same_cores_trans _ _ _ R2). split; [|done]. by apply alter_private.
Qed.

(** What exit leaves behind.  From a reachable state with the running
    process [me], not init, [kexit] (when the file calls return) switches away
    with [me] a zombie that keeps its number and the exit status; the children
    of [me] belong to init and nobody else changes parent; the parent is not
    asleep in wait, and its next scan of the table finds a zombie child. *)
Theorem kexit_hands_over y0 s cpu h me status m ip k :
  booted end_ trampoline forkret y0 -> rtc (sys_step end_ trampoline forkret proc_addr xstate_addr) y0 (Sys s cpu) ->
  cpu h = Some me -> ps_init s <> Some me -> ps_proc s !! me = Some m -> p_cwd m = Some ip -> p_parent m = Some k -> k <> me ->
  exists s', kexit proc_addr me status s = Sleep s'
    /\ (exists z, ps_proc s' !! me = Some z /\ p_state z = ZOMBIE /\ p_xstate z = status /\ p_pid z = p_pid m /\ p_parent z = Some k)
    /\ (forall i p, ps_proc s !! i = Some p -> i <> me -> exists q, ps_proc s' !! i = Some q
          /\ p_parent q = (if bool_decide (p_parent p = Some me) then ps_init s else p_parent p) /\ p_pid q = p_pid p)
    /\ (forall q, ps_proc s' !! k = Some q -> p_chan q = proc_addr k -> p_state q <> SLEEPING)
    /\ (exists j z, scan_children k (ps_proc s') 0 false = (true, Some j) /\ ps_proc s' !! j = Some z /\ p_parent z = Some k /\ p_state z = ZOMBIE).
Proof.
  intros Hb Hr Hh Hini Hm Hcwd Hk Hkm. pose proof (reachable_inv _ _ _ _ _ _ _ Hb Hr) as I.
  destruct (kexit_total me status s m ip Hini Hm Hcwd) as (s1 & (C1 & N1 & I1) & HR). cbv zeta in HR.
  assert (cores s1 !! me = Some (core m)) as Hc by (rewrite C1; by apply cores_lookup). apply cores_inv in Hc as (m1 & Hm1 & Em).
  assert (length (ps_proc s1) = Z.to_nat NPROC) as Hl.
  { pose proof (iv_len _ _ _ _ _ I) as L. simpl in L. rewrite <- C1 in L. unfold cores in L. by rewrite length_fmap in L. }
  assert (heir (ps_init s) me (core m1) = Some k) as Eheir.
  { unfold heir. rewrite Em. simpl. rewrite Hk, bool_decide_false by congruence. done. }
  destruct (reparent_me proc_addr (ps_init s) me _ m1 Hl Hini Hm1) as (y & Hy & Hyp).
  rewrite (list_lookup_total_correct _ _ _ Hy), Hyp in HR.
  pose proof (exit_entries proc_addr (ps_init s) me status _ m1 Hl Hini) as Hent.
  pose proof (exit_wakes_parent proc_addr (ps_init s) me status (ps_proc s1) m1) as Hwk.
  eexists. split; [exact HR|]. cbn [ps_proc set_ps_proc]. set (ps' := alter _ _ _) in *.
  assert (exists z, ps' !! me = Some z /\ p_state z = ZOMBIE /\ p_xstate z = status /\ p_pid z = p_pid m /\ p_parent z = Some k) as Hz.
  { destruct (Hent me m1 Hm1) as (z & Hz & (_ & _ & Ep & Epar & Est)). rewrite decide_True in Est by done. rewrite Eheir in Epar.
    exists z. split; [done|]. split; [done|]. split; [|split; [simpl in Ep; injection Em as _ _ _ Em _; congruence | done]].
    unfold ps' in Hz. rewrite list_lookup_alter_eq in Hz. by apply fmap_Some in Hz as (? & _ & ->). }
  split; [done|]. split; [|split].
  - intros i p Hp Hi. assert (cores s1 !! i = Some (core p)) as Hc by (rewrite C1; by apply cores_lookup). apply cores_inv in Hc as (p1 & Hp1 & Ep).
    destruct (Hent i p1 Hp1) as (q & Hq & (_ & _ & E1 & E2 & _)). exists q. split; [done|]. unfold heir in E2. rewrite Ep in E1, E2. done.
  - intros q Hq Hch. eapply Hwk; [exact Hq | done|]. by rewrite Eheir.
  - destruct Hz as (z & Hz & Hzs & _ & _ & Hzp). pose proof (scan_children_spec k ps' 0 false) as Hsc.
    destruct (scan_children k ps' 0 false) as [b [j|]].
    + destruct Hsc as (x & _ & Hx & Hxp & Hxs & -> & _). rewrite Nat.sub_0_r in Hx. by exists j, x.
    + destruct Hsc as [Hno _]. by destruct (Hno me z Hz Hzp).
Qed.
End Total.
End Exit.

(** ** A run of the kernel *)

Module ProcDemo.
(** File calls that return. *)
#[global] Instance idle_env : FileEnv () := {|
  fe_filedup _ := skip; fe_fileclose _ := skip; fe_idup _ := skip; fe_iput _ := skip; fe_root := mreturn (Some 0%nat) |}.
Lemma idle_close (f : nat) (e : ()) : exists e', fe_fileclose f e = Ret tt e'.
Proof. by exists e. Qed.
Lemma idle_put (ip : nat) (e : ()) : exists e', fe_iput ip e = Ret tt e'.
Proof. by exists e. Qed.

(** Ten free pages, the first at 0x80001000. *)
Definition PAGE (i : Z) : Z := KERNBASE + PGSIZE * (i + 1).
Definition image : mem := fold_right (fun i m => store64 m (PAGE i) (if i =? 9 then 0 else PAGE (i + 1))) (fun _ => 0) (seqZ 0 10).
Definition pool : kalloc_st := KallocSt (Kst image zero_counters) (Kmem (PAGE 0) 10 0 0 0).
Definition paddr (i : nat) : Z := 1 + Z.of_nat i.
Definition TRAMP : Z := KERNBASE.

Definition is_ret {S A} (o : outcome S A) : bool := match o with Ret _ _ => true | _ => false end.
Definition is_sleep {S A} (o : outcome S A) : bool := match o with Sleep _ => true | _ => false end.
Definition after {S A} (s : S) (o : outcome S A) : S := match o with Ret _ s' => s' | Sleep s' => s' | _ => s end.
Lemma ret_after {S} (s : S) (o : outcome S ()) : is_ret o = true -> o = Ret tt (after s o).
Proof. by destruct o as [[]| | |]. Qed.
Lemma ret_after_ex {S A} (s : S) (o : outcome S A) : is_ret o = true -> exists a, o = Ret a (after s o).
Proof. destruct o; simpl; eauto; done. Qed.
Lemma sleep_after {S A} (s : S) (o : outcome S A) : is_sleep o = true -> o = Sleep (after s o).
Proof. by destruct o. Qed.
Definition is_some {A} (o : option A) : bool := match o with Some _ => true | None => false end.
Lemma pick_default {A} (d : A) (o : option A) : is_some o = true -> o = Some (default d o).
Proof. by destruct o. Qed.

Lemma sys_eta {E} (y : sys E) : y = Sys (sy_st y) (sy_cpu y).
Proof. by destruct y. Qed.

Definition b0 := proc_boot pool tt.
Definition s0 := after b0 ((procinit ;;; userinit KERNBASE TRAMP 0) b0).
Definition no_hart : nat -> option nat := fun _ => None.
Definition y1 := default (Sys s0 no_hart) (scheduler_pick 0 0 (Sys s0 no_hart)).
Definition s2 := after (sy_st y1) (kfork KERNBASE TRAMP 0 0 (sy_st y1)).
Definition s3 := after s2 (kwait KERNBASE paddr paddr 0 0 s2).
Definition y3 := Sys s3 (set_hart 0 None (sy_cpu y1)).
Definition y4 := default y3 (scheduler_pick 1 0 y3).

(** Init is dispatched, forks, and waits; its child is dispatched. *)
Abbreviation demo_step := (sys_step KERNBASE TRAMP 0 paddr paddr).
Lemma demo_booted : booted KERNBASE TRAMP 0 (Sys s0 no_hart).
Proof. exists pool, tt, s0. split; [|reflexivity]. apply ret_after. vm_compute. reflexivity. Qed.
Lemma demo_y3 : rtc demo_step (Sys s0 no_hart) y3.
Proof.
  apply rtc_l with y1.
  { apply (sys_dispatch _ _ _ _ _ 0 0), (pick_default (Sys s0 no_hart)). vm_compute. reflexivity. }
  assert (exists r, kfork KERNBASE TRAMP 0 0 (sy_st y1) = Ret r s2) as [r H2].
  { unfold s2. apply ret_after_ex. vm_compute. reflexivity. }
  apply rtc_l with (Sys s2 (sy_cpu y1)).
  { rewrite (sys_eta y1) at 1. eapply (sys_kfork _ _ _ _ _ 0 0); [vm_compute; reflexivity | apply Z.ltb_lt; vm_compute; reflexivity | exact H2]. }
  apply rtc_once. eapply (sys_kwait_sleep _ _ _ _ _ 0 0 0); [vm_compute; reflexivity | | vm_compute; reflexivity].
  unfold s3. apply sleep_after. vm_compute. reflexivity.
Qed.
Lemma demo_y4 : rtc demo_step (Sys s0 no_hart) y4.
Proof.
  apply rtc_r with y3; [apply demo_y3|]. apply (sys_dispatch _ _ _ _ _ 1 0), (pick_default y3). vm_compute. reflexivity.
Qed.
End ProcDemo.

#[local] Opaque ProcDemo.s0 ProcDemo.y3 ProcDemo.y4.

Lemma kwait_no_lost_wakeup_witness :
  exists j q, ps_proc (sy_st ProcDemo.y3) !! j = Some q /\ p_parent q = Some 0%nat /\ p_state q <> UNUSED /\ p_state q <> ZOMBIE.
Proof.
  destruct (kwait_no_lost_wakeup KERNBASE ProcDemo.TRAMP 0 ProcDemo.paddr ProcDemo.paddr (Sys ProcDemo.s0 ProcDemo.no_hart) ProcDemo.y3 0
    (ps_proc (sy_st ProcDemo.y3) !!! 0%nat) ProcDemo.demo_booted ProcDemo.demo_y3) as [Hk _];
    [vm_compute; reflexivity | vm_compute; reflexivity | vm_compute; reflexivity | exact Hk].
Defined.

Lemma kexit_hands_over_witness :
  exists s', kexit ProcDemo.paddr 1 7 (sy_st ProcDemo.y4) = Sleep s'
    /\ exists z, ps_proc s' !! 1%nat = Some z /\ p_state z = ZOMBIE /\ p_xstate z = 7.
Proof.
  destruct (kexit_hands_over KERNBASE ProcDemo.TRAMP 0 ProcDemo.paddr ProcDemo.paddr
    ProcDemo.idle_close ProcDemo.idle_put (Sys ProcDemo.s0 ProcDemo.no_hart) (sy_st ProcDemo.y4) (sy_cpu ProcDemo.y4) 1 1 7
    (ps_proc (sy_st ProcDemo.y4) !!! 1%nat) 0 0 ProcDemo.demo_booted ltac:(rewrite <- ProcDemo.sys_eta; exact ProcDemo.demo_y4)) as (s' & HR & (z & Hz & Hs & Hx & _) & _);
    [vm_compute; reflexivity | vm_compute; discriminate | vm_compute; reflexivity | vm_compute; reflexivity | vm_compute; reflexivity | discriminate|].
  exists s'. split; [exact HR|]. exists z. split; [exact Hz|]. split; [exact Hs | exact Hx].
Defined.
