(* ===== verification/Syscall.v ===== *)
(** System calls (src/kernel/syscall.c) and the calls on processes
    (src/kernel/sysproc.c).

    The arguments and the result of a call are words of the trapframe page of
    the calling process [me], in the kernel's memory.  The table of handlers
    is a partial function from numbers, [None] for a null entry.  [now] is the
    value [r_time()] returns.  Messages on the console are not part of the
    state; the statistics blocks are. *)

From S2P Require Import Prelude.
From S2P Require Import KString.
From S2P Require Import Riscv.
From S2P Require Import Kalloc.
From S2P Require Import Vm.
From S2P Require Import Locks.
From S2P Require Import Proc.

Definition SYS_fork : Z := 1.
Definition SYS_exit : Z := 2.
Definition SYS_wait : Z := 3.
Definition SYS_kill : Z := 6.
Definition SYS_getpid : Z := 11.
Definition SYS_sbrk : Z := 12.
Definition SYS_pause : Z := 13.
Definition SYS_uptime : Z := 14.
(** [NELEM(syscalls)] *)
Definition NSYSCALLS : Z := 22.
Definition SBRK_EAGER : Z := 1.
Definition SBRK_LAZY : Z := 2.
(** The offset of [a7] in a trapframe. *)
Definition OFF_A7 : Z := 168.

Inductive proc_stat := exit_count | getpid_count | fork_count | wait_count | sbrk_count | pause_count | kill_count | uptime_count | failed_operations.
#[global] Instance proc_stat_eq_dec : EqDecision proc_stat.
Proof. solve_decision. Defined.

(** [syscall_stats] *)
Record call_stats := CallStats { syscall_count : Z -> Z; total_calls : Z; failed_calls : Z }.

(** The kernel's state as the calls see it; [kn_recent] and [kn_last] are the
    static variables of [sys_fork]. *)
Record kern {E : Type} := Kern {
  kn_ps : proc_st E;
  kn_calls : call_stats;
  kn_stats : counters proc_stat;
  kn_recent : Z;
  kn_last : Z;
  kn_ticks : Z }.
Arguments kern : clear implicits.

Section Syscall.
Context (end_ trampoline forkret : Z) (proc_addr xstate_addr : nat -> Z) (ticks_addr : Z).
Context {E : Type} `{FileEnv E}.
Abbreviation KM := (M (kern E)).

Definition set_kn_ps p (k : kern E) : kern E := Kern _ p (kn_calls k) (kn_stats k) (kn_recent k) (kn_last k) (kn_ticks k).
Definition set_kn_calls c (k : kern E) : kern E := Kern _ (kn_ps k) c (kn_stats k) (kn_recent k) (kn_last k) (kn_ticks k).
Definition set_kn_forks r l (k : kern E) : kern E := Kern _ (kn_ps k) (kn_calls k) (kn_stats k) r l (kn_ticks k).
Definition set_kn_ticks t (k : kern E) : kern E := Kern _ (kn_ps k) (kn_calls k) (kn_stats k) (kn_recent k) (kn_last k) t.
Definition psM {A} (m : M (proc_st E) A) : KM A := zoom kn_ps set_kn_ps m.
Definition tally (f : proc_stat) : KM () :=
  modify (fun k => Kern _ (kn_ps k) (kn_calls k) (incr f (kn_stats k)) (kn_recent k) (kn_last k) (kn_ticks k)).
Definition proc_stats_init : KM () :=
  modify (fun k => Kern _ (kn_ps k) (kn_calls k) zero_counters (kn_recent k) (kn_last k) (kn_ticks k)).
Definition syscall_stats_init : KM () := modify (set_kn_calls (CallStats (fun _ => 0) 0 0)).

(** ** Arguments *)

Definition tf_word (me : nat) (off : Z) : KM Z :=
  let* p := psM (proc_at me) in gets (fun k => load64 (ka_mem (ps_ka (kn_ps k))) (p_trapframe p + off)).
Definition set_tf_word (me : nat) (off v : Z) : KM () :=
  let* p := psM (proc_at me) in
  psM (memM (modify (fun s => set_ka_mem (store64 (ka_mem s) (p_trapframe p + off) v) s))).

Definition argraw (me : nat) (n : Z) : KM Z :=
  if (0 <=? n) && (n <=? 5) then tf_word me (OFF_A0 + 8 * n) else panic "argraw".
Definition argint (me : nat) (n : Z) : KM Z := let* x := argraw me n in mreturn (i32 x).
Definition argaddr (me : nat) (n : Z) : KM Z := argraw me n.

(** [ip] is the address of the kernel variable the word goes to. *)
Definition fetchaddr (me : nat) (addr ip : Z) : KM Z :=
  let* p := psM (proc_at me) in
  if (addr >=? p_sz p) || (u64 (addr + 8) >? p_sz p) then mreturn (-1) else
  let* r := psM (memM (copyin end_ (p_sz p) (p_pagetable p) (p_pagetable p) ip addr 8)) in
  if negb (r =? 0) then mreturn (-1) else mreturn 0.

Definition fetchstr (me : nat) (addr buf max : Z) : KM Z :=
  let* p := psM (proc_at me) in
  let* len := psM (memM (copyinstr (p_pagetable p) buf addr max)) in
  if len <? 0 then mreturn (-1) else psM (memM (on_ks (strlen buf))).

Definition argstr (me : nat) (n buf max : Z) : KM Z :=
  let* addr := argaddr me n in fetchstr me addr buf max.

(** ** Dispatch *)

Definition syscall (syscalls : Z -> option (KM Z)) (me : nat) : KM () :=
  let* a7 := tf_word me OFF_A7 in
  let num := i32 a7 in
  let known := (num >? 0) && (num <? NSYSCALLS) in
  modify (fun k => let c := kn_calls k in
    set_kn_calls (CallStats (if known then fun n => if n =? num then u64 (syscall_count c n + 1) else syscall_count c n else syscall_count c)
                            (u64 (total_calls c + 1)) (failed_calls c)) k) ;;;
  match (if known then syscalls num else None) with
  | Some f => let* ret_val := f in set_tf_word me OFF_A0 ret_val
  | None =>
      set_tf_word me OFF_A0 (u64 (-1)) ;;;
      modify (fun k => let c := kn_calls k in set_kn_calls (CallStats (syscall_count c) (total_calls c) (u64 (failed_calls c + 1))) k)
  end.

(** ** Calls on processes *)

Definition sys_exit (me : nat) : KM Z :=
  tally exit_count ;;;
  let* n := argint me 0 in
  psM (kexit proc_addr me n) ;;;
  mreturn 0.

Definition sys_getpid (me : nat) : KM Z :=
  tally getpid_count ;;;
  let* p := psM (proc_at me) in
  mreturn (u64 (p_pid p)).

(** The limit on forks: whether this one is refused. *)
Definition fork_gate (now : Z) : KM bool :=
  let* k := gets (fun k => k) in
  if u64 (now - kn_last k) <? 1000000 then
    let recent := i32 (kn_recent k + 1) in
    if recent >? 10 then modify (set_kn_forks recent (kn_last k)) ;;; mreturn true
    else modify (set_kn_forks recent now) ;;; mreturn false
  else modify (set_kn_forks 0 now) ;;; mreturn false.

Definition sys_fork (now : Z) (me : nat) : KM Z :=
  tally fork_count ;;;
  let* refused := fork_gate now in
  if refused : bool then tally failed_operations ;;; mreturn (u64 (-1)) else
  let* child_pid := psM (kfork end_ trampoline forkret me) in
  (when (child_pid <? 0) do tally failed_operations) ;;;
  mreturn (u64 child_pid).

Definition sys_wait (me : nat) : KM Z :=
  tally wait_count ;;;
  let* p := argaddr me 0 in
  let* proc := psM (proc_at me) in
  if negb (p =? 0) && ((p >=? p_sz proc) || (u64 (p + 4) >? p_sz proc))
  then tally failed_operations ;;; mreturn (u64 (-1)) else
  let* result := psM (kwait end_ proc_addr xstate_addr me p) in
  mreturn (u64 result).

Definition MB : Z := 1024 * 1024.
(** The checks of [sys_sbrk] on a process of [addr] bytes. *)
Definition sbrk_refused (addr n : Z) : bool :=
  (n >? 100 * MB) || (u64 (addr + n) >? 512 * MB) || ((n >? 0) && (u64 (addr + n) <? addr)).

Definition sys_sbrk (me : nat) : KM Z :=
  tally sbrk_count ;;;
  let* n := argint me 0 in
  let* t := argint me 1 in
  let* p := psM (proc_at me) in
  let addr := p_sz p in
  if sbrk_refused addr n then tally failed_operations ;;; mreturn (u64 (-1)) else
  if (t =? SBRK_EAGER) || (n <? 0) then
    let* r := psM (growproc end_ me n) in
    if r <? 0 then tally failed_operations ;;; mreturn (u64 (-1)) else mreturn addr
  else if u64 (addr + n) <? addr then tally failed_operations ;;; mreturn (u64 (-1)) else
  psM (set_proc me (fun p => set_p_sz (u64 (p_sz p + n)) p)) ;;;
  mreturn addr.

(** One round of the loop of [sys_pause]; a process that was asleep in it comes
    back with [sleep_done] and another round. *)
Definition pause_round (me : nat) (n ticks0 : Z) : KM Z :=
  let* ticks := gets kn_ticks in
  if u32 (ticks - ticks0) <? n then
    let* k := psM (killed me) in
    if k : bool then mreturn (u64 (-1)) else psM (sleep_on me ticks_addr)
  else mreturn 0.
Definition pause_ticks (n : Z) : Z := let n := if n <? 0 then 0 else n in if n >? 100000 then 100000 else n.
Definition sys_pause (me : nat) : KM Z :=
  tally pause_count ;;;
  let* n := argint me 0 in
  let* ticks0 := gets kn_ticks in
  pause_round me (pause_ticks n) ticks0.

Definition sys_kill (me : nat) : KM Z :=
  tally kill_count ;;;
  let* pid := argint me 0 in
  if pid =? 1 then tally failed_operations ;;; mreturn (u64 (-1)) else
  if (pid <=? 0) || (pid >? 32768) then tally failed_operations ;;; mreturn (u64 (-1)) else
  let* result := psM (kkill pid) in
  mreturn (u64 result).

Definition sys_uptime (me : nat) : KM Z :=
  tally uptime_count ;;;
  gets kn_ticks.

(** The entries of [syscalls] for this file; [others] are those of sysfile.c. *)
Definition syscalls (others : Z -> option (KM Z)) (now : Z) (me : nat) (num : Z) : option (KM Z) :=
  if num =? SYS_fork then Some (sys_fork now me) else
  if num =? SYS_exit then Some (sys_exit me) else
  if num =? SYS_wait then Some (sys_wait me) else
  if num =? SYS_kill then Some (sys_kill me) else
  if num =? SYS_getpid then Some (sys_getpid me) else
  if num =? SYS_sbrk then Some (sys_sbrk me) else
  if num =? SYS_pause then Some (sys_pause me) else
  if num =? SYS_uptime then Some (sys_uptime me) else
  others num.
End Syscall.
