(* ===== verification/SyscallProof.v ===== *)
(** The process calls: the size limits of sbrk, the guards and the effect of
    kill, and the dispatch of a call. *)

From S2P Require Import Prelude.
From S2P Require Import KString.
From S2P Require Import Riscv.
From S2P Require Import Kalloc.
From S2P Require Import Vm.
From S2P Require Import Locks.
From S2P Require Import Proc.
From S2P Require Import ProcProof.
From S2P Require Import ProcInv.
From S2P Require Import ProcSys.
From S2P Require Import ProcThm.
From S2P Require Import Syscall.

Section Grow.
Context (end_ : Z).

(** ** The value of [uvmalloc] and [uvmdealloc] *)

Lemma uvmdealloc_value pt old new s r s' : uvmdealloc end_ pt old new s = Ret r s' -> r = if new >=? old then old else new.
Proof.
  unfold uvmdealloc. destruct (new >=? old); [by intros [= <- _]|]. intros HR. by apply run_then in HR as (a & s1 & _ & [= <- _]).
Qed.

Lemma uvmalloc_loop_value fuel pt old new a perm s r s' : uvmalloc_loop end_ fuel pt old new a perm s = Ret r s' -> r = 0 \/ r = new.
Proof.
  revert a s. induction fuel as [|fuel IH]; intros a s; [done|]. cbn [uvmalloc_loop]. destruct (negb _); [intros [= <- _]; by right|]. intros HR.
  apply run_then in HR as (m & s1 & _ & HR). destruct (m =? 0).
  { apply run_then in HR as (? & ? & _ & [= <- _]). by left. }
  apply run_then in HR as (? & s2 & _ & HR). apply run_then in HR as (c & s3 & _ & HR). destruct (negb (c =? 0)); [|by eapply IH].
  apply run_then in HR as (? & s4 & _ & HR). apply run_then in HR as (? & s5 & _ & [= <- _]). by left.
Qed.
Lemma uvmalloc_value pt old new perm s r s' : old <= new -> uvmalloc end_ pt old new perm s = Ret r s' -> r = 0 \/ r = new.
Proof. unfold uvmalloc. intros Hle. destruct (Z.ltb_spec new old); [lia|]. apply uvmalloc_loop_value. Qed.

Context {E : Type} `{FileEnv E}.

(** [growproc] either fails and leaves the size alone or adds [n] to it. *)
Lemma growproc_run me n (s : proc_st E) r s' p :
  ps_proc s !! me = Some p -> 0 <= p_sz p -> 0 <= p_sz p + n < 2 ^ 64 -> growproc end_ me n s = Ret r s' ->
  r = -1 /\ ps_proc s' = ps_proc s \/ r = 0 /\ ps_proc s' = alter (set_p_sz (p_sz p + n)) me (ps_proc s).
Proof.
  intros Hp Hsz Hn HR. unfold growproc in HR. apply run_then in HR as (q & s1 & [= <- <-] & HR).
  rewrite (list_lookup_total_correct _ _ _ Hp), (u64_small (p_sz p + n)) in HR by lia.
  destruct (Z.gtb_spec n 0) as [Hpos|Hnp]; [|destruct (Z.ltb_spec n 0) as [Hneg|Hz]].
  - apply run_then in HR as (sz & s1 & R1 & HR). pose proof (memM_cores _ _ _ _ R1) as [_ P1]. destruct (Z.eqb_spec sz 0) as [->|Hs].
    + injection HR as <- <-. left. by split.
    + apply run_then in HR as (a & s2 & [= _ <-] & [= <- <-]). right. split; [done|]. simpl. rewrite P1. f_equal. f_equal.
      unfold memM, zoom in R1. destruct (uvmalloc _ _ _ _ _ _) as [v k| | |] eqn:Ev; try done. injection R1 as <- _.
      apply uvmalloc_value in Ev as [?|?]; [lia | done | lia].
  - apply run_then in HR as (sz & s1 & R1 & HR). pose proof (memM_cores _ _ _ _ R1) as [_ P1].
    apply run_then in HR as (a & s2 & [= _ <-] & [= <- <-]). right. split; [done|]. simpl. rewrite P1. f_equal. f_equal.
    unfold memM, zoom in R1. destruct (uvmdealloc _ _ _ _ _) as [v k| | |] eqn:Ev; try done. injection R1 as <- _.
    apply uvmdealloc_value in Ev as ->. destruct (Z.geb_spec (p_sz p + n) (p_sz p)); lia.
  - apply run_then in HR as (a & s2 & [= _ <-] & [= <- <-]). right. split; [done|]. simpl. f_equal. f_equal. lia.
Qed.
End Grow.

(** ** Runs of the calls *)

Section Calls.
Context (end_ trampoline forkret : Z) (proc_addr xstate_addr : nat -> Z) (ticks_addr : Z).
Context {E : Type} `{FileEnv E}.
Implicit Types k : kern E.

(** The argument [i] of the call of process [me] in state [k]. *)
Definition arg_word (k : kern E) (me : nat) (i : Z) : Z :=
  load64 (ka_mem (ps_ka (kn_ps k))) (p_trapframe (ps_proc (kn_ps k) !!! me) + (OFF_A0 + 8 * i)).

Lemma argint_run me i k : 0 <= i <= 5 -> argint me i k = Ret (i32 (arg_word k me i)) k.
Proof.
  intros Hi. unfold argint, argraw. destruct (Z.leb_spec 0 i); [|lia]. destruct (Z.leb_spec i 5); [|lia].
  destruct k. reflexivity.
Qed.

(** A statistics counter raised. *)
Definition tallied (f : proc_stat) (k : kern E) : kern E :=
  Kern _ (kn_ps k) (kn_calls k) (incr f (kn_stats k)) (kn_recent k) (kn_last k) (kn_ticks k).

Lemma psM_run {A} (m : M (proc_st E) A) k a k' : psM m k = Ret a k' -> exists s', m (kn_ps k) = Ret a s' /\ k' = set_kn_ps s' k.
Proof. unfold psM, zoom. destruct (m (kn_ps k)); try done. intros [= <- <-]. eauto. Qed.
Lemma psM_ret {A} (m : M (proc_st E) A) k a s' : m (kn_ps k) = Ret a s' -> psM m k = Ret a (set_kn_ps s' k).
Proof. unfold psM, zoom. by intros ->. Qed.

Lemma sbrk_refused_false addr n : 0 <= addr <= 512 * MB -> - 2 ^ 31 <= n < 2 ^ 31 ->
  sbrk_refused addr n = false <-> n <= 100 * MB /\ 0 <= addr + n <= 512 * MB.
Proof.
  intros Ha Hn. unfold sbrk_refused, MB in *. assert (n > 0 -> u64 (addr + n) = addr + n) as Hp by (intros; apply u64_small; lia).
  assert (addr + n < 0 -> u64 (addr + n) = addr + n + 2 ^ 64) as Hneg.
  { intros. unfold u64. rewrite <- (Z.mod_add _ 1) by lia. rewrite Z.mod_small; lia. }
  assert (0 <= addr + n -> u64 (addr + n) = addr + n) as Hnn by (intros; apply u64_small; lia).
  rewrite !orb_false_iff, andb_false_iff, !Z.gtb_ltb, !Z.ltb_ge. lia.
Qed.

(** C10: sbrk keeps a process within 512 MB.  For a process of at most 512 MB,
    a call that returns either fails with -1, counts the failure and leaves
    the process table as it was, or returns the old size with the new size
    exactly [sz + n], between 0 and 512 MB and at most 100 MB larger (no wrap
    around, also for negative [n]); and a lazy request within the limits
    succeeds. *)
Theorem sys_sbrk_bounds k me p :
  ps_proc (kn_ps k) !! me = Some p -> 0 <= p_sz p <= 512 * MB ->
  let n := i32 (arg_word k me 0) in
  (forall r k', sys_sbrk end_ me k = Ret r k' ->
     r = 2 ^ 64 - 1 /\ ps_proc (kn_ps k') = ps_proc (kn_ps k) /\ kn_stats k' failed_operations = u64 (kn_stats k failed_operations + 1)
     \/ r = p_sz p /\ n <= 100 * MB /\ 0 <= p_sz p + n <= 512 * MB /\ ps_proc (kn_ps k') = alter (set_p_sz (p_sz p + n)) me (ps_proc (kn_ps k)))
  /\ (0 <= n <= 100 * MB -> p_sz p + n <= 512 * MB -> i32 (arg_word k me 1) <> SBRK_EAGER -> exists k', sys_sbrk end_ me k = Ret (p_sz p) k').
Proof.
  intros Hp Hsz n. assert (- 2 ^ 31 <= n < 2 ^ 31) as Hn by (subst n; unfold i32; pose proof (Z.mod_pos_bound (arg_word k me 0 + 2 ^ 31) (2 ^ 32)); lia).
  assert (sys_sbrk end_ me k = (if sbrk_refused (p_sz p) n then tally failed_operations ;;; mreturn (u64 (-1)) else
    if (i32 (arg_word k me 1) =? SBRK_EAGER) || (n <? 0) then
      let* r := psM (growproc end_ me n) in
      if r <? 0 then tally failed_operations ;;; mreturn (u64 (-1)) else mreturn (p_sz p)
    else if u64 (p_sz p + n) <? p_sz p then tally failed_operations ;;; mreturn (u64 (-1)) else
    psM (set_proc me (fun p => set_p_sz (u64 (p_sz p + n)) p)) ;;; mreturn (p_sz p)) (tallied sbrk_count k)) as ->.
  { unfold sys_sbrk. rewrite (mthen_ret _ _ k tt (tallied sbrk_count k)) by done. rewrite (mthen_ret _ _ _ _ _ (argint_run me 0 _ ltac:(lia))), (mthen_ret _ _ _ _ _ (argint_run me 1 _ ltac:(lia))).
    rewrite (mthen_ret _ _ _ p (tallied sbrk_count k)); [reflexivity|]. unfold psM, zoom. simpl.
    rewrite (list_lookup_total_correct _ _ _ Hp). by destruct k. }
  set (k1 := tallied sbrk_count k). split.
  - intros r k' HR. destruct (sbrk_refused (p_sz p) n) eqn:Er.
    { injection HR as <- <-. left. done. }
    apply sbrk_refused_false in Er as [Hn1 Hn2]; [|done|done]. destruct (_ || _).
    + apply run_then in HR as (g & k2 & (s' & R2 & ->)%psM_run & HR).
      destruct (growproc_run end_ me n (kn_ps k) g s' p Hp) as [[-> Hg]|[-> Hg]]; [lia | unfold MB in *; lia | done | |].
      * injection HR as <- <-. left. done.
      * injection HR as <- <-. right. done.
    + rewrite u64_small in HR by (unfold MB in *; lia). destruct (Z.ltb_spec (p_sz p + n) (p_sz p)).
      { injection HR as <- <-. left. done. }
      injection HR as <- <-. right. split; [done|]. split; [done|]. split; [done|]. simpl. rewrite !(alter_insert _ _ _ _ Hp). f_equal.
      by rewrite u64_small by (unfold MB in *; lia).
  - intros Hn1 Hn2 Ht. assert (sbrk_refused (p_sz p) n = false) as -> by (apply sbrk_refused_false; [done | done | lia]).
    rewrite (proj2 (Z.eqb_neq _ _) Ht). destruct (Z.ltb_spec n 0); [lia|]. cbn [orb]. rewrite u64_small by (unfold MB in *; lia).
    destruct (Z.ltb_spec (p_sz p + n) (p_sz p)); [lia|]. by eexists.
Qed.
Lemma find_pid_none pid ps i : find_pid pid ps i = None -> forall j p, ps !! j = Some p -> p_pid p <> pid.
Proof.
  revert i. induction ps as [|q ps IH]; intros i; simpl; [done|]. destruct (Z.eqb_spec (p_pid q) pid) as [|Hne]; [done|].
  intros Hf [|j] p Hp; [by injection Hp as <- | by eapply IH].
Qed.

Lemma kkill_run pid (s : proc_st E) :
  kkill pid s = match find_pid pid (ps_proc s) 0 with
                | Some i => Ret 0 (set_ps_proc (alter kill_proc i (ps_proc s)) s)
                | None => Ret (-1) s
                end.
Proof. unfold kkill. rewrite (mthen_ret _ _ s (ps_proc s) s) by done. by destruct (find_pid _ _ _). Qed.

Lemma sys_kill_run me k :
  let pid := i32 (arg_word k me 0) in
  sys_kill me k =
    if (pid <=? 1) || (pid >? 32768) then Ret (2 ^ 64 - 1) (tallied failed_operations (tallied kill_count k)) else
    match find_pid pid (ps_proc (kn_ps k)) 0 with
    | Some i => Ret 0 (set_kn_ps (set_ps_proc (alter kill_proc i (ps_proc (kn_ps k))) (kn_ps k)) (tallied kill_count k))
    | None => Ret (2 ^ 64 - 1) (tallied kill_count k)
    end.
Proof.
  intros pid. unfold sys_kill. rewrite (mthen_ret _ _ k tt (tallied kill_count k)) by done.
  rewrite (mthen_ret _ _ _ _ _ (argint_run me 0 _ ltac:(lia))). change (arg_word (tallied kill_count k) me 0) with (arg_word k me 0). fold pid.
  destruct (Z.eqb_spec pid 1) as [E1|E1].
  { destruct (Z.leb_spec pid 1); [done | lia]. }
  assert ((pid <=? 1) = (pid <=? 0)) as -> by (destruct (Z.leb_spec pid 1), (Z.leb_spec pid 0); lia). destruct (_ || _); [done|].
  unfold psM, zoom, mthen. simpl. rewrite kkill_run. destruct (find_pid _ _ _); [done|]. by destruct k.
Qed.

(** kill.  In every state reached from boot, [sys_kill] returns: 0 when the
    number is between 2 and 32768 and belongs to a process, which is then the
    only entry with it, in use, marked killed and no longer asleep, every
    other entry being as before; and -1 with the table unchanged in every
    other case (in particular for init and for the number 0 of unused
    entries).  The state after it is again a reachable one. *)
Theorem sys_kill_effect y0 k cpu me :
  booted end_ trampoline forkret y0 -> rtc (sys_step end_ trampoline forkret proc_addr xstate_addr) y0 (Sys (kn_ps k) cpu) ->
  let pid := i32 (arg_word k me 0) in
  let ps := ps_proc (kn_ps k) in
  exists r k', sys_kill me k = Ret r k'
    /\ rtc (sys_step end_ trampoline forkret proc_addr xstate_addr) y0 (Sys (kn_ps k') cpu)
    /\ (r = 0 /\ 1 < pid <= 32768
          /\ (exists i p, ps !! i = Some p /\ p_pid p = pid /\ p_state p <> UNUSED /\ ps_proc (kn_ps k') = <[i := kill_proc p]> ps
                /\ p_killed (kill_proc p) = true /\ p_state (kill_proc p) <> SLEEPING
                /\ forall j q, ps !! j = Some q -> p_pid q = pid -> j = i)
        \/ r = 2 ^ 64 - 1 /\ ps_proc (kn_ps k') = ps /\ (pid <= 1 \/ 32768 < pid \/ forall i p, ps !! i = Some p -> p_pid p <> pid)).
Proof.
  intros Hb Hr pid ps. pose proof (reachable_inv _ _ _ _ _ _ _ Hb Hr) as I. pose proof (sys_kill_run me k) as HR. fold pid ps in HR. cbv zeta in HR.
  destruct (Z.leb_spec pid 1) as [H1|H1]; cbn [orb] in HR.
  { eexists _, _. split; [exact HR|]. split; [done|]. right. auto. }
  destruct (Z.gtb_spec pid 32768) as [H2|H2].
  { eexists _, _. split; [exact HR|]. split; [done|]. right. auto. }
  destruct (find_pid pid ps 0) as [i|] eqn:Hf; eexists _, _; (split; [exact HR|]).
  - split; [eapply rtc_r; [exact Hr|]; apply (sys_kkill _ _ _ _ _ pid _ _ 0); [lia|]; rewrite kkill_run; fold ps; by rewrite Hf|]. left.
    split; [done|]. split; [lia|]. destruct (find_pid_spec _ _ _ _ Hf) as (p & _ & Hp & Hpp). rewrite Nat.sub_0_r in Hp.
    assert (p_state p <> UNUSED) as Hu.
    { intros Hu. pose proof (core_at _ _ _ _ _ I Hp Hu) as Eb. injection Eb as _ _ _ Eb _. lia. }
    exists i, p. split; [done|]. split; [done|]. split; [done|]. split; [simpl; by apply alter_insert|].
    split; [unfold kill_proc; by case_bool_decide|]. split; [unfold kill_proc; by case_bool_decide|].
    intros j q Hq Hqp. symmetry. apply (iv_uniq _ _ _ _ _ I i j (core p) (core q)); [by apply cores_lookup | by apply cores_lookup | done | simpl; congruence].
  - split; [done|]. right. split; [done|]. split; [done|]. right. right. by apply (find_pid_none _ _ _ Hf).
Qed.
End Calls.

(** ** A call of the demonstration kernel *)

#[local] Opaque ProcDemo.s0 ProcDemo.y4.
Module CallDemo.
(** The state of ProcThm's run in which init has forked and waits and its
    child runs, with word [v] as first argument of the child's call. *)
Definition s : proc_st () := sy_st ProcDemo.y4.
Definition tf : Z := p_trapframe (ps_proc s !!! 1%nat).
Definition with_arg (v : Z) : kern () :=
  Kern _ (ProcSt _ (ps_proc s) (ps_nextpid s) (ps_init s) (set_ka_mem (store64 (ka_mem (ps_ka s)) (tf + OFF_A0) v) (ps_ka s)) (ps_env s))
    (CallStats (fun _ => 0) 0 0) zero_counters 0 0 0.
Lemma private_mem (s : proc_st ()) m : same_cores s (ProcSt _ (ps_proc s) (ps_nextpid s) (ps_init s) m (ps_env s)).
Proof. by split_and!. Qed.
Lemma with_arg_reachable v : rtc (sys_step KERNBASE ProcDemo.TRAMP 0 ProcDemo.paddr ProcDemo.paddr) (Sys ProcDemo.s0 ProcDemo.no_hart) (Sys (kn_ps (with_arg v)) (sy_cpu ProcDemo.y4)).
Proof.
  apply rtc_r with (Sys s (sy_cpu ProcDemo.y4)).
  - unfold s. rewrite <- ProcDemo.sys_eta. exact ProcDemo.demo_y4.
  - apply (sys_private _ _ _ _ _ s (kn_ps (with_arg v)) (sy_cpu ProcDemo.y4)). apply private_mem.
Qed.
End CallDemo.

Lemma sys_sbrk_bounds_witness : exists k', sys_sbrk KERNBASE 1 (CallDemo.with_arg 8192) = Ret 0 k'.
Proof.
  destruct (sys_sbrk_bounds KERNBASE (CallDemo.with_arg 8192) 1 (ps_proc CallDemo.s !!! 1%nat)) as [_ Hs];
    [vm_compute; reflexivity | vm_compute; split; discriminate|]. apply Hs; [vm_compute; split; discriminate | vm_compute; discriminate | vm_compute; discriminate].
Defined.

Lemma sys_kill_effect_witness : exists r k', sys_kill 1 (CallDemo.with_arg 2) = Ret r k' /\ r = 0.
Proof.
  destruct (sys_kill_effect KERNBASE ProcDemo.TRAMP 0 ProcDemo.paddr ProcDemo.paddr (Sys ProcDemo.s0 ProcDemo.no_hart)
    (CallDemo.with_arg 2) (sy_cpu ProcDemo.y4) 1 ProcDemo.demo_booted (CallDemo.with_arg_reachable 2)) as (r & k' & HR & _ & [[Hr _]|(_ & _ & Hno)]);
    exists r, k'; (split; [exact HR|]); [exact Hr|]. exfalso.
  assert (i32 (arg_word (CallDemo.with_arg 2) 1 0) = 2) as E by (vm_compute; reflexivity). rewrite E in Hno.
  destruct Hno as [Hno|[Hno|Hno]]; [discriminate Hno || lia | lia |].
  apply (Hno 1%nat (ps_proc CallDemo.s !!! 1%nat)); vm_compute; reflexivity.
Defined.
