(* ===== verification/Trap.v ===== *)
(** Traps (src/kernel/trap.c): entry from user space and from the kernel,
    device and clock interrupts, and the return to user space.

    The supervisor registers of the hart are part of the state.  What the
    device interrupt handlers and the interrupt controller do is a parameter
    (Console.v has the console's handler); [now] is what [r_time()] returns.
    A trap that gives up the CPU, in [yield] or [kexit], is the outcome
    [Sleep]; a process that comes back from [yield] continues with
    [usertrap_return]. *)

From S2P Require Import Prelude.
From S2P Require Import KString.
From S2P Require Import Riscv.
From S2P Require Import Kalloc.
From S2P Require Import Vm.
From S2P Require Import Locks.
From S2P Require Import Proc.
From S2P Require Import Syscall.

Definition SSTATUS_SPP : Z := 2 ^ 8.
Definition SSTATUS_SPIE : Z := 2 ^ 5.
Definition SSTATUS_SIE : Z := 2 ^ 1.
Definition SATP_SV39 : Z := 8 * 2 ^ 60.
Definition MAKE_SATP (pagetable : Z) : Z := Z.lor SATP_SV39 (Z.shiftr pagetable 12).
Definition UART0_IRQ : Z := 10.
Definition VIRTIO0_IRQ : Z := 1.
(** Offsets in a trapframe. *)
Definition OFF_KSATP : Z := 0.
Definition OFF_KSP : Z := 8.
Definition OFF_KTRAP : Z := 16.
Definition OFF_EPC : Z := 24.
Definition OFF_KHARTID : Z := 32.

Record regs := Regs { r_sstatus : Z; r_sepc : Z; r_scause : Z; r_stval : Z; r_stvec : Z; r_satp : Z; r_stimecmp : Z }.
Definition w_sstatus x r := Regs x (r_sepc r) (r_scause r) (r_stval r) (r_stvec r) (r_satp r) (r_stimecmp r).
Definition w_sepc x r := Regs (r_sstatus r) x (r_scause r) (r_stval r) (r_stvec r) (r_satp r) (r_stimecmp r).
Definition w_stvec x r := Regs (r_sstatus r) (r_sepc r) (r_scause r) (r_stval r) x (r_satp r) (r_stimecmp r).
Definition w_stimecmp x r := Regs (r_sstatus r) (r_sepc r) (r_scause r) (r_stval r) (r_stvec r) (r_satp r) x.
Definition intr_on r := w_sstatus (Z.lor (r_sstatus r) SSTATUS_SIE) r.
Definition intr_off r := w_sstatus (Z.land (r_sstatus r) (u64 (Z.lnot SSTATUS_SIE))) r.
Definition intr_get r : bool := truth (Z.land (r_sstatus r) SSTATUS_SIE).

Inductive trap_stat := t_syscall_count | t_pagefault_count | t_interrupt_count | t_exception_count | t_unknown_trap_count.
#[global] Instance trap_stat_eq_dec : EqDecision trap_stat.
Proof. solve_decision. Defined.

Record trap_st {E : Type} := TrapSt { tr_kern : kern E; tr_regs : regs; tr_stats : counters trap_stat }.
Arguments trap_st : clear implicits.

Section Trap.
Context (end_ trampoline uservec kernelvec usertrap_addr : Z) (proc_addr : nat -> Z) (ticks_addr : Z).
Context {E : Type} `{FileEnv E}.
(** The devices. *)
Context (uartintr virtio_disk_intr : M (kern E) ()) (plic_claim : M (kern E) Z) (plic_complete : Z -> M (kern E) ()).
(** The table of system calls. *)
Context (syscalls : nat -> Z -> option (M (kern E) Z)).
Abbreviation TM := (M (trap_st E)).

Definition knM {A} (m : M (kern E) A) : TM A := zoom tr_kern (fun k t => TrapSt _ k (tr_regs t) (tr_stats t)) m.
Definition on_regs (f : regs -> regs) : TM () := modify (fun t => TrapSt _ (tr_kern t) (f (tr_regs t)) (tr_stats t)).
Definition reg (f : regs -> Z) : TM Z := gets (fun t => f (tr_regs t)).
Definition note_trap (f : trap_stat) : TM () := modify (fun t => TrapSt _ (tr_kern t) (tr_regs t) (incr f (tr_stats t))).

Definition trapinit : TM () := modify (fun t => TrapSt _ (tr_kern t) (tr_regs t) zero_counters).
Definition trapinithart : TM () := on_regs (w_stvec kernelvec).

(** On hart [h], with process [me] of the hart for [wakeup]. *)
Definition clockintr (h : nat) (me : option nat) (now : Z) : TM () :=
  (when (h =? 0)%nat do
     knM (modify (fun k => set_kn_ticks (u32 (kn_ticks k + 1)) k) ;;;
          psM (on_table (wakeup me ticks_addr)))) ;;;
  on_regs (w_stimecmp (u64 (now + 1000000))).

Definition devintr (h : nat) (me : option nat) (now : Z) : TM Z :=
  let* scause := reg r_scause in
  if scause =? 0x8000000000000009 then
    let* irq := knM plic_claim in
    (if irq =? UART0_IRQ then knM uartintr
     else if irq =? VIRTIO0_IRQ then knM virtio_disk_intr else skip) ;;;
    (when truth irq do knM (plic_complete irq)) ;;;
    mreturn 1
  else if scause =? 0x8000000000000005 then
    clockintr h me now ;;; mreturn 2
  else mreturn 0.

Definition prepare_return (h me : nat) : TM () :=
  on_regs intr_off ;;;
  on_regs (w_stvec (u64 (TRAMPOLINE + (uservec - trampoline)))) ;;;
  let* p := knM (psM (proc_at me)) in
  let* satp := reg r_satp in
  knM (set_tf_word me OFF_KSATP satp) ;;;
  knM (set_tf_word me OFF_KSP (p_kstack p + PGSIZE)) ;;;
  knM (set_tf_word me OFF_KTRAP usertrap_addr) ;;;
  knM (set_tf_word me OFF_KHARTID (Z.of_nat h)) ;;;
  let* ksp := knM (tf_word me OFF_KSP) in
  if ksp =? 0 then panic "prepare_return: invalid kernel stack" else
  let* ksatp := knM (tf_word me OFF_KSATP) in
  if ksatp =? 0 then panic "prepare_return: invalid kernel page table" else
  on_regs (fun r => w_sstatus (Z.lor (Z.land (r_sstatus r) (u64 (Z.lnot SSTATUS_SPP))) SSTATUS_SPIE) r) ;;;
  let* epc := knM (tf_word me OFF_EPC) in
  on_regs (w_sepc epc).

(** The end of [usertrap], also for a process that has come back from [yield]. *)
Definition usertrap_return (h me : nat) : TM Z :=
  prepare_return h me ;;;
  let* p := knM (psM (proc_at me)) in
  mreturn (MAKE_SATP (p_pagetable p)).

(** The branch of [usertrap] for a system call. *)
Definition usertrap_syscall (me : nat) : TM () :=
  note_trap t_syscall_count ;;;
  let* k := knM (psM (killed me)) in
  (when (k : bool) do knM (psM (kexit proc_addr me (-1)))) ;;;
  let* epc := knM (tf_word me OFF_EPC) in
  knM (set_tf_word me OFF_EPC (u64 (epc + 4))) ;;;
  on_regs intr_on ;;;
  knM (syscall (syscalls me) me).

(** The branches for a page fault and for an unknown trap. *)
Definition usertrap_fault (me : nat) (scause stval : Z) : TM () :=
  let* p := knM (psM (proc_at me)) in
  let* handled :=
    (if (scause =? 15) || (scause =? 13) then
       let* mem := knM (psM (memM (vmfault end_ (p_sz p) (p_pagetable p) (p_pagetable p) stval))) in
       mreturn (truth mem)
     else mreturn false) in
  if handled : bool then note_trap t_pagefault_count else
  note_trap t_exception_count ;;;
  note_trap t_unknown_trap_count ;;;
  knM (psM (setkilled me)).

Definition usertrap (h me : nat) (now : Z) : TM Z :=
  let* sstatus := reg r_sstatus in
  if truth (Z.land sstatus SSTATUS_SPP) then panic "usertrap: not from user mode" else
  on_regs (w_stvec kernelvec) ;;;
  let* sepc := reg r_sepc in
  knM (set_tf_word me OFF_EPC sepc) ;;;
  let* scause := reg r_scause in
  let* stval := reg r_stval in
  let* which_dev :=
    (if scause =? 8 then usertrap_syscall me ;;; mreturn 0 else
     let* which_dev := devintr h (Some me) now in
     if negb (which_dev =? 0) then note_trap t_interrupt_count ;;; mreturn which_dev else
     usertrap_fault me scause stval ;;; mreturn 0) in
  let* k := knM (psM (killed me)) in
  (when (k : bool) do knM (psM (kexit proc_addr me (-1)))) ;;;
  (when (which_dev =? 2) do knM (psM (yield me))) ;;;
  usertrap_return h me.

(** [me] is the process of the hart, [None] in the scheduler. *)
Definition kerneltrap (h : nat) (me : option nat) (now : Z) : TM () :=
  let* sepc := reg r_sepc in
  let* sstatus := reg r_sstatus in
  if negb (truth (Z.land sstatus SSTATUS_SPP)) then panic "kerneltrap: not from supervisor mode" else
  let* r := gets tr_regs in
  if intr_get r then panic "kerneltrap: interrupts enabled" else
  let* which_dev := devintr h me now in
  if which_dev =? 0 then panic "kerneltrap" else
  (match me with
   | Some i => when (which_dev =? 2) do knM (psM (yield i))
   | None => skip
   end) ;;;
  on_regs (w_sepc sepc) ;;;
  on_regs (w_sstatus sstatus).
End Trap.
