(* ===== verification/TrapProof.v ===== *)
(** A system call from the trap to the return to user space. *)

From S2P Require Import Prelude.
From S2P Require Import KString.
From S2P Require Import Riscv.
From S2P Require Import Kalloc.
From S2P Require Import Vm.
From S2P Require Import Locks.
From S2P Require Import Proc.
From S2P Require Import ProcProof.
From S2P Require Import ProcThm.
From S2P Require Import Syscall.
From S2P Require Import SyscallProof.
From S2P Require Import Trap.

(** Words of a memory. *)
Lemma load_store_apart m a b v : b + 8 <= a \/ a + 8 <= b -> load64 (store64 m a v) b = load64 m b.
Proof. intros Hab. apply load64_ext. intros x Hx. apply store64_frame. lia. Qed.

Section Trap.
Context (end_ trampoline uservec kernelvec usertrap_addr : Z) (proc_addr : nat -> Z) (ticks_addr : Z).
Context {E : Type} `{FileEnv E}.
Context (uartintr virtio_disk_intr : M (kern E) ()) (plic_claim : M (kern E) Z) (plic_complete : Z -> M (kern E) ()).
Context (syscalls : nat -> Z -> option (M (kern E) Z)).
Abbreviation usertrap := (usertrap end_ trampoline uservec kernelvec usertrap_addr proc_addr ticks_addr uartintr virtio_disk_intr plic_claim plic_complete syscalls).

(** ** The parts of the state *)

Definition kmemory (k : kern E) : mem := ka_mem (ps_ka (kn_ps k)).
Definition kproc (k : kern E) (me : nat) : proc := ps_proc (kn_ps k) !!! me.
Definition set_memory (m : mem) (k : kern E) : kern E :=
  let s := kn_ps k in set_kn_ps (ProcSt _ (ps_proc s) (ps_nextpid s) (ps_init s) (set_ka_mem m (ps_ka s)) (ps_env s)) k.
(** Word [off] of the trapframe of [me]. *)
Definition tfw (k : kern E) (me : nat) (off : Z) : Z := load64 (kmemory k) (p_trapframe (kproc k me) + off).
Definition set_tfw (me : nat) (off v : Z) (k : kern E) : kern E :=
  set_memory (store64 (kmemory k) (p_trapframe (kproc k me) + off) v) k.

Lemma tf_word_run me off k : tf_word me off k = Ret (tfw k me off) k.
Proof. by destruct k. Qed.
Lemma set_tf_word_run me off v k : set_tf_word me off v k = Ret tt (set_tfw me off v k).
Proof. by destruct k. Qed.
Lemma proc_at_run me k : psM (proc_at me) k = Ret (kproc k me) k.
Proof. by destruct k. Qed.
Lemma killed_run me k : psM (killed me) k = Ret (p_killed (kproc k me)) k.
Proof. by destruct k. Qed.
Lemma knM_ret {A} (m : M (kern E) A) t a k : m (tr_kern t) = Ret a k -> knM m t = Ret a (TrapSt _ k (tr_regs t) (tr_stats t)).
Proof. unfold knM, zoom. by intros ->. Qed.
Lemma trap_eta (t : trap_st E) : TrapSt _ (tr_kern t) (tr_regs t) (tr_stats t) = t.
Proof. by destruct t. Qed.

(** One step of a run: a register access, or a kernel routine whose run is [H]. *)
Ltac step_regs := erewrite mthen_ret by reflexivity; cbn [tr_kern tr_regs tr_stats].
Ltac step_kern H := erewrite mthen_ret by (apply knM_ret, H); cbn [tr_kern tr_regs tr_stats].

Lemma kproc_set_tfw me off v k i : kproc (set_tfw me off v k) i = kproc k i.
Proof. done. Qed.
Lemma tfw_set_eq me off v k : 0 <= v < 2 ^ 64 -> tfw (set_tfw me off v k) me off = v.
Proof. intros Hv. unfold tfw. rewrite kproc_set_tfw. by apply load_store64. Qed.
Lemma tfw_set_ne me off off' v k : off' + 8 <= off \/ off + 8 <= off' -> tfw (set_tfw me off v k) me off' = tfw k me off'.
Proof. intros Ho. unfold tfw. rewrite kproc_set_tfw. apply load_store_apart. lia. Qed.

(** ** Return to user space *)

(** The trapframe after [prepare_return]. *)
Definition return_frame (h me : nat) (satp : Z) (k : kern E) : kern E :=
  set_tfw me OFF_KHARTID (Z.of_nat h) (set_tfw me OFF_KTRAP usertrap_addr (set_tfw me OFF_KSP (p_kstack (kproc k me) + PGSIZE) (set_tfw me OFF_KSATP satp k))).

Lemma return_frame_word h me satp k off : 40 <= off \/ off = OFF_EPC -> tfw (return_frame h me satp k) me off = tfw k me off.
Proof. intros Ho. unfold return_frame, OFF_KHARTID, OFF_KTRAP, OFF_KSP, OFF_KSATP, OFF_EPC in *. by rewrite !tfw_set_ne by lia. Qed.

(** The registers after it. *)
Definition return_regs (epc : Z) (r : regs) : regs :=
  Regs (Z.lor (Z.land (Z.land (r_sstatus r) (u64 (Z.lnot SSTATUS_SIE))) (u64 (Z.lnot SSTATUS_SPP))) SSTATUS_SPIE)
       epc (r_scause r) (r_stval r) (u64 (TRAMPOLINE + (uservec - trampoline))) (r_satp r) (r_stimecmp r).

Lemma prepare_return_run h me k r st :
  0 < p_kstack (kproc k me) + PGSIZE < 2 ^ 64 -> 0 < r_satp r < 2 ^ 64 ->
  prepare_return trampoline uservec usertrap_addr h me (TrapSt _ k r st)
  = Ret tt (TrapSt _ (return_frame h me (r_satp r) k) (return_regs (tfw k me OFF_EPC) r) st).
Proof.
  intros Hsp Hsatp. unfold prepare_return. do 2 step_regs. step_kern proc_at_run. step_regs.
  do 4 step_kern set_tf_word_run. step_kern tf_word_run.
  match goal with |- context [tfw ?x me OFF_KSP] => change x with (return_frame h me (r_satp r) k) end.
  assert (tfw (return_frame h me (r_satp r) k) me OFF_KSP = p_kstack (kproc k me) + PGSIZE) as ->.
  { unfold return_frame, OFF_KHARTID, OFF_KTRAP, OFF_KSP, OFF_KSATP. rewrite !tfw_set_ne by lia. apply tfw_set_eq. lia. }
  destruct (Z.eqb_spec (p_kstack (kproc k me) + PGSIZE) 0); [lia|]. step_kern tf_word_run.
  assert (tfw (return_frame h me (r_satp r) k) me OFF_KSATP = r_satp r) as ->.
  { unfold return_frame, OFF_KHARTID, OFF_KTRAP, OFF_KSP, OFF_KSATP. rewrite !tfw_set_ne by lia. apply tfw_set_eq. lia. }
  destruct (Z.eqb_spec (r_satp r) 0); [lia|]. step_regs. step_kern tf_word_run. rewrite return_frame_word by (by right). reflexivity.
Qed.
(** ** System calls *)

(** The statistics of [syscall] for call [num]. *)
Definition counted (num : Z) (k : kern E) : kern E :=
  let c := kn_calls k in
  set_kn_calls (CallStats (fun n => if n =? num then u64 (syscall_count c n + 1) else syscall_count c n) (u64 (total_calls c + 1)) (failed_calls c)) k.
(** The kernel as the handler of the call finds it. *)
Definition handler_entry (me : nat) (num sepc : Z) (k : kern E) : kern E :=
  counted num (set_tfw me OFF_EPC (u64 (sepc + 4)) (set_tfw me OFF_EPC sepc k)).

Lemma syscall_run table me k f v k2 :
  let num := i32 (tfw k me OFF_A7) in
  0 < num < NSYSCALLS -> table num = Some f -> f (counted num k) = Ret v k2 -> syscall table me k = Ret tt (set_tfw me OFF_A0 v k2).
Proof.
  intros num Hn Ht Hf. unfold syscall. rewrite (mthen_ret _ _ _ _ _ (tf_word_run me OFF_A7 k)). fold num.
  destruct (Z.gtb_spec num 0); [|lia]. destruct (Z.ltb_spec num NSYSCALLS); [|lia]. cbn [andb]. rewrite Ht.
  rewrite (mthen_ret _ _ _ tt (counted num k)) by reflexivity. rewrite (mthen_ret _ _ _ _ _ Hf). apply set_tf_word_run.
Qed.

Lemma usertrap_syscall_run me k r st f v k2 :
  let num := i32 (tfw k me OFF_A7) in
  p_killed (kproc k me) = false -> 0 < num < NSYSCALLS -> syscalls me num = Some f ->
  f (counted num (set_tfw me OFF_EPC (u64 (tfw k me OFF_EPC + 4)) k)) = Ret v k2 ->
  usertrap_syscall proc_addr syscalls me (TrapSt _ k r st) = Ret tt (TrapSt _ (set_tfw me OFF_A0 v k2) (intr_on r) (incr t_syscall_count st)).
Proof.
  intros num Hk Hn Ht Hf. unfold usertrap_syscall. step_regs. step_kern killed_run. rewrite Hk. step_regs. step_kern tf_word_run.
  step_kern set_tf_word_run. step_regs. apply knM_ret. cbn [tr_kern].
  assert (i32 (tfw (set_tfw me OFF_EPC (u64 (tfw k me OFF_EPC + 4)) k) me OFF_A7) = num) as En.
  { rewrite tfw_set_ne; [done|]. unfold OFF_EPC, OFF_A7. lia. }
  apply syscall_run with f; rewrite ?En; done.
Qed.

Lemma return_status s :
  let x := Z.lor (Z.land (Z.land s (u64 (Z.lnot SSTATUS_SIE))) (u64 (Z.lnot SSTATUS_SPP))) SSTATUS_SPIE in
  Z.testbit x 8 = false /\ Z.testbit x 5 = true /\ Z.testbit x 1 = false.
Proof.
  cbv zeta. rewrite !Z.lor_spec, !Z.land_spec.
  change (Z.testbit (u64 (Z.lnot SSTATUS_SPP)) 8) with false. change (Z.testbit SSTATUS_SPIE 8) with false.
  change (Z.testbit SSTATUS_SPIE 5) with true. change (Z.testbit (u64 (Z.lnot SSTATUS_SIE)) 1) with false. change (Z.testbit SSTATUS_SPIE 1) with false.
  by rewrite ?andb_false_r, ?orb_true_r.
Qed.

(** C9: a system call, from the trap to the return.  For an ecall (cause 8)
    from user mode by a process that has not been killed, with a known number
    in a7 whose handler returns [v]: the handler runs with the saved user pc
    already past the ecall; usertrap then returns the satp value of the
    process's page table, with [v] in a0, every other saved user register as
    the handler left it, sepc set to the saved user pc, traps directed to the
    trampoline, and sstatus ready for user mode (SPP clear, SPIE set) with
    interrupts off until then. *)
Theorem usertrap_ecall t h me now f v k2 :
  let k := tr_kern t in let r := tr_regs t in let num := i32 (tfw k me OFF_A7) in
  Z.land (r_sstatus r) SSTATUS_SPP = 0 -> r_scause r = 8 -> 0 <= r_sepc r < 2 ^ 64 -> 0 < r_satp r < 2 ^ 64 ->
  p_killed (kproc k me) = false -> 0 < num < NSYSCALLS -> syscalls me num = Some f ->
  f (handler_entry me num (r_sepc r) k) = Ret v k2 -> 0 <= v < 2 ^ 64 ->
  p_killed (kproc k2 me) = false -> 0 < p_kstack (kproc k2 me) + PGSIZE < 2 ^ 64 ->
  tfw (handler_entry me num (r_sepc r) k) me OFF_EPC = u64 (r_sepc r + 4)
  /\ exists k' r', usertrap h me now t = Ret (MAKE_SATP (p_pagetable (kproc k2 me))) (TrapSt _ k' r' (incr t_syscall_count (tr_stats t)))
    /\ tfw k' me OFF_A0 = v
    /\ (forall off, 40 <= off -> off + 8 <= OFF_A0 \/ OFF_A0 + 8 <= off -> tfw k' me off = tfw k2 me off)
    /\ ps_proc (kn_ps k') = ps_proc (kn_ps k2)
    /\ r_sepc r' = tfw k2 me OFF_EPC /\ r_stvec r' = u64 (TRAMPOLINE + (uservec - trampoline))
    /\ Z.testbit (r_sstatus r') 8 = false /\ Z.testbit (r_sstatus r') 5 = true /\ Z.testbit (r_sstatus r') 1 = false.
Proof.
  intros k r num Hspp Hcause Hsepc Hsatp Hk Hn Ht Hf Hv Hk2 Hsp.
  split; [unfold handler_entry; change (tfw (counted num ?x) me OFF_EPC) with (tfw x me OFF_EPC); apply tfw_set_eq, u64_range|].
  set (k3 := set_tfw me OFF_A0 v k2).
  exists (return_frame h me (r_satp r) k3), (return_regs (tfw k3 me OFF_EPC) (intr_on (w_stvec kernelvec r))). split.
  - unfold Trap.usertrap. destruct t as [k0 r0 st0]. cbn [tr_kern tr_regs tr_stats] in *. subst k r.
    step_regs. rewrite Hspp. cbn [truth negb Z.eqb]. do 2 step_regs. step_kern set_tf_word_run. do 2 step_regs.
    cbn [r_scause w_stvec]. rewrite Hcause. change (8 =? 8) with true. cbv iota.
    erewrite mthen_ret; [|erewrite mthen_ret; [reflexivity|]; apply (usertrap_syscall_run me _ _ _ f v k2)]; cbn [tr_kern tr_regs tr_stats].
    + step_kern killed_run. rewrite kproc_set_tfw, Hk2. step_regs. change (0 =? 2) with false. step_regs. unfold usertrap_return.
      erewrite mthen_ret by (apply prepare_return_run; [by rewrite kproc_set_tfw | done]). step_kern proc_at_run. reflexivity.
    + exact Hk.
    + rewrite tfw_set_ne by (unfold OFF_EPC, OFF_A7; lia). exact Hn.
    + rewrite tfw_set_ne by (unfold OFF_EPC, OFF_A7; lia). exact Ht.
    + rewrite tfw_set_eq by done. rewrite tfw_set_ne by (unfold OFF_EPC, OFF_A7; lia). exact Hf.
  - assert (forall off, off + 8 <= OFF_A0 \/ OFF_A0 + 8 <= off -> tfw k3 me off = tfw k2 me off) as Hoff by (intros; apply tfw_set_ne; lia).
    split; [rewrite return_frame_word by (left; unfold OFF_A0; lia); by apply tfw_set_eq|].
    split; [intros off H40 Ho; rewrite return_frame_word by lia; by apply Hoff|].
    split; [done|]. split; [simpl; apply Hoff; unfold OFF_EPC, OFF_A0; lia|]. split; [done|]. apply return_status.
Qed.
End Trap.

(** ** getpid by the demonstration kernel *)

Module TrapDemo.
(** The child process traps with the number of getpid in a7. *)
Definition k : kern () := set_tfw 1 OFF_A7 SYS_getpid (CallDemo.with_arg 0).
Definition r : regs := Regs 0 4096 8 0 0 (MAKE_SATP KERNBASE) 0.
Definition t : trap_st () := TrapSt _ k r zero_counters.
Definition table (me : nat) (num : Z) : option (M (kern ()) Z) :=
  syscalls KERNBASE ProcDemo.TRAMP 0 ProcDemo.paddr ProcDemo.paddr 1 (fun _ => None) 0 me num.
Lemma getpid_run me (k : kern ()) : sys_getpid me k = Ret (u64 (p_pid (kproc k me))) (tallied getpid_count k).
Proof. by destruct k. Qed.
Lemma k_num : i32 (tfw (tr_kern t) 1 OFF_A7) = SYS_getpid.
Proof. vm_compute. reflexivity. Qed.
Definition at_entry : kern () := handler_entry 1 SYS_getpid 4096 k.
End TrapDemo.

Lemma usertrap_ecall_witness :
  exists k' r', Trap.usertrap KERNBASE 0 0 4096 8192 ProcDemo.paddr 1 skip skip (mreturn 0) (fun _ => skip) TrapDemo.table 1 1 0 TrapDemo.t
      = Ret (MAKE_SATP (p_pagetable (kproc (tallied getpid_count TrapDemo.at_entry) 1))) (TrapSt _ k' r' (incr t_syscall_count (tr_stats TrapDemo.t)))
    /\ tfw k' 1 OFF_A0 = 2 /\ r_sepc r' = 4100.
Proof.
  destruct (usertrap_ecall KERNBASE 0 0 4096 8192 ProcDemo.paddr 1 skip skip (mreturn 0) (fun _ => skip) TrapDemo.table TrapDemo.t 1 1 0
    (sys_getpid 1) 2 (tallied getpid_count TrapDemo.at_entry)) as [_ (k' & r' & HR & H0 & _ & _ & Hp & _)];
    rewrite ?TrapDemo.k_num;
    [reflexivity | reflexivity | cbn; lia | vm_compute; split; congruence | vm_compute; reflexivity
    | vm_compute; split; congruence | reflexivity | | lia | vm_compute; reflexivity | vm_compute; split; congruence |].
  - change (handler_entry 1 SYS_getpid (r_sepc (tr_regs TrapDemo.t)) (tr_kern TrapDemo.t)) with TrapDemo.at_entry.
    rewrite TrapDemo.getpid_run. f_equal.
  - exists k', r'. split; [exact HR|]. split; [exact H0|]. rewrite Hp. vm_compute. reflexivity.
Defined.
