(* ===== verification/Sysfile.v ===== *)
(** File system calls (src/kernel/sysfile.c) and the file calls of proc.c.

    The state is the kernel of Syscall.v with the open files of File.v as its
    file environment, and the counters of this file.  Paths are fetched by
    [argstr] into a kernel buffer and read from there as the characters up to
    the NUL.  [kexec] (src/kernel/exec.c) is a parameter; so are the device
    functions, as in File.v, and the addresses of the buffers on the kernel
    stack. *)

From S2P Require Import Prelude.
From S2P Require Import KString.
From S2P Require Import Riscv.
From S2P Require Import Kalloc.
From S2P Require Import Vm.
From S2P Require Import Bytes.
From S2P Require Import BlockCache.
From S2P Require Import TxStore.
From S2P Require Import UserMem.
From S2P Require Import Pipe.
From S2P Require Import Fs.
From S2P Require Import FsDir.
From S2P Require Import File.
From S2P Require Import Proc.
From S2P Require Import Syscall.

Definition MAXPATH : Z := 128.
Definition MAXARG : nat := 32.
Definition O_RDONLY : Z := 0x000.
Definition O_WRONLY : Z := 0x001.
Definition O_RDWR : Z := 0x002.
Definition O_CREATE : Z := 0x200.
Definition O_TRUNC : Z := 0x400.
Definition T_FILE : Z := 2.
Definition T_DEVICE : Z := 3.
Definition DOT : list Z := [46].
Definition DOTDOT : list Z := [46; 46].

Inductive file_stat := open_count | close_count | read_count | write_count | link_count | unlink_count | mkdir_count | failed_ops.
#[global] Instance file_stat_eq_dec : EqDecision file_stat.
Proof. solve_decision. Defined.

Record sf_st {T U : Type} := SfSt { sf_kern : kern (file_st T U); sf_stats : counters file_stat }.
Arguments sf_st : clear implicits.

Definition set_i_nlink n ip := Inode (i_dev ip) (i_inum ip) (i_ref ip) (i_lock ip) (i_valid ip) (i_type ip) (i_major ip) (i_minor ip) n (i_size ip) (i_addrs ip).
(** [ip->major = major; ip->minor = minor; ip->nlink = 1;] *)
Definition init_inode major minor ip := Inode (i_dev ip) (i_inum ip) (i_ref ip) (i_lock ip) (i_valid ip) (i_type ip) major minor 1 (i_size ip) (i_addrs ip).

(** The characters of the C string at [a], at most [fuel]. *)
Fixpoint cstr (fuel : nat) (m : mem) (a : Z) : list Z :=
  match fuel with
  | O => []
  | S fuel' => if m a =? 0 then [] else m a :: cstr fuel' m (a + 1)
  end.

(** The scan of [fdalloc] from descriptor [fd]. *)
Fixpoint find_fd (ofile : list (option nat)) (fd : nat) : option nat :=
  match ofile with
  | [] => None
  | None :: _ => Some fd
  | Some _ :: ofile' => find_fd ofile' (S fd)
  end.

Section Sysfile.
Context {T H U : Type} `{TxOps T H} `{UserMem U}.
Context (end_ : Z) (dev_read dev_write : Z -> option (Z -> Z -> M (file_st T U) Z)).
(** Kernel stack: two path buffers, a word, and the padding of [struct stat]. *)
Context (path0 path1 word : Z) (pad : list Z).
Context (kexec : nat -> list Z -> list Z -> M (kern (file_st T U)) Z).
Abbreviation SM := (M (sf_st T U)).

(** The file calls of proc.c, for the process with number [pid]. *)
Definition file_env (pid : Z) : FileEnv (file_st T U) := {|
  fe_filedup f := filedup (Some f) ;;; skip;
  fe_fileclose f := fileclose pid (Some f);
  fe_idup ip := fsM (idup ip) ;;; skip;
  fe_iput ip := fsM (txM tx_begin_op ;;; iput pid ip ;;; txM tx_end_op);
  fe_root := fsM (namei pid 0 [SLASH]) |}.

Definition kernM {A} (m : M (kern (file_st T U)) A) : SM A := zoom sf_kern (fun k s => SfSt _ _ k (sf_stats s)) m.
Definition fileM {A} (m : M (file_st T U) A) : SM A := kernM (psM (envM m)).
Definition inodeM {A} (m : M (fs_st T U) A) : SM A := fileM (fsM m).
Definition procM {A} (m : M (proc_st (file_st T U)) A) : SM A := kernM (psM m).
Definition count_file (f : file_stat) : SM () := modify (fun s => SfSt _ _ (sf_kern s) (incr f (sf_stats s))).
(** [file_stats.failed_ops++; return -1;] *)
Definition fail_op : SM Z := count_file failed_ops ;;; mreturn (u64 (-1)).
Definition begin_op : SM () := inodeM (txM tx_begin_op).
Definition end_op : SM () := inodeM (txM tx_end_op).
Definition file_stats_init : SM () := modify (fun s => SfSt _ _ (sf_kern s) zero_counters).

Section Process.
(** The calling process. *)
Context (me : nat).
Definition myproc : SM proc := procM (proc_at me).
Definition mypid : SM Z := let* p := myproc in mreturn (p_pid p).
Definition set_ofile (fd : nat) (f : option nat) : SM () := procM (set_proc me (fun p => set_p_ofile (<[fd := f]> (p_ofile p)) p)).

(** ** Descriptors *)

Definition validate_fd (fd : Z) (p : proc) : bool :=
  if (fd <? 0) || (fd >=? Z.of_nat NOFILE) then false else
  match p_ofile p !!! Z.to_nat fd with None => false | Some _ => true end.

(** [None] for -1. *)
Definition argfd (n : Z) : SM (option (nat * nat)) :=
  let* fd := kernM (argint me n) in
  let* p := myproc in
  if negb (validate_fd fd p) then count_file failed_ops ;;; mreturn None else
  match p_ofile p !!! Z.to_nat fd with
  | Some f => mreturn (Some (Z.to_nat fd, f))
  | None => mreturn None
  end.

Definition fdalloc (f : nat) : SM (option nat) :=
  let* p := myproc in
  match find_fd (p_ofile p) 0 with
  | Some fd => set_ofile fd (Some f) ;;; mreturn (Some fd)
  | None => count_file failed_ops ;;; mreturn None
  end.

Definition sys_dup : SM Z :=
  let* r := argfd 0 in
  match r with
  | None => mreturn (u64 (-1))
  | Some (_, f) =>
      let* fd := fdalloc f in
      match fd with
      | None => mreturn (u64 (-1))
      | Some fd => fileM (filedup (Some f)) ;;; mreturn (Z.of_nat fd)
      end
  end.

Definition sys_read : SM Z :=
  count_file read_count ;;;
  let* p := kernM (argaddr me 1) in
  let* n := kernM (argint me 2) in
  if (n <? 0) || (n >? 1024 * 1024) then fail_op else
  let* r := argfd 0 in
  match r with
  | None => mreturn (u64 (-1))
  | Some (_, f) =>
      let* proc := myproc in
      let* result := fileM (fileread (p_pid proc) (p_killed proc) dev_read (Some f) p n) in
      mreturn (u64 result)
  end.

Definition sys_write : SM Z :=
  count_file write_count ;;;
  let* p := kernM (argaddr me 1) in
  let* n := kernM (argint me 2) in
  if (n <? 0) || (n >? 1024 * 1024) then fail_op else
  let* r := argfd 0 in
  match r with
  | None => mreturn (u64 (-1))
  | Some (_, f) =>
      let* proc := myproc in
      let* result := fileM (filewrite (p_pid proc) (p_killed proc) dev_write (Some f) p n) in
      mreturn (u64 result)
  end.

Definition sys_close : SM Z :=
  count_file close_count ;;;
  let* r := argfd 0 in
  match r with
  | None => mreturn (u64 (-1))
  | Some (fd, f) =>
      set_ofile fd None ;;;
      let* pid := mypid in
      fileM (fileclose pid (Some f)) ;;;
      mreturn 0
  end.

Definition sys_fstat : SM Z :=
  let* st := kernM (argaddr me 1) in
  let* r := argfd 0 in
  match r with
  | None => mreturn (u64 (-1))
  | Some (_, f) =>
      let* pid := mypid in
      let* result := fileM (filestat pid pad (Some f) st) in
      mreturn (u64 result)
  end.

(** ** Paths *)

(** [argstr(n, buf, MAXPATH)]: its value and the string in [buf]. *)
Definition argpath (n buf : Z) : SM (Z * list Z) :=
  let* len := kernM (argstr me n buf MAXPATH) in
  let* m := gets (fun s => ka_mem (ps_ka (kn_ps (sf_kern s)))) in
  mreturn (len, cstr (Z.to_nat MAXPATH) m buf).

(** Path lookups by the calling process. *)
Definition my_cwd : SM nat :=
  let* p := myproc in
  match p_cwd p with Some ip => mreturn ip | None => panic "null dereference" end.
Definition my_namei (path : list Z) : SM (option nat) :=
  let* pid := mypid in let* cwd := my_cwd in inodeM (namei pid cwd path).
Definition my_nameiparent (path : list Z) : SM (option nat * list Z) :=
  let* pid := mypid in let* cwd := my_cwd in inodeM (nameiparent pid cwd path (replicate DIRSIZ 0)).
Definition lock_inode (ip : nat) : SM inode :=
  let* pid := mypid in inodeM (ilock pid (Some ip)) ;;; inodeM (inode_at ip).
Definition unlock_inode (ip : nat) : SM () := let* pid := mypid in inodeM (iunlock pid (Some ip)).
Definition unlockput (ip : nat) : SM () := let* pid := mypid in inodeM (iunlockput pid ip).
Definition my_dirlink (dp : nat) (name : list Z) (inum : Z) : SM Z := let* pid := mypid in inodeM (dirlink pid dp name inum).
(** [ip->nlink += d; iupdate(ip);] *)
Definition add_nlink (ip : nat) (d : Z) : SM () :=
  inodeM (set_inode ip (fun i => set_i_nlink (i16 (i_nlink i + d)) i)) ;;; inodeM (iupdate ip).

(** The part of [sys_link] after [bad:]. *)
Definition link_bad (ip : nat) : SM Z :=
  lock_inode ip ;;;
  add_nlink ip (-1) ;;;
  unlockput ip ;;;
  end_op ;;;
  fail_op.

Definition sys_link : SM Z :=
  count_file link_count ;;;
  let* old := argpath 0 path0 in
  if old.1 <? 0 then fail_op else
  let* new := argpath 1 path1 in
  if new.1 <? 0 then fail_op else
  begin_op ;;;
  let* ip := my_namei old.2 in
  match ip with
  | None => end_op ;;; fail_op
  | Some ip =>
      let* i := lock_inode ip in
      if i_type i =? T_DIR then unlockput ip ;;; end_op ;;; fail_op else
      add_nlink ip 1 ;;;
      unlock_inode ip ;;;
      let* r := my_nameiparent new.2 in
      match r with
      | (None, _) => link_bad ip
      | (Some dp, name) =>
          let* d := lock_inode dp in
          let* i := inodeM (inode_at ip) in
          let* linked := (if negb (i_dev d =? i_dev i) then mreturn false
                          else let* w := my_dirlink dp name (i_inum i) in mreturn (negb (w <? 0))) in
          if negb (linked : bool) then unlockput dp ;;; link_bad ip else
          unlockput dp ;;;
          let* pid := mypid in
          inodeM (iput pid ip) ;;;
          end_op ;;;
          mreturn 0
      end
  end.

Fixpoint isdirempty_loop (fuel : nat) (dp : nat) (off : Z) : M (fs_st T U) bool :=
  match fuel with
  | O => diverge
  | S fuel' =>
      let* d := inode_at dp in
      if negb (off <? i_size d) then mreturn true else
      let* de := read_dirent dp off "isdirempty: readi" in
      if negb (de_inum de =? 0) then mreturn false else isdirempty_loop fuel' dp (i32 (off + SZ_DIRENT))
  end.
Definition isdirempty (dp : nat) : M (fs_st T U) bool :=
  let* d := inode_at dp in isdirempty_loop (S (Z.to_nat (i_size d))) dp (2 * SZ_DIRENT).

Definition unlink_bad (dp : nat) : SM Z := unlockput dp ;;; end_op ;;; fail_op.

Definition sys_unlink : SM Z :=
  count_file unlink_count ;;;
  let* path := argpath 0 path0 in
  if path.1 <? 0 then fail_op else
  begin_op ;;;
  let* r := my_nameiparent path.2 in
  match r with
  | (None, _) => end_op ;;; fail_op
  | (Some dp, name) =>
      lock_inode dp ;;;
      if namecmp name DOT || namecmp name DOTDOT then unlink_bad dp else
      let* e := inodeM (dirlookup dp name) in
      match e with
      | None => unlink_bad dp
      | Some (ip, off) =>
          let* i := lock_inode ip in
          if i_nlink i <? 1 then panic "unlink: nlink < 1" else
          let* empty := (if i_type i =? T_DIR then inodeM (isdirempty ip) else mreturn true) in
          if negb (empty : bool) then unlockput ip ;;; unlink_bad dp else
          let* w := inodeM (writei dp (KernelSrc (replicate (Z.to_nat SZ_DIRENT) 0)) off SZ_DIRENT) in
          if negb (w =? SZ_DIRENT) then panic "unlink: writei" else
          (when (i_type i =? T_DIR) do add_nlink dp (-1)) ;;;
          unlockput dp ;;;
          add_nlink ip (-1) ;;;
          unlockput ip ;;;
          end_op ;;;
          mreturn 0
      end
  end.

(** The part of [create] after [fail:]. *)
Definition create_fail (ip dp : nat) : SM (option nat) :=
  inodeM (set_inode ip (set_i_nlink 0)) ;;;
  inodeM (iupdate ip) ;;;
  unlockput ip ;;;
  unlockput dp ;;;
  mreturn None.

(** [None] for 0; the inode is locked. *)
Definition create (path : list Z) (type major minor : Z) : SM (option nat) :=
  let* r := my_nameiparent path in
  match r with
  | (None, _) => mreturn None
  | (Some dp, name) =>
      let* d := lock_inode dp in
      let* e := inodeM (dirlookup dp name) in
      match e with
      | Some (ip, _) =>
          unlockput dp ;;;
          let* i := lock_inode ip in
          if (type =? T_FILE) && ((i_type i =? T_FILE) || (i_type i =? T_DEVICE)) then mreturn (Some ip)
          else unlockput ip ;;; mreturn None
      | None =>
          let* ip := inodeM (ialloc (i_dev d) type) in
          match ip with
          | None => unlockput dp ;;; mreturn None
          | Some ip =>
              let* i := lock_inode ip in
              inodeM (set_inode ip (init_inode (i16 major) (i16 minor))) ;;;
              inodeM (iupdate ip) ;;;
              let* dots := (if type =? T_DIR then
                              let* w := my_dirlink ip DOT (i_inum i) in
                              if w <? 0 then mreturn false else
                              let* w := my_dirlink ip DOTDOT (i_inum d) in mreturn (negb (w <? 0))
                            else mreturn true) in
              if negb (dots : bool) then create_fail ip dp else
              let* w := my_dirlink dp name (i_inum i) in
              if w <? 0 then create_fail ip dp else
              (when (type =? T_DIR) do add_nlink dp 1) ;;;
              unlockput dp ;;;
              mreturn (Some ip)
          end
      end
  end.

(** ** Open *)

(** The assignments to the new file of [sys_open]. *)
Definition open_file (omode : Z) (i : inode) (ip : nat) (f : file) : file :=
  let dev := i_type i =? T_DEVICE in
  File (if dev then FD_DEVICE else FD_INODE) (f_ref f)
       (negb (truth (Z.land omode O_WRONLY))) (truth (Z.land omode O_WRONLY) || truth (Z.land omode O_RDWR))
       (f_pipe f) (Some ip) (if dev then f_off f else 0) (if dev then i_major i else f_major f).

(** From the check of the device number on, with [ip] locked. *)
Definition open_inode (omode : Z) (ip : nat) : SM Z :=
  let* i := inodeM (inode_at ip) in
  if (i_type i =? T_DEVICE) && ((i_major i <? 0) || (i_major i >=? NDEV)) then unlockput ip ;;; end_op ;;; fail_op else
  let* f := fileM filealloc in
  match f with
  | None => unlockput ip ;;; end_op ;;; fail_op
  | Some f =>
      let* fd := fdalloc f in
      match fd with
      | None =>
          let* pid := mypid in
          fileM (fileclose pid (Some f)) ;;; unlockput ip ;;; end_op ;;; fail_op
      | Some fd =>
          fileM (set_file f (open_file omode i ip)) ;;;
          (when (truth (Z.land omode O_TRUNC) && (i_type i =? T_FILE)) do inodeM (itrunc ip)) ;;;
          unlock_inode ip ;;;
          end_op ;;;
          mreturn (Z.of_nat fd)
      end
  end.

Definition sys_open : SM Z :=
  count_file open_count ;;;
  let* omode := kernM (argint me 1) in
  let* path := argpath 0 path0 in
  if path.1 <? 0 then fail_op else
  if (path.1 <=? 0) || (path.1 >=? MAXPATH) then fail_op else
  begin_op ;;;
  if truth (Z.land omode O_CREATE) then
    let* ip := create path.2 T_FILE 0 0 in
    match ip with
    | None => end_op ;;; fail_op
    | Some ip => open_inode omode ip
    end
  else
    let* ip := my_namei path.2 in
    match ip with
    | None => end_op ;;; fail_op
    | Some ip =>
        let* i := lock_inode ip in
        if (i_type i =? T_DIR) && negb (omode =? O_RDONLY) then unlockput ip ;;; end_op ;;; fail_op
        else open_inode omode ip
    end.

Definition sys_mkdir : SM Z :=
  count_file mkdir_count ;;;
  begin_op ;;;
  let* path := argpath 0 path0 in
  let* ip := (if path.1 <? 0 then mreturn None else create path.2 T_DIR 0 0) in
  match ip with
  | None => end_op ;;; fail_op
  | Some ip => unlockput ip ;;; end_op ;;; mreturn 0
  end.

Definition sys_mknod : SM Z :=
  begin_op ;;;
  let* major := kernM (argint me 1) in
  let* minor := kernM (argint me 2) in
  let* path := argpath 0 path0 in
  let* ip := (if path.1 <? 0 then mreturn None else create path.2 T_DEVICE major minor) in
  match ip with
  | None => end_op ;;; fail_op
  | Some ip => unlockput ip ;;; end_op ;;; mreturn 0
  end.

Definition sys_chdir : SM Z :=
  begin_op ;;;
  let* path := argpath 0 path0 in
  let* ip := (if path.1 <? 0 then mreturn None else my_namei path.2) in
  match ip with
  | None => end_op ;;; mreturn (u64 (-1))
  | Some ip =>
      let* i := lock_inode ip in
      if negb (i_type i =? T_DIR) then unlockput ip ;;; end_op ;;; mreturn (u64 (-1)) else
      unlock_inode ip ;;;
      let* pid := mypid in
      let* cwd := my_cwd in
      inodeM (iput pid cwd) ;;;
      end_op ;;;
      procM (set_proc me (set_p_cwd (Some ip))) ;;;
      mreturn 0
  end.

(** ** Exec *)

(** [for(i = 0; i < NELEM(argv) && argv[i] != 0; i++) kfree(argv[i]);] *)
Definition free_args (argv : list Z) : SM () := mfor argv (fun a => procM (memM (kfree end_ a))).

(** The loop of [sys_exec] at [i], with the pages filled so far: whether it
    reached the null pointer, and the pages. *)
Fixpoint fetch_args (fuel : nat) (uargv i : Z) (argv : list Z) : SM (bool * list Z) :=
  match fuel with
  | O => mreturn (false, argv)
  | S fuel' =>
      let* r := kernM (fetchaddr end_ me (u64 (uargv + 8 * i)) word) in
      if r <? 0 then mreturn (false, argv) else
      let* uarg := gets (fun s => load64 (ka_mem (ps_ka (kn_ps (sf_kern s)))) word) in
      if uarg =? 0 then mreturn (true, argv) else
      let* page := procM (memM kalloc) in
      if page =? 0 then mreturn (false, argv) else
      let* n := kernM (fetchstr me uarg page PGSIZE) in
      if n <? 0 then mreturn (false, argv ++ [page]) else
      fetch_args fuel' uargv (i + 1) (argv ++ [page])
  end.

Definition sys_exec : SM Z :=
  let* uargv := kernM (argaddr me 1) in
  let* path := argpath 0 path0 in
  if path.1 <? 0 then mreturn (u64 (-1)) else
  let* r := fetch_args MAXARG uargv 0 [] in
  let '(ok, argv) := r in
  if negb ok then free_args argv ;;; fail_op else
  let* ret := kernM (kexec me path.2 argv) in
  free_args argv ;;;
  mreturn (u64 ret).

(** ** Pipes *)

Definition copyout_int (v addr : Z) : SM Z :=
  let* p := myproc in
  procM (memM (modify (fun k => set_ka_mem (store_le 4 (ka_mem k) word v) k) ;;;
               copyout end_ (p_sz p) (p_pagetable p) (p_pagetable p) addr word 4)).

Definition close_both (rf wf : nat) : SM () :=
  let* pid := mypid in
  fileM (fileclose pid (Some rf)) ;;;
  fileM (fileclose pid (Some wf)).

Definition sys_pipe : SM Z :=
  let* fdarray := kernM (argaddr me 0) in
  let* pid := mypid in
  let* r := fileM (pipealloc pid) in
  match r with
  | None => fail_op
  | Some (rf, wf) =>
      let* fd0 := fdalloc rf in
      match fd0 with
      | None => close_both rf wf ;;; fail_op
      | Some fd0 =>
          let* fd1 := fdalloc wf in
          match fd1 with
          | None => set_ofile fd0 None ;;; close_both rf wf ;;; fail_op
          | Some fd1 =>
              let* c0 := copyout_int (Z.of_nat fd0) fdarray in
              let* c1 := (if c0 <? 0 then mreturn (-1) else copyout_int (Z.of_nat fd1) (u64 (fdarray + 4))) in
              if c1 <? 0 then
                set_ofile fd0 None ;;;
                set_ofile fd1 None ;;;
                close_both rf wf ;;;
                fail_op
              else mreturn 0
          end
      end
  end.
End Process.
End Sysfile.
