(* ===== verification/Exec.v ===== *)
(** Program loading (src/kernel/exec.c, src/kernel/elf.h).

    [kexec] runs on the kernel's state of Syscall and the statistics of
    exec.c.  The ELF headers are read from the file as bytes; a segment goes
    to the physical pages its addresses translate to.  [ustack] is the address
    of the array of that name on the kernel stack, and [ip0] the value that
    the uninitialised variable [ip] happens to hold.  Messages are not part of
    the state; the null tests of the two validation routines and of [loadseg]
    are on addresses of variables and are left out. *)

From S2P Require Import Prelude.
From S2P Require Import KString.
From S2P Require Import Riscv.
From S2P Require Import Kalloc.
From S2P Require Import Vm.
From S2P Require Import Bytes.
From S2P Require Import TxStore.
From S2P Require Import UserMem.
From S2P Require Import Fs.
From S2P Require Import FsDir.
From S2P Require Import File.
From S2P Require Import Proc.
From S2P Require Import Syscall.
From S2P Require Import Trap.
From S2P Require Import Sysfile.

Definition MAX_EXEC_SIZE : Z := 256 * 1024 * 1024.
Definition MAX_ARG_LEN : Z := 4096.
Definition USERSTACK : Z := 1.
Definition ELF_MAGIC : Z := 0x464C457F.
Definition ELF_PROG_LOAD : Z := 1.
Definition ELF_PROG_FLAG_EXEC : Z := 1.
Definition ELF_PROG_FLAG_WRITE : Z := 2.
Definition ELF_PROG_FLAG_READ : Z := 4.
Definition OFF_A1 : Z := 120.
Definition OFF_SP : Z := 48.

(** ** Headers *)

Record elfhdr := Elfhdr {
  elf_magic : Z; elf_elf : list Z; elf_type : Z; elf_machine : Z; elf_version : Z; elf_entry : Z; elf_phoff : Z;
  elf_shoff : Z; elf_flags : Z; elf_ehsize : Z; elf_phentsize : Z; elf_phnum : Z; elf_shentsize : Z; elf_shnum : Z;
  elf_shstrndx : Z }.
Record proghdr := Proghdr {
  ph_type : Z; ph_flags : Z; ph_off : Z; ph_vaddr : Z; ph_paddr : Z; ph_filesz : Z; ph_memsz : Z; ph_align : Z }.

Definition SZ_ELFHDR : Z := 64.
Definition SZ_PROGHDR : Z := 56.
Definition get_elfhdr (b : list Z) : elfhdr :=
  Elfhdr (get_uint 0 b) (take 12 (drop 4 b)) (get_ushort 16 b) (get_ushort 18 b) (get_uint 20 b) (get 8 24 b) (get 8 32 b)
    (get 8 40 b) (get_uint 48 b) (get_ushort 52 b) (get_ushort 54 b) (get_ushort 56 b) (get_ushort 58 b) (get_ushort 60 b)
    (get_ushort 62 b).
Definition get_proghdr (b : list Z) : proghdr :=
  Proghdr (get_uint 0 b) (get_uint 4 b) (get 8 8 b) (get 8 16 b) (get 8 24 b) (get 8 32 b) (get 8 40 b) (get 8 48 b).

Definition flags2perm (flags : Z) : Z :=
  if (flags <? 0) || (flags >? 7) then 0 else
  let perm := if truth (Z.land flags ELF_PROG_FLAG_EXEC) then PTE_X else 0 in
  let perm := if truth (Z.land flags ELF_PROG_FLAG_WRITE) then Z.lor perm PTE_W else perm in
  let perm := if truth (Z.land flags ELF_PROG_FLAG_READ) then Z.lor perm PTE_R else perm in
  if truth (Z.land perm (Z.lor (Z.lor PTE_R PTE_W) PTE_X)) then Z.lor perm PTE_U else perm.

Definition validate_elf_header (elf : elfhdr) : Z :=
  if negb (elf_magic elf =? ELF_MAGIC) then -1 else
  if (elf_phnum elf =? 0) || (elf_phnum elf >? 16) then -1 else
  if (elf_entry elf =? 0) || (elf_entry elf >=? MAXVA) then -1 else
  if (elf_phoff elf <? SZ_ELFHDR) || (elf_phoff elf >? MAX_EXEC_SIZE) then -1 else
  if negb (elf_ehsize elf =? SZ_ELFHDR) then -1 else
  0.

(** [exec_stats] *)
Record exec_stats := ExecStats { total_execs : Z; failed_execs : Z; security_violations : Z }.

Record x_st {T U : Type} := XSt { x_kern : kern (file_st T U); x_stats : exec_stats }.
Arguments x_st : clear implicits.

(** [for(last=s=path; *s; s++) if( *s == '/') last = s+1;] *)
Fixpoint last_name (last s : list Z) : list Z :=
  match s with
  | [] => last
  | c :: s' => last_name (if c =? SLASH then s' else last) s'
  end.

Definition printable (path : list Z) : bool := forallb (fun c => negb ((c <? 0x20) || (c >? 0x7E))) path.

Section Exec.
Context {T H U : Type} `{TxOps T H} `{UserMem U}.
Context (end_ trampoline : Z) (ustack : Z) (ip0 : option nat).
Abbreviation XM := (M (x_st T U)).

Definition kernX {A} (m : M (kern (file_st T U)) A) : XM A := zoom x_kern (fun k s => XSt _ _ k (x_stats s)) m.
Definition procX {A} (m : M (proc_st (file_st T U)) A) : XM A := kernX (psM m).
Definition memX {A} (m : M kalloc_st A) : XM A := procX (memM m).
Definition fsX {A} (m : M (fs_st T U) A) : XM A := procX (envM (fsM m)).
Definition set_stats (f : exec_stats -> exec_stats) : XM () := modify (fun s => XSt _ _ (x_kern s) (f (x_stats s))).

Definition validate_program_header (ph : proghdr) : XM Z :=
  if negb (ph_type ph =? ELF_PROG_LOAD) then mreturn 0 else
  if ph_memsz ph <? ph_filesz ph then mreturn (-1) else
  if u64 (ph_vaddr ph + ph_memsz ph) <? ph_vaddr ph then mreturn (-1) else
  if negb (ph_vaddr ph mod PGSIZE =? 0) then mreturn (-1) else
  if (ph_vaddr ph >=? MAXVA) || (u64 (ph_vaddr ph + ph_memsz ph) >=? MAXVA) then mreturn (-1) else
  if Z.land (ph_flags ph) (Z.lor ELF_PROG_FLAG_WRITE ELF_PROG_FLAG_EXEC) =? Z.lor ELF_PROG_FLAG_WRITE ELF_PROG_FLAG_EXEC then
    set_stats (fun e => ExecStats (total_execs e) (failed_execs e) (u64 (security_violations e + 1))) ;;;
    mreturn (-1)
  else
  if ph_off ph >? MAX_EXEC_SIZE then mreturn (-1) else
  mreturn 1.

(** The bytes [readi] puts at a physical address. *)
Fixpoint store_list (m : mem) (pa : Z) (xs : list Z) : mem :=
  match xs with
  | [] => m
  | x :: xs' => store_list (store8 m pa x) (pa + 1) xs'
  end.

(** The loop of [loadseg] at [i]. *)
Fixpoint loadseg_loop (fuel : nat) (pagetable va : Z) (ip : nat) (offset sz i : Z) : XM Z :=
  match fuel with
  | O => diverge
  | S fuel' =>
      if negb (i <? sz) then mreturn 0 else
      let* pa := memX (walkaddr pagetable (u64 (va + i))) in
      if pa =? 0 then mreturn (-1) else
      let n := if u32 (sz - i) <? PGSIZE then u32 (sz - i) else PGSIZE in
      let* r := fsX (readi ip KernelDst (u32 (offset + i)) n) in
      memX (modify (fun s => set_ka_mem (store_list (ka_mem s) pa r.2) s)) ;;;
      if negb (r.1 =? n) then mreturn (-1) else
      loadseg_loop fuel' pagetable va ip offset sz (u32 (i + PGSIZE))
  end.

Definition loadseg (pagetable va : Z) (ip : nat) (offset sz : Z) : XM Z :=
  if negb (va mod PGSIZE =? 0) then mreturn (-1) else
  if sz =? 0 then mreturn 0 else
  let* ino := fsX (inode_at ip) in
  if (offset >=? i_size ino) || (u32 (offset + sz) >? i_size ino) then mreturn (-1) else
  loadseg_loop (S (Z.to_nat (sz / PGSIZE + 1))) pagetable va ip offset sz 0.

Section Process.
Context (me : nat).
Definition myprocX : XM proc := procX (proc_at me).
Definition unlockputX (ip : nat) : XM () := let* p := myprocX in fsX (iunlockput (p_pid p) ip).

(** The part of [kexec] after [bad:]. *)
Definition bad (pagetable sz : Z) (ip : option nat) : XM Z :=
  (when negb (pagetable =? 0) do memX (proc_freepagetable end_ pagetable sz)) ;;;
  (match ip with
   | Some i => unlockputX i ;;; fsX (txM tx_end_op)
   | None => skip
   end) ;;;
  set_stats (fun e => ExecStats (total_execs e) (u64 (failed_execs e + 1)) (security_violations e)) ;;;
  mreturn (-1).

(** The loop over the program headers, with [n] of them left: whether all went
    well, and [sz]. *)
Fixpoint load_segments (n : nat) (pagetable : Z) (ip : nat) (off sz : Z) : XM (bool * Z) :=
  match n with
  | O => mreturn (true, sz)
  | S n' =>
      let* r := fsX (readi ip KernelDst (u32 off) SZ_PROGHDR) in
      if negb (r.1 =? SZ_PROGHDR) then mreturn (false, sz) else
      let ph := get_proghdr r.2 in
      let next := i32 (off + SZ_PROGHDR) in
      let* v := validate_program_header ph in
      if v <? 0 then mreturn (false, sz) else
      if v =? 0 then load_segments n' pagetable ip next sz else
      let* sz1 := memX (uvmalloc end_ pagetable sz (u64 (ph_vaddr ph + ph_memsz ph)) (flags2perm (i32 (ph_flags ph)))) in
      if sz1 =? 0 then mreturn (false, sz) else
      let* l := (if ph_filesz ph >? 0 then loadseg pagetable (ph_vaddr ph) ip (u32 (ph_off ph)) (u32 (ph_filesz ph)) else mreturn 0) in
      if l <? 0 then mreturn (false, sz1) else
      load_segments n' pagetable ip next sz1
  end.

(** The first loop over the arguments: whether they are accepted. *)
Fixpoint check_args (argc : Z) (argv : list Z) : XM bool :=
  match argv with
  | [] => mreturn true
  | a :: argv' =>
      if argc >=? Z.of_nat MAXARG then mreturn false else
      let* arg_len := memX (on_ks (strlen a)) in
      if arg_len >? MAX_ARG_LEN then mreturn false else
      check_args (argc + 1) argv'
  end.

(** [sp -= n; sp -= sp % 16;] *)
Definition push (sp n : Z) : Z := let sp := u64 (sp - n) in sp - sp mod 16.

(** [copyout(pagetable, sp, src, len)] by this process. *)
Definition copyoutX (pagetable sp src len : Z) : XM Z :=
  let* p := myprocX in memX (copyout end_ (p_sz p) (p_pagetable p) pagetable sp src len).
Definition set_ustack (j v : Z) : XM () := memX (modify (fun s => set_ka_mem (store64 (ka_mem s) (ustack + 8 * j) v) s)).

(** The loop that copies the argument strings from the [j]th on: the new [sp],
    or [None] on the way to [bad]. *)
Fixpoint push_args (pagetable stackbase j : Z) (argv : list Z) (sp : Z) : XM (option Z) :=
  match argv with
  | [] => mreturn (Some sp)
  | a :: argv' =>
      let* len := memX (on_ks (strlen a)) in
      let sp := push sp (len + 1) in
      if sp <? stackbase then mreturn None else
      let* r := copyoutX pagetable sp a (len + 1) in
      if r <? 0 then mreturn None else
      set_ustack j sp ;;;
      push_args pagetable stackbase (j + 1) argv' sp
  end.

(** From the stack on: [None] on the way to [bad]; the value is [sp] and [sz].
    [sz] is also what [bad] frees. *)
Definition build_stack (pagetable sz : Z) (argv : list Z) : XM (Z * option Z) :=
  let sz := PGROUNDUP sz in
  let* sz1 := memX (uvmalloc end_ pagetable sz (u64 (sz + (USERSTACK + 1) * PGSIZE)) PTE_W) in
  if sz1 =? 0 then mreturn (sz, None) else
  let sz := sz1 in
  memX (uvmclear pagetable (u64 (sz - (USERSTACK + 1) * PGSIZE))) ;;;
  let stackbase := u64 (sz - USERSTACK * PGSIZE) in
  let argc := Z.of_nat (length argv) in
  let* ok := check_args 0 argv in
  if negb ok then mreturn (sz, None) else
  let* sp := push_args pagetable stackbase 0 argv sz in
  match sp with
  | None => mreturn (sz, None)
  | Some sp =>
      set_ustack argc 0 ;;;
      let sp := push sp ((argc + 1) * 8) in
      if sp <? stackbase then mreturn (sz, None) else
      let* r := copyoutX pagetable sp ustack ((argc + 1) * 8) in
      if r <? 0 then mreturn (sz, None) else mreturn (sz, Some sp)
  end.

(** Commit to the new image. *)
Definition commit (path : list Z) (pagetable sz entry sp oldsz : Z) : XM () :=
  kernX (set_tf_word me OFF_A1 sp) ;;;
  memX (on_ks (count safestrcpy_calls)) ;;;
  procX (set_proc me (set_p_name (take 15 (last_name path path)))) ;;;
  let* p := myprocX in
  procX (set_proc me (set_p_pagetable pagetable)) ;;;
  procX (set_proc me (set_p_sz sz)) ;;;
  kernX (set_tf_word me OFF_EPC entry) ;;;
  kernX (set_tf_word me OFF_SP sp) ;;;
  memX (proc_freepagetable end_ (p_pagetable p) oldsz).

(** The file is open and locked: from its header to the end of the segments.
    The value is the page table, [sz] and the entry point, or what [bad] frees. *)
Definition load_image (ip : nat) : XM (Z * Z * Z + Z * Z) :=
  let* ino := fsX (inode_at ip) in
  if negb (i_type ino =? T_FILE) then mreturn (inr (0, 0)) else
  if i_size ino >? MAX_EXEC_SIZE then mreturn (inr (0, 0)) else
  if i_size ino <? SZ_ELFHDR then mreturn (inr (0, 0)) else
  let* r := fsX (readi ip KernelDst 0 SZ_ELFHDR) in
  if negb (r.1 =? SZ_ELFHDR) then mreturn (inr (0, 0)) else
  let elf := get_elfhdr r.2 in
  if validate_elf_header elf <? 0 then mreturn (inr (0, 0)) else
  let* p := myprocX in
  let* pagetable := memX (proc_pagetable end_ trampoline (p_trapframe p)) in
  if pagetable =? 0 then mreturn (inr (0, 0)) else
  let* r := load_segments (Z.to_nat (elf_phnum elf)) pagetable ip (i32 (elf_phoff elf)) 0 in
  if negb r.1 then mreturn (inr (pagetable, r.2)) else
  mreturn (inl (pagetable, r.2, elf_entry elf)).

Definition kexec (path argv : option (list Z)) : XM Z :=
  set_stats (fun e => ExecStats (u64 (total_execs e + 1)) (failed_execs e) (security_violations e)) ;;;
  match path, argv with
  | Some path, Some argv =>
      memX (on_ks (count strlen_calls)) ;;;
      let path_len := Z.of_nat (length path) in
      if (path_len =? 0) || (path_len >=? MAXPATH) then bad 0 0 ip0 else
      if negb (printable path) then bad 0 0 ip0 else
      fsX (txM tx_begin_op) ;;;
      let* p := myprocX in
      let* ip := (match p_cwd p with
                  | Some cwd => fsX (namei (p_pid p) cwd path)
                  | None => panic "null dereference"
                  end) in
      match ip with
      | None => fsX (txM tx_end_op) ;;; bad 0 0 None
      | Some ip =>
          fsX (ilock (p_pid p) (Some ip)) ;;;
          let* image := load_image ip in
          match image with
          | inr (pagetable, sz) => bad pagetable sz (Some ip)
          | inl (pagetable, sz, entry) =>
              unlockputX ip ;;;
              fsX (txM tx_end_op) ;;;
              let* p := myprocX in
              let oldsz := p_sz p in
              let* st := build_stack pagetable sz argv in
              match st with
              | (sz, None) => bad pagetable sz None
              | (sz, Some sp) =>
                  commit path pagetable sz entry sp oldsz ;;;
                  mreturn (Z.of_nat (length argv))
              end
          end
      end
  | _, _ => bad 0 0 ip0
  end.
End Process.

(** What [sys_exec] calls: the statistics are not part of its state. *)
Definition exec_call (st : exec_stats) (me : nat) (path argv : list Z) : M (kern (file_st T U)) Z :=
  fun k => match kexec me (Some path) (Some argv) (XSt _ _ k st) with
           | Ret r x => Ret r (x_kern x)
           | Panic msg => Panic msg
           | Sleep x => Sleep (x_kern x)
           | Diverge => Diverge
           end.
End Exec.
