(* ===== verification/SysfileProof.v ===== *)
(** Descriptors and reference counts: the count of every open file is the
    number of descriptors that refer to it, over all processes, and the calls
    that make, copy and close descriptors keep it so. *)

From S2P Require Import Prelude.
From S2P Require Import KString.
From S2P Require Import Riscv.
From S2P Require Import Kalloc.
From S2P Require Import Vm.
From S2P Require Import BlockCache.
From S2P Require Import TxStore.
From S2P Require Import UserMem.
From S2P Require Import Fs.
From S2P Require Import FsDir.
From S2P Require Import File.
From S2P Require Import FileProof.
From S2P Require Import Proc.
From S2P Require Import ProcProof.
From S2P Require Import Syscall.
From S2P Require Import SyscallProof.
From S2P Require Import Sysfile.

(** ** Counting descriptors *)

Definition one (o : option nat) (i : nat) : Z := if decide (o = Some i) then 1 else 0.
(** The descriptors of a process that refer to file [i], and those of all. *)
Fixpoint occ (i : nat) (l : list (option nat)) : Z :=
  match l with [] => 0 | o :: l' => one o i + occ i l' end.
Fixpoint descs (i : nat) (ps : list proc) : Z :=
  match ps with [] => 0 | p :: ps' => occ i (p_ofile p) + descs i ps' end.

Lemma one_none i : one None i = 0.
Proof. done. Qed.
Lemma one_range o i : 0 <= one o i <= 1.
Proof. unfold one. case_decide; lia. Qed.

Lemma occ_insert i l fd a b : l !! fd = Some a -> occ i (<[fd := b]> l) = occ i l - one a i + one b i.
Proof.
  revert fd. induction l as [|o l IH]; intros [|fd]; simpl; [done | done | |].
  - intros [= ->]. lia.
  - intros Hl. rewrite (IH fd Hl). lia.
Qed.
Lemma descs_insert i ps j p q : ps !! j = Some p -> descs i (<[j := q]> ps) = descs i ps - occ i (p_ofile p) + occ i (p_ofile q).
Proof.
  revert j. induction ps as [|x ps IH]; intros [|j]; simpl; [done | done | |].
  - intros [= ->]. lia.
  - intros Hl. rewrite (IH j Hl). lia.
Qed.
Lemma occ_bound i l : 0 <= occ i l <= Z.of_nat (length l).
Proof. induction l as [|o l IH]; simpl; [lia|]. pose proof (one_range o i). lia. Qed.

(** Room of the descriptor tables. *)
Definition olen (ps : list proc) : list nat := (fun p => length (p_ofile p)) <$> ps.
Lemma descs_bound i ps : 0 <= descs i ps <= Z.of_nat (sum_list (olen ps)).
Proof. induction ps as [|p ps IH]; simpl; [lia|]. pose proof (occ_bound i (p_ofile p)). unfold olen in *. lia. Qed.

(** A process that runs no code. *)
Definition dead (p : proc) : Prop := p_state p = UNUSED \/ p_state p = ZOMBIE.
(** The tables have their sizes, nobody dies, and the dead have their
    descriptors. *)
Definition same_room (ps ps' : list proc) : Prop :=
  olen ps' = olen ps /\ forall j p', ps' !! j = Some p' -> dead p' -> exists p, ps !! j = Some p /\ dead p /\ p_ofile p' = p_ofile p.
Lemma same_room_refl ps : same_room ps ps.
Proof. split; [done|]. intros j p Hp Hd. by exists p. Qed.
Lemma same_room_trans ps1 ps2 ps3 : same_room ps1 ps2 -> same_room ps2 ps3 -> same_room ps1 ps3.
Proof.
  intros [A1 A2] [B1 B2]. split; [congruence|]. intros j p3 Hp Hd. destruct (B2 j p3 Hp Hd) as (p2 & Hp2 & Hd2 & E2).
  destruct (A2 j p2 Hp2 Hd2) as (p1 & Hp1 & Hd1 & E1). exists p1. split; [done|]. split; [done | congruence].
Qed.
Lemma same_room_insert ps j p q :
  ps !! j = Some p -> length (p_ofile q) = length (p_ofile p) -> (dead q -> dead p /\ p_ofile q = p_ofile p) -> same_room ps (<[j := q]> ps).
Proof.
  intros Hp Hl Hd. split.
  - unfold olen. rewrite list_fmap_insert. apply list_insert_id. rewrite list_lookup_fmap, Hp. simpl. by rewrite Hl.
  - intros k y Hy Hdy. rewrite list_lookup_insert_Some in Hy. destruct Hy as [(<- & <- & _)|[_ Hy]]; [exists p; tauto | by exists y].
Qed.

(** ** Slack: references that no descriptor holds *)

Section Slack.
Context {T H U : Type} `{TxOps T H} `{UserMem U}.
Abbreviation FS := (file_st T U).
Implicit Types e : FS.

Definition counts (e : FS) : list Z := f_ref <$> ft_file e.
Definition slack (s : proc_st FS) (i : nat) : Z := default 0 (counts (ps_env s) !! i) - descs i (ps_proc s).

(** From [s] to [s'] the slack of file [i] grows by [x i]; the tables keep
    their sizes. *)
Definition moves (s : proc_st FS) (x : nat -> Z) (s' : proc_st FS) : Prop :=
  (forall i, slack s' i = slack s i + x i) /\ same_room (ps_proc s) (ps_proc s').
Definition even : nat -> Z := fun _ => 0.

Lemma moves_refl s : moves s even s.
Proof. split; [|apply same_room_refl]. intros i. unfold even. lia. Qed.
Lemma moves_trans s1 s2 s3 x y : moves s1 x s2 -> moves s2 y s3 -> moves s1 (fun i => x i + y i) s3.
Proof. intros [A1 A2] [B1 B2]. split; [intros i; rewrite B1, A1; lia | by eapply same_room_trans]. Qed.
Lemma moves_eq s1 s2 x y : moves s1 x s2 -> (forall i, x i = y i) -> moves s1 y s2.
Proof. intros [A1 A2] E. split; [intros i; rewrite A1, E; done | done]. Qed.

(** *** The file table *)

Lemma shape_counts e e' : same_shape e e' -> counts e' = counts e.
Proof.
  intros [Hf _ _ _]. apply list_eq. intros i. unfold counts. rewrite !list_lookup_fmap. specialize (Hf i).
  destruct (ft_file e !! i), (ft_file e' !! i); try done. simpl. f_equal. by destruct Hf as (_ & ? & _).
Qed.
Lemma counts_alter i f e fs : ft_file e !! i = Some fs -> f_ref <$> alter f i (ft_file e) = <[i := f_ref (f fs)]> (counts e).
Proof. intros Hf. rewrite (alter_insert _ _ _ _ Hf). apply list_fmap_insert. Qed.
Lemma set_file_counts i f e a e' : (forall g, f_ref (f g) = f_ref g) -> set_file i f e = Ret a e' -> counts e' = counts e.
Proof.
  intros Hf [= _ <-]. unfold counts. simpl. apply list_eq. intros j. rewrite !list_lookup_fmap. destruct (decide (i = j)) as [<-|].
  - rewrite list_lookup_alter_eq. destruct (ft_file e !! i); simpl; [by rewrite Hf | done].
  - by rewrite list_lookup_alter_ne.
Qed.

Lemma filealloc_counts e r e' :
  filealloc e = Ret r e' ->
  match r with
  | Some i => counts e !! i = Some 0 /\ counts e' = <[i := 1]> (counts e)
  | None => e' = e
  end.
Proof.
  unfold filealloc. rewrite mthen_gets. pose proof (find_unused_spec (ft_file e) 0) as Hs.
  destruct (find_unused (ft_file e) 0) as [i|]; [|by intros [= <- <-]]. destruct Hs as (f & _ & Hf & Hr & _). rewrite Nat.sub_0_r in Hf.
  intros [= <- <-]. unfold counts at 1. rewrite list_lookup_fmap, Hf. simpl. split; [by rewrite Hr|].
  unfold counts at 1. simpl. by rewrite (counts_alter i _ e f Hf).
Qed.

(** An entry of the table as [file_at] sees it, when its count is positive. *)
Lemma file_at_positive e i : 1 <= f_ref (ft_file e !!! i) -> ft_file e !! i = Some (ft_file e !!! i).
Proof. intros Hr. rewrite list_lookup_total_alt in *. destruct (ft_file e !! i); [done|]. simpl in Hr. lia. Qed.

Lemma filedup_counts e i r e' :
  filedup (Some i) e = Ret r e' -> exists n, counts e !! i = Some n /\ 1 <= n /\ counts e' = <[i := i32 (n + 1)]> (counts e).
Proof.
  unfold filedup, file_at. rewrite mthen_gets. destruct (Z.ltb_spec (f_ref (ft_file e !!! i)) 1) as [|Hr]; [done|].
  pose proof (file_at_positive e i Hr) as Hf. intros [= _ <-]. exists (f_ref (ft_file e !!! i)). unfold counts at 1. rewrite list_lookup_fmap, Hf.
  split; [done|]. split; [done|]. unfold counts at 1. simpl. by rewrite (counts_alter i _ e _ Hf).
Qed.

Lemma pipeclose_at_counts pi w e a e' : pipeclose_at pi w e = Ret a e' -> counts e' = counts e.
Proof.
  unfold pipeclose_at. rewrite mthen_gets. destruct (ft_pipe e !! pi) as [p|]; [|done].
  destruct (Pipe.pipeclose p w) as [p' [|]]; by intros [= _ <-].
Qed.

Lemma fileclose_counts pid e i a e' :
  fileclose pid (Some i) e = Ret a e' -> exists n, counts e !! i = Some n /\ 1 <= n /\ counts e' = <[i := n - 1]> (counts e).
Proof.
  unfold fileclose, file_at. rewrite mthen_gets. destruct (Z.ltb_spec (f_ref (ft_file e !!! i)) 1) as [|Hr]; [done|].
  pose proof (file_at_positive e i Hr) as Hf. set (f := ft_file e !!! i) in *. intros HR. exists (f_ref f).
  unfold counts at 1. rewrite list_lookup_fmap, Hf. split; [done|]. split; [done|].
  destruct (Z.gtb_spec (f_ref f - 1) 0).
  { injection HR as _ <-. unfold counts at 1. simpl. by rewrite (counts_alter i _ e f Hf). }
  step HR. assert (counts s1 = <[i := f_ref f - 1]> (counts e)) as <-.
  { injection R as _ <-. unfold counts at 1. simpl. rewrite (counts_alter i _ e f Hf). simpl. f_equal. lia. }
  destruct (f_type f); [by injection HR as _ <- | by eapply pipeclose_at_counts | |];
    (step HR; apply fsM_shape, shape_counts in R0; step HR; destruct (f_ip f); [|done]; apply fsM_shape, shape_counts in R1;
     apply fsM_shape, shape_counts in HR; congruence).
Qed.

Lemma pipealloc_counts pid e r e' :
  pipealloc pid e = Ret r e' ->
  match r with
  | Some (f0, f1) => f0 <> f1 /\ counts e !! f0 = Some 0 /\ counts e !! f1 = Some 0 /\ counts e' = <[f1 := 1]> (<[f0 := 1]> (counts e))
  | None => counts e' = counts e
  end.
Proof.
  unfold pipealloc. intros HR. step HR. pose proof (filealloc_counts _ _ _ R) as A. destruct a as [f0|]; [|injection HR as <- <-; by rewrite A].
  destruct A as [A0 A1]. step HR. pose proof (filealloc_counts _ _ _ R0) as B. destruct a as [f1|].
  2:{ subst s0. step HR. injection HR as <- <-. destruct (fileclose_counts _ _ _ _ _ R1) as (n & Hn & _ & ->).
      rewrite A1 in *. rewrite list_lookup_insert_eq in Hn by (by eapply lookup_lt_Some). injection Hn as <-.
      rewrite list_insert_insert_eq. by apply list_insert_id. }
  destruct B as [B0 B1]. rewrite A1 in B0. assert (f0 <> f1) as Hne.
  { intros ->. rewrite list_lookup_insert_eq in B0 by (by eapply lookup_lt_Some). done. }
  rewrite list_lookup_insert_ne in B0 by done. gstep HR. destruct (ft_free s0) as [|pi free'].
  - step HR. step HR. injection HR as <- <-. destruct (fileclose_counts _ _ _ _ _ R1) as (n & Hn & _ & E1).
    destruct (fileclose_counts _ _ _ _ _ R2) as (m & Hm & _ & ->). rewrite E1, B1, A1 in *.
    rewrite list_lookup_insert_ne, list_lookup_insert_eq in Hn by (done || by eapply lookup_lt_Some). injection Hn as <-.
    rewrite list_lookup_insert_ne, list_lookup_insert_eq in Hm by (done || rewrite length_insert; by eapply lookup_lt_Some). injection Hm as <-.
    apply list_eq. intros j. destruct (decide (j = f1)) as [->|]; [rewrite list_lookup_insert_eq, B0; [done|]|
      rewrite list_lookup_insert_ne by done; destruct (decide (j = f0)) as [->|]; [rewrite list_lookup_insert_eq, A0; [done|] | by rewrite !list_lookup_insert_ne]];
      rewrite !length_insert; by eapply lookup_lt_Some.
  - step HR. step HR. step HR. injection HR as <- <-. split; [done|]. split; [done|]. split; [done|]. rewrite <- A1, <- B1.
    rewrite (set_file_counts f1 (set_f_pipe false true pi) _ _ _ (fun _ => eq_refl) R3), (set_file_counts f0 (set_f_pipe true false pi) _ _ _ (fun _ => eq_refl) R2). by injection R1 as _ <-.
Qed.
(** *** Routines that touch neither descriptors nor counts *)

Definition quiet {S A} (get : S -> proc_st FS) (m : M S A) : Prop :=
  forall s a s', m s = Ret a s' -> ps_proc (get s') = ps_proc (get s) /\ counts (ps_env (get s')) = counts (ps_env (get s)).

Lemma quiet_moves {S A} (get : S -> proc_st FS) (m : M S A) s a s' : quiet get m -> m s = Ret a s' -> moves (get s) even (get s').
Proof. intros Hq HR. destruct (Hq _ _ _ HR) as [Ep Ec]. split; [|rewrite Ep; apply same_room_refl]. intros i. unfold slack, even. rewrite Ep, Ec. lia. Qed.
Lemma quiet_then {S A B} (get : S -> proc_st FS) (m : M S A) (k : A -> M S B) : quiet get m -> (forall a, quiet get (k a)) -> quiet get (mthen m k).
Proof.
  intros Hm Hk s b s' HR. apply mthen_inv in HR as (a & s1 & R1 & R2). destruct (Hk _ _ _ _ R2) as [-> ->]. exact (Hm _ _ _ R1).
Qed.
Lemma quiet_ret {S A} (get : S -> proc_st FS) (a : A) : quiet get (mreturn a).
Proof. by intros s b s' [= _ <-]. Qed.
Lemma quiet_skip {S} (get : S -> proc_st FS) : quiet get skip.
Proof. apply quiet_ret. Qed.
Lemma quiet_gets {S A} (get : S -> proc_st FS) (f : S -> A) : quiet get (gets f).
Proof. by intros s b s' [= _ <-]. Qed.
Lemma quiet_panic {S A} (get : S -> proc_st FS) msg : quiet get (panic (A:=A) msg).
Proof. done. Qed.
Lemma quiet_mem {A} (m : M kalloc_st A) : quiet (fun s => s) (memM (E:=FS) m).
Proof. intros s a s'. unfold memM, zoom. destruct (m (ps_ka s)); try done. by intros [= _ <-]. Qed.
Lemma quiet_env {A} (m : M FS A) : (forall e a e', m e = Ret a e' -> counts e' = counts e) -> quiet (fun s => s) (envM m).
Proof. intros Hm s a s'. unfold envM, zoom. destruct (m (ps_env s)) eqn:E; try done. intros [= _ <-]. split; [done|]. simpl. by eapply Hm. Qed.
Lemma quiet_proc_at j : quiet (fun s => s) (proc_at (E:=FS) j).
Proof. apply quiet_gets. Qed.
Lemma quiet_ps {A} (m : M (proc_st FS) A) : quiet (fun s => s) m -> quiet kn_ps (psM m).
Proof. intros Hm k a k'. unfold psM, zoom. destruct (m (kn_ps k)) eqn:E; try done. intros [= _ <-]. by apply (Hm _ _ _ E). Qed.
Definition pst (s : sf_st T U) : proc_st FS := kn_ps (sf_kern s).
Lemma quiet_kern {A} (m : M (kern FS) A) : quiet kn_ps m -> quiet pst (kernM m).
Proof. intros Hm s a s'. unfold kernM, zoom. destruct (m (sf_kern s)) eqn:E; try done. intros [= _ <-]. by apply (Hm _ _ _ E). Qed.
Lemma quiet_fs {A} (m : M (fs_st T U) A) : quiet pst (inodeM m).
Proof. apply quiet_kern, quiet_ps, quiet_env. intros e a e' HR. by apply shape_counts, (fsM_shape m e a). Qed.
Lemma quiet_count f : quiet pst (count_file (T:=T) (U:=U) f).
Proof. by intros s a s' [= _ <-]. Qed.
Lemma quiet_zoom_mem {A} (m : M kalloc_st A) : quiet pst (procM (memM m)).
Proof. apply quiet_kern, quiet_ps, quiet_mem. Qed.
Lemma quiet_mfor {S X} (get : S -> proc_st FS) (l : list X) (body : X -> M S ()) : (forall x, quiet get (body x)) -> quiet get (mfor l body).
Proof. intros Hb. induction l as [|x l IH]; simpl; [apply quiet_skip | by apply quiet_then]. Qed.
End Slack.

Create HintDb quiet.
#[export] Hint Resolve quiet_ret quiet_skip quiet_gets quiet_panic quiet_mem quiet_proc_at quiet_ps quiet_kern quiet_fs quiet_count quiet_zoom_mem : quiet.
(** A routine made of quiet ones. *)
Ltac quiet :=
  repeat match goal with
  | |- quiet _ (mthen _ _) => apply quiet_then; [|intros ?]
  | |- quiet _ (if ?b then _ else _) => destruct b
  | |- quiet _ (match ?x with _ => _ end) => destruct x
  | |- quiet _ (let '(_, _) := ?x in _) => destruct x
  | |- quiet _ _ => solve [auto with quiet]
  end.

(** ** The calls *)

Section Quiet.
Context {T H U : Type} `{TxOps T H} `{UserMem U}.
Context (end_ path0 path1 word : Z) (me : nat).
Abbreviation FS := (file_st T U).

Lemma tf_word_quiet off : quiet kn_ps (tf_word (E:=FS) me off).
Proof. unfold tf_word. quiet. Qed.
Lemma argraw_quiet n : quiet kn_ps (argraw (E:=FS) me n).
Proof. unfold argraw. destruct (_ && _); [apply tf_word_quiet | apply quiet_panic]. Qed.
Lemma argint_quiet n : quiet kn_ps (argint (E:=FS) me n).
Proof. unfold argint. apply quiet_then; [apply argraw_quiet | intros; apply quiet_ret]. Qed.
Lemma fetchstr_quiet addr buf max : quiet kn_ps (fetchstr (E:=FS) me addr buf max).
Proof. unfold fetchstr. quiet. Qed.
Lemma fetchaddr_quiet addr ip : quiet kn_ps (fetchaddr (E:=FS) end_ me addr ip).
Proof. unfold fetchaddr. quiet. Qed.
Lemma argstr_quiet n buf max : quiet kn_ps (argstr (E:=FS) me n buf max).
Proof. unfold argstr, argaddr. apply quiet_then; [apply argraw_quiet | intros; apply fetchstr_quiet]. Qed.
Lemma argpath_quiet n buf : quiet pst (argpath (T:=T) (U:=U) me n buf).
Proof. unfold argpath. apply quiet_then; [apply quiet_kern, argstr_quiet | intros; quiet]. Qed.
End Quiet.
#[export] Hint Resolve argraw_quiet argint_quiet fetchstr_quiet fetchaddr_quiet argstr_quiet argpath_quiet : quiet.

Section QuietCalls.
Context {T H U : Type} `{TxOps T H} `{UserMem U}.
Context (end_ path0 path1 word : Z) (kexec : nat -> list Z -> list Z -> M (kern (file_st T U)) Z) (me : nat).
Abbreviation SM := (M (sf_st T U)).

Lemma argaddr_quiet n : quiet kn_ps (argaddr (E:=file_st T U) me n).
Proof. apply argraw_quiet. Qed.
Lemma myproc_quiet : quiet pst (myproc me : SM proc).
Proof. apply quiet_kern, quiet_ps, quiet_proc_at. Qed.
Lemma mypid_quiet : quiet pst (mypid me : SM Z).
Proof. apply quiet_then; [apply myproc_quiet | intros; apply quiet_ret]. Qed.
Lemma begin_op_quiet : quiet pst (begin_op : SM ()).
Proof. apply quiet_fs. Qed.
Lemma end_op_quiet : quiet pst (end_op : SM ()).
Proof. apply quiet_fs. Qed.
Lemma fail_op_quiet : quiet pst (fail_op : SM Z).
Proof. unfold fail_op. quiet. Qed.
#[local] Hint Resolve argaddr_quiet myproc_quiet mypid_quiet begin_op_quiet end_op_quiet fail_op_quiet : quiet.
Lemma my_cwd_quiet : quiet pst (my_cwd me : SM nat).
Proof. unfold my_cwd. quiet. Qed.
#[local] Hint Resolve my_cwd_quiet : quiet.
Lemma my_namei_quiet path : quiet pst (my_namei me path : SM (option nat)).
Proof. unfold my_namei. quiet. Qed.
Lemma my_nameiparent_quiet path : quiet pst (my_nameiparent me path : SM (option nat * list Z)).
Proof. unfold my_nameiparent. quiet. Qed.
Lemma lock_inode_quiet ip : quiet pst (lock_inode me ip : SM inode).
Proof. unfold lock_inode. quiet. Qed.
Lemma unlock_inode_quiet ip : quiet pst (unlock_inode me ip : SM ()).
Proof. unfold unlock_inode. quiet. Qed.
Lemma unlockput_quiet ip : quiet pst (unlockput me ip : SM ()).
Proof. unfold unlockput. quiet. Qed.
Lemma my_dirlink_quiet dp name inum : quiet pst (my_dirlink me dp name inum : SM Z).
Proof. unfold my_dirlink. quiet. Qed.
Lemma add_nlink_quiet ip d : quiet pst (add_nlink ip d : SM ()).
Proof. unfold add_nlink. quiet. Qed.
#[local] Hint Resolve my_namei_quiet my_nameiparent_quiet lock_inode_quiet unlock_inode_quiet unlockput_quiet my_dirlink_quiet add_nlink_quiet : quiet.

Lemma create_quiet path type major minor : quiet pst (create me path type major minor : SM (option nat)).
Proof. unfold create, create_fail. quiet. Qed.
#[local] Hint Resolve create_quiet : quiet.
Lemma sys_link_quiet : quiet pst (sys_link path0 path1 me : SM Z).
Proof. unfold sys_link, link_bad. quiet. Qed.
Lemma sys_unlink_quiet : quiet pst (sys_unlink path0 me : SM Z).
Proof. unfold sys_unlink, unlink_bad. quiet. Qed.
Lemma sys_mkdir_quiet : quiet pst (sys_mkdir path0 me : SM Z).
Proof. unfold sys_mkdir. quiet. Qed.
Lemma sys_mknod_quiet : quiet pst (sys_mknod path0 me : SM Z).
Proof. unfold sys_mknod. quiet. Qed.

Lemma fetch_args_quiet fuel uargv i argv : quiet pst (fetch_args end_ word me fuel uargv i argv : SM (bool * list Z)).
Proof. revert i argv. induction fuel as [|fuel IH]; intros i argv; cbn [fetch_args]; quiet; apply IH. Qed.
Lemma free_args_quiet argv : quiet pst (free_args end_ argv : SM ()).
Proof. apply quiet_mfor. intros a. apply quiet_zoom_mem. Qed.
#[local] Hint Resolve fetch_args_quiet free_args_quiet : quiet.
Lemma sys_exec_quiet : (forall i path argv, quiet kn_ps (kexec i path argv)) -> quiet pst (sys_exec end_ path0 word kexec me).
Proof. intros Hk. unfold sys_exec. quiet. Qed.

End QuietCalls.

Section Moves.
Context {T H U : Type} `{TxOps T H} `{UserMem U}.
Context (me : nat).
Abbreviation FS := (file_st T U).
Implicit Types s : sf_st T U.

Lemma one_eq (i j : nat) : one (Some i) j = if decide (i = j) then 1 else 0.
Proof. unfold one. repeat case_decide; congruence. Qed.

(** A file call run by the process is one on its environment. *)
Lemma fileM_env {A} (m : M FS A) s a s' : fileM m s = Ret a s' -> envM m (pst s) = Ret a (pst s').
Proof. unfold fileM, kernM, psM, envM, zoom, pst. destruct (m (ps_env (kn_ps (sf_kern s)))); try done. by intros [= <- <-]. Qed.

(** One count of the file table changes. *)
Lemma envM_moves {A} (m : M FS A) (q : proc_st FS) a q' i d :
  envM m q = Ret a q' ->
  (forall e', m (ps_env q) = Ret a e' -> exists n, counts (ps_env q) !! i = Some n /\ counts e' = <[i := n + d]> (counts (ps_env q))) ->
  moves q (fun j => d * one (Some i) j) q' /\ ps_proc q' = ps_proc q.
Proof.
  unfold envM, zoom. destruct (m _) as [b e'| | |] eqn:E; try done.
  intros [= <- <-] Hc. destruct (Hc e' eq_refl) as (n & Hn & He). split; [|done]. split; [|apply same_room_refl]. intros j. unfold slack. simpl. rewrite He, one_eq.
  case_decide as Hij; [subst j; rewrite list_lookup_insert_eq by (by eapply lookup_lt_Some); rewrite Hn; simpl; lia|].
  rewrite list_lookup_insert_ne by done. lia.
Qed.

Lemma fileM_quiet {A} (m : M FS A) : (forall e a e', m e = Ret a e' -> counts e' = counts e) -> quiet pst (fileM m).
Proof. intros Hm. apply quiet_kern, quiet_ps, quiet_env, Hm. Qed.

Lemma env_dup_moves f (q : proc_st FS) a q' :
  default 0 (counts (ps_env q) !! f) < 2 ^ 31 - 1 -> envM (filedup (Some f)) q = Ret a q' -> moves q (one (Some f)) q' /\ ps_proc q' = ps_proc q.
Proof.
  intros Hb HR. destruct (envM_moves _ _ _ _ f 1 HR) as [Hm Hp].
  - intros e' (n & Hn & Hp & He)%filedup_counts. exists n. split; [done|]. rewrite Hn in Hb. simpl in Hb. by rewrite i32_small in He by lia.
  - split; [|done]. eapply moves_eq; [exact Hm|]. intros i. cbv beta. lia.
Qed.
Lemma env_close_moves pid f (q : proc_st FS) a q' : envM (fileclose pid (Some f)) q = Ret a q' ->
  moves q (fun i => - one (Some f) i) q' /\ ps_proc q' = ps_proc q.
Proof.
  intros HR. destruct (envM_moves _ _ _ _ f (-1) HR) as [Hm Hp].
  - intros e' (n & Hn & _ & He)%fileclose_counts. by exists n.
  - split; [|done]. eapply moves_eq; [exact Hm|]. intros i. cbv beta. lia.
Qed.
Lemma dup_moves f s a s' :
  default 0 (counts (ps_env (pst s)) !! f) < 2 ^ 31 - 1 -> fileM (filedup (Some f)) s = Ret a s' -> moves (pst s) (one (Some f)) (pst s').
Proof. intros Hb HR%fileM_env. by eapply env_dup_moves. Qed.
Lemma close_moves pid f s a s' : fileM (fileclose pid (Some f)) s = Ret a s' ->
  moves (pst s) (fun i => - one (Some f) i) (pst s') /\ ps_proc (pst s') = ps_proc (pst s).
Proof. intros HR%fileM_env. by eapply env_close_moves. Qed.
Lemma alloc_moves s r s' : fileM filealloc s = Ret r s' ->
  moves (pst s) (one r) (pst s') /\ ps_proc (pst s') = ps_proc (pst s).
Proof.
  intros HR. destruct r as [f|].
  - apply fileM_env in HR. destruct (envM_moves _ _ _ _ f 1 HR) as [Hm Hp].
    + intros e' [Hn He]%filealloc_counts. by exists 0.
    + split; [|done]. eapply moves_eq; [exact Hm|]. intros i. cbv beta. lia.
  - unfold fileM, kernM, psM, envM, zoom in HR. destruct (filealloc _) as [b e'| | |] eqn:E; try done. injection HR as -> <-.
    apply filealloc_counts in E as ->. split; [|done]. split; [|apply same_room_refl]. intros i. rewrite one_none. unfold slack, pst. simpl. lia.
Qed.

(** A descriptor of a process changes. *)
Lemma ofile_moves (q : proc_st FS) i p fd x y :
  ps_proc q !! i = Some p -> ~ dead p -> p_ofile p !! fd = Some x ->
  moves q (fun j => one x j - one y j) (set_ps_proc (alter (fun p => set_p_ofile (<[fd := y]> (p_ofile p)) p) i (ps_proc q)) q).
Proof.
  intros Hp Hal Hfd. rewrite (alter_insert _ _ _ _ Hp). split.
  - intros j. unfold slack. simpl. rewrite (descs_insert j _ i p _ Hp). change (p_ofile (set_p_ofile ?l ?q)) with l. rewrite (occ_insert j _ fd x y Hfd). lia.
  - apply same_room_insert with p; [done | by simpl; rewrite length_insert | by intros ?%Hal].
Qed.
Lemma set_ofile_moves p fd x y s a s' :
  ps_proc (pst s) !! me = Some p -> ~ dead p -> p_ofile p !! fd = Some x -> set_ofile me fd y s = Ret a s' ->
  moves (pst s) (fun i => one x i - one y i) (pst s') /\ ps_proc (pst s') !! me = Some (set_p_ofile (<[fd := y]> (p_ofile p)) p).
Proof.
  intros Hp Hal Hfd [= _ <-]. split; [by eapply (ofile_moves (pst s))|]. unfold pst in *. simpl. by rewrite list_lookup_alter_eq, Hp.
Qed.

Lemma find_fd_spec l k fd : find_fd l k = Some fd -> (k <= fd)%nat /\ l !! (fd - k)%nat = Some None.
Proof.
  revert k. induction l as [|[f|] l IH]; intros k; simpl; [done | |].
  - intros [Hk Hl]%IH. split; [lia|]. by replace (fd - k)%nat with (S (fd - S k)) by lia.
  - intros [= <-]. by rewrite Nat.sub_diag.
Qed.

Lemma myproc_run s p s' : myproc me s = Ret p s' -> p = ps_proc (pst s) !!! me /\ s' = s.
Proof. destruct s as [[? ? ? ? ? ?] ?]. by intros [= <- <-]. Qed.

Lemma fdalloc_run f s r s' p :
  ps_proc (pst s) !! me = Some p -> ~ dead p -> fdalloc me f s = Ret r s' ->
  match r with
  | Some fd => moves (pst s) (fun i => - one (Some f) i) (pst s')
      /\ p_ofile p !! fd = Some None
      /\ exists p', ps_proc (pst s') !! me = Some p' /\ p_state p' = p_state p /\ p_ofile p' !! fd = Some (Some f)
         /\ forall fd' g, p_ofile p !! fd' = Some (Some g) -> p_ofile p' !! fd' = Some (Some g)
  | None => moves (pst s) even (pst s') /\ ps_proc (pst s') = ps_proc (pst s)
  end.
Proof.
  intros Hp Hal HR. unfold fdalloc in HR. apply mthen_inv in HR as (q & s1 & [-> ->]%myproc_run & HR).
  rewrite (list_lookup_total_correct _ _ _ Hp) in HR. destruct (find_fd (p_ofile p) 0) as [fd|] eqn:Hf.
  - apply find_fd_spec in Hf as [_ Hf]. rewrite Nat.sub_0_r in Hf. apply mthen_inv in HR as (a & s2 & R & [= <- <-]).
    destruct (set_ofile_moves p fd None (Some f) _ _ _ Hp Hal Hf R) as [Hm Hp']. split.
    + eapply moves_eq; [exact Hm|]. intros i. cbv beta. rewrite one_none. lia.
    + split; [done|]. eexists. split; [exact Hp'|]. simpl. split; [done|]. split; [apply list_lookup_insert_eq; by eapply lookup_lt_Some|].
      intros fd' g Hg. rewrite list_lookup_insert_ne; [done|]. congruence.
  - apply mthen_inv in HR as (a & s2 & [= _ <-] & [= <- <-]). split; [|done]. apply moves_refl.
Qed.

(** A descriptor the process holds. *)
Lemma argfd_run n s r s' :
  argfd me n s = Ret r s' ->
  moves (pst s) even (pst s') /\ ps_proc (pst s') = ps_proc (pst s)
  /\ match r with Some (fd, f) => p_ofile (ps_proc (pst s) !!! me) !! fd = Some (Some f) | None => True end.
Proof.
  intros HR. assert (quiet pst (argfd me n : M (sf_st T U) _)) as Hq.
  { unfold argfd. apply quiet_then; [apply quiet_kern, argint_quiet|]. intros fd. apply quiet_then; [apply myproc_quiet|]. intros p.
    destruct (negb _); [apply quiet_then; [apply quiet_count | intros; apply quiet_ret]|]. destruct (p_ofile p !!! _); apply quiet_ret. }
  split; [by eapply quiet_moves|]. destruct (Hq _ _ _ HR) as [Hp _]. split; [done|].
  unfold argfd in HR. apply mthen_inv in HR as (fd & s1 & R1 & HR). apply (quiet_kern _ (argint_quiet me n)) in R1 as [P1 _].
  apply mthen_inv in HR as (p & s2 & [-> ->]%myproc_run & HR). rewrite P1 in HR.
  destruct (negb _); [by apply mthen_inv in HR as (a & s2 & _ & [= <- <-])|].
  destruct (p_ofile (ps_proc (pst s) !!! me) !!! Z.to_nat fd) as [f|] eqn:Ef; [|by injection HR as <- <-]. injection HR as <- <-.
  rewrite list_lookup_total_alt in Ef. destruct (p_ofile _ !! Z.to_nat fd) as [o|]; simpl in Ef; [by subst | done].
Qed.

(** *** Calls that make and close descriptors *)

Lemma even_trans q1 q2 q3 x : moves q1 even q2 -> moves q2 x q3 -> moves (T:=T) (U:=U) q1 x q3.
Proof. intros A B. eapply moves_eq; [exact (moves_trans _ _ _ _ _ A B)|]. intros i. cbv beta. unfold even. lia. Qed.
Lemma moves_even q1 q2 q3 x : moves q1 x q2 -> moves q2 even q3 -> moves (T:=T) (U:=U) q1 x q3.
Proof. intros A B. eapply moves_eq; [exact (moves_trans _ _ _ _ _ A B)|]. intros i. cbv beta. unfold even. lia. Qed.
Lemma cancel_moves q1 q2 q3 x y : moves q1 x q2 -> moves q2 y q3 -> (forall i, x i + y i = 0) -> moves (T:=T) (U:=U) q1 even q3.
Proof. intros A B E. eapply moves_eq; [exact (moves_trans _ _ _ _ _ A B)|]. intros i. cbv beta. rewrite E. done. Qed.

(** Every reference is a descriptor's, and there are few descriptors. *)
Definition balanced (s : proc_st FS) : Prop := (forall i, slack s i = 0) /\ Z.of_nat (sum_list (olen (ps_proc s))) < 2 ^ 30.
Lemma balanced_moves (q q' : proc_st FS) : balanced q -> moves q even q' -> balanced q'.
Proof. intros [B1 B2] [M1 M2]. split; [intros i; rewrite M1, B1; done | by rewrite (proj1 M2)]. Qed.
Lemma slack_count (s : proc_st FS) i : default 0 (counts (ps_env s) !! i) = slack s i + descs i (ps_proc s).
Proof. unfold slack. lia. Qed.

Section Call.
Context (s : sf_st T U) (p : proc) (Hb : balanced (pst s)) (Hp : ps_proc (pst s) !! me = Some p) (Hal : ~ dead p).

Lemma sys_dup_moves r s' : sys_dup me s = Ret r s' -> moves (pst s) even (pst s').
Proof.
  intros HR. unfold sys_dup in HR. apply mthen_inv in HR as (a & s1 & (M1 & P1 & Hfd)%argfd_run & HR).
  destruct a as [[fd f]|]; [|by injection HR as _ <-]. apply mthen_inv in HR as (o & s2 & R2 & HR).
  pose proof (fdalloc_run f s1 o s2 p) as F. rewrite P1 in F. specialize (F Hp Hal R2). destruct o as [fd'|].
  - destruct F as [M2 _]. apply mthen_inv in HR as (u & s3 & R3 & [= _ <-]). apply dup_moves in R3.
    + eapply even_trans; [exact M1|]. eapply cancel_moves; [exact M2 | exact R3 | intros i; lia].
    + rewrite slack_count. destruct Hb as [B1 B2]. destruct M1 as [S1 [O1 _]], M2 as [S2 [O2 _]]. rewrite S2, S1, B1. unfold even.
      pose proof (descs_bound f (ps_proc (pst s2))). rewrite O2, O1 in *. pose proof (one_range (Some f) f). lia.
  - destruct F as [M2 _]. injection HR as _ <-. by eapply even_trans.
Qed.

Lemma sys_close_moves r s' : sys_close me s = Ret r s' -> moves (pst s) even (pst s').
Proof.
  intros HR. unfold sys_close in HR. apply mthen_inv in HR as (a & s1 & [= _ <-] & HR).
  apply mthen_inv in HR as (a1 & s1 & (M1 & P1 & Hfd)%argfd_run & HR). unfold pst in *. simpl in *.
  destruct a1 as [[fd f]|]; [|by injection HR as _ <-]. rewrite (list_lookup_total_correct _ _ _ Hp) in Hfd.
  apply mthen_inv in HR as (u & s2 & R2 & HR). rewrite <- P1 in Hp. destruct (set_ofile_moves p fd _ None _ _ _ Hp Hal Hfd R2) as [M2 _].
  apply mthen_inv in HR as (pid & s3 & R3 & HR). pose proof (quiet_moves _ _ _ _ _ (mypid_quiet me) R3) as M3.
  apply mthen_inv in HR as (v & s4 & R4 & [= _ <-]). apply close_moves in R4 as [M4 _].
  eapply even_trans; [exact M1|]. eapply cancel_moves; [exact (moves_even _ _ _ _ M2 M3) | exact M4|]. intros i. cbv beta. rewrite one_none. lia.
Qed.

(** Reads, writes and status leave the counts alone. *)
Lemma content_moves {A} (m : nat -> proc -> M FS A) (k : A -> Z) n s1 r s' :
  (forall f q e a e', m f q e = Ret a e' -> same_shape e e') ->
  (let* x := argfd me n in
   match x with
   | None => mreturn (u64 (-1))
   | Some (_, f) => let* q := myproc me in let* v := fileM (m f q) in mreturn (k v)
   end) s1 = Ret r s' -> moves (pst s1) even (pst s').
Proof.
  intros Hm HR. apply mthen_inv in HR as (a & s2 & (M1 & _)%argfd_run & HR). destruct a as [[fd f]|]; [|by injection HR as _ <-].
  apply mthen_inv in HR as (q & s3 & [-> ->]%myproc_run & HR). apply mthen_inv in HR as (v & s4 & R & [= _ <-]).
  eapply even_trans; [exact M1|]. eapply quiet_moves; [|exact R]. apply fileM_quiet. intros e x e' Hx. by eapply shape_counts, Hm.
Qed.
Lemma after_quiet {A B} (m : M (sf_st T U) A) (k : A -> M (sf_st T U) B) s1 r s' :
  quiet pst m -> (forall a s2 r s', k a s2 = Ret r s' -> moves (pst s2) even (pst s')) -> mthen m k s1 = Ret r s' -> moves (pst s1) even (pst s').
Proof. intros Hm Hk HR. apply mthen_inv in HR as (a & s2 & R & HR). eapply even_trans; [by eapply quiet_moves | by eapply Hk]. Qed.

Context (dev_read dev_write : Z -> option (Z -> Z -> M FS Z)) (Hdr : dev_frame dev_read) (Hdw : dev_frame dev_write) (pad : list Z).
Lemma sys_read_moves r s' : sys_read dev_read me s = Ret r s' -> moves (pst s) even (pst s').
Proof.
  unfold sys_read. apply after_quiet; [apply quiet_count|]. intros _ s1 r1 s2. apply after_quiet; [apply quiet_kern, argaddr_quiet|].
  intros a s3 r3 s4. apply after_quiet; [apply quiet_kern, argint_quiet|]. intros n s5 r5 s6.
  destruct (_ || _); [intros HR; by eapply quiet_moves; [apply fail_op_quiet|]|].
  apply (content_moves (fun f q => fileread (p_pid q) (p_killed q) dev_read (Some f) a n)). intros f q e v e' HR. eapply fileread_shape; [exact Hdr | exact HR].
Qed.
Lemma sys_write_moves r s' : sys_write dev_write me s = Ret r s' -> moves (pst s) even (pst s').
Proof.
  unfold sys_write. apply after_quiet; [apply quiet_count|]. intros _ s1 r1 s2. apply after_quiet; [apply quiet_kern, argaddr_quiet|].
  intros a s3 r3 s4. apply after_quiet; [apply quiet_kern, argint_quiet|]. intros n s5 r5 s6.
  destruct (_ || _); [intros HR; by eapply quiet_moves; [apply fail_op_quiet|]|].
  apply (content_moves (fun f q => filewrite (p_pid q) (p_killed q) dev_write (Some f) a n)). intros f q e v e' HR. eapply filewrite_shape; [exact Hdw | exact HR].
Qed.
Lemma sys_fstat_moves r s' : sys_fstat pad me s = Ret r s' -> moves (pst s) even (pst s').
Proof.
  unfold sys_fstat. apply after_quiet; [apply quiet_kern, argaddr_quiet|]. intros a s1 r1 s2 HR.
  apply mthen_inv in HR as (x & s3 & (M1 & _)%argfd_run & HR). destruct x as [[fd f]|]; [|by injection HR as _ <-].
  eapply even_trans; [exact M1|]. revert HR. apply after_quiet; [apply mypid_quiet|]. intros pid s4 r4 s5 HR.
  apply mthen_inv in HR as (v & s6 & R & [= _ <-]). eapply quiet_moves; [|exact R]. apply fileM_quiet. intros e y e' Hy.
  by eapply shape_counts, filestat_shape.
Qed.

Lemma set_cwd_moves ip s1 a s2 : procM (set_proc me (set_p_cwd ip)) s1 = Ret a s2 -> moves (pst s1) even (pst s2).
Proof.
  intros [= _ <-]. unfold pst. simpl. destruct (ps_proc (kn_ps (sf_kern s1)) !! me) as [q|] eqn:Hq.
  - split.
    + intros i. unfold slack, even. simpl. rewrite (alter_insert _ _ _ _ Hq), (descs_insert i _ me q _ Hq). simpl. lia.
    + simpl. rewrite (alter_insert _ _ _ _ Hq). by apply same_room_insert with q.
  - assert (alter (set_p_cwd ip) me (ps_proc (kn_ps (sf_kern s1))) = ps_proc (kn_ps (sf_kern s1))) as E.
    { apply list_eq. intros j. destruct (decide (me = j)) as [<-|]; [by rewrite list_lookup_alter_eq, Hq | by rewrite list_lookup_alter_ne]. }
    split; [|simpl; rewrite E; apply same_room_refl]. intros i. unfold slack, even. simpl. rewrite E. lia.
Qed.
End Call.

(** *** Calls that balance themselves *)

Definition live_at (q : proc_st FS) : Prop := exists p, ps_proc q !! me = Some p /\ ~ dead p.
Definition steady {A} (m : M (sf_st T U) A) : Prop :=
  forall s a s', live_at (pst s) -> m s = Ret a s' -> moves (pst s) even (pst s').

Lemma moves_entry q q' x : moves (T:=T) (U:=U) q x q' -> live_at q -> live_at q'.
Proof.
  intros [_ [Ho Hs]] (p & Hp & Hd). destruct (lookup_lt_is_Some_2 (ps_proc q') me) as [p' Hp'].
  { apply lookup_lt_Some in Hp. pose proof (f_equal length Ho) as Hl. unfold olen in Hl. rewrite !length_fmap in Hl. lia. }
  exists p'. split; [done|]. intros Hd'. destruct (Hs me p' Hp' Hd') as (p0 & Hp0 & Hd0 & _). by simplify_eq.
Qed.
Lemma steady_then {A B} (m : M (sf_st T U) A) (k : A -> M (sf_st T U) B) : steady m -> (forall a, steady (k a)) -> steady (mthen m k).
Proof.
  intros Hm Hk s b s' He HR. apply mthen_inv in HR as (a & s1 & R1 & R2). pose proof (Hm _ _ _ He R1) as M1.
  eapply even_trans; [exact M1|]. eapply Hk; [|exact R2]. by eapply moves_entry.
Qed.
Lemma steady_quiet {A} (m : M (sf_st T U) A) : quiet pst m -> steady m.
Proof. intros Hq s a s' _ HR. by eapply quiet_moves. Qed.
Lemma steady_cwd ip : steady (procM (set_proc me (set_p_cwd ip))).
Proof. intros s a s' _ HR. by eapply set_cwd_moves. Qed.

Lemma open_inode_steady omode ip : steady (open_inode me omode ip).
Proof.
  unfold open_inode. apply steady_then; [apply steady_quiet, quiet_fs|]. intros i. destruct (_ && _).
  { apply steady_quiet. apply quiet_then; [apply unlockput_quiet | intros]. apply quiet_then; [apply end_op_quiet | intros; apply fail_op_quiet]. }
  intros s r s' He HR. apply mthen_inv in HR as (f & s1 & R1 & HR). pose proof (alloc_moves _ _ _ R1) as [M1 P1].
  destruct f as [f|].
  2:{ eapply even_trans; [eapply moves_eq; [exact M1 | intros j; apply one_none]|]. eapply quiet_moves; [|exact HR].
      apply quiet_then; [apply unlockput_quiet | intros]. apply quiet_then; [apply end_op_quiet | intros; apply fail_op_quiet]. }
  destruct He as (p & Hp & Hal). rewrite <- P1 in Hp. apply mthen_inv in HR as (fd & s2 & R2 & HR). pose proof (fdalloc_run _ _ _ _ _ Hp Hal R2) as F.
  destruct fd as [fd|].
  - destruct F as [M2 _]. apply mthen_inv in HR as (u & s3 & R3 & HR).
    assert (moves (pst s2) even (pst s3)) as M3.
    { eapply quiet_moves; [|exact R3]. apply fileM_quiet. intros e a e'. by apply set_file_counts. }
    eapply (even_trans _ (pst s2)); [eapply cancel_moves; [exact M1 | exact M2 | intros j; lia]|]. eapply even_trans; [exact M3|].
    eapply quiet_moves; [|exact HR]. apply quiet_then; [destruct (_ && _); [apply quiet_fs | apply quiet_skip] | intros].
    apply quiet_then; [apply unlock_inode_quiet | intros]. apply quiet_then; [apply end_op_quiet | intros; apply quiet_ret].
  - destruct F as [M2 _]. apply mthen_inv in HR as (pid & s3 & R3 & HR). pose proof (quiet_moves _ _ _ _ _ (mypid_quiet me) R3) as M3.
    apply mthen_inv in HR as (u & s4 & R4 & HR). apply close_moves in R4 as [M4 _].
    eapply (even_trans _ (pst s4)).
    { eapply cancel_moves; [exact (moves_even _ _ _ _ (moves_even _ _ _ _ M1 M2) M3) | exact M4 | intros j; cbv beta; lia]. }
    eapply quiet_moves; [|exact HR]. apply quiet_then; [apply unlockput_quiet | intros]. apply quiet_then; [apply end_op_quiet | intros; apply fail_op_quiet].
Qed.

Context (end_ path0 word : Z).
#[local] Hint Resolve argaddr_quiet argint_quiet argpath_quiet myproc_quiet mypid_quiet my_cwd_quiet begin_op_quiet end_op_quiet fail_op_quiet
  my_namei_quiet lock_inode_quiet unlock_inode_quiet unlockput_quiet create_quiet : quiet.
Ltac calm :=
  repeat match goal with
  | |- steady (mthen _ _) => apply steady_then; [|intros ?]
  | |- steady (open_inode _ _ _) => apply open_inode_steady
  | |- steady (procM (set_proc _ (set_p_cwd _))) => apply steady_cwd
  | |- steady (if ?b then _ else _) => destruct b
  | |- steady (match ?x with _ => _ end) => destruct x
  | |- steady _ => solve [apply steady_quiet; auto with quiet]
  end.

Lemma sys_open_steady : steady (sys_open path0 me).
Proof. unfold sys_open. calm. Qed.
Lemma sys_chdir_steady : steady (sys_chdir path0 me).
Proof. unfold sys_chdir. calm. Qed.

Lemma pipealloc_moves pid s r s' : fileM (pipealloc pid) s = Ret r s' ->
  ps_proc (pst s') = ps_proc (pst s)
  /\ moves (pst s) (fun i => match r with Some (f0, f1) => one (Some f0) i + one (Some f1) i | None => 0 end) (pst s').
Proof.
  unfold fileM, kernM, psM, envM, zoom. change (ps_env (kn_ps (sf_kern s))) with (ps_env (pst s)). destruct (pipealloc pid _) as [b e'| | |] eqn:Ep; try done.
  intros [= -> <-]. split; [done|]. apply pipealloc_counts in Ep. split; [|apply same_room_refl]. intros j. unfold slack, pst in *. simpl.
  destruct r as [[f0 f1]|]; [|rewrite Ep; lia]. destruct Ep as (Hne & H0' & H1' & ->). rewrite !one_eq. destruct (decide (f1 = j)) as [->|].
  - rewrite list_lookup_insert_eq, H1' by (rewrite length_insert; by eapply lookup_lt_Some). rewrite decide_False by done. simpl. lia.
  - rewrite list_lookup_insert_ne by done. case_decide as Hj; [subst j|by rewrite list_lookup_insert_ne by done; lia].
    rewrite list_lookup_insert_eq, H0' by (by eapply lookup_lt_Some). simpl. lia.
Qed.

Lemma close_both_moves rf wf s a s' : close_both me rf wf s = Ret a s' -> moves (pst s) (fun i => - one (Some rf) i - one (Some wf) i) (pst s').
Proof.
  intros HR. unfold close_both in HR. apply mthen_inv in HR as (pid & s1 & R1 & HR). pose proof (quiet_moves _ _ _ _ _ (mypid_quiet me) R1) as M1.
  apply mthen_inv in HR as (u & s2 & [M2 _]%close_moves & [M3 _]%close_moves). eapply even_trans; [exact M1|].
  eapply moves_eq; [exact (moves_trans _ _ _ _ _ M2 M3)|]. intros i. cbv beta. lia.
Qed.
(** Both ends closed and the failure counted. *)
Lemma undo_pipe rf wf x q s r s' :
  (close_both me rf wf ;;; fail_op) s = Ret r s' -> moves q x (pst s) -> (forall i, x i = one (Some rf) i + one (Some wf) i) -> moves q even (pst s').
Proof.
  intros HR Hx Ex. apply mthen_inv in HR as (a & s1 & M1%close_both_moves & HR). pose proof (quiet_moves _ _ _ _ _ fail_op_quiet HR) as M2.
  eapply moves_even; [|exact M2]. eapply cancel_moves; [exact Hx | exact M1|]. intros i. cbv beta. rewrite Ex. lia.
Qed.
Lemma copyout_int_quiet v addr : quiet pst (copyout_int end_ word me v addr : M (sf_st T U) Z).
Proof. unfold copyout_int. apply quiet_then; [apply myproc_quiet | intros; apply quiet_zoom_mem]. Qed.

Lemma sys_pipe_steady : steady (sys_pipe end_ word me).
Proof.
  unfold sys_pipe. apply steady_then; [apply steady_quiet, quiet_kern, argaddr_quiet|]. intros fdarray.
  apply steady_then; [apply steady_quiet, mypid_quiet|]. intros pid s r s' (p & Hp & Hal) HR.
  apply mthen_inv in HR as (o & s1 & [P1 M1]%pipealloc_moves & HR). rewrite <- P1 in Hp. destruct o as [[rf wf]|].
  2:{ eapply even_trans; [exact M1 | by eapply quiet_moves; [apply fail_op_quiet|]]. }
  apply mthen_inv in HR as (fd0 & s2 & R2 & HR). pose proof (fdalloc_run _ _ _ _ _ Hp Hal R2) as F2. destruct fd0 as [fd0|].
  2:{ destruct F2 as [M2 _]. eapply undo_pipe; [exact HR | exact (moves_even _ _ _ _ M1 M2) | done]. }
  destruct F2 as (M2 & Hn0 & p1 & Hp1 & Es1 & Hf0 & Hk1). assert (~ dead p1) as Hal1 by (unfold dead in *; by rewrite Es1). pose proof (moves_trans _ _ _ _ _ M1 M2) as M12.
  apply mthen_inv in HR as (fd1 & s3 & R3 & HR). pose proof (fdalloc_run _ _ _ _ _ Hp1 Hal1 R3) as F3. destruct fd1 as [fd1|].
  2:{ destruct F3 as [M3 P3]. apply mthen_inv in HR as (u & s4 & R4 & HR). rewrite <- P3 in Hp1.
      destruct (set_ofile_moves p1 fd0 _ None _ _ _ Hp1 Hal1 Hf0 R4) as [M4 _].
      eapply undo_pipe; [exact HR | exact (moves_trans _ _ _ _ _ (moves_even _ _ _ _ M12 M3) M4)|]. intros i. cbv beta. rewrite one_none. lia. }
  destruct F3 as (M3 & Hn1 & p2 & Hp2 & Es2 & Hf1 & Hk2). assert (~ dead p2) as Hal2 by (unfold dead in *; by rewrite Es2). apply Hk2 in Hf0 as Hf02. pose proof (moves_trans _ _ _ _ _ M12 M3) as M123.
  apply mthen_inv in HR as (c0 & s4 & R4 & HR). pose proof (copyout_int_quiet _ _ _ _ _ R4) as [P4 _]. pose proof (quiet_moves _ _ _ _ _ (copyout_int_quiet _ _) R4) as M4.
  apply mthen_inv in HR as (c1 & s5 & R5 & HR).
  assert (quiet pst (if c0 <? 0 then mreturn (-1) else copyout_int end_ word me (Z.of_nat fd1) (u64 (fdarray + 4)) : M (sf_st T U) Z)) as Q5.
  { destruct (c0 <? 0); [apply quiet_ret | apply copyout_int_quiet]. }
  pose proof (Q5 _ _ _ R5) as [P5 _]. pose proof (quiet_moves _ _ _ _ _ Q5 R5) as M5.
  pose proof (moves_even _ _ _ _ (moves_even _ _ _ _ M123 M4) M5) as M15.
  destruct (c1 <? 0); [|injection HR as _ <-; eapply moves_eq; [exact M15|]; intros i; cbv beta; unfold even; lia].
  rewrite <- P4, <- P5 in Hp2. apply mthen_inv in HR as (u & s6 & R6 & HR). destruct (set_ofile_moves p2 fd0 _ None _ _ _ Hp2 Hal2 Hf02 R6) as [M6 Hp6].
  apply mthen_inv in HR as (v & s7 & R7 & HR). assert (p_ofile (set_p_ofile (<[fd0 := None]> (p_ofile p2)) p2) !! fd1 = Some (Some wf)) as Hf16.
  { simpl. rewrite list_lookup_insert_ne; [done|]. congruence. }
  destruct (set_ofile_moves _ fd1 (Some wf) None _ _ _ Hp6 Hal2 Hf16 R7) as [M7 _].
  eapply undo_pipe; [exact HR | exact (moves_trans _ _ _ _ _ (moves_trans _ _ _ _ _ M15 M6) M7)|]. intros i. cbv beta. rewrite one_none. lia.
Qed.
End Moves.
