(* ===== verification/DescThm.v ===== *)
(** Descriptors across fork and exit, and the theorem: over every sequence of
    calls the reference count of an open file is the number of descriptors
    that refer to it. *)

From S2P Require Import Prelude.
From S2P Require Import KString.
From S2P Require Import Riscv.
From S2P Require Import Kalloc.
From S2P Require Import Vm.
From S2P Require Import BlockCache.
From S2P Require Import TxStore.
From S2P Require Import UserMem.
From S2P Require Import Fs.
From S2P Require Import FsDir.
From S2P Require Import File.
From S2P Require Import FileProof.
From S2P Require Import Proc.
From S2P Require Import ProcProof.
From S2P Require Import Syscall.
From S2P Require Import SyscallProof.
From S2P Require Import ProcThm.
From S2P Require Import VmMap.
From S2P Require Import Sysfile.
From S2P Require Import SysfileProof.

(** ** Changes that keep every descriptor *)

(** Every entry keeps its descriptors, and nobody dies. *)
Definition tame (ps ps' : list proc) : Prop :=
  p_ofile <$> ps' = p_ofile <$> ps /\ forall j p', ps' !! j = Some p' -> dead p' -> exists p, ps !! j = Some p /\ dead p.

Lemma tame_refl ps : tame ps ps.
Proof. split; [done|]. intros j p Hp Hd. by exists p. Qed.
Lemma tame_trans ps1 ps2 ps3 : tame ps1 ps2 -> tame ps2 ps3 -> tame ps1 ps3.
Proof.
  intros [A1 A2] [B1 B2]. split; [congruence|]. intros j p Hp Hd. destruct (B2 j p Hp Hd) as (q & Hq & Hdq). by apply (A2 j q).
Qed.
Lemma tame_map f ps : (forall i p, p_ofile (f i p) = p_ofile p /\ (dead (f i p) -> dead p)) -> tame ps (imap f ps).
Proof.
  intros Hf. split.
  - apply list_eq. intros j. rewrite !list_lookup_fmap, list_lookup_imap. destruct (ps !! j); simpl; [|done]. f_equal. apply Hf.
  - intros j p' Hp' Hd. rewrite list_lookup_imap in Hp'. apply fmap_Some in Hp' as (p & Hp & ->). exists p. split; [done|]. by apply (Hf j).
Qed.
Lemma tame_alter (f : proc -> proc) i (ps : list proc) : (forall p, p_ofile (f p) = p_ofile p /\ (dead (f p) -> dead p)) -> tame ps (alter f i ps).
Proof.
  intros Hf. split.
  - apply list_eq. intros j. rewrite !list_lookup_fmap. destruct (decide (i = j)) as [<-|]; [|by rewrite list_lookup_alter_ne].
    rewrite list_lookup_alter_eq. destruct (ps !! i); simpl; [|done]. f_equal. apply Hf.
  - intros j p' Hp' Hd. destruct (decide (i = j)) as [<-|]; [|rewrite list_lookup_alter_ne in Hp' by done; by exists p'].
    rewrite list_lookup_alter_eq in Hp'. apply fmap_Some in Hp' as (p & Hp & ->). exists p. split; [done|]. by apply Hf.
Qed.

Lemma wakeup_tame me chan ps : tame ps (wakeup me chan ps).
Proof.
  apply tame_map. intros i p. destruct (_ && _); [|done]. split; [done|]. by intros [|].
Qed.
Lemma reparent_tame proc_addr me init p ps : tame ps (reparent proc_addr me init p ps).
Proof.
  unfold reparent. generalize (seq 0 (Z.to_nat Vm.NPROC)) as l. intros l. revert ps. induction l as [|k l IH]; intros ps; [apply tame_refl|].
  cbn [fold_left]. eapply tame_trans; [|apply IH]. unfold reparent_one. case_bool_decide; [|apply tame_refl].
  eapply tame_trans; [|apply wakeup_tame]. by apply tame_alter.
Qed.

Section Desc.
Context {T H U : Type} `{TxOps T H} `{UserMem U}.
Context (pid : Z).
#[local] Instance own_env : FileEnv (file_st T U) := file_env pid.
Abbreviation FS := (file_st T U).
Implicit Types q : proc_st FS.

Lemma descs_ofile i ps ps' : p_ofile <$> ps' = p_ofile <$> ps -> descs i ps' = descs i ps.
Proof.
  revert ps. induction ps' as [|p' ps' IH]; intros [|p ps]; simpl; try done. intros [= -> E]. by rewrite (IH ps E).
Qed.
Lemma tame_moves q q' : tame (ps_proc q) (ps_proc q') -> counts (ps_env q') = counts (ps_env q) -> moves q even q'.
Proof.
  intros [Ho Hd] Hc. split; [intros i; unfold slack, even; rewrite Hc, (descs_ofile i _ _ Ho); lia|]. split.
  - unfold olen. change (fun p => length (p_ofile p)) with (length ∘ p_ofile). by rewrite !list_fmap_compose, Ho.
  - intros j p' Hp' Hdp. destruct (Hd j p' Hp' Hdp) as (p & Hp & Hdd). exists p. split; [done|]. split; [done|].
    assert ((p_ofile <$> ps_proc q') !! j = Some (p_ofile p')) as E by (by rewrite list_lookup_fmap, Hp').
    rewrite Ho, list_lookup_fmap, Hp in E. by injection E.
Qed.
(** [f ;;; skip] on the environment. *)
Lemma run_then_env {A} (m : M FS A) q u q' : envM (m ;;; skip) q = Ret u q' -> exists v, envM m q = Ret v q'.
Proof. unfold envM, zoom, mthen. destruct (m (ps_env q)); try done. intros [= _ <-]. eauto. Qed.
Lemma set_proc_moves i f q a q' : (forall p, p_ofile (f p) = p_ofile p /\ (dead (f p) -> dead p)) -> set_proc i f q = Ret a q' -> moves q even q'.
Proof. intros Hf [= _ <-]. apply tame_moves; [by apply tame_alter | done]. Qed.
Lemma memM_moves {A} (m : M kalloc_st A) q a q' : memM m q = Ret a q' -> moves q even q'.
Proof. intros HR. by apply (quiet_moves (fun s => s) (memM m) q a q' (quiet_mem m)). Qed.

(** A step that keeps descriptors and the environment. *)
Definition keeps {A} (m : M (proc_st FS) A) : Prop :=
  forall q a q', m q = Ret a q' -> p_ofile <$> ps_proc q' = p_ofile <$> ps_proc q /\ ps_env q' = ps_env q.
Lemma keeps_then {A B} (m : M (proc_st FS) A) (k : A -> M (proc_st FS) B) : keeps m -> (forall a, keeps (k a)) -> keeps (mthen m k).
Proof. intros Hm Hk q b q' HR. apply run_then in HR as (a & q1 & R1 & R2). destruct (Hk _ _ _ _ R2) as [-> ->]. by eapply Hm. Qed.
Lemma keeps_ret {A} (a : A) : keeps (mreturn a).
Proof. by intros q b q' [= _ <-]. Qed.
Lemma keeps_gets {A} (f : proc_st FS -> A) : keeps (gets f).
Proof. by intros q b q' [= _ <-]. Qed.
Lemma keeps_mem {A} (m : M kalloc_st A) : keeps (memM m).
Proof. intros q a q'. unfold memM, zoom. destruct (m (ps_ka q)); try done. by intros [= _ <-]. Qed.
Lemma keeps_set i f : (forall p, p_ofile (f p) = p_ofile p) -> keeps (set_proc i f).
Proof.
  intros Hf q a q' [= _ <-]. split; [|done]. simpl. apply list_eq. intros j. rewrite !list_lookup_fmap. destruct (decide (i = j)) as [<-|]; [|by rewrite list_lookup_alter_ne].
  rewrite list_lookup_alter_eq. destruct (ps_proc q !! i); simpl; [by rewrite Hf | done].
Qed.
Lemma freeproc_keeps end_ i : keeps (freeproc end_ i).
Proof.
  unfold freeproc. apply keeps_then; [apply keeps_gets|]. intros p.
  apply keeps_then; [destruct (negb _); [apply keeps_mem | apply keeps_ret]|]. intros _.
  apply keeps_then; [destruct (negb _); [apply keeps_mem | apply keeps_ret]|]. intros _. by apply keeps_set.
Qed.
Lemma allocproc_keeps end_ trampoline forkret : keeps (allocproc end_ trampoline forkret).
Proof.
  unfold allocproc. apply keeps_then; [apply keeps_gets|]. intros ps. destruct (find_unused_proc ps 0) as [i|]; [|apply keeps_ret].
  apply keeps_then; [by intros q a q' [= _ <-]|]. intros n. apply keeps_then; [by apply keeps_set|]. intros _.
  apply keeps_then; [apply keeps_mem|]. intros tf. apply keeps_then; [by apply keeps_set|]. intros _.
  destruct (tf =? 0); [apply keeps_then; [apply freeproc_keeps | intros; apply keeps_ret]|].
  apply keeps_then; [apply keeps_mem|]. intros pt. apply keeps_then; [by apply keeps_set|]. intros _.
  destruct (pt =? 0); [apply keeps_then; [apply freeproc_keeps | intros; apply keeps_ret]|].
  apply keeps_then; [by apply keeps_set|]. intros _. apply keeps_ret.
Qed.

(** When the states agree too, nothing has moved. *)
Lemma keeps_moves q q' :
  p_ofile <$> ps_proc q' = p_ofile <$> ps_proc q -> ps_env q' = ps_env q ->
  (forall j c, cores q' !! j = Some c -> c_state c = UNUSED \/ c_state c = ZOMBIE -> exists d, cores q !! j = Some d /\ (c_state d = UNUSED \/ c_state d = ZOMBIE)) ->
  moves q even q'.
Proof.
  intros Ho He Hc. apply tame_moves; [|by rewrite He]. split; [done|]. intros j p' Hp' Hd.
  destruct (Hc j (core p')) as (d & Hd' & Hdd); [unfold cores; by rewrite list_lookup_fmap, Hp' | done|].
  unfold cores in Hd'. rewrite list_lookup_fmap in Hd'. apply fmap_Some in Hd' as (p & Hp & ->). by exists p.
Qed.
Lemma same_cores_moves q q' : p_ofile <$> ps_proc q' = p_ofile <$> ps_proc q -> ps_env q' = ps_env q -> same_cores q q' -> moves q even q'.
Proof. intros Ho He (Hc & _). apply keeps_moves; [done | done|]. rewrite Hc. eauto. Qed.
Lemma reset_moves q q' : p_ofile <$> ps_proc q' = p_ofile <$> ps_proc q -> ps_env q' = ps_env q -> entry_reset q q' -> moves q even q'.
Proof.
  intros Ho He (i & x & Hx & Hu & Hc & _). apply keeps_moves; [done | done|]. intros j c Hj Hd. rewrite Hc, list_lookup_insert_Some in Hj.
  destruct Hj as [(<- & _ & _)|[_ Hj]]; [|eauto]. exists (core x). split; [unfold cores; by rewrite list_lookup_fmap, Hx | by left].
Qed.
Lemma taken_moves q i par q' : p_ofile <$> ps_proc q' = p_ofile <$> ps_proc q -> ps_env q' = ps_env q -> entry_taken q i USED par q' -> moves q even q'.
Proof.
  intros Ho He (x & Hx & Hu & Hc & _). apply keeps_moves; [done | done|]. intros j c Hj Hd. rewrite Hc, list_lookup_insert_Some in Hj.
  destruct Hj as [(<- & <- & _)|[_ Hj]]; [simpl in Hd; by destruct Hd | eauto].
Qed.

(** ** Fork *)

Definition desc_ok (q : proc_st FS) : Prop :=
  (forall i, slack q i = 0) /\ olen (ps_proc q) = replicate (Z.to_nat NPROC) NOFILE
  /\ forall j p fd, ps_proc q !! j = Some p -> dead p -> p_ofile p !!! fd = None.

Lemma desc_ok_balanced q : desc_ok q -> balanced q.
Proof. intros (A & B & _). split; [done|]. rewrite B. vm_compute. done. Qed.
Lemma desc_ok_moves q q' : desc_ok q -> moves q even q' -> desc_ok q'.
Proof.
  intros (A & B & C) [M1 [M2 M3]]. split; [intros i; by rewrite M1, A|]. split; [congruence|].
  intros j p' fd Hp' Hd. destruct (M3 j p' Hp' Hd) as (p & Hp & Hdp & ->). by eapply C.
Qed.
Lemma ofile_length q j p : desc_ok q -> ps_proc q !! j = Some p -> length (p_ofile p) = NOFILE.
Proof.
  intros (_ & B & _) Hp. assert (olen (ps_proc q) !! j = Some (length (p_ofile p))) as E by (unfold olen; by rewrite list_lookup_fmap, Hp).
  rewrite B in E. by apply lookup_replicate in E as [? _].
Qed.

(** The copies of the parent's descriptors from [k] on: [np]'s are free. *)
Lemma dup_loop np (l : list (option nat)) n k q q' p :
  ps_proc q !! np = Some p -> ~ dead p -> (forall fd, (k <= fd < k + n)%nat -> p_ofile p !! fd = Some None) -> balanced q ->
  mfor (seq k n) (fun i =>
    match l !!! i with
    | Some f => envM (fe_filedup f) ;;; set_proc np (fun x => set_p_ofile (<[i := Some f]> (p_ofile x)) x)
    | None => skip
    end) q = Ret tt q' ->
  moves q even q' /\ exists p', ps_proc q' !! np = Some p' /\ ~ dead p'.
Proof.
  revert k q p. induction n as [|n IH]; intros k q p Hp Hal Hfree Hb; cbn [seq mfor]; [intros [= <-]; split; [apply moves_refl | eauto]|].
  intros HR. apply run_then in HR as ([] & q1 & R1 & HR). destruct (l !!! k) as [f|].
  2:{ injection R1 as <-. eapply (IH (S k) q p); [done | done | intros fd Hfd; apply Hfree; lia | done | done]. }
  apply run_then in R1 as (u & q2 & R1 & R2). apply run_then_env in R1 as (v & R1). destruct Hb as [B1 B2].
  destruct (env_dup_moves f q v q2) as [M1 P1]; [|done|].
  { rewrite slack_count, B1. pose proof (descs_bound f (ps_proc q)). lia. }
  rewrite <- P1 in Hp. pose proof (Hfree k ltac:(lia)) as Hk. pose proof (ofile_moves q2 np p k None (Some f) Hp Hal Hk) as M2.
  injection R2 as <-. set (q1 := set_ps_proc _ _) in *.
  assert (moves q even q1) as M by (eapply cancel_moves; [exact M1 | exact M2 | intros i; cbv beta; rewrite one_none; lia]).
  destruct (IH (S k) q1 (set_p_ofile (<[k := Some f]> (p_ofile p)) p)) as [M3 Hp3]; [| done | | by eapply balanced_moves | exact HR|].
  - unfold q1. simpl. by rewrite list_lookup_alter_eq, Hp.
  - intros fd Hfd. simpl. rewrite list_lookup_insert_ne by lia. apply Hfree. lia.
  - split; [by eapply even_trans | done].
Qed.

Context (end_ trampoline forkret : Z).

(** The new entry of [allocproc] has no descriptor. *)
Lemma taken_free q i q1 : desc_ok q -> p_ofile <$> ps_proc q1 = p_ofile <$> ps_proc q -> entry_taken q i USED None q1 ->
  exists p, ps_proc q1 !! i = Some p /\ ~ dead p /\ forall fd, (fd < NOFILE)%nat -> p_ofile p !! fd = Some None.
Proof.
  intros Hok Ho (x & Hx & Hu & Hc & _). assert (cores q1 !! i = Some (Core USED (p_chan x) (p_killed x) (ps_nextpid q) (p_parent x))) as Hi.
  { rewrite Hc. apply list_lookup_insert_eq. unfold cores. rewrite length_fmap. by eapply lookup_lt_Some. }
  unfold cores in Hi. rewrite list_lookup_fmap in Hi. apply fmap_Some in Hi as (p & Hp & Ep). exists p. split; [done|].
  assert (p_ofile p = p_ofile x) as Eo.
  { assert ((p_ofile <$> ps_proc q1) !! i = Some (p_ofile p)) as E by (by rewrite list_lookup_fmap, Hp). rewrite Ho, list_lookup_fmap, Hx in E. by injection E. }
  split; [unfold dead; injection Ep as <- _ _ _ _; by intros [|]|]. intros fd Hfd. rewrite Eo.
  destruct (lookup_lt_is_Some_2 (p_ofile x) fd) as [o Hof]; [by rewrite (ofile_length q i x Hok Hx)|].
  pose proof (proj2 (proj2 Hok) i x fd Hx (or_introl Hu)) as Hn. rewrite (list_lookup_total_correct _ _ _ Hof) in Hn. by subst o.
Qed.

Lemma kfork_desc me q r q' : desc_ok q -> kfork end_ trampoline forkret me q = Ret r q' -> desc_ok q'.
Proof.
  intros Hok HR. apply desc_ok_moves with q; [done|]. unfold kfork in HR. apply run_then in HR as (np & q1 & R1 & HR).
  destruct (allocproc_keeps _ _ _ _ _ _ R1) as [O1 E1]. apply allocproc_run in R1. destruct np as [i|].
  2:{ injection HR as _ <-. destruct R1 as [R1|R1]; [by apply same_cores_moves | by apply reset_moves]. }
  pose proof (taken_moves _ _ _ _ O1 E1 R1) as M1. destruct (taken_free _ _ _ Hok O1 R1) as (np & Hnp & Hal & Hfree).
  apply run_then in HR as (p & s & [= <- <-] & HR). apply run_then in HR as (x & s & [= <- <-] & HR).
  apply run_then in HR as (c & q2 & R2 & HR). pose proof (keeps_mem _ _ _ _ R2) as [O2 E2]. pose proof (memM_moves _ _ _ _ R2) as M2.
  apply memM_cores in R2 as [S2 P2]. destruct (c <? 0).
  { apply run_then in HR as (a & q3 & R3 & [= _ <-]). destruct (freeproc_keeps _ _ _ _ _ R3) as [O3 E3].
    apply reset_moves; [congruence | congruence |]. exact (taken_freed _ _ _ _ _ _ _ _ (taken_same _ _ _ _ _ _ R1 S2) R3). }
  apply run_then in HR as (a3 & q3 & R3 & HR). apply run_then in HR as (a4 & q4 & R4 & HR).
  pose proof (set_proc_moves i (set_p_sz _) _ _ _ (fun p => conj eq_refl (fun h => h)) R3) as M3. pose proof (memM_moves _ _ _ _ R4) as M4.
  apply memM_cores in R4 as [_ P4]. rewrite <- P2 in Hnp. injection R3 as _ <-.
  pose proof (even_trans _ _ _ _ M1 (even_trans _ _ _ _ M2 (even_trans _ _ _ _ M3 M4))) as M14.
  apply run_then in HR as ([] & q5 & R5 & HR). unfold dup_files in R5.
  apply (dup_loop i _ NOFILE 0 q4 q5 (set_p_sz (p_sz (ps_proc q1 !!! me)) np)) in R5 as [M5 _].
  2:{ rewrite P4. simpl. by rewrite list_lookup_alter_eq, Hnp. }
  2:{ exact Hal. }
  2:{ intros fd Hfd. apply Hfree. lia. }
  2:{ eapply balanced_moves; [by apply desc_ok_balanced | exact M14]. }
  apply run_then in HR as (a6 & q6 & R6 & HR).
  assert (moves q5 even q6) as M6.
  { destruct (p_cwd _) as [ip|]; [|done]. apply run_then in R6 as (a & q7 & R7 & R6). apply run_then_env in R7 as (v & R7).
    eapply even_trans; [|eapply (set_proc_moves i (set_p_cwd (Some ip))); [done | exact R6]].
    eapply (quiet_moves (fun s => s)); [|exact R7]. apply quiet_env. intros e b e' Hb. by eapply shape_counts, fsM_shape. }
  apply run_then in HR as (a7 & q7 & R7 & HR). apply (set_proc_moves i (set_p_name _) _ _ _ (fun p => conj eq_refl (fun h => h))) in R7.
  apply run_then in HR as (y & s & [= <- <-] & HR). apply run_then in HR as (a8 & q8 & R8 & HR).
  apply (set_proc_moves i (set_p_parent (Some me)) _ _ _ (fun p => conj eq_refl (fun h => h))) in R8.
  apply run_then in HR as (a9 & q9 & R9 & [= _ <-]). apply (set_proc_moves i (set_p_state RUNNABLE)) in R9; [|by intros p0; split; [|intros [|]]].
  exact (even_trans _ _ _ _ M14 (even_trans _ _ _ _ M5 (even_trans _ _ _ _ M6 (even_trans _ _ _ _ R7 (even_trans _ _ _ _ R8 R9))))).
Qed.

(** ** Exit *)

Lemma close_loop me n k q q' p :
  ps_proc q !! me = Some p -> ~ dead p ->
  mfor (seq k n) (fun fd =>
    let* p := proc_at me in
    match p_ofile p !!! fd with
    | Some f => envM (fe_fileclose f) ;;; set_proc me (fun p => set_p_ofile (<[fd := None]> (p_ofile p)) p)
    | None => skip
    end) q = Ret tt q' ->
  moves q even q' /\ exists p', ps_proc q' !! me = Some p' /\ ~ dead p'
    /\ (forall fd, (k <= fd < k + n)%nat -> p_ofile p' !!! fd = None) /\ (forall fd, p_ofile p !!! fd = None -> p_ofile p' !!! fd = None).
Proof.
  revert k q p. induction n as [|n IH]; intros k q p Hp Hal; cbn [seq mfor].
  { intros [= <-]. split; [apply moves_refl|]. exists p. split; [done|]. split; [done|]. split; [lia | done]. }
  intros HR. apply run_then in HR as ([] & q1 & R1 & HR). apply run_then in R1 as (x & s & [= <- <-] & R1). rewrite (list_lookup_total_correct _ _ _ Hp) in R1.
  destruct (p_ofile p !!! k) as [f|] eqn:Ek.
  2:{ injection R1 as <-. destruct (IH (S k) q p Hp Hal HR) as [M (p' & Hp' & Hal' & Hc & Hn)]. split; [done|]. exists p'. split; [done|]. split; [done|].
      split; [|done]. intros fd Hfd. destruct (decide (fd = k)) as [->|]; [by apply Hn | apply Hc; lia]. }
  apply run_then in R1 as (u & q2 & R1 & R2). apply env_close_moves in R1 as [M1 P1].
  assert (p_ofile p !! k = Some (Some f)) as Hk.
  { rewrite list_lookup_total_alt in Ek. destruct (p_ofile p !! k) as [o|]; simpl in Ek; [by subst | done]. }
  rewrite <- P1 in Hp. pose proof (ofile_moves q2 me p k (Some f) None Hp Hal Hk) as M2. injection R2 as <-. set (q1 := set_ps_proc _ _) in *.
  assert (moves q even q1) as M by (eapply cancel_moves; [exact M1 | exact M2 | intros i; cbv beta; rewrite one_none; lia]).
  destruct (IH (S k) q1 (set_p_ofile (<[k := None]> (p_ofile p)) p)) as [M3 (p' & Hp' & Hal' & Hc & Hn)]; [|done | exact HR|].
  { unfold q1. simpl. by rewrite list_lookup_alter_eq, Hp. }
  assert (forall fd, p_ofile p !!! fd = None \/ fd = k -> p_ofile p' !!! fd = None) as Hn'.
  { intros fd Hfd. apply Hn. simpl. destruct (decide (fd = k)) as [->|Hne].
    - apply list_lookup_total_correct, list_lookup_insert_eq. by eapply lookup_lt_Some.
    - rewrite list_lookup_total_insert_ne by done. by destruct Hfd. }
  split; [by eapply even_trans|]. exists p'. split; [done|]. split; [done|]. split; [|intros fd Hfd; apply Hn'; by left].
  intros fd Hfd. destruct (decide (fd = k)) as [->|]; [apply Hn'; by right | apply Hc; lia].
Qed.

Lemma tame_ofile ps ps' j p p' : tame ps ps' -> ps !! j = Some p -> ps' !! j = Some p' -> p_ofile p' = p_ofile p.
Proof.
  intros [Ho _] Hp Hp'. assert ((p_ofile <$> ps') !! j = Some (p_ofile p')) as E by (by rewrite list_lookup_fmap, Hp').
  rewrite Ho, list_lookup_fmap, Hp in E. by injection E.
Qed.
Lemma tame_entry ps ps' j p : tame ps ps' -> ps !! j = Some p -> exists p', ps' !! j = Some p' /\ p_ofile p' = p_ofile p.
Proof.
  intros Ht Hp. destruct (lookup_lt_is_Some_2 ps' j) as [p' Hp'].
  { apply lookup_lt_Some in Hp. pose proof (f_equal length (proj1 Ht)) as Hl. rewrite !length_fmap in Hl. lia. }
  exists p'. split; [done | by eapply tame_ofile].
Qed.

(** A process without descriptors may die. *)
Lemma zombie_desc q i f p :
  desc_ok q -> ps_proc q !! i = Some p -> (forall fd, (fd < NOFILE)%nat -> p_ofile p !!! fd = None) -> p_ofile (f p) = p_ofile p ->
  desc_ok (set_ps_proc (alter f i (ps_proc q)) q).
Proof.
  intros Hok Hp Hn Hf. pose proof (ofile_length q i p Hok Hp) as Hl. destruct Hok as (A & B & C). rewrite (alter_insert _ _ _ _ Hp).
  assert (p_ofile <$> <[i := f p]> (ps_proc q) = p_ofile <$> ps_proc q) as Ho.
  { rewrite list_fmap_insert. apply list_insert_id. by rewrite list_lookup_fmap, Hp, Hf. }
  split; [|split].
  - intros j. unfold slack. simpl. rewrite (descs_ofile j _ _ Ho). apply A.
  - rewrite <- B. unfold olen. simpl. change (fun p => length (p_ofile p)) with (length ∘ p_ofile). by rewrite !list_fmap_compose, Ho.
  - intros j p' fd Hj Hd. simpl in Hj. rewrite list_lookup_insert_Some in Hj. destruct Hj as [(<- & <- & _)|[_ Hj]]; [|by eapply C].
    rewrite Hf. destruct (decide (fd < NOFILE)%nat) as [Hlt|Hge]; [by apply Hn|].
    rewrite list_lookup_total_alt. by rewrite (lookup_ge_None_2 (p_ofile p) fd) by lia.
Qed.

#[local] Opaque reparent.
Lemma kexit_desc proc_addr me status q q' p :
  desc_ok q -> ps_proc q !! me = Some p -> ~ dead p -> kexit proc_addr me status q = Sleep q' -> p_state (ps_proc q' !!! me) = ZOMBIE -> desc_ok q'.
Proof.
  intros Hok Hp Hal HR Hz. destruct (kexit_run _ _ _ _ _ HR) as (qA & qB & q1 & RA & (ip & u & _ & RB) & E1 & _ & _ & E').
  { rewrite (list_lookup_total_correct _ _ _ Hp). intros Hs. apply Hal. by right. }
  { done. }
  cbv zeta in E'. destruct (close_loop me NOFILE 0 q qA p Hp Hal RA) as [MA (pA & HpA & _ & HnA & _)].
  assert (moves qA even qB /\ ps_proc qB = ps_proc qA) as [MB PB].
  { split; [|by apply envM_cores in RB as [_ ?]]. eapply (quiet_moves (fun s => s)); [|exact RB]. apply quiet_env. intros e b e' Hb. apply shape_counts. exact (fsM_shape _ _ _ _ Hb). }
  set (ps2 := wakeup _ _ _) in E'. assert (tame (ps_proc qB) ps2) as Ht.
  { unfold ps2. eapply tame_trans; [|apply wakeup_tame]. eapply tame_trans; [|apply reparent_tame]. rewrite E1. simpl. by apply tame_alter. }
  assert (moves qB even (set_ps_proc ps2 q1)) as M2 by (apply tame_moves; [exact Ht | by rewrite E1]).
  rewrite <- PB in HpA. destruct (tame_entry _ _ _ _ Ht HpA) as (p2 & Hp2 & Eo).
  assert (desc_ok (set_ps_proc ps2 q1)) as Hok2 by (eapply desc_ok_moves; [exact Hok | exact (even_trans _ _ _ _ MA (even_trans _ _ _ _ MB M2))]).
  assert (desc_ok (set_ps_proc (alter (fun p => set_p_state ZOMBIE (set_p_xstate status p)) me ps2) (set_ps_proc ps2 q1))) as Hfin.
  { apply (zombie_desc (set_ps_proc ps2 q1) me _ p2 Hok2 Hp2); [|done]. intros fd Hfd. rewrite Eo. apply HnA. lia. }
  rewrite E'. exact Hfin.
Qed.

(** ** Wait *)

Lemma kwait_desc proc_addr xstate_addr me addr q r q' :
  desc_ok q -> kwait end_ proc_addr xstate_addr me addr q = Ret r q' -> desc_ok q'.
Proof.
  intros Hok HR. apply desc_ok_moves with q; [done|].
  assert (keeps (kwait (E:=FS) end_ proc_addr xstate_addr me addr)) as Hk.
  { unfold kwait. apply keeps_then; [apply keeps_gets|]. intros ps. apply keeps_then; [apply keeps_gets|]. intros p.
    destruct (scan_children me ps 0 false) as [b [i|]]; [|destruct (_ || _); [apply keeps_ret | by intros x y z Hx]].
    apply keeps_then; [apply keeps_gets|]. intros pp. apply keeps_then; [destruct (addr =? 0); [apply keeps_ret | apply keeps_mem]|].
    intros ok. destruct (ok <? 0); [apply keeps_ret|]. apply keeps_then; [apply freeproc_keeps | intros; apply keeps_ret]. }
  destruct (Hk _ _ _ HR) as [Ho He]. apply kwait_run in HR as [[Hs _]|(i & x & Hx & _ & Hz & _ & Hc & _)]; [by apply same_cores_moves|].
  apply keeps_moves; [done | done|]. intros j c Hj Hd. rewrite Hc, list_lookup_insert_Some in Hj. destruct Hj as [(<- & _ & _)|[_ Hj]]; [|eauto].
  exists (core x). split; [unfold cores; by rewrite list_lookup_fmap, Hx | by right].
Qed.
End Desc.

(** ** The theorem *)

Section Calls.
Context {T H U : Type} `{TxOps T H} `{UserMem U}.
Context (end_ trampoline forkret path0 path1 word : Z) (pad : list Z) (proc_addr xstate_addr : nat -> Z).
Context (dev_read dev_write : Z -> option (Z -> Z -> M (file_st T U) Z)) (kexec : nat -> list Z -> list Z -> M (kern (file_st T U)) Z).
(** Devices and exec leave descriptors and counts alone. *)
Context (Hdr : dev_frame dev_read) (Hdw : dev_frame dev_write) (Hexec : forall i path argv, quiet kn_ps (kexec i path argv)).
Implicit Types s : sf_st T U.

Inductive file_call := CDup | CRead | CWrite | CClose | CFstat | CLink | CUnlink | COpen | CMkdir | CMknod | CChdir | CExec | CPipe.
Definition run_call (c : file_call) (me : nat) : M (sf_st T U) Z :=
  match c with
  | CDup => sys_dup me
  | CRead => sys_read dev_read me
  | CWrite => sys_write dev_write me
  | CClose => sys_close me
  | CFstat => sys_fstat pad me
  | CLink => sys_link path0 path1 me
  | CUnlink => sys_unlink path0 me
  | COpen => sys_open path0 me
  | CMkdir => sys_mkdir path0 me
  | CMknod => sys_mknod path0 me
  | CChdir => sys_chdir path0 me
  | CExec => sys_exec end_ path0 word kexec me
  | CPipe => sys_pipe end_ word me
  end.

(** Calls of processes that are alive, and whatever else the kernel does that
    changes neither descriptors nor files and ends no process. *)
Inductive call_step : sf_st T U -> sf_st T U -> Prop :=
| call_file c me s r s' : live_at me (pst s) -> run_call c me s = Ret r s' -> call_step s s'
| call_fork me s r s' : procM (kfork (H:=file_env (p_pid (ps_proc (pst s) !!! me))) end_ trampoline forkret me) s = Ret r s' -> call_step s s'
| call_exit me status s s' :
    live_at me (pst s) -> procM (kexit (H:=file_env (p_pid (ps_proc (pst s) !!! me))) proc_addr me status) s = Sleep s' ->
    p_state (ps_proc (pst s') !!! me) = ZOMBIE -> call_step s s'
| call_wait me addr s r s' : procM (kwait end_ proc_addr xstate_addr me addr) s = Ret r s' -> call_step s s'
| call_other s s' : tame (ps_proc (pst s)) (ps_proc (pst s')) -> counts (ps_env (pst s')) = counts (ps_env (pst s)) -> call_step s s'.

Lemma run_call_moves c me s r s' : balanced (pst s) -> live_at me (pst s) -> run_call c me s = Ret r s' -> moves (pst s) even (pst s').
Proof.
  intros Hb Hl. pose proof Hl as (p & Hp & Hal). destruct c; simpl.
  - by eapply sys_dup_moves.
  - apply sys_read_moves; done.
  - apply sys_write_moves; done.
  - by eapply sys_close_moves.
  - apply sys_fstat_moves.
  - apply quiet_moves, sys_link_quiet.
  - apply quiet_moves, sys_unlink_quiet.
  - by apply sys_open_steady.
  - apply quiet_moves, sys_mkdir_quiet.
  - apply quiet_moves, sys_mknod_quiet.
  - by apply sys_chdir_steady.
  - by apply quiet_moves, sys_exec_quiet.
  - by apply sys_pipe_steady.
Qed.

Lemma procM_ret {A} (m : M (proc_st (file_st T U)) A) s r s' : procM m s = Ret r s' -> m (pst s) = Ret r (pst s').
Proof. unfold procM, kernM, psM, zoom, pst. destruct (m (kn_ps (sf_kern s))); try done. by intros [= <- <-]. Qed.
Lemma procM_sleep {A} (m : M (proc_st (file_st T U)) A) s s' : procM m s = Sleep s' -> m (pst s) = Sleep (pst s').
Proof. unfold procM, kernM, psM, zoom, pst. destruct (m (kn_ps (sf_kern s))); try done. by intros [= <-]. Qed.

Lemma call_step_ok s s' : desc_ok (pst s) -> call_step s s' -> desc_ok (pst s').
Proof.
  intros Hok Hst. revert Hok. destruct Hst as [c me s1 r s2 Hl HR|me s1 r s2 HR|me status s1 s2 (p & Hp & Hal) HR Hz|me addr s1 r s2 HR|s1 s2 Ht Hc]; intros Hok.
  - eapply desc_ok_moves; [exact Hok|]. eapply run_call_moves; [by apply desc_ok_balanced | exact Hl | exact HR].
  - apply procM_ret in HR. by eapply kfork_desc.
  - apply procM_sleep in HR. by eapply kexit_desc.
  - apply procM_ret in HR. by eapply kwait_desc.
  - eapply desc_ok_moves; [exact Hok|]. by apply tame_moves.
Qed.

(** No process has a descriptor and no file a reference, as at boot. *)
Definition no_descriptors s : Prop :=
  length (ps_proc (pst s)) = Z.to_nat NPROC /\ (forall j p, ps_proc (pst s) !! j = Some p -> p_ofile p = replicate NOFILE None)
  /\ (forall i f, ft_file (ps_env (pst s)) !! i = Some f -> f_ref f = 0).

Lemma descs_none i ps : (forall j p, ps !! j = Some p -> p_ofile p = replicate NOFILE None) -> descs i ps = 0.
Proof.
  induction ps as [|p ps IH]; intros Hn; simpl; [done|]. rewrite (Hn 0%nat p eq_refl), IH by (intros j q; apply (Hn (S j))). done.
Qed.
Lemma no_descriptors_ok s : no_descriptors s -> desc_ok (pst s).
Proof.
  intros (Hl & Hn & Hr). split; [|split].
  - intros i. unfold slack, counts. rewrite (descs_none i _ Hn), list_lookup_fmap.
    destruct (ft_file (ps_env (pst s)) !! i) as [f|] eqn:Hf; simpl; [|done]. by rewrite (Hr i f Hf).
  - rewrite <- Hl. apply list_eq. intros j. unfold olen. rewrite list_lookup_fmap. destruct (ps_proc (pst s) !! j) as [p|] eqn:Hp; simpl.
    + rewrite (Hn j p Hp). symmetry. rewrite length_replicate. apply lookup_replicate_2. by eapply lookup_lt_Some.
    + symmetry. apply lookup_ge_None_2. rewrite length_replicate. by apply lookup_ge_None.
  - intros j p fd Hp _. rewrite (Hn j p Hp), list_lookup_total_alt. destruct (replicate NOFILE None !! fd) eqn:E; [|done].
    by apply lookup_replicate in E as [-> _].
Qed.

Lemma occ_positive i l fd : l !! fd = Some (Some i) -> 1 <= occ i l.
Proof.
  revert fd. induction l as [|o l IH]; intros [|fd]; simpl; [done | done | |].
  - intros [= ->]. rewrite one_eq, decide_True by done. pose proof (occ_bound i l). lia.
  - intros Hl. pose proof (one_range o i). pose proof (IH fd Hl). lia.
Qed.
Lemma descs_positive i ps j p fd : ps !! j = Some p -> p_ofile p !! fd = Some (Some i) -> 1 <= descs i ps.
Proof.
  intros Hp Hf. revert j Hp. induction ps as [|q ps IH]; intros [|j]; simpl; [done | done | |].
  - intros [= ->]. pose proof (occ_positive _ _ _ Hf). pose proof (descs_bound i ps). lia.
  - intros Hp. pose proof (IH j Hp). pose proof (occ_bound i (p_ofile q)). lia.
Qed.

(** C7: descriptors and open files.  From a boot state without descriptors,
    after any sequence of file calls, forks, exits and waits by any processes,
    with all their failure paths, the reference count of every entry of the
    file table is exactly the number of descriptors, over all processes, that
    refer to it; so every descriptor refers to a file in use, a file is closed
    for good exactly when its last descriptor goes, and a process that has
    exited holds none. *)
Theorem descriptors_counted s0 s :
  no_descriptors s0 -> rtc call_step s0 s ->
  (forall i f, ft_file (ps_env (pst s)) !! i = Some f -> f_ref f = descs i (ps_proc (pst s)))
  /\ (forall j p fd i, ps_proc (pst s) !! j = Some p -> p_ofile p !! fd = Some (Some i) ->
        exists f, ft_file (ps_env (pst s)) !! i = Some f /\ 1 <= f_ref f)
  /\ (forall j p fd, ps_proc (pst s) !! j = Some p -> p_state p = ZOMBIE -> p_ofile p !!! fd = None).
Proof.
  intros H0' Hr. apply no_descriptors_ok in H0'. assert (desc_ok (pst s)) as (A & _ & C).
  { induction Hr as [|? ? ? Hst _ IH]; [done|]. apply IH. by eapply call_step_ok. }
  assert (forall i f, ft_file (ps_env (pst s)) !! i = Some f -> f_ref f = descs i (ps_proc (pst s))) as Hc.
  { intros i f Hf. pose proof (A i) as Ai. unfold slack, counts in Ai. rewrite list_lookup_fmap, Hf in Ai. simpl in Ai. lia. }
  split; [done|]. split.
  - intros j p fd i Hp Hfd. pose proof (descs_positive i _ j p fd Hp Hfd) as Hd. pose proof (A i) as Ai. unfold slack, counts in Ai.
    rewrite list_lookup_fmap in Ai. destruct (ft_file (ps_env (pst s)) !! i) as [f|] eqn:Hf; simpl in Ai; [|lia]. exists f. split; [done | lia].
  - intros j p fd Hp Hz. eapply C; [done | by right].
Qed.
End Calls.

(** ** A run: pipe, dup, close *)

Module DescDemo.
Definition p0 : proc := set_p_trapframe (KERNBASE + 0x5000) (set_p_sz 4096 (set_p_pagetable Demo.A (set_p_state RUNNING inhabitant))).
Definition procs : list proc := p0 :: replicate 63 inhabitant.
Definition s0 : sf_st ideal flat_mem :=
  SfSt _ _ (Kern _ (ProcSt _ procs 2 (Some 0%nat) Demo.space FileDemo.ready) (CallStats (fun _ => 0) 0 0) zero_counters 0 0 0) zero_counters.
Definition no_exec (i : nat) (path argv : list Z) : M (kern (file_st ideal flat_mem)) Z := mreturn (-1).
Definition run (c : file_call) : M (sf_st ideal flat_mem) Z :=
  run_call KERNBASE 0 0 (KERNBASE + 0x6000) [] FileDemo.no_dev FileDemo.no_dev no_exec c 0.
Definition s1 := ProcDemo.after s0 (run CPipe s0).
Definition s2 := ProcDemo.after s1 (run CDup s1).
Definition s3 := ProcDemo.after s2 (run CClose s2).

Abbreviation demo_call := (call_step KERNBASE 0 0 0 0 (KERNBASE + 0x6000) [] ProcDemo.paddr ProcDemo.paddr FileDemo.no_dev FileDemo.no_dev no_exec).
Lemma no_exec_quiet i path argv : quiet kn_ps (no_exec i path argv).
Proof. apply quiet_ret. Qed.
Lemma s0_none : no_descriptors s0.
Proof.
  split; [done|]. split.
  - intros [|j] p Hp; [by injection Hp as <-|]. simpl in Hp. by apply (lookup_replicate_1 63%nat) in Hp as [-> _].
  - intros i f Hf. by apply lookup_replicate in Hf as [-> _].
Qed.
Lemma run_step c (s : sf_st ideal flat_mem) : ProcDemo.is_ret (run c s) = true -> live_at 0 (pst s) -> demo_call s (ProcDemo.after s (run c s)).
Proof. intros Hr Hl. apply (ProcDemo.ret_after_ex s) in Hr as [r Hr]. by eapply (call_file _ _ _ _ _ _ _ _ _ _ _ _ c 0). Qed.
Lemma live_run (s : sf_st ideal flat_mem) : p_state <$> ps_proc (pst s) !! 0%nat = Some RUNNING -> live_at 0 (pst s).
Proof. intros (p & Hp & Hs)%fmap_Some. exists p. split; [done|]. unfold dead. rewrite <- Hs. by intros [|]. Qed.
Lemma demo_run : rtc demo_call s0 s3.
Proof.
  apply rtc_l with s1; [|apply rtc_l with s2; [|apply rtc_once]]; (apply run_step; [|apply live_run]); vm_compute; reflexivity.
Qed.
End DescDemo.

Lemma descriptors_counted_witness :
  exists f, ft_file (ps_env (pst DescDemo.s3)) !! 0%nat = Some f /\ f_ref f = 1 /\ f_ref f = descs 0 (ps_proc (pst DescDemo.s3)).
Proof.
  destruct (descriptors_counted KERNBASE 0 0 0 0 (KERNBASE + 0x6000) [] ProcDemo.paddr ProcDemo.paddr FileDemo.no_dev FileDemo.no_dev DescDemo.no_exec
    FileDemo.no_dev_frame FileDemo.no_dev_frame DescDemo.no_exec_quiet DescDemo.s0 DescDemo.s3 DescDemo.s0_none DescDemo.demo_run) as [Hc _].
  exists (ft_file (ps_env (pst DescDemo.s3)) !!! 0%nat). split; [vm_compute; reflexivity|]. split; [vm_compute; reflexivity|].
  apply Hc. vm_compute. reflexivity.
Defined.
