(* ===== verification/ExecProof.v ===== *)
(** Program loading: [kexec] replaces the whole image or nothing
    (src/kernel/exec.c). *)

From S2P Require Import Prelude.
From S2P Require Import KString.
From S2P Require Import Riscv.
From S2P Require Import Kalloc.
From S2P Require Import Vm.
From S2P Require Import VmProof.
From S2P Require Import Bytes.
From S2P Require Import Locks.
From S2P Require Import TxStore.
From S2P Require Import UserMem.
From S2P Require Import Fs.
From S2P Require Import FsDir.
From S2P Require Import File.
From S2P Require Import Proc.
From S2P Require Import ProcProof.
From S2P Require Import Syscall.
From S2P Require Import SyscallProof.
From S2P Require Import Trap.
From S2P Require Import Sysfile.
From S2P Require Import Exec.
From S2P Require Import VmMap.
From S2P Require Import ProcThm.
From S2P Require Import DescThm.

(** ** Runs that keep a relation between the states before and after *)

Definition preserves {S A} (R : S -> S -> Prop) (m : M S A) : Prop := forall s a s', m s = Ret a s' -> R s s'.

Lemma preserves_ret {S A} (R : S -> S -> Prop) (a : A) : (forall s, R s s) -> preserves R (mreturn a).
Proof. intros H s b s' [= _ <-]. apply H. Qed.
Lemma preserves_panic {S A} (R : S -> S -> Prop) msg : preserves R (panic msg : M S A).
Proof. by intros s a s'. Qed.
Lemma preserves_diverge {S A} (R : S -> S -> Prop) : preserves R (diverge : M S A).
Proof. by intros s a s'. Qed.
Lemma preserves_gets {S A} (R : S -> S -> Prop) (f : S -> A) : (forall s, R s s) -> preserves R (gets f).
Proof. intros H s b s' [= _ <-]. apply H. Qed.
Lemma preserves_modify {S} (R : S -> S -> Prop) (f : S -> S) : (forall s, R s (f s)) -> preserves R (modify f).
Proof. intros H s b s' [= _ <-]. apply H. Qed.
Lemma preserves_bind {S A B} (R : S -> S -> Prop) (m : M S A) (k : A -> M S B) :
  (forall s1 s2 s3, R s1 s2 -> R s2 s3 -> R s1 s3) -> preserves R m -> (forall a, preserves R (k a)) -> preserves R (mthen m k).
Proof.
  intros Ht Hm Hk s b s'. unfold mthen. destruct (m s) as [a s1| | |] eqn:E; try done.
  intros Hb. apply Ht with s1; [by eapply Hm | by eapply Hk].
Qed.
Lemma preserves_zoom {S T A} (R : S -> S -> Prop) (get : S -> T) set (m : M T A) :
  (forall s t, R s (set t s)) -> preserves R (zoom get set m).
Proof. intros H s a s'. unfold zoom. destruct (m (get s)); try done. intros [= _ <-]. apply H. Qed.

Lemma alter_alter {A} (f g : A -> A) i (l : list A) : alter f i (alter g i l) = alter (fun x => f (g x)) i l.
Proof. revert i. induction l as [|x l IH]; intros [|i]; simpl; [done..|]. unfold alter in IH. by rewrite IH. Qed.

(** The value of [uvmalloc]. *)
Lemma uvmalloc_size end_ pt old new perm s v s' :
  uvmalloc end_ pt old new perm s = Ret v s' -> v = 0 \/ v = Z.max old new.
Proof.
  destruct (decide (old <= new)) as [Hle|Hgt].
  - intros [->| ->]%uvmalloc_value; [by left | right; lia | done].
  - unfold uvmalloc. destruct (Z.ltb_spec new old); [intros [= <- _]; right; lia | lia].
Qed.

Lemma strlen_value a s n s' : on_ks (strlen a) s = Ret n s' -> 0 <= n <= 4097.
Proof.
  unfold on_ks, zoom. destruct (strlen a (ka_ks s)) as [r k| | |] eqn:E; try done. intros [= <- _].
  unfold strlen in E. revert E. generalize 4098%nat. intros fuel0 E. apply run_then in E as ([] & k1 & _ & E). apply run_then in E as (ok & k2 & _ & E).
  destruct ok; simpl in E; [|injection E as <- _; lia]. rewrite mthen_gets in E.
  assert (forall fuel m i v, 0 <= i <= 4097 -> strlen_loop fuel m a i = Some v -> 0 <= v <= 4097) as Hl.
  { induction fuel as [|fuel IH]; intros m i v Hi; simpl; [done|]. destruct (m (a + i) =? 0); [intros [= <-]; lia|].
    destruct (Z.gtb_spec i 4096); [intros [= <-]; lia|]. apply IH. lia. }
  destruct (strlen_loop fuel0 (k_mem k2) a 0) eqn:EL; [|done]. injection E as <- _. eapply Hl; [|exact EL]. lia.
Qed.

(** [copyout] refuses addresses above [MAXVA]. *)
Lemma copyout_va end_ psz ppt pt va src len s r s' :
  copyout end_ psz ppt pt va src len s = Ret r s' -> 0 < len -> 0 <= va < 2 ^ 64 -> 0 <= r -> va < MAXVA.
Proof.
  unfold copyout. cbn [copyout_loop]. intros Hr Hlen Hva Hge.
  destruct (Z.gtb_spec len 0); [simpl in Hr | lia]. rewrite PGROUNDDOWN_spec in Hr by done.
  destruct (Z.geb_spec (va / 4096 * 4096) MAXVA) as [|Hlt]; [injection Hr as <- _; lia|].
  change MAXVA with (2 ^ 38) in *. dlia.
Qed.

Lemma push_aligned sp n :
  0 <= n <= sp -> sp < 2 ^ 64 -> push sp n mod 16 = 0 /\ push sp n <= sp - n /\ sp - n - 16 < push sp n.
Proof. intros Hn Hs. unfold push. rewrite u64_small by lia. dlia. Qed.

(** ** Permissions *)

Lemma flags2perm_testbits flags :
  0 <= flags <= 7 -> forall p, p = flags2perm flags ->
  flag p PTE_X = Z.testbit flags 0 /\ flag p PTE_W = Z.testbit flags 1 /\ flag p PTE_R = Z.testbit flags 2
  /\ flag p PTE_U = negb (flags =? 0) /\ 0 <= p < 1024.
Proof.
  intros Hf p ->. assert (flags ∈ [0; 1; 2; 3; 4; 5; 6; 7]) as Hin.
  { destruct (decide (flags = 0 \/ flags = 1 \/ flags = 2 \/ flags = 3)); [set_solver|].
    assert (flags = 4 \/ flags = 5 \/ flags = 6 \/ flags = 7) by lia. set_solver. }
  repeat (apply elem_of_cons in Hin as [->|Hin]; [vm_compute; intuition congruence|]). by apply not_elem_of_nil in Hin.
Qed.

(** ** What the steps before the commit keep *)

Section Frame.
Context {T H U : Type} `{TxOps T H} `{UserMem U}.
Context (end_ trampoline ustack : Z) (ip0 : option nat) (me : nat).
Abbreviation X := (x_st T U).

Definition procs (x : X) : list proc := ps_proc (kn_ps (x_kern x)).

(** The process table and the counts of calls and failures. *)
Definition same (x x' : X) : Prop :=
  procs x' = procs x /\ total_execs (x_stats x') = total_execs (x_stats x)
  /\ failed_execs (x_stats x') = failed_execs (x_stats x).

Lemma same_refl x : same x x.
Proof. by repeat split. Qed.
Lemma same_trans x1 x2 x3 : same x1 x2 -> same x2 x3 -> same x1 x3.
Proof. unfold same. intuition congruence. Qed.

Lemma same_memX {A} (m : M kalloc_st A) : preserves same (memX m).
Proof.
  intros x a x'. unfold memX, procX, kernX, psM, memM, zoom. destruct (m _); try done. intros [= _ <-]. by repeat split.
Qed.
Lemma same_fsX {A} (m : M (fs_st T U) A) : preserves same (fsX m).
Proof.
  intros x a x'. unfold fsX, procX, kernX, psM, envM, fsM, zoom. destruct (m _); try done. intros [= _ <-]. by repeat split.
Qed.
Lemma same_myproc : preserves same (myprocX me).
Proof.
  intros x a x'. unfold myprocX, procX, kernX, psM, proc_at, zoom, gets. intros [= _ <-]. by repeat split.
Qed.
Lemma same_set_tf off v : preserves same (kernX (set_tf_word me off v)).
Proof.
  intros x a x'. unfold kernX, set_tf_word, psM, memM, proc_at, zoom, gets, modify, mthen. simpl.
  intros [= _ <-]. by repeat split.
Qed.
Lemma same_header ph : preserves same (validate_program_header ph).
Proof.
  intros x a x'. unfold validate_program_header, set_stats, mthen, modify, mreturn.
  repeat case_match; intros [= _ <-]; by repeat split.
Qed.

(** One step of such a proof. *)
Ltac keep_step :=
  match goal with
  | |- preserves same (mthen _ _) => apply preserves_bind; [exact same_trans | | intros ?]
  | |- preserves same (mreturn _) => apply preserves_ret, same_refl
  | |- preserves same (panic _) => apply preserves_panic
  | |- preserves same diverge => apply preserves_diverge
  | |- preserves same (memX _) => apply same_memX
  | |- preserves same (fsX _) => apply same_fsX
  | |- preserves same (myprocX _) => apply same_myproc
  | |- preserves same (kernX (set_tf_word _ _ _)) => apply same_set_tf
  | |- preserves same (validate_program_header _) => apply same_header
  | |- preserves same (match ?x with _ => _ end) => destruct x
  | |- preserves same (let '(_, _) := ?x in _) => destruct x
  | |- preserves same skip => apply preserves_ret, same_refl
  end.
Ltac keep := repeat (cbv zeta; keep_step).

Lemma same_loadseg pt va ip off sz : preserves same (loadseg pt va ip off sz).
Proof.
  unfold loadseg. keep. generalize (S (Z.to_nat (sz / PGSIZE + 1))) as fuel. intros fuel. generalize 0 as i.
  induction fuel as [|fuel IH]; intros i; simpl; keep. apply IH.
Qed.
Lemma same_load_segments n pt ip off sz : preserves same (load_segments end_ n pt ip off sz).
Proof.
  revert off sz. induction n as [|n IH]; intros off sz; simpl; keep; try apply IH; try apply same_loadseg.
Qed.
Lemma same_load_image ip : preserves same (load_image end_ trampoline me ip).
Proof. unfold load_image. keep. apply same_load_segments. Qed.
Lemma same_unlockput ip : preserves same (unlockputX me ip).
Proof. unfold unlockputX. keep. Qed.
Lemma same_check_args k l : preserves same (check_args k l).
Proof. revert k. induction l as [|a l IH]; intros k; simpl; keep. apply IH. Qed.
Lemma same_push_args pt sb j l sp : preserves same (push_args end_ ustack me pt sb j l sp).
Proof.
  revert j sp. induction l as [|a l IH]; intros j sp; simpl; unfold copyoutX, set_ustack; keep. apply IH.
Qed.
Lemma same_build_stack pt sz l : preserves same (build_stack end_ ustack me pt sz l).
Proof.
  unfold build_stack, copyoutX, set_ustack. keep; [apply same_check_args | apply same_push_args].
Qed.

(** [bad] only counts the failure. *)
Lemma same_bad_pt pt sz : preserves same (when negb (pt =? 0) do memX (proc_freepagetable end_ pt sz) : M X ()).
Proof. keep. Qed.
Lemma same_bad_ip (ip : option nat) :
  preserves same (match ip with Some i => unlockputX me i ;;; fsX (txM tx_end_op) | None => skip end : M X ()).
Proof. unfold unlockputX. keep. Qed.
Lemma bad_run pt sz ip (x : X) r x' :
  bad end_ me pt sz ip x = Ret r x' ->
  r = -1 /\ procs x' = procs x /\ total_execs (x_stats x') = total_execs (x_stats x)
  /\ failed_execs (x_stats x') = u64 (failed_execs (x_stats x) + 1).
Proof.
  unfold bad. intros ([] & x1 & R1%same_bad_pt & HB)%run_then. apply run_then in HB as ([] & x2 & R2%same_bad_ip & HC).
  destruct (same_trans _ _ _ R1 R2) as (E1 & E2 & E3). unfold set_stats, mthen, modify, mreturn in HC. injection HC as <- <-.
  unfold procs in *. cbn [x_kern x_stats total_execs failed_execs]. by rewrite E1, E2, E3.
Qed.

(** [commit] changes the entry of the process only. *)
Definition new_image (path : list Z) (pt sz : Z) (p : proc) : proc :=
  set_p_sz sz (set_p_pagetable pt (set_p_name (take 15 (last_name path path)) p)).

Lemma procs_set i f (x x' : X) : procX (set_proc i f) x = Ret tt x' -> procs x' = alter f i (procs x) /\ x_stats x' = x_stats x.
Proof. unfold procX, kernX, psM, set_proc, zoom, modify. by intros [= <-]. Qed.

Lemma commit_image_run path pt sz entry sp oldsz x x' :
  commit end_ me path pt sz entry sp oldsz x = Ret tt x' ->
  procs x' = alter (new_image path pt sz) me (procs x) /\ total_execs (x_stats x') = total_execs (x_stats x)
  /\ failed_execs (x_stats x') = failed_execs (x_stats x).
Proof.
  unfold commit. intros ([] & x1 & R1%same_set_tf & HB)%run_then. apply run_then in HB as ([] & x2 & R2%same_memX & HB).
  apply run_then in HB as ([] & x3 & R3%procs_set & HB). apply run_then in HB as (p & x4 & R4%same_myproc & HB).
  apply run_then in HB as ([] & x5 & R5%procs_set & HB). apply run_then in HB as ([] & x6 & R6%procs_set & HB).
  apply run_then in HB as ([] & x7 & R7%same_set_tf & HB). apply run_then in HB as ([] & x8 & R8%same_set_tf & R9%same_memX).
  destruct (same_trans _ _ _ R1 R2) as (E1 & E2 & E3), R3 as [E4 E5], R4 as (E6 & E7 & E8), R5 as [E9 E10], R6 as [E11 E12].
  destruct (same_trans _ _ _ (same_trans _ _ _ R7 R8) R9) as (E13 & E14 & E15).
  rewrite E13, E14, E15, E11, E12, E9, E10, E6, E7, E8, E4, E5, E1, E2, E3. split; [|done].
  by rewrite !alter_alter.
Qed.

(** ** The stack *)

Lemma memX_run {A} (m : M kalloc_st A) (x : X) a (x' : X) :
  memX m x = Ret a x' -> exists s s', m s = Ret a s'.
Proof. unfold memX, procX, kernX, psM, memM, zoom. destruct (m _) eqn:E; try done. intros [= <- _]. eauto. Qed.

Lemma push_args_bounds pt sb j l sp (x : X) sp' x' :
  push_args end_ ustack me pt sb j l sp x = Ret (Some sp') x' -> 4096 <= sb <= sp -> sp < 2 ^ 40 -> sp mod 16 = 0 ->
  sb <= sp' <= sp /\ sp' mod 16 = 0.
Proof.
  revert j sp x. induction l as [|a l IH]; intros j sp x; simpl; [intros [= <- _]; lia|].
  intros (len & x1 & R1 & HB)%run_then Hsb Hsp Hmod. apply memX_run in R1 as (s & s' & R1). apply strlen_value in R1.
  destruct (Z.ltb_spec (push sp (len + 1)) sb) as [|Hge]; [done|].
  apply run_then in HB as (r & x2 & R2 & HB). destruct (Z.ltb_spec r 0) as [|Hr]; [done|].
  apply run_then in HB as ([] & x3 & _ & HB).
  destruct (decide (len + 1 <= sp)) as [Hle|Hgt].
  - destruct (push_aligned sp (len + 1) ltac:(lia) ltac:(lia)) as (P1 & P2 & P3).
    destruct (IH _ _ _ HB ltac:(lia) ltac:(lia) P1). lia.
  - exfalso. unfold copyoutX in R2. apply run_then in R2 as (p & x4 & _ & R2). apply memX_run in R2 as (s1 & s2 & R2).
    assert (u64 (sp - (len + 1)) = sp - (len + 1) + 2 ^ 64) as E by (unfold u64; dlia).
    apply copyout_va in R2; [|lia| |lia]; unfold push in *; rewrite E in *; change MAXVA with (2 ^ 38) in *; dlia.
Qed.

Lemma check_args_bound k l (x x' : X) : check_args k l x = Ret true x' -> l = [] \/ k + Z.of_nat (length l) <= 32.
Proof.
  revert k x. induction l as [|a l IH]; intros k x; simpl; [by left|]. destruct (Z.geb_spec k (Z.of_nat MAXARG)) as [|Hk]; [done|].
  intros (n & x1 & _ & HB)%run_then. destruct (n >? MAX_ARG_LEN); [done|]. right.
  apply IH in HB as [->|HB]; simpl; [unfold MAXARG in Hk; lia | lia].
Qed.

(** The new stack is the top page of the image, above a guard page; [sp] is
    aligned, and the argv array with its null pointer lies between [sp] and the
    top. *)
Lemma build_stack_bounds pt sz l (x : X) sz' sp x' :
  0 <= sz < MAXVA -> build_stack end_ ustack me pt sz l x = Ret (sz', Some sp) x' ->
  sz' = PGROUNDUP sz + 2 * PGSIZE /\ (length l <= MAXARG)%nat
  /\ sz' - PGSIZE <= sp /\ sp + 8 * (Z.of_nat (length l) + 1) <= sz' /\ sp mod 16 = 0.
Proof.
  change MAXVA with (2 ^ 38). intros Hsz. unfold build_stack. cbv zeta.
  assert (0 <= PGROUNDUP sz < 2 ^ 39 /\ PGROUNDUP sz mod 4096 = 0) as [Hr Hm] by (rewrite PGROUNDUP_spec by lia; dlia).
  set (S0 := PGROUNDUP sz) in *. unfold USERSTACK, PGSIZE. rewrite (u64_small (S0 + _)) by lia.
  intros (sz1 & x1 & R1 & HB)%run_then. apply memX_run in R1 as (s & s' & R1). apply uvmalloc_size in R1.
  destruct (Z.eqb_spec sz1 0) as [|Hne]; [done|]. destruct R1 as [|R1]; [done|].
  apply run_then in HB as ([] & x2 & _ & HB). apply run_then in HB as (ok & x3 & RC & HB). destruct ok; [|done].
  simpl in HB. apply check_args_bound in RC. apply run_then in HB as ([sp1|] & x4 & RP & HB); [|done].
  rewrite u64_small in RP, HB by lia. apply push_args_bounds in RP; [|lia|lia|dlia].
  apply run_then in HB as ([] & x5 & _ & HB).
  assert (Z.of_nat (length l) <= 32) as Hl by (destruct RC as [->|]; simpl; lia).
  destruct (push_aligned sp1 ((Z.of_nat (length l) + 1) * 8) ltac:(lia) ltac:(lia)) as (P1 & P2 & P3).
  destruct (Z.ltb_spec (push sp1 ((Z.of_nat (length l) + 1) * 8)) (sz1 - 1 * 4096)) as [|Hge]; [done|].
  apply run_then in HB as (r & x6 & _ & HB). destruct (r <? 0); [done|]. injection HB as <- <- _.
  unfold MAXARG. split; [lia|]. split; [lia|]. lia.
Qed.

(** ** The segments *)

(** What a program header that is accepted satisfies. *)
Lemma header_valid ph (x x' : X) :
  validate_program_header ph x = Ret 1 x' ->
  x' = x /\ ph_type ph = ELF_PROG_LOAD /\ ph_filesz ph <= ph_memsz ph /\ ph_vaddr ph mod PGSIZE = 0
  /\ ph_vaddr ph <= u64 (ph_vaddr ph + ph_memsz ph) < MAXVA /\ ph_off ph <= MAX_EXEC_SIZE
  /\ Z.land (ph_flags ph) 3 <> 3.
Proof.
  unfold validate_program_header, set_stats, mthen, modify, mreturn. change (Z.lor ELF_PROG_FLAG_WRITE ELF_PROG_FLAG_EXEC) with 3.
  repeat (bcase; cbn [negb orb]; try done); intros [= <-]; repeat split; try done; lia.
Qed.

Lemma load_segments_sz n pt ip off sz (x : X) r x' :
  load_segments end_ n pt ip off sz x = Ret r x' -> 0 <= sz < MAXVA -> 0 <= r.2 < MAXVA.
Proof.
  revert off sz x. induction n as [|n IH]; intros off sz x; simpl; [by intros [= <- _]|].
  intros (r1 & x1 & _ & HB)%run_then Hsz. destruct (negb _); [by injection HB as <- _|].
  apply run_then in HB as (v & x2 & RV & HB). destruct (Z.ltb_spec v 0); [by injection HB as <- _|].
  destruct (Z.eqb_spec v 0); [by eapply IH|].
  apply run_then in HB as (sz1 & x3 & RU & HB). apply memX_run in RU as (s & s' & RU). apply uvmalloc_size in RU.
  destruct (Z.eqb_spec sz1 0); [by injection HB as <- _|].
  assert (v = 1) as ->.
  { revert RV. unfold validate_program_header, set_stats, mthen, modify, mreturn. repeat case_match; intros [= <- _]; lia. }
  apply header_valid in RV as (_ & _ & _ & _ & Hv & _). pose proof (u64_range (ph_vaddr (get_proghdr r1.2) + ph_memsz (get_proghdr r1.2))).
  assert (0 <= sz1 < MAXVA) as Hsz1 by (destruct RU as [|RU]; [done | simpl in *; lia]).
  apply run_then in HB as (l & x4 & _ & HB). destruct (l <? 0); [by injection HB as <- _ | by eapply IH].
Qed.

Lemma load_image_sz ip (x : X) pt sz entry x' :
  load_image end_ trampoline me ip x = Ret (inl (pt, sz, entry)) x' -> pt <> 0 /\ 0 <= sz < MAXVA.
Proof.
  unfold load_image. intros (ino & x1 & _ & HB)%run_then. do 3 (case_match; [done|]).
  apply run_then in HB as (r & x2 & _ & HB). do 2 (case_match; [done|]).
  apply run_then in HB as (p & x3 & _ & HB). apply run_then in HB as (pt0 & x4 & _ & HB).
  destruct (Z.eqb_spec pt0 0) as [|Hne]; [done|]. apply run_then in HB as (rr & x5 & RS & HB).
  apply load_segments_sz in RS; [|change MAXVA with (2 ^ 38); lia]. destruct (negb rr.1); [done|]. by injection HB as <- <- _ _.
Qed.

(** The result of [kexec] after the segments are loaded, and after an error. *)
Definition failed (x x' : X) : Prop :=
  procs x' = procs x /\ total_execs (x_stats x') = total_execs (x_stats x)
  /\ failed_execs (x_stats x') = u64 (failed_execs (x_stats x) + 1).
Definition replaced (p a : list Z) (x x' : X) : Prop :=
  exists pt sz, (length a <= MAXARG)%nat /\ pt <> 0 /\ sz mod PGSIZE = 0 /\ 2 * PGSIZE <= sz <= MAXVA + 2 * PGSIZE
  /\ procs x' = alter (new_image p pt sz) me (procs x) /\ total_execs (x_stats x') = total_execs (x_stats x)
  /\ failed_execs (x_stats x') = failed_execs (x_stats x).

Lemma failed_after x x1 x' : same x x1 -> failed x1 x' -> failed x x'.
Proof. unfold same, failed. intuition congruence. Qed.
Lemma replaced_after p a x x1 x' : same x x1 -> replaced p a x1 x' -> replaced p a x x'.
Proof. unfold same, replaced. intros (E1 & E2 & E3) (pt & sz & H'). exists pt, sz. rewrite <- E1, <- E2, <- E3. exact H'. Qed.
Lemma bad_failed pt sz ip (x : X) r x' : bad end_ me pt sz ip x = Ret r x' -> r = -1 /\ failed x x'.
Proof. intros (-> & ? & ? & ?)%bad_run. done. Qed.

(** From the stack on. *)
Lemma finish_run p a pt sz entry oldsz (x : X) r x' :
  pt <> 0 -> 0 <= sz < MAXVA ->
  (let* st := build_stack end_ ustack me pt sz a in
   match st with
   | (sz, None) => bad end_ me pt sz None
   | (sz, Some sp) => commit end_ me p pt sz entry sp oldsz ;;; mreturn (Z.of_nat (length a))
   end) x = Ret r x' ->
  r = -1 /\ failed x x' \/ r = Z.of_nat (length a) /\ replaced p a x x'.
Proof.
  intros Hpt Hsz ([sz1 [sp|]] & x1 & RB & HB)%run_then; pose proof (same_build_stack _ _ _ _ _ _ RB) as HS.
  - apply build_stack_bounds in RB as (-> & Hl & _ & _ & _); [|done].
    apply run_then in HB as ([] & x2 & RC & HB). injection HB as <- <-. right. split; [done|].
    apply replaced_after with x1; [done|]. exists pt, (PGROUNDUP sz + 2 * PGSIZE).
    apply commit_image_run in RC as (E1 & E2 & E3). change MAXVA with (2 ^ 38) in *. unfold PGSIZE.
    assert (0 <= PGROUNDUP sz <= 2 ^ 38 /\ PGROUNDUP sz mod 4096 = 0) as [Hr Hm] by (rewrite PGROUNDUP_spec by lia; dlia).
    split; [done|]. split; [done|]. split; [dlia|]. split; [lia|]. done.
  - apply bad_failed in HB as [-> HF]. left. split; [done|]. by apply failed_after with x1.
Qed.

Lemma same_counted (x : X) (f : exec_stats -> exec_stats) x1 :
  set_stats f x = Ret tt x1 -> procs x1 = procs x /\ x_stats x1 = f (x_stats x).
Proof. unfold set_stats, modify. by intros [= <-]. Qed.

Lemma kexec_cases path argv (x : X) r x' :
  kexec end_ trampoline ustack ip0 me path argv x = Ret r x' ->
  exists x1, procs x1 = procs x
    /\ x_stats x1 = ExecStats (u64 (total_execs (x_stats x) + 1)) (failed_execs (x_stats x)) (security_violations (x_stats x))
    /\ (r = -1 /\ failed x1 x'
        \/ exists p a, path = Some p /\ argv = Some a /\ 0 < Z.of_nat (length p) < MAXPATH /\ printable p = true
             /\ r = Z.of_nat (length a) /\ replaced p a x1 x').
Proof.
  unfold kexec. intros ([] & x1 & [E1 E2]%same_counted & HB)%run_then. exists x1. split; [done|]. split; [done|].
  destruct path as [p|]; [|left; by eapply bad_failed]. destruct argv as [a|]; [|left; by eapply bad_failed].
  apply run_then in HB as ([] & x2 & R2%same_memX & HB). cbv zeta in HB.
  assert (forall pt sz ip x2, same x1 x2 -> bad end_ me pt sz ip x2 = Ret r x' -> r = -1 /\ failed x1 x') as Hbad.
  { intros pt sz ip y Hy [-> HF]%bad_failed. split; [done|]. by apply failed_after with y. }
  destruct (_ || _) eqn:EL; [left; by eapply Hbad|]. apply orb_false_elim in EL as [EL1%Z.eqb_neq EL2].
  rewrite Z.geb_leb in EL2. apply Z.leb_gt in EL2.
  destruct (negb (printable p)) eqn:EP; [left; by eapply Hbad|]. apply negb_false_iff in EP.
  apply run_then in HB as ([] & x3 & R3%same_fsX & HB). pose proof (same_trans _ _ _ R2 R3) as S3. clear R2 R3.
  apply run_then in HB as (q & x4 & R4%same_myproc & HB). pose proof (same_trans _ _ _ S3 R4) as S4. clear S3 R4.
  apply run_then in HB as (ip & x5 & R5 & HB).
  assert (same x1 x5) as S5.
  { apply same_trans with x4; [done|]. destruct (p_cwd q); [by apply same_fsX in R5 | done]. }
  clear S4 R5. destruct ip as [ip|].
  2:{ apply run_then in HB as ([] & x6 & R6%same_fsX & HB). left. eapply Hbad; [|exact HB]. by apply same_trans with x5. }
  apply run_then in HB as ([] & x6 & R6%same_fsX & HB). pose proof (same_trans _ _ _ S5 R6) as S6. clear S5 R6.
  apply run_then in HB as (image & x7 & R7 & HB). pose proof (same_trans _ _ _ S6 (same_load_image _ _ _ _ R7)) as S7. clear S6.
  destruct image as [[[pt sz] entry]|[pt sz]]; [|left; by eapply Hbad]. apply load_image_sz in R7 as [Hpt Hsz].
  apply run_then in HB as ([] & x8 & R8%same_unlockput & HB). apply run_then in HB as ([] & x9 & R9%same_fsX & HB).
  apply run_then in HB as (q2 & x10 & R10%same_myproc & HB).
  assert (same x1 x10) as S10 by (eapply same_trans, same_trans; [exact S7 | eapply same_trans; [exact R8 | exact R9] | exact R10]).
  apply finish_run in HB as [[-> HF]|[-> HR]]; [| |done|done].
  - left. split; [done|]. by apply failed_after with x10.
  - right. exists p, a. split_and!; try done; [lia|]. by apply replaced_after with x10.
Qed.
End Frame.

(** C22: exec is all or nothing.  However it is called, when it returns it has
    counted the attempt; and either it returns -1, the table of processes is
    as it was and the failure is counted, or it returns the number of
    arguments, at most MAXARG, and the only change to the table is that the
    process has the new page table, size and name, with room for the stack. *)
Theorem kexec_all_or_nothing {T H U : Type} `{TxOps T H} `{UserMem U} end_ trampoline ustack ip0 me path argv (x : x_st T U) r x' :
  kexec end_ trampoline ustack ip0 me path argv x = Ret r x' ->
  total_execs (x_stats x') = u64 (total_execs (x_stats x) + 1)
  /\ (r = -1 /\ procs x' = procs x /\ failed_execs (x_stats x') = u64 (failed_execs (x_stats x) + 1)
      \/ exists p a pt sz, path = Some p /\ argv = Some a /\ r = Z.of_nat (length a) /\ (length a <= MAXARG)%nat
           /\ 0 < Z.of_nat (length p) < MAXPATH /\ printable p = true
           /\ pt <> 0 /\ sz mod PGSIZE = 0 /\ 2 * PGSIZE <= sz <= MAXVA + 2 * PGSIZE
           /\ failed_execs (x_stats x') = failed_execs (x_stats x)
           /\ procs x' = alter (new_image p pt sz) me (procs x)).
Proof.
  intros (x1 & E1 & E2 & [[-> (F1 & F2 & F3)]|(p & a & -> & -> & Hl & Hp & -> & pt & sz & R1 & R2 & R3 & R4 & R5 & R6 & R7)])%kexec_cases.
  - rewrite F1, F2, F3, E1, E2. simpl. split; [done|]. left. done.
  - rewrite R6, R7, R5, E1, E2. simpl. split; [done|]. right. by exists p, a, pt, sz.
Qed.

(** A segment that is accepted is a page-aligned part of the user's
    addresses that does not wrap around and has room for its file bytes, and
    its pages get permissions inside the ten flag bits that are never both
    writable and executable. *)
Theorem segment_write_xor_execute {T U : Type} ph (x x' : x_st T U) :
  validate_program_header ph x = Ret 1 x' -> 0 <= ph_flags ph < 2 ^ 32 -> 0 <= ph_vaddr ph < 2 ^ 64 -> 0 <= ph_memsz ph < 2 ^ 64 ->
  let perm := flags2perm (i32 (ph_flags ph)) in
  ph_vaddr ph mod PGSIZE = 0 /\ ph_vaddr ph + ph_memsz ph < MAXVA /\ ph_filesz ph <= ph_memsz ph
  /\ flag perm PTE_W && flag perm PTE_X = false /\ 0 <= perm < 1024.
Proof.
  intros (_ & _ & Hfs & Ha & [Hv Hm] & _ & Hwx)%header_valid Hf Hva Hme perm. change MAXVA with (2 ^ 38) in *.
  split; [done|]. split; [unfold u64 in *; dlia|]. split; [done|].
  destruct (decide (0 <= i32 (ph_flags ph) <= 7)) as [Hr|Hr].
  - destruct (flags2perm_testbits _ Hr perm eq_refl) as (Ex & Ew & _ & _ & Hp). split; [|done]. rewrite Ex, Ew.
    assert (i32 (ph_flags ph) = ph_flags ph) as E by (unfold i32 in *; dlia). rewrite E in *.
    destruct (Z.testbit (ph_flags ph) 1) eqn:E1; [|done]. destruct (Z.testbit (ph_flags ph) 0) eqn:E0; [|done].
    exfalso. apply Hwx. apply Z.bits_inj'. intros k Hk. rewrite Z.land_spec. change 3 with (Z.ones 2).
    destruct (decide (k < 2)) as [Hk2|Hk2].
    + rewrite Z.ones_spec_low by lia. assert (k = 0 \/ k = 1) as [-> | ->] by lia; by rewrite ?E0, ?E1.
    + rewrite Z.ones_spec_high by lia. by rewrite andb_false_r.
  - assert (perm = 0) as ->; [|done]. unfold perm, flags2perm. destruct (Z.ltb_spec (i32 (ph_flags ph)) 0); [done|].
    destruct (Z.gtb_spec (i32 (ph_flags ph)) 7); [done | lia].
Qed.

(** C23: an error before the file is opened jumps to [bad] with [ip] not set.
    When the value left in it happens to name an inode the process has not
    locked, exec of an empty path stops the kernel. *)
Theorem kexec_uninitialised_ip {T H U : Type} `{TxOps T H} `{UserMem U} end_ trampoline ustack i me argv (x : x_st T U) :
  holdingsleep (p_pid (procs x !!! me)) (i_lock (fs_itable (ft_fs (ps_env (kn_ps (x_kern x)))) !!! i)) = false ->
  kexec end_ trampoline ustack (Some i) me (Some []) (Some argv) x = Panic "iunlock".
Proof.
  intros Hh. unfold kexec, bad, unlockputX, iunlockput, iunlock, fsX, myprocX, procX, kernX, psM, envM, fsM, memX, memM, on_ks, count, set_stats,
    inode_at, proc_at, zoom, gets, modify, mthen, skip, mreturn, procs in *. simpl. by rewrite Hh.
Qed.

(** ** Concrete calls *)

Module ExecDemo.
Definition with_ka (ka : kalloc_st) (k : kern (file_st ideal flat_mem)) : kern (file_st ideal flat_mem) :=
  set_kn_ps (ProcSt _ (ps_proc (kn_ps k)) (ps_nextpid (kn_ps k)) (ps_init (kn_ps k)) ka (ps_env (kn_ps k))) k.
(** The process of [DescDemo], with two free pages. *)
Definition pages : kalloc_st :=
  ProcDemo.after Demo.space ((kfree KERNBASE (KERNBASE + 0x8000) ;;; kfree KERNBASE (KERNBASE + 0x9000)) Demo.space).
Definition x0 : x_st ideal flat_mem := XSt _ _ (sf_kern DescDemo.s0) (ExecStats 0 0 0).
Definition x1 : x_st ideal flat_mem := XSt _ _ (with_ka pages (sf_kern DescDemo.s0)) (ExecStats 0 0 0).
Definition ustack : Z := KERNBASE + 0xa000.
Definition x2 : x_st ideal flat_mem := ProcDemo.after x0 (kexec KERNBASE 0 ustack None 0 (Some []) (Some []) x0).
Definition seg : proghdr := Proghdr 1 5 4096 0 0 100 200 4096.
End ExecDemo.

Lemma kexec_all_or_nothing_witness :
  kexec KERNBASE 0 ExecDemo.ustack None 0 (Some []) (Some []) ExecDemo.x0 = Ret (-1) ExecDemo.x2
  /\ total_execs (x_stats ExecDemo.x2) = u64 (0 + 1).
Proof.
  assert (kexec KERNBASE 0 ExecDemo.ustack None 0 (Some []) (Some []) ExecDemo.x0 = Ret (-1) ExecDemo.x2) as R by reflexivity.
  split; [exact R|]. exact (proj1 (kexec_all_or_nothing KERNBASE 0 ExecDemo.ustack None 0 _ _ _ _ _ R)).
Defined.

(** A stack without arguments: [sp] is 16 bytes below the top. *)
Example built_stack :
  match build_stack KERNBASE ExecDemo.ustack 0 Demo.A 4096 [] ExecDemo.x1 with
  | Ret r _ => bool_decide (r = (12288, Some 12272))
  | _ => false
  end = true.
Proof. vm_compute. reflexivity. Qed.

Lemma segment_write_xor_execute_witness :
  validate_program_header ExecDemo.seg ExecDemo.x0 = Ret 1 ExecDemo.x0
  /\ flag (flags2perm 5) PTE_W && flag (flags2perm 5) PTE_X = false.
Proof.
  split; [reflexivity|].
  destruct (segment_write_xor_execute ExecDemo.seg ExecDemo.x0 ExecDemo.x0 eq_refl) as (_ & _ & _ & H & _); simpl; try lia; exact H.
Defined.

Lemma kexec_uninitialised_ip_witness :
  kexec KERNBASE 0 ExecDemo.ustack (Some 0%nat) 0 (Some []) (Some []) ExecDemo.x0 = Panic "iunlock".
Proof. apply kexec_uninitialised_ip. reflexivity. Defined.
