(* ===== verification/Virtio.v ===== *)
(** The virtio disk driver (src/kernel/virtio_disk.c, virtio.h).

    The driver shares with the device a table of descriptors and two rings:
    the driver writes heads of descriptor chains into [avail], the device
    writes them into [used] when it has performed the request.  An array of
    [NUM] entries is a function of the index; a pointer into one of them, or to
    a buffer, that is given to the device is a [dma].

    [virtio_disk_rw] holds [vdisk_lock] except while it sleeps, so a call is
    three pieces: up to the sleep for descriptors, from there up to the sleep
    for completion, and the rest.  [rw_next] says where a piece stopped.
    [wakeup(chan)] adds [chan] to [v_woken].  The handler of an interrupt is
    one atomic step: entries the device adds while it runs are left to the next
    interrupt, which the comment in the code calls harmless. *)

From stdpp Require Import functions.
From S2P Require Import Prelude.

Definition NUM : nat := 8.
Definition BSIZE : Z := 1024.
Definition VRING_DESC_F_NEXT : Z := 1.
Definition VRING_DESC_F_WRITE : Z := 2.
Definition VIRTIO_BLK_T_IN : Z := 0.
Definition VIRTIO_BLK_T_OUT : Z := 1.

Definition VIRTIO_MMIO_MAGIC_VALUE : Z := 0x000.
Definition VIRTIO_MMIO_VERSION : Z := 0x004.
Definition VIRTIO_MMIO_DEVICE_ID : Z := 0x008.
Definition VIRTIO_MMIO_VENDOR_ID : Z := 0x00c.
Definition VIRTIO_MMIO_DEVICE_FEATURES : Z := 0x010.
Definition VIRTIO_MMIO_DRIVER_FEATURES : Z := 0x020.
Definition VIRTIO_MMIO_QUEUE_SEL : Z := 0x030.
Definition VIRTIO_MMIO_QUEUE_NUM_MAX : Z := 0x034.
Definition VIRTIO_MMIO_QUEUE_NUM : Z := 0x038.
Definition VIRTIO_MMIO_QUEUE_READY : Z := 0x044.
Definition VIRTIO_MMIO_QUEUE_NOTIFY : Z := 0x050.
Definition VIRTIO_MMIO_INTERRUPT_STATUS : Z := 0x060.
Definition VIRTIO_MMIO_INTERRUPT_ACK : Z := 0x064.
Definition VIRTIO_MMIO_STATUS : Z := 0x070.
Definition VIRTIO_MMIO_QUEUE_DESC_LOW : Z := 0x080.
Definition VIRTIO_MMIO_QUEUE_DESC_HIGH : Z := 0x084.
Definition VIRTIO_MMIO_DRIVER_DESC_LOW : Z := 0x090.
Definition VIRTIO_MMIO_DRIVER_DESC_HIGH : Z := 0x094.
Definition VIRTIO_MMIO_DEVICE_DESC_LOW : Z := 0x0a0.
Definition VIRTIO_MMIO_DEVICE_DESC_HIGH : Z := 0x0a4.

Definition VIRTIO_CONFIG_S_ACKNOWLEDGE : Z := 1.
Definition VIRTIO_CONFIG_S_DRIVER : Z := 2.
Definition VIRTIO_CONFIG_S_DRIVER_OK : Z := 4.
Definition VIRTIO_CONFIG_S_FEATURES_OK : Z := 8.

Definition VIRTIO_BLK_F_RO : Z := 5.
Definition VIRTIO_BLK_F_SCSI : Z := 7.
Definition VIRTIO_BLK_F_CONFIG_WCE : Z := 11.
Definition VIRTIO_BLK_F_MQ : Z := 12.
Definition VIRTIO_F_ANY_LAYOUT : Z := 27.
Definition VIRTIO_RING_F_INDIRECT_DESC : Z := 28.
Definition VIRTIO_RING_F_EVENT_IDX : Z := 29.

(** ** State *)

(** [&disk.ops[i]], [bufs[b].data], [&disk.info[i].status]. *)
Inductive dma := DmaNull | DmaOps (i : nat) | DmaData (b : nat) | DmaStatus (i : nat).
Record virtq_desc := VirtqDesc { vd_addr : dma; vd_len : Z; vd_flags : Z; vd_next : nat }.
Record virtio_blk_req := VirtioBlkReq { vr_type : Z; vr_reserved : Z; vr_sector : Z }.
Record vbuf := Vbuf { vb_blockno : Z; vb_disk : Z; vb_data : list Z }.

(** The pages shared with the device. *)
Record virtq := Virtq {
  q_desc : nat -> virtq_desc;
  q_avail_ring : nat -> Z;
  q_avail_idx : Z;
  q_used_ring : nat -> Z;
  q_used_idx : Z }.

Inductive virtio_stat :=
| read_requests | write_requests | completed_ops | failed_ops | interrupts | descriptor_alloc_failures
| total_bytes_read | total_bytes_written | max_queue_depth | avg_response_time.
#[global] Instance virtio_stat_eq_dec : EqDecision virtio_stat.
Proof. solve_decision. Defined.

Record perf := Perf { pf_start_time : nat -> Z; pf_total_time : Z; pf_operation_count : Z }.

(** The channels processes of the driver sleep on: [&disk.free[0]] and a
    buffer. *)
Inductive vchan := ChanFree | ChanBuf (b : nat).

Record vst := Vst {
  v_q : virtq;
  v_free : nat -> bool;
  v_used_idx : Z;
  v_info_b : nat -> option nat;
  v_info_status : nat -> Z;
  v_ops : nat -> virtio_blk_req;
  v_bufs : nat -> vbuf;
  v_stats : counters virtio_stat;
  v_perf : perf;
  v_woken : list vchan;
  v_mmio : list (Z * Z) }.

Definition set_q f s := Vst (f (v_q s)) (v_free s) (v_used_idx s) (v_info_b s) (v_info_status s) (v_ops s) (v_bufs s) (v_stats s) (v_perf s) (v_woken s) (v_mmio s).
Definition set_free i x s := Vst (v_q s) (<[i := x]> (v_free s)) (v_used_idx s) (v_info_b s) (v_info_status s) (v_ops s) (v_bufs s) (v_stats s) (v_perf s) (v_woken s) (v_mmio s).
Definition set_used_idx x s := Vst (v_q s) (v_free s) x (v_info_b s) (v_info_status s) (v_ops s) (v_bufs s) (v_stats s) (v_perf s) (v_woken s) (v_mmio s).
Definition set_info_b i x s := Vst (v_q s) (v_free s) (v_used_idx s) (<[i := x]> (v_info_b s)) (v_info_status s) (v_ops s) (v_bufs s) (v_stats s) (v_perf s) (v_woken s) (v_mmio s).
Definition set_status i x s := Vst (v_q s) (v_free s) (v_used_idx s) (v_info_b s) (<[i := x]> (v_info_status s)) (v_ops s) (v_bufs s) (v_stats s) (v_perf s) (v_woken s) (v_mmio s).
Definition set_ops i x s := Vst (v_q s) (v_free s) (v_used_idx s) (v_info_b s) (v_info_status s) (<[i := x]> (v_ops s)) (v_bufs s) (v_stats s) (v_perf s) (v_woken s) (v_mmio s).
Definition set_buf b x s := Vst (v_q s) (v_free s) (v_used_idx s) (v_info_b s) (v_info_status s) (v_ops s) (<[b := x]> (v_bufs s)) (v_stats s) (v_perf s) (v_woken s) (v_mmio s).
Definition set_stats f s := Vst (v_q s) (v_free s) (v_used_idx s) (v_info_b s) (v_info_status s) (v_ops s) (v_bufs s) (f (v_stats s)) (v_perf s) (v_woken s) (v_mmio s).
Definition set_perf x s := Vst (v_q s) (v_free s) (v_used_idx s) (v_info_b s) (v_info_status s) (v_ops s) (v_bufs s) (v_stats s) x (v_woken s) (v_mmio s).
Definition set_woken f s := Vst (v_q s) (v_free s) (v_used_idx s) (v_info_b s) (v_info_status s) (v_ops s) (v_bufs s) (v_stats s) (v_perf s) (f (v_woken s)) (v_mmio s).
Definition set_mmio f s := Vst (v_q s) (v_free s) (v_used_idx s) (v_info_b s) (v_info_status s) (v_ops s) (v_bufs s) (v_stats s) (v_perf s) (v_woken s) (f (v_mmio s)).

Definition put_desc (i : nat) (d : virtq_desc) (q : virtq) : virtq :=
  Virtq (<[i := d]> (q_desc q)) (q_avail_ring q) (q_avail_idx q) (q_used_ring q) (q_used_idx q).
(** [avail->ring[avail->idx % NUM] = head; avail->idx += 1]: [idx] is a
    [uint16]. *)
Definition put_avail (head : nat) (q : virtq) : virtq :=
  Virtq (q_desc q) (<[Z.to_nat (q_avail_idx q mod Z.of_nat NUM) := Z.of_nat head]> (q_avail_ring q))
    (u16 (q_avail_idx q + 1)) (q_used_ring q) (q_used_idx q).

Definition bump (f : virtio_stat) (n : Z) (c : counters virtio_stat) : counters virtio_stat :=
  fun g => if decide (g = f) then u64 (c g + n) else c g.
Definition count (f : virtio_stat) : M vst () := modify (set_stats (incr f)).
Definition wakeup (c : vchan) : M vst () := modify (set_woken (fun l => c :: l)).

Definition virtio_stats_init : M vst () := modify (set_stats (fun _ => zero_counters)).

(** ** Descriptors *)

Definition alloc_desc : M vst (option nat) :=
  let* free := gets v_free in
  match List.find free (seq 0 NUM) with
  | Some i => modify (set_free i false) ;;; mreturn (Some i)
  | None => count descriptor_alloc_failures ;;; mreturn None
  end.

Definition free_desc (i : nat) : M vst () :=
  if (NUM <=? i)%nat then panic "free_desc 1" else
  let* free := gets v_free in
  if free i then panic "free_desc 2" else
  modify (set_q (put_desc i (VirtqDesc DmaNull 0 0 0))) ;;;
  modify (set_free i true) ;;;
  wakeup ChanFree.

(** The loop of [free_chain] with [count] descriptors freed so far; it stops by
    itself once [count] exceeds [NUM], so [NUM + 1] rounds are enough. *)
Fixpoint free_chain_loop (fuel : nat) (i count : nat) : M vst () :=
  match fuel with
  | O => diverge
  | S fuel' =>
      let* q := gets v_q in
      let flag := vd_flags (q_desc q i) in
      let nxt := vd_next (q_desc q i) in
      free_desc i ;;;
      let count := S count in
      if truth (Z.land flag VRING_DESC_F_NEXT)
      then if (NUM <? count)%nat then skip else free_chain_loop fuel' nxt count
      else skip
  end.
Definition free_chain (i : nat) : M vst () := free_chain_loop (S NUM) i 0.

(** [idx[0..2]]; on failure the descriptors already taken are freed. *)
Definition idx3 : Type := nat * nat * nat.
Definition alloc3_desc : M vst (option idx3) :=
  let* r0 := alloc_desc in
  match r0 with
  | None => mreturn None
  | Some i0 =>
      let* r1 := alloc_desc in
      match r1 with
      | None => free_desc i0 ;;; mreturn None
      | Some i1 =>
          let* r2 := alloc_desc in
          match r2 with
          | None => free_desc i0 ;;; free_desc i1 ;;; mreturn None
          | Some i2 => mreturn (Some (i0, i1, i2))
          end
      end
  end.

Definition get_queue_depth (s : vst) : Z := Z.of_nat (length (filter (fun i => v_free s i = false) (seq 0 NUM))).

(** ** Registers

    [reg w r] is what the device answers for register [r] after the writes [w],
    most recent first. *)
Section Driver.
Context (reg : list (Z * Z) -> Z -> Z).

Definition validate_virtio_reg (offset : Z) : bool := if offset >? 0x100 then false else true.
Definition safe_read_reg (offset : Z) : M vst Z :=
  if negb (validate_virtio_reg offset) then mreturn 0 else gets (fun s => u32 (reg (v_mmio s) offset)).
Definition safe_write_reg (offset value : Z) : M vst () :=
  if negb (validate_virtio_reg offset) then skip else modify (set_mmio (fun w => (offset, u32 value) :: w)).

(** [features &= ~(1 << bit)] on a [uint64]. *)
Definition drop_feature (bit features : Z) : Z := Z.land features (u64 (Z.lnot (Z.shiftl 1 bit))).

(** [desc], [avail] and [used] are the results of the three [kalloc()]. *)
Definition virtio_disk_init (desc avail used : Z) : M vst () :=
  virtio_stats_init ;;;
  let* magic := safe_read_reg VIRTIO_MMIO_MAGIC_VALUE in
  let* version := safe_read_reg VIRTIO_MMIO_VERSION in
  let* device_id := safe_read_reg VIRTIO_MMIO_DEVICE_ID in
  let* vendor_id := safe_read_reg VIRTIO_MMIO_VENDOR_ID in
  if negb (magic =? 0x74726976) || negb (version =? 2) || negb (device_id =? 2) || negb (vendor_id =? 0x554d4551)
  then panic "could not find virtio disk" else
  let status := 0 in
  safe_write_reg VIRTIO_MMIO_STATUS status ;;;
  let status := Z.lor status VIRTIO_CONFIG_S_ACKNOWLEDGE in
  safe_write_reg VIRTIO_MMIO_STATUS status ;;;
  let status := Z.lor status VIRTIO_CONFIG_S_DRIVER in
  safe_write_reg VIRTIO_MMIO_STATUS status ;;;
  let* features := safe_read_reg VIRTIO_MMIO_DEVICE_FEATURES in
  let features := drop_feature VIRTIO_BLK_F_RO features in
  let features := drop_feature VIRTIO_BLK_F_SCSI features in
  let features := drop_feature VIRTIO_BLK_F_CONFIG_WCE features in
  let features := drop_feature VIRTIO_BLK_F_MQ features in
  let features := drop_feature VIRTIO_F_ANY_LAYOUT features in
  let features := drop_feature VIRTIO_RING_F_EVENT_IDX features in
  let features := drop_feature VIRTIO_RING_F_INDIRECT_DESC features in
  safe_write_reg VIRTIO_MMIO_DRIVER_FEATURES features ;;;
  let status := Z.lor status VIRTIO_CONFIG_S_FEATURES_OK in
  safe_write_reg VIRTIO_MMIO_STATUS status ;;;
  let* status := safe_read_reg VIRTIO_MMIO_STATUS in
  if negb (truth (Z.land status VIRTIO_CONFIG_S_FEATURES_OK)) then panic "virtio disk FEATURES_OK unset" else
  safe_write_reg VIRTIO_MMIO_QUEUE_SEL 0 ;;;
  let* ready := safe_read_reg VIRTIO_MMIO_QUEUE_READY in
  if truth ready then panic "virtio disk should not be ready" else
  let* max := safe_read_reg VIRTIO_MMIO_QUEUE_NUM_MAX in
  if max =? 0 then panic "virtio disk has no queue 0" else
  if max <? Z.of_nat NUM then panic "virtio disk max queue too short" else
  if (desc =? 0) || (avail =? 0) || (used =? 0) then panic "virtio disk kalloc" else
  modify (set_q (fun _ => Virtq (fun _ => VirtqDesc DmaNull 0 0 0) (fun _ => 0) 0 (fun _ => 0) 0)) ;;;
  safe_write_reg VIRTIO_MMIO_QUEUE_NUM (Z.of_nat NUM) ;;;
  safe_write_reg VIRTIO_MMIO_QUEUE_DESC_LOW desc ;;;
  safe_write_reg VIRTIO_MMIO_QUEUE_DESC_HIGH (Z.shiftr desc 32) ;;;
  safe_write_reg VIRTIO_MMIO_DRIVER_DESC_LOW avail ;;;
  safe_write_reg VIRTIO_MMIO_DRIVER_DESC_HIGH (Z.shiftr avail 32) ;;;
  safe_write_reg VIRTIO_MMIO_DEVICE_DESC_LOW used ;;;
  safe_write_reg VIRTIO_MMIO_DEVICE_DESC_HIGH (Z.shiftr used 32) ;;;
  safe_write_reg VIRTIO_MMIO_QUEUE_READY 1 ;;;
  mfor (seq 0 NUM) (fun i => modify (set_free i true)) ;;;
  let status := Z.lor status VIRTIO_CONFIG_S_DRIVER_OK in
  safe_write_reg VIRTIO_MMIO_STATUS status.

(** ** A disk request *)

(** Where a piece of [virtio_disk_rw] stops: asleep for descriptors after
    [timeout] failures, asleep for the completion of the chain [idx] after
    [timeout] wake-ups, or returned ([done] is false when it gave up). *)
Inductive rw_next :=
| RwNoDesc (timeout : Z)
| RwWait (idx : idx3) (start_time timeout : Z)
| RwReturn (done : bool).

(** The part after the completion wait; [now] is [r_time()]. *)
Definition rw_finish (idx : idx3) (start_time now : Z) (done : bool) : M vst rw_next :=
  let '(i0, _, _) := idx in
  when truth start_time do
    modify (fun s => set_perf (Perf (pf_start_time (v_perf s)) (u64 (pf_total_time (v_perf s) + u64 (now - start_time)))
                                 (u64 (pf_operation_count (v_perf s) + 1))) s) ;;;
  modify (set_info_b i0 None) ;;;
  free_chain i0 ;;;
  count completed_ops ;;;
  mreturn (RwReturn done).

(** The test of [while(b->disk == 1)]: sleep on [b], or go on. *)
Definition rw_wait (b : nat) (idx : idx3) (start_time timeout now : Z) : M vst rw_next :=
  let* bufs := gets v_bufs in
  if vb_disk (bufs b) =? 1 then mreturn (RwWait idx start_time timeout) else rw_finish idx start_time now true.

(** After [sleep(b, &disk.vdisk_lock)] returns. *)
Definition rw_woken (b : nat) (idx : idx3) (start_time timeout now : Z) : M vst rw_next :=
  let timeout := timeout + 1 in
  if timeout >? 10000 then count failed_ops ;;; rw_finish idx start_time now false
  else rw_wait b idx start_time timeout now.

(** Descriptors formatted, the request in the ring, the device notified. *)
Definition rw_submit (b : nat) (write : bool) (sector : Z) (idx : idx3) (now : Z) : M vst rw_next :=
  let '(i0, i1, i2) := idx in
  let start_time := now in
  modify (fun s => set_perf (Perf (<[i0 := start_time]> (pf_start_time (v_perf s))) (pf_total_time (v_perf s))
                               (pf_operation_count (v_perf s))) s) ;;;
  modify (set_ops i0 (VirtioBlkReq (if write then VIRTIO_BLK_T_OUT else VIRTIO_BLK_T_IN) 0 sector)) ;;;
  modify (set_q (put_desc i0 (VirtqDesc (DmaOps i0) 16 VRING_DESC_F_NEXT i1))) ;;;
  modify (set_q (put_desc i1 (VirtqDesc (DmaData b) BSIZE
    (Z.lor (if write then 0 else VRING_DESC_F_WRITE) VRING_DESC_F_NEXT) i2))) ;;;
  modify (set_status i0 0xff) ;;;
  modify (set_q (put_desc i2 (VirtqDesc (DmaStatus i0) 1 VRING_DESC_F_WRITE 0))) ;;;
  modify (fun s => set_buf b (Vbuf (vb_blockno (v_bufs s b)) 1 (vb_data (v_bufs s b))) s) ;;;
  modify (set_info_b i0 (Some b)) ;;;
  modify (set_q (put_avail i0)) ;;;
  safe_write_reg VIRTIO_MMIO_QUEUE_NOTIFY 0 ;;;
  rw_wait b idx start_time 0 now.

(** One round of the loop around [alloc3_desc]. *)
Definition rw_alloc (b : nat) (write : bool) (sector timeout now : Z) : M vst rw_next :=
  let* r := alloc3_desc in
  match r with
  | Some idx => rw_submit b write sector idx now
  | None =>
      let timeout := timeout + 1 in
      if timeout >? 1000 then count failed_ops ;;; mreturn (RwReturn false)
      else mreturn (RwNoDesc timeout)
  end.

(** [b->blockno * (BSIZE / 512)]: the product of a [uint] and an [int]. *)
Definition sector_of (blockno : Z) : Z := u32 (blockno * (BSIZE / 512)).

Definition virtio_disk_rw (b : nat) (write : bool) (now : Z) : M vst rw_next :=
  let* bufs := gets v_bufs in
  let sector := sector_of (vb_blockno (bufs b)) in
  (if write
   then count write_requests ;;; modify (set_stats (bump total_bytes_written BSIZE))
   else count read_requests ;;; modify (set_stats (bump total_bytes_read BSIZE))) ;;;
  let* queue_depth := gets get_queue_depth in
  modify (set_stats (fun c => if queue_depth >? c max_queue_depth
                              then fun g => if decide (g = max_queue_depth) then queue_depth else c g
                              else c)) ;;;
  rw_alloc b write sector 0 now.

(** ** Interrupts *)

(** The loop over the used ring with [processed] completions handled; it stops
    by itself after [NUM + 1] of them. *)
Fixpoint intr_loop (fuel : nat) (processed : nat) : M vst () :=
  match fuel with
  | O => diverge
  | S fuel' =>
      let* used_idx := gets v_used_idx in
      let* q := gets v_q in
      if used_idx =? q_used_idx q then skip else
      let id := i32 (q_used_ring q (Z.to_nat (used_idx mod Z.of_nat NUM))) in
      if id >=? Z.of_nat NUM then skip else
      if id <? 0 then panic "undefined: disk.info at a negative index" else
      let* status := gets v_info_status in
      if truth (status (Z.to_nat id)) then count failed_ops ;;; panic "virtio_disk_intr status" else
      let* info_b := gets v_info_b in
      match info_b (Z.to_nat id) with
      | None => skip
      | Some b =>
          modify (fun s => set_buf b (Vbuf (vb_blockno (v_bufs s b)) 0 (vb_data (v_bufs s b))) s) ;;;
          wakeup (ChanBuf b)
      end ;;;
      modify (set_used_idx (u16 (used_idx + 1))) ;;;
      if (NUM <? S processed)%nat then skip else intr_loop fuel' (S processed)
  end.

Definition virtio_disk_intr : M vst () :=
  count interrupts ;;;
  let* int_status := safe_read_reg VIRTIO_MMIO_INTERRUPT_STATUS in
  safe_write_reg VIRTIO_MMIO_INTERRUPT_ACK (Z.land int_status 3) ;;;
  intr_loop (S NUM) 0.
End Driver.
