(* ===== verification/VirtioSys.v ===== *)
(** The disk driver with the device and its callers: an interleaving of the
    pieces of [virtio_disk_rw], of interrupts and of the device's own steps,
    and the disk it implements, on which a request is one atomic transfer.

    The device is not code of the repository.  It does what the virtio
    specification and the comments of the driver say: it takes heads from the
    available ring in order, reads the chain and the request header, performs
    the requests it has taken in any order, and for each writes status 0 and
    one entry of the used ring.  A device that reports an error makes the
    driver panic ([virtio_disk_intr]) and is left out. *)

From stdpp Require Import functions.
From S2P Require Import Prelude.
From S2P Require Import Virtio.

(** ** The device *)

Record request := Request {
  rq_head : nat; rq_write : bool; rq_sector : Z; rq_data : nat; rq_len : Z; rq_status : nat }.

(** A disk is a function from sectors to their 512 bytes. *)
Definition read_sectors (d : Z -> list Z) (sector len : Z) : list Z :=
  concat ((fun k => d (sector + Z.of_nat k)) <$> seq 0 (Z.to_nat (len / 512))).
Definition write_sectors (d : Z -> list Z) (sector len : Z) (data : list Z) : Z -> list Z :=
  fun x => if (sector <=? x) && (x <? sector + len / 512)
           then take 512 (drop (Z.to_nat (512 * (x - sector))) data) else d x.

Record device := Device { dv_seen : Z; dv_pending : list request; dv_sectors : Z -> list Z }.

(** The chain at [head] as a block request; the flags must say that the device
    reads the header, reads or writes the data as the type demands, and writes
    the status. *)
Definition fetch (s : vst) (head : nat) : option request :=
  let d0 := q_desc (v_q s) head in
  let d1 := q_desc (v_q s) (vd_next d0) in
  let d2 := q_desc (v_q s) (vd_next d1) in
  let has f d := truth (Z.land (vd_flags d) f) in
  match vd_addr d0, vd_addr d1, vd_addr d2 with
  | DmaOps i, DmaData b, DmaStatus j =>
      let write := vr_type (v_ops s i) =? VIRTIO_BLK_T_OUT in
      if has VRING_DESC_F_NEXT d0 && has VRING_DESC_F_NEXT d1 && negb (has VRING_DESC_F_NEXT d2)
         && negb (has VRING_DESC_F_WRITE d0) && eqb (has VRING_DESC_F_WRITE d1) (negb write)
         && has VRING_DESC_F_WRITE d2
      then Some (Request head write (vr_sector (v_ops s i)) b (vd_len d1) j)
      else None
  | _, _, _ => None
  end.

Definition dev_take (s : vst) (d : device) : option device :=
  if dv_seen d =? q_avail_idx (v_q s) then None else
  let head := Z.to_nat (q_avail_ring (v_q s) (Z.to_nat (dv_seen d mod Z.of_nat NUM))) in
  r ← fetch s head;
  Some (Device (u16 (dv_seen d + 1)) (dv_pending d ++ [r]) (dv_sectors d)).

Definition put_used (id : Z) (q : virtq) : virtq :=
  Virtq (q_desc q) (q_avail_ring q) (q_avail_idx q)
    (<[Z.to_nat (q_used_idx q mod Z.of_nat NUM) := id]> (q_used_ring q)) (u16 (q_used_idx q + 1)).
Definition set_data (b : nat) (data : list Z) (s : vst) : vst :=
  set_buf b (Vbuf (vb_blockno (v_bufs s b)) (vb_disk (v_bufs s b)) data) s.

Definition dev_perform (k : nat) (s : vst) (d : device) : option (vst * device) :=
  r ← dv_pending d !! k;
  let b := rq_data r in
  let s1 := if rq_write r then s else set_data b (read_sectors (dv_sectors d) (rq_sector r) (rq_len r)) s in
  let sectors := if rq_write r then write_sectors (dv_sectors d) (rq_sector r) (rq_len r) (vb_data (v_bufs s b))
                 else dv_sectors d in
  Some (set_q (put_used (Z.of_nat (rq_head r))) (set_status (rq_status r) 0 s1),
        Device (dv_seen d) (delete k (dv_pending d)) sectors).

(** ** The system *)

(** A call of [virtio_disk_rw] that sleeps, with its local variables. *)
Inductive call :=
| CallDesc (b : nat) (write : bool) (sector timeout : Z)
| CallWait (b : nat) (write : bool) (sector : Z) (idx : idx3) (start_time timeout : Z).
Definition call_buf (c : call) : nat := match c with CallDesc b _ _ _ | CallWait b _ _ _ _ _ => b end.

Record vsys := Vsys { y_v : vst; y_dev : device; y_calls : gmap nat call }.

Definition unused (b : nat) (calls : gmap nat call) : Prop := map_Forall (fun _ c => call_buf c <> b) calls.

(** What the callers see of a run. *)
Inductive vevent :=
| EvCall (t b : nat) (write : bool) (sector : Z)
| EvReturn (t : nat) (done : bool) (data : list Z)
| EvGiveUp (t : nat)
| EvOwner (b : nat) (blockno : Z) (data : list Z).

Definition stopped (t b : nat) (write : bool) (sector : Z) (r : rw_next) (calls : gmap nat call) : gmap nat call :=
  match r with
  | RwNoDesc n => <[t := CallDesc b write sector n]> calls
  | RwWait idx st n => <[t := CallWait b write sector idx st n]> calls
  | RwReturn _ => delete t calls
  end.
Definition returned (t b : nat) (r : rw_next) (s : vst) : list vevent :=
  match r with RwReturn done => [EvReturn t done (vb_data (v_bufs s b))] | _ => [] end.
(** The caller woken for the 10001st time stops waiting for its request. *)
Definition gave_up (t : nat) (timeout : Z) : list vevent := if 10000 <? timeout + 1 then [EvGiveUp t] else [].

Section System.
Context (reg : list (Z * Z) -> Z -> Z).

(** One step.  The caller of [virtio_disk_rw] holds the buffer's sleep lock, so
    a buffer is in at most one call, and its owner changes it only between
    calls.  A sleeping process may be woken at any time ([kkill] does so).  The
    event [EvGiveUp] marks a caller that leaves while its request is still with
    the device; [late_completion] shows what can happen after it. *)
Inductive vstep : vsys -> list vevent -> vsys -> Prop :=
| vs_call s d calls t b write now r s' :
    calls !! t = None -> unused b calls ->
    virtio_disk_rw b write now s = Ret r s' ->
    let sector := sector_of (vb_blockno (v_bufs s b)) in
    vstep (Vsys s d calls) (EvCall t b write sector :: returned t b r s') (Vsys s' d (stopped t b write sector r calls))
| vs_retry s d calls t b write sector timeout now r s' :
    calls !! t = Some (CallDesc b write sector timeout) ->
    rw_alloc b write sector timeout now s = Ret r s' ->
    vstep (Vsys s d calls) (returned t b r s') (Vsys s' d (stopped t b write sector r calls))
| vs_woken s d calls t b write sector idx st timeout now r s' :
    calls !! t = Some (CallWait b write sector idx st timeout) ->
    rw_woken b idx st timeout now s = Ret r s' ->
    vstep (Vsys s d calls) (gave_up t timeout ++ returned t b r s') (Vsys s' d (stopped t b write sector r calls))
| vs_intr s d calls s' :
    virtio_disk_intr reg s = Ret tt s' -> vstep (Vsys s d calls) [] (Vsys s' d calls)
| vs_take s d calls d' :
    dev_take s d = Some d' -> vstep (Vsys s d calls) [] (Vsys s d' calls)
| vs_perform s d calls k s' d' :
    dev_perform k s d = Some (s', d') -> vstep (Vsys s d calls) [] (Vsys s' d' calls)
| vs_owner s d calls b blockno data :
    unused b calls ->
    vstep (Vsys s d calls) [EvOwner b blockno data] (Vsys (set_buf b (Vbuf blockno (vb_disk (v_bufs s b)) data) s) d calls).

Inductive vruns : vsys -> list vevent -> vsys -> Prop :=
| vruns_refl y : vruns y [] y
| vruns_step y y' y'' tr l : vruns y tr y' -> vstep y' l y'' -> vruns y (tr ++ l) y''.

(** The system after [virtio_disk_init] ran on zeroed static data: the device
    starts with empty queues and any disk. *)
Definition boot_vst : vst :=
  Vst (Virtq (fun _ => VirtqDesc DmaNull 0 0 0) (fun _ => 0) 0 (fun _ => 0) 0) (fun _ => false) 0 (fun _ => None) (fun _ => 0)
    (fun _ => VirtioBlkReq 0 0 0) (fun _ => Vbuf 0 0 (replicate 1024 0)) zero_counters (Perf (fun _ => 0) 0 0) [] [].
Definition booted (desc avail used : Z) (y : vsys) : Prop :=
  exists s sectors, virtio_disk_init reg desc avail used boot_vst = Ret tt s /\ y = Vsys s (Device 0 [] sectors) ∅.
End System.

(** ** The disk it implements

    A request is known by its call; its transfer happens at one moment between
    the call and the return, which then reports success.  A call may also end
    without a transfer: it reports failure, and two other calls are in
    progress. *)

Record acall := Acall { ac_buf : nat; ac_write : bool; ac_sector : Z; ac_done : bool }.
Record adisk := Adisk {
  a_sectors : Z -> list Z; a_blockno : nat -> Z; a_data : nat -> list Z; a_calls : gmap nat acall }.

Inductive astep : adisk -> list vevent -> adisk -> Prop :=
| as_call d n f calls t b write :
    calls !! t = None ->
    astep (Adisk d n f calls) [EvCall t b write (sector_of (n b))]
      (Adisk d n f (<[t := Acall b write (sector_of (n b)) false]> calls))
| as_read d n f calls t b sector :
    calls !! t = Some (Acall b false sector false) ->
    astep (Adisk d n f calls) []
      (Adisk d n (<[b := read_sectors d sector BSIZE]> f) (<[t := Acall b false sector true]> calls))
| as_write d n f calls t b sector :
    calls !! t = Some (Acall b true sector false) ->
    astep (Adisk d n f calls) []
      (Adisk (write_sectors d sector BSIZE (f b)) n f (<[t := Acall b true sector true]> calls))
| as_return d n f calls t b write sector :
    calls !! t = Some (Acall b write sector true) ->
    astep (Adisk d n f calls) [EvReturn t true (f b)] (Adisk d n f (delete t calls))
| as_abandon d n f calls t b write sector t1 t2 :
    calls !! t = Some (Acall b write sector false) ->
    t1 <> t -> t2 <> t -> t1 <> t2 -> is_Some (calls !! t1) -> is_Some (calls !! t2) ->
    astep (Adisk d n f calls) [EvReturn t false (f b)] (Adisk d n f (delete t calls))
| as_owner d n f calls b blockno data :
    map_Forall (fun _ c => ac_buf c <> b) calls ->
    astep (Adisk d n f calls) [EvOwner b blockno data] (Adisk d (<[b := blockno]> n) (<[b := data]> f) calls).

Inductive aruns : adisk -> list vevent -> adisk -> Prop :=
| aruns_refl a : aruns a [] a
| aruns_step a a' a'' tr l : aruns a tr a' -> astep a' l a'' -> aruns a (tr ++ l) a''.

(** The disk a booted system starts from. *)
Definition abs_boot (y : vsys) : adisk :=
  Adisk (dv_sectors (y_dev y)) (fun b => vb_blockno (v_bufs (y_v y) b)) (fun b => vb_data (v_bufs (y_v y) b)) ∅.
