(* ===== verification/VirtioProof.v ===== *)
(** The invariant of the disk driver: which descriptors belong to which call,
    and where each request is between the rings; every piece of the driver and
    every step of the device keeps it and returns. *)

From stdpp Require Import functions.
From S2P Require Import Prelude.
From S2P Require Import Virtio.
From S2P Require Import VirtioSys.

(** ** Rings

    The entries of a ring between two free-running 16-bit indices. *)

Definition window (ring : nat -> Z) (from to : Z) : list Z :=
  (fun k => ring (Z.to_nat ((from + Z.of_nat k) mod Z.of_nat NUM))) <$> seq 0 (Z.to_nat (u16 (to - from))).

Lemma u16_range x : 0 <= u16 x < 2 ^ 16.
Proof. apply Z.mod_pos_bound. lia. Qed.

Lemma window_length ring from to : Z.of_nat (length (window ring from to)) = u16 (to - from).
Proof. unfold window. rewrite length_fmap, length_seq. pose proof (u16_range (to - from)). lia. Qed.
Lemma window_nil ring from : window ring from from = [].
Proof. unfold window. by rewrite Z.sub_diag. Qed.

Lemma window_push ring from to x :
  u16 (to - from) < 8 ->
  window (<[Z.to_nat (to mod Z.of_nat NUM) := x]> ring) from (u16 (to + 1)) = window ring from to ++ [x].
Proof.
  intros Hn. unfold window. pose proof (u16_range (to - from)). change (Z.of_nat NUM) with 8.
  replace (Z.to_nat (u16 (u16 (to + 1) - from))) with (S (Z.to_nat (u16 (to - from)))) by (unfold u16 in *; dlia).
  rewrite seq_S, fmap_app. f_equal.
  - apply list_fmap_ext. intros k j [-> Hj]%lookup_seq. rewrite fn_lookup_insert_ne; [done|]. unfold u16 in *. dlia.
  - simpl. f_equal. replace (Z.to_nat (to mod 8)) with (Z.to_nat ((from + Z.of_nat (Z.to_nat (u16 (to - from)))) mod 8)) by (unfold u16 in *; dlia).
    apply fn_lookup_insert.
Qed.

Lemma window_pop ring from to :
  0 <= from < 2 ^ 16 -> 0 <= to < 2 ^ 16 -> from <> to ->
  window ring from to = ring (Z.to_nat (from mod Z.of_nat NUM)) :: window ring (u16 (from + 1)) to.
Proof.
  intros Hf Ht Hne. unfold window. change (Z.of_nat NUM) with 8.
  replace (Z.to_nat (u16 (to - from))) with (S (Z.to_nat (u16 (to - u16 (from + 1))))) by (unfold u16 in *; dlia).
  rewrite <- cons_seq, fmap_cons, <- fmap_S_seq, <- list_fmap_compose. f_equal.
  - f_equal. simpl. by rewrite Z.add_0_r.
  - apply list_fmap_ext. intros k j [-> Hj]%lookup_seq. simpl. f_equal. unfold u16 in *. dlia.
Qed.

(** ** What a piece of the driver leaves alone *)

(** Only counters, wake-ups and descriptors that stay free have changed. *)
Record quiet (s s' : vst) : Prop := {
  qt_free i : v_free s' i = v_free s i;
  qt_desc i : v_free s i = false -> q_desc (v_q s') i = q_desc (v_q s) i;
  qt_rings : q_avail_ring (v_q s') = q_avail_ring (v_q s) /\ q_avail_idx (v_q s') = q_avail_idx (v_q s)
    /\ q_used_ring (v_q s') = q_used_ring (v_q s) /\ q_used_idx (v_q s') = q_used_idx (v_q s);
  qt_rest : v_used_idx s' = v_used_idx s /\ v_info_b s' = v_info_b s /\ v_info_status s' = v_info_status s
    /\ v_ops s' = v_ops s /\ v_bufs s' = v_bufs s }.

Lemma quiet_refl s : quiet s s.
Proof. by split. Qed.
Lemma quiet_trans s1 s2 s3 : quiet s1 s2 -> quiet s2 s3 -> quiet s1 s3.
Proof.
  intros [F1 D1 R1 T1] [F2 D2 R2 T2]. split.
  - intros i. by rewrite F2.
  - intros i Hi. rewrite D2, D1; [done..|]. by rewrite F1.
  - destruct_and!. split_and!; congruence.
  - destruct_and!. split_and!; congruence.
Qed.
Lemma quiet_stats f s : quiet s (set_stats f s).
Proof. by split. Qed.
Lemma quiet_perf p s : quiet s (set_perf p s).
Proof. by split. Qed.
Lemma quiet_mmio f s : quiet s (set_mmio f s).
Proof. by split. Qed.
#[export] Hint Resolve quiet_refl quiet_stats quiet_perf quiet_mmio : kernel.

(** ** Descriptors *)

Lemma alloc_desc_spec s :
  (exists i, alloc_desc s = Ret (Some i) (set_free i false s) /\ (i < NUM)%nat /\ v_free s i = true)
  \/ (exists s', alloc_desc s = Ret None s' /\ quiet s s' /\ (forall i, (i < NUM)%nat -> v_free s i = false)
      /\ v_woken s' = v_woken s).
Proof.
  unfold alloc_desc, mthen, gets. destruct (List.find (v_free s) (seq 0 NUM)) as [i|] eqn:Hf.
  - left. exists i. apply find_some in Hf as [Hi Hf]. apply in_seq in Hi. split; [done|]. split; [lia|done].
  - right. eexists. split; [done|]. split; [apply quiet_stats|]. split; [|done]. intros i Hi. eapply find_none in Hf; [done|]. apply in_seq. lia.
Qed.

Definition freed (i : nat) (s : vst) : vst :=
  set_woken (cons ChanFree) (set_free i true (set_q (put_desc i (VirtqDesc DmaNull 0 0 0)) s)).
Lemma free_desc_run i s : (i < NUM)%nat -> v_free s i = false -> free_desc i s = Ret tt (freed i s).
Proof.
  intros Hi Hf. unfold free_desc, mthen, gets. rewrite (proj2 (Nat.leb_gt NUM i)) by done. by rewrite Hf.
Qed.

(** Giving back a descriptor that was free before leaves no trace but the
    wake-up. *)
Lemma freed_free i j s : v_free (freed i s) j = if decide (i = j) then true else v_free s j.
Proof. done. Qed.

Definition idx_list (idx : idx3) : list nat := let '(i0, i1, i2) := idx in [i0; i1; i2].
Definition taken (idx : idx3) (s : vst) : vst :=
  let '(i0, i1, i2) := idx in set_free i2 false (set_free i1 false (set_free i0 false s)).

(** At most two descriptors are free. *)
Definition few_free (s : vst) : Prop :=
  exists l, (length l <= 2)%nat /\ forall i, (i < NUM)%nat -> v_free s i = true -> i ∈ l.

(** [alloc3_desc] takes three distinct free descriptors, or takes none: then
    less than three are free, and if it could take one or two it wakes the processes that wait for descriptors. *)
Lemma alloc3_desc_spec s :
  (exists idx, alloc3_desc s = Ret (Some idx) (taken idx s) /\ NoDup (idx_list idx)
    /\ forall i, i ∈ idx_list idx -> (i < NUM)%nat /\ v_free s i = true)
  \/ (exists s', alloc3_desc s = Ret None s' /\ quiet s s'
      /\ ((exists i, (i < NUM)%nat /\ v_free s i = true) -> exists l, v_woken s' = ChanFree :: l)
      /\ few_free s).
Proof.
  unfold alloc3_desc. destruct (alloc_desc_spec s) as [(i0 & R0 & L0 & F0)|(s0 & R0 & Q0 & N0 & W0)];
    rewrite (mthen_ret _ _ _ _ _ R0).
  2:{ right. exists s0. split; [done|]. split; [done|]. split.
      - intros (i & Hi & Ht). rewrite N0 in Ht by done. done.
      - exists []. split; [simpl; lia|]. intros i Hi Ht. by rewrite N0 in Ht. }
  set (s1 := set_free i0 false s). assert (forall j, v_free s1 j = if decide (i0 = j) then false else v_free s j) as E1 by done.
  assert (v_free s1 i0 = false) as E1' by (rewrite E1; by rewrite decide_True).
  destruct (alloc_desc_spec s1) as [(i1 & R1 & L1 & F1)|(s2 & R1 & Q1 & N1 & W1)]; rewrite (mthen_ret _ _ _ _ _ R1).
  2:{ right. rewrite (mthen_ret _ _ _ _ _ (free_desc_run i0 s2 L0 ltac:(by rewrite (qt_free _ _ Q1)))).
      eexists. split; [done|]. split.
      2:{ split; [by eexists|]. exists [i0]. split; [simpl; lia|]. intros i Hi Ht. apply N1 in Hi. rewrite E1 in Hi.
          case_decide; [subst; set_solver|congruence]. }
      destruct Q1 as [F D R T]. split.
      - intros j. rewrite freed_free, F, E1. by case_decide; subst.
      - intros j Hj. simpl. rewrite fn_lookup_insert_ne by congruence. rewrite D; [done|]. rewrite E1. by case_decide; subst.
      - destruct_and!. by split_and!.
      - destruct_and!. by split_and!. }
  set (s2 := set_free i1 false s1). assert (forall j, v_free s2 j = if decide (i1 = j) then false else v_free s1 j) as E2 by done.
  assert (i1 <> i0) as Hne by congruence.
  assert (v_free s i1 = true) as F1' by (rewrite E1 in F1; by case_decide).
  destruct (alloc_desc_spec s2) as [(i2 & R2 & L2 & F2)|(s3 & R2 & Q2 & N2 & W2)]; rewrite (mthen_ret _ _ _ _ _ R2).
  - left. exists (i0, i1, i2). split; [done|]. rewrite E2, E1 in F2. repeat case_decide; try done.
    split; [|by intros i; unfold idx_list; rewrite !elem_of_cons, elem_of_nil; intros [->|[->|[->|[]]]]].
    unfold idx_list. rewrite !NoDup_cons, !elem_of_cons, !elem_of_nil. split_and!; [naive_solver..|constructor].
  - right. rewrite (mthen_ret _ _ _ _ _ (free_desc_run i0 s3 L0 ltac:(rewrite (qt_free _ _ Q2), E2; by case_decide))).
    rewrite (mthen_ret _ _ _ _ _ (free_desc_run i1 (freed i0 s3) L1
      ltac:(rewrite freed_free, (qt_free _ _ Q2), E2; repeat case_decide; congruence))).
    eexists. split; [done|]. split.
    2:{ split; [by eexists|]. exists [i0; i1]. split; [simpl; lia|]. intros i Hi Ht. apply N2 in Hi. rewrite E2, E1 in Hi.
        repeat case_decide; [subst; set_solver..|congruence]. }
    destruct Q2 as [F D R T]. split.
    + intros j. rewrite !freed_free, F, E2, E1. by repeat case_decide; subst.
    + intros j Hj. simpl. rewrite !fn_lookup_insert_ne by congruence. rewrite D; [done|]. rewrite E2, E1. by repeat case_decide.
    + destruct_and!. by split_and!.
    + destruct_and!. by split_and!.
Qed.

(** ** Chains *)

(** What the driver keeps at index [j]: unchanged outside [L]. *)
Record same_but (L : list nat) (s s' : vst) : Prop := {
  sb_free j : j ∉ L -> v_free s' j = v_free s j;
  sb_desc j : j ∉ L -> v_free s j = false -> q_desc (v_q s') j = q_desc (v_q s) j;
  sb_ops j : j ∉ L -> v_ops s' j = v_ops s j;
  sb_info j : j ∉ L -> v_info_b s' j = v_info_b s j;
  sb_status j : j ∉ L -> v_info_status s' j = v_info_status s j }.
Definition same_rings (s s' : vst) : Prop :=
  q_avail_ring (v_q s') = q_avail_ring (v_q s) /\ q_avail_idx (v_q s') = q_avail_idx (v_q s)
  /\ q_used_ring (v_q s') = q_used_ring (v_q s) /\ q_used_idx (v_q s') = q_used_idx (v_q s)
  /\ v_used_idx s' = v_used_idx s.

Lemma quiet_same s s' : quiet s s' -> same_but [] s s' /\ same_rings s s' /\ v_bufs s' = v_bufs s.
Proof.
  intros [F D R T]. destruct_and!. split; [|by split].
  split; intros j _; [done|by apply D|congruence..].
Qed.
Lemma same_but_trans L s1 s2 s3 : same_but L s1 s2 -> same_but L s2 s3 -> same_but L s1 s3.
Proof.
  intros [F1 D1 O1 I1 S1] [F2 D2 O2 I2 S2]. split; intros j Hj.
  - by rewrite F2, F1.
  - intros Hf. rewrite D2, D1; [done..|]. by rewrite F1.
  - by rewrite O2, O1.
  - by rewrite I2, I1.
  - by rewrite S2, S1.
Qed.
Lemma same_but_mono L L' s s' : same_but L s s' -> L ⊆ L' -> same_but L' s s'.
Proof. intros [F D O I S] Hl. split; intros j Hj; auto. Qed.

Definition chain_head (idx : idx3) : nat := idx.1.1.

(** The three descriptors of a request on buffer [b]. *)
Record chain_shape (s : vst) (b : nat) (write : bool) (idx : idx3) : Prop := {
  ch_nodup : NoDup (idx_list idx);
  ch_lt i : i ∈ idx_list idx -> (i < NUM)%nat;
  ch_free i : i ∈ idx_list idx -> v_free s i = false;
  ch_desc : let '(i0, i1, i2) := idx in
    q_desc (v_q s) i0 = VirtqDesc (DmaOps i0) 16 VRING_DESC_F_NEXT i1
    /\ q_desc (v_q s) i1 = VirtqDesc (DmaData b) BSIZE (Z.lor (if write then 0 else VRING_DESC_F_WRITE) VRING_DESC_F_NEXT) i2
    /\ q_desc (v_q s) i2 = VirtqDesc (DmaStatus i0) 1 VRING_DESC_F_WRITE 0 }.
(** The same with the request header. *)
Record chain_ok (s : vst) (b : nat) (write : bool) (sector : Z) (idx : idx3) : Prop := {
  ch_shape : chain_shape s b write idx;
  ch_ops : v_ops s (chain_head idx) = VirtioBlkReq (if write then VIRTIO_BLK_T_OUT else VIRTIO_BLK_T_IN) 0 sector;
  ch_info : v_info_b s (chain_head idx) = Some b }.

Lemma head_in idx : chain_head idx ∈ idx_list idx.
Proof. destruct idx as [[i0 i1] i2]. left. Qed.

Lemma nodup3 (i0 i1 i2 : nat) : NoDup [i0; i1; i2] <-> i0 <> i1 /\ i0 <> i2 /\ i1 <> i2.
Proof. rewrite !NoDup_cons, !not_elem_of_cons. pose proof (@not_elem_of_nil nat). pose proof (@NoDup_nil_2 nat). naive_solver. Qed.

Lemma shape_frame L s s' b w idx :
  chain_shape s b w idx -> same_but L s s' -> (forall i, i ∈ idx_list idx -> i ∉ L) -> chain_shape s' b w idx.
Proof.
  intros [N Lt F D] [F' D' _ _ _] Hl. destruct idx as [[i0 i1] i2].
  assert (forall i, i ∈ idx_list (i0, i1, i2) -> q_desc (v_q s') i = q_desc (v_q s) i) as Hd.
  { intros i Hi. apply D'; auto. }
  split; [done..| |].
  - intros i Hi. rewrite F'; auto.
  - rewrite !Hd by (unfold idx_list; set_solver). done.
Qed.
Lemma chain_frame L s s' b w sector idx :
  chain_ok s b w sector idx -> same_but L s s' -> (forall i, i ∈ idx_list idx -> i ∉ L) -> chain_ok s' b w sector idx.
Proof.
  intros [Hs Ho Hi] HL Hl. pose proof (Hl _ (head_in idx)) as Hh. split; [by eapply shape_frame| |].
  - by rewrite (sb_ops _ _ _ HL).
  - by rewrite (sb_info _ _ _ HL).
Qed.

Lemma free_chain_run s b w i0 i1 i2 :
  chain_shape s b w (i0, i1, i2) -> free_chain i0 s = Ret tt (freed i2 (freed i1 (freed i0 s))).
Proof.
  intros [N Lt F (D0 & D1 & D2)]. unfold idx_list in *. apply nodup3 in N as (N1 & N2 & N3).
  destruct (conj (Lt i0 ltac:(set_solver)) (F i0 ltac:(set_solver))) as [L0 F0].
  destruct (conj (Lt i1 ltac:(set_solver)) (F i1 ltac:(set_solver))) as [L1 F1].
  destruct (conj (Lt i2 ltac:(set_solver)) (F i2 ltac:(set_solver))) as [L2 F2].
  unfold free_chain. change (S NUM) with (S (S (S 6))). cbn [free_chain_loop].
  unfold mthen at 1, gets. rewrite D0. cbn [vd_flags vd_next]. rewrite (mthen_ret _ _ _ _ _ (free_desc_run i0 s L0 F0)).
  change (truth (Z.land VRING_DESC_F_NEXT VRING_DESC_F_NEXT)) with true. change (NUM <? 1)%nat with false. cbv iota.
  unfold mthen at 1. set (s1 := freed i0 s).
  assert (q_desc (v_q s1) i1 = q_desc (v_q s) i1) as E1 by (by apply fn_lookup_insert_ne).
  rewrite E1, D1. cbn [vd_flags vd_next].
  rewrite (mthen_ret _ _ _ _ _ (free_desc_run i1 s1 L1 ltac:(unfold s1; by rewrite freed_free, decide_False))).
  replace (truth (Z.land (Z.lor (if w then 0 else VRING_DESC_F_WRITE) VRING_DESC_F_NEXT) VRING_DESC_F_NEXT)) with true by by destruct w.
  change (NUM <? 2)%nat with false. cbv iota. unfold mthen at 1. set (s2 := freed i1 s1).
  assert (q_desc (v_q s2) i2 = q_desc (v_q s) i2) as E2 by (unfold s2, s1; simpl; by rewrite !fn_lookup_insert_ne).
  rewrite E2, D2. cbn [vd_flags vd_next].
  by rewrite (mthen_ret _ _ _ _ _ (free_desc_run i2 s2 L2 ltac:(unfold s2, s1; by rewrite !freed_free, !decide_False))).
Qed.

(** ** The pieces of a request *)

Lemma freed_same i L s : i ∈ L -> same_but L s (freed i s).
Proof.
  intros Hi. split; intros j Hj; try done; simpl; [|intros _]; apply fn_lookup_insert_ne; congruence.
Qed.

Lemma rw_finish_run s b w idx st now dn :
  chain_shape s b w idx ->
  exists s', rw_finish idx st now dn s = Ret (RwReturn dn) s' /\ same_but (idx_list idx) s s' /\ same_rings s s'
    /\ v_bufs s' = v_bufs s /\ forall i, i ∈ idx_list idx -> v_free s' i = true.
Proof.
  intros Hc. destruct idx as [[i0 i1] i2]. unfold rw_finish.
  assert (exists s1, (when truth st do modify (fun s => set_perf (Perf (pf_start_time (v_perf s))
    (u64 (pf_total_time (v_perf s) + u64 (now - st))) (u64 (pf_operation_count (v_perf s) + 1))) s)) s = Ret tt s1 /\ quiet s s1) as (s1 & R1 & Q1).
  { destruct (truth st); eexists; split; try done; auto with kernel. }
  apply quiet_same in Q1 as (S1 & G1 & B1). rewrite (mthen_ret _ _ _ _ _ R1).
  set (s2 := set_info_b i0 None s1). rewrite (mthen_ret _ _ _ tt s2) by done.
  assert (same_but (idx_list (i0, i1, i2)) s s2) as S2.
  { apply (same_but_trans _ _ s1); [apply (same_but_mono _ _ _ _ S1); set_solver|].
    split; intros j Hj; try done. apply fn_lookup_insert_ne. unfold idx_list in Hj. set_solver. }
  assert (chain_shape s2 b w (i0, i1, i2)) as Hc2.
  { destruct (shape_frame _ _ _ _ _ _ Hc S1 ltac:(set_solver)). by split. }
  rewrite (mthen_ret _ _ _ _ _ (free_chain_run _ _ _ _ _ _ Hc2)). eexists. split; [done|]. split.
  - eapply same_but_trans; [exact S2|]. eapply same_but_trans; [apply (freed_same i0); unfold idx_list; set_solver|].
    eapply same_but_trans; [apply (freed_same i1); unfold idx_list; set_solver|].
    apply (same_but_trans _ _ (freed i2 (freed i1 (freed i0 s2)))); [apply freed_same; unfold idx_list; set_solver|by split].
  - destruct G1 as (? & ? & ? & ? & ?). split_and!; try done. intros i Hi. simpl. unfold fn_insert, insert.
    unfold idx_list in Hi. rewrite !elem_of_cons, elem_of_nil in Hi. repeat case_decide; naive_solver.
Qed.

(** What [rw_submit] has done: the chain [idx], free before, carries the
    request, its head is the next entry of the available ring, and the buffer
    is marked. *)
Record submitted (s s' : vst) (b : nat) (write : bool) (sector : Z) (idx : idx3) : Prop := {
  su_fresh i : i ∈ idx_list idx -> v_free s i = true;
  su_same : same_but (idx_list idx) s s';
  su_chain : chain_ok s' b write sector idx;
  su_avail : q_avail_ring (v_q s') = <[Z.to_nat (q_avail_idx (v_q s) mod Z.of_nat NUM) := Z.of_nat (chain_head idx)]> (q_avail_ring (v_q s));
  su_aidx : q_avail_idx (v_q s') = u16 (q_avail_idx (v_q s) + 1);
  su_used : q_used_ring (v_q s') = q_used_ring (v_q s) /\ q_used_idx (v_q s') = q_used_idx (v_q s) /\ v_used_idx s' = v_used_idx s;
  su_bufs : v_bufs s' = <[b := Vbuf (vb_blockno (v_bufs s b)) 1 (vb_data (v_bufs s b))]> (v_bufs s) }.

Lemma rw_submit_run s b w sector idx now :
  NoDup (idx_list idx) -> (forall i, i ∈ idx_list idx -> (i < NUM)%nat /\ v_free s i = true) ->
  exists s', rw_submit b w sector idx now (taken idx s) = Ret (RwWait idx now 0) s' /\ submitted s s' b w sector idx.
Proof.
  destruct idx as [[i0 i1] i2]. intros N Hi. pose proof N as (N1 & N2 & N3)%nodup3. unfold rw_submit.
  rewrite !mthen_modify. change (safe_write_reg VIRTIO_MMIO_QUEUE_NOTIFY 0) with (modify (set_mmio (cons (VIRTIO_MMIO_QUEUE_NOTIFY, 0)))).
  rewrite mthen_modify. unfold rw_wait. rewrite mthen_gets.
  set (s' := set_mmio _ _).
  assert (v_bufs s' = <[b := Vbuf (vb_blockno (v_bufs s b)) 1 (vb_data (v_bufs s b))]> (v_bufs s)) as Hb by done.
  assert (same_but [i0; i1; i2] s s') as Hs.
  { split; intros j Hj; rewrite !not_elem_of_cons in Hj; destruct_and!; simpl; rewrite ?fn_lookup_insert_ne by done; done. }
  eexists. split; [|split; try done; try exact Hs].
  - rewrite Hb, fn_lookup_insert. done.
  - intros i Hin. by apply Hi.
  - split; [split| |]; try done.
    + intros i Hin. by apply Hi.
    + intros i Hin. unfold idx_list in Hin. rewrite !elem_of_cons, elem_of_nil in Hin. simpl. unfold insert, fn_insert. repeat case_decide; naive_solver.
    + simpl. rewrite ?fn_lookup_insert_ne, ?fn_lookup_insert by done. repeat split; simpl; rewrite ?fn_lookup_insert_ne, ?fn_lookup_insert by done; done.
    + simpl. apply fn_lookup_insert.
    + simpl. apply fn_lookup_insert.
Qed.

(** One attempt to submit: it submits, or leaves everything as it was and
    either sleeps again or gives up. *)
Definition attempt (s s' : vst) (b : nat) (w : bool) (sector timeout : Z) (r : rw_next) : Prop :=
  (exists idx st, r = RwWait idx st 0 /\ submitted s s' b w sector idx)
  \/ (quiet s s' /\ (r = RwNoDesc (timeout + 1) \/ (r = RwReturn false /\ few_free s))).

Lemma rw_alloc_run s b w sector timeout now :
  exists r s', rw_alloc b w sector timeout now s = Ret r s' /\ attempt s s' b w sector timeout r.
Proof.
  unfold rw_alloc. destruct (alloc3_desc_spec s) as [(idx & R & N & Hi)|(s' & R & Q & _ & F)]; rewrite (mthen_ret _ _ _ _ _ R).
  - destruct (rw_submit_run s b w sector idx now N Hi) as (s' & Rs & Hs). exists (RwWait idx now 0), s'. split; [done|]. left. by eexists _, _.
  - destruct (timeout + 1 >? 1000).
    + eexists _, _. split; [done|]. right. split; [|by right]. by eapply quiet_trans, quiet_stats.
    + eexists _, _. split; [done|]. right. split; [done|by left].
Qed.

Lemma quiet_few s s' : quiet s s' -> few_free s' -> few_free s.
Proof. intros Q (l & Hl & H). exists l. split; [done|]. intros i Hi Hf. apply H; [done|]. by rewrite (qt_free _ _ Q). Qed.
Lemma submitted_quiet s0 s s' b w sector idx : quiet s0 s -> submitted s s' b w sector idx -> submitted s0 s' b w sector idx.
Proof.
  intros Q [F S C A X U B]. pose proof (quiet_same _ _ Q) as (S0 & (E1 & E2 & E3 & E4 & E5) & E6). rewrite E1, E2, E3, E4, E5, E6 in *.
  split; try done.
  - intros i Hi. rewrite <- (qt_free _ _ Q). by apply F.
  - eapply same_but_trans; [|exact S]. apply (same_but_mono _ _ _ _ S0). set_solver.
Qed.

Lemma virtio_disk_rw_run s b w now :
  exists r s', virtio_disk_rw b w now s = Ret r s' /\ attempt s s' b w (sector_of (vb_blockno (v_bufs s b))) 0 r.
Proof.
  unfold virtio_disk_rw. rewrite mthen_gets.
  assert (exists s1, (if w then count write_requests ;;; modify (set_stats (bump total_bytes_written BSIZE))
    else count read_requests ;;; modify (set_stats (bump total_bytes_read BSIZE))) s = Ret tt s1 /\ quiet s s1) as (s1 & R1 & Q1).
  { destruct w; eexists; (split; [done|by split]). }
  rewrite (mthen_ret _ _ _ _ _ R1). rewrite mthen_gets, mthen_modify.
  set (s2 := set_stats _ s1). assert (quiet s s2) as Q2 by (eapply quiet_trans; [exact Q1|apply quiet_stats]).
  destruct (rw_alloc_run s2 b w (sector_of (vb_blockno (v_bufs s b))) 0 now) as (r & s' & R & At). exists r, s'. split; [done|].
  destruct At as [(idx & st & -> & Hs)|[Q Hr]].
  - left. exists idx, st. split; [done|]. by eapply submitted_quiet.
  - right. split; [by eapply quiet_trans|]. destruct Hr as [-> |[-> F]]; [by left|right]. split; [done|]. by eapply quiet_few.
Qed.

(** ** The invariant *)

Definition waits (calls : gmap nat call) (t b : nat) (write : bool) (sector : Z) (idx : idx3) : Prop :=
  exists st n, calls !! t = Some (CallWait b write sector idx st n).
Definition heads (d : device) : list nat := rq_head <$> dv_pending d.

(** [A] and [U] are the heads in the available and the used ring that the
    device and the driver have not taken yet.  Each waiting call owns three
    descriptors; the marked buffers are those of the requests that are in
    [A], held by the device, or in [U], each in one place. *)
Record vinv (s : vst) (d : device) (calls : gmap nat call) (A U : list nat) : Prop := {
  vi_range : 0 <= dv_seen d < 2 ^ 16 /\ 0 <= q_avail_idx (v_q s) < 2 ^ 16
    /\ 0 <= v_used_idx s < 2 ^ 16 /\ 0 <= q_used_idx (v_q s) < 2 ^ 16;
  vi_avail : window (q_avail_ring (v_q s)) (dv_seen d) (q_avail_idx (v_q s)) = Z.of_nat <$> A;
  vi_used : window (q_used_ring (v_q s)) (v_used_idx s) (q_used_idx (v_q s)) = Z.of_nat <$> U;
  vi_nodup : NoDup (A ++ heads d ++ U);
  vi_queued i : i ∈ A ++ heads d ++ U <->
    exists t b w sector idx, waits calls t b w sector idx /\ chain_head idx = i /\ vb_disk (v_bufs s b) = 1;
  vi_chain t b w sector idx : waits calls t b w sector idx -> chain_ok s b w sector idx;
  vi_apart t b w sector idx t' b' w' sector' idx' i :
    waits calls t b w sector idx -> waits calls t' b' w' sector' idx' -> i ∈ idx_list idx -> i ∈ idx_list idx' -> t = t';
  vi_taken i : (i < NUM)%nat -> v_free s i = false ->
    exists t b w sector idx, waits calls t b w sector idx /\ i ∈ idx_list idx;
  vi_buf t t' c c' : calls !! t = Some c -> calls !! t' = Some c' -> call_buf c = call_buf c' -> t = t';
  vi_status i : i ∈ U -> v_info_status s i = 0;
  vi_pending r : r ∈ dv_pending d -> exists t b w sector idx,
    waits calls t b w sector idx /\ r = Request (chain_head idx) w sector b BSIZE (chain_head idx) }.

Lemma waits_fun calls t b w sector idx b' w' sector' idx' :
  waits calls t b w sector idx -> waits calls t b' w' sector' idx' -> b = b' /\ w = w' /\ sector = sector' /\ idx = idx'.
Proof. intros (? & ? & H) (? & ? & H'). rewrite H in H'. by simplify_eq. Qed.
Lemma waits_insert calls t c t' b w sector idx :
  waits (<[t := c]> calls) t' b w sector idx <->
  (t' = t /\ exists st n, c = CallWait b w sector idx st n) \/ (t' <> t /\ waits calls t' b w sector idx).
Proof.
  unfold waits. destruct (decide (t' = t)) as [->|Hne].
  - rewrite lookup_insert_eq. naive_solver.
  - rewrite lookup_insert_ne by done. naive_solver.
Qed.
Lemma waits_delete calls t t' b w sector idx :
  waits (delete t calls) t' b w sector idx <-> t' <> t /\ waits calls t' b w sector idx.
Proof.
  unfold waits. destruct (decide (t' = t)) as [->|Hne].
  - rewrite lookup_delete_eq. naive_solver.
  - rewrite lookup_delete_ne by done. naive_solver.
Qed.
Lemma waits_buf calls t b w sector idx : waits calls t b w sector idx -> exists c, calls !! t = Some c /\ call_buf c = b.
Proof. intros (? & ? & H). eauto. Qed.

(** A ring never holds more than [NUM] heads. *)
Lemma nodup_bound l : NoDup l -> (forall i, i ∈ l -> (i < NUM)%nat) -> (length l <= NUM)%nat.
Proof.
  intros Hn Hl. rewrite <- (length_seq NUM 0). apply submseteq_length, NoDup_submseteq; [done|].
  intros i Hi. apply elem_of_seq. specialize (Hl i Hi). lia.
Qed.

Section Invariant.
Context {s : vst} {d : device} {calls : gmap nat call} {A U : list nat} (I : vinv s d calls A U).

Lemma inv_lt i : i ∈ A ++ heads d ++ U -> (i < NUM)%nat.
Proof.
  intros (t & b & w & sector & idx & Hw & <- & _)%(vi_queued _ _ _ _ _ I).
  apply (ch_lt _ _ _ _ (ch_shape _ _ _ _ _ (vi_chain _ _ _ _ _ I _ _ _ _ _ Hw))), head_in.
Qed.
Lemma inv_free_head i : i ∈ A ++ heads d ++ U -> v_free s i = false.
Proof.
  intros (t & b & w & sector & idx & Hw & <- & _)%(vi_queued _ _ _ _ _ I).
  apply (ch_free _ _ _ _ (ch_shape _ _ _ _ _ (vi_chain _ _ _ _ _ I _ _ _ _ _ Hw))), head_in.
Qed.
(** The call whose request heads the chain [i]. *)
Lemma inv_owner i t b w sector idx :
  i ∈ A ++ heads d ++ U -> waits calls t b w sector idx -> i ∈ idx_list idx -> chain_head idx = i /\ vb_disk (v_bufs s b) = 1.
Proof.
  intros (t' & b' & w' & sector' & idx' & Hw' & <- & Hd)%(vi_queued _ _ _ _ _ I) Hw Hi.
  pose proof (vi_apart _ _ _ _ _ I _ _ _ _ _ _ _ _ _ _ _ Hw Hw' Hi (head_in idx')) as <-.
  by destruct (waits_fun _ _ _ _ _ _ _ _ _ _ Hw Hw') as (-> & _ & _ & ->).
Qed.

(** With less than three descriptors free, the others belong to at least two
    requests. *)
Lemma few_free_owners :
  few_free s -> exists t1 t2, t1 <> t2 /\ (exists b w sector idx, waits calls t1 b w sector idx)
    /\ (exists b w sector idx, waits calls t2 b w sector idx).
Proof.
  intros (l & Hl & F).
  assert (forall l', (length l' <= 5)%nat -> (forall i, i ∈ l -> i ∈ l') ->
    exists i t b w sector idx, (i ∉ l') /\ waits calls t b w sector idx /\ i ∈ idx_list idx) as P.
  { intros l' Hl' Hs. destruct (decide (Forall (fun i => i ∈ l') (seq 0 NUM))) as [Hall|Hex].
    - rewrite Forall_forall in Hall. apply NoDup_submseteq, submseteq_length in Hall; [|apply NoDup_seq]. rewrite length_seq in Hall. unfold NUM in Hall. lia.
    - apply (not_Forall_Exists _), Exists_exists in Hex as (i & Hi & Hn).
      apply elem_of_seq in Hi. destruct (v_free s i) eqn:Hf; [by destruct Hn; apply Hs, F; [lia|]|].
      destruct (vi_taken _ _ _ _ _ I i ltac:(lia) Hf) as (t & b & w & se & idx & Hw & Ho). by exists i, t, b, w, se, idx. }
  destruct (P l) as (_ & t1 & b1 & w1 & se1 & idx1 & _ & H1 & _); [lia|done|].
  destruct (P (l ++ idx_list idx1)) as (i & t2 & b2 & w2 & se2 & idx2 & Hn & H2 & Hi).
  { rewrite length_app. destruct idx1 as [[? ?] ?]. simpl. lia. }
  { set_solver. }
  exists t1, t2. split; [|by eauto 10]. intros <-.
  destruct (waits_fun _ _ _ _ _ _ _ _ _ _ H1 H2) as (_ & _ & _ & ->). set_solver.
Qed.

Lemma inv_frame s' :
  same_but [] s s' -> same_rings s s' -> (forall b, vb_disk (v_bufs s' b) = vb_disk (v_bufs s b)) -> vinv s' d calls A U.
Proof.
  intros S (E1 & E2 & E3 & E4 & E5) B. destruct I as [Rg Av Us Nd Qu Ch Ap Tk Bu St Pe].
  split; rewrite ?E1, ?E2, ?E3, ?E4, ?E5; try done.
  - intros i. rewrite Qu. split; intros (t & b & w & sector & idx & H); exists t, b, w, sector, idx; by rewrite B in *.
  - intros t b w sector idx Hw. eapply chain_frame; [by eapply Ch|exact S|set_solver].
  - intros i Hi. rewrite (sb_free _ _ _ S) by set_solver. by apply Tk.
  - intros i Hi. rewrite (sb_status _ _ _ S) by set_solver. by apply St.
Qed.
Lemma inv_quiet s' : quiet s s' -> vinv s' d calls A U.
Proof. intros (S & R & B)%quiet_same. apply inv_frame; [done..|]. intros b. by rewrite B. Qed.

Lemma inv_call t b w sector n :
  calls !! t = None -> unused b calls -> vinv s d (<[t := CallDesc b w sector n]> calls) A U.
Proof.
  intros Ht Hb. destruct I as [Rg Av Us Nd Qu Ch Ap Tk Bu St Pe].
  assert (forall t' b' w' sec' idx', waits (<[t := CallDesc b w sector n]> calls) t' b' w' sec' idx' <-> waits calls t' b' w' sec' idx') as Hw.
  { intros. rewrite waits_insert. split; [naive_solver|]. intros Hw. right. split; [|done]. intros ->. destruct Hw as (? & ? & ?). congruence. }
  split; try done.
  - intros i. rewrite Qu. by setoid_rewrite Hw.
  - intros t' b' w' sec' idx' H%Hw. by eapply Ch.
  - intros t1 b1 w1 se1 idx1 t2 b2 w2 se2 idx2 i H1%Hw H2%Hw. by eapply Ap.
  - setoid_rewrite Hw. done.
  - intros t1 t2 c1 c2. rewrite !lookup_insert_Some. intros [[<- <-]|[Hn1 H1]] [[<- <-]|[Hn2 H2]] Hc; try done.
    + by destruct (Hb t2 c2 H2).
    + by destruct (Hb t1 c1 H1).
    + by eapply Bu.
  - setoid_rewrite Hw. done.
Qed.
End Invariant.

(** ** The driver's pieces keep the invariant *)

Lemma inv_submit s s' d calls A U t b w sector n idx st m :
  vinv s d calls A U -> calls !! t = Some (CallDesc b w sector n) -> submitted s s' b w sector idx ->
  vinv s' d (<[t := CallWait b w sector idx st m]> calls) (A ++ [chain_head idx]) U.
Proof.
  intros I Ht [F S C E1 E2 (E3 & E4 & E5) B]. pose proof I as [Rg Av Us Nd Qu Ch Ap Tk Bu St Pe].
  assert (forall t' b' w' sec' idx', waits (<[t := CallWait b w sector idx st m]> calls) t' b' w' sec' idx' <->
    (t' = t /\ b' = b /\ w' = w /\ sec' = sector /\ idx' = idx) \/ waits calls t' b' w' sec' idx') as Hw.
  { intros. rewrite waits_insert. split; [naive_solver|]. intros [H|H]; [naive_solver|]. right. split; [|done].
    intros ->. destruct H as (? & ? & ?). congruence. }
  assert (forall t' b' w' sec' idx' i, waits calls t' b' w' sec' idx' -> i ∈ idx_list idx' -> i ∉ idx_list idx) as Hfr.
  { intros * H Hi Hi'. apply F in Hi'. by rewrite (ch_free _ _ _ _ (ch_shape _ _ _ _ _ (Ch _ _ _ _ _ H)) i Hi) in Hi'. }
  assert (forall t' b' w' sec' idx', waits calls t' b' w' sec' idx' -> v_bufs s' b' = v_bufs s b') as Hb.
  { intros * H. rewrite B. apply fn_lookup_insert_ne. intros <-. destruct (waits_buf _ _ _ _ _ _ H) as (c & Hc & Hcb).
    pose proof (Bu _ _ _ _ Ht Hc ltac:(by rewrite Hcb)) as <-. destruct H as (? & ? & ?). congruence. }
  assert (chain_head idx ∉ A ++ heads d ++ U) as Hnew.
  { intros Hi. apply (inv_free_head I) in Hi. by rewrite (F _ (head_in idx)) in Hi. }
  assert (A ++ [chain_head idx] ++ heads d ++ U ≡ₚ chain_head idx :: A ++ heads d ++ U) as HP by (simpl; by rewrite <- Permutation_middle).
  assert (Z.of_nat (length A) < 8) as HA.
  { assert (length (chain_head idx :: A) <= NUM)%nat as H; [|unfold NUM in H; simpl in H; lia]. apply nodup_bound.
    - apply NoDup_app in Nd as (NA & _ & _). apply NoDup_cons. split; [set_solver|done].
    - intros i [->|Hi]%elem_of_cons.
      + apply (ch_lt _ _ _ _ (ch_shape _ _ _ _ _ C)), head_in.
      + apply (inv_lt I). set_solver. }
  split; rewrite ?E1, ?E2, ?E3, ?E4, ?E5; try done.
  - pose proof (u16_range (q_avail_idx (v_q s) + 1)). by destruct_and!.
  - rewrite window_push; [by rewrite Av, fmap_app|]. rewrite <- (window_length (q_avail_ring (v_q s))), Av, length_fmap. done.
  - rewrite <- app_assoc, HP. by apply NoDup_cons.
  - intros i. rewrite <- app_assoc, HP, elem_of_cons, Qu. split.
    + intros [->|(t' & b' & w' & se' & idx' & H & Hh & Hd)].
      * exists t, b, w, sector, idx. rewrite Hw, B, fn_lookup_insert. naive_solver.
      * exists t', b', w', se', idx'. rewrite Hw. split; [by right|]. by rewrite (Hb _ _ _ _ _ H).
    + intros (t' & b' & w' & se' & idx' & [(-> & -> & -> & -> & ->)|H]%Hw & Hh & Hd); [by left|]. right.
      exists t', b', w', se', idx'. split; [done|]. by rewrite <- (Hb _ _ _ _ _ H).
  - intros t' b' w' se' idx' [(-> & -> & -> & -> & ->)|H]%Hw; [done|]. eapply chain_frame; [by eapply Ch|exact S|]. by eauto.
  - intros t1 b1 w1 se1 idx1 t2 b2 w2 se2 idx2 i [(-> & -> & -> & -> & ->)|H1]%Hw [(-> & -> & -> & -> & ->)|H2]%Hw Hi1 Hi2; try done.
    + by destruct (Hfr _ _ _ _ _ _ H2 Hi2).
    + by destruct (Hfr _ _ _ _ _ _ H1 Hi1).
    + by eapply Ap.
  - intros i Hi Hf. destruct (decide (i ∈ idx_list idx)) as [Hin|Hin].
    + exists t, b, w, sector, idx. rewrite Hw. naive_solver.
    + rewrite (sb_free _ _ _ S i Hin) in Hf. destruct (Tk i Hi Hf) as (t' & b' & w' & se' & idx' & H & ?).
      exists t', b', w', se', idx'. rewrite Hw. naive_solver.
  - intros t1 t2 c1 c2. rewrite !lookup_insert_Some. intros [[<- <-]|[Hn1 H1]] [[<- <-]|[Hn2 H2]] Hc; try done.
    + by eapply Bu.
    + by eapply Bu.
    + by eapply Bu.
  - intros i Hi. rewrite (sb_status _ _ _ S); [by apply St|]. intros Hin.
    assert (v_free s i = false) as Hf by (apply (inv_free_head I); set_solver). by rewrite F in Hf.
  - intros r Hr. destruct (Pe r Hr) as (t' & b' & w' & se' & idx' & H & ->). exists t', b', w', se', idx'. by rewrite Hw; auto.
Qed.

(** A call that leaves the descriptor loop without a request. *)
Lemma inv_abandon s d calls A U t b w sector n :
  vinv s d calls A U -> calls !! t = Some (CallDesc b w sector n) -> vinv s d (delete t calls) A U.
Proof.
  intros [Rg Av Us Nd Qu Ch Ap Tk Bu St Pe] Ht.
  assert (forall t' b' w' sec' idx', waits (delete t calls) t' b' w' sec' idx' <-> waits calls t' b' w' sec' idx') as Hw.
  { intros. rewrite waits_delete. split; [naive_solver|]. intros H. split; [|done]. intros ->. destruct H as (? & ? & ?). congruence. }
  split; try done; try by setoid_rewrite Hw.
  intros t1 t2 c1 c2. rewrite !lookup_delete_Some. intros [_ H1] [_ H2]. by eapply Bu.
Qed.

(** A call that goes on waiting for descriptors has changed its count only. *)
Lemma inv_redesc s d calls A U t b w sector n n' :
  vinv s d calls A U -> calls !! t = Some (CallDesc b w sector n) -> vinv s d (<[t := CallDesc b w sector n']> calls) A U.
Proof.
  intros I Ht. assert (delete t calls !! t = None) as Hn by apply lookup_delete_eq.
  rewrite <- insert_delete_eq. apply inv_call; [by eapply inv_abandon|done|].
  intros t' c. rewrite lookup_delete_Some. intros [Hne Hc] Hb. apply Hne. by eapply (vi_buf _ _ _ _ _ I).
Qed.

(** A waiting call whose wait goes on has changed its counters only. *)
Lemma inv_rewait s d calls A U t b w sector idx st n st' n' :
  vinv s d calls A U -> calls !! t = Some (CallWait b w sector idx st n) ->
  vinv s d (<[t := CallWait b w sector idx st' n']> calls) A U.
Proof.
  intros [Rg Av Us Nd Qu Ch Ap Tk Bu St Pe] Ht.
  assert (forall t' b' w' sec' idx', waits (<[t := CallWait b w sector idx st' n']> calls) t' b' w' sec' idx' <-> waits calls t' b' w' sec' idx') as Hw.
  { intros. rewrite waits_insert. unfold waits. split.
    - intros [(-> & ? & ? & ?)|[? ?]]; [|done]. simplify_eq. eauto.
    - intros H. destruct (decide (t' = t)) as [->|]; [|by right]. left. split; [done|]. destruct H as (? & ? & H). rewrite Ht in H. simplify_eq. eauto. }
  split; try done; try by setoid_rewrite Hw.
  intros t1 t2 c1 c2. rewrite !lookup_insert_Some. intros [[<- <-]|[Hn1 H1]] [[<- <-]|[Hn2 H2]] Hc; try done; by eapply Bu.
Qed.

(** A call that returns gives its chain back. *)
Lemma inv_finish s s' d calls A U t b w sector idx :
  vinv s d calls A U -> waits calls t b w sector idx -> vb_disk (v_bufs s b) <> 1 ->
  same_but (idx_list idx) s s' -> same_rings s s' -> v_bufs s' = v_bufs s -> (forall i, i ∈ idx_list idx -> v_free s' i = true) ->
  (chain_head idx ∉ A ++ heads d ++ U) /\ vinv s' d (delete t calls) A U.
Proof.
  intros I Ht Hd S (E1 & E2 & E3 & E4 & E5) B F. pose proof I as [Rg Av Us Nd Qu Ch Ap Tk Bu St Pe].
  assert (forall i, i ∈ A ++ heads d ++ U -> i ∉ idx_list idx) as Hq.
  { intros i Hi Hin. by destruct (inv_owner I i t b w sector idx Hi Ht Hin). }
  split; [intros Hi; by eapply Hq, head_in|].
  assert (forall t' b' w' se' idx' i, waits calls t' b' w' se' idx' -> t' <> t -> i ∈ idx_list idx' -> i ∉ idx_list idx) as Hap.
  { intros * H Hne Hi Hi'. apply Hne. by eapply Ap. }
  split; rewrite ?E1, ?E2, ?E3, ?E4, ?E5, ?B; try done.
  - intros i. rewrite Qu. split; intros (t' & b' & w' & se' & idx' & H & Hh & Hd'); exists t', b', w', se', idx'; rewrite waits_delete in *.
    + split_and!; try done. intros ->. by destruct (waits_fun _ _ _ _ _ _ _ _ _ _ Ht H) as (-> & _).
    + by destruct_and!.
  - intros t' b' w' se' idx' [Hne H]%waits_delete. eapply chain_frame; [by eapply Ch|exact S|by eauto].
  - intros t1 b1 w1 se1 idx1 t2 b2 w2 se2 idx2 i [_ H1]%waits_delete [_ H2]%waits_delete. by eapply Ap.
  - intros i Hi Hf. destruct (decide (i ∈ idx_list idx)) as [Hin|Hin]; [by rewrite F in Hf|].
    rewrite (sb_free _ _ _ S i Hin) in Hf. destruct (Tk i Hi Hf) as (t' & b' & w' & se' & idx' & H & Hin').
    exists t', b', w', se', idx'. rewrite waits_delete. split; [|done]. split; [|done]. intros ->.
    by destruct (waits_fun _ _ _ _ _ _ _ _ _ _ Ht H) as (_ & _ & _ & ->).
  - intros t1 t2 c1 c2. rewrite !lookup_delete_Some. intros [_ H1] [_ H2]. by eapply Bu.
  - intros i Hi. rewrite (sb_status _ _ _ S); [by apply St|]. apply Hq. set_solver.
  - intros r Hr. destruct (Pe r Hr) as (t' & b' & w' & se' & idx' & H & ->). exists t', b', w', se', idx'.
    rewrite waits_delete. split; [|done]. split; [|done]. intros ->.
    destruct (waits_fun _ _ _ _ _ _ _ _ _ _ Ht H) as (_ & _ & _ & <-). eapply Hq; [|apply head_in].
    apply elem_of_app. right. apply elem_of_app. left. unfold heads. apply list_elem_of_fmap. eexists. by split; [|exact Hr].
Qed.

(** ** Interrupts *)

Definition acked (s : vst) (b : nat) : vst :=
  set_used_idx (u16 (v_used_idx s + 1)) (set_woken (cons (ChanBuf b)) (set_buf b (Vbuf (vb_blockno (v_bufs s b)) 0 (vb_data (v_bufs s b))) s)).

(** The driver takes the first entry of the used ring. *)
Lemma inv_acked s d calls A U i :
  vinv s d calls A (i :: U) ->
  (i < NUM)%nat /\ q_used_ring (v_q s) (Z.to_nat (v_used_idx s mod Z.of_nat NUM)) = Z.of_nat i /\ v_info_status s i = 0
  /\ v_used_idx s <> q_used_idx (v_q s)
  /\ exists b, v_info_b s i = Some b /\ vinv (acked s b) d calls A U.
Proof.
  intros I. pose proof I as [Rg Av Us Nd Qu Ch Ap Tk Bu St Pe].
  assert (i ∈ A ++ heads d ++ i :: U) as Hi by set_solver.
  assert (v_used_idx s <> q_used_idx (v_q s)) as Hne by (intros E; by rewrite E, window_nil in Us).
  pose proof Us as Us'. rewrite window_pop in Us' by (done || lia). simpl in Us'. injection Us' as Hr Hu.
  destruct (proj1 (Qu i) Hi) as (t & b & w & se & idx & Hw & Hh & Hd).
  split; [by eapply (inv_lt I)|]. split; [done|]. split; [apply St; left|]. split; [done|]. exists b.
  split; [rewrite <- Hh; by eapply ch_info, Ch|].
  assert (A ++ heads d ++ i :: U ≡ₚ i :: A ++ heads d ++ U) as HP by (by rewrite <- !Permutation_middle).
  rewrite HP in Nd. apply NoDup_cons in Nd as [Hni Nd].
  split; try done.
  - pose proof (u16_range (v_used_idx s + 1)). simpl. by destruct_and!.
  - intros j. split.
    + intros Hj. assert (j ∈ A ++ heads d ++ i :: U) as Hj' by (rewrite HP; by right).
      destruct (proj1 (Qu j) Hj') as (t' & b' & w' & se' & idx' & H & Hh' & Hd'). exists t', b', w', se', idx'. split; [done|]. split; [done|].
      simpl. rewrite fn_lookup_insert_ne; [done|]. intros <-.
      destruct (waits_buf _ _ _ _ _ _ Hw) as (c & Hc & Hb), (waits_buf _ _ _ _ _ _ H) as (c' & Hc' & Hb').
      pose proof (Bu _ _ _ _ Hc Hc' ltac:(congruence)) as <-. destruct (waits_fun _ _ _ _ _ _ _ _ _ _ Hw H) as (_ & _ & _ & <-). congruence.
    + intros (t' & b' & w' & se' & idx' & H & Hh' & Hd'). simpl in Hd'.
      destruct (decide (b = b')) as [<-|Hb]; [by rewrite fn_lookup_insert in Hd'|]. rewrite fn_lookup_insert_ne in Hd' by done.
      assert (j ∈ A ++ heads d ++ i :: U) as Hj by (apply Qu; eauto 10).
      rewrite HP, elem_of_cons in Hj. destruct Hj as [->|]; [|done]. exfalso. apply Hb.
      pose proof (Ap _ _ _ _ _ _ _ _ _ _ i Hw H ltac:(rewrite <- Hh; apply head_in) ltac:(rewrite <- Hh'; apply head_in)) as <-.
      by destruct (waits_fun _ _ _ _ _ _ _ _ _ _ Hw H) as (-> & _).
  - intros t' b' w' se' idx' H. destruct (Ch _ _ _ _ _ H) as [[? ? ? ?] ? ?]. split; [split|..]; done.
  - intros j Hj. simpl. apply St. by right.
Qed.

Lemma intr_loop_run s d calls A U fuel processed :
  vinv s d calls A U -> (length U < fuel)%nat -> (processed + length U <= NUM)%nat ->
  exists s', intr_loop fuel processed s = Ret tt s' /\ vinv s' d calls A []
    /\ forall b, vb_data (v_bufs s' b) = vb_data (v_bufs s b) /\ vb_blockno (v_bufs s' b) = vb_blockno (v_bufs s b).
Proof.
  revert s fuel processed. induction U as [|i U IH]; intros s fuel processed I Hf Hp; (destruct fuel as [|fuel]; [simpl in Hf; lia|]);
    cbn [intr_loop]; rewrite !mthen_gets.
  - pose proof (vi_used _ _ _ _ _ I) as Hu. pose proof (window_length (q_used_ring (v_q s)) (v_used_idx s) (q_used_idx (v_q s))) as Hl.
    rewrite Hu in Hl. destruct (vi_range _ _ _ _ _ I) as (_ & _ & ? & ?).
    assert (v_used_idx s = q_used_idx (v_q s)) as -> by (unfold u16 in Hl; simpl in Hl; dlia).
    rewrite Z.eqb_refl. exists s. split; [done|]. split; [done|by split].
  - destruct (inv_acked _ _ _ _ _ _ I) as (Hi & Hr & Hs & Hne & b & Hb & I').
    rewrite (proj2 (Z.eqb_neq _ _) Hne), Hr. unfold NUM in Hi. rewrite i32_small by lia.
    rewrite Z.geb_leb, (proj2 (Z.leb_gt _ _)) by (unfold NUM; lia). rewrite (proj2 (Z.ltb_ge _ _)) by lia.
    rewrite mthen_gets, Nat2Z.id, Hs. change (truth 0) with false. cbv iota. rewrite mthen_gets, Hb.
    erewrite mthen_ret by reflexivity.
    rewrite mthen_modify. rewrite (proj2 (Nat.ltb_ge _ _)) by (simpl in Hp; lia).
    destruct (IH _ fuel (S processed) I' ltac:(simpl in Hf; lia) ltac:(simpl in Hp; lia)) as (s' & R & I2 & B).
    exists s'. split; [exact R|]. split; [done|]. intros b'. destruct (B b') as [-> ->]. simpl.
    unfold insert, fn_insert. by case_decide; subst.
Qed.

Lemma virtio_disk_intr_run reg s d calls A U :
  vinv s d calls A U ->
  exists s', virtio_disk_intr reg s = Ret tt s' /\ vinv s' d calls A []
    /\ forall b, vb_data (v_bufs s' b) = vb_data (v_bufs s b) /\ vb_blockno (v_bufs s' b) = vb_blockno (v_bufs s b).
Proof.
  intros I. assert (length U <= NUM)%nat as HU.
  { apply nodup_bound; [|intros i Hi; apply (inv_lt I); set_solver].
    pose proof (vi_nodup _ _ _ _ _ I) as Nd. apply NoDup_app in Nd as (_ & _ & Nd). by apply NoDup_app in Nd as (_ & _ & ?). }
  unfold virtio_disk_intr, count, safe_read_reg, safe_write_reg. rewrite mthen_modify.
  change (negb (validate_virtio_reg VIRTIO_MMIO_INTERRUPT_STATUS)) with false.
  change (negb (validate_virtio_reg VIRTIO_MMIO_INTERRUPT_ACK)) with false. cbv iota. rewrite mthen_gets, mthen_modify.
  set (s1 := set_mmio _ _). assert (quiet s s1) as Q by (by split).
  destruct (intr_loop_run s1 d calls A U (S NUM) 0 (inv_quiet I s1 Q) ltac:(lia) ltac:(lia)) as (s' & R & I' & B).
  exists s'. split; [done|]. split; [done|]. intros b. by destruct (B b).
Qed.

(** ** The device *)

Lemma fetch_run s b w sector idx :
  chain_ok s b w sector idx -> fetch s (chain_head idx) = Some (Request (chain_head idx) w sector b BSIZE (chain_head idx)).
Proof.
  intros [[_ _ _ D] O _]. destruct idx as [[i0 i1] i2]. destruct D as (D0 & D1 & D2). unfold fetch, chain_head in *. simpl in *.
  rewrite D0. cbn [vd_next vd_addr vd_flags]. rewrite D1. cbn [vd_next vd_addr vd_flags]. rewrite D2. cbn [vd_next vd_addr vd_flags vd_len].
  rewrite O. by destruct w.
Qed.

Lemma inv_take s d d' calls A U :
  vinv s d calls A U -> dev_take s d = Some d' ->
  exists i A', A = i :: A' /\ vinv s d' calls A' U /\ dv_sectors d' = dv_sectors d /\ heads d' = heads d ++ [i].
Proof.
  intros I Ht. pose proof I as [Rg Av Us Nd Qu Ch Ap Tk Bu St Pe]. unfold dev_take in Ht.
  destruct (Z.eqb_spec (dv_seen d) (q_avail_idx (v_q s))) as [|Hne]; [done|].
  pose proof Av as Av'. rewrite window_pop in Av' by (done || lia). destruct A as [|i A]; [done|]. simpl in Av'. injection Av' as Hr Ha.
  assert (i ∈ (i :: A) ++ heads d ++ U) as Hi by set_solver.
  destruct (proj1 (Qu i) Hi) as (t & b & w & se & idx & Hw & Hh & Hd).
  rewrite Hr, Nat2Z.id, <- Hh, (fetch_run _ _ _ _ _ (Ch _ _ _ _ _ Hw)) in Ht. simpl in Ht. injection Ht as <-.
  set (r := Request _ _ _ _ _ _).
  assert (heads (Device (u16 (dv_seen d + 1)) (dv_pending d ++ [r]) (dv_sectors d)) = heads d ++ [i]) as Hd'.
  { unfold heads. simpl. rewrite fmap_app. simpl. by rewrite Hh. }
  exists i, A. split; [done|]. split; [|done].
  assert (A ++ (heads d ++ [i]) ++ U ≡ₚ (i :: A) ++ heads d ++ U) as HP by (simpl; rewrite <- app_assoc; simpl; by rewrite <- !Permutation_middle).
  split; rewrite ?Hd'; try done.
  - pose proof (u16_range (dv_seen d + 1)). simpl. by destruct_and!.
  - by rewrite HP.
  - intros j. by rewrite HP.
  - intros r' [Hr'|Hr']%elem_of_app; [by apply Pe|]. apply list_elem_of_singleton in Hr' as ->. by eexists _, _, _, _, _.
Qed.

Lemma set_data_same b data s :
  same_but [] s (set_data b data s) /\ same_rings s (set_data b data s)
  /\ (forall b', vb_disk (v_bufs (set_data b data s) b') = vb_disk (v_bufs s b')).
Proof.
  split; [by split|]. split; [by repeat split|]. intros b'. simpl. unfold insert, fn_insert. by case_decide; subst.
Qed.

(** The device reports a request it holds: its head moves to the used ring. *)
Lemma inv_report s d calls A U k r :
  vinv s d calls A U -> dv_pending d !! k = Some r ->
  let d' := Device (dv_seen d) (delete k (dv_pending d)) (dv_sectors d) in
  heads d ≡ₚ rq_head r :: heads d'
  /\ vinv (set_q (put_used (Z.of_nat (rq_head r))) (set_status (rq_head r) 0 s)) d' calls A (U ++ [rq_head r]).
Proof.
  intros I Hk d'. pose proof I as [Rg Av Us Nd Qu Ch Ap Tk Bu St Pe].
  assert (heads d ≡ₚ rq_head r :: heads d') as Hd.
  { unfold heads, d'. simpl. rewrite <- fmap_cons. apply fmap_Permutation. by apply delete_Permutation. }
  split; [done|].
  assert (A ++ heads d' ++ U ++ [rq_head r] ≡ₚ A ++ heads d ++ U) as HP.
  { rewrite Hd. simpl. rewrite <- (Permutation_cons_append U). rewrite <- Permutation_middle. done. }
  assert (Z.of_nat (length U) < 8) as HU.
  { assert (length (U ++ [rq_head r]) <= NUM)%nat as H; [|unfold NUM in H; rewrite length_app in H; simpl in H; lia].
    rewrite <- HP in Nd. apply nodup_bound.
    - apply NoDup_app in Nd as (_ & _ & Nd). by apply NoDup_app in Nd as (_ & _ & ?).
    - intros i Hi. apply (inv_lt I). rewrite <- HP. set_solver. }
  split; try done.
  - pose proof (u16_range (q_used_idx (v_q s) + 1)). simpl. by destruct_and!.
  - simpl. rewrite window_push; [by rewrite Us, fmap_app|]. rewrite <- (window_length (q_used_ring (v_q s))), Us, length_fmap. done.
  - by rewrite HP.
  - intros i. rewrite HP. apply Qu.
  - intros t b w se idx H. destruct (Ch _ _ _ _ _ H) as [[? ? ? ?] ? ?]. split; [split|..]; done.
  - intros i Hi. simpl. unfold insert, fn_insert. case_decide as Hn; [done|]. apply St. set_solver.
  - intros r' Hr'. apply Pe. rewrite (delete_Permutation _ _ _ Hk). by right.
Qed.

Lemma inv_sectors s d calls A U f : vinv s d calls A U -> vinv s (Device (dv_seen d) (dv_pending d) f) calls A U.
Proof. by intros []. Qed.

(** The transfer itself. *)
Definition transferred (w : bool) (sector : Z) (b : nat) (s : vst) (d : device) (s' : vst) (d' : device) : Prop :=
  (forall b', vb_blockno (v_bufs s' b') = vb_blockno (v_bufs s b')) /\
  if w then dv_sectors d' = write_sectors (dv_sectors d) sector BSIZE (vb_data (v_bufs s b)) /\ v_bufs s' = v_bufs s
  else dv_sectors d' = dv_sectors d
       /\ forall b', vb_data (v_bufs s' b') = if decide (b = b') then read_sectors (dv_sectors d) sector BSIZE else vb_data (v_bufs s b').

Lemma inv_perform s d s' d' calls A U k :
  vinv s d calls A U -> dev_perform k s d = Some (s', d') ->
  exists t b w sector idx, waits calls t b w sector idx /\ heads d ≡ₚ chain_head idx :: heads d'
    /\ vinv s' d' calls A (U ++ [chain_head idx]) /\ transferred w sector b s d s' d'.
Proof.
  intros I Hp. unfold dev_perform in Hp. destruct (dv_pending d !! k) as [r|] eqn:Hk; [|done]. simpl in Hp.
  destruct (vi_pending _ _ _ _ _ I r) as (t & b & w & se & idx & Hw & ->); [by eapply list_elem_of_lookup_2|].
  cbn [rq_data rq_write rq_sector rq_len rq_status rq_head] in Hp. exists t, b, w, se, idx.
  destruct w; injection Hp as <- <-.
  - destruct (inv_report _ _ _ _ _ _ _ I Hk) as [Hd I']. split; [done|]. split; [done|].
    split; [by apply (inv_sectors _ _ _ _ _ (write_sectors (dv_sectors d) se BSIZE (vb_data (v_bufs s b)))) in I'|]. by split.
  - destruct (set_data_same b (read_sectors (dv_sectors d) se BSIZE) s) as (S & R & B).
    destruct (inv_report _ _ _ _ _ _ _ (inv_frame I _ S R B) Hk) as [Hd I']. split; [done|]. split; [done|]. split; [done|].
    split; [|split; [done|]]; intros b'; simpl; unfold insert, fn_insert; by case_decide; subst.
Qed.
