(* ===== verification/VirtioThm.v ===== *)
(** The disk driver implements a disk on which each request is one transfer
    between its call and its return, and what happens when it gives up. *)

From stdpp Require Import functions.
From S2P Require Import Prelude.
From S2P Require Import Virtio.
From S2P Require Import VirtioSys.
From S2P Require Import VirtioProof.

(** ** The abstraction *)

(** A waiting call has its transfer behind it once its head is neither in the
    available ring nor held by the device. *)
Definition abs_call (L : list nat) (c : call) : acall :=
  match c with
  | CallDesc b w sector _ => Acall b w sector false
  | CallWait b w sector idx _ _ => Acall b w sector (bool_decide (chain_head idx ∉ L))
  end.

Record agrees (s : vst) (d : device) (calls : gmap nat call) (A : list nat) (a : adisk) : Prop := {
  ag_sectors x : a_sectors a x = dv_sectors d x;
  ag_blockno b : a_blockno a b = vb_blockno (v_bufs s b);
  ag_data b : a_data a b = vb_data (v_bufs s b);
  ag_calls : a_calls a = abs_call (A ++ heads d) <$> calls }.

Lemma aruns_trans a1 a2 a3 l1 l2 : aruns a1 l1 a2 -> aruns a2 l2 a3 -> aruns a1 (l1 ++ l2) a3.
Proof.
  intros H1. induction 1 as [|a a' a'' l tr _ IH Hs]; [by rewrite app_nil_r|]. rewrite app_assoc. econstructor; eauto.
Qed.
Lemma aruns_one a l a' : astep a l a' -> aruns a l a'.
Proof. intros H. change l with ([] ++ l). econstructor; [constructor|done]. Qed.

Lemma read_sectors_ext d d' sector len : (forall x, d x = d' x) -> read_sectors d sector len = read_sectors d' sector len.
Proof. intros H. unfold read_sectors. f_equal. apply list_fmap_ext. intros. by rewrite H. Qed.
Lemma write_sectors_ext d d' sector len data x :
  (forall x, d x = d' x) -> write_sectors d sector len data x = write_sectors d' sector len data x.
Proof. intros H. unfold write_sectors. by rewrite H. Qed.

(** Only membership in the queues matters. *)
Lemma abs_calls_ext L L' calls :
  (forall t b w sector idx, waits calls t b w sector idx -> (chain_head idx ∈ L <-> chain_head idx ∈ L')) ->
  abs_call L <$> calls = abs_call L' <$> calls.
Proof.
  intros H. apply map_fmap_ext. intros t c Hc. destruct c as [|b w sector idx st n]; [done|]. simpl. f_equal.
  apply bool_decide_ext. by rewrite (H t b w sector idx) by (by eexists _, _).
Qed.

Lemma agrees_bufs s s' d calls A a :
  agrees s d calls A a ->
  (forall b, vb_data (v_bufs s' b) = vb_data (v_bufs s b) /\ vb_blockno (v_bufs s' b) = vb_blockno (v_bufs s b)) ->
  agrees s' d calls A a.
Proof. intros [S N D C] B. split; [done|..|done]; intros b; destruct (B b) as [E1 E2]; by rewrite ?E1, ?E2. Qed.

(** ** The simulation *)

Definition sim (y : vsys) (a : adisk) : Prop :=
  exists A U, vinv (y_v y) (y_dev y) (y_calls y) A U /\ agrees (y_v y) (y_dev y) (y_calls y) A a.

(** A call with descriptors missing tries again. *)
Lemma sim_attempt s s' d calls a t b w sector n r :
  sim (Vsys s d calls) a -> calls !! t = Some (CallDesc b w sector n) -> attempt s s' b w sector n r ->
  exists a', aruns a (returned t b r s') a' /\ sim (Vsys s' d (stopped t b w sector r calls)) a'.
Proof.
  intros (A & U & I & G) Ht [(idx & st & -> & Hs)|[Q Hr]]; simpl in *.
  - exists a. split; [constructor|]. exists (A ++ [chain_head idx]), U.
    split; [by eapply inv_submit|]. pose proof (inv_submit _ _ _ _ _ _ _ _ _ _ _ _ st 0 I Ht Hs) as I'.
    assert (agrees s' d calls A a) as [Sx Nx Dx Cx].
    { eapply agrees_bufs; [exact G|]. intros b'. rewrite (su_bufs _ _ _ _ _ _ Hs). unfold insert, fn_insert. by case_decide; subst. }
    split; simpl; [done..|]. rewrite Cx. rewrite fmap_insert. simpl.
    rewrite bool_decide_eq_false_2 by set_solver.
    assert (abs_call (A ++ heads d) <$> calls = abs_call ((A ++ [chain_head idx]) ++ heads d) <$> calls) as ->.
    { apply abs_calls_ext. intros t' b' w' se' idx' H. rewrite !elem_of_app, list_elem_of_singleton.
      enough (chain_head idx' <> chain_head idx) by naive_solver. intros E.
      pose proof (ch_free _ _ _ _ (ch_shape _ _ _ _ _ (vi_chain _ _ _ _ _ I _ _ _ _ _ H)) _ (head_in idx')) as Hf.
      rewrite E, (su_fresh _ _ _ _ _ _ Hs) in Hf by apply head_in. done. }
    symmetry. apply insert_id. rewrite lookup_fmap, Ht. done.
  - pose proof (inv_quiet I s' Q) as I'. assert (agrees s' d calls A a) as G'.
    { eapply agrees_bufs; [exact G|]. intros b'. by destruct (quiet_same _ _ Q) as (_ & _ & ->). }
    destruct G' as [Sx Nx Dx Cx]. destruct Hr as [-> | [-> F]].
    + exists a. split; [constructor|]. exists A, U. simpl. split.
      * eapply inv_redesc; [by apply (inv_quiet I)|done].
      * split; simpl; [done..|]. rewrite Cx, fmap_insert. symmetry. apply insert_id. by rewrite lookup_fmap, Ht.
    + destruct a as [ad an af ac]. simpl in *. exists (Adisk ad an af (delete t ac)). split.
      * destruct (few_free_owners I F) as (t1 & t2 & Hne & (b1 & w1 & se1 & idx1 & st1 & n1 & H1) & (b2 & w2 & se2 & idx2 & st2 & n2 & H2)).
        rewrite <- Dx. apply aruns_one. apply (as_abandon _ _ _ _ _ b w sector t1 t2); rewrite ?Cx, ?lookup_fmap, ?Ht, ?H1, ?H2;
          [done|congruence|congruence|done|done|done].
      * exists A, U. split; [by eapply inv_abandon; [by apply (inv_quiet I)|]|]. split; simpl; [done..|]. by rewrite Cx, fmap_delete.
Qed.

Lemma stopped_insert t b w sector r c calls : calls !! t = None -> stopped t b w sector r (<[t := c]> calls) = stopped t b w sector r calls.
Proof. intros Ht. destruct r; simpl; [apply insert_insert_eq..|]. by rewrite delete_insert_eq. Qed.

Lemma sim_woken s s' d calls a t b w sector idx st n now r :
  sim (Vsys s d calls) a -> calls !! t = Some (CallWait b w sector idx st n) -> n + 1 <= 10000 ->
  rw_woken b idx st n now s = Ret r s' ->
  exists a', aruns a (gave_up t n ++ returned t b r s') a' /\ sim (Vsys s' d (stopped t b w sector r calls)) a'.
Proof.
  intros (A & U & I & G) Ht Hn Hr. unfold gave_up. rewrite (proj2 (Z.ltb_ge _ _)) by done. simpl in *. assert (waits calls t b w sector idx) as Hw by (by eexists _, _).
  unfold rw_woken in Hr. rewrite Z.gtb_ltb, (proj2 (Z.ltb_ge _ _)) in Hr by lia. unfold rw_wait in Hr. rewrite mthen_gets in Hr.
  destruct (Z.eqb_spec (vb_disk (v_bufs s b)) 1) as [Hd|Hd].
  - injection Hr as <- <-. exists a. split; [constructor|]. exists A, U. split; [by eapply inv_rewait|].
    destruct G as [Sx Nx Dx Cx]. split; simpl; [done..|]. rewrite Cx, fmap_insert. symmetry. apply insert_id. by rewrite lookup_fmap, Ht.
  - destruct (rw_finish_run s b w idx st now true (ch_shape _ _ _ _ _ (vi_chain _ _ _ _ _ I _ _ _ _ _ Hw))) as (s1 & R & S & E & B & F).
    rewrite R in Hr. injection Hr as <- <-. destruct (inv_finish _ _ _ _ _ _ _ _ _ _ _ I Hw Hd S E B F) as [Hh I'].
    destruct G as [Sx Nx Dx Cx]. destruct a as [ad an af ac]. simpl in *. exists (Adisk ad an af (delete t ac)). split.
    + simpl. rewrite B, <- Dx. apply aruns_one. eapply (as_return _ _ _ _ _ b w sector). rewrite Cx, lookup_fmap, Ht. simpl.
      by rewrite bool_decide_eq_true_2 by set_solver.
    + exists A, U. split; [done|]. split; simpl; [done|by rewrite B..|]. by rewrite Cx, fmap_delete.
Qed.

Lemma sim_perform s s' d d' calls a k :
  sim (Vsys s d calls) a -> dev_perform k s d = Some (s', d') -> exists a', aruns a [] a' /\ sim (Vsys s' d' calls) a'.
Proof.
  intros (A & U & I & [Sx Nx Dx Cx]) Hp. simpl in *.
  destruct (inv_perform _ _ _ _ _ _ _ _ I Hp) as (t & b & w & se & idx & Hw & Hd & I' & Hb & T).
  pose proof (vi_nodup _ _ _ _ _ I) as Nd. rewrite Hd in Nd.
  pose proof Hw as (st & n & Ht). destruct a as [ad an af ac]. simpl in *.
  assert (ac !! t = Some (Acall b w se false)) as Ha.
  { rewrite Cx, lookup_fmap, Ht. simpl. rewrite bool_decide_eq_false_2; [done|]. rewrite Hd. set_solver. }
  assert (abs_call (A ++ heads d') <$> calls = <[t := Acall b w se true]> ac) as Hc.
  { apply map_eq. intros t'. rewrite lookup_fmap. destruct (decide (t' = t)) as [->|Hne].
    - rewrite lookup_insert_eq, Ht. simpl. rewrite bool_decide_eq_true_2; [done|].
      rewrite <- Permutation_middle in Nd. apply NoDup_cons in Nd as [Nd _]. set_solver.
    - rewrite lookup_insert_ne, Cx, lookup_fmap by done. destruct (calls !! t') as [[|b' w' se' idx' st' n']|] eqn:Ht'; try done. simpl.
      do 2 f_equal. apply bool_decide_ext. rewrite Hd.
      assert (chain_head idx' <> chain_head idx); [|set_solver]. intros E. apply Hne.
      eapply (vi_apart _ _ _ _ _ I); [by eexists _, _|exact Hw|apply head_in|rewrite E; apply head_in]. }
  destruct w; destruct T as [T1 T2].
  - exists (Adisk (write_sectors ad se BSIZE (af b)) an af (<[t := Acall b true se true]> ac)). split; [by apply aruns_one, as_write|].
    exists A, (U ++ [chain_head idx]). split; [done|]. split; simpl.
    + intros x. rewrite T1, Dx. by apply write_sectors_ext.
    + intros b'. by rewrite Hb.
    + intros b'. by rewrite T2.
    + done.
  - exists (Adisk ad an (<[b := read_sectors ad se BSIZE]> af) (<[t := Acall b false se true]> ac)). split; [by apply aruns_one, as_read|].
    exists A, (U ++ [chain_head idx]). split; [done|]. split; simpl.
    + intros x. by rewrite T1.
    + intros b'. by rewrite Hb.
    + intros b'. rewrite T2. unfold insert, fn_insert. case_decide; [by apply read_sectors_ext|apply Dx].
    + done.
Qed.

(** The step shows what the disk shows, or a caller in progress gives up. *)
Lemma vsim_step reg y l y' a :
  sim y a -> vstep reg y l y' ->
  (exists a', aruns a l a' /\ sim y' a') \/ (exists t l', l = EvGiveUp t :: l' /\ t ∈ dom (a_calls a)).
Proof.
  intros Hs. destruct 1 as [s d calls t b w now r s' Ht Hb Hr sector|s d calls t b w sector n now r s' Ht Hr
    |s d calls t b w sector idx st n now r s' Ht Hr|s d calls s' Hr|s d calls d' Hd|s d calls k s' d' Hp|s d calls b bn data Hb].
  - left. destruct (virtio_disk_rw_run s b w now) as (r0 & s0 & R & At). rewrite R in Hr. injection Hr as -> ->.
    destruct Hs as (A & U & I & [Sx Nx Dx Cx]). destruct a as [ad an af ac]. simpl in *.
    assert (sim (Vsys s d (<[t := CallDesc b w sector 0]> calls)) (Adisk ad an af (<[t := Acall b w sector false]> ac))) as Hs.
    { exists A, U. split; [by apply (inv_call I)|]. split; simpl; [done..|]. by rewrite Cx, fmap_insert. }
    destruct (sim_attempt _ _ _ _ _ _ _ _ _ _ _ Hs (lookup_insert_eq _ _ _) At) as (a' & Ha & Hs').
    rewrite stopped_insert in Hs' by done. exists a'. split; [|done].
    change (EvCall t b w sector :: returned t b r s') with ([EvCall t b w sector] ++ returned t b r s').
    eapply aruns_trans; [|exact Ha]. apply aruns_one. unfold sector. rewrite <- Nx. apply as_call. by rewrite Cx, lookup_fmap, Ht.
  - left. destruct (rw_alloc_run s b w sector n now) as (r0 & s0 & R & At). rewrite R in Hr. injection Hr as -> ->. by eapply sim_attempt.
  - destruct (Z.le_gt_cases (n + 1) 10000) as [Hn|Hn]; [left; by eapply sim_woken|right]. unfold gave_up.
    rewrite (proj2 (Z.ltb_lt _ _)) by lia. eexists t, _. split; [done|]. destruct Hs as (A & U & _ & G).
    rewrite (ag_calls _ _ _ _ _ G), dom_fmap_L. by apply elem_of_dom.
  - left. destruct Hs as (A & U & I & G). destruct (virtio_disk_intr_run reg s d calls A U I) as (s1 & R & I' & B).
    rewrite R in Hr. injection Hr as ->. exists a. split; [constructor|]. exists A, []. split; [done|]. by eapply agrees_bufs.
  - left. destruct Hs as (A & U & I & [Sx Nx Dx Cx]). destruct (inv_take _ _ _ _ _ _ I Hd) as (i & A' & -> & I' & Es & Eh).
    exists a. split; [constructor|]. exists A', U. split; [done|]. simpl in *. split; simpl; [by rewrite Es|done..|]. rewrite Cx, Eh.
    apply abs_calls_ext. intros. rewrite elem_of_cons, !elem_of_app, list_elem_of_singleton. tauto.
  - left. by eapply sim_perform.
  - left. destruct Hs as (A & U & I & [Sx Nx Dx Cx]). destruct a as [ad an af ac]. simpl in *.
    exists (Adisk ad (<[b := bn]> an) (<[b := data]> af) ac). split.
    + apply aruns_one, as_owner. intros t c Hc. rewrite Cx, lookup_fmap in Hc. destruct (calls !! t) as [c0|] eqn:Ht; [|done].
      injection Hc as <-. specialize (Hb t c0 Ht). by destruct c0.
    + exists A, U. split.
      * apply (inv_frame I); [by split|by repeat split|]. intros b'. simpl. unfold insert, fn_insert. by case_decide; subst.
      * split; simpl; [done|..|done]; intros b'; unfold insert, fn_insert; case_decide; done.
Qed.

(** ** From boot *)

(** [virtio_disk_init] leaves the rings empty and every descriptor free. *)
Definition fresh (s : vst) : Prop :=
  v_q s = Virtq (fun _ => VirtqDesc DmaNull 0 0 0) (fun _ => 0) 0 (fun _ => 0) 0 /\ v_used_idx s = 0
  /\ forall i, (i < NUM)%nat -> v_free s i = true.

Lemma read_reg_inv {A} reg off (k : Z -> M vst A) s r s' :
  mthen (safe_read_reg reg off) k s = Ret r s' -> exists v, k v s = Ret r s'.
Proof. unfold safe_read_reg, mthen. destruct (negb _); cbn; eauto. Qed.
Definition keeps (s s' : vst) : Prop :=
  v_q s' = v_q s /\ v_used_idx s' = v_used_idx s /\ v_bufs s' = v_bufs s /\ v_free s' = v_free s.
Lemma keeps_trans s1 s2 s3 : keeps s1 s2 -> keeps s2 s3 -> keeps s1 s3.
Proof. unfold keeps. intros (-> & -> & -> & ->) (-> & -> & -> & ->). done. Qed.
Lemma write_reg_inv {A} off v (k : () -> M vst A) s r s' :
  mthen (safe_write_reg off v) k s = Ret r s' -> exists s1, keeps s s1 /\ k tt s1 = Ret r s'.
Proof.
  unfold safe_write_reg, mthen. destruct (negb _); intros H; [exists s; by split|]. eexists. split; [|exact H]. done.
Qed.
Lemma write_reg_last off v s s' : safe_write_reg off v s = Ret tt s' -> keeps s s'.
Proof. unfold safe_write_reg. destruct (negb _); by intros [= <-]. Qed.

Ltac reg_step H :=
  lazymatch type of H with
  | mthen (safe_read_reg _ _) _ _ = _ => apply read_reg_inv in H; destruct H as [? H]
  | mthen (safe_write_reg _ _) _ _ = _ => let K := fresh "K" in apply write_reg_inv in H; destruct H as (? & K & H)
  | mthen (modify _) _ _ = _ => rewrite mthen_modify in H
  | (if ?c then _ else _) _ = _ => destruct c; [discriminate H|]
  end; cbv beta in H.
Ltac keep_all :=
  repeat match goal with K1 : keeps ?a ?b, K2 : keeps ?b ?c |- _ => pose proof (keeps_trans _ _ _ K1 K2); clear K1 K2 end.

Definition all_free (s : vst) : vst :=
  set_free 7 true (set_free 6 true (set_free 5 true (set_free 4 true (set_free 3 true (set_free 2 true (set_free 1 true (set_free 0 true s))))))).
Lemma all_free_keeps s :
  v_q (all_free s) = v_q s /\ v_used_idx (all_free s) = v_used_idx s /\ v_bufs (all_free s) = v_bufs s
  /\ forall i, (i < NUM)%nat -> v_free (all_free s) i = true.
Proof. do 3 (split; [done|]). intros i Hi. do 8 (destruct i as [|i]; [done|]). unfold NUM in Hi. lia. Qed.

Lemma virtio_disk_init_fresh reg desc avail used s s' :
  virtio_disk_init reg desc avail used s = Ret tt s' -> v_used_idx s = 0 ->
  fresh s' /\ forall b, v_bufs s' b = v_bufs s b.
Proof.
  intros H Hu. unfold virtio_disk_init, virtio_stats_init in H. repeat reg_step H. keep_all.
  match type of H with mthen _ _ ?x = _ => rewrite (mthen_ret _ _ x tt (all_free x) eq_refl) in H end.
  apply write_reg_last in H as (Q & X & B & F).
  match type of Q with _ = v_q (all_free ?x) => destruct (all_free_keeps x) as (Q1 & X1 & B1 & F1) end.
  repeat match goal with K : keeps _ _ |- _ => destruct K as (? & ? & ? & ?) end. simpl in *.
  split; [split; [congruence|split; [congruence|by rewrite F]]|]. congruence.
Qed.

Lemma fresh_inv s sectors : fresh s -> vinv s (Device 0 [] sectors) ∅ [] [].
Proof.
  intros (Q & X & F).
  assert (forall t b w sector idx, ~ waits ∅ t b w sector idx) as Hw by (intros * (? & ? & H); by rewrite lookup_empty in H).
  split; rewrite ?Q, ?X; simpl; try done.
  - constructor.
  - intros i. split; [set_solver|]. intros (t & b & w & se & idx & H & _). by apply Hw in H.
  - intros * H. by apply Hw in H.
  - intros * H. by apply Hw in H.
  - intros i Hi Hf. by rewrite F in Hf.
  - set_solver.
  - set_solver.
Qed.

Section Reachable.
Context (reg : list (Z * Z) -> Z -> Z) (desc avail used : Z).

Lemma boot_sim y : booted reg desc avail used y -> sim y (abs_boot y).
Proof.
  intros (s & sectors & Hi & ->). apply virtio_disk_init_fresh in Hi as [Hf Hb]; [|done].
  exists [], []. split; [by apply fresh_inv|]. by split.
Qed.
Lemma runs_sim y0 tr y a0 :
  sim y0 a0 -> vruns reg y0 tr y ->
  exists tr1 tr2 a, tr = tr1 ++ tr2 /\ aruns a0 tr1 a
    /\ ((tr2 = [] /\ sim y a) \/ exists t l, tr2 = EvGiveUp t :: l /\ t ∈ dom (a_calls a)).
Proof.
  intros Hs Hr. induction Hr as [|y0 y' y'' tr l _ IH Hst]; [exists [], [], a0; split; [done|]; split; [constructor|by left]|].
  destruct (IH Hs) as (tr1 & tr2 & a & -> & Ha & [[-> Hs']|(t & l' & -> & Ht)]).
  - rewrite app_nil_r. destruct (vsim_step _ _ _ _ _ Hs' Hst) as [(a' & Ha' & Hs'')|(t & l' & -> & Ht)].
    + exists (tr1 ++ l), [], a'. split; [by rewrite app_nil_r|]. split; [by eapply aruns_trans|by left].
    + exists tr1, (EvGiveUp t :: l'), a. split; [done|]. split; [done|]. right. by exists t, l'.
  - exists tr1, (EvGiveUp t :: l' ++ l), a. split; [by rewrite <- app_assoc|]. split; [done|]. right. by eexists t, _.
Qed.

(** C4: the disk driver refines a disk with atomic transfers, until a caller
    gives a request up.  Whatever a run of concurrent [virtio_disk_rw] calls,
    interrupts, device steps and buffer owners shows to the callers, data
    included, a run of the abstract disk shows too: a call that reports success
    has had exactly one transfer, of its own block, between the call and the
    return; a call that reports failure has had none, and then two other calls
    were in progress (the driver found less than three descriptors free).
    Either that is the whole run, which then ends with the same disk, the same
    buffers and the same calls in progress, or it is the part before the first
    [EvGiveUp]: a caller woken more than 10000 times leaves its request with
    the device, and nothing is promised from there on ([late_completion]). *)
Theorem virtio_refines_disk y0 tr y :
  booted reg desc avail used y0 -> vruns reg y0 tr y ->
  exists tr1 tr2 a, tr = tr1 ++ tr2 /\ aruns (abs_boot y0) tr1 a
    /\ ((tr2 = [] /\ (forall x, a_sectors a x = dv_sectors (y_dev y) x)
          /\ (forall b, a_data a b = vb_data (v_bufs (y_v y) b))
          /\ dom (a_calls a) = dom (y_calls y))
        \/ exists t l, tr2 = EvGiveUp t :: l /\ t ∈ dom (a_calls a)).
Proof.
  intros Hb Hr. destruct (runs_sim _ _ _ _ (boot_sim _ Hb) Hr) as (tr1 & tr2 & a & -> & Ha & [[-> (A & U & I & [Sx Nx Dx Cx])]|Hg]).
  - exists tr1, [], a. split; [done|]. split; [done|]. left. split; [done|]. split; [done|]. split; [done|]. by rewrite Cx, dom_fmap_L.
  - exists tr1, tr2, a. split; [done|]. split; [done|]. by right.
Qed.

(** The driver never panics and never loops.  In every state a booted
    system reaches without giving a request up, each of its routines returns when it runs: a new request,
    a retry for descriptors, a caller woken from its wait (also one that gives
    up there), and an interrupt.  When no call is in progress all descriptors
    are free again. *)
Theorem virtio_routines_return y0 tr y :
  booted reg desc avail used y0 -> vruns reg y0 tr y -> (forall t, EvGiveUp t ∉ tr) ->
  let s := y_v y in
  (forall b write now, exists r s', virtio_disk_rw b write now s = Ret r s')
  /\ (forall t b write sector timeout now, y_calls y !! t = Some (CallDesc b write sector timeout) ->
        exists r s', rw_alloc b write sector timeout now s = Ret r s')
  /\ (forall t b write sector idx st timeout now, y_calls y !! t = Some (CallWait b write sector idx st timeout) ->
        exists r s', rw_woken b idx st timeout now s = Ret r s')
  /\ (exists s', virtio_disk_intr reg s = Ret tt s')
  /\ (y_calls y = ∅ -> forall i, (i < NUM)%nat -> v_free s i = true).
Proof.
  intros Hb Hr Hn s. destruct (runs_sim _ _ _ _ (boot_sim _ Hb) Hr) as (tr1 & tr2 & _ & -> & _ & [[_ (A & U & I & _)]|(t & l & -> & _)]); [subst s|].
  2:{ destruct (Hn t). set_solver. }
  split; [|split; [|split; [|split]]].
  - intros b w now. destruct (virtio_disk_rw_run (y_v y) b w now) as (r & s' & R & _). eauto.
  - intros t b w se n now _. destruct (rw_alloc_run (y_v y) b w se n now) as (r & s' & R & _). eauto.
  - intros t b w se idx st n now Ht. assert (waits (y_calls y) t b w se idx) as Hw by (by eexists _, _).
    pose proof (ch_shape _ _ _ _ _ (vi_chain _ _ _ _ _ I _ _ _ _ _ Hw)) as Hc. unfold rw_woken, count.
    destruct (n + 1 >? 10000).
    + rewrite mthen_modify. destruct (rw_finish_run (set_stats (incr failed_ops) (y_v y)) b w idx st now false) as (s' & R & _); [|eauto].
      by destruct Hc; split.
    + unfold rw_wait. rewrite mthen_gets. destruct (_ =? 1); [by eexists _, _|].
      destruct (rw_finish_run (y_v y) b w idx st now true Hc) as (s' & R & _). eauto.
  - destruct (virtio_disk_intr_run reg _ _ _ _ _ I) as (s' & R & _). eauto.
  - intros He i Hi. destruct (v_free (y_v y) i) eqn:Hf; [done|].
    destruct (vi_taken _ _ _ _ _ I i Hi Hf) as (t & b & w & se & idx & (? & ? & H) & _). by rewrite He, lookup_empty in H.
Qed.
End Reachable.

(** ** Giving up *)

(** [k] attempts of one caller, woken each time by another one. *)
Fixpoint retries (k : nat) (b : nat) (write : bool) (sector timeout now : Z) : M vst rw_next :=
  match k with
  | O => mreturn (RwNoDesc timeout)
  | S k' =>
      let* r := rw_alloc b write sector timeout now in
      match r with
      | RwNoDesc n => retries k' b write sector n now
      | _ => mreturn r
      end
  end.

Lemma alloc3_fails s :
  6 <= get_queue_depth s -> exists s', alloc3_desc s = Ret None s' /\ quiet s s'
    /\ (get_queue_depth s < 8 -> exists l, v_woken s' = ChanFree :: l).
Proof.
  intros Hd. destruct (alloc3_desc_spec s) as [(idx & R & N & Hi)|(s' & R & Q & W)].
  - exfalso. unfold get_queue_depth in Hd.
    assert (length (idx_list idx ++ filter (fun i => v_free s i = false) (seq 0 NUM)) <= NUM)%nat as H.
    { apply nodup_bound.
      - apply NoDup_app. split; [done|]. split; [|apply NoDup_filter, NoDup_seq]. intros i [_ Hf]%Hi [Hf' _]%list_elem_of_filter. congruence.
      - intros i [[Hl _]%Hi|[_ Hl%elem_of_seq]%list_elem_of_filter]%elem_of_app; [done|lia]. }
    rewrite length_app in H. destruct idx as [[i0 i1] i2]. unfold NUM in H. simpl in H, Hd. lia.
  - exists s'. split; [done|]. split; [done|]. intros Hlt. apply W.
    destruct (List.find (v_free s) (seq 0 NUM)) as [i|] eqn:Hf.
    + apply find_some in Hf as [Hi Hf]. apply in_seq in Hi. exists i. split; [lia|done].
    + exfalso. unfold get_queue_depth in Hlt.
      assert (length (seq 0 NUM) <= length (filter (fun i => v_free s i = false) (seq 0 NUM)))%nat as H; [|rewrite length_seq in H; unfold NUM in *; lia].
      apply submseteq_length, NoDup_submseteq; [apply NoDup_seq|]. intros i Hi. apply list_elem_of_filter. split; [|done].
      eapply find_none; [done|]. by apply list_elem_of_In.
Qed.

Lemma quiet_depth s s' : quiet s s' -> get_queue_depth s' = get_queue_depth s.
Proof. intros Q. unfold get_queue_depth. do 2 f_equal. apply list_filter_iff. intros i. by rewrite (qt_free _ _ Q). Qed.

(** a request can be dropped silently.  While six or seven descriptors are
    in use, an attempt fails, leaves the state as it was, and wakes every
    process that waits for descriptors; two waiting callers so keep waking
    each other without any progress of the device, and a caller's 1001st
    attempt returns with nothing transferred and the buffer unmarked. *)
Theorem descriptor_wait_gives_up s b write sector now :
  6 <= get_queue_depth s < 8 ->
  (forall n, 0 <= n < 1000 -> exists s' l,
     rw_alloc b write sector n now s = Ret (RwNoDesc (n + 1)) s' /\ quiet s s' /\ v_woken s' = ChanFree :: l)
  /\ exists s', retries 1001 b write sector 0 now s = Ret (RwReturn false) s' /\ quiet s s'.
Proof.
  intros Hd. split.
  - intros n Hn. destruct (alloc3_fails s ltac:(lia)) as (s' & R & Q & W). destruct W as [l W]; [lia|]. exists s', l.
    unfold rw_alloc. rewrite (mthen_ret _ _ _ _ _ R), Z.gtb_ltb, (proj2 (Z.ltb_ge _ _)) by lia. done.
  - assert (forall k n s1, quiet s s1 -> Z.of_nat k + n = 1001 -> 0 <= n -> (0 < k)%nat ->
      exists s', retries k b write sector n now s1 = Ret (RwReturn false) s' /\ quiet s s') as H.
    { induction k as [|k IH]; intros n s1 Q1 Hk Hn Hpos; [lia|]. cbn [retries].
      destruct (alloc3_fails s1) as (s2 & R & Q2 & _); [rewrite (quiet_depth _ _ Q1); lia|].
      unfold mthen at 1, rw_alloc. rewrite (mthen_ret _ _ _ _ _ R). rewrite Z.gtb_ltb. destruct (Z.ltb_spec 1000 (n + 1)).
      - cbn. eexists. split; [done|]. eapply quiet_trans; [exact Q1|]. eapply quiet_trans; [exact Q2|apply quiet_stats].
      - cbn. apply IH; [by eapply quiet_trans|lia..]. }
    apply (H 1001%nat 0 s); [apply quiet_refl|lia..].
Qed.

(** ** Running the system *)

Inductive action :=
| ACall (t b : nat) (write : bool) (now : Z)
| AWake (t : nat) (now : Z)
| AIntr
| ATake
| APerform (k : nat)
| AOwner (b : nat) (blockno : Z) (data : list Z).

Definition piece (t b : nat) (write : bool) (sector : Z) (evs : list vevent) (d : device) (calls : gmap nat call)
    (o : outcome vst rw_next) : option (list vevent * vsys) :=
  match o with
  | Ret r s' => Some (evs ++ returned t b r s', Vsys s' d (stopped t b write sector r calls))
  | _ => None
  end.
Definition act (reg : list (Z * Z) -> Z -> Z) (x : action) (y : vsys) : option (list vevent * vsys) :=
  let '(Vsys s d calls) := y in
  match x with
  | ACall t b write now =>
      let sector := sector_of (vb_blockno (v_bufs s b)) in
      if decide (calls !! t = None /\ unused b calls)
      then piece t b write sector [EvCall t b write sector] d calls (virtio_disk_rw b write now s) else None
  | AWake t now =>
      match calls !! t with
      | Some (CallDesc b write sector n) => piece t b write sector [] d calls (rw_alloc b write sector n now s)
      | Some (CallWait b write sector idx st n) =>
          piece t b write sector (gave_up t n) d calls (rw_woken b idx st n now s)
      | None => None
      end
  | AIntr => match virtio_disk_intr reg s with Ret _ s' => Some ([], Vsys s' d calls) | _ => None end
  | ATake => d' ← dev_take s d; Some ([], Vsys s d' calls)
  | APerform k => '(s', d') ← dev_perform k s d; Some ([], Vsys s' d' calls)
  | AOwner b blockno data =>
      if decide (unused b calls)
      then Some ([EvOwner b blockno data], Vsys (set_buf b (Vbuf blockno (vb_disk (v_bufs s b)) data) s) d calls) else None
  end.
Fixpoint acts (reg : list (Z * Z) -> Z -> Z) (xs : list action) (y : vsys) : option (list vevent * vsys) :=
  match xs with
  | [] => Some ([], y)
  | x :: xs => '(l, y') ← act reg x y; '(l', y'') ← acts reg xs y'; Some (l ++ l', y'')
  end.

Lemma act_step reg x y l y' : act reg x y = Some (l, y') -> vstep reg y l y'.
Proof.
  destruct y as [s d calls]. unfold act, piece. intros H. destruct x as [t b w now|t now| | |k|b bn data].
  - destruct (decide _) as [[Ht Hb]|]; [|done]. destruct (virtio_disk_rw b w now s) eqn:Hr; simplify_eq/=. by econstructor.
  - destruct (calls !! t) as [[b w se n|b w se idx st n]|] eqn:Ht; [| |done].
    + destruct (rw_alloc _ _ _ _ _ _) eqn:Hr; simplify_eq/=. by econstructor.
    + destruct (rw_woken _ _ _ _ _ _) eqn:Hr; simplify_eq/=. by econstructor.
  - destruct (virtio_disk_intr reg s) as [[]| | |] eqn:Hr; simplify_eq/=. by constructor.
  - destruct (dev_take s d) eqn:Hr; simplify_eq/=. by constructor.
  - destruct (dev_perform k s d) as [[? ?]|] eqn:Hr; simplify_eq/=. by econstructor.
  - destruct (decide _); simplify_eq/=. by constructor.
Qed.
Lemma acts_runs reg xs y0 tr0 y tr y' : vruns reg y0 tr0 y -> acts reg xs y = Some (tr, y') -> vruns reg y0 (tr0 ++ tr) y'.
Proof.
  revert tr0 y tr. induction xs as [|x xs IH]; intros tr0 y tr Hr H; simpl in H.
  - simplify_eq. by rewrite app_nil_r.
  - destruct (act reg x y) as [[l y1]|] eqn:Hx; [|done]. simpl in H. destruct (acts reg xs y1) as [[l' y2]|] eqn:Hxs; [|done]. simpl in H. simplify_eq.
    rewrite app_assoc. eapply IH; [|done]. econstructor; [done|by apply act_step in Hx].
Qed.

Module VirtioDemo.
(** A device of QEMU: the status register reads what was written last. *)
Definition reg (w : list (Z * Z)) (off : Z) : Z :=
  if off =? VIRTIO_MMIO_MAGIC_VALUE then 0x74726976 else if off =? VIRTIO_MMIO_VERSION then 2
  else if off =? VIRTIO_MMIO_DEVICE_ID then 2 else if off =? VIRTIO_MMIO_VENDOR_ID then 0x554d4551
  else if off =? VIRTIO_MMIO_DEVICE_FEATURES then 0x31006ed4 else if off =? VIRTIO_MMIO_QUEUE_NUM_MAX then 1024
  else if off =? VIRTIO_MMIO_STATUS then match List.find (fun e => e.1 =? off) w with Some e => e.2 | None => 0 end
  else 0.
Definition start (sectors : Z -> list Z) : vsys :=
  match virtio_disk_init reg 0x87000000 0x87001000 0x87002000 boot_vst with
  | Ret _ s => Vsys s (Device 0 [] sectors) ∅
  | _ => Vsys boot_vst (Device 0 [] sectors) ∅
  end.
Lemma start_booted sectors : booted reg 0x87000000 0x87001000 0x87002000 (start sectors).
Proof.
  unfold start, booted.
  assert (match virtio_disk_init reg 0x87000000 0x87001000 0x87002000 boot_vst with Ret _ _ => true | _ => false end = true) as H by by vm_compute.
  destruct (virtio_disk_init _ _ _ _ _) as [[] s| | |]; [by exists s, sectors|done..].
Qed.

(** Process 3 reads block 5 while process 4 writes block 9; the device
    performs the second request first. *)
Definition schedule : list action :=
  [AOwner 0 5 (replicate 1024 0); AOwner 1 9 (replicate 1024 7); ACall 3 0 false 10; ACall 4 1 true 11; ATake; ATake; APerform 1;
   AIntr; AWake 4 12; AWake 3 13; APerform 0; AIntr; AWake 3 14].
Definition disk (x : Z) : list Z := replicate 512 (u8 x).
Definition observed : list vevent :=
  [EvOwner 0 5 (replicate 1024 0); EvOwner 1 9 (replicate 1024 7); EvCall 3 0 false 10; EvCall 4 1 true 18;
   EvReturn 4 true (replicate 1024 7); EvReturn 3 true (replicate 512 10 ++ replicate 512 11)].
Lemma run : exists y, vruns reg (start disk) observed y.
Proof.
  assert (fst <$> acts reg schedule (start disk) = Some observed) as E by (vm_compute; reflexivity).
  destruct (acts reg schedule (start disk)) as [[tr y]|] eqn:H; [|done]. injection E as <-.
  exists y. change tr with ([] ++ tr). eapply acts_runs; [constructor|exact H].
Qed.
End VirtioDemo.

Lemma virtio_refines_disk_witness :
  exists y, vruns VirtioDemo.reg (VirtioDemo.start VirtioDemo.disk) VirtioDemo.observed y
    /\ exists a, aruns (abs_boot (VirtioDemo.start VirtioDemo.disk)) VirtioDemo.observed a
         /\ (forall x, a_sectors a x = dv_sectors (y_dev y) x)
         /\ (forall b, a_data a b = vb_data (v_bufs (y_v y) b)) /\ dom (a_calls a) = dom (y_calls y).
Proof.
  destruct VirtioDemo.run as [y Hy]. exists y. split; [exact Hy|].
  destruct (virtio_refines_disk _ _ _ _ _ _ _ (VirtioDemo.start_booted _) Hy)
    as (tr1 & tr2 & a & E & Ha & [(-> & H)|(t & l & -> & _)]).
  - rewrite app_nil_r in E. subst tr1. exists a. split; [exact Ha|exact H].
  - exfalso. assert (EvGiveUp t ∈ VirtioDemo.observed) as Hin by (rewrite E; set_solver). unfold VirtioDemo.observed in Hin. set_solver.
Defined.
Lemma virtio_routines_return_witness :
  exists y, vruns VirtioDemo.reg (VirtioDemo.start VirtioDemo.disk) VirtioDemo.observed y
    /\ exists s', virtio_disk_intr VirtioDemo.reg (y_v y) = Ret tt s'.
Proof.
  destruct VirtioDemo.run as [y Hy]. exists y. split; [exact Hy|].
  apply (virtio_routines_return _ _ _ _ _ _ _ (VirtioDemo.start_booted _) Hy). intros t. unfold VirtioDemo.observed. set_solver.
Defined.

(** Two of the eight descriptors left. *)
Definition two_left : vst :=
  set_free 7 true (set_free 6 true boot_vst).
Lemma descriptor_wait_gives_up_witness :
  6 <= get_queue_depth two_left < 8
  /\ exists s', retries 1001 0 false 10 0 1 two_left = Ret (RwReturn false) s' /\ quiet two_left s'.
Proof. split; [by vm_compute|]. apply (descriptor_wait_gives_up two_left 0 false 10 1). by vm_compute. Defined.

(** ** Late completions *)

Fixpoint wake_many (k : nat) (b : nat) (idx : idx3) (st n now : Z) : M vst rw_next :=
  match k with
  | O => mreturn (RwWait idx st n)
  | S k' =>
      let* r := rw_woken b idx st n now in
      match r with
      | RwWait idx' st' n' => wake_many k' b idx' st' n' now
      | _ => mreturn r
      end
  end.
Definition ran {A} (o : outcome vst A) : option (A * vst) := match o with Ret a s => Some (a, s) | _ => None end.

(** A read of buffer 0 (block 0) that the device takes and holds; its caller is
    woken 10001 times in vain and gives up.  Then a read of buffer 1 (block 7)
    is submitted, the device reports the first request, the interrupt runs, and
    the second caller wakes up.  The result: what the two calls returned,
    whether the device has taken the second request, and both buffers. *)
Definition late_run (reg : list (Z * Z) -> Z -> Z) (y : vsys) : option (rw_next * rw_next * bool * list Z * list Z) :=
  let s := set_buf 1 (Vbuf 7 0 (replicate 1024 0)) (y_v y) in
  '(_, s) ← ran (virtio_disk_rw 0 false 1 s);
  d ← dev_take s (y_dev y);
  '(r0, s) ← ran (wake_many (Z.to_nat 10001) 0 (0, 1, 2)%nat 1 0 2 s);
  '(_, s) ← ran (virtio_disk_rw 1 false 3 s);
  '(s, d) ← dev_perform 0 s d;
  '(_, s) ← ran (virtio_disk_intr reg s);
  '(r1, s) ← ran (rw_woken 1 (0, 1, 2)%nat 3 0 4 s);
  Some (r0, r1, negb (dv_seen d =? q_avail_idx (v_q s)), vb_data (v_bufs s 0), vb_data (v_bufs s 1)).

(** a request given up is not cancelled.  [virtio_disk_rw] frees the
    descriptors of a request the device still holds, and the next request gets
    the same ones.  When the device then reports the old request, its data goes
    to a buffer whose call has returned, and the new call returns as complete
    while the device has not looked at it: its buffer still holds the bytes it
    had before, whatever is on the disk. *)
Theorem late_completion sectors :
  late_run VirtioDemo.reg (VirtioDemo.start sectors)
  = Some (RwReturn false, RwReturn true, true, read_sectors sectors 0 BSIZE, replicate 1024 0).
Proof. vm_compute. reflexivity. Qed.
