(* ===== verification/Ulib.v ===== *)
(** The C library of the user programs (src/ulib.c), on the byte memory of one
    process.

    A loop that ends at a nul byte has a fuel argument and returns [None] when
    it is used up; [cstr m a l] says that the string at [a] is [l], and the
    theorems give the fuel a string needs.  [gets] reads from a list, the bytes
    that standard input still delivers.  [stat], [sbrk] and [start] only make
    system calls. *)

From S2P Require Import Prelude.
From S2P Require Import KString.

(** ** Operations *)

(** [while(( *s++ = *t++) != 0)]; the result is the memory, [strcpy] returns
    its first argument. *)
Fixpoint ustrcpy (fuel : nat) (m : mem) (s t : Z) : option mem :=
  match fuel with
  | O => None
  | S fuel' => let m' := store8 m s (m t) in
               if m t =? 0 then Some m' else ustrcpy fuel' m' (s + 1) (t + 1)
  end.

Fixpoint ustrcmp (fuel : nat) (m : mem) (p q : Z) : option Z :=
  match fuel with
  | O => None
  | S fuel' => if truth (m p) && (m p =? m q) then ustrcmp fuel' m (p + 1) (q + 1) else Some (m p - m q)
  end.

(** [n] is an [int]. *)
Fixpoint ustrlen_loop (fuel : nat) (m : mem) (s n : Z) : option Z :=
  match fuel with
  | O => None
  | S fuel' => if m (s + n) =? 0 then Some (u32 n) else ustrlen_loop fuel' m s (i32 (n + 1))
  end.
Definition ustrlen (fuel : nat) (m : mem) (s : Z) : option Z := ustrlen_loop fuel m s 0.

(** The index is an [int] compared with a [uint]. *)
Definition umemset (m : mem) (dst c n : Z) : mem := memset_loop (Z.to_nat n) m dst c 0.

Fixpoint ustrchr (fuel : nat) (m : mem) (s c : Z) : option Z :=
  match fuel with
  | O => None
  | S fuel' => if m s =? 0 then Some 0 else if m s =? c then Some s else ustrchr fuel' m (s + 1) c
  end.

Fixpoint gets_loop (input : list Z) (m : mem) (buf max i : Z) : mem * Z * list Z :=
  if i + 1 <? max then
    match input with
    | [] => (m, i, [])
    | c :: input' =>
        let m := store8 m (buf + i) c in
        if (c =? 10) || (c =? 13) then (m, i + 1, input') else gets_loop input' m buf max (i + 1)
    end
  else (m, i, input).
Definition ugets (input : list Z) (m : mem) (buf max : Z) : mem * list Z :=
  let '(m, i, input) := gets_loop input m buf max 0 in
  (store8 m (buf + i) 0, input).

Fixpoint atoi_loop (fuel : nat) (m : mem) (s n : Z) : option Z :=
  match fuel with
  | O => None
  | S fuel' => if (48 <=? m s) && (m s <=? 57) then atoi_loop fuel' m (s + 1) (i32 (n * 10 + m s - 48)) else Some n
  end.
Definition uatoi (fuel : nat) (m : mem) (s : Z) : option Z := atoi_loop fuel m s 0.

Definition umemmove (m : mem) (vdst vsrc n : Z) : mem :=
  if vsrc >? vdst then copy_forward (Z.to_nat n) m vdst vsrc
  else copy_backward (Z.to_nat n) m (vdst + n) (vsrc + n).
Definition umemcmp (m : mem) (s1 s2 n : Z) : Z := memcmp_loop (Z.to_nat n) m s1 s2.
Definition umemcpy (m : mem) (dst src n : Z) : mem := umemmove m dst src n.

(** ** Strings in memory *)

Fixpoint cstr (m : mem) (a : Z) (l : list Z) : Prop :=
  match l with
  | [] => m a = 0
  | c :: l' => m a = c /\ c <> 0 /\ cstr m (a + 1) l'
  end.
(** The [n] bytes at [a]. *)
Definition mbytes (m : mem) (a n : Z) : list Z := (fun i => m (a + Z.of_nat i)) <$> seq 0 (Z.to_nat n).

Lemma cstr_nonzero m a l : cstr m a l -> Forall (fun c => c <> 0) l.
Proof. revert a. induction l as [|c l IH]; intros a; simpl; [done|]. intros (_ & ? & ?). constructor; eauto. Qed.
Lemma cstr_nul m a l : cstr m a l -> m (a + Z.of_nat (length l)) = 0.
Proof.
  revert a. induction l as [|c l IH]; intros a; simpl; [by rewrite Z.add_0_r|]. intros (_ & _ & H).
  apply IH in H. by replace (a + Z.of_nat (S (length l))) with (a + 1 + Z.of_nat (length l)) by lia.
Qed.
Lemma cstr_lookup m a l i c : cstr m a l -> l !! i = Some c -> m (a + Z.of_nat i) = c.
Proof.
  revert a i. induction l as [|x l IH]; intros a [|i] H Hi; simpl in *; try done.
  - rewrite Z.add_0_r. destruct H as (-> & _). by simplify_eq.
  - destruct H as (_ & _ & H). rewrite <- (IH _ _ H Hi). f_equal. lia.
Qed.
(** The string at an address is unique, and depends on its own bytes only. *)
Lemma cstr_inj m a l l' : cstr m a l -> cstr m a l' -> l = l'.
Proof.
  revert a l'. induction l as [|c l IH]; intros a [|c' l'] H H'; simpl in *; try done.
  - destruct H' as (<- & ? & _). done.
  - destruct H as (<- & ? & _). done.
  - destruct H as (<- & _ & H), H' as (<- & _ & H'). f_equal. eauto.
Qed.
Lemma cstr_ext m m' a l :
  cstr m a l -> (forall i, 0 <= i <= Z.of_nat (length l) -> m' (a + i) = m (a + i)) -> cstr m' a l.
Proof.
  revert a. induction l as [|c l IH]; intros a H E; simpl in *.
  - rewrite <- H. specialize (E 0 ltac:(lia)). by rewrite !Z.add_0_r in E.
  - destruct H as (H1 & H2 & H3). split; [|split; [done|]].
    + rewrite <- H1. specialize (E 0 ltac:(lia)). by rewrite !Z.add_0_r in E.
    + apply IH; [done|]. intros i Hi. rewrite <- !Z.add_assoc. apply E. lia.
Qed.
Lemma cstr_app m a l1 l2 :
  cstr m a (l1 ++ l2) <-> mbytes m a (Z.of_nat (length l1)) = l1 /\ Forall (fun c => c <> 0) l1 /\ cstr m (a + Z.of_nat (length l1)) l2.
Proof.
  revert a. induction l1 as [|c l1 IH]; intros a; simpl.
  - rewrite Z.add_0_r. split; [by intros; split_and!|by intros (_ & _ & ?)].
  - rewrite IH. unfold mbytes. rewrite !Nat2Z.id. rewrite <- (Nat2Z.id (S (length l1))), Nat2Z.id. cbn [seq fmap list_fmap].
    rewrite <- fmap_S_seq, <- list_fmap_compose, Forall_cons. simpl. rewrite Z.add_0_r.
    replace (a + Z.of_nat (S (length l1))) with (a + 1 + Z.of_nat (length l1)) by lia.
    assert (((fun i => m (a + Z.of_nat i)) ∘ S) <$> seq 0 (length l1) = (fun i => m (a + 1 + Z.of_nat i)) <$> seq 0 (length l1)) as ->.
    { apply list_fmap_ext. intros i x _. simpl. f_equal. lia. }
    split; [intros (-> & ? & -> & ? & ?); by split_and!|]. intros ([= H1 H2] & [? ?] & ?). rewrite H1. by split_and!.
Qed.

(** ** What the routines compute *)

Lemma ustrlen_spec fuel m s l :
  cstr m s l -> (length l < fuel)%nat -> Z.of_nat (length l) < 2 ^ 31 -> ustrlen fuel m s = Some (Z.of_nat (length l)).
Proof.
  intros H Hf Hn. unfold ustrlen.
  assert (forall k n, cstr m (s + n) k -> 0 <= n -> n + Z.of_nat (length k) < 2 ^ 31 -> (length k < fuel)%nat ->
    ustrlen_loop fuel m s n = Some (n + Z.of_nat (length k))) as G.
  { clear. induction fuel as [|fuel IH]; intros k n Hk Hn Hb Hf; [lia|]. simpl. destruct k as [|c k]; simpl in *.
    - rewrite Hk. simpl. rewrite u32_small, Z.add_0_r by lia. done.
    - destruct Hk as (H1 & H2 & H3). rewrite H1, (proj2 (Z.eqb_neq _ _) H2), i32_small by lia.
      rewrite (IH k (n + 1)); [f_equal; lia|by rewrite Z.add_assoc|lia..]. }
  rewrite (G l 0); [done|by rewrite Z.add_0_r|lia..].
Qed.

Lemma ustrchr_none fuel m s l c : cstr m s l -> (length l < fuel)%nat -> c ∉ l -> ustrchr fuel m s c = Some 0.
Proof.
  revert s l. induction fuel as [|fuel IH]; intros s l H Hf Hc; [lia|]. simpl. destruct l as [|x l]; simpl in *.
  - by rewrite H.
  - apply not_elem_of_cons in Hc as [Hc1 Hc2]. destruct H as (H1 & H2 & H3). rewrite H1, (proj2 (Z.eqb_neq _ _) H2), (proj2 (Z.eqb_neq x c)) by done.
    eapply IH; [done|lia|done].
Qed.
Lemma ustrchr_some fuel m s l1 c l2 :
  cstr m s (l1 ++ c :: l2) -> (length l1 < fuel)%nat -> c ∉ l1 -> ustrchr fuel m s c = Some (s + Z.of_nat (length l1)).
Proof.
  revert s l1. induction fuel as [|fuel IH]; intros s l1 H Hf Hc; [lia|]. simpl. destruct l1 as [|x l1]; simpl in *.
  - destruct H as (H1 & H2 & _). rewrite H1, (proj2 (Z.eqb_neq _ _) H2), Z.eqb_refl. f_equal. lia.
  - apply not_elem_of_cons in Hc as [Hc1 Hc2]. destruct H as (H1 & H2 & H3). rewrite H1, (proj2 (Z.eqb_neq _ _) H2), (proj2 (Z.eqb_neq x c)) by done.
    rewrite (IH _ l1); [f_equal; lia|done|lia|done].
Qed.

Lemma ustrcmp_spec fuel m p q lp lq :
  cstr m p lp -> cstr m q lq -> (length lp < fuel)%nat ->
  exists r, ustrcmp fuel m p q = Some r /\ (r = 0 <-> lp = lq).
Proof.
  revert p q lp lq. induction fuel as [|fuel IH]; intros p q lp lq Hp Hq Hf; [lia|]. simpl. unfold truth.
  destruct lp as [|c lp]; simpl in *.
  - rewrite Hp. simpl. eexists. split; [done|]. destruct lq as [|d lq]; simpl in Hq; [split; [done|lia]|].
    split; [lia|done].
  - destruct Hp as (H1 & H2 & H3). rewrite H1, (proj2 (Z.eqb_neq c 0)) by done. simpl.
    destruct lq as [|d lq]; simpl in Hq.
    + rewrite Hq, (proj2 (Z.eqb_neq c 0)) by done. eexists. split; [done|]. split; [lia|done].
    + destruct Hq as (Q1 & Q2 & Q3). rewrite Q1. destruct (Z.eqb_spec c d) as [<-|Hne].
      * destruct (IH (p + 1) (q + 1) lp lq H3 Q3) as (r & R & E); [lia|]. exists r. split; [done|]. rewrite E. split; congruence.
      * eexists. split; [done|]. split; [lia|congruence].
Qed.

Lemma ustrcpy_spec fuel m s t l :
  cstr m t l -> Forall (fun c => 0 <= c < 256) l -> (length l < fuel)%nat ->
  s + Z.of_nat (length l) < t \/ t + Z.of_nat (length l) < s ->
  exists m', ustrcpy fuel m s t = Some m' /\ cstr m' s l
    /\ forall a, a < s \/ s + Z.of_nat (length l) < a -> m' a = m a.
Proof.
  revert m s t l. induction fuel as [|fuel IH]; intros m s t l H Hb Hf Hd; [lia|]. cbn [ustrcpy].
  destruct l as [|c l]; simpl in *.
  - rewrite H. eexists. split; [done|]. unfold store8. split; [by rewrite Z.eqb_refl|]. intros a Ha. bcase; [lia|done].
  - destruct H as (H1 & H2 & H3). apply Forall_cons in Hb as [Hc Hb]. rewrite H1, (proj2 (Z.eqb_neq _ _) H2). set (m1 := store8 m s c).
    assert (forall a, a <> s -> m1 a = m a) as E1 by (intros a Ha; unfold m1, store8; by bcase).
    assert (cstr m1 (t + 1) l) as H3' by (eapply cstr_ext; [exact H3|]; intros i Hi; apply E1; lia).
    destruct (IH m1 (s + 1) (t + 1) l H3' Hb) as (m' & R & C & E); [lia..|].
    exists m'. split; [done|]. split; [|intros a Ha; rewrite E by lia; apply E1; lia].
    split; [|by split]. rewrite E by lia. unfold m1, store8. rewrite Z.eqb_refl. by apply u8_small.
Qed.

Lemma umemmove_spec m dst src n a :
  byte_mem m -> 0 <= n -> umemmove m dst src n a = if (dst <=? a) && (a <? dst + n) then m (src + (a - dst)) else m a.
Proof.
  intros Hm Hn. unfold umemmove. destruct (Z.gtb_spec src dst).
  - rewrite copy_forward_spec by (done || lia). by rewrite Z2Nat.id.
  - rewrite copy_backward_spec by (done || lia). rewrite Z2Nat.id by done. replace (dst + n - n) with dst by lia.
    repeat bcase; simpl; try done. f_equal. lia.
Qed.

(** [gets] takes the input up to and including a line end, at most [max - 1]
    bytes, and leaves a terminated string. *)
Lemma gets_loop_spec input m buf max i m' i' input' :
  gets_loop input m buf max i = (m', i', input') -> Forall (fun c => 0 < c < 256) input -> 0 <= i ->
  exists l, input = l ++ input' /\ i' = i + Z.of_nat (length l) /\ (i' < max \/ l = [])
    /\ (forall k, (k < length l)%nat -> m' (buf + i + Z.of_nat k) = nth k l 0)
    /\ (forall a, a < buf + i \/ buf + i' <= a -> m' a = m a)
    /\ (forall k, (S k < length l)%nat -> nth k l 0 <> 10 /\ nth k l 0 <> 13)
    /\ (input' = [] \/ max <= i' + 1 \/ exists c, last l = Some c /\ (c = 10 \/ c = 13)).
Proof.
  revert m i. induction input as [|c input IH]; intros m i H Hb Hi; cbn [gets_loop] in H.
  - assert ((m', i', input') = (m, i, [])) as E by (destruct (i + 1 <? max); congruence). injection E as -> -> ->.
    exists []. simpl. split_and!; try done; [lia|by right|intros; lia|intros; lia|by left].
  - destruct (Z.ltb_spec (i + 1) max) as [Hlt|Hge].
    2:{ injection H as <- <- <-. exists []. simpl. split_and!; try done; [lia|by right|intros; lia|intros; lia|right; left; lia]. }
    apply Forall_cons in Hb as [Hc Hb]. destruct ((c =? 10) || (c =? 13)) eqn:He.
    + injection H as <- <- <-. exists [c]. simpl. split_and!; try done; [left; lia|..].
      * intros k Hk. replace k with 0%nat by lia. simpl. unfold store8. bcase; [apply u8_small; lia|lia].
      * intros a Ha. unfold store8. bcase; [lia|done].
      * intros; lia.
      * right. right. exists c. split; [done|]. apply orb_true_iff in He. rewrite !Z.eqb_eq in He. done.
    + destruct (IH (store8 m (buf + i) c) (i + 1) H Hb ltac:(lia)) as (l & -> & -> & Hm & Hl & Ho & Hn & Hend).
      exists (c :: l). simpl. split_and!; [done|lia|left; destruct Hm as [?| ->]; simpl; lia|..].
      * intros [|k] Hk; simpl.
        -- rewrite Ho by lia. unfold store8. bcase; [apply u8_small; lia|lia].
        -- rewrite <- Hl by lia. f_equal. lia.
      * intros a Ha. rewrite Ho by lia. unfold store8. bcase; [lia|done].
      * intros [|k] Hk; simpl; [|apply Hn; lia]. apply orb_false_iff in He. rewrite !Z.eqb_neq in He. done.
      * destruct Hend as [?|[?|(x & Hx & ?)]]; [by left|right; left; lia|]. right. right. exists x. split; [|done].
        destruct l; [done|]. done.
Qed.
