(* ===== verification/Grep.v ===== *)
(** grep (src/grep.c): the matcher of regular expressions on strings in memory
    and the filter over the lines of a file.

    [matchhere] and [matchstar] call each other; the fuel counts calls and
    iterations together.  [read(fd, a, n)] takes its bytes from a list of
    deliveries: what one read finds available, the rest of which stays for the
    next one; [None] is a failing read and the end of the list the end of the
    file.  [write(1, p, n)] adds the bytes to the output. *)

From S2P Require Import Prelude.
From S2P Require Import KString.
From S2P Require Import Ulib.

(** ** The matcher *)

Definition STAR : Z := 42.
Definition DOLLAR : Z := 36.
Definition DOT : Z := 46.
Definition CARET : Z := 94.
Definition NEWLINE : Z := 10.

Section Match.
Context (m : mem).

(** [matchstar] is the [inl] case, with its character. *)
Fixpoint match_re (fuel : nat) (star : option Z) (re text : Z) : option bool :=
  match fuel with
  | O => None
  | S fuel' =>
      match star with
      | None =>
          if m re =? 0 then Some true else
          if m (re + 1) =? STAR then match_re fuel' (Some (m re)) (re + 2) text else
          if (m re =? DOLLAR) && (m (re + 1) =? 0) then Some (m text =? 0) else
          if negb (m text =? 0) && ((m re =? DOT) || (m re =? m text)) then match_re fuel' None (re + 1) (text + 1) else
          Some false
      | Some c =>
          r ← match_re fuel' None re text;
          if (r : bool) then Some true else
          if negb (m text =? 0) && ((m text =? c) || (c =? DOT)) then match_re fuel' (Some c) re (text + 1) else
          Some false
      end
  end.
Definition matchhere (fuel : nat) (re text : Z) : option bool := match_re fuel None re text.
Definition matchstar (fuel : nat) (c re text : Z) : option bool := match_re fuel (Some c) re text.

Fixpoint match_loop (rounds fuel : nat) (re text : Z) : option bool :=
  match rounds with
  | O => None
  | S rounds' =>
      r ← matchhere fuel re text;
      if (r : bool) then Some true else
      if m text =? 0 then Some false else match_loop rounds' fuel re (text + 1)
  end.
Definition grep_match (fuel : nat) (re text : Z) : option bool :=
  if m re =? CARET then matchhere fuel (re + 1) text else match_loop fuel fuel re text.
End Match.

(** ** The filter *)

Definition BUFSZ : Z := 1024.

(** [read(fd, a, n)]: what it returns, and what is left. *)
Definition delivery : Type := option (list Z).
Definition uread (n : Z) (src : list delivery) : option (list Z) * list delivery :=
  match src with
  | [] => (Some [], [])
  | None :: src' => (None, src')
  | Some c :: src' =>
      if Z.of_nat (length c) <=? n then (Some c, src') else (Some (take (Z.to_nat n) c), Some (drop (Z.to_nat n) c) :: src')
  end.
Fixpoint store_bytes (m : mem) (a : Z) (l : list Z) : mem :=
  match l with
  | [] => m
  | c :: l' => store_bytes (store8 m a c) (a + 1) l'
  end.

(** The loop over the complete lines in [buf] from [p]; the result has the
    memory, the final [p] and the lines written. *)
Fixpoint grep_lines (fuel : nat) (m : mem) (pattern p : Z) : option (mem * Z * list (list Z)) :=
  match fuel with
  | O => None
  | S fuel' =>
      q ← ustrchr fuel' m p NEWLINE;
      if q =? 0 then Some (m, p, []) else
      let m := store8 m q 0 in
      r ← grep_match m fuel' pattern p;
      if (r : bool) then
        let m := store8 m q NEWLINE in
        '(m', p', out) ← grep_lines fuel' m pattern (q + 1);
        Some (m', p', mbytes m p (q + 1 - p) :: out)
      else grep_lines fuel' m pattern (q + 1)
  end.

(** The loop of [grep] with [n0] bytes pending in [buf]; the last component is
    whether a read failed. *)
Fixpoint grep_loop (rounds fuel : nat) (m : mem) (pattern buf n0 : Z) (src : list delivery) : option (list (list Z) * bool) :=
  match rounds with
  | O => None
  | S rounds' =>
      match uread (BUFSZ - n0 - 1) src with
      | (None, _) => Some ([], true)
      | (Some [], _) => Some ([], false)
      | (Some c, src') =>
          let m := store_bytes m (buf + n0) c in
          let n1 := n0 + Z.of_nat (length c) in
          let m := store8 m (buf + n1) 0 in
          '(m, p, out) ← grep_lines fuel m pattern buf;
          let n1 := if p =? buf then 0 else n1 in
          let n2 := if n1 >? 0 then n1 - (p - buf) else n1 in
          let m := if n1 >? 0 then umemmove m buf p n2 else m in
          '(out', err) ← grep_loop rounds' fuel m pattern buf n2 src';
          Some (out ++ out', err)
      end
  end.
Definition grep (rounds fuel : nat) (m : mem) (pattern buf : Z) (src : list delivery) : option (list (list Z) * bool) :=
  grep_loop rounds fuel m pattern buf 0 src.
