(* ===== verification/GrepProof.v ===== *)
(** grep: the matcher decides a language of regular expressions, and the filter
    writes exactly the lines that contain a match. *)

From S2P Require Import Prelude.
From S2P Require Import KString.
From S2P Require Import Ulib.
From S2P Require Import Grep.

(** ** The language of a pattern

    A pattern is a sequence of items: a character ([.] stands for any), a
    character repeated, and at the very end a [$] for the end of the text.
    Everywhere else [$], and a [*] that follows nothing, are plain characters,
    as in the code. *)

Inductive item := IOne (c : Z) | IStar (c : Z) | IEnd.
Fixpoint parse (re : list Z) : list item :=
  match re with
  | [] => []
  | c :: re1 =>
      match re1 with
      | [] => if c =? DOLLAR then [IEnd] else [IOne c]
      | d :: re2 => if d =? STAR then IStar c :: parse re2 else IOne c :: parse re1
      end
  end.

Definition accepts (c x : Z) : Prop := c = DOT \/ c = x.

(** [lang is w rest]: [w], followed by [rest], is in the language of [is]. *)
Inductive lang : list item -> list Z -> list Z -> Prop :=
| lang_nil rest : lang [] [] rest
| lang_one c x its w rest : accepts c x -> lang its w rest -> lang (IOne c :: its) (x :: w) rest
| lang_star c u its w rest : Forall (accepts c) u -> lang its w rest -> lang (IStar c :: its) (u ++ w) rest
| lang_end : lang [IEnd] [] [].

(** A match at the start of the text; [^] anchors the search there. *)
Definition starts (its : list item) (t : list Z) : Prop := exists w rest, t = w ++ rest /\ lang its w rest.
Definition matches (re t : list Z) : Prop :=
  match re with
  | c :: re' => if c =? CARET then starts (parse re') t else exists pre t', t = pre ++ t' /\ starts (parse re) t'
  | [] => True
  end.

Lemma starts_nil t : starts [] t.
Proof. exists [], t. split; [done|constructor]. Qed.
Lemma starts_end t : starts [IEnd] t <-> t = [].
Proof.
  split; [|intros ->; exists [], []; split; [done|constructor]]. intros (w & rest & -> & H). by inversion H.
Qed.
Lemma starts_one c its t : starts (IOne c :: its) t <-> exists x t', t = x :: t' /\ accepts c x /\ starts its t'.
Proof.
  split.
  - intros (w & rest & -> & H). inversion H; subst. eexists _, _. split; [done|]. split; [done|]. by eexists _, _.
  - intros (x & t' & -> & Hc & w & rest & -> & H). exists (x :: w), rest. split; [done|]. by constructor.
Qed.
Lemma starts_star c its t : starts (IStar c :: its) t <-> exists u t', t = u ++ t' /\ Forall (accepts c) u /\ starts its t'.
Proof.
  split.
  - intros (w & rest & -> & H). inversion H as [| |? u ? w' ? Hu Hw|]; subst. exists u, (w' ++ rest). rewrite app_assoc. split; [done|]. split; [done|]. by eexists _, _.
  - intros (u & t' & -> & Hu & w & rest & -> & H). exists (u ++ w), rest. rewrite app_assoc. split; [done|]. by constructor.
Qed.
(** One iteration of [matchstar]. *)
Lemma star_step c its t :
  (exists u t', t = u ++ t' /\ Forall (accepts c) u /\ starts its t') <->
  starts its t \/ exists x t1, t = x :: t1 /\ accepts c x /\ exists u t', t1 = u ++ t' /\ Forall (accepts c) u /\ starts its t'.
Proof.
  split.
  - intros ([|x u] & t' & -> & Hu & Hs); [by left|]. right. apply Forall_cons in Hu as [Hx Hu]. exists x, (u ++ t'). eauto 10.
  - intros [Hs|(x & t1 & -> & Hx & u & t' & -> & Hu & Hs)]; [by exists [], t|]. exists (x :: u), t'. split; [done|]. split; [|done]. by constructor.
Qed.

Lemma accepts_dec c x : (c =? DOT) || (c =? x) = true <-> accepts c x.
Proof. unfold accepts. rewrite orb_true_iff, !Z.eqb_eq. done. Qed.

(** [Some b] decides [P]. *)
Definition decides (o : option bool) (P : Prop) : Prop := exists b, o = Some b /\ (b = true <-> P).
Lemma decides_iff o P Q : decides o P -> (P <-> Q) -> decides o Q.
Proof. intros (b & -> & H) E. exists b. split; [done|]. by rewrite H. Qed.

Section Matcher.
Context (m : mem).

(** The part of the pattern and of the text a call sees. *)
Definition seen (star : option Z) (r t : list Z) : Prop :=
  match star with
  | None => starts (parse r) t
  | Some c => exists u t', t = u ++ t' /\ Forall (accepts c) u /\ starts (parse r) t'
  end.

Lemma match_re_spec fuel (star : option Z) re text r t :
  cstr m re r -> cstr m text t ->
  (2 * (length r + length t) + (if star is Some _ then 1 else 0) < fuel)%nat ->
  decides (match_re m fuel star re text) (seen star r t).
Proof.
  revert star re text r t. induction fuel as [|fuel IH]; intros star re text r t Hr Ht Hf; [lia|]. cbn [match_re].
  destruct star as [c|]; simpl seen.
  - destruct (IH None re text r t Hr Ht) as (b & Rb & Eb); [simpl in *; lia|]. rewrite Rb. cbn [mbind option_bind].
    simpl in Eb. destruct b.
    { exists true. split; [done|]. rewrite star_step, <- Eb. naive_solver. }
    assert (~ starts (parse r) t) as Hn by (intros H%Eb; done).
    destruct t as [|x t].
    + simpl in Ht. rewrite Ht. simpl. exists false. split; [done|]. rewrite star_step. split; [done|]. intros [H|(? & ? & ? & _)]; [by apply Hn in H|done].
    + simpl in Ht. destruct Ht as (T1 & T2 & T3). rewrite T1, (proj2 (Z.eqb_neq _ _) T2). simpl andb.
      destruct ((x =? c) || (c =? DOT)) eqn:Ha.
      * eapply decides_iff; [apply (IH (Some c) re (text + 1) r t Hr T3); simpl in *; lia|]. simpl. rewrite (star_step _ _ (x :: t)).
        rewrite orb_comm, (Z.eqb_sym x), accepts_dec in Ha. split; [naive_solver|]. intros [H|(? & ? & [= <- <-] & _ & H)]; [by apply Hn in H|done].
      * exists false. split; [done|]. rewrite star_step. split; [done|]. intros [H|(? & ? & [= <- <-] & H & _)]; [by apply Hn in H|].
        apply accepts_dec in H. rewrite orb_comm, (Z.eqb_sym x) in Ha. congruence.
  - destruct r as [|c r]; simpl in Hr.
    { rewrite Hr. simpl. exists true. split; [done|]. split; [|done]. intros _. apply starts_nil. }
    destruct Hr as (R1 & R2 & R3). rewrite R1, (proj2 (Z.eqb_neq _ _) R2).
    assert (forall d r2, r = d :: r2 -> m (re + 1) = d) as Hd by (intros d r2 ->; simpl in R3; tauto).
    assert (r = [] -> m (re + 1) = 0) as H0 by (intros ->; done).
    assert (forall b0 P, (b0 = true <-> P) -> decides (Some b0) P) as Hsome by (intros b0 P E; by exists b0).
    assert (m (re + 1) <> STAR -> parse (c :: r) <> [IEnd] -> (c =? DOLLAR) && (m (re + 1) =? 0) = false -> parse (c :: r) = IOne c :: parse r ->
      decides (if negb (m text =? 0) && ((c =? DOT) || (c =? m text)) then match_re m fuel None (re + 1) (text + 1) else Some false)
        (starts (parse (c :: r)) t)) as Hone.
    { intros _ _ _ ->. destruct t as [|x t]; simpl in Ht.
      - rewrite Ht. simpl. apply Hsome. rewrite starts_one. naive_solver.
      - destruct Ht as (T1 & T2 & T3). rewrite T1, (proj2 (Z.eqb_neq _ _) T2). simpl andb. destruct ((c =? DOT) || (c =? x)) eqn:Ha.
        + rewrite accepts_dec in Ha. eapply decides_iff; [apply (IH None (re + 1) (text + 1) r t R3 T3); simpl in *; lia|]. simpl. rewrite starts_one. naive_solver.
        + apply Hsome. rewrite starts_one. split; [done|]. intros (? & ? & [= <- <-] & H & _). apply accepts_dec in H. congruence. }
    destruct r as [|d r2].
    + rewrite H0 in * by done. change (0 =? STAR) with false. change (0 =? 0) with true. rewrite andb_true_r in *. cbv iota.
      destruct (Z.eqb_spec c DOLLAR) as [->|Hc].
      * apply Hsome. change (parse [DOLLAR]) with [IEnd]. rewrite starts_end, Z.eqb_eq. destruct t as [|x t]; simpl in Ht; [done|].
        split; [|done]. intros E. destruct Ht as (T1 & T2 & _). congruence.
      * assert (parse [c] = [IOne c]) as E by (simpl; by rewrite (proj2 (Z.eqb_neq _ _) Hc)). apply Hone; [done|by rewrite E|done|done].
    + simpl in R3. destruct R3 as (D1 & D2 & R4). rewrite D1 in *. destruct (Z.eqb_spec d STAR) as [->|Hs].
      * eapply decides_iff; [apply (IH (Some c) (re + 2) text r2 t); [by replace (re + 2) with (re + 1 + 1) by lia|done|simpl in *; lia]|].
        simpl seen. change (parse (c :: STAR :: r2)) with (IStar c :: parse r2). by rewrite starts_star.
      * assert (parse (c :: d :: r2) = IOne c :: parse (d :: r2)) as E by (cbn [parse]; by rewrite (proj2 (Z.eqb_neq _ _) Hs)).
        rewrite (proj2 (Z.eqb_neq _ _) D2), andb_false_r in *. apply Hone; [done|rewrite E; congruence|done|done].
Qed.

Lemma match_loop_spec rounds fuel re text r t :
  cstr m re r -> cstr m text t -> (length t < rounds)%nat -> (2 * (length r + length t) < fuel)%nat ->
  decides (match_loop m rounds fuel re text) (exists pre t', t = pre ++ t' /\ starts (parse r) t').
Proof.
  revert text t. induction rounds as [|rounds IH]; intros text t Hr Ht Hn Hf; [lia|]. cbn [match_loop].
  destruct (match_re_spec fuel None re text r t Hr Ht ltac:(simpl; lia)) as (b & Rb & Eb). unfold matchhere. rewrite Rb. cbn [mbind option_bind].
  simpl in Eb. destruct b; [exists true; split; [done|]; split; [|done]; intros _; exists [], t; split; [done|by apply Eb]|].
  assert (~ starts (parse r) t) as Hns by (intros H%Eb; done).
  destruct t as [|x t]; simpl in Ht.
  - rewrite Ht. simpl. exists false. split; [done|]. split; [done|]. intros (pre & t' & E & H). symmetry in E. by apply app_nil in E as [-> ->].
  - destruct Ht as (T1 & T2 & T3). rewrite T1, (proj2 (Z.eqb_neq _ _) T2).
    eapply decides_iff; [apply (IH (text + 1) t Hr T3); simpl in *; lia|]. split.
    + intros (pre & t' & -> & H). by exists (x :: pre), t'.
    + intros ([|y pre] & t' & E & H); simpl in E; [by subst|]. injection E as <- ->. eauto.
Qed.

(** C26: the matcher of grep terminates and is right.  For every pattern and
    every text, with fuel of twice their lengths, [match] returns, and it
    returns true exactly when the text has a part in the language of the
    pattern (at its start if the pattern begins with [^]). *)
Theorem grep_match_correct fuel re text r t :
  cstr m re r -> cstr m text t -> (2 * (length r + length t) < fuel)%nat ->
  decides (grep_match m fuel re text) (matches r t).
Proof.
  intros Hr Ht Hf. unfold grep_match. destruct r as [|c r].
  { pose proof Hr as R0. simpl in R0. rewrite R0. change (0 =? CARET) with false. cbv iota.
    eapply decides_iff; [apply (match_loop_spec fuel fuel re text [] t); simpl in *; done || lia|]. split; [done|]. intros _. exists [], t. split; [done|apply starts_nil]. }
  pose proof Hr as (R1 & R2 & R3). rewrite R1. unfold matches.
  destruct (c =? CARET).
  - apply (match_re_spec fuel None); [done..|simpl in *; lia].
  - apply match_loop_spec; [done..|simpl in *; lia|done].
Qed.
End Matcher.

(** ** Lines *)

(** The complete lines of a text, without their newlines, and the rest. *)
Fixpoint split_nl (l : list Z) : list (list Z) * list Z :=
  match l with
  | [] => ([], [])
  | c :: l' =>
      let '(ls, r) := split_nl l' in
      if c =? NEWLINE then ([] :: ls, r) else
      match ls with
      | [] => ([], c :: r)
      | x :: ls' => ((c :: x) :: ls', r)
      end
  end.
Definition joined (ls : list (list Z)) (r : list Z) : list Z := concat ((fun x => x ++ [NEWLINE]) <$> ls) ++ r.
Definition unbroken (x : list Z) : Prop := NEWLINE ∉ x.

Lemma joined_cons x ls r : joined (x :: ls) r = x ++ NEWLINE :: joined ls r.
Proof. unfold joined. simpl. by rewrite <- !app_assoc. Qed.
Lemma split_line x l ls r : unbroken x -> split_nl l = (ls, r) -> split_nl (x ++ NEWLINE :: l) = (x :: ls, r).
Proof.
  intros Hx H. induction x as [|c x IH]; simpl; [by rewrite H|].
  apply not_elem_of_cons in Hx as [Hc Hx]. rewrite IH by done. by rewrite (proj2 (Z.eqb_neq c NEWLINE)) by done.
Qed.
Lemma split_joined ls r : Forall unbroken ls -> unbroken r -> split_nl (joined ls r) = (ls, r).
Proof.
  intros Hls Hr. induction Hls as [|x ls Hx _ IH]; [|rewrite joined_cons; by apply split_line].
  unfold joined. simpl. induction r as [|c r IHr]; [done|]. simpl. apply not_elem_of_cons in Hr as [Hc Hr].
  rewrite IHr by done. by rewrite (proj2 (Z.eqb_neq c NEWLINE)) by done.
Qed.
Lemma split_inv l ls r : split_nl l = (ls, r) -> l = joined ls r /\ Forall unbroken ls /\ unbroken r.
Proof.
  revert ls r. induction l as [|c l IH]; intros ls r H; simpl in H; [simplify_eq; split_and!; [done|constructor|apply not_elem_of_nil]|].
  destruct (split_nl l) as [ls0 r0]. destruct (IH _ _ eq_refl) as (-> & Hls & Hr). destruct (Z.eqb_spec c NEWLINE) as [->|Hc].
  - simplify_eq. split_and!; [done|constructor; [apply not_elem_of_nil|done]|done].
  - destruct Hls as [|x ls0 Hx Hls]; simplify_eq.
    + split_and!; [done|constructor|by apply not_elem_of_cons].
    + split_and!; [done|constructor; [by apply not_elem_of_cons|done]|done].
Qed.
Lemma joined_app ls ls' r : joined (ls ++ ls') r = joined ls (joined ls' r).
Proof. unfold joined. by rewrite fmap_app, concat_app, app_assoc. Qed.
Lemma joined_rest ls r e : joined ls r ++ e = joined ls (r ++ e).
Proof. unfold joined. by rewrite app_assoc. Qed.

(** [out] is the lines of [ls] that match, each with its newline. *)
Inductive selected (re : list Z) : list (list Z) -> list (list Z) -> Prop :=
| sel_nil : selected re [] []
| sel_keep x ls out : matches re x -> selected re ls out -> selected re (x :: ls) ((x ++ [NEWLINE]) :: out)
| sel_skip x ls out : ~ matches re x -> selected re ls out -> selected re (x :: ls) out.

Lemma selected_app re ls1 ls2 o1 o2 : selected re ls1 o1 -> selected re ls2 o2 -> selected re (ls1 ++ ls2) (o1 ++ o2).
Proof. intros H1 H2. induction H1; simpl; [done| |]; by constructor. Qed.

(** ** The buffer *)

(** The pattern lies outside the buffer. *)
Definition apart (buf pattern : Z) (re : list Z) : Prop :=
  pattern + Z.of_nat (length re) < buf \/ buf + BUFSZ <= pattern.

Lemma grep_lines_spec fuel m pattern re buf p ls r :
  cstr m pattern re -> apart buf pattern re -> 0 < buf <= p -> p + Z.of_nat (length (joined ls r)) < buf + BUFSZ ->
  cstr m p (joined ls r) -> Forall unbroken ls -> unbroken r ->
  (2 * (length re + 1024) + length ls < fuel)%nat ->
  exists m' out, grep_lines fuel m pattern p = Some (m', p + Z.of_nat (length (joined ls [])), out) /\ selected re ls out
    /\ (forall a, a < p \/ p + Z.of_nat (length (joined ls [])) <= a -> m' a = m a) /\ (byte_mem m -> byte_mem m').
Proof.
  revert fuel m p. induction ls as [|x ls IH]; intros fuel m p Hp Ha Hb Hl Hc Hls Hr Hf;
    (destruct fuel as [|fuel]; [lia|]); cbn [grep_lines].
  - change (joined [] r) with r in *. rewrite (ustrchr_none _ _ _ r) by (done || unfold BUFSZ in *; lia). simpl.
    exists m, []. rewrite Z.add_0_r. split; [done|]. split; [constructor|done].
  - apply Forall_cons in Hls as [Hx Hls].
    rewrite joined_cons in *. rewrite length_app in *. cbn [length] in *. unfold BUFSZ in *.
    rewrite (ustrchr_some _ _ _ x NEWLINE (joined ls r)) by (done || lia). cbn [mbind option_bind].
    rewrite (proj2 (Z.eqb_neq _ _)) by lia. set (q := p + Z.of_nat (length x)).
    pose proof Hc as (C1 & C2 & C3)%cstr_app. fold q in C3. simpl in C3. destruct C3 as (C3 & _ & C4).
    set (m1 := store8 m q 0). assert (forall a, a <> q -> m1 a = m a) as M1 by (intros a Hq; unfold m1, store8; by bcase).
    assert (cstr m1 p x) as T1.
    { rewrite <- (app_nil_r x). apply cstr_app. split; [|split; [done|]].
      - rewrite <- C1 at 2. unfold mbytes. apply list_fmap_ext. intros i y [-> Hi]%lookup_seq. apply M1. lia.
      - simpl. fold q. unfold m1, store8. by rewrite Z.eqb_refl. }
    assert (cstr m1 pattern re) as P1 by (eapply cstr_ext; [exact Hp|]; intros i Hi; apply M1; unfold apart, BUFSZ in Ha; lia).
    destruct (grep_match_correct m1 fuel pattern p re x P1 T1) as (b & Rb & Eb); [lia|]. rewrite Rb. cbn [mbind option_bind].
    set (m2 := if b then store8 m1 q NEWLINE else m1).
    assert (forall a, a <> q -> m2 a = m a) as M2.
    { intros a Hq. unfold m2. destruct b; [|by apply M1]. unfold store8 at 1. bcase; [done|]. by apply M1. }
    destruct (IH fuel m2 (q + 1)) as (m' & out & R & Sel & F & Fb).
    + eapply cstr_ext; [exact Hp|]. intros i Hi. apply M2. unfold apart, BUFSZ in Ha. lia.
    + done.
    + lia.
    + unfold q. lia.
    + eapply cstr_ext; [exact C4|]. intros i Hi. apply M2. lia.
    + done.
    + done.
    + lia.
    + assert (forall a, a < p \/ p + Z.of_nat (length x + S (length (joined ls []))) <= a -> m' a = m a) as F'.
      { intros a Hq. rewrite F by (unfold q; lia). apply M2. unfold q. lia. }
      assert (q + 1 + Z.of_nat (length (joined ls [])) = p + Z.of_nat (length x + S (length (joined ls [])))) as Ep by (unfold q; lia).
      assert (byte_mem m -> byte_mem m') as Fb'.
      { intros Hm. apply Fb. unfold m2. destruct b; unfold m1; auto with kernel. }
      rewrite Ep in R. destruct b; fold m2; rewrite R; cbn [mbind option_bind].
      * eexists m', _. split; [done|]. split; [|done].
        assert (mbytes m2 p (q + 1 - p) = x ++ [NEWLINE]) as ->; [|constructor; [by apply Eb|done]].
        replace (q + 1 - p) with (Z.of_nat (length (x ++ [NEWLINE]))) by (rewrite length_app; simpl; unfold q; lia).
        assert (mbytes m p (Z.of_nat (length (x ++ [NEWLINE]))) = x ++ [NEWLINE]) as Em.
        { eapply (cstr_app m p (x ++ [NEWLINE]) (joined ls r)). by rewrite <- app_assoc. }
        rewrite <- Em at 2. unfold mbytes. apply list_fmap_ext. intros i y [-> Hi]%lookup_seq.
        rewrite Nat.add_0_l. destruct (decide (p + Z.of_nat i = q)) as [->|Hq]; [|by apply M2]. unfold m2, store8. by rewrite Z.eqb_refl, C3.
      * eexists m', _. split; [done|]. split; [|done]. constructor; [|done]. intros H%Eb. done.
Qed.

(** ** The loop over the reads *)

(** What the loop does to the text: the complete lines of the pending bytes
    and the bytes just read are examined, the rest is pending; but when there
    is no newline among them they are all dropped. *)
Fixpoint filter_loop (rounds : nat) (pending : list Z) (src : list delivery) : option (list (list Z) * bool) :=
  match rounds with
  | O => None
  | S rounds' =>
      match uread (BUFSZ - Z.of_nat (length pending) - 1) src with
      | (None, _) => Some ([], true)
      | (Some [], _) => Some ([], false)
      | (Some c, src') =>
          let '(ls, r) := split_nl (pending ++ c) in
          '(ls', err) ← filter_loop rounds' (match ls with [] => [] | _ => r end) src';
          Some (ls ++ ls', err)
      end
  end.

(** Deliveries hold bytes of text, no nul. *)
Definition text_src (src : list delivery) : Prop :=
  Forall (fun d => match d with Some c => Forall (fun x => 0 < x < 256) c | None => True end) src.

Lemma uread_some n src c src' :
  uread n src = (Some c, src') -> 0 <= n -> text_src src ->
  Z.of_nat (length c) <= n /\ Forall (fun x => 0 < x < 256) c /\ text_src src'.
Proof.
  unfold uread, text_src. intros H Hn Hs. destruct src as [|[d|] src]; simplify_eq/=; [split_and!; [lia|constructor..]|].
  apply Forall_cons in Hs as [Hd Hs]. destruct (Z.leb_spec (Z.of_nat (length d)) n); simplify_eq; [done|].
  split_and!; [rewrite length_take; lia|by apply Forall_take|constructor; [by apply Forall_drop|done]].
Qed.

Lemma store_bytes_spec m a l x :
  store_bytes m a l x = if (a <=? x) && (x <? a + Z.of_nat (length l)) then u8 (nth (Z.to_nat (x - a)) l 0) else m x.
Proof.
  revert m a. induction l as [|c l IH]; intros m a; cbn [store_bytes length]; [repeat bcase; simpl; done || lia|].
  rewrite IH. unfold store8. repeat bcase; simpl; try lia; try done.
  - subst. by rewrite Z.sub_diag.
  - by replace (Z.to_nat (x - a)) with (S (Z.to_nat (x - (a + 1)))) by lia.
Qed.
Lemma store_bytes_byte m a l : byte_mem m -> byte_mem (store_bytes m a l).
Proof. revert m a. induction l as [|c l IH]; intros m a H; simpl; [done|]. apply IH. auto with kernel. Qed.

(** Pending bytes, the bytes read behind them, and the nul. *)
Lemma refill m buf pending c :
  mbytes m buf (Z.of_nat (length pending)) = pending -> Forall (fun x => 0 < x < 256) pending -> Forall (fun x => 0 < x < 256) c ->
  cstr (store8 (store_bytes m (buf + Z.of_nat (length pending)) c) (buf + (Z.of_nat (length pending) + Z.of_nat (length c))) 0) buf (pending ++ c).
Proof.
  intros Hm Hp Hc. set (m' := store8 _ _ _).
  assert (forall l, Forall (fun x => 0 < x < 256) l -> Forall (fun x => x <> 0) l) as Hz.
  { intros l Hl. eapply Forall_impl; [exact Hl|]. simpl. lia. }
  apply cstr_app. split; [|split; [by apply Hz|]].
  - rewrite <- Hm at 2. unfold mbytes. apply list_fmap_ext. intros i x [-> Hi]%lookup_seq. unfold m', store8.
    rewrite store_bytes_spec. repeat bcase; simpl; try done; lia.
  - rewrite <- (app_nil_r c). apply cstr_app. split; [|split; [by apply Hz|]].
    + apply list_eq. intros i. unfold mbytes. rewrite list_lookup_fmap. destruct (decide (i < length c)%nat) as [Hi|Hi].
      * rewrite lookup_seq_lt by lia. simpl. unfold m', store8. rewrite store_bytes_spec. repeat bcase; simpl; try lia.
        replace (Z.to_nat (buf + Z.of_nat (length pending) + Z.of_nat i - (buf + Z.of_nat (length pending)))) with i by lia.
        destruct (lookup_lt_is_Some_2 c i Hi) as [x Hx]. rewrite Hx. f_equal. rewrite (nth_lookup_Some _ _ _ _ Hx).
        apply u8_small. rewrite Forall_forall in Hc. apply list_elem_of_lookup_2, Hc in Hx. lia.
      * rewrite lookup_seq_ge by lia. simpl. by rewrite lookup_ge_None_2 by lia.
    + simpl. unfold m', store8. rewrite Z.add_assoc. by rewrite Z.eqb_refl.
Qed.

Lemma mbytes_length m a n : length (mbytes m a n) = Z.to_nat n.
Proof. unfold mbytes. by rewrite length_fmap, length_seq. Qed.
Lemma cstr_mbytes m a l : cstr m a l -> mbytes m a (Z.of_nat (length l)) = l.
Proof. intros H. rewrite <- (app_nil_r l) in H. by apply cstr_app in H as (H & _). Qed.

(** The loop on memory writes the matching ones of the lines that the loop on
    texts examines. *)
Lemma grep_loop_spec rounds fuel m pattern re buf pending src ls err :
  cstr m pattern re -> apart buf pattern re -> byte_mem m -> 0 < buf -> text_src src ->
  mbytes m buf (Z.of_nat (length pending)) = pending -> Forall (fun x => 0 < x < 256) pending -> (length pending < 1023)%nat ->
  (2 * (length re + 1024) + 1024 < fuel)%nat ->
  filter_loop rounds pending src = Some (ls, err) ->
  exists out, grep_loop rounds fuel m pattern buf (Z.of_nat (length pending)) src = Some (out, err) /\ selected re ls out.
Proof.
  revert m pending src ls. induction rounds as [|rounds IH]; intros m pending src ls Hp Ha Hm Hb Hs Hpm Hpb Hpl Hf H; [done|].
  cbn [filter_loop] in H. cbn [grep_loop].
  destruct (uread (BUFSZ - Z.of_nat (length pending) - 1) src) as [[c|] src'] eqn:Hr.
  2:{ simplify_eq. exists []. split; [done|constructor]. }
  destruct c as [|c0 c1] eqn:Ec; [simplify_eq; exists []; split; [done|constructor]|]. rewrite <- Ec in *. clear c0 c1 Ec.
  unfold BUFSZ in Hr. destruct (uread_some _ _ _ _ Hr ltac:(lia) Hs) as (Hcl & Hcb & Hs').
  destruct (split_nl (pending ++ c)) as [ls1 r] eqn:Hsp. destruct (split_inv _ _ _ Hsp) as (E & Hls & Hur).
  set (m0 := store8 _ _ _). pose proof (refill m buf pending c Hpm Hpb Hcb) as Hc. fold m0 in Hc. rewrite E in Hc.
  assert (length (joined ls1 r) = length pending + length c)%nat as El by (by rewrite <- E, length_app).
  assert (cstr m0 pattern re) as Hp0.
  { eapply cstr_ext; [exact Hp|]. intros i Hi. unfold m0, store8, apart, BUFSZ in *. rewrite store_bytes_spec. repeat bcase; simpl; try done; lia. }
  assert (byte_mem m0) as Hm0 by (unfold m0; apply store8_byte, store_bytes_byte, Hm).
  destruct (grep_lines_spec fuel m0 pattern re buf buf ls1 r) as (m1 & out1 & R & S1 & F1 & B1); try done.
  { unfold BUFSZ. lia. }
  { enough (length ls1 <= length (joined ls1 r))%nat by lia. clear. induction ls1; [simpl; lia|]. rewrite joined_cons, length_app. simpl. lia. }
  rewrite R. cbn [mbind option_bind]. specialize (B1 Hm0).
  set (n1 := Z.of_nat (length (joined ls1 []))) in *.
  assert (joined ls1 r = joined ls1 [] ++ r) as Ej by (by rewrite joined_rest).
  pose proof El as El'. rewrite Ej, length_app in El'.
  destruct (filter_loop rounds (match ls1 with [] => [] | _ => r end) src') as [[ls2 err2]|] eqn:Hfl; [|done]. cbn [mbind option_bind] in H. simplify_eq.
  (* the state before the next read: pending bytes [r'], moved to the front *)
  set (r' := match ls1 with [] => [] | _ => r end) in *.
  set (k1 := if buf + n1 =? buf then 0 else Z.of_nat (length pending) + Z.of_nat (length c)).
  set (k2 := if k1 >? 0 then k1 - (buf + n1 - buf) else k1).
  set (m2 := if k1 >? 0 then umemmove m1 buf (buf + n1) k2 else m1).
  assert (k2 = Z.of_nat (length r') /\ byte_mem m2 /\ cstr m2 pattern re /\ mbytes m2 buf (Z.of_nat (length r')) = r') as (Hk & Hm2 & Hp2 & Hr2).
  { assert (cstr m1 pattern re) as Hp1.
    { eapply cstr_ext; [exact Hp0|]. intros i Hi. apply F1. unfold apart, BUFSZ in Ha. lia. }
    destruct ls1 as [|x ls1].
    - assert (n1 = 0) as En by done. unfold k2, m2, k1, r'. rewrite En, Z.add_0_r, Z.eqb_refl. simpl. done.
    - assert (0 < n1) as En by (unfold n1; rewrite joined_cons, length_app; simpl; lia).
      assert (k1 = n1 + Z.of_nat (length r)) as Ek by (unfold k1; rewrite (proj2 (Z.eqb_neq _ _)) by lia; lia).
      unfold m2, k2, r'. rewrite Ek, Z.gtb_ltb, (proj2 (Z.ltb_lt _ _)) by lia. cbv iota.
      replace (n1 + Z.of_nat (length r) - (buf + n1 - buf)) with (Z.of_nat (length r)) by lia.
      assert (forall a, umemmove m1 buf (buf + n1) (Z.of_nat (length r)) a
        = if (buf <=? a) && (a <? buf + Z.of_nat (length r)) then m1 (buf + n1 + (a - buf)) else m1 a) as Mv by (intros a; apply umemmove_spec; [done|lia]).
      split; [done|]. split; [intros a; rewrite Mv; destruct (_ && _); apply B1|]. split.
      + eapply cstr_ext; [exact Hp1|]. intros i Hi. rewrite Mv. unfold apart, BUFSZ in Ha. repeat bcase; simpl; try done; lia.
      + assert (cstr m1 (buf + n1) r) as Hc1.
        { rewrite Ej in Hc. apply cstr_app in Hc as (_ & _ & Hc). fold n1 in Hc. eapply cstr_ext; [exact Hc|]. intros i Hi. apply F1. lia. }
        etransitivity; [|exact (cstr_mbytes _ _ _ Hc1)]. unfold mbytes. apply list_fmap_ext. intros i y [-> Hi]%lookup_seq. rewrite Mv.
        repeat bcase; simpl; try lia. f_equal. lia. }
  destruct (IH m2 r' src' ls2 Hp2 Ha Hm2 Hb Hs' Hr2) as (out2 & R2 & S2).
  - unfold r'. destruct ls1; [constructor|]. assert (Forall (fun x => 0 < x < 256) (pending ++ c)) as Hall by (by apply Forall_app).
    rewrite E, Ej in Hall. by apply Forall_app in Hall as [_ ?].
  - unfold r'. destruct ls1 as [|x ls1]; [simpl; lia|]. rewrite joined_cons, length_app in El'. simpl in El'. lia.
  - done.
  - exact Hfl.
  - rewrite Hk. rewrite R2. cbn [mbind option_bind]. eexists. split; [done|]. by apply selected_app.
Qed.

(** ** Files *)

Lemma split_app l e ls r : split_nl l = (ls, r) -> split_nl (l ++ e) = (ls ++ (split_nl (r ++ e)).1, (split_nl (r ++ e)).2).
Proof.
  intros (-> & Hls & Hr)%split_inv. destruct (split_nl (r ++ e)) as [ls' r'] eqn:E. apply split_inv in E as (E & Hls' & Hr'). simpl.
  rewrite joined_rest, E, <- joined_app. apply split_joined; [by apply Forall_app|done].
Qed.
Lemma split_none l r : split_nl l = ([], r) -> r = l /\ unbroken l.
Proof. intros (-> & _ & H)%split_inv. done. Qed.
Lemma split_unbroken l : unbroken l -> split_nl l = ([], l).
Proof. intros H. by apply (split_joined [] l). Qed.

(** A first line longer than the text before its newline. *)
Lemma split_long l e x ls r : unbroken l -> split_nl (l ++ e) = (x :: ls, r) -> (length l <= length x)%nat.
Proof.
  intros Hl (E & _ & _)%split_inv. rewrite joined_cons in E. destruct (decide (length l <= length x)%nat) as [|Hn]; [done|]. exfalso.
  apply Hl. apply (list_elem_of_lookup_2 _ (length x)). rewrite <- (lookup_app_l l e) by lia. rewrite E. by apply list_lookup_middle.
Qed.

Lemma filter_file rounds pending d ls r :
  unbroken pending -> (length pending <= 1022)%nat -> split_nl (pending ++ d) = (ls, r) ->
  Forall (fun x => (length x <= 1022)%nat) ls -> (length d + 1 < rounds)%nat ->
  filter_loop rounds pending [Some d] = Some (ls, false).
Proof.
  revert pending d ls r. induction rounds as [|rounds IH]; intros pending d ls r Hp Hl Hs Hb Hf; [lia|]. cbn [filter_loop].
  unfold uread, BUFSZ. destruct (Z.leb_spec (Z.of_nat (length d)) (1024 - Z.of_nat (length pending) - 1)) as [Hd|Hd].
  - destruct d as [|c d]; [rewrite app_nil_r, split_unbroken in Hs by done; by simplify_eq|]. rewrite Hs.
    destruct rounds as [|rounds]; [simpl in *; lia|]. cbn. by rewrite app_nil_r.
  - set (n := Z.to_nat (1024 - Z.of_nat (length pending) - 1)). rewrite <- (take_drop n d) in Hs. rewrite app_assoc in Hs.
    assert (length (take n d) = n /\ length (pending ++ take n d) = 1023 /\ 0 < n)%nat as (Hc & Hdata & Hn) by (rewrite length_app, length_take; unfold n; lia).
    assert (length (drop n d) + 1 < rounds)%nat as Hr by (rewrite length_drop; lia).
    destruct (take n d) as [|c0 c1] eqn:Ec; [simpl in Hc; lia|]. rewrite <- Ec in *. clear c0 c1 Ec Hc.
    destruct (split_nl (pending ++ take n d)) as [ls1 r1] eqn:H1. rewrite (split_app _ _ _ _ H1) in Hs.
    destruct (split_nl (r1 ++ drop n d)) as [ls2 r2] eqn:H2. simpl in Hs. simplify_eq. apply Forall_app in Hb as [Hb1 Hb2].
    destruct ls1 as [|x ls1].
    + apply split_none in H1 as [-> Hu].
      destruct ls2 as [|y ls2]; [|apply split_long in H2; [|done]; rewrite Hdata in H2; apply Forall_cons in Hb2 as [Hy _]; lia].
      apply split_none in H2 as [-> Hu2]. rewrite (IH [] (drop n d) [] (drop n d)); [done|apply not_elem_of_nil|simpl; lia| |constructor|done].
      apply split_unbroken. intros Hin. apply Hu2. apply elem_of_app. by right.
    + apply split_inv in H1 as (E1 & _ & Hu). rewrite (IH r1 (drop n d) ls2 r); [done|done| |done|done|done].
      apply (f_equal length) in E1. rewrite Hdata, joined_cons, length_app in E1. simpl in E1.
      unfold joined in E1. rewrite length_app in E1. lia.
Qed.

(** C27: grep on a file writes exactly the complete lines with a match.  The file is read
    in pieces of up to 1023 bytes; for text without nul bytes whose complete
    lines are at most 1022 bytes long, the output is the complete lines that
    match the pattern, in order, each with its newline, although lines are
    split across reads and moved in the buffer.  What follows the last newline
    is never written, whether it matches or not; a longer line, which fills the
    buffer without a newline, makes grep drop what it holds (grep.c:68). *)
Theorem grep_file_lines m pattern re buf content ls r rounds fuel :
  byte_mem m -> cstr m pattern re -> apart buf pattern re -> 0 < buf ->
  Forall (fun x => 0 < x < 256) content -> split_nl content = (ls, r) -> Forall (fun x => (length x <= 1022)%nat) ls ->
  (length content + 1 < rounds)%nat -> (2 * (length re + 1024) + 1024 < fuel)%nat ->
  exists out, grep rounds fuel m pattern buf [Some content] = Some (out, false) /\ selected re ls out.
Proof.
  intros Hm Hp Ha Hb Hc Hs Hl Hr Hf.
  apply (grep_loop_spec rounds fuel m pattern re buf [] [Some content] ls false); try done.
  - by constructor.
  - simpl. lia.
  - eapply filter_file; [apply not_elem_of_nil|simpl; lia|exact Hs|done|done].
Qed.

(** A process that runs [grep b.*e] with its buffer at 4096. *)
Module GrepDemo.
Definition pattern : list Z := [98; 46; 42; 101].
Definition memory : mem := store8 (store_bytes (fun _ => 0) 100 pattern) 104 0.
(** abide, cat, bee *)
Definition content : list Z := [97; 98; 105; 100; 101; 10; 99; 97; 116; 10; 98; 101; 101; 10].
Lemma memory_bytes : byte_mem memory.
Proof. apply store8_byte, store_bytes_byte. intros a. lia. Qed.
Lemma memory_pattern : cstr memory 100 pattern.
Proof. vm_compute. by split_and!. Qed.
End GrepDemo.

Lemma grep_match_correct_witness :
  decides (grep_match GrepDemo.memory 30 100 101) (matches GrepDemo.pattern [46; 42; 101]).
Proof. apply grep_match_correct; [apply GrepDemo.memory_pattern|vm_compute; by split_and!|vm_compute; lia]. Defined.
Lemma grep_file_lines_witness :
  exists out, grep 20 3500 GrepDemo.memory 100 4096 [Some GrepDemo.content] = Some (out, false)
    /\ selected GrepDemo.pattern [[97; 98; 105; 100; 101]; [99; 97; 116]; [98; 101; 101]] out.
Proof.
  apply (grep_file_lines _ _ _ _ _ _ []); [apply GrepDemo.memory_bytes|apply GrepDemo.memory_pattern| |lia| |done| |simpl; lia|cbn [length GrepDemo.pattern]; lia].
  - left. done.
  - unfold GrepDemo.content. repeat constructor; lia.
  - repeat constructor; simpl; lia.
Defined.

(** A line that arrives in two pieces, as from a pipe, is lost: a read without
    a newline sets [m] to 0. *)
Lemma grep_drops_partial_line :
  grep 20 3500 GrepDemo.memory 100 4096 [Some [97; 98; 105]; Some [100; 101; 10]] = Some ([], false)
  /\ grep 20 3500 GrepDemo.memory 100 4096 [Some [97; 98; 105; 100; 101; 10]] = Some ([[97; 98; 105; 100; 101; 10]], false).
Proof. split; vm_compute; reflexivity. Qed.
