(* ===== verification/Printf.v ===== *)
(** Formatted printing: the user library's (src/printf.c) and the kernel's
    (src/kernel/printf.c).

    A routine is the list of the values it gives to [putc], a [char] in the user
    library, or to [consputc], an [int] in the kernel.  The format is a string
    in memory, the arguments are the 64-bit slots [va_arg] takes them from;
    [None] stands for a read past the last argument, a store past the end of a
    buffer, or fuel that is used up.  The two programs have the same
    conversions and differ in their loops and in the case of their digits. *)

From S2P Require Import Prelude.
From S2P Require Import KString.
From S2P Require Import Console.
From S2P Require Import Ulib.

Definition i64 (x : Z) : Z := (x + 2 ^ 63) mod 2 ^ 64 - 2 ^ 63.

(** "0123456789ABCDEF" and "0123456789abcdef" *)
Definition user_digits : list Z := [48; 49; 50; 51; 52; 53; 54; 55; 56; 57; 65; 66; 67; 68; 69; 70].
Definition kernel_digits : list Z := [48; 49; 50; 51; 52; 53; 54; 55; 56; 57; 97; 98; 99; 100; 101; 102].
Definition MINUS : Z := 45.
Definition PERCENT : Z := 37.
(** "(null)" *)
Definition null_text : list Z := [40; 110; 117; 108; 108; 41].

(** ** Numbers *)

Section Numbers.
Context (digits : list Z).

(** [buf[i++] = c] *)
Definition BUFLEN : nat := 20.
Definition buf_push (buf : list Z) (c : Z) : option (list Z) :=
  if (length buf <? BUFLEN)%nat then Some (buf ++ [c]) else None.

Fixpoint digit_loop (fuel : nat) (x base : Z) (buf : list Z) : option (list Z) :=
  match fuel with
  | O => None
  | S fuel' =>
      buf ← buf_push buf (digits !!! Z.to_nat (x mod base));
      if x / base =? 0 then Some buf else digit_loop fuel' (x / base) base buf
  end.

(** [xx] is a [long long]; at most 64 digits. *)
Definition printint (xx base : Z) (sgn : bool) : option (list Z) :=
  let neg := sgn && (xx <? 0) in
  let x := if neg then u64 (- xx) else u64 xx in
  buf ← digit_loop 64 x base [];
  buf ← (if neg then buf_push buf MINUS else Some buf);
  Some (reverse buf).

Fixpoint ptr_loop (n : nat) (x : Z) : list Z :=
  match n with
  | O => []
  | S n' => digits !!! Z.to_nat (Z.shiftr x 60) :: ptr_loop n' (u64 (Z.shiftl x 4))
  end.
Definition printptr (x : Z) : list Z := 48 :: 120 :: ptr_loop 16 x.
End Numbers.

(** ** Conversions *)

Inductive conv := CSigned32 | CSigned64 | CUnsigned32 | CUnsigned64 | CHex32 | CHex64 | CPtr | CChar | CStr | CPercent | CUnknown.

(** The chain of tests on the characters after a percent sign: the conversion,
    and what the code adds to [i]. *)
Definition directive (c0 c1 c2 : Z) : conv * Z :=
  if c0 =? 100 then (CSigned32, 0) else
  if (c0 =? 108) && (c1 =? 100) then (CSigned64, 1) else
  if (c0 =? 108) && (c1 =? 108) && (c2 =? 100) then (CSigned64, 2) else
  if c0 =? 117 then (CUnsigned32, 0) else
  if (c0 =? 108) && (c1 =? 117) then (CUnsigned64, 1) else
  if (c0 =? 108) && (c1 =? 108) && (c2 =? 117) then (CUnsigned64, 2) else
  if c0 =? 120 then (CHex32, 0) else
  if (c0 =? 108) && (c1 =? 120) then (CHex64, 1) else
  if (c0 =? 108) && (c1 =? 108) && (c2 =? 120) then (CHex64, 2) else
  if c0 =? 112 then (CPtr, 0) else
  if c0 =? 99 then (CChar, 0) else
  if c0 =? 115 then (CStr, 0) else
  if c0 =? PERCENT then (CPercent, 0) else
  (CUnknown, 0).

Section Convert.
(** [sfuel] bounds the length of a string argument. *)
Context (digits : list Z) (m : mem) (sfuel : nat).

(** [for(; *s; s++) putc( *s);] *)
Fixpoint put_string (fuel : nat) (s : Z) : option (list Z) :=
  match fuel with
  | O => None
  | S fuel' => if m s =? 0 then Some [] else l ← put_string fuel' (s + 1); Some (m s :: l)
  end.

(** One conversion: the text and the arguments left. *)
Definition convert (c : conv) (c0 : Z) (args : list Z) : option (list Z * list Z) :=
  match c, args with
  | CPercent, _ => Some ([PERCENT], args)
  | CUnknown, _ => Some ([PERCENT; c0], args)
  | _, [] => None
  | CSigned32, a :: args => l ← printint digits (i32 a) 10 true; Some (l, args)
  | CSigned64, a :: args => l ← printint digits (i64 a) 10 true; Some (l, args)
  | CUnsigned32, a :: args => l ← printint digits (u32 a) 10 false; Some (l, args)
  | CUnsigned64, a :: args => l ← printint digits (i64 a) 10 false; Some (l, args)
  | CHex32, a :: args => l ← printint digits (u32 a) 16 false; Some (l, args)
  | CHex64, a :: args => l ← printint digits (i64 a) 16 false; Some (l, args)
  | CPtr, a :: args => Some (printptr digits (u64 a), args)
  | CChar, a :: args => Some ([u32 a], args)
  | CStr, a :: args => if u64 a =? 0 then Some (null_text, args) else l ← put_string sfuel (u64 a); Some (l, args)
  end.

(** The characters after [fmt[i]] that the tests look at. *)
Definition ahead (fmt i c0 : Z) : Z * Z :=
  let c1 := if truth c0 then Z.land (m (fmt + i + 1)) 0xff else 0 in
  let c2 := if truth c1 then Z.land (m (fmt + i + 2)) 0xff else 0 in
  (c1, c2).

(** ** The user's [vprintf]: [state] is whether the last character was a
    percent sign that starts a conversion. *)
Fixpoint vprintf_loop (fuel : nat) (fmt i : Z) (state : bool) (args : list Z) : option (list Z) :=
  match fuel with
  | O => None
  | S fuel' =>
      if m (fmt + i) =? 0 then Some [] else
      let c0 := Z.land (m (fmt + i)) 0xff in
      if negb state then
        if c0 =? PERCENT then vprintf_loop fuel' fmt (i + 1) true args
        else l ← vprintf_loop fuel' fmt (i + 1) false args; Some (c0 :: l)
      else
        let '(c1, c2) := ahead fmt i c0 in
        let '(c, skip) := directive c0 c1 c2 in
        '(text, args) ← convert c c0 args;
        l ← vprintf_loop fuel' fmt (i + skip + 1) false args;
        Some (text ++ l)
  end.
(** The bytes written to the file. *)
Definition vprintf (fuel : nat) (fmt : Z) (args : list Z) : option (list Z) :=
  (fun l : list Z => u8 <$> l) <$> vprintf_loop fuel fmt 0 false args.

(** ** The kernel's [printf] *)

Fixpoint kprintf_loop (fuel : nat) (fmt i : Z) (args : list Z) : option (list Z) :=
  match fuel with
  | O => None
  | S fuel' =>
      let cx := Z.land (m (fmt + i)) 0xff in
      if cx =? 0 then Some [] else
      if negb (cx =? PERCENT) then l ← kprintf_loop fuel' fmt (i + 1) args; Some (cx :: l) else
      let i := i + 1 in
      let c0 := Z.land (m (fmt + i)) 0xff in
      let '(c1, c2) := ahead fmt i c0 in
      let '(c, skip) := directive c0 c1 c2 in
      if c0 =? 0 then Some [] else
      '(text, args) ← convert c c0 args;
      l ← kprintf_loop fuel' fmt (i + skip + 1) args;
      Some (text ++ l)
  end.
(** The characters go to the console. *)
Definition kprintf (fuel : nat) (fmt : Z) (args : list Z) (s : cons_t) : option cons_t :=
  (fun l => fold_left (fun s c => consputc c s) l s) <$> kprintf_loop fuel fmt 0 args.
End Convert.
