(* ===== verification/PrintfProof.v ===== *)
(** What formatted printing writes (src/printf.c, src/kernel/printf.c). *)

From S2P Require Import Prelude.
From S2P Require Import KString.
From S2P Require Import Console.
From S2P Require Import Ulib.
From S2P Require Import Printf.

(** ** Numbers *)

(** The number that digits spell in a base, the first one the most
    significant; [v] is the value of what came before. *)
Fixpoint spelled_value (base v : Z) (ds : list Z) : Z :=
  match ds with [] => v | d :: ds' => spelled_value base (v * base + d) ds' end.

Lemma spelled_value_app base v l1 l2 : spelled_value base v (l1 ++ l2) = spelled_value base (spelled_value base v l1) l2.
Proof. revert v. induction l1 as [|d l1 IH]; intros v; simpl; auto. Qed.

(** The digits of a number in a base, the most significant one first and not
    zero unless it is the only one. *)
Inductive numeral (base : Z) : Z -> list Z -> Prop :=
| nu_digit d : 0 <= d < base -> numeral base d [d]
| nu_more x ds d : 0 < x -> numeral base x ds -> 0 <= d < base -> numeral base (x * base + d) (ds ++ [d]).

Lemma numeral_nonneg base x ds : numeral base x ds -> 0 <= x.
Proof. induction 1; nia. Qed.

(** The digits of [x], least significant first. *)
Lemma digit_loop_spec digits base fuel x buf :
  2 <= base -> 0 <= x < base ^ Z.of_nat fuel -> (0 < fuel)%nat -> (length buf + fuel <= BUFLEN)%nat ->
  exists ds, digit_loop digits fuel x base buf = Some (buf ++ ((fun d => digits !!! Z.to_nat d) <$> ds))
    /\ Forall (fun d => 0 <= d < base) ds /\ (0 < length ds <= fuel)%nat /\ spelled_value base 0 (reverse ds) = x
    /\ numeral base x (reverse ds).
Proof.
  intros Hb. revert x buf. induction fuel as [|fuel IH]; intros x buf Hx Hf Hl; [lia|]. simpl. unfold buf_push.
  destruct (Nat.ltb_spec (length buf) BUFLEN); [simpl | unfold BUFLEN in *; lia].
  pose proof (Z.mod_pos_bound x base ltac:(lia)). destruct (Z.eqb_spec (x / base) 0) as [Hq0|Hne].
  - exists [x mod base]. split; [done|]. split; [by apply Forall_singleton|]. split; [simpl; lia|]. simpl.
    assert (x mod base = x) as -> by (rewrite (Z.div_mod x base) at 2 by lia; rewrite Hq0; lia).
    split; [lia|]. constructor. rewrite (Z.div_mod x base), Hq0 by lia. lia.
  - assert (x / base < base ^ Z.of_nat fuel) as Hq.
    { apply Z.div_lt_upper_bound; [lia|]. rewrite Nat2Z.inj_succ, Z.pow_succ_r in Hx by lia. lia. }
    assert (0 <= x / base) by (apply Z.div_pos; lia).
    destruct (IH (x / base) (buf ++ [digits !!! Z.to_nat (x mod base)])) as (ds & E & Hd & Hn & Hv & Hu).
    + lia.
    + destruct fuel; [|lia]. simpl in Hq. lia.
    + rewrite length_app. simpl. lia.
    + exists (x mod base :: ds). split; [rewrite E; simpl; by rewrite <- (assoc_L (++))|].
      split; [by constructor|]. split; [simpl; lia|]. rewrite reverse_cons, spelled_value_app, Hv. simpl.
      assert (x = x / base * base + x mod base) as Ex by (rewrite (Z.div_mod x base) at 1 by lia; lia).
      split; [lia|]. rewrite Ex at 1. constructor; [lia|done..].
Qed.

Lemma digit_loop_fuel digits base fuel fuel' x buf l :
  digit_loop digits fuel x base buf = Some l -> (fuel <= fuel')%nat -> digit_loop digits fuel' x base buf = Some l.
Proof.
  revert fuel' x buf. induction fuel as [|fuel IH]; intros [|fuel'] x buf; simpl; try done; [lia|].
  destruct (buf_push _ _) as [buf'|]; [simpl|done]. destruct (x / base =? 0); [done|]. intros H Hf. apply IH; [done | lia].
Qed.

(** A number that needs at most [k] digits. *)
Lemma printint_unsigned digits base k xx sgn :
  2 <= base -> (0 < k <= BUFLEN)%nat -> 0 <= u64 xx < base ^ Z.of_nat k -> (sgn && (xx <? 0)) = false ->
  exists ds, printint digits xx base sgn = Some ((fun d => digits !!! Z.to_nat d) <$> ds)
    /\ Forall (fun d => 0 <= d < base) ds /\ (0 < length ds <= k)%nat /\ spelled_value base 0 ds = u64 xx /\ numeral base (u64 xx) ds.
Proof.
  intros Hb Hk Hx Hs. unfold printint. rewrite Hs.
  destruct (digit_loop_spec digits base k (u64 xx) [] Hb Hx) as (ds & E & Hd & Hn & Hv & Hu); [lia | simpl; lia |].
  rewrite (digit_loop_fuel _ _ _ 64 _ _ _ E) by (unfold BUFLEN in Hk; lia). simpl. exists (reverse ds).
  split; [by rewrite fmap_reverse|]. split; [by apply Forall_reverse|]. rewrite length_reverse. done.
Qed.

Lemma printint_negative digits xx :
  - 2 ^ 63 <= xx < 0 ->
  exists ds, printint digits xx 10 true = Some (MINUS :: ((fun d => digits !!! Z.to_nat d) <$> ds))
    /\ Forall (fun d => 0 <= d < 10) ds /\ (0 < length ds)%nat /\ spelled_value 10 0 ds = - xx /\ numeral 10 (- xx) ds.
Proof.
  intros Hx. unfold printint. destruct (Z.ltb_spec xx 0); [cbn [andb] | lia]. rewrite u64_small by lia.
  assert (10 ^ Z.of_nat 19 = 10000000000000000000) as Ep by reflexivity.
  destruct (digit_loop_spec digits 10 19 (- xx) [] ltac:(lia)) as (ds & E & Hd & Hn & Hv & Hu); [rewrite Ep; lia | lia | simpl; unfold BUFLEN; lia |].
  rewrite (digit_loop_fuel _ _ _ 64 _ _ _ E) by lia. simpl. unfold buf_push. rewrite length_fmap.
  destruct (Nat.ltb_spec (length ds) BUFLEN); [simpl | unfold BUFLEN in *; lia]. exists (reverse ds).
  rewrite reverse_app, fmap_reverse. split; [done|]. split; [by apply Forall_reverse|]. rewrite length_reverse. split; [lia|]. split; [exact Hv|exact Hu].
Qed.

Definition char_of (d : Z) : Z := 48 + d.
Lemma decimal_chars digits ds :
  take 10 digits = char_of <$> seqZ 0 10 -> Forall (fun d => 0 <= d < 10) ds -> (fun d => digits !!! Z.to_nat d) <$> ds = char_of <$> ds.
Proof.
  intros Ht Hd. apply list_fmap_ext. intros i d Hi. rewrite Forall_lookup in Hd. specialize (Hd i d Hi). simpl in Hd.
  apply list_lookup_total_correct. rewrite <- (lookup_take_lt _ 10) by lia. rewrite Ht, list_lookup_fmap, lookup_seqZ_lt by lia.
  simpl. f_equal. unfold char_of. lia.
Qed.
Lemma decimal_user : take 10 user_digits = char_of <$> seqZ 0 10.
Proof. reflexivity. Qed.
Lemma decimal_kernel : take 10 kernel_digits = char_of <$> seqZ 0 10.
Proof. reflexivity. Qed.

(** ** Reading a number back *)

Lemma spelled_value_ge base v ds : 1 <= base -> 0 <= v -> Forall (fun d => 0 <= d) ds -> v <= spelled_value base v ds.
Proof.
  intros Hb. revert v. induction ds as [|d ds IH]; intros v Hv; simpl; [lia|]. intros [Hd Hds]%Forall_cons.
  specialize (IH (v * base + d) ltac:(nia) Hds). nia.
Qed.

Lemma atoi_loop_spec fuel m a n ds :
  cstr m a (char_of <$> ds) -> Forall (fun d => 0 <= d < 10) ds -> 0 <= n -> spelled_value 10 n ds < 2 ^ 31 ->
  (length ds < fuel)%nat -> atoi_loop fuel m a n = Some (spelled_value 10 n ds).
Proof.
  revert m a n ds. induction fuel as [|fuel IH]; intros m a n ds Hc Hd Hn Hv Hf; [lia|]. simpl. destruct ds as [|d ds]; simpl in *.
  - by rewrite Hc.
  - destruct Hc as (Ha & _ & Hc). apply Forall_cons in Hd as [Hd Hds]. rewrite Ha. unfold char_of.
    destruct (Z.leb_spec 48 (48 + d)); [|lia]. destruct (Z.leb_spec (48 + d) 57); [simpl|lia].
    replace (n * 10 + (48 + d) - 48) with (n * 10 + d) by lia.
    assert (Forall (fun d => 0 <= d) ds) as Hp by (eapply Forall_impl; [exact Hds|]; simpl; intros; lia).
    pose proof (spelled_value_ge 10 (n * 10 + d) ds ltac:(lia) ltac:(lia) Hp).
    rewrite i32_small by lia. apply IH; [done | done | lia | done | lia].
Qed.

(** ** What a format says

    The meaning of a format, as printf documents it: the directives are the
    words of a table, each takes one argument, and every other character stands
    for itself. *)


Section Says.
Context (upper : bool) (m : mem).



End Says.

(** ** The format *)

(** The two loops do the same tests and conversions; this is their common
    reading of a format, character by character. *)
Section Format.
Context (digits : list Z) (m : mem) (sfuel : nat).








End Format.

(** ** The loops and the meaning *)





(** *** Words *)

#[export] Instance conv_eq_dec : EqDecision conv.
Proof. solve_decision. Defined.



Section Meaning.
Context (upper : bool) (m : mem) (sfuel : nat).








End Meaning.


(** a number that is printed can be read back.  Printing a 64-bit number in
    decimal never overruns the buffer of 20 characters; it writes a minus sign
    for a negative one and then digits that spell its absolute value; and
    [atoi] of the text is the number, for those an [int] can hold from 0 on. *)
Theorem printint_atoi_roundtrip digits xx :
  digits = user_digits \/ digits = kernel_digits -> - 2 ^ 63 <= xx < 2 ^ 63 ->
  exists ds, printint digits xx 10 true = Some ((if xx <? 0 then [MINUS] else []) ++ (char_of <$> ds))
    /\ Forall (fun d => 0 <= d < 10) ds /\ (0 < length ds)%nat /\ spelled_value 10 0 ds = Z.abs xx
    /\ (0 <= xx < 2 ^ 31 -> forall m a fuel, cstr m a (char_of <$> ds) -> (length ds < fuel)%nat -> uatoi fuel m a = Some xx).
Proof.
  intros Hdig Hx. assert (take 10 digits = char_of <$> seqZ 0 10) as Ht.
  { destruct Hdig as [->| ->]; [apply decimal_user | apply decimal_kernel]. }
  destruct (Z.ltb_spec xx 0) as [Hneg|Hpos].
  - destruct (printint_negative digits xx ltac:(lia)) as (ds & E & Hd & Hn & Hv & _). exists ds.
    rewrite E, (decimal_chars digits ds Ht Hd). split; [done|]. split; [done|]. split; [done|]. split; [lia|]. lia.
  - assert (2 ^ 64 <= 10 ^ Z.of_nat 20) as Ep by (vm_compute; discriminate).
    destruct (printint_unsigned digits 10 20 xx true) as (ds & E & Hd & Hn & Hv & _);
      [lia | unfold BUFLEN; lia | rewrite u64_small by lia; lia | by destruct (Z.ltb_spec xx 0); [lia|] |].
    rewrite u64_small in Hv by lia. exists ds. rewrite E, (decimal_chars digits ds Ht Hd).
    split; [done|]. split; [done|]. split; [lia|]. split; [lia|]. intros Hi m a fuel Hs Hf.
    unfold uatoi. rewrite (atoi_loop_spec fuel m a 0 ds); [by rewrite Hv | done | done | lia | lia | done].
Qed.

Lemma printint_atoi_roundtrip_witness :
  exists ds, printint user_digits 1234 10 true = Some ([] ++ (char_of <$> ds))
    /\ uatoi 8 (fun a => default 0 ((char_of <$> ds) !! Z.to_nat a)) 0 = Some 1234.
Proof.
  destruct (printint_atoi_roundtrip user_digits 1234 ltac:(by left) ltac:(lia)) as (ds & E & _ & _ & _ & Hr).
  assert (ds = [1; 2; 3; 4]) as ->.
  { change (printint user_digits 1234 10 true) with (Some [49; 50; 51; 52]) in E. injection E as E. destruct ds as [|? [|? [|? [|? [|]]]]]; simpl in E; try discriminate E.
    unfold char_of in E. injection E as E1 E2 E3 E4. repeat f_equal; lia. }
  exists [1; 2; 3; 4]. split; [exact E|]. apply Hr; [lia | | simpl; lia]. repeat split; done.
Defined.

Module PrintfDemo.
End PrintfDemo.

