(* ===== verification/Sh.v ===== *)
(** The shell (src/sh.c): its parser, and what it does with a command.

    The parser works on the line in memory, [m], between the cursor, which is
    the state of the monad, and the nul at [es].  An argument is a pair of
    pointers, its first character and the one past its last; [nulterminate]
    makes it a string.  [malloc] is taken to succeed.  [parseredirs] wraps
    the command it is given in redirections, whose innermost command
    [parseexec] goes on filling; so [parseredirs] returns the redirections, and
    the wrapping is done when the arguments are complete. *)

From S2P Require Import Prelude.
From S2P Require Import KString.
From S2P Require Import Ulib.

(** ** Commands *)

Definition MAXARGS : nat := 10.
Definition O_RDONLY : Z := 0x000.
Definition O_WRONLY : Z := 0x001.
Definition O_CREATE : Z := 0x200.
Definition O_TRUNC : Z := 0x400.

Definition span : Type := Z * Z.
Inductive cmd :=
| EXEC (argv : list span)
| REDIR (c : cmd) (file : span) (mode fd : Z)
| PIPE (left right : cmd)
| LIST (left right : cmd)
| BACK (c : cmd).

Record redir := Redir { rd_file : span; rd_mode : Z; rd_fd : Z }.
Definition redircmd (c : cmd) (r : redir) : cmd := REDIR c (rd_file r) (rd_mode r) (rd_fd r).
Definition wrap (rs : list redir) (c : cmd) : cmd := fold_left redircmd rs c.

(** ** Tokens *)

(** [strchr] on a constant string: the nul is not found. *)
Definition whitespace : list Z := [32; 9; 13; 10; 11].
Definition symbols : list Z := [60; 124; 62; 38; 59; 40; 41].
Definition inset (l : list Z) (c : Z) : bool := bool_decide (c ∈ l).

Definition BAR : Z := 124.
Definition LPAREN : Z := 40.
Definition RPAREN : Z := 41.
Definition SEMI : Z := 59.
Definition AMP : Z := 38.
Definition LESS : Z := 60.
Definition GREATER : Z := 62.
Definition APPEND : Z := 43.
Definition WORD : Z := 97.

Section Parser.
Context (m : mem) (es : Z).

(** [while(s < es && p( *s)) s++] *)
Fixpoint skip_loop (fuel : nat) (p : Z -> bool) (s : Z) : Z :=
  match fuel with
  | O => s
  | S fuel' => if (s <? es) && p (m s) then skip_loop fuel' p (s + 1) else s
  end.
Definition skip_while (p : Z -> bool) (s : Z) : Z := skip_loop (Z.to_nat (es - s)) p s.
Definition skip_ws : Z -> Z := skip_while (inset whitespace).
Definition skip_word : Z -> Z := skip_while (fun c => negb (inset whitespace c) && negb (inset symbols c)).

Record token := Token { tk_kind : Z; tk_span : span }.

Definition gettoken : M Z token := fun s =>
  let q := skip_ws s in
  let c := m q in
  let '(ret, e) :=
    if c =? 0 then (c, q)
    else if inset [BAR; LPAREN; RPAREN; SEMI; AMP; LESS] c then (c, q + 1)
    else if c =? GREATER then (if m (q + 1) =? GREATER then (APPEND, q + 2) else (c, q + 1))
    else (WORD, skip_word q) in
  Ret (Token ret (q, e)) (skip_ws e).

Definition peek (toks : list Z) : M Z bool := fun s =>
  let s := skip_ws s in
  Ret (truth (m s) && inset toks (m s)) s.

(** ** The parser *)

Fixpoint parseredirs (fuel : nat) : M Z (list redir) :=
  match fuel with
  | O => diverge
  | S fuel' =>
      let* more := peek [LESS; GREATER] in
      if negb more then mreturn [] else
      let* tok := gettoken in
      let* file := gettoken in
      if negb (tk_kind file =? WORD) then panic "missing file for redirection" else
      let* rs := parseredirs fuel' in
      let f := tk_span file in
      mreturn (if tk_kind tok =? LESS then Redir f O_RDONLY 0 :: rs
               else if tk_kind tok =? GREATER then Redir f (Z.lor (Z.lor O_WRONLY O_CREATE) O_TRUNC) 1 :: rs
               else if tk_kind tok =? APPEND then Redir f (Z.lor O_WRONLY O_CREATE) 1 :: rs
               else rs)
  end.

(** The argument loop of [parseexec], with [argc] arguments stored. *)
Fixpoint parseargs (fuel : nat) (argc : nat) : M Z (list span * list redir) :=
  match fuel with
  | O => diverge
  | S fuel' =>
      let* stop := peek [BAR; RPAREN; AMP; SEMI] in
      if stop then mreturn ([], []) else
      let* tok := gettoken in
      if tk_kind tok =? 0 then mreturn ([], []) else
      if negb (tk_kind tok =? WORD) then panic "syntax" else
      if (MAXARGS <=? S argc)%nat then panic "too many args" else
      let* rs := parseredirs fuel' in
      let* more := parseargs fuel' (S argc) in
      mreturn (tk_span tok :: more.1, rs ++ more.2)
  end.

(** The loop over [&] in [parseline]. *)
Fixpoint parseback (fuel : nat) (c : cmd) : M Z cmd :=
  match fuel with
  | O => diverge
  | S fuel' =>
      let* more := peek [AMP] in
      if negb more then mreturn c else
      let* _ := gettoken in
      parseback fuel' (BACK c)
  end.

Fixpoint parseline (fuel : nat) : M Z cmd :=
  match fuel with
  | O => diverge
  | S fuel' =>
      let* c := parsepipe fuel' in
      let* c := parseback fuel' c in
      let* more := peek [SEMI] in
      if negb more then mreturn c else
      let* _ := gettoken in
      let* r := parseline fuel' in
      mreturn (LIST c r)
  end
with parsepipe (fuel : nat) : M Z cmd :=
  match fuel with
  | O => diverge
  | S fuel' =>
      let* c := parseexec fuel' in
      let* more := peek [BAR] in
      if negb more then mreturn c else
      let* _ := gettoken in
      let* r := parsepipe fuel' in
      mreturn (PIPE c r)
  end
with parseexec (fuel : nat) : M Z cmd :=
  match fuel with
  | O => diverge
  | S fuel' =>
      let* block := peek [LPAREN] in
      if block then parseblock fuel' else
      let* rs := parseredirs fuel' in
      let* args := parseargs fuel' 0 in
      mreturn (wrap (rs ++ args.2) (EXEC args.1))
  end
with parseblock (fuel : nat) : M Z cmd :=
  match fuel with
  | O => diverge
  | S fuel' =>
      let* ok := peek [LPAREN] in
      if negb ok then panic "parseblock" else
      let* _ := gettoken in
      let* c := parseline fuel' in
      let* ok := peek [RPAREN] in
      if negb ok then panic "syntax - missing )" else
      let* _ := gettoken in
      let* rs := parseredirs fuel' in
      mreturn (wrap rs c)
  end.
End Parser.

(** The stores of [nulterminate], in order. *)
Fixpoint nulterminate (c : cmd) (m : mem) : mem :=
  match c with
  | EXEC argv => fold_left (fun m a => store8 m (snd a) 0) argv m
  | REDIR c file _ _ => store8 (nulterminate c m) (snd file) 0
  | PIPE l r => nulterminate r (nulterminate l m)
  | LIST l r => nulterminate r (nulterminate l m)
  | BACK c => nulterminate c m
  end.

(** [es = s + strlen(s)]; the result has the memory after [nulterminate]. *)
Definition parsecmd (fuel : nat) (m : mem) (s es : Z) : outcome Z (cmd * mem) :=
  (let* c := parseline m es fuel in
   let* _ := peek m es [] in
   let* s := gets (fun s => s) in
   if negb (s =? es) then panic "syntax" else mreturn (c, nulterminate c m)) s.

(** ** Running a command

    [runcmd] never returns: a process it runs in makes system calls and ends in
    [exit] or [exec].  Its calls are a tree, with a branch for each result the
    code tells apart; results it ignores are left out. *)

Inductive prog :=
| PExit (status : Z)
| PFail (before : string) (word : option span) (after : string)
| PExec (argv : list span) (failed : prog)
| PClose (fd : nat) (k : prog)
| POpen (file : span) (mode : Z) (ok failed : prog)
| PDup (fd : nat) (k : prog)
| PPipe (ok : nat -> nat -> prog) (failed : prog)
| PFork (child parent failed : prog)
| PWait (k : prog).

(** [PFail] is a line on the standard error and [exit(1)]. *)
Definition sh_panic (s : string) : prog := PFail s None "".
Definition fork1 (child parent : prog) : prog := PFork child parent (sh_panic "fork").

Fixpoint runcmd (c : cmd) : prog :=
  match c with
  | EXEC [] => PExit 1
  | EXEC argv => PExec argv (PFail "exec " (head argv) " failed")
  | REDIR c file mode fd => PClose (Z.to_nat fd) (POpen file mode (runcmd c) (PFail "open " (Some file) " failed"))
  | LIST l r => fork1 (runcmd l) (PWait (runcmd r))
  | PIPE l r =>
      PPipe (fun p0 p1 =>
        fork1 (PClose 1 (PDup p1 (PClose p0 (PClose p1 (runcmd l)))))
       (fork1 (PClose 0 (PDup p0 (PClose p0 (PClose p1 (runcmd r)))))
       (PClose p0 (PClose p1 (PWait (PWait (PExit 0))))))) (sh_panic "pipe")
  | BACK c => fork1 (runcmd c) (PExit 0)
  end.

(** ** The command loop *)

(** [getcmd]: the memory and what is left of the input, and whether it is at
    the end. *)
Definition getcmd (input : list Z) (m : mem) (buf nbuf : Z) : mem * list Z * bool :=
  let m := umemset m buf 0 nbuf in
  let '(m, input) := ugets input m buf nbuf in
  (m, input, m buf =? 0).

(** What [main] does with a line: nothing, change directory, or run it in a
    child. *)
Inductive line_action := LineBlank | LineCd (m : mem) (path : Z) | LineRun (cmd : Z).
Fixpoint skip_blanks (fuel : nat) (m : mem) (cmd : Z) : option Z :=
  match fuel with
  | O => None
  | S fuel' => if (m cmd =? 32) || (m cmd =? 9) then skip_blanks fuel' m (cmd + 1) else Some cmd
  end.
Definition main_line (fuel : nat) (m : mem) (buf : Z) : option line_action :=
  cmd ← skip_blanks fuel m buf;
  if (m cmd =? 10) || (m cmd =? 0) then Some LineBlank
  else if (m cmd =? 99) && (m (cmd + 1) =? 100) && (m (cmd + 2) =? 32) then
    n ← ustrlen fuel m cmd;
    Some (LineCd (store8 m (cmd + n - 1) 0) (cmd + 3))
  else Some (LineRun cmd).
