(* ===== verification/ShProof.v ===== *)
(** The shell's parser: it always stops, it accepts exactly the sentences of a
    grammar and builds their commands, and the strings of a command are the
    words of the line. *)

From S2P Require Import Prelude.
From S2P Require Import KString.
From S2P Require Import Ulib.
From S2P Require Import Sh.

(** ** The lexer *)

Definition plain (c : Z) : bool := negb (inset whitespace c) && negb (inset symbols c).
Definition word_char (c : Z) : bool := truth c && plain c.

Section Lexer.
Context (m : mem) (s0 es : Z) (Hend : m es = 0) (Hnz : forall a, s0 <= a < es -> m a <> 0).

Definition valid (s : Z) : Prop := s0 <= s <= es.

Lemma skip_loop_spec fuel p s :
  valid s -> es - s <= Z.of_nat fuel ->
  let q := skip_loop m es fuel p s in
  s <= q <= es /\ (forall a, s <= a < q -> p (m a) = true) /\ (q = es \/ p (m q) = false).
Proof.
  revert s. induction fuel as [|fuel IH]; intros s Hv Hf; simpl.
  - unfold valid in Hv. split_and!; [lia|lia|intros; lia|left; lia].
  - unfold valid in *. destruct (Z.ltb_spec s es) as [Hlt|Hge]; simpl; [|split_and!; [lia|lia|intros; lia|left; lia]].
    destruct (p (m s)) eqn:Hp; [|split_and!; [lia|lia|intros; lia|by right]].
    destruct (IH (s + 1)) as (H1 & H2 & H3); [lia..|]. split_and!; [lia|lia| |done].
    intros a Ha. destruct (decide (a = s)) as [->|]; [done|]. apply H2. lia.
Qed.
Lemma skip_while_spec p s :
  valid s -> let q := skip_while m es p s in
  s <= q <= es /\ (forall a, s <= a < q -> p (m a) = true) /\ (q = es \/ p (m q) = false).
Proof. intros Hv. apply skip_loop_spec; [done|]. unfold valid in Hv. lia. Qed.
Lemma skip_while_stop p s : s = es \/ p (m s) = false -> skip_while m es p s = s.
Proof.
  intros H. unfold skip_while. destruct (Z.to_nat (es - s)); [done|]. simpl.
  destruct (Z.ltb_spec s es); [|done]. destruct H as [-> | ->]; [lia|done].
Qed.

Lemma skip_ws_valid s : valid s -> valid (skip_ws m es s).
Proof. intros Hv. pose proof (skip_while_spec (inset whitespace) s Hv) as (H & _). unfold valid, skip_ws in *. lia. Qed.
Lemma skip_ws_idem s : valid s -> skip_ws m es (skip_ws m es s) = skip_ws m es s.
Proof. intros Hv. apply skip_while_stop. by destruct (skip_while_spec (inset whitespace) s Hv) as (_ & _ & ?). Qed.

(** What [gettoken] returns as a function, and the facts about it. *)
Definition tok (s : Z) : token :=
  let q := skip_ws m es s in
  let c := m q in
  if c =? 0 then Token c (q, q)
  else if inset [BAR; LPAREN; RPAREN; SEMI; AMP; LESS] c then Token c (q, q + 1)
  else if c =? GREATER then (if m (q + 1) =? GREATER then Token APPEND (q, q + 2) else Token c (q, q + 1))
  else Token WORD (q, skip_word m es q).
Definition after (s : Z) : Z := skip_ws m es (tk_span (tok s)).2.

Lemma gettoken_run s : gettoken m es s = Ret (tok s) (after s).
Proof.
  unfold gettoken, after, tok. destruct (m (skip_ws m es s) =? 0); [done|]. destruct (inset _ _); [done|].
  destruct (_ =? GREATER); [|done]. by destruct (_ =? GREATER).
Qed.
Lemma tok_skip s : valid s -> tok (skip_ws m es s) = tok s /\ after (skip_ws m es s) = after s.
Proof. intros Hv. unfold after, tok. by rewrite skip_ws_idem. Qed.

Definition word_span (a : span) : Prop :=
  s0 <= a.1 < a.2 /\ a.2 <= es /\ (forall x, a.1 <= x < a.2 -> word_char (m x) = true) /\ word_char (m a.2) = false.

Lemma tok_spec s :
  valid s -> tk_kind (tok s) <> 0 ->
  valid (after s) /\ s < after s /\ (tk_kind (tok s) = WORD -> word_span (tk_span (tok s))).
Proof.
  intros Hv Hk. pose proof (skip_while_spec (inset whitespace) s Hv) as (Hq & _ & Hst). fold (skip_ws m es s) in *.
  set (q := skip_ws m es s) in *.
  assert (m q <> 0 -> q < es) as Hlt by (intros Hne; destruct (decide (q = es)) as [E|]; [by rewrite E in Hne|lia]).
  assert (forall e, q < e <= es -> after s = skip_ws m es e -> valid (after s) /\ s < after s) as Hafter.
  { intros e He ->. assert (valid e) as Hve by (unfold valid in *; lia).
    pose proof (skip_while_spec (inset whitespace) e Hve) as (H & _). unfold skip_ws, valid in *. lia. }
  unfold after in *. unfold tok in *. fold q in Hk, Hafter |- *.
  destruct (Z.eqb_spec (m q) 0) as [E|E]; [done|]. specialize (Hlt E).
  destruct (inset _ (m q)) eqn:Hsym; simpl in *.
  { destruct (Hafter (q + 1)) as [? ?]; [lia|done|]. split_and!; [done|done|]. intros Hw. rewrite Hw in Hsym. by vm_compute in Hsym. }
  destruct (Z.eqb_spec (m q) GREATER) as [Eg|Eg]; simpl in *.
  { destruct (Z.eqb_spec (m (q + 1)) GREATER) as [E2|E2]; simpl in *.
    - assert (q + 1 <> es) by (intros E3; rewrite E3, Hend in E2; done). destruct (Hafter (q + 2)) as [? ?]; [lia|done|]. split_and!; done.
    - destruct (Hafter (q + 1)) as [? ?]; [lia|done|]. split_and!; [done|done|]. by rewrite Eg. }
  assert (plain (m q) = true) as Hwc.
  { unfold plain. destruct Hst as [?|Hws]; [lia|]. rewrite Hws. simpl. apply negb_true_iff. unfold inset in *.
    apply bool_decide_eq_false_2. apply bool_decide_eq_false in Hsym. unfold symbols. set_solver. }
  assert (valid q) as Hvq by (unfold valid in *; lia).
  pose proof (skip_while_spec plain q Hvq) as (Hr & Hall & Hstop). change (skip_while m es plain q) with (skip_word m es q) in *.
  set (e := skip_word m es q) in *. assert (q < e) as Hqe.
  { destruct (decide (e = q)) as [Eq|]; [|lia]. rewrite Eq in Hstop. destruct Hstop as [?|?]; [lia|congruence]. }
  destruct (Hafter e) as [Ha1 Ha2]; [lia|done|]. split; [exact Ha1|]. split; [exact Ha2|]. intros _. unfold word_span. simpl.
  unfold valid in Hv. split; [lia|]. split; [lia|]. split.
  - intros x Hx. unfold word_char, truth. rewrite Hall by done. rewrite (proj2 (Z.eqb_neq _ _)); [done|]. apply Hnz. lia.
  - unfold word_char. destruct Hstop as [Ee|Ee]; [|rewrite Ee; apply andb_false_r]. by rewrite Ee, Hend.
Qed.

(** The tokens from a cursor to the end of the line. *)
Inductive lexed : Z -> list token -> Prop :=
| lexed_end s : valid s -> tk_kind (tok s) = 0 -> lexed s []
| lexed_cons s ts : valid s -> tk_kind (tok s) <> 0 -> lexed (after s) ts -> lexed s (tok s :: ts).

Lemma lexed_valid s ts : lexed s ts -> valid s.
Proof. by destruct 1. Qed.
Lemma lexed_total s : valid s -> exists ts, lexed s ts /\ Z.of_nat (length ts) <= es - s.
Proof.
  intros Hv. remember (Z.to_nat (es - s)) as n eqn:Hn. revert s Hv Hn. induction (lt_wf n) as [n _ IH]. intros s Hv ->.
  destruct (decide (tk_kind (tok s) = 0)) as [E|E].
  - exists []. split; [by constructor|]. unfold valid in Hv. simpl. lia.
  - destruct (tok_spec s Hv E) as (Hva & Hlt & _). unfold valid in *.
    destruct (IH (Z.to_nat (es - after s)) ltac:(lia) (after s) Hva eq_refl) as (ts & Hts & Hl).
    exists (tok s :: ts). split; [by constructor|]. simpl. lia.
Qed.
Lemma lexed_skip s ts : lexed s ts -> lexed (skip_ws m es s) ts.
Proof.
  destruct 1 as [s Hv E|s ts Hv E H]; destruct (tok_skip s Hv) as [E1 E2].
  - apply lexed_end; [by apply skip_ws_valid|by rewrite E1].
  - rewrite <- E1. apply lexed_cons; [by apply skip_ws_valid|by rewrite E1|by rewrite E2].
Qed.
Lemma lexed_words s ts : lexed s ts -> Forall (fun t => tk_kind t = WORD -> word_span (tk_span t)) ts.
Proof. induction 1 as [|s ts Hv E _ IH]; constructor; [by apply tok_spec|done]. Qed.
(** At the end of the tokens the cursor is at the end of the line. *)
Lemma lexed_nil s : lexed s [] -> skip_ws m es s = es.
Proof.
  intros H. inversion H as [? Hv E|]; subst. pose proof (skip_while_spec (inset whitespace) s Hv) as (Hq & _). fold (skip_ws m es s) in Hq.
  destruct (decide (skip_ws m es s = es)) as [|Hne]; [done|]. exfalso. unfold tok in E.
  destruct (Z.eqb_spec (m (skip_ws m es s)) 0) as [E0|E0]; [apply (Hnz (skip_ws m es s)); [unfold valid in Hv; lia|done]|].
  destruct (inset _ _); [done|]. destruct (_ =? GREATER); [|done]. by destruct (_ =? GREATER).
Qed.

(** [peek] looks at the first character of the next token. *)
Definition first_of (t : token) : Z := if tk_kind t =? APPEND then GREATER else tk_kind t.
Lemma peek_run toks s ts :
  lexed s ts -> toks ⊆ symbols ->
  peek m es toks s = Ret (match ts with [] => false | t :: _ => inset toks (first_of t) end) (skip_ws m es s)
  /\ lexed (skip_ws m es s) ts.
Proof.
  intros H Ht. split; [|by apply lexed_skip]. unfold peek. f_equal. unfold truth.
  destruct H as [s Hv E|s ts Hv E H].
  - pose proof (lexed_nil s (lexed_end s Hv E)) as ->. by rewrite Hend.
  - unfold first_of, tok in *. set (c := m (skip_ws m es s)) in *. destruct (Z.eqb_spec c 0) as [|Ec]; [done|]. simpl.
    destruct (inset _ c) eqn:Hs; simpl in *.
    { assert (c <> APPEND) as Hne by (intros ->; by vm_compute in Hs). by rewrite (proj2 (Z.eqb_neq _ _) Hne). }
    destruct (Z.eqb_spec c GREATER) as [->|Eg]; simpl; [by destruct (_ =? GREATER)|].
    change (WORD =? APPEND) with false. cbv iota. unfold inset in *. apply bool_decide_eq_false in Hs.
    rewrite !bool_decide_eq_false_2; [done| |].
    + intros Hin%Ht. revert Hin. by apply (bool_decide_unpack (WORD ∉ symbols)).
    + intros Hin%Ht. unfold symbols in Hin. set_solver.
Qed.
End Lexer.

(** ** The grammar

    A line is pipelines separated by [;], each followed by any number of [&];
    a pipeline is items separated by [|]; an item is words and redirections in
    any order, or a parenthesised line followed by redirections. *)

Inductive gredir : token -> token -> redir -> Prop :=
| gr_in op f : tk_kind op = LESS -> tk_kind f = WORD -> gredir op f (Redir (tk_span f) O_RDONLY 0)
| gr_out op f : tk_kind op = GREATER -> tk_kind f = WORD ->
    gredir op f (Redir (tk_span f) (Z.lor (Z.lor O_WRONLY O_CREATE) O_TRUNC) 1)
| gr_append op f : tk_kind op = APPEND -> tk_kind f = WORD -> gredir op f (Redir (tk_span f) (Z.lor O_WRONLY O_CREATE) 1).

Inductive gsimple : list token -> list span -> list redir -> Prop :=
| gs_nil : gsimple [] [] []
| gs_word w ts a rs : tk_kind w = WORD -> gsimple ts a rs -> gsimple (w :: ts) (tk_span w :: a) rs
| gs_redir op f r ts a rs : gredir op f r -> gsimple ts a rs -> gsimple (op :: f :: ts) a (r :: rs).

Definition amps (ts : list token) : Prop := Forall (fun t => tk_kind t = AMP) ts.
Definition backs (n : nat) (c : cmd) : cmd := Nat.iter n BACK c.

Inductive gline : list token -> cmd -> Prop :=
| gl_one ts bs c : gpipe ts c -> amps bs -> gline (ts ++ bs) (backs (length bs) c)
| gl_seq ts bs c semi ts' c' :
    gpipe ts c -> amps bs -> tk_kind semi = SEMI -> gline ts' c' -> gline (ts ++ bs ++ semi :: ts') (LIST (backs (length bs) c) c')
with gpipe : list token -> cmd -> Prop :=
| gp_one ts c : gitem ts c -> gpipe ts c
| gp_bar ts c bar ts' c' : gitem ts c -> tk_kind bar = BAR -> gpipe ts' c' -> gpipe (ts ++ bar :: ts') (PIPE c c')
with gitem : list token -> cmd -> Prop :=
| gi_simple ts a rs : gsimple ts a rs -> (length a < MAXARGS)%nat -> gitem ts (wrap rs (EXEC a))
| gi_block lp ts c rp ts' rs :
    tk_kind lp = LPAREN -> gline ts c -> tk_kind rp = RPAREN -> gsimple ts' [] rs -> gitem (lp :: ts ++ rp :: ts') (wrap rs c).
Scheme gline_mut := Induction for gline Sort Prop
  with gpipe_mut := Induction for gpipe Sort Prop
  with gitem_mut := Induction for gitem Sort Prop.

Lemma gsimple_app t1 r1 t2 a r2 : gsimple t1 [] r1 -> gsimple t2 a r2 -> gsimple (t1 ++ t2) a (r1 ++ r2).
Proof.
  intros H1 H2. remember [] as a0 eqn:Ea. induction H1 as [|w ts a' rs Hw _ IH|op f r ts a' rs Hr _ IH]; [done|done|].
  simpl. constructor; [done|]. by apply IH.
Qed.
(** The redirections before the first word. *)
Definition starts_redir (ts : list token) : bool :=
  match ts with [] => false | t :: _ => inset [LESS; GREATER] (first_of t) end.
Lemma gsimple_split ts a rs :
  gsimple ts a rs -> exists t1 r1 t2 r2, ts = t1 ++ t2 /\ rs = r1 ++ r2 /\ gsimple t1 [] r1 /\ gsimple t2 a r2
    /\ (t2 = [] \/ exists w t3, t2 = w :: t3 /\ tk_kind w = WORD).
Proof.
  induction 1 as [|w ts a rs Hw H _|op f r ts a rs Hr H IH].
  - exists [], [], [], []. split_and!; try done; [constructor..|by left].
  - exists [], [], (w :: ts), rs. split_and!; try done; [constructor|by constructor|]. right. by exists w, ts.
  - destruct IH as (t1 & r1 & t2 & r2 & -> & -> & H1 & H2 & Hw). exists (op :: f :: t1), (r :: r1), t2, r2.
    split_and!; try done. by constructor.
Qed.

Lemma kind_word t : tk_kind t = WORD -> first_of t = WORD.
Proof. unfold first_of. by intros ->. Qed.
Lemma first_sym t k : tk_kind t = k -> k <> APPEND -> first_of t = k.
Proof. unfold first_of. intros -> H. by rewrite (proj2 (Z.eqb_neq _ _) H). Qed.
Lemma inset_true l c : inset l c = true <-> c ∈ l.
Proof. unfold inset. apply bool_decide_eq_true. Qed.
Lemma inset_false l c : inset l c = false <-> c ∉ l.
Proof. unfold inset. apply bool_decide_eq_false. Qed.

(** ** The parser and the grammar *)

Section Grammar.
Context (m : mem) (s0 es : Z) (Hend : m es = 0) (Hnz : forall a, s0 <= a < es -> m a <> 0).
Local Abbreviation lexed := (lexed m s0 es).

(** *** What the parser returns is derived

    The run returns or panics; if it returns, [P] holds of the result and the
    remaining tokens. *)
Definition good {A} (o : outcome Z A) (P : A -> list token -> Prop) : Prop :=
  match o with
  | Ret a s' => exists rest, lexed s' rest /\ P a rest
  | Panic _ => True
  | _ => False
  end.
Lemma good_bind {A B} (x : M Z A) (k : A -> M Z B) s P Q :
  good (x s) P -> (forall a s' rest, lexed s' rest -> P a rest -> good (k a s') Q) -> good (mthen x k s) Q.
Proof. unfold mthen. destruct (x s) as [a s'| | |]; try done. intros (rest & Hl & Hp) H. by eapply H. Qed.
Lemma good_ret {A} (a : A) s rest (P : A -> list token -> Prop) : lexed s rest -> P a rest -> good (mreturn a s) P.
Proof. intros. by exists rest. Qed.

Lemma good_peek toks s ts :
  lexed s ts -> toks ⊆ symbols ->
  good (peek m es toks s) (fun b rest => rest = ts /\ b = match ts with [] => false | t :: _ => inset toks (first_of t) end).
Proof. intros H Ht. destruct (peek_run m s0 es Hend Hnz toks s ts H Ht) as [-> Hl]. by exists ts. Qed.
Lemma good_gettoken s ts :
  lexed s ts ->
  good (gettoken m es s) (fun t rest => match ts with [] => tk_kind t = 0 /\ rest = [] | t' :: ts' => t = t' /\ rest = ts' /\ tk_kind t <> 0 end).
Proof.
  intros H. rewrite gettoken_run. simpl. destruct H as [s Hv E|s ts Hv E H]; [|by exists ts].
  exists []. split; [|done]. pose proof (lexed_nil m s0 es Hnz s (lexed_end m s0 es s Hv E)) as Hs.
  unfold after, tok. rewrite Hs. rewrite Hend. simpl.
  assert (skip_ws m es es = es) as Ee by (apply skip_while_stop; by left). rewrite Ee.
  apply lexed_end; [unfold valid in *; lia|]. unfold tok. by rewrite Ee, Hend.
Qed.

Ltac subs := intros x Hx; unfold symbols in *; set_solver.

Lemma good_redirs fuel s ts :
  lexed s ts -> (length ts < fuel)%nat ->
  good (parseredirs m es fuel s) (fun rs rest => exists used, ts = used ++ rest /\ gsimple used [] rs).
Proof.
  revert s ts. induction fuel as [|fuel IH]; intros s ts H Hf; [lia|]. cbn [parseredirs].
  eapply good_bind; [apply good_peek; [exact H|subs]|]. intros b s1 ? H1 [-> Hb]. destruct b; cbn [negb].
  2:{ eapply good_ret; [exact H1|]. exists []. split; [done|constructor]. }
  destruct ts as [|op ts]; [done|]. eapply good_bind; [by apply good_gettoken|]. intros t s2 ? H2 (-> & -> & Ho).
  eapply good_bind; [by apply good_gettoken|]. intros f s3 rest3 H3 Hft.
  destruct (Z.eqb_spec (tk_kind f) WORD) as [Hw|]; [|done]. cbn [negb].
  destruct ts as [|f' ts]; [destruct Hft as [Hz _]; by rewrite Hz in Hw|]. destruct Hft as (-> & -> & _).
  eapply good_bind; [apply IH; [exact H3|simpl in *; lia]|]. intros rs s4 rest H4 (used & -> & Hg).
  eapply good_ret; [exact H4|]. exists (op :: f' :: used). split; [done|].
  symmetry in Hb. rewrite inset_true in Hb. unfold first_of in Hb.
  destruct (Z.eqb_spec (tk_kind op) LESS); [by repeat constructor|].
  destruct (Z.eqb_spec (tk_kind op) GREATER); [by repeat constructor|].
  destruct (Z.eqb_spec (tk_kind op) APPEND); [by repeat constructor|]. set_solver.
Qed.

Lemma good_args fuel n s ts :
  lexed s ts -> (length ts < fuel)%nat -> (n < MAXARGS)%nat ->
  good (parseargs m es fuel n s) (fun x rest => exists used, ts = used ++ rest /\ gsimple used x.1 x.2 /\ (n + length x.1 < MAXARGS)%nat).
Proof.
  revert n s ts. induction fuel as [|fuel IH]; intros n s ts H Hf Hn; [lia|]. cbn [parseargs].
  assert (forall s1, lexed s1 ts -> good (mreturn ([], []) s1)
    (fun x rest => exists used, ts = used ++ rest /\ gsimple used x.1 x.2 /\ (n + length x.1 < MAXARGS)%nat)) as Hnil.
  { intros s1 H1. eapply good_ret; [exact H1|]. exists []. split_and!; [done|constructor|simpl; lia]. }
  eapply good_bind; [apply good_peek; [exact H|subs]|]. intros b s1 ? H1 [-> Hb]. destruct b; [by apply Hnil|].
  eapply good_bind; [by apply good_gettoken|]. intros w s2 rest2 H2 Hw.
  destruct ts as [|w' ts].
  { destruct Hw as [Hz ->]. rewrite Hz. by apply Hnil. }
  destruct Hw as (-> & -> & Hz). rewrite (proj2 (Z.eqb_neq _ _) Hz).
  destruct (Z.eqb_spec (tk_kind w') WORD) as [Hk|]; [|done]. cbn [negb].
  destruct (Nat.leb_spec MAXARGS (S n)); [done|].
  eapply good_bind; [apply good_redirs; [exact H2|simpl in *; lia]|]. intros rs s3 rest3 H3 (u1 & -> & G1).
  eapply good_bind; [apply IH; [exact H3|simpl in *; rewrite length_app in Hf; lia|lia]|]. intros [a rs2] s4 rest H4 (u2 & -> & G2 & Hl).
  eapply good_ret; [exact H4|]. exists (w' :: u1 ++ u2). simpl in *. split_and!; [by rewrite app_assoc| |lia].
  constructor; [done|]. by apply gsimple_app.
Qed.

Lemma good_back fuel c s ts :
  lexed s ts -> (length ts < fuel)%nat ->
  good (parseback m es fuel c s) (fun c' rest => exists bs, ts = bs ++ rest /\ amps bs /\ c' = backs (length bs) c).
Proof.
  revert c s ts. induction fuel as [|fuel IH]; intros c s ts H Hf; [lia|]. cbn [parseback].
  eapply good_bind; [apply good_peek; [exact H|subs]|]. intros b s1 ? H1 [-> Hb]. destruct b; cbn [negb].
  2:{ eapply good_ret; [exact H1|]. exists []. split_and!; [done|by apply Forall_nil|done]. }
  destruct ts as [|t ts]; [done|]. eapply good_bind; [by apply good_gettoken|]. intros t' s2 ? H2 (-> & -> & _).
  assert (tk_kind t = AMP) as Hk.
  { symmetry in Hb. rewrite inset_true, list_elem_of_singleton in Hb. unfold first_of in Hb. by destruct (tk_kind t =? APPEND). }
  assert (good (parseback m es fuel (BACK c) s2) (fun c' rest => exists bs, ts = bs ++ rest /\ amps bs /\ c' = backs (length bs) (BACK c))) as G
    by (apply IH; [exact H2|simpl in *; lia]).
  destruct (parseback m es fuel (BACK c) s2) as [c' s3| | |]; try done. destruct G as (rest & H3 & bs & -> & Ha & ->).
  exists rest. split; [done|]. exists (t :: bs). split_and!; [done|by constructor|]. unfold backs. simpl. by rewrite Nat.iter_swap.
Qed.

Definition derived (G : list token -> cmd -> Prop) (ts : list token) (c : cmd) (rest : list token) : Prop :=
  exists used, ts = used ++ rest /\ G used c.

Lemma good_parse fuel :
  (forall s ts, lexed s ts -> (4 * length ts + 4 <= fuel)%nat -> good (parseline m es fuel s) (derived gline ts))
  /\ (forall s ts, lexed s ts -> (4 * length ts + 3 <= fuel)%nat -> good (parsepipe m es fuel s) (derived gpipe ts))
  /\ (forall s ts, lexed s ts -> (4 * length ts + 2 <= fuel)%nat -> good (parseexec m es fuel s) (derived gitem ts))
  /\ (forall s ts t, lexed s (t :: ts) -> tk_kind t = LPAREN -> (4 * length (t :: ts) + 1 <= fuel)%nat ->
        good (parseblock m es fuel s) (derived gitem (t :: ts))).
Proof.
  induction fuel as [|fuel (IHl & IHp & IHe & IHb)]; [split_and!; intros; lia|]. split; [|split; [|split]].
  - intros s ts H Hf. cbn [parseline]. eapply good_bind; [apply IHp; [exact H|lia]|]. intros c s1 ? H1 (u1 & -> & G1).
    rewrite length_app in Hf. eapply good_bind; [apply good_back; [exact H1|lia]|]. intros c1 s2 ? H2 (bs & -> & Ha & ->).
    rewrite length_app in Hf. eapply good_bind; [apply good_peek; [exact H2|subs]|]. intros b s3 ? H3 [-> Hb]. destruct b; cbn [negb].
    2:{ eapply good_ret; [exact H3|]. exists (u1 ++ bs). rewrite app_assoc. split; [done|]. by constructor. }
    destruct rest0 as [|t ts]; [done|]. eapply good_bind; [by apply good_gettoken|]. intros t' s4 ? H4 (-> & -> & _).
    eapply good_bind; [apply IHl; [exact H4|simpl in *; lia]|]. intros c2 s5 rest H5 (u2 & -> & G2). eapply good_ret; [exact H5|].
    exists (u1 ++ bs ++ t :: u2). split; [by rewrite <- !app_assoc|]. apply gl_seq; try done.
    symmetry in Hb. rewrite inset_true, list_elem_of_singleton in Hb. unfold first_of in Hb. by destruct (tk_kind t =? APPEND).
  - intros s ts H Hf. cbn [parsepipe]. eapply good_bind; [apply IHe; [exact H|lia]|]. intros c s1 ? H1 (u1 & -> & G1).
    rewrite length_app in Hf. eapply good_bind; [apply good_peek; [exact H1|subs]|]. intros b s2 ? H2 [-> Hb]. destruct b; cbn [negb].
    2:{ eapply good_ret; [exact H2|]. exists u1. split; [done|]. by constructor. }
    destruct rest as [|t ts]; [done|]. eapply good_bind; [by apply good_gettoken|]. intros t' s3 ? H3 (-> & -> & _).
    eapply good_bind; [apply IHp; [exact H3|simpl in *; lia]|]. intros c2 s4 rest H4 (u2 & -> & G2). eapply good_ret; [exact H4|].
    exists (u1 ++ t :: u2). split; [by rewrite <- !app_assoc|]. apply gp_bar; try done.
    symmetry in Hb. rewrite inset_true, list_elem_of_singleton in Hb. unfold first_of in Hb. by destruct (tk_kind t =? APPEND).
  - intros s ts H Hf. cbn [parseexec]. eapply good_bind; [apply good_peek; [exact H|subs]|]. intros b s1 ? H1 [-> Hb]. destruct b.
    + destruct ts as [|t ts]; [done|]. apply IHb; [done| |lia].
      symmetry in Hb. rewrite inset_true, list_elem_of_singleton in Hb. unfold first_of in Hb. by destruct (tk_kind t =? APPEND).
    + eapply good_bind; [apply good_redirs; [exact H1|lia]|]. intros rs s2 ? H2 (u1 & -> & G1).
      rewrite length_app in Hf. eapply good_bind; [apply good_args; [exact H2|lia|unfold MAXARGS; lia]|]. intros [a rs2] s3 rest3 H3 (u2 & -> & G2 & Hl).
      eapply good_ret; [exact H3|]. exists (u1 ++ u2). split; [by rewrite app_assoc|]. apply gi_simple; [by apply gsimple_app|done].
  - intros s ts t H Hk Hf. cbn [parseblock]. eapply good_bind; [apply good_peek; [exact H|subs]|]. intros b s1 ? H1 [-> Hb]. destruct b; [|done]. cbn [negb].
    eapply good_bind; [by apply good_gettoken|]. intros t' s2 ? H2 (-> & -> & _).
    eapply good_bind; [apply IHl; [exact H2|simpl in *; lia]|]. intros c s3 ? H3 (u1 & -> & G1).
    eapply good_bind; [apply good_peek; [exact H3|subs]|]. intros b s4 ? H4 [-> Hb2]. destruct b; [|done]. cbn [negb].
    destruct rest as [|rp ts]; [done|]. eapply good_bind; [by apply good_gettoken|]. intros t' s5 ? H5 (-> & -> & _).
    eapply good_bind; [apply good_redirs; [exact H5|cbn [length] in Hf; rewrite !length_app in Hf; cbn [length] in Hf; lia]|]. intros rs s6 rest6 H6 (u2 & -> & G2).
    eapply good_ret; [exact H6|]. exists (t :: u1 ++ rp :: u2). split; [simpl; by rewrite <- !app_assoc|]. apply gi_block; try done.
    symmetry in Hb2. rewrite inset_true, list_elem_of_singleton in Hb2. unfold first_of in Hb2. by destruct (tk_kind rp =? APPEND).
Qed.
(** *** What is derived the parser returns *)

(** The run returns [a] and leaves [rest], if the fuel is enough. *)
Definition yields {A} (o : outcome Z A) (a : A) (rest : list token) : Prop :=
  o = Diverge \/ exists s', o = Ret a s' /\ lexed s' rest.
Lemma yields_bind {A B} (x : M Z A) (k : A -> M Z B) s a rest b rest' :
  yields (x s) a rest -> (forall s', lexed s' rest -> yields (k a s') b rest') -> yields (mthen x k s) b rest'.
Proof. unfold mthen. intros [-> |(s' & -> & Hl)] H; [by left|]. by apply H. Qed.
Lemma yields_ret {A} (a : A) s rest : lexed s rest -> yields (mreturn a s) a rest.
Proof. intros. right. by exists s. Qed.

(** [rest] is empty or starts with one of [K]. *)
Definition stops (K : list Z) (rest : list token) : Prop := match rest with [] => True | t :: _ => tk_kind t ∈ K end.
Lemma stops_mono K K' rest : stops K rest -> K ⊆ K' -> stops K' rest.
Proof. destruct rest; simpl; [done|]. intros H Hs. by apply Hs. Qed.

Definition apart_from (toks K : list Z) : bool := forallb (fun k => negb (inset toks (if k =? APPEND then GREATER else k))) K.
Lemma yields_peek_no K toks s ts :
  lexed s ts -> toks ⊆ symbols -> stops K ts -> apart_from toks K = true -> yields (peek m es toks s) false ts.
Proof.
  intros H Ht Hs Hk. destruct (peek_run m s0 es Hend Hnz toks s ts H Ht) as [-> Hl]. right. eexists. split; [|exact Hl]. f_equal.
  destruct ts as [|t ts]; [done|]. simpl in Hs. unfold apart_from in Hk. rewrite forallb_forall in Hk.
  apply list_elem_of_In, Hk, negb_true_iff in Hs. done.
Qed.
Lemma yields_peek_yes toks s t ts :
  lexed s (t :: ts) -> toks ⊆ symbols -> first_of t ∈ toks -> yields (peek m es toks s) true (t :: ts).
Proof.
  intros H Ht Hs. destruct (peek_run m s0 es Hend Hnz toks s _ H Ht) as [-> Hl]. right. eexists. split; [|exact Hl]. f_equal. by apply inset_true.
Qed.
Lemma yields_gettoken s t ts : lexed s (t :: ts) -> yields (gettoken m es s) t ts.
Proof. intros H. rewrite gettoken_run. inversion H; subst. right. by eexists. Qed.

Ltac yes := let H := fresh in eapply yields_bind; [apply yields_peek_yes; [eassumption|subs|]|intros ? H; cbn [negb]].
Ltac no K := let H := fresh in
  eapply yields_bind; [apply (yields_peek_no K); [eassumption|subs|try eassumption|reflexivity]|intros ? H; cbn [negb]].
Ltac next := eapply yields_bind; [apply yields_gettoken; eassumption|intros ? ?].
Ltac sym Hk := rewrite (first_sym _ _ Hk) by done; by apply inset_true.

Lemma yields_redirs fuel ts rs s rest :
  gsimple ts [] rs -> lexed s (ts ++ rest) -> stops [RPAREN; AMP; SEMI; BAR; WORD] rest -> yields (parseredirs m es fuel s) rs rest.
Proof.
  intros G. remember [] as a eqn:Ea. revert fuel s. induction G as [|w ts a rs Hw _ IH|op f r ts a rs Hr _ IH]; intros fuel s H Hs; [|done|];
    (destruct fuel as [|fuel]; [by left|]); cbn [parseredirs app] in *.
  - no [RPAREN; AMP; SEMI; BAR; WORD]. by apply yields_ret.
  - yes; [|next].
    { destruct Hr as [op f Ho _|op f Ho _|op f Ho _]; unfold first_of; rewrite Ho; by apply inset_true. }
    next. assert (tk_kind f = WORD) as Hf by (by destruct Hr). rewrite Hf. cbn [negb Z.eqb].
    change (WORD =? WORD) with true. cbn [negb].
    eapply yields_bind; [by apply IH|]. intros s4 H4.
    assert (forall x, x = r :: rs -> yields (mreturn x s4) (r :: rs) rest) as Hret by (intros x ->; by apply yields_ret).
    apply Hret. destruct Hr as [op f Ho _|op f Ho _|op f Ho _]; rewrite Ho; done.
Qed.

Lemma yields_args fuel ts a rs s rest n :
  gsimple ts a rs -> lexed s (ts ++ rest) -> stops [RPAREN; AMP; SEMI; BAR] rest -> (n + length a < MAXARGS)%nat ->
  (ts = [] \/ exists w t3, ts = w :: t3 /\ tk_kind w = WORD) -> yields (parseargs m es fuel n s) (a, rs) rest.
Proof.
  revert ts rs s n fuel. induction a as [|x a IH]; intros ts rs s n fuel G H Hs Hn Hw; (destruct fuel as [|fuel]; [by left|]); cbn [parseargs].
  - destruct Hw as [->|(w & t3 & -> & Hw)].
    2:{ inversion G as [| |op f r ? ? ? Hr]; subst. destruct Hr as [? ? E|? ? E|? ? E]; by rewrite Hw in E. }
    inversion G; subst. cbn [app] in H. destruct rest as [|t rest].
    + eapply yields_bind; [by apply (yields_peek_no [WORD]); [exact H|subs| |]|]. intros s1 H1. cbn [negb]. rewrite (mthen_ret _ _ _ _ _ (gettoken_run m es s1)).
      pose proof (good_gettoken s1 [] H1) as Hg. rewrite gettoken_run in Hg. simpl in Hg. destruct Hg as (r0 & Hl & Hk & ->).
      rewrite Hk. right. by eexists.
    + yes; [|by apply yields_ret]. simpl in Hs. rewrite !elem_of_cons, elem_of_nil in Hs.
      unfold first_of. destruct Hs as [->|[->|[->|[->|[]]]]]; by apply inset_true.
  - destruct Hw as [->|(w & t3 & -> & Hw)]; [by inversion G|].
    inversion G as [|? ? ? ? _ G'|op f r ? ? ? Hr]; subst; [|destruct Hr as [? ? E|? ? E|? ? E]; by rewrite Hw in E].
    apply gsimple_split in G' as (t1 & r1 & t2 & r2 & -> & -> & G1 & G2 & Hw2). cbn [app] in H.
    no [WORD]; [simpl; rewrite Hw; by apply inset_true|]. next. rewrite Hw. change (WORD =? 0) with false. change (WORD =? WORD) with true. cbn [negb].
    simpl in Hn. rewrite (proj2 (Nat.leb_gt _ _)) by lia. rewrite <- app_assoc in *.
    eapply yields_bind; [eapply yields_redirs; [exact G1|eassumption|]|].
    { destruct Hw2 as [->|(w2 & t4 & -> & Hw2)]; [eapply stops_mono; [exact Hs|set_solver]|]. simpl. rewrite Hw2. by apply inset_true. }
    intros s4 H4. eapply yields_bind; [eapply IH; [exact G2|exact H4|done|lia|done]|]. intros s5 H5. by apply yields_ret.
Qed.

Lemma yields_back fuel c bs s rest :
  amps bs -> lexed s (bs ++ rest) -> stops [RPAREN; SEMI] rest -> yields (parseback m es fuel c s) (backs (length bs) c) rest.
Proof.
  intros Ha. revert fuel c s. induction Ha as [|t bs Ht _ IH]; intros fuel c s H Hs; (destruct fuel as [|fuel]; [by left|]); cbn [parseback app] in *.
  - no [RPAREN; SEMI]. by apply yields_ret.
  - yes; [sym Ht|next]. replace (backs (length (t :: bs)) c) with (backs (length bs) (BACK c)) by (unfold backs; simpl; by rewrite Nat.iter_swap).
    by apply IH.
Qed.

Lemma yields_parse ts c :
  gline ts c -> forall fuel s rest, lexed s (ts ++ rest) -> stops [RPAREN] rest -> yields (parseline m es fuel s) c rest.
Proof.
  intros G. induction G using gline_mut with
    (P0 := fun ts c _ => forall fuel s rest, lexed s (ts ++ rest) -> stops [RPAREN; AMP; SEMI] rest -> yields (parsepipe m es fuel s) c rest)
    (P1 := fun ts c _ => forall fuel s rest, lexed s (ts ++ rest) -> stops [RPAREN; AMP; SEMI; BAR] rest -> yields (parseexec m es fuel s) c rest);
    intros fuel s rest H Hs; (destruct fuel as [|fuel]; [by left|]); cbn [parseline parsepipe parseexec].
  - rewrite <- app_assoc in H. eapply yields_bind; [apply IHG; [exact H|]|].
    { destruct bs as [|t bs]; [eapply stops_mono; [exact Hs|set_solver]|]. apply Forall_cons in a as [Ht _]. simpl. rewrite Ht. by apply inset_true. }
    intros s1 H1. eapply yields_bind; [apply yields_back; [done|exact H1|eapply stops_mono; [exact Hs|set_solver]]|]. intros s2 H2.
    no [RPAREN]. by apply yields_ret.
  - rewrite <- !app_assoc in H. cbn [app] in H. eapply yields_bind; [apply IHG; [exact H|]|].
    { destruct bs as [|t bs]; [simpl; rewrite e; by apply inset_true|]. apply Forall_cons in a as [Ht _]. simpl. rewrite Ht. by apply inset_true. }
    intros s1 H1. eapply yields_bind; [apply yields_back; [done|exact H1|simpl; rewrite e; by apply inset_true]|]. intros s2 H2.
    yes; [sym e|next]. eapply yields_bind; [by apply IHG0|]. intros s5 H5. by apply yields_ret.
  - eapply yields_bind; [apply IHG; [exact H|eapply stops_mono; [exact Hs|set_solver]]|]. intros s1 H1.
    no [RPAREN; AMP; SEMI]. by apply yields_ret.
  - rewrite <- app_assoc in H. cbn [app] in H. eapply yields_bind; [apply IHG; [exact H|simpl; rewrite e; by apply inset_true]|]. intros s1 H1.
    yes; [sym e|next]. eapply yields_bind; [by apply IHG0|]. intros s5 H5. by apply yields_ret.
  - apply gsimple_split in g as (t1 & r1 & t2 & r2 & -> & -> & G1 & G2 & Hw). rewrite <- app_assoc in H.
    assert (stops [RPAREN; AMP; SEMI; BAR; WORD] (t2 ++ rest)) as Hst.
    { destruct Hw as [->|(w & t3 & -> & Hw)]; [eapply stops_mono; [exact Hs|set_solver]|]. simpl. rewrite Hw. by apply inset_true. }
    assert (stops [RPAREN; AMP; SEMI; BAR; WORD; LESS; GREATER; APPEND] (t1 ++ t2 ++ rest)) as Hst0.
    { inversion G1 as [| |op f r ? ? ? Hr]; subst; [eapply stops_mono; [exact Hst|set_solver]|]. simpl.
      destruct Hr as [? ? E|? ? E|? ? E]; rewrite E; by apply inset_true. }
    no [RPAREN; AMP; SEMI; BAR; WORD; LESS; GREATER; APPEND].
    eapply yields_bind; [eapply yields_redirs; [exact G1|eassumption|exact Hst]|]. intros s2 H2.
    eapply yields_bind; [eapply yields_args; [exact G2|exact H2|done|done|done]|]. intros s3 H3. by apply yields_ret.
  - cbn [app] in H. rewrite <- app_assoc in H. cbn [app] in H. yes; [sym e|]. destruct fuel as [|fuel]; [by left|]. cbn [parseblock].
    yes; [sym e|next]. eapply yields_bind; [apply IHG; [eassumption|simpl; rewrite e0; by apply inset_true]|]. intros s4 H4.
    yes; [sym e0|next]. eapply yields_bind; [eapply yields_redirs; [eassumption|eassumption|eapply stops_mono; [exact Hs|set_solver]]|].
    intros s7 H7. by apply yields_ret.
Qed.
End Grammar.

(** ** Parsing a line *)

(** The words of a command as the strings they point to. *)
Fixpoint spans (c : cmd) : list span :=
  match c with
  | EXEC argv => argv
  | REDIR c f _ _ => spans c ++ [f]
  | PIPE l r | LIST l r => spans l ++ spans r
  | BACK c => spans c
  end.

Lemma spans_wrap rs c : spans (wrap rs c) = spans c ++ (rd_file <$> rs).
Proof. unfold wrap. revert c. induction rs as [|r rs IH]; intros c; simpl; [by rewrite app_nil_r|]. rewrite IH. simpl. by rewrite <- app_assoc. Qed.
Lemma spans_backs n c : spans (backs n c) = spans c.
Proof. induction n; simpl; done. Qed.

Definition words_of (ts : list token) (a : span) : Prop := exists t, t ∈ ts /\ tk_kind t = WORD /\ tk_span t = a.
Lemma gsimple_words ts a rs : gsimple ts a rs -> Forall (words_of ts) (a ++ (rd_file <$> rs)).
Proof.
  assert (forall t ts l, Forall (words_of ts) l -> Forall (words_of (t :: ts)) l) as Hmono.
  { intros t ts' l H. eapply Forall_impl; [exact H|]. intros x (t' & ? & ?). exists t'. split; [by right|done]. }
  induction 1 as [|w ts a rs Hw _ IH|op f r ts a rs Hr _ IH]; simpl; [done| |].
  - constructor; [exists w; split; [left|done]|by apply Hmono].
  - apply Forall_app in IH as [I1 I2]. apply Forall_app. split; [by apply Hmono, Hmono|]. constructor; [|by apply Hmono, Hmono].
    exists f. destruct Hr; (split; [right; left|done]).
Qed.
Lemma gline_words ts c : gline ts c -> Forall (words_of ts) (spans c).
Proof.
  assert (forall ts ts' l, Forall (words_of ts) l -> ts ⊆ ts' -> Forall (words_of ts') l) as Hmono.
  { intros ts0 ts' l H Hs. eapply Forall_impl; [exact H|]. intros x (t' & ? & ?). exists t'. split; [by apply Hs|done]. }
  intros G. induction G using gline_mut with (P0 := fun ts c _ => Forall (words_of ts) (spans c)) (P1 := fun ts c _ => Forall (words_of ts) (spans c));
    rewrite ?spans_wrap, ?spans_backs; simpl; rewrite ?spans_backs; try done.
  - eapply Hmono; [exact IHG|set_solver].
  - apply Forall_app. split; [eapply Hmono; [exact IHG|set_solver]|eapply Hmono; [exact IHG0|set_solver]].
  - apply Forall_app. split; [eapply Hmono; [exact IHG|set_solver]|eapply Hmono; [exact IHG0|set_solver]].
  - by apply gsimple_words in g.
  - apply Forall_app. split; [eapply Hmono; [exact IHG|set_solver]|]. apply gsimple_words in g. eapply Hmono; [exact g|set_solver].
Qed.

(** [nulterminate] stores in the order of [spans]. *)
Definition end_span (m : mem) (a : span) : mem := store8 m a.2 0.
Lemma nulterminate_fold c m : nulterminate c m = fold_left end_span (spans c) m.
Proof. revert m. induction c as [|c IH|l IHl r IHr|l IHl r IHr|]; intros m; simpl; rewrite ?fold_left_app, ?IH, ?IHr, ?IHl; done. Qed.
Lemma nulterminate_at c m x : nulterminate c m x = if decide (x ∈ (spans c).*2) then 0 else m x.
Proof.
  rewrite nulterminate_fold. generalize (spans c) as l. intros l. revert m. induction l as [|a l IH]; intros m.
  - done.
  - cbn [fold_left]. rewrite IH, fmap_cons. unfold end_span, store8. destruct (decide (x ∈ l.*2)) as [Hi|Hi].
    + rewrite decide_True; [done|]. by right.
    + destruct (Z.eqb_spec x a.2) as [->|Hn]; [rewrite decide_True; [done|left]|rewrite decide_False; [done|]].
      intros [?|?]%elem_of_cons; done.
Qed.

(** Ending words does not damage other words. *)
Lemma terminated m s0 es c a :
  Forall (word_span m s0 es) (spans c) -> a ∈ spans c -> cstr (nulterminate c m) a.1 (mbytes m a.1 (a.2 - a.1)).
Proof.
  intros Hall Ha. assert (forall x, word_char (m x) = true -> nulterminate c m x = m x) as Hkeep.
  { intros x Hx. rewrite nulterminate_at. rewrite decide_False; [done|]. intros (b & -> & Hb)%list_elem_of_fmap.
    rewrite Forall_forall in Hall. destruct (Hall b Hb) as (_ & _ & _ & E). congruence. }
  rewrite Forall_forall in Hall. destruct (Hall a Ha) as (H1 & H2 & H3 & _).
  assert (forall x, a.1 <= x < a.2 -> nulterminate c m x = m x /\ m x <> 0) as Hin.
  { intros x Hx. split; [by apply Hkeep, H3|]. intros E. specialize (H3 x Hx). by rewrite E in H3. }
  rewrite <- (app_nil_r (mbytes m a.1 (a.2 - a.1))). apply cstr_app. unfold mbytes. rewrite length_fmap, length_seq. split; [|split].
  - rewrite Nat2Z.id. apply list_fmap_ext. intros i y [-> Hi]%lookup_seq. apply Hin. lia.
  - apply Forall_fmap, Forall_forall. intros i Hi%elem_of_seq. simpl. apply Hin. lia.
  - simpl. rewrite nulterminate_at, decide_True; [done|]. apply list_elem_of_fmap. exists a. split; [lia|done].
Qed.

Fixpoint args_bounded (c : cmd) : Prop :=
  match c with
  | EXEC argv => (length argv < MAXARGS)%nat
  | REDIR c _ _ _ | BACK c => args_bounded c
  | PIPE l r | LIST l r => args_bounded l /\ args_bounded r
  end.
Lemma args_wrap rs c : args_bounded c -> args_bounded (wrap rs c).
Proof. unfold wrap. revert c. induction rs as [|r rs IH]; intros c H; simpl; [done|]. by apply IH. Qed.
Lemma args_backs n c : args_bounded c -> args_bounded (backs n c).
Proof. intros H. by induction n. Qed.
Lemma gline_args ts c : gline ts c -> args_bounded c.
Proof.
  intros G. induction G using gline_mut with (P0 := fun _ c _ => args_bounded c) (P1 := fun _ c _ => args_bounded c); simpl;
    auto using args_wrap, args_backs.
Qed.

Section Line.
Context (m : mem) (s : Z) (l : list Z) (Hl : cstr m s l).
Definition line_end : Z := s + Z.of_nat (length l).

Lemma line_nul : m line_end = 0.
Proof. by apply cstr_nul. Qed.
Lemma line_char a : s <= a < line_end -> m a <> 0.
Proof.
  unfold line_end. intros Ha. destruct (lookup_lt_is_Some_2 l (Z.to_nat (a - s))) as [c Hc]; [lia|].
  pose proof (cstr_lookup _ _ _ _ _ Hl Hc) as E. replace (s + Z.of_nat (Z.to_nat (a - s))) with a in E by lia. rewrite E.
  pose proof (cstr_nonzero _ _ _ Hl) as Hz. rewrite Forall_forall in Hz. by eapply Hz, list_elem_of_lookup_2.
Qed.
Lemma line_valid : valid s line_end s.
Proof. unfold valid, line_end. lia. Qed.
Lemma line_lexed : exists ts, lexed m s line_end s ts /\ (length ts <= length l)%nat.
Proof.
  destruct (lexed_total m s line_end line_nul line_char s line_valid) as (ts & H & Hn). exists ts. split; [done|]. unfold line_end in Hn. lia.
Qed.
Lemma lexed_at_end ts : lexed m s line_end line_end ts -> ts = [].
Proof.
  assert (tk_kind (tok m line_end line_end) = 0) as E.
  { unfold tok. assert (skip_ws m line_end line_end = line_end) as -> by (apply skip_while_stop; by left). by rewrite line_nul. }
  intros H. by inversion H.
Qed.
Lemma lexed_fun x ts ts' : lexed m s line_end x ts -> lexed m s line_end x ts' -> ts = ts'.
Proof. intros H. revert ts'. induction H as [x Hv E|x ts Hv E _ IH]; intros ts' H'; inversion H'; subst; try done. f_equal. by apply IH. Qed.

Lemma parsecmd_good fuel ts :
  lexed m s line_end s ts -> (4 * length ts + 4 <= fuel)%nat ->
  match parsecmd fuel m s line_end with
  | Ret (c, m') _ => gline ts c /\ m' = nulterminate c m
  | Panic _ => True
  | _ => False
  end.
Proof.
  intros Hts Hf. pose proof (proj1 (good_parse m s line_end line_nul line_char fuel) s ts Hts Hf) as G. unfold parsecmd.
  destruct (parseline m line_end fuel s) as [c s1|msg| |] eqn:R; [|unfold mthen; by rewrite R|done..].
  rewrite (mthen_ret _ _ _ _ _ R). destruct G as (rest & H1 & used & -> & G).
  destruct (peek_run m s line_end line_nul line_char [] s1 rest H1) as [Rp H2]; [set_solver|].
  rewrite (mthen_ret _ _ _ _ _ Rp), mthen_gets. destruct (Z.eqb_spec (skip_ws m line_end s1) line_end) as [E|]; [|done]. simpl.
  rewrite E in H2. apply lexed_at_end in H2 as ->. by rewrite app_nil_r.
Qed.

(** C19: parsing stops.  For every line, with fuel of four times its length,
    [parsecmd] returns a command or reports a syntax error: no loop of the
    lexer and no recursion of the parser runs on. *)
Theorem parsecmd_terminates fuel :
  (4 * length l + 4 <= fuel)%nat ->
  (exists c m' s', parsecmd fuel m s line_end = Ret (c, m') s') \/ (exists msg, parsecmd fuel m s line_end = Panic msg).
Proof.
  intros Hf. destruct line_lexed as (ts & Hts & Hn). pose proof (parsecmd_good fuel ts Hts ltac:(lia)) as G.
  destruct (parsecmd fuel m s line_end) as [[c m'] s'|msg| |]; [left; by eexists _, _, _|right; by eexists|done..].
Qed.

(** C17: the parser implements the grammar.  It returns a command exactly when
    the tokens of the line form a sentence, and then the command is the one
    the grammar gives the sentence; every other line is a syntax error. *)
Theorem parsecmd_grammar fuel ts c m' :
  lexed m s line_end s ts -> (4 * length l + 4 <= fuel)%nat ->
  (exists s', parsecmd fuel m s line_end = Ret (c, m') s') <-> gline ts c /\ m' = nulterminate c m.
Proof.
  intros Hts Hf. destruct line_lexed as (ts' & Hts' & Hn). rewrite <- (lexed_fun _ _ _ Hts Hts') in Hn.
  pose proof (parsecmd_good fuel ts Hts ltac:(lia)) as G. split; [intros [s' R]; by rewrite R in G|]. intros [Hg ->].
  pose proof (proj1 (good_parse m s line_end line_nul line_char fuel) s ts Hts ltac:(lia)) as Gp.
  rewrite <- (app_nil_r ts) in Hts. destruct (yields_parse m s line_end line_nul line_char ts c Hg fuel s [] Hts I) as [E|(s1 & R & H1)]; [by rewrite E in Gp|].
  unfold parsecmd in *. rewrite (mthen_ret _ _ _ _ _ R) in *.
  destruct (peek_run m s line_end line_nul line_char [] s1 [] H1) as [Rp H2]; [set_solver|].
  rewrite (mthen_ret _ _ _ _ _ Rp), mthen_gets in *. rewrite (lexed_nil _ _ _ line_char _ H1), Z.eqb_refl. by eexists.
Qed.

(** C18: a parsed command is well-formed.  Each argument list has fewer than
    [MAXARGS] entries, leaving room for the null that ends it, and each argument
    and file name is a non-empty word of the line, which [nulterminate] has
    turned into a string of exactly its characters. *)
Theorem parsecmd_wellformed fuel c m' s' :
  (4 * length l + 4 <= fuel)%nat -> parsecmd fuel m s line_end = Ret (c, m') s' ->
  args_bounded c /\ Forall (fun a => word_span m s line_end a /\ cstr m' a.1 (mbytes m a.1 (a.2 - a.1))) (spans c).
Proof.
  intros Hf R. destruct line_lexed as (ts & Hts & Hn). pose proof (parsecmd_good fuel ts Hts ltac:(lia)) as G. rewrite R in G.
  destruct G as [G ->]. split; [by eapply gline_args|].
  assert (Forall (word_span m s line_end) (spans c)) as Hw.
  { eapply Forall_impl; [by apply gline_words|]. intros a (t & Ht & Hk & <-).
    pose proof (lexed_words m s line_end line_nul line_char _ _ Hts) as Hall. rewrite Forall_forall in Hall. by apply Hall. }
  apply Forall_forall. intros a Ha. split; [by eapply Forall_forall in Hw|]. by eapply terminated.
Qed.
End Line.

(** The line [ls -l|(a;b>f)&]. *)
Module ShDemo.
Definition line : list Z := [108; 115; 32; 45; 108; 124; 40; 97; 59; 98; 62; 102; 41; 38].
Definition memory : mem := fun a => nth (Z.to_nat (a - 100)) line 0.
Lemma memory_line : cstr memory 100 line.
Proof. vm_compute. by split_and!. Qed.
Definition parsed : cmd :=
  BACK (PIPE (EXEC [(100, 102); (103, 105)])
             (LIST (EXEC [(107, 108)]) (REDIR (EXEC [(109, 110)]) (111, 112) 0x601 1))).
Definition result : option (cmd * Z) :=
  match parsecmd 100 memory 100 114 with Ret (c, _) s => Some (c, s) | _ => None end.
Lemma result_parsed : result = Some (parsed, 114).
Proof. vm_compute. reflexivity. Qed.
End ShDemo.

Lemma parsecmd_terminates_witness :
  (exists c m' s', parsecmd 100 ShDemo.memory 100 114 = Ret (c, m') s') \/ (exists msg, parsecmd 100 ShDemo.memory 100 114 = Panic msg).
Proof. apply (parsecmd_terminates _ _ _ ShDemo.memory_line 100). simpl. lia. Defined.
Lemma parsecmd_wellformed_witness :
  exists m' s', parsecmd 100 ShDemo.memory 100 114 = Ret (ShDemo.parsed, m') s' /\ args_bounded ShDemo.parsed
    /\ Forall (fun a => word_span ShDemo.memory 100 114 a /\ cstr m' a.1 (mbytes ShDemo.memory a.1 (a.2 - a.1))) (spans ShDemo.parsed).
Proof.
  pose proof ShDemo.result_parsed as E. unfold ShDemo.result in E.
  destruct (parsecmd 100 ShDemo.memory 100 114) as [[c m'] s'| | |] eqn:R; try discriminate E. injection E as -> ->.
  exists m', 114. split; [reflexivity|]. apply (parsecmd_wellformed _ _ _ ShDemo.memory_line 100 _ _ 114); [simpl; lia|exact R].
Defined.
Lemma parsecmd_grammar_witness :
  exists ts, lexed ShDemo.memory 100 114 100 ts /\ gline ts ShDemo.parsed.
Proof.
  destruct (line_lexed _ _ _ ShDemo.memory_line) as (ts & Hts & _). exists ts. split; [exact Hts|].
  pose proof ShDemo.result_parsed as E. unfold ShDemo.result in E.
  destruct (parsecmd 100 ShDemo.memory 100 114) as [[c m'] s'| | |] eqn:R; try discriminate E. injection E as -> ->.
  apply (parsecmd_grammar _ _ _ ShDemo.memory_line 100 ts ShDemo.parsed m' Hts); [simpl; lia|]. exists 114. exact R.
Defined.
