(* ===== verification/ShRun.v ===== *)
(** What the shell's commands are connected to: the descriptors of every
    program a command starts. *)

From S2P Require Import Prelude.
From S2P Require Import KString.
From S2P Require Import Ulib.
From S2P Require Import Sh.
From S2P Require Import ShProof.

(** ** Descriptors

    The open files of a process by descriptor.  [open], [dup] and [pipe] take
    the lowest free one, as fdalloc of sysfile.c does.  A pipe has the number
    it was created under. *)
Inductive desc := DGiven (k : nat) | DFile (file : span) (mode : Z) | DPipeRead (n : nat) | DPipeWrite (n : nat).
Definition fdtable : Type := list (option desc).
Definition NOFILE : nat := 16.

Fixpoint lowest_from (i : nat) (t : fdtable) : option nat :=
  match t with
  | [] => None
  | None :: _ => Some i
  | Some _ :: t' => lowest_from (S i) t'
  end.
Definition fd_add (d : desc) (t : fdtable) : option (nat * fdtable) :=
  i ← lowest_from 0 t; Some (i, <[i := Some d]> t).
Definition fd_get (fd : nat) (t : fdtable) : option desc := mjoin (t !! fd).

(** ** Runs

    How each process of a command ends: it becomes a program, with its
    arguments and the table the program starts with; it exits; or it writes a
    message to what its descriptor 2 is, and exits with 1. *)
Inductive ending :=
| Started (argv : list span) (t : fdtable)
| Ended (status : Z)
| Complained (to : option desc) (before : string) (word : option span) (after : string).

(** [runs p t n l n']: with table [t] and [n] pipes created so far, the
    processes of [p] can end as [l], with [n'] pipes created.  Every [fork],
    [open], [pipe] and [exec] may succeed or fail; [open] and [pipe] fail when
    the table is full, and [dup] fails only then.  A process and its child
    share nothing but the pipes, so their order does not matter. *)
Inductive runs : prog -> fdtable -> nat -> list ending -> nat -> Prop :=
| rs_exit status t n : runs (PExit status) t n [Ended status] n
| rs_fail before word after t n : runs (PFail before word after) t n [Complained (fd_get 2 t) before word after] n
| rs_exec argv failed t n : runs (PExec argv failed) t n [Started argv t] n
| rs_no_exec argv failed t n l n' : runs failed t n l n' -> runs (PExec argv failed) t n l n'
| rs_close fd k t n l n' : runs k (<[fd := None]> t) n l n' -> runs (PClose fd k) t n l n'
| rs_open file mode ok failed fd t t' n l n' :
    fd_add (DFile file mode) t = Some (fd, t') -> runs ok t' n l n' -> runs (POpen file mode ok failed) t n l n'
| rs_no_open file mode ok failed t n l n' : runs failed t n l n' -> runs (POpen file mode ok failed) t n l n'
| rs_dup fd d fd' k t t' n l n' :
    fd_get fd t = Some d -> fd_add d t = Some (fd', t') -> runs k t' n l n' -> runs (PDup fd k) t n l n'
| rs_no_dup fd k t n l n' : (d ← fd_get fd t; fd_add d t) = None -> runs k t n l n' -> runs (PDup fd k) t n l n'
| rs_pipe ok failed r w t t1 t2 n l n' :
    fd_add (DPipeRead n) t = Some (r, t1) -> fd_add (DPipeWrite n) t1 = Some (w, t2) ->
    runs (ok r w) t2 (S n) l n' -> runs (PPipe ok failed) t n l n'
| rs_no_pipe ok failed t n l n' : runs failed t n l n' -> runs (PPipe ok failed) t n l n'
| rs_fork child parent failed t n l1 n1 l2 n2 :
    runs child t n l1 n1 -> runs parent t n1 l2 n2 -> runs (PFork child parent failed) t n (l1 ++ l2) n2
| rs_no_fork child parent failed t n l n' : runs failed t n l n' -> runs (PFork child parent failed) t n l n'
| rs_wait k t n l n' : runs k t n l n' -> runs (PWait k) t n l n'.

(** ** What a command means

    [outcome c i o e n l n']: the processes of [c] end as [l] when its standard
    input, output and error are [i], [o] and [e].  Every program starts with
    those three and nothing else open.  What cannot be opened, started or
    forked is reported to [e], and the command it was for is not run. *)
Definition std (i o e : desc) : fdtable := Some i :: Some o :: Some e :: replicate 13 None.
Definition complaint (e : desc) (before : string) (word : option span) (after : string) : list ending :=
  [Complained (Some e) before word after].
Inductive outcome : cmd -> desc -> desc -> desc -> nat -> list ending -> nat -> Prop :=
| oc_empty i o e n : outcome (EXEC []) i o e n [Ended 1] n
| oc_exec a argv i o e n : outcome (EXEC (a :: argv)) i o e n [Started (a :: argv) (std i o e)] n
| oc_no_exec a argv i o e n : outcome (EXEC (a :: argv)) i o e n (complaint e "exec " (Some a) " failed") n
| oc_input c file mode i o e n l n' :
    outcome c (DFile file mode) o e n l n' -> outcome (REDIR c file mode 0) i o e n l n'
| oc_output c file mode i o e n l n' :
    outcome c i (DFile file mode) e n l n' -> outcome (REDIR c file mode 1) i o e n l n'
| oc_no_open c file mode fd i o e n :
    outcome (REDIR c file mode fd) i o e n (complaint e "open " (Some file) " failed") n
| oc_list a b i o e n l1 n1 l2 n2 :
    outcome a i o e n l1 n1 -> outcome b i o e n1 l2 n2 -> outcome (LIST a b) i o e n (l1 ++ l2) n2
| oc_no_list a b i o e n : outcome (LIST a b) i o e n (complaint e "fork" None "") n
| oc_pipe a b i o e n l1 n1 l2 n2 :
    outcome a i (DPipeWrite n) e (S n) l1 n1 -> outcome b (DPipeRead n) o e n1 l2 n2 ->
    outcome (PIPE a b) i o e n (l1 ++ l2 ++ [Ended 0]) n2
| oc_no_pipe a b i o e n : outcome (PIPE a b) i o e n (complaint e "pipe" None "") n
| oc_no_writer a b i o e n : outcome (PIPE a b) i o e n (complaint e "fork" None "") (S n)
| oc_no_reader a b i o e n l1 n1 :
    outcome a i (DPipeWrite n) e (S n) l1 n1 -> outcome (PIPE a b) i o e n (l1 ++ complaint e "fork" None "") n1
| oc_back c i o e n l n' : outcome c i o e n l n' -> outcome (BACK c) i o e n (l ++ [Ended 0]) n'
| oc_no_back c i o e n : outcome (BACK c) i o e n (complaint e "fork" None "") n.
#[local] Hint Constructors runs outcome : core.
(** The table between the creation of pipe [n] and the two forks. *)
Definition piped (i o e : desc) (n : nat) : fdtable :=
  Some i :: Some o :: Some e :: Some (DPipeRead n) :: Some (DPipeWrite n) :: replicate 11 None.

(** Redirections are of descriptor 0 or 1, which is all the parser makes. *)
Fixpoint redirs_std (c : cmd) : Prop :=
  match c with
  | EXEC _ => True
  | REDIR c _ _ fd => (fd = 0 \/ fd = 1) /\ redirs_std c
  | PIPE l r | LIST l r => redirs_std l /\ redirs_std r
  | BACK c => redirs_std c
  end.

(** The calls of a program, one at a time. *)
Lemma runs_close fd k t n l n' : runs (PClose fd k) t n l n' <-> runs k (<[fd := None]> t) n l n'.
Proof. split; [by inversion 1|by constructor]. Qed.
Lemma runs_dup fd d fd' k t t' n l n' :
  fd_get fd t = Some d -> fd_add d t = Some (fd', t') -> runs (PDup fd k) t n l n' <-> runs k t' n l n'.
Proof.
  intros Hd Ha. split; [|by eapply rs_dup]. inversion 1; subst; [congruence|]. rewrite Hd in *. cbn in *. congruence.
Qed.
Lemma runs_wait k t n l n' : runs (PWait k) t n l n' <-> runs k t n l n'.
Proof. split; [by inversion 1|by constructor]. Qed.
Lemma runs_exit status t n l n' : runs (PExit status) t n l n' <-> l = [Ended status] /\ n' = n.
Proof. split; [by inversion 1|intros [-> ->]; by constructor]. Qed.
Lemma runs_fail e before word after t n l n' :
  fd_get 2 t = Some e -> runs (PFail before word after) t n l n' <-> l = complaint e before word after /\ n' = n.
Proof. intros He. split; [inversion 1; subst; by rewrite He|]. intros [-> ->]. unfold complaint. rewrite <- He. constructor. Qed.
Lemma runs_fork child parent t n l n' :
  runs (fork1 child parent) t n l n' <->
  (exists l1 n1 l2, l = l1 ++ l2 /\ runs child t n l1 n1 /\ runs parent t n1 l2 n')
  \/ runs (sh_panic "fork") t n l n'.
Proof. unfold fork1. split; [inversion 1; subst; eauto 10|]. intros [(l1 & n1 & l2 & -> & ? & ?)|?]; eauto. Qed.
Lemma runs_exec argv failed t n l n' :
  runs (PExec argv failed) t n l n' <-> (l = [Started argv t] /\ n' = n) \/ runs failed t n l n'.
Proof. split; [inversion 1; subst; auto|intros [[-> ->]|?]; auto]. Qed.
Lemma runs_open file mode ok failed fd t t' n l n' :
  fd_add (DFile file mode) t = Some (fd, t') ->
  runs (POpen file mode ok failed) t n l n' <-> runs ok t' n l n' \/ runs failed t n l n'.
Proof. intros Ha. split; [inversion 1; subst; [left; congruence|by right]|intros [?|?]; eauto]. Qed.
Lemma runs_pipe ok failed r w t t1 t2 n l n' :
  fd_add (DPipeRead n) t = Some (r, t1) -> fd_add (DPipeWrite n) t1 = Some (w, t2) ->
  runs (PPipe ok failed) t n l n' <-> runs (ok r w) t2 (S n) l n' \/ runs failed t n l n'.
Proof. intros H1 H2. split; [inversion 1; subst; [left; congruence|by right]|intros [?|?]; eauto]. Qed.

Lemma runs_writer k i o e n n0 l n' :
  runs (PClose 1 (PDup 4 (PClose 3 (PClose 4 k)))) (piped i o e n) n0 l n' <-> runs k (std i (DPipeWrite n) e) n0 l n'.
Proof. rewrite runs_close, (runs_dup _ (DPipeWrite n) 1 _ _ (Some i :: Some (DPipeWrite n) :: drop 2 (piped i o e n))) by done. by rewrite !runs_close. Qed.
Lemma runs_reader k i o e n n0 l n' :
  runs (PClose 0 (PDup 3 (PClose 3 (PClose 4 k)))) (piped i o e n) n0 l n' <-> runs k (std (DPipeRead n) o e) n0 l n'.
Proof. rewrite runs_close, (runs_dup _ (DPipeRead n) 0 _ _ (Some (DPipeRead n) :: drop 1 (piped i o e n))) by done. by rewrite !runs_close. Qed.

Lemma runs_outcome c i o e n l n' :
  redirs_std c -> runs (runcmd c) (std i o e) n l n' <-> outcome c i o e n l n'.
Proof.
  revert i o e n l n'. induction c as [[|a argv]|c IH f mode fd|a IHa b IHb|a IHa b IHb|c IH]; intros i o e n l n' Hr; cbn [runcmd].
  - rewrite runs_exit. split; [by intros [-> ->]|by inversion 1].
  - rewrite runs_exec, (runs_fail e) by done. split; [intros [[-> ->]|[-> ->]]; auto|inversion 1; auto].
  - destruct Hr as [Hfd Hr]. rewrite runs_close. destruct Hfd as [-> | ->].
    + rewrite (runs_open _ _ _ _ 0 _ (std (DFile f mode) o e)), IH, (runs_fail e) by done.
      split; [intros [?|[-> ->]]; auto|inversion 1; subst; auto; lia].
    + rewrite (runs_open _ _ _ _ 1 _ (std i (DFile f mode) e)), IH, (runs_fail e) by done.
      split; [intros [?|[-> ->]]; auto|inversion 1; subst; auto; lia].
  - destruct Hr as [Ha Hb].
    rewrite (runs_pipe _ _ 3 4 _ (take 4 (piped i o e n) ++ replicate 12 None) (piped i o e n)), runs_fork by done.
    unfold sh_panic at 1 2. rewrite !(runs_fail e) by done. split.
    + intros [[(l1 & n1 & l2 & -> & H1 & H2)|[-> ->]]|[-> ->]]; [|auto..]. rewrite runs_writer, IHa in H1 by done.
      rewrite runs_fork in H2. unfold sh_panic in H2. rewrite (runs_fail e) in H2 by done.
      destruct H2 as [(l3 & n3 & l4 & -> & H3 & H4)|[-> ->]]; [|eauto]. rewrite runs_reader, IHb in H3 by done.
      rewrite !runs_close, !runs_wait, runs_exit in H4. destruct H4 as [-> ->]. eauto.
    + inversion 1 as [| | | | | | | |? ? ? ? ? ? l1 n1 l2 n2 H1 H2| | |? ? ? ? ? ? l1 n1 H1| |]; subst; [left; left|by right|left; by right|left; left].
      * exists l1, n1, (l2 ++ [Ended 0]). rewrite runs_writer, IHa, runs_fork by done. split; [done|]. split; [done|]. left.
        exists l2, n', [Ended 0]. rewrite runs_reader, IHb by done. auto 10.
      * exists l1, n', (complaint e "fork" None ""). rewrite runs_writer, IHa, runs_fork by done. split; [done|]. split; [done|]. right.
        unfold sh_panic. by rewrite (runs_fail e).
  - destruct Hr as [Ha Hb]. rewrite runs_fork. unfold sh_panic. rewrite (runs_fail e) by done. split.
    + intros [(l1 & n1 & l2 & -> & H1 & H2)|[-> ->]]; [|auto]. rewrite IHa in H1 by done. rewrite runs_wait, IHb in H2 by done. eauto.
    + inversion 1 as [| | | | | |? ? ? ? ? ? l1 n1 l2 n2 H1 H2| | | | | | |]; subst; [left|by right].
      exists l1, n1, l2. rewrite IHa, runs_wait, IHb by done. done.
  - rewrite runs_fork. unfold sh_panic. rewrite (runs_fail e) by done. split.
    + intros [(l1 & n1 & l2 & -> & H1 & H2)|[-> ->]]; [|auto]. rewrite IH in H1 by done. apply runs_exit in H2 as [-> ->]. auto.
    + inversion 1 as [| | | | | | | | | | | |? ? ? ? ? l1 ? H1|]; subst; [left|by right].
      exists l1, n', [Ended 0]. rewrite IH, runs_exit by done. done.
Qed.

Lemma redirs_wrap rs c : redirs_std c -> Forall (fun r => rd_fd r = 0 \/ rd_fd r = 1) rs -> redirs_std (wrap rs c).
Proof. unfold wrap. intros Hc H. revert c Hc. induction H as [|r rs Hr _ IH]; intros c Hc; simpl; [done|]. by apply IH. Qed.
Lemma gsimple_std ts a rs : gsimple ts a rs -> Forall (fun r => rd_fd r = 0 \/ rd_fd r = 1) rs.
Proof. induction 1 as [| |op f r ts a rs Hr _ IH]; [done|done|]. constructor; [|done]. destruct Hr; simpl; auto. Qed.
Lemma gline_std ts c : gline ts c -> redirs_std c.
Proof.
  assert (forall n c, redirs_std c -> redirs_std (backs n c)) as Hb by (intros n c0 H; by induction n).
  intros G. induction G using gline_mut with (P0 := fun _ c _ => redirs_std c) (P1 := fun _ c _ => redirs_std c); simpl; auto;
    apply redirs_wrap; eauto using gsimple_std. done.
Qed.

(** C20: the shell wires commands as they read, whatever fails.  In a process
    with standard input, output and error and nothing else open, [runcmd] on a
    parsed line can end in exactly the ways its meaning allows, where every
    [fork], [open], [pipe] and [exec] may succeed or fail.  Every program starts
    with exactly three descriptors: the ones the shell was given, a file where
    it is redirected, and the ends of the pipe between the two sides of a [|];
    no end of a pipe stays open in a program that does not use it, so readers
    see the end of file when the writers are done.  A redirection that cannot
    be opened and a program that cannot be started are reported on the
    command's standard error, and nothing runs in their place; without a pipe
    or a process the rest of the command is given up with a message. *)
Theorem runcmd_wires m s l fuel c m' s' i o e n ends n' :
  cstr m s l -> (4 * length l + 4 <= fuel)%nat -> parsecmd fuel m s (line_end s l) = Ret (c, m') s' ->
  runs (runcmd c) (std i o e) n ends n' <-> outcome c i o e n ends n'.
Proof.
  intros Hl Hf R. apply runs_outcome. destruct (line_lexed m s l Hl) as (ts & Hts & Hn).
  pose proof (parsecmd_good m s l Hl fuel ts Hts ltac:(lia)) as G. rewrite R in G. by eapply gline_std, G.
Qed.

(** The line of [ShDemo]: with everything available the three programs are
    wired as it reads; when the file of its redirection cannot be opened the
    third one is not run. *)
Lemma runcmd_wires_witness :
  exists m' s', parsecmd 100 ShDemo.memory 100 114 = Ret (ShDemo.parsed, m') s'
    /\ runs (runcmd ShDemo.parsed) (std (DGiven 0) (DGiven 1) (DGiven 2)) 0
         [Started [(100, 102); (103, 105)] (std (DGiven 0) (DPipeWrite 0) (DGiven 2));
          Started [(107, 108)] (std (DPipeRead 0) (DGiven 1) (DGiven 2));
          Started [(109, 110)] (std (DPipeRead 0) (DFile (111, 112) 0x601) (DGiven 2)); Ended 0; Ended 0] 1
    /\ runs (runcmd ShDemo.parsed) (std (DGiven 0) (DGiven 1) (DGiven 2)) 0
         [Started [(100, 102); (103, 105)] (std (DGiven 0) (DPipeWrite 0) (DGiven 2));
          Started [(107, 108)] (std (DPipeRead 0) (DGiven 1) (DGiven 2));
          Complained (Some (DGiven 2)) "open " (Some (111, 112)) " failed"; Ended 0; Ended 0] 1.
Proof.
  pose proof ShDemo.result_parsed as E. unfold ShDemo.result in E.
  destruct (parsecmd 100 ShDemo.memory 100 114) as [[c m'] s'| | |] eqn:R; try discriminate E. injection E as -> ->.
  exists m', 114. split; [reflexivity|].
  split; apply (runcmd_wires ShDemo.memory 100 ShDemo.line 100 ShDemo.parsed m' 114);
    try exact ShDemo.memory_line; try exact R; try (simpl; lia).
  - apply (oc_back _ _ _ _ _ [_; _; _; _]), (oc_pipe _ _ _ _ _ _ [_] 1 [_; _]); [apply oc_exec|].
    apply (oc_list _ _ _ _ _ _ [_] 1 [_]); [apply oc_exec|apply oc_output, oc_exec].
  - apply (oc_back _ _ _ _ _ [_; _; _; _]), (oc_pipe _ _ _ _ _ _ [_] 1 [_; _]); [apply oc_exec|].
    apply (oc_list _ _ _ _ _ _ [_] 1 [_]); [apply oc_exec|apply oc_no_open].
Defined.
