(* ===== verification/Umalloc.v ===== *)
(** The allocator of the user programs (src/umalloc.c): a circular list of free
    blocks in address order.

    A [Header] takes 16 bytes; [u_ptr] and [u_size] are the fields of the
    header at an address.  [base] is the address of the static header and
    [grow brk n] says whether the kernel lets [sbrk] move the break from [brk]
    by [n] bytes.  The loops over the list take fuel. *)

From stdpp Require Import functions.
From S2P Require Import Prelude.

Definition HSIZE : Z := 16.

Record ust := Ust { u_ptr : Z -> Z; u_size : Z -> Z; u_freep : Z; u_brk : Z }.

Definition set_ptr (a v : Z) : M ust () := modify (fun s => Ust (<[a := v]> (u_ptr s)) (u_size s) (u_freep s) (u_brk s)).
Definition set_size (a v : Z) : M ust () := modify (fun s => Ust (u_ptr s) (<[a := v]> (u_size s)) (u_freep s) (u_brk s)).
Definition set_freep (v : Z) : M ust () := modify (fun s => Ust (u_ptr s) (u_size s) v (u_brk s)).

Section Allocator.
Context (base : Z) (grow : Z -> Z -> bool).

(** [sbrk(n)] with an [int]: the old break, or [None] for -1. *)
Definition sbrk (n : Z) : M ust (option Z) :=
  fun s => if grow (u_brk s) (i32 n)
           then Ret (Some (u_brk s)) (Ust (u_ptr s) (u_size s) (u_freep s) (u_brk s + i32 n))
           else Ret None s.

(** The loop of [free] that finds the place of [bp]. *)
Fixpoint free_find (fuel : nat) (ptr : Z -> Z) (bp p : Z) : option Z :=
  match fuel with
  | O => None
  | S fuel' =>
      if (bp >? p) && (bp <? ptr p) then Some p
      else if (p >=? ptr p) && ((bp >? p) || (bp <? ptr p)) then Some p
      else free_find fuel' ptr bp (ptr p)
  end.

(** [free] with [bp] to go behind [p]: joining it with the next block, with
    the block before, and the new [freep]. *)
Definition merge_next (bp p : Z) : M ust () :=
  let* s := gets (fun s => s) in
  let next := u_ptr s p in
  if bp + HSIZE * u_size s bp =? next
  then set_size bp (u32 (u_size s bp + u_size s next)) ;;; set_ptr bp (u_ptr s next)
  else set_ptr bp next.
Definition merge_prev (bp p : Z) : M ust () :=
  let* s := gets (fun s => s) in
  if p + HSIZE * u_size s p =? bp
  then set_size p (u32 (u_size s p + u_size s bp)) ;;; set_ptr p (u_ptr s bp)
  else set_ptr p bp.
Definition free_at (bp p : Z) : M ust () :=
  merge_next bp p ;;; merge_prev bp p ;;; set_freep p.

Definition free (fuel : nat) (ap : Z) : M ust () :=
  if ap =? 0 then skip else
  let bp := ap - HSIZE in
  let* s := gets (fun s => s) in
  match free_find fuel (u_ptr s) bp (u_freep s) with
  | Some p => free_at bp p
  | None => diverge
  end.

Definition morecore (fuel : nat) (nu : Z) : M ust (option Z) :=
  let nu := if nu <? 4096 then 4096 else nu in
  let* p := sbrk (u64 (nu * HSIZE)) in
  match p with
  | None => mreturn None
  | Some hp =>
      set_size hp nu ;;;
      free fuel (hp + HSIZE) ;;;
      let* freep := gets u_freep in
      mreturn (Some freep)
  end.

(** Take [nunits] from the block [p], whose predecessor is [prevp]. *)
Definition take_block (prevp p nunits : Z) : M ust Z :=
  let* s := gets (fun s => s) in
  (if u_size s p =? nunits
   then set_ptr prevp (u_ptr s p) ;;; set_freep prevp ;;; mreturn (p + HSIZE)
   else
     let rest := u32 (u_size s p - nunits) in
     set_size p rest ;;;
     let p := p + HSIZE * rest in
     set_size p nunits ;;;
     set_freep prevp ;;;
     mreturn (p + HSIZE)).

Fixpoint malloc_loop (fuel : nat) (nunits prevp p : Z) : M ust Z :=
  match fuel with
  | O => diverge
  | S fuel' =>
      let* s := gets (fun s => s) in
      if u_size s p >=? nunits then take_block prevp p nunits else
      if p =? u_freep s then
        let* r := morecore fuel' nunits in
        match r with
        | None => mreturn 0
        | Some p => let* s := gets (fun s => s) in malloc_loop fuel' nunits p (u_ptr s p)
        end
      else malloc_loop fuel' nunits p (u_ptr s p)
  end.

(** [nbytes] is a [uint]; the sum is a [uint64]. *)
Definition units_of (nbytes : Z) : Z := u32 (u64 (nbytes + HSIZE - 1) / HSIZE + 1).

Definition malloc (fuel : nat) (nbytes : Z) : M ust Z :=
  if nbytes =? 0 then mreturn 0 else
  let nunits := units_of nbytes in
  let* s := gets (fun s => s) in
  (when u_freep s =? 0 do (set_freep base ;;; set_ptr base base ;;; set_size base 0)) ;;;
  let* s := gets (fun s => s) in
  let prevp := u_freep s in
  malloc_loop fuel nunits prevp (u_ptr s prevp).
End Allocator.
