(* ===== verification/UmallocProof.v ===== *)
(** The user allocator keeps a tiling of the heap (src/umalloc.c).

    The heap from [lo] to the break is a sequence of tiles, each used or free;
    the circular list holds the static header and the free tiles in address
    order, and no two free tiles touch.  So blocks never overlap, none is
    lost, and [malloc] and [free] change exactly the block they are about. *)

From Stdlib Require Import Sorted.
From stdpp Require Import functions.
From S2P Require Import Prelude.
From S2P Require Import Umalloc.

(** ** Tiles *)

(** Size in headers, and whether the tile is free. *)
Definition tile : Type := Z * bool.

Ltac hlia := unfold HSIZE, tile in *; lia.

Fixpoint units (T : list tile) : Z := match T with [] => 0 | t :: T' => t.1 + units T' end.

(** Addresses of the free tiles, and the used tiles with their sizes. *)
Fixpoint frees (a : Z) (T : list tile) : list Z :=
  match T with
  | [] => []
  | (n, b) :: T' => (if b then [a] else []) ++ frees (a + HSIZE * n) T'
  end.
Fixpoint used (a : Z) (T : list tile) : list (Z * Z) :=
  match T with
  | [] => []
  | (n, b) :: T' => (if b then [] else [(a, n)]) ++ used (a + HSIZE * n) T'
  end.

(** The sizes recorded in the headers. *)
Fixpoint sized (size : Z -> Z) (a : Z) (T : list tile) : Prop :=
  match T with
  | [] => True
  | (n, _) :: T' => size a = n /\ sized size (a + HSIZE * n) T'
  end.

(** No two free tiles touch; [prev] is whether the tile before is free. *)
Fixpoint coalesced (prev : bool) (T : list tile) : Prop :=
  match T with
  | [] => True
  | (_, b) :: T' => prev && b = false /\ coalesced b T'
  end.
Fixpoint last_free (prev : bool) (T : list tile) : bool :=
  match T with [] => prev | (_, b) :: T' => last_free b T' end.

Definition positive (T : list tile) : Prop := Forall (fun t => 0 < t.1) T.

(** The links from [x] through [l] to [y]. *)
Fixpoint chain (ptr : Z -> Z) (x : Z) (l : list Z) (y : Z) : Prop :=
  match l with
  | [] => ptr x = y
  | z :: l' => ptr x = z /\ chain ptr z l' y
  end.

Lemma units_app T1 T2 : units (T1 ++ T2) = units T1 + units T2.
Proof. induction T1; simpl; lia. Qed.
Lemma frees_app a T1 T2 : frees a (T1 ++ T2) = frees a T1 ++ frees (a + HSIZE * units T1) T2.
Proof.
  revert a. induction T1 as [|[n b] T1 IH]; intros a; simpl; [by rewrite Z.mul_0_r, Z.add_0_r|].
  rewrite IH, (assoc_L (++)). do 2 f_equal. lia.
Qed.
Lemma used_app a T1 T2 : used a (T1 ++ T2) = used a T1 ++ used (a + HSIZE * units T1) T2.
Proof.
  revert a. induction T1 as [|[n b] T1 IH]; intros a; simpl; [by rewrite Z.mul_0_r, Z.add_0_r|].
  rewrite IH, (assoc_L (++)). do 2 f_equal. lia.
Qed.
Lemma sized_app size a T1 T2 : sized size a (T1 ++ T2) <-> sized size a T1 /\ sized size (a + HSIZE * units T1) T2.
Proof.
  revert a. induction T1 as [|[n b] T1 IH]; intros a; simpl; [rewrite Z.mul_0_r, Z.add_0_r; tauto|].
  rewrite IH. replace (a + HSIZE * n + HSIZE * units T1) with (a + HSIZE * (n + units T1)) by lia. tauto.
Qed.
Lemma units_nonneg T : positive T -> 0 <= units T.
Proof. induction 1; simpl; lia. Qed.

Lemma sized_ext size size' a T :
  positive T -> (forall x, a <= x < a + HSIZE * units T -> size' x = size x) -> sized size a T -> sized size' a T.
Proof.
  revert a. induction T as [|[n b] T IH]; intros a Hp He; simpl; [done|].
  apply Forall_cons in Hp as [Hn Hp]. pose proof (units_nonneg T Hp). simpl in *. intros [Ha HT]. split.
  - rewrite He; [done | hlia].
  - apply IH; [done | | done]. intros x Hx. apply He. hlia.
Qed.

Lemma frees_range a T x : positive T -> x ∈ frees a T -> a <= x < a + HSIZE * units T.
Proof.
  revert a. induction T as [|[n b] T IH]; intros a Hp; simpl; [by intros ?%not_elem_of_nil|].
  apply Forall_cons in Hp as [Hn Hp]. pose proof (units_nonneg T Hp). simpl in *. rewrite elem_of_app. intros [Hx|Hx].
  - destruct b; [apply list_elem_of_singleton in Hx; hlia | by apply not_elem_of_nil in Hx].
  - specialize (IH _ Hp Hx). hlia.
Qed.

Lemma frees_split a T x :
  x ∈ frees a T -> exists T1 n T2, T = T1 ++ (n, true) :: T2 /\ x = a + HSIZE * units T1.
Proof.
  revert a. induction T as [|[n b] T IH]; intros a; simpl; [by intros ?%not_elem_of_nil|].
  rewrite elem_of_app. intros [Hx|Hx].
  - destruct b; [|by apply not_elem_of_nil in Hx]. apply list_elem_of_singleton in Hx as ->.
    exists [], n, T. split; [done|]. simpl. lia.
  - destruct (IH _ Hx) as (T1 & m & T2 & -> & ->). exists ((n, b) :: T1), m, T2. split; [done|]. simpl. lia.
Qed.

Lemma used_range a T x n :
  positive T -> (x, n) ∈ used a T -> a <= x /\ 0 < n /\ x + HSIZE * n <= a + HSIZE * units T.
Proof.
  revert a. induction T as [|[k b] T IH]; intros a Hp; simpl; [by intros ?%not_elem_of_nil|].
  apply Forall_cons in Hp as [Hn Hp]. pose proof (units_nonneg T Hp). simpl in *. rewrite elem_of_app. intros [Hx|Hx].
  - destruct b; [by apply not_elem_of_nil in Hx|]. apply list_elem_of_singleton in Hx. simplify_eq. hlia.
  - specialize (IH _ Hp Hx). hlia.
Qed.
(** Used tiles do not overlap. *)
Definition apart (b c : Z * Z) : Prop := b.1 + HSIZE * b.2 <= c.1 \/ c.1 + HSIZE * c.2 <= b.1.
Lemma used_apart a T i j b c :
  positive T -> used a T !! i = Some b -> used a T !! j = Some c -> i <> j -> apart b c.
Proof.
  revert a i j. induction T as [|[k fr] T IH]; intros a i j Hp; [done|].
  apply Forall_cons in Hp as [Hn Hp]. simpl in *. destruct fr; [by apply IH|]. simpl.
  destruct i as [|i], j as [|j]; simpl; intros Hi Hj Hne; [done| | |by eapply IH; eauto].
  - apply list_elem_of_lookup_2 in Hj. destruct c as [x m]. apply used_range in Hj; [|done]. simplify_eq. left. simpl. hlia.
  - apply list_elem_of_lookup_2 in Hi. destruct b as [x m]. apply used_range in Hi; [|done]. simplify_eq. right. simpl. hlia.
Qed.

(** With nothing in use there is at most one tile. *)
Lemma used_none a p T : used a T = [] -> coalesced p T -> T = [] \/ exists n, T = [(n, true)].
Proof.
  destruct T as [|[n []] [|[m []] T]]; simpl; try done; eauto. naive_solver.
Qed.

Lemma used_split a T x n :
  (x, n) ∈ used a T -> exists T1 T2, T = T1 ++ (n, false) :: T2 /\ x = a + HSIZE * units T1.
Proof.
  revert a. induction T as [|[k b] T IH]; intros a; simpl; [by intros ?%not_elem_of_nil|].
  rewrite elem_of_app. intros [Hx|Hx].
  - destruct b; [by apply not_elem_of_nil in Hx|]. apply list_elem_of_singleton in Hx. simplify_eq.
    exists [], T. split; [done|]. simpl. lia.
  - destruct (IH _ Hx) as (T1 & T2 & -> & ->). exists ((k, b) :: T1), T2. split; [done|]. simpl. lia.
Qed.

Lemma frees_sorted a T : positive T -> StronglySorted Z.lt (frees a T).
Proof.
  revert a. induction T as [|[n b] T IH]; intros a Hp; simpl; [constructor|].
  apply Forall_cons in Hp as [Hn Hp]. simpl in Hn. destruct b; [|by apply IH].
  constructor; [by apply IH|]. apply Forall_forall. intros x Hx%frees_range; [|done]. hlia.
Qed.

Lemma coalesced_app p T1 T2 : coalesced p (T1 ++ T2) <-> coalesced p T1 /\ coalesced (last_free p T1) T2.
Proof. revert p. induction T1 as [|[n b] T1 IH]; intros p; simpl; [tauto|]. rewrite IH. tauto. Qed.
Lemma last_free_app p T1 T2 : last_free p (T1 ++ T2) = last_free (last_free p T1) T2.
Proof. revert p. induction T1 as [|[n b] T1 IH]; intros p; simpl; [done|]. by rewrite IH. Qed.

Lemma coalesced_weaken p T : coalesced p T -> coalesced false T.
Proof. destruct T as [|[n b] T]; simpl; [done|]. by intros [_ ?]. Qed.

(** ** Chains *)

Lemma chain_app ptr x l1 z l2 y : chain ptr x (l1 ++ z :: l2) y <-> chain ptr x l1 z /\ chain ptr z l2 y.
Proof. revert x. induction l1 as [|w l1 IH]; intros x; simpl; [done|]. rewrite IH. tauto. Qed.

Lemma chain_ext ptr ptr' x l y : (forall z, z ∈ x :: l -> ptr' z = ptr z) -> chain ptr x l y -> chain ptr' x l y.
Proof.
  revert x. induction l as [|w l IH]; intros x He; simpl; [intros <-; apply He; set_solver|].
  intros [<- Hc]. split; [apply He; set_solver | apply IH; [set_solver | done]].
Qed.

Fixpoint final (x : Z) (l : list Z) : Z := match l with [] => x | z :: l' => final z l' end.

Lemma final_app x l1 l2 : final x (l1 ++ l2) = final (final x l1) l2.
Proof. revert x. induction l1 as [|z l1 IH]; intros x; simpl; auto. Qed.
Lemma final_in x l : final x l ∈ x :: l.
Proof. revert x. induction l as [|z l IH]; intros x; simpl; [set_solver|]. specialize (IH z). set_solver. Qed.
Lemma chain_final ptr x l y : chain ptr x l y -> ptr (final x l) = y.
Proof. revert x. induction l as [|z l IH]; intros x; simpl; [done|]. intros [_ Hc]. by apply IH. Qed.

(** The same circle from another node. *)
Lemma chain_rotate ptr x l1 f l2 : chain ptr x (l1 ++ f :: l2) x -> chain ptr f (l2 ++ x :: l1) f.
Proof. rewrite !chain_app. tauto. Qed.

(** The node before the end of a chain gets a new successor. *)
Lemma chain_relink ptr x l y w : NoDup (x :: l) -> chain ptr x l y -> chain (<[final x l := w]> ptr) x l w.
Proof.
  revert x. induction l as [|z l IH]; intros x Hnd; [simpl; intros _; by rewrite fn_lookup_insert|].
  simpl. intros [Hx Hc]. apply NoDup_cons in Hnd as [Hnx Hnd]. split; [|by apply IH].
  rewrite fn_lookup_insert_ne; [done|]. intros <-. apply Hnx, final_in.
Qed.

Lemma chain_head ptr ptr' x x' l y :
  ptr' x' = ptr x -> (forall z, z ∈ l -> ptr' z = ptr z) -> chain ptr x l y -> chain ptr' x' l y.
Proof.
  destruct l as [|z l]; simpl; intros Hx He; [congruence|]. intros [Hz Hc]. split; [congruence|].
  by apply chain_ext with ptr.
Qed.

(** ** The search of [free] *)

Section Find.
Context (ptr : Z -> Z) (bp : Z).

Lemma find_after l x y fuel :
  chain ptr x l y -> StronglySorted Z.lt (x :: l) -> (forall z, z ∈ x :: l -> z < bp) -> bp < y \/ y <= x ->
  (length l < fuel)%nat -> free_find fuel ptr bp x = Some (final x l).
Proof.
  revert x fuel. induction l as [|z l IH]; intros x [|fuel] Hc Hs Hb Hy Hf; simpl in *; try lia;
    pose proof (Hb x ltac:(set_solver)).
  - rewrite Hc. repeat bcase; simpl; done || lia.
  - destruct Hc as [-> Hc]. apply StronglySorted_inv in Hs as [Hs Hx]. apply Forall_cons in Hx as [Hxz _].
    pose proof (Hb z ltac:(set_solver)).
    assert ((bp >? x) && (bp <? z) = false) as ->.
    { apply andb_false_iff. right. by apply Z.ltb_ge, Z.lt_le_incl. }
    assert ((x >=? z) = false) as ->; [rewrite Z.geb_leb; apply Z.leb_gt; lia|]. simpl.
    apply IH; [done | done | set_solver | lia | lia].
Qed.

Lemma find_before l x base fuel :
  chain ptr x l base -> StronglySorted Z.lt (x :: l) -> (forall z, z ∈ x :: l -> bp < z) -> base < bp ->
  free_find (S (length l) + fuel) ptr bp x = free_find fuel ptr bp base.
Proof.
  revert x. induction l as [|z l IH]; intros x Hc Hs Hb Hy; pose proof (Hb x ltac:(set_solver));
    simpl; assert ((bp >? x) = false) as -> by (rewrite Z.gtb_ltb; apply Z.ltb_ge; lia); simpl in Hc |- *.
  - rewrite Hc. assert ((bp <? base) = false) as -> by (apply Z.ltb_ge; lia). by rewrite andb_false_r.
  - destruct Hc as [-> Hc]. apply StronglySorted_inv in Hs as [Hs Hx]. apply Forall_cons in Hx as [Hxz _].
    assert ((x >=? z) = false) as ->; [rewrite Z.geb_leb; apply Z.leb_gt; lia|]. simpl.
    apply (IH z); [done | done | set_solver | done].
Qed.

Lemma sorted_app_r l1 l2 : StronglySorted Z.lt (l1 ++ l2) -> StronglySorted Z.lt l2.
Proof. induction l1; [done|]. intros [? _]%StronglySorted_inv. auto. Qed.

(** From any node the search ends behind the last free block below [bp]. *)
Lemma free_find_spec base H1 H2 f fuel :
  chain ptr base (H1 ++ H2) base ->
  StronglySorted Z.lt (base :: H1) -> (forall z, z ∈ base :: H1 -> z < bp) ->
  StronglySorted Z.lt H2 -> (forall z, z ∈ H2 -> bp < z) -> base < bp ->
  f ∈ base :: H1 ++ H2 -> (length H1 + length H2 + 2 <= fuel)%nat ->
  free_find fuel ptr bp f = Some (final base H1).
Proof.
  intros Hc Hs1 Hb1 Hs2 Hb2 Hlt Hf Hfuel.
  assert (exists y, chain ptr base H1 y /\ (bp < y \/ y <= base)) as (y & Hc1 & Hy).
  { destruct H2 as [|y H2]; [rewrite app_nil_r in Hc; exists base; split; [done | lia]|].
    apply chain_app in Hc as [Hc _]. exists y. split; [done|]. left. apply Hb2. set_solver. }
  rewrite app_comm_cons in Hf. apply elem_of_app in Hf as [Hf|Hf].
  - apply elem_of_cons in Hf as [->|Hf]; [by apply find_after with y; auto; lia|].
    apply list_elem_of_split in Hf as (l1 & l2 & ->). apply chain_app in Hc1 as [_ Hc1].
    rewrite final_app. simpl. rewrite length_app in Hfuel. simpl in Hfuel.
    apply find_after with y; [done | | set_solver | | lia].
    + apply StronglySorted_inv in Hs1 as [Hs1 _]. by apply sorted_app_r in Hs1.
    + destruct Hy as [|Hy]; [by left|]. right. apply StronglySorted_inv in Hs1 as [_ Hs1].
      rewrite Forall_forall in Hs1. specialize (Hs1 f ltac:(set_solver)). lia.
  - apply list_elem_of_split in Hf as (l1 & l2 & ->). rewrite (assoc_L (++)) in Hc. apply chain_app in Hc as [_ Hc2].
    rewrite length_app in Hfuel. simpl in Hfuel.
    replace fuel with (S (length l2) + (fuel - S (length l2)))%nat by lia.
    rewrite (find_before l2 f base); [|done | by apply sorted_app_r in Hs2 | set_solver | done].
    apply find_after with y; auto; lia.
Qed.
End Find.

(** ** The invariant *)

Section Heap.
Context (base lo : Z).
Context (Hbase : 0 < base) (Hlo : base + HSIZE <= lo).

Record heap (s : ust) (T : list tile) : Prop := {
  hp_pos : positive T;
  hp_brk : u_brk s = lo + HSIZE * units T;
  hp_max : units T < 2 ^ 32;
  hp_coal : coalesced false T;
  hp_size : sized (u_size s) lo T;
  hp_base : u_size s base = 0;
  hp_ring : chain (u_ptr s) base (frees lo T) base;
  hp_freep : u_freep s ∈ base :: frees lo T }.

Lemma positive_app T1 T2 : positive (T1 ++ T2) <-> positive T1 /\ positive T2.
Proof. apply Forall_app. Qed.

(** A state in which the block [bp] of [n] headers is between the tiles [T1]
    and [T2] and is on its way to the list; [cur] says whether it is free. *)
Definition around (s : ust) (T1 : list tile) (n : Z) (T2 : list tile) : Prop :=
  let bp := lo + HSIZE * units T1 in
  positive T1 /\ 0 < n /\ positive T2 /\ units T1 + n + units T2 < 2 ^ 32
  /\ coalesced false T1 /\ coalesced false T2 /\ sized (u_size s) lo T1 /\ u_size s bp = n
  /\ sized (u_size s) (bp + HSIZE * n) T2 /\ u_size s base = 0.

Lemma ring_parts T1 T2 n :
  positive T1 -> 0 < n -> positive T2 ->
  let bp := lo + HSIZE * units T1 in
  StronglySorted Z.lt (base :: frees lo T1) /\ (forall z, z ∈ base :: frees lo T1 -> z < bp)
  /\ StronglySorted Z.lt (frees (bp + HSIZE * n) T2) /\ (forall z, z ∈ frees (bp + HSIZE * n) T2 -> bp + HSIZE * n <= z)
  /\ base < bp /\ lo <= bp.
Proof.
  intros P1 Hn P2 bp. pose proof (units_nonneg T1 P1).
  assert (base < bp /\ lo <= bp) as [? ?] by (unfold bp; hlia).
  split; [|split; [|split; [|split; [|done]]]].
  - constructor; [by apply frees_sorted|]. apply Forall_forall. intros x Hx%frees_range; [hlia | done].
  - intros z [->|Hz%frees_range]%elem_of_cons; [done | unfold bp; lia | done].
  - by apply frees_sorted.
  - intros z Hz%frees_range; [lia | done].
Qed.

Lemma NoDup_sorted l : StronglySorted Z.lt l -> NoDup l.
Proof.
  induction 1 as [|x l Hs IH Hx]; [constructor|]. constructor; [|done]. intros Hin.
  rewrite Forall_forall in Hx. specialize (Hx x Hin). lia.
Qed.

Lemma frees_end size a T p x :
  positive T -> sized size a T -> last_free p T = false -> x ∈ frees a T -> x + HSIZE * size x < a + HSIZE * units T.
Proof.
  intros Hp Hs Hl (T1 & n & T2 & -> & ->)%frees_split. apply positive_app in Hp as [_ [_ P2]%Forall_cons].
  apply sized_app in Hs as [_ [-> _]]. rewrite last_free_app in Hl. rewrite units_app. simpl in *.
  destruct T2 as [|[m b] T2]; [done|]. apply Forall_cons in P2 as [Hm P2]. apply units_nonneg in P2. simpl in *. hlia.
Qed.
Lemma last_free_split T : last_free false T = true -> exists T' m, T = T' ++ [(m, true)].
Proof.
  destruct T as [|[m b] T _] using rev_ind; [done|]. rewrite last_free_app. simpl. intros ->. by exists T, m.
Qed.

(** The first half of [free]: [bp] absorbs the free block behind it. *)
Lemma merge_next_spec s T1 n T2 p :
  around s T1 n T2 -> let bp := lo + HSIZE * units T1 in
  chain (u_ptr s) p (frees (bp + HSIZE * n) T2) base ->
  exists s' n' T2', merge_next bp p s = Ret tt s' /\ around s' T1 n' T2'
    /\ coalesced true T2' /\ n' + units T2' = n + units T2 /\ n <= n' /\ (length T2' <= length T2)%nat
    /\ used (bp + HSIZE * n') T2' = used (bp + HSIZE * n) T2
    /\ chain (u_ptr s') bp (frees (bp + HSIZE * n') T2') base
    /\ (forall z, z <> bp -> u_ptr s' z = u_ptr s z)
    /\ u_brk s' = u_brk s.
Proof.
  intros (P1 & Hn & P2 & Hmax & C1 & C2 & S1 & Sb & S2 & B0) bp Hc.
  destruct (ring_parts T1 T2 n P1 Hn P2) as (_ & _ & _ & Hb2 & Hbb & Hlb). fold bp in Hb2, Hbb, Hlb, Sb, S2.
  pose proof (units_nonneg T1 P1) as U1. unfold merge_next. rewrite mthen_gets, Sb.
  assert ((exists m T2', T2 = (m, true) :: T2') \/ ~ (exists m T2', T2 = (m, true) :: T2')) as [(m & T2' & ->)|Hno].
  { destruct T2 as [|[m []] T2]; [right | left; eauto | right]; by intros (? & ? & ?). }
  - apply Forall_cons in P2 as [Hm P2]. simpl in Hm, Hc, S2, C2, Hmax, Hb2. destruct S2 as [Sq S2], Hc as [Hq Hc], C2 as [_ C2].
    pose proof (units_nonneg T2' P2) as U2.
    rewrite Hq, Z.eqb_refl. unfold set_size, set_ptr. rewrite mthen_modify. cbn [u_ptr u_size u_brk u_freep].
    rewrite Sq, (u32_small (n + m)) by lia.
    assert (bp + HSIZE * (n + m) = bp + HSIZE * n + HSIZE * m) as Ea by lia.
    exists (Ust (<[bp := u_ptr s (bp + HSIZE * n)]> (u_ptr s)) (<[bp := n + m]> (u_size s)) (u_freep s) (u_brk s)), (n + m), T2'.
    split; [done|]. split; [|split; [done|split; [simpl; lia|split; [lia|split; [simpl; lia|split; [|split; [|split]]]]]]].
    + split_and!; try done; try lia; try (by apply coalesced_weaken with true); cbn [u_size].
      * apply sized_ext with (u_size s); [done | | done]. intros x Hx. apply fn_lookup_insert_ne. fold bp in Hx. lia.
      * apply fn_lookup_insert.
      * fold bp. rewrite Ea. apply sized_ext with (u_size s); [done | | done]. intros x Hx. apply fn_lookup_insert_ne. hlia.
      * rewrite fn_lookup_insert_ne by lia. done.
    + rewrite Ea. done.
    + cbn [u_ptr]. rewrite Ea. apply chain_head with (u_ptr s) (bp + HSIZE * n); [apply fn_lookup_insert | | done].
      intros z Hz. apply fn_lookup_insert_ne. specialize (Hb2 z ltac:(set_solver)). hlia.
    + intros z Hz. by apply fn_lookup_insert_ne.
    + done.
  - assert (u_ptr s p <> bp + HSIZE * n) as Hne.
    { destruct T2 as [|[m []] T2']; [simpl in Hc; hlia | naive_solver |]. apply Forall_cons in P2 as [Hm P2]. simpl in Hm, Hc.
      destruct (frees _ T2') as [|z l] eqn:E; [simpl in Hc; hlia|]. destruct Hc as [-> _].
      assert (z ∈ frees (bp + HSIZE * n + HSIZE * m) T2') as Hz%frees_range by (rewrite E; set_solver); [hlia | done]. }
    destruct (Z.eqb_spec (bp + HSIZE * n) (u_ptr s p)) as [He|_]; [by destruct Hne|].
    exists (Ust (<[bp := u_ptr s p]> (u_ptr s)) (u_size s) (u_freep s) (u_brk s)), n, T2.
    split; [done|]. split; [done|]. split; [|split; [done|split; [lia|split; [lia|split; [done|split; [|split; [|done]]]]]]].
    + destruct T2 as [|[m []] T2']; [done | naive_solver | done].
    + apply chain_head with (u_ptr s) p; [apply fn_lookup_insert | | done].
      intros z Hz%Hb2. apply fn_lookup_insert_ne. hlia.
    + intros z Hz. by apply fn_lookup_insert_ne.
Qed.

(** The second half: the block joins the free block before it, or is linked. *)
Lemma merge_prev_spec s T1 n T2 y :
  around s T1 n T2 -> coalesced true T2 -> let bp := lo + HSIZE * units T1 in
  chain (u_ptr s) base (frees lo T1) y -> chain (u_ptr s) bp (frees (bp + HSIZE * n) T2) base ->
  let p := final base (frees lo T1) in
  u_brk s = lo + HSIZE * (units T1 + n + units T2) ->
  exists s' T, merge_prev bp p s = Ret tt s' /\ heap (Ust (u_ptr s') (u_size s') p (u_brk s')) T
    /\ used lo T = used lo T1 ++ used (bp + HSIZE * n) T2 /\ (exists m, (m, true) ∈ T /\ n <= m)
    /\ (length T <= length T1 + S (length T2))%nat.
Proof.
  intros (P1 & Hn & P2 & Hmax & C1 & C2 & S1 & Sb & S2 & B0) CT bp Hc1 Hc2 p Hbrk.
  destruct (ring_parts T1 T2 n P1 Hn P2) as (Hs1 & Hb1 & _ & Hb2 & Hbb & Hlb). fold bp in Hb1, Hb2, Hbb, Hlb, Sb, S2.
  pose proof (final_in base (frees lo T1)) as Hp. fold p in Hp. unfold merge_prev. rewrite mthen_gets.
  pose proof (units_nonneg T1 P1) as U1. pose proof (units_nonneg T2 P2) as U2.
  destruct (last_free false T1) eqn:EL.
  - apply last_free_split in EL as (T1' & m & ->).
    apply positive_app in P1 as [P1 [Hm _]%Forall_cons]. simpl in Hm. pose proof (units_nonneg T1' P1) as U1'.
    rewrite units_app in *. simpl in *. rewrite frees_app in *. simpl in *. set (q := lo + HSIZE * units T1') in *.
    assert (p = q) as -> by (unfold p; by rewrite frees_app, final_app).
    apply sized_app in S1 as [S1 [Sq _]]. fold q in Sq. apply coalesced_app in C1 as [C1 [CL _]].
    assert (bp = q + HSIZE * m) as Eb by (unfold bp, q; rewrite units_app; simpl; lia).
    rewrite Sq, Eb, Z.eqb_refl. unfold set_size, set_ptr. rewrite mthen_modify. cbn [u_ptr u_size u_brk u_freep modify].
    rewrite <- Eb, Sb, (u32_small (m + n)) by lia.
    eexists _, (T1' ++ (m + n, true) :: T2). split; [done|]. cbn [u_ptr u_size u_brk u_freep].
    assert (q + HSIZE * (m + n) = bp + HSIZE * n) as Ea by lia.
    split; [split; cbn [u_ptr u_size u_brk u_freep]|].
    + apply positive_app. split; [done|]. constructor; [simpl; lia | done].
    + rewrite units_app, Hbrk. simpl. lia.
    + rewrite units_app. simpl. lia.
    + apply coalesced_app. split; [done|]. split; [|done]. by destruct (last_free false T1').
    + apply sized_app. fold q. simpl. rewrite Ea, fn_lookup_insert. split; [|split; [done|]].
      * apply sized_ext with (u_size s); [done | | done]. intros x Hx. apply fn_lookup_insert_ne. unfold q. lia.
      * apply sized_ext with (u_size s); [done | | done]. intros x Hx. apply fn_lookup_insert_ne. hlia.
    + rewrite fn_lookup_insert_ne by hlia. done.
    + rewrite frees_app. fold q. simpl. rewrite Ea. apply chain_app in Hc1 as [Hc1 _]. apply chain_app. split.
      * apply chain_ext with (u_ptr s); [|done]. intros z Hz. apply fn_lookup_insert_ne. intros <-.
        apply elem_of_cons in Hz as [Hz|Hz%frees_range]; [hlia | unfold q in Hz; lia | done].
      * apply chain_head with (u_ptr s) bp; [apply fn_lookup_insert | | done].
        intros z Hz%Hb2. apply fn_lookup_insert_ne. hlia.
    + rewrite frees_app. fold q. set_solver.
    + rewrite !used_app. fold q. simpl. rewrite app_nil_r, Ea. split; [done|]. split; [exists (m + n); split; [set_solver | lia]|].
      rewrite !length_app. simpl. hlia.
  - assert (p + HSIZE * u_size s p < bp) as Hlt.
    { apply elem_of_cons in Hp as [Hp|Hp]; [rewrite Hp, B0; lia|]. unfold bp. by eapply frees_end. }
    destruct (Z.eqb_spec (p + HSIZE * u_size s p) bp); [lia|].
    eexists _, (T1 ++ (n, true) :: T2). split; [done|]. cbn [u_ptr u_size u_brk u_freep].
    split; [split; cbn [u_ptr u_size u_brk u_freep]|].
    + apply positive_app. split; [done|]. by constructor.
    + rewrite units_app, Hbrk. simpl. lia.
    + rewrite units_app. simpl. lia.
    + apply coalesced_app. split; [done|]. by rewrite EL.
    + apply sized_app. fold bp. by simpl.
    + done.
    + rewrite frees_app. fold bp. simpl. apply chain_app. split.
      * apply chain_relink with y; [by apply NoDup_sorted | done].
      * apply chain_ext with (u_ptr s); [|done]. intros z Hz. apply fn_lookup_insert_ne. intros <-.
        apply Hb1 in Hp. apply elem_of_cons in Hz as [Hz|Hz%Hb2]; [lia | hlia].
    + rewrite frees_app. set_solver.
    + rewrite !used_app. fold bp. split; [done|]. split; [exists n; split; [set_solver | lia]|].
      rewrite !length_app. simpl. hlia.
Qed.

Lemma frees_length a T : (length (frees a T) <= length T)%nat.
Proof. revert a. induction T as [|[n []] T IH]; intros a; simpl; [lia| |]; specialize (IH (a + HSIZE * n)); lia. Qed.

Lemma chain_prefix ptr x l1 l2 y : chain ptr x (l1 ++ l2) y -> exists z, chain ptr x l1 z.
Proof.
  destruct l2 as [|z l2]; [rewrite app_nil_r; eauto|]. intros [Hc _]%chain_app. eauto.
Qed.
Lemma chain_suffix ptr x l1 l2 y : chain ptr x (l1 ++ l2) y -> chain ptr (final x l1) l2 y.
Proof. revert x. induction l1 as [|z l1 IH]; intros x; simpl; [done|]. intros [_ Hc]. by apply IH. Qed.

(** [free] returns the block to the list and touches no other block. *)
Lemma free_run s T1 n T2 fuel :
  heap s (T1 ++ (n, false) :: T2) -> (length T1 + length T2 + 2 <= fuel)%nat ->
  exists s' T', free fuel (lo + HSIZE * units T1 + HSIZE) s = Ret tt s' /\ heap s' T' /\ u_brk s' = u_brk s
    /\ used lo T' = used lo T1 ++ used (lo + HSIZE * units T1 + HSIZE * n) T2
    /\ (exists m, (m, true) ∈ T' /\ n <= m) /\ (length T' <= length T1 + S (length T2))%nat.
Proof.
  intros [HP HB HM HC HS H0 HR HF] Hfuel. apply positive_app in HP as [P1 [Hn P2]%Forall_cons]. simpl in Hn.
  rewrite units_app in *. simpl in *. apply sized_app in HS as [S1 [Sb S2]]. apply coalesced_app in HC as [C1 [_ C2]].
  rewrite frees_app in *. simpl in *. set (bp := lo + HSIZE * units T1) in *.
  destruct (ring_parts T1 T2 n P1 Hn P2) as (Hs1 & Hb1 & Hs2 & Hb2 & Hbb & Hlb). fold bp in Hb1, Hs2, Hb2, Hbb, Hlb.
  set (p := final base (frees lo T1)).
  assert (free_find fuel (u_ptr s) bp (u_freep s) = Some p) as Hfind.
  { apply free_find_spec with (frees (bp + HSIZE * n) T2); try done.
    - intros z Hz%Hb2. hlia.
    - pose proof (frees_length lo T1). pose proof (frees_length (bp + HSIZE * n) T2). hlia. }
  unfold free. destruct (Z.eqb_spec (bp + HSIZE) 0); [hlia|]. rewrite mthen_gets.
  replace (bp + HSIZE - HSIZE) with bp by lia. rewrite Hfind. unfold free_at.
  destruct (merge_next_spec s T1 n T2 p) as (s1 & n' & T2' & R1 & A1 & CT & Hu & Hnn & Hlen & Hus & Hc2 & Hold & Hbrk);
    [by repeat split; try done; lia | by apply chain_suffix in HR|]. fold bp in R1, Hus, Hc2.
  rewrite (mthen_ret _ _ _ _ _ R1). apply chain_prefix in HR as [y Hc1].
  destruct (merge_prev_spec s1 T1 n' T2' y) as (s2 & T & R2 & Hh & HU & (m & Hm & Hmn) & HL); try done.
  - apply chain_ext with (u_ptr s); [|done]. intros z Hz%Hb1. apply Hold. lia.
  - rewrite Hbrk, HB. lia.
  - fold bp p in R2, Hh, HU. rewrite (mthen_ret _ _ _ _ _ R2). eexists _, T. split; [done|]. split; [done|].
    split; [|split; [by rewrite HU, Hus|split; [exists m; split; [done|lia] | hlia]]].
    cbn [u_brk]. revert R2. unfold merge_prev. rewrite mthen_gets. by case_match; intros [= <-].
Qed.

(** [free] of a block in use. *)
Lemma free_used s T a n fuel :
  heap s T -> (a, n) ∈ used lo T -> (length T + 2 <= fuel)%nat ->
  exists s' T', free fuel (a + HSIZE) s = Ret tt s' /\ heap s' T' /\ u_brk s' = u_brk s
    /\ used lo T ≡ₚ (a, n) :: used lo T'.
Proof.
  intros H (T1 & T2 & -> & ->)%used_split Hf. rewrite length_app in Hf. simpl in Hf.
  destruct (free_run s T1 n T2 fuel H ltac:(hlia)) as (s' & T' & R & H' & HB & Hu & _).
  exists s', T'. split; [done|]. split; [done|]. split; [done|].
  rewrite Hu, used_app. simpl. by rewrite Permutation_middle.
Qed.

(** ** [malloc] *)

Lemma chain_fmap ptr x l y : chain ptr x l y -> ptr <$> (x :: l) = l ++ [y].
Proof. revert x. induction l as [|z l IH]; intros x; simpl; [by intros ->|]. intros [-> Hc%IH]. by f_equal/=. Qed.

Lemma ring_next ptr x l q : chain ptr x l x -> q ∈ x :: l -> ptr q ∈ x :: l.
Proof.
  intros Hc%chain_fmap Hq. assert (ptr q ∈ l ++ [x]) as Hin; [rewrite <- Hc; by apply list_elem_of_fmap_2|]. set_solver.
Qed.
Lemma ring_inj ptr x l a b :
  chain ptr x l x -> NoDup (x :: l) -> a ∈ x :: l -> b ∈ x :: l -> ptr a = ptr b -> a = b.
Proof.
  intros Hc%chain_fmap Hnd [i Ha]%list_elem_of_lookup [j Hb]%list_elem_of_lookup He.
  assert (NoDup (ptr <$> (x :: l))) as Hn; [rewrite Hc; by rewrite (Permutation_app_comm l [x])|].
  rewrite NoDup_alt in Hn. assert (i = j) as ->; [|congruence].
  apply (Hn i j (ptr a)); rewrite list_lookup_fmap; [by rewrite Ha | by rewrite Hb, He].
Qed.

(** The list seen from [freep]. *)
Lemma ring_at ptr x l f :
  chain ptr x l x -> NoDup (x :: l) -> f ∈ x :: l ->
  exists R, chain ptr f R f /\ (f ∉ R) /\ (length R = length l) /\ (forall z, z ∈ (f :: R) <-> z ∈ (x :: l)).
Proof.
  intros Hc [Hx Hn]%NoDup_cons [->|Hf]%elem_of_cons; [by exists l|].
  apply list_elem_of_split in Hf as (l1 & l2 & ->). apply NoDup_app in Hn as (_ & Hd & [Hf2 _]%NoDup_cons).
  exists (l2 ++ x :: l1). split; [by apply chain_rotate|]. split; [|split; [rewrite !length_app; simpl; lia | set_solver]].
  intros [?|[->|?]%elem_of_cons]%elem_of_app; set_solver.
Qed.

Context (grow : Z -> Z -> bool).

(** From [freep] around the list: the first block that is large enough, or a
    request for more memory. *)
Lemma malloc_search s nu f R prev fuel :
  u_freep s = f -> chain (u_ptr s) prev R f -> f ∉ R -> (length R < fuel)%nat ->
  (exists q, q ∈ prev :: R /\ nu <= u_size s (u_ptr s q)
     /\ malloc_loop grow fuel nu prev (u_ptr s prev) s = take_block q (u_ptr s q) nu s)
  \/ (forall x, x ∈ f :: R -> u_size s x < nu)
     /\ exists fuel', (fuel = fuel' + length R + 1)%nat
       /\ malloc_loop grow fuel nu prev (u_ptr s prev) s
          = (let* r := morecore grow fuel' nu in
             match r with
             | None => mreturn 0
             | Some p => let* s := gets (fun s => s) in malloc_loop grow fuel' nu p (u_ptr s p)
             end) s.
Proof.
  intros Hf. revert prev fuel. induction R as [|z R IH]; intros prev [|fuel] Hc Hn Hfuel; simpl in Hfuel; try lia;
    simpl in Hc; cbn [malloc_loop]; rewrite mthen_gets, Z.geb_leb.
  - rewrite Hc, Hf. destruct (Z.leb_spec nu (u_size s f)) as [Hle|Hlt].
    + left. exists prev. rewrite Hc. split; [set_solver | done].
    + right. split; [intros x ->%list_elem_of_singleton; done|]. rewrite Z.eqb_refl. exists fuel. simpl. split; [lia | done].
  - destruct Hc as [Hz Hc]. rewrite Hz, Hf. destruct (Z.leb_spec nu (u_size s z)) as [Hle|Hlt].
    + left. exists prev. rewrite Hz. split; [set_solver | done].
    + destruct (Z.eqb_spec z f) as [->|_]; [set_solver|].
      destruct (IH z fuel Hc ltac:(set_solver) ltac:(lia)) as [(q & Hq & Hle & ->)|(Hall & fuel' & -> & ->)].
      * left. exists q. split; [set_solver | done].
      * right. split; [set_solver|]. exists fuel'. split; [simpl; lia | done].
Qed.

Lemma heap_nodup s T : heap s T -> NoDup (base :: frees lo T).
Proof.
  intros H. pose proof (ring_parts T [] 1 (hp_pos _ _ H) ltac:(lia) (Forall_nil_2 _)) as (Hs & _). by apply NoDup_sorted.
Qed.

(** Taking [nu] headers from the block behind [q]. *)
Lemma take_block_spec s T q nu :
  heap s T -> 0 < nu -> q ∈ base :: frees lo T -> nu <= u_size s (u_ptr s q) ->
  exists s' T' a, take_block q (u_ptr s q) nu s = Ret (a + HSIZE) s' /\ heap s' T' /\ u_brk s' = u_brk s
    /\ used lo T' ≡ₚ (a, nu) :: used lo T.
Proof.
  intros H Hnu Hq Hle. pose proof (heap_nodup s T H) as Hnd. destruct H as [HP HB HM HC HS H0 HR HF].
  assert (u_ptr s q ∈ frees lo T) as Hx.
  { pose proof (ring_next _ _ _ _ HR Hq) as [He|]%elem_of_cons; [rewrite He, H0 in Hle; lia | done]. }
  apply frees_split in Hx as (T1 & m & T2 & -> & Hx). set (x := lo + HSIZE * units T1) in *.
  apply positive_app in HP as [P1 [Hm P2]%Forall_cons]. simpl in Hm.
  rewrite units_app in *. simpl in *. apply sized_app in HS as [S1 [Sx S2]]. apply coalesced_app in HC as [C1 [CL C2]].
  rewrite frees_app in *. simpl in *. fold x in Sx, S2, HR, HF, Hnd, Hq |- *.
  pose proof (units_nonneg T1 P1) as U1. pose proof (units_nonneg T2 P2) as U2.
  rewrite Hx, Sx in *. pose proof HR as HR'. apply chain_app in HR' as [Hc1 Hc2].
  assert (q = final base (frees lo T1)) as Eq.
  { apply (ring_inj _ _ _ _ _ HR Hnd); [done | | rewrite Hx; symmetry; by apply chain_final].
    pose proof (final_in base (frees lo T1)). set_solver. }
  pose proof (final_in base (frees lo T1)) as Hq1. rewrite <- Eq in Hq1.
  rewrite app_comm_cons in Hnd. apply NoDup_app in Hnd as (Hnd1 & Hd & [Hx2 Hnd2]%NoDup_cons).
  assert (base < x) as Hbx by (unfold x; hlia).
  unfold take_block. rewrite mthen_gets, Sx. destruct (Z.eqb_spec m nu) as [->|Hne].
  - eexists _, (T1 ++ (nu, false) :: T2), x. split; [done|]. cbn [u_ptr u_size u_brk u_freep].
    split; [split; cbn [u_ptr u_size u_brk u_freep]|split; [done|]].
    + apply positive_app. split; [done|]. by constructor.
    + rewrite units_app. simpl. lia.
    + rewrite units_app. simpl. lia.
    + apply coalesced_app. simpl. rewrite andb_false_r. split; [done|]. split; [done|]. by apply coalesced_weaken with true.
    + apply sized_app. fold x. by simpl.
    + done.
    + rewrite frees_app. fold x. simpl. rewrite Eq. destruct (frees (x + HSIZE * nu) T2) as [|z l] eqn:E.
      * rewrite app_nil_r. simpl in Hc2. rewrite Hc2. by apply chain_relink with x.
      * destruct Hc2 as [Hz Hc2]. apply chain_app. split; [rewrite Hz; by apply chain_relink with x|].
        apply chain_ext with (u_ptr s); [|done]. intros w Hw. apply fn_lookup_insert_ne. rewrite <- Eq. intros <-.
        apply (Hd _ Hq1). set_solver.
    + rewrite frees_app. set_solver.
    + rewrite !used_app. fold x. simpl. by rewrite Permutation_middle.
  - assert (u32 (m - nu) = m - nu) as -> by (apply u32_small; lia).
    eexists _, (T1 ++ (m - nu, true) :: (nu, false) :: T2), (x + HSIZE * (m - nu)). split; [done|]. cbn [u_ptr u_size u_brk u_freep].
    assert (x + HSIZE * (m - nu) + HSIZE * nu = x + HSIZE * m) as Ea by lia.
    split; [split; cbn [u_ptr u_size u_brk u_freep]|split; [done|]].
    + apply positive_app. split; [done|]. constructor; [simpl; lia|]. by constructor.
    + rewrite units_app. simpl. lia.
    + rewrite units_app. simpl. lia.
    + apply coalesced_app. simpl. split; [done|]. split; [done|]. split; [done|]. by apply coalesced_weaken with true.
    + apply sized_app. fold x. simpl. rewrite Ea, fn_lookup_insert, fn_lookup_insert_ne, fn_lookup_insert by hlia.
      split; [|split; [done|split; [done|]]]; apply sized_ext with (u_size s); try done; intros y Hy;
        rewrite !fn_lookup_insert_ne; try done; unfold x in *; hlia.
    + rewrite !fn_lookup_insert_ne by hlia. done.
    + rewrite frees_app. fold x. simpl. by rewrite Ea.
    + rewrite frees_app. set_solver.
    + rewrite !used_app. fold x. simpl. rewrite Ea. by rewrite Permutation_middle.
Qed.

(** The search at the start of [malloc] and after [morecore]. *)
Lemma malloc_step s T nu fuel :
  heap s T -> 0 < nu -> (length T < fuel)%nat ->
  let p := u_freep s in
  (exists s' T' a, malloc_loop grow fuel nu p (u_ptr s p) s = Ret (a + HSIZE) s' /\ heap s' T' /\ u_brk s' = u_brk s
     /\ used lo T' ≡ₚ (a, nu) :: used lo T)
  \/ (forall x, x ∈ frees lo T -> u_size s x < nu)
     /\ exists fuel', (fuel <= fuel' + length T + 1)%nat
       /\ malloc_loop grow fuel nu p (u_ptr s p) s
          = (let* r := morecore grow fuel' nu in
             match r with
             | None => mreturn 0
             | Some p => let* s := gets (fun s => s) in malloc_loop grow fuel' nu p (u_ptr s p)
             end) s.
Proof.
  intros H Hnu Hfuel p. pose proof (frees_length lo T) as HL.
  destruct (ring_at _ _ _ p (hp_ring _ _ H) (heap_nodup s T H) (hp_freep _ _ H)) as (R & Hc & Hn & Hlen & Hin).
  destruct (malloc_search s nu p R p fuel eq_refl Hc Hn ltac:(hlia)) as [(q & Hq & Hle & ->)|(Hall & fuel' & -> & ->)].
  - left. destruct (take_block_spec s T q nu H Hnu) as (s' & T' & a & HR & Hrest); [by apply Hin | done|].
    exists s', T', a. done.
  - right. split; [intros x Hx; apply Hall, Hin; set_solver|]. exists fuel'. split; [hlia | done].
Qed.

(** Room for the sum of the sizes in a [uint]. *)
Definition HEAPMAX : Z := 2 ^ 36 - 16.
Context (Hgrow : forall b n, grow b n = true -> b + n <= lo + HEAPMAX).

Lemma grow_heap s T nu :
  heap s T -> 0 < nu -> u_brk s + nu * HSIZE <= lo + HEAPMAX ->
  heap (Ust (u_ptr s) (<[u_brk s := nu]> (u_size s)) (u_freep s) (u_brk s + nu * HSIZE)) (T ++ [(nu, false)]).
Proof.
  intros [HP HB HM HC HS H0 HR HF] Hnu Hmax. pose proof (units_nonneg T HP).
  split; cbn [u_ptr u_size u_brk u_freep].
  - apply positive_app. split; [done|]. by repeat constructor.
  - rewrite units_app. simpl. lia.
  - rewrite units_app. simpl. unfold HEAPMAX in *. hlia.
  - apply coalesced_app. split; [done|]. simpl. by rewrite andb_false_r.
  - apply sized_app. rewrite <- HB. simpl. rewrite fn_lookup_insert. split; [|done].
    apply sized_ext with (u_size s); [done | | done]. intros x Hx. apply fn_lookup_insert_ne. hlia.
  - rewrite fn_lookup_insert_ne by hlia. done.
  - rewrite frees_app. simpl. by rewrite app_nil_r.
  - rewrite frees_app. simpl. by rewrite app_nil_r.
Qed.

Lemma morecore_spec s T nu fuel :
  heap s T -> 0 < nu < 2 ^ 27 -> (length T + 2 <= fuel)%nat ->
  (morecore grow fuel nu s = Ret None s /\ grow (u_brk s) (HSIZE * Z.max nu 4096) = false)
  \/ exists s' T', morecore grow fuel nu s = Ret (Some (u_freep s')) s' /\ heap s' T' /\ used lo T' = used lo T
     /\ (exists m, (m, true) ∈ T' /\ nu <= m) /\ (length T' <= length T + 1)%nat.
Proof.
  intros H Hnu Hfuel. unfold morecore. set (k := if nu <? 4096 then 4096 else nu).
  assert (nu <= k < 2 ^ 27) as Hk by (unfold k; bcase; lia).
  assert (i32 (u64 (k * HSIZE)) = k * HSIZE) as Ei by (unfold HSIZE; rewrite u64_small, i32_small by lia; done).
  unfold sbrk. rewrite Ei. destruct (grow (u_brk s) (k * HSIZE)) eqn:EG.
  2:{ left. split; [unfold mthen; by rewrite EG|]. rewrite <- EG. f_equal. unfold k. bcase; lia. }
  right. pose proof (grow_heap s T k H ltac:(lia) (Hgrow _ _ EG)) as Hg. set (s1 := Ust _ _ _ _) in Hg.
  destruct (free_run s1 T k [] fuel Hg) as (s' & T' & R & Hh & _ & Hu & (m & Hm & Hkm) & Hl); [simpl; hlia|].
  rewrite <- (hp_brk _ _ H) in R. exists s', T'.
  split; [|split; [done|split; [by rewrite Hu; simpl; rewrite app_nil_r|split; [exists m; split; [done|lia] | simpl in Hl; hlia]]]].
  etransitivity; [eapply mthen_ret; rewrite EG; reflexivity|]. unfold set_size. rewrite mthen_modify. cbn [u_ptr u_size u_brk u_freep].
  fold s1. rewrite (mthen_ret _ _ _ _ _ R). done.
Qed.

(** Before the first request the list is not there yet. *)
Definition ready (s : ust) (T : list tile) : Prop :=
  heap s T \/ u_freep s = 0 /\ T = [] /\ u_brk s = lo.

Lemma first_heap s :
  u_brk s = lo -> heap (Ust (<[base := base]> (u_ptr s)) (<[base := 0]> (u_size s)) base (u_brk s)) [].
Proof using Hbase.
  clear Hgrow Hlo grow. intros HB. split; cbn [u_ptr u_size u_brk u_freep]; simpl; try done; rewrite ?fn_lookup_insert; try done; try lia; [constructor | set_solver].
Qed.

Lemma sized_free size a T m : sized size a T -> (m, true) ∈ T -> exists x, x ∈ frees a T /\ size x = m.
Proof.
  revert a. induction T as [|[k b] T IH]; intros a; [by intros _ ?%not_elem_of_nil|].
  intros [Hk HT] [[= <- <-]|Hm]%elem_of_cons; [exists a; split; [set_solver | done]|].
  destruct (IH _ HT Hm) as (x & Hx & Hs). exists x. split; [|done]. simpl. apply elem_of_app. by right.
Qed.
Lemma frees_small s T n : heap s T -> (forall x, x ∈ frees lo T -> u_size s x < n) -> forall m, (m, true) ∈ T -> m < n.
Proof. intros H Hall m Hm. destruct (sized_free _ _ _ m (hp_size _ _ H) Hm) as (x & Hx & <-). by apply Hall. Qed.

Lemma units_of_spec nbytes :
  0 < nbytes <= 2 ^ 31 - 32 -> nbytes <= HSIZE * (units_of nbytes - 1) /\ 2 <= units_of nbytes < 2 ^ 27.
Proof.
  intros Hb. unfold units_of, HSIZE. rewrite (u64_small (nbytes + 16 - 1)) by lia.
  rewrite u32_small by dlia. dlia.
Qed.

Lemma malloc_run s T nu fuel :
  heap s T -> 0 < nu < 2 ^ 27 -> (2 * length T + 6 <= fuel)%nat ->
  exists r s' T', malloc_loop grow fuel nu (u_freep s) (u_ptr s (u_freep s)) s = Ret r s' /\ heap s' T'
    /\ ((exists a, r = a + HSIZE /\ used lo T' ≡ₚ (a, nu) :: used lo T)
        \/ r = 0 /\ T' = T /\ (forall m, (m, true) ∈ T -> m < nu) /\ grow (u_brk s) (HSIZE * Z.max nu 4096) = false).
Proof.
  intros H Hnu Hfuel.
  destruct (malloc_step s T nu fuel H ltac:(lia) ltac:(hlia)) as [(s' & T' & a & R & H' & _ & Hu)|(Hall & fuel' & Hf & ->)].
  { exists (a + HSIZE), s', T'. split; [done|]. split; [done|]. left. by exists a. }
  destruct (morecore_spec s T nu fuel' H Hnu ltac:(hlia)) as [[R Hg]|(s1 & T1 & R & H1 & Hu1 & (m & Hm & Hle) & Hl)];
    rewrite (mthen_ret _ _ _ _ _ R).
  { exists 0, s, T. split; [done|]. split; [done|]. right. split_and!; try done. by apply frees_small with s. }
  rewrite mthen_gets.
  destruct (malloc_step s1 T1 nu fuel' H1 ltac:(lia) ltac:(hlia)) as [(s' & T' & a & R' & H' & _ & Hu)|(Hall' & _)].
  { exists (a + HSIZE), s', T'. split; [done|]. split; [done|]. left. exists a. by rewrite Hu, Hu1. }
  pose proof (frees_small s1 T1 nu H1 Hall' m Hm). lia.
Qed.
(** [malloc] from any state a program can be in. *)
Lemma malloc_ready s T nbytes fuel :
  ready s T -> 0 < nbytes <= 2 ^ 31 - 32 -> (2 * length T + 6 <= fuel)%nat ->
  exists r s' T', malloc base grow fuel nbytes s = Ret r s' /\ heap s' T'
    /\ ((exists a n, r = a + HSIZE /\ nbytes <= HSIZE * (n - 1) /\ used lo T' ≡ₚ (a, n) :: used lo T)
        \/ r = 0 /\ T' = T /\ (forall m, (m, true) ∈ T -> m < units_of nbytes)
           /\ grow (u_brk s) (HSIZE * Z.max (units_of nbytes) 4096) = false).
Proof.
  intros Hr Hn Hf. destruct (units_of_spec nbytes Hn) as [Hle Hu].
  unfold malloc. destruct (Z.eqb_spec nbytes 0); [lia|]. rewrite mthen_gets.
  assert (exists s0, heap s0 T /\ u_brk s0 = u_brk s /\
    (when u_freep s =? 0 do (set_freep base ;;; set_ptr base base ;;; set_size base 0)) s = Ret tt s0) as (s0 & H0 & HB & R0).
  { destruct Hr as [H|(HF & -> & HB)].
    - exists s. split; [done|]. split; [done|]. destruct (Z.eqb_spec (u_freep s) 0) as [E|]; [|done].
      pose proof (hp_freep _ _ H) as Hin. rewrite E in Hin.
      apply elem_of_cons in Hin as [?|Hin%frees_range]; [lia | hlia | apply H].
    - rewrite HF. eexists. split; [by apply first_heap|]. split; done. }
  rewrite (mthen_ret _ _ _ _ _ R0), mthen_gets. rewrite <- HB.
  destruct (malloc_run s0 T (units_of nbytes) fuel H0 ltac:(lia) Hf)
    as (r & s' & T' & R & H' & [(a & -> & Hp)|Hz]); eexists _, s', T'; split; try exact R; split; try done.
  - left. by exists a, (units_of nbytes).
  - by right.
Qed.
End Heap.

(** C24: the allocator on the blocks in use, for requests of 1 to 2^31 - 32
    bytes (for larger ones the size in headers no longer fits the [int] that
    [sbrk] takes, [malloc_wraps]), under a kernel that keeps the heap below 2^36
    bytes.  [malloc] always returns: the block is new and has at least the bytes
    asked for, and every other block stays as it was; it returns null only when
    no free block is large enough and the kernel refuses to move the break.
    [free] of a block in use always returns and gives exactly that block back.
    Both keep the list in order, complete and without neighbours that could be
    joined. *)
Theorem umalloc_spec base lo grow s T :
  0 < base -> base + HSIZE <= lo -> (forall b n, grow b n = true -> b + n <= lo + HEAPMAX) -> ready base lo s T ->
  (forall nbytes fuel, 0 < nbytes <= 2 ^ 31 - 32 -> (2 * length T + 6 <= fuel)%nat ->
     exists r s' T', malloc base grow fuel nbytes s = Ret r s' /\ heap base lo s' T'
       /\ ((exists a n, r = a + HSIZE /\ nbytes <= HSIZE * (n - 1) /\ used lo T' ≡ₚ (a, n) :: used lo T)
           \/ r = 0 /\ T' = T /\ (forall m, (m, true) ∈ T -> m < units_of nbytes)
              /\ grow (u_brk s) (HSIZE * Z.max (units_of nbytes) 4096) = false))
  /\ (forall a n fuel, (a, n) ∈ used lo T -> (length T + 2 <= fuel)%nat ->
     exists s' T', free fuel (a + HSIZE) s = Ret tt s' /\ heap base lo s' T' /\ u_brk s' = u_brk s
       /\ used lo T ≡ₚ (a, n) :: used lo T').
Proof.
  intros Hb Hlo Hg Hr. split; [intros; by apply malloc_ready|]. intros a n fuel Hin Hf. apply free_used; try done.
  destruct Hr as [|(_ & -> & _)]; [done | by apply not_elem_of_nil in Hin].
Qed.

(** ** A client of the allocator *)

Section Client.
Context (base lo : Z) (grow : Z -> Z -> bool).

(** The routine returns [r] and leaves [s'], whatever fuel it is given. *)
Definition returns {A} (m : nat -> M ust A) (s : ust) (r : A) (s' : ust) : Prop :=
  exists f0, forall fuel, (f0 <= fuel)%nat -> m fuel s = Ret r s'.

(** The states of a program that frees only blocks it has, each with the
    address and the number of bytes it asked for. *)
Inductive client : ust -> list (Z * Z) -> Prop :=
  | client_start s : u_freep s = 0 -> u_brk s = lo -> client s []
  | client_malloc s L nbytes r s' :
      client s L -> 0 < nbytes <= 2 ^ 31 - 32 -> returns (fun fuel => malloc base grow fuel nbytes) s r s' -> r <> 0 ->
      client s' ((r, nbytes) :: L)
  | client_malloc_fails s L nbytes s' :
      client s L -> 0 < nbytes <= 2 ^ 31 - 32 -> returns (fun fuel => malloc base grow fuel nbytes) s 0 s' -> client s' L
  | client_free s L1 r k L2 s' :
      client s (L1 ++ (r, k) :: L2) -> returns (fun fuel => free fuel r) s tt s' -> client s' (L1 ++ L2).
End Client.

Lemma returns_at {A} (m : nat -> M ust A) s r s' f :
  returns m s r s' -> exists fuel, (f <= fuel)%nat /\ m fuel s = Ret r s'.
Proof. intros [f0 H]. exists (f0 + f)%nat. split; [lia|]. apply H. lia. Qed.

(** The block behind an address the client has. *)
Definition block_of (p b : Z * Z) : Prop := p.1 = b.1 + HSIZE /\ p.2 <= HSIZE * (b.2 - 1).

Lemma client_inv base lo grow s L :
  0 < base -> base + HSIZE <= lo -> (forall b n, grow b n = true -> b + n <= lo + HEAPMAX) ->
  client base lo grow s L ->
  exists T B, ready base lo s T /\ used lo T ≡ₚ B /\ Forall2 block_of L B.
Proof.
  intros Hb Hlo Hg. induction 1 as [s HF HB|s L nbytes r s' HC (T & B & Hr & HU & HL) Hn HR Hr0|s L nbytes s' HC (T & B & Hr & HU & HL) Hn HR
      |s L1 r k L2 s' HC (T & B & Hr & HU & HL) HR].
  - exists [], []. split; [by right|]. by split.
  - destruct (returns_at _ _ _ _ (2 * length T + 6) HR) as (fuel & Hf & R).
    destruct (malloc_ready base lo Hb Hlo grow Hg s T nbytes fuel Hr Hn Hf) as (r' & s2 & T' & R' & H' & Hcase).
    rewrite R in R'. simplify_eq. destruct Hcase as [(a & n & -> & Hle & Hp)|(-> & _)]; [|done].
    exists T', ((a, n) :: B). split; [by left|]. split; [by rewrite Hp, HU|]. by constructor.
  - destruct (returns_at _ _ _ _ (2 * length T + 6) HR) as (fuel & Hf & R).
    destruct (malloc_ready base lo Hb Hlo grow Hg s T nbytes fuel Hr Hn Hf) as (r' & s2 & T' & R' & H' & Hcase).
    rewrite R in R'. simplify_eq. destruct Hcase as [(a & n & Ha & Hle & Hp)|(_ & -> & _)].
    + assert ((a, n) ∈ used lo T') as Hin; [rewrite Hp; set_solver|].
      apply used_range in Hin; [hlia | apply H'].
    + exists T, B. by split; [left|].
  - apply Forall2_app_inv_l in HL as (B1 & B2' & HL1 & HL2 & ->).
    apply Forall2_cons_inv_l in HL2 as ([a n] & B2 & [Hra _] & HL2 & ->). simpl in Hra.
    assert (heap base lo s T) as H.
    { destruct Hr as [|(_ & -> & _)]; [done|]. simpl in HU. apply Permutation_nil_l in HU. by destruct B1. }
    destruct (returns_at _ _ _ _ (length T + 2) HR) as (fuel & Hf & R).
    destruct (free_used base lo Hb Hlo s T a n fuel H) as (s2 & T' & R' & H' & _ & Hp); [rewrite HU; set_solver | done|].
    rewrite <- Hra, R in R'. simplify_eq.
    exists T', (B1 ++ B2). split; [by left|]. split; [|by apply Forall2_app].
    apply (Permutation_cons_inv (a := (a, n))). by rewrite <- Hp, HU, Permutation_middle.
Qed.

(** C21: a program that asks for at most 2^31 - 32 bytes at a time ([malloc_wraps]
    shows a larger request), whose heap stays below 2^36 bytes and moves only by
    [malloc], and that only frees blocks it has, never sees two of its blocks
    overlap, nor a block over an allocator's header or outside the heap; and
    when it has freed everything the whole heap is one free block again. *)
Theorem client_safe base lo grow s L :
  0 < base -> base + HSIZE <= lo -> (forall b n, grow b n = true -> b + n <= lo + HEAPMAX) ->
  client base lo grow s L ->
  (forall i r k, L !! i = Some (r, k) ->
     lo + HSIZE <= r /\ r + k <= u_brk s
     /\ forall j r' k', i <> j -> L !! j = Some (r', k') -> r + k <= r' - HSIZE \/ r' + k' <= r - HSIZE)
  /\ (L = [] -> u_brk s = lo \/ exists n, heap base lo s [(n, true)]).
Proof.
  intros Hb Hlo Hg (T & B & Hr & HU & HL)%client_inv; [|done..].
  assert (positive T /\ u_brk s = lo + HSIZE * units T) as [HP HB].
  { destruct Hr as [[]|(_ & -> & ->)]; [done | split; [constructor | simpl; hlia]]. }
  split.
  - intros i r k Hi. destruct (Forall2_lookup_l _ _ _ _ _ HL Hi) as ([a n] & HBi & Hra & Hle). simpl in *.
    assert ((a, n) ∈ used lo T) as Hin%used_range by (rewrite HU; by eapply list_elem_of_lookup_2); [|done].
    split; [hlia|]. split; [hlia|]. intros j r' k' Hij Hj.
    destruct (Forall2_lookup_l _ _ _ _ _ HL Hj) as ([a' n'] & HBj & Hra' & Hle'). simpl in *.
    symmetry in HU. apply Permutation_inj in HU as (_ & f & Hf & Hlk). rewrite Hlk in HBi, HBj.
    destruct (used_apart lo T (f i) (f j) _ _ HP HBi HBj ltac:(naive_solver)); simpl in *; [left | right]; hlia.
  - intros ->. apply Forall2_nil_inv_l in HL as ->. apply Permutation_nil_r in HU.
    destruct Hr as [H|(_ & _ & ->)]; [|by left].
    destruct (used_none lo false T HU) as [->|[n ->]]; [apply H | left; rewrite HB; simpl; hlia | right; by exists n].
Qed.

(** ** Concrete runs *)

Module Example.
(** The static header at 64, the heap from 4096 on, a kernel that lets the
    program have 1 MiB. *)
Definition kernel (brk n : Z) : bool := brk + n <=? 4096 + 2 ^ 20.
Definition start : ust := Ust (fun _ => 0) (fun _ => 0) 0 4096.
Definition step {A} (m : M ust A) (s : ust) : ust := match m s with Ret _ s' => s' | _ => s end.
(** 100 bytes, then 5000, then the first block given back. *)
Definition one : ust := step (malloc 64 kernel 20 100) start.
Definition two : ust := step (malloc 64 kernel 20 5000) one.
(** The heap with one used block of 4 headers. *)
Definition small : ust := Ust (fun _ => 64) (fun a => if a =? 4096 then 4 else 0) 64 4160.

Example one_value : malloc 64 kernel 20 100 start = Ret 69520 one.
Proof. reflexivity. Qed.
Example two_value : malloc 64 kernel 20 5000 one = Ret 64496 two.
Proof. reflexivity. Qed.
Example freed : u_size (step (free 20 69520) two) 69504 = 8.
Proof. vm_compute. reflexivity. Qed.

Lemma kernel_ok b n : kernel b n = true -> b + n <= 4096 + HEAPMAX.
Proof. unfold kernel, HEAPMAX. rewrite Z.leb_le. lia. Qed.

Lemma small_heap : heap 64 4096 small [(4, false)].
Proof. split; try done; [by repeat constructor | set_solver]. Qed.
End Example.

Lemma umalloc_spec_witness :
  (ready 64 4096 Example.start [] /\
   exists r s' T', malloc 64 Example.kernel 6 100 Example.start = Ret r s' /\ heap 64 4096 s' T'
     /\ ((exists a n, r = a + HSIZE /\ 100 <= HSIZE * (n - 1) /\ used 4096 T' ≡ₚ [(a, n)])
         \/ r = 0 /\ T' = [] /\ (forall m, (m, true) ∈ [] -> m < units_of 100)
            /\ Example.kernel (u_brk Example.start) (HSIZE * Z.max (units_of 100) 4096) = false))
  /\ exists s' T', free 3 4112 Example.small = Ret tt s' /\ heap 64 4096 s' T' /\ u_brk s' = 4160
       /\ [(4096, 4)] ≡ₚ (4096, 4) :: used 4096 T'.
Proof.
  assert (ready 64 4096 Example.start []) as Hr by (right; done).
  assert (ready 64 4096 Example.small [(4, false)]) as Hs by (left; exact Example.small_heap).
  assert (0 < 64) as Hb by lia. assert (64 + HSIZE <= 4096) as Hlo by (unfold HSIZE; lia).
  split; [split; [exact Hr|]|].
  - apply (proj1 (umalloc_spec 64 4096 Example.kernel Example.start [] Hb Hlo Example.kernel_ok Hr)); [lia | simpl; lia].
  - apply (proj2 (umalloc_spec 64 4096 Example.kernel Example.small [(4, false)] Hb Hlo Example.kernel_ok Hs) 4096 4 3%nat);
      [by left | simpl; lia].
Defined.

Lemma client_safe_witness :
  client 64 4096 Example.kernel Example.two [(64496, 5000); (69520, 100)]
  /\ 69520 + 100 <= u_brk Example.two /\ 64496 + 5000 <= 69520 - HSIZE.
Proof.
  assert (client 64 4096 Example.kernel Example.two [(64496, 5000); (69520, 100)]) as HC.
  { apply client_malloc with Example.one; [apply client_malloc with Example.start; [by constructor | lia | | done] | lia | | done];
      exists 20%nat; intros fuel Hf; do 20 (destruct fuel as [|fuel]; [lia|]); reflexivity. }
  split; [exact HC|].
  destruct (client_safe 64 4096 Example.kernel Example.two _ ltac:(lia) ltac:(unfold HSIZE; lia) Example.kernel_ok HC) as [H _].
  destruct (H 1%nat 69520 100 eq_refl) as (_ & Hb & Ha). split; [exact Hb|].
  destruct (Ha 0%nat 64496 5000 ltac:(lia) eq_refl) as [Ha'|Ha']; [unfold HSIZE in *; lia | exact Ha'].
Defined.

(** Above the bound of [umalloc_spec] the request for memory wraps: [nu * 16]
    is 2^32, the [int] that [sbrk] takes is 0, and the program gets a block
    that lies wholly above the break. *)
Example malloc_wraps :
  let s' := Example.step (malloc 64 Example.kernel 20 (2 ^ 32 - 16)) Example.start in
  malloc 64 Example.kernel 20 (2 ^ 32 - 16) Example.start = Ret (4096 + HSIZE) s' /\ u_brk s' = 4096.
Proof. split; reflexivity. Qed.
