(* ===== verification/User.v ===== *)
(** User programs (src/cat.c, echo.c, kill.c, rm.c, mkdir.c, ln.c, ls.c, init.c,
    forktest.c, forphan.c, dorphan.c, logstress.c, grind.c, and what src/ulib.c and
    src/user.h add to the system calls).

    A program is an interaction tree over the system calls: what it does next
    depends on the kernel's answers, and it may go on for ever.  [exit] never
    returns; [fork] answers 0 in the child, so a path through the tree follows
    one process.  A C string is the list of its characters; [argv] is the list
    of the arguments with the name of the program first.  [read] answers with
    the bytes it stored, [None] for -1.  [printf] is expanded at the call into
    the characters it writes, one system call each, as PrintfProof.v shows. *)

From S2P Require Import Prelude.
From S2P Require Import Fs.
From S2P Require Import FsDir.
From S2P Require Import FsPath.
From S2P Require Import Printf.
From ITree Require Import ITree.

(** ** System calls *)

Inductive sysE : Type -> Type :=
| SFork : sysE Z
| SExit (status : Z) : sysE ()
| SWait : sysE (Z * Z)
| SPipe : sysE (option (Z * Z))
| SRead (fd n : Z) : sysE (option (list Z))
| SWrite (fd : Z) (bytes : list Z) : sysE Z
| SClose (fd : Z) : sysE Z
| SOpen (path : list Z) (mode : Z) : sysE Z
| SMknod (path : list Z) (major minor : Z) : sysE Z
| SUnlink (path : list Z) : sysE Z
| SLink (old new : list Z) : sysE Z
| SMkdir (path : list Z) : sysE Z
| SChdir (path : list Z) : sysE Z
| SFstat (fd : Z) : sysE (option stat)
| SDup (fd : Z) : sysE Z
| SGetpid : sysE Z
| SSbrk (n lazy : Z) : sysE Z
| SPause (n : Z) : sysE Z
| SKill (pid : Z) : sysE Z
| SExec (path : list Z) (argv : list (list Z)) : sysE Z.

Abbreviation prog := (itree sysE).

Declare Scope user_scope.
Notation "'let*' x ':=' m 'in' k" := (ITree.bind m (fun x => k))
  (at level 10, x name, m at level 200, k at level 200) : user_scope.
Notation "m ';;;' k" := (ITree.bind m (fun _ => k))
  (at level 199, right associativity) : user_scope.
Open Scope user_scope.

Definition sys {A} (e : sysE A) : prog A := ITree.trigger e.
Definition ret {A} (a : A) : prog A := Ret a.
Definition exit {A} (status : Z) : prog A := sys (SExit status) ;;; ITree.spin.

(** [SBRK_EAGER], [SBRK_LAZY] *)
Definition sbrk (n : Z) : prog Z := sys (SSbrk n 1).
Definition sbrklazy (n : Z) : prog Z := sys (SSbrk n 2).

Definition O_RDONLY : Z := 0x000.
Definition O_WRONLY : Z := 0x001.
Definition O_RDWR : Z := 0x002.
Definition O_CREATE : Z := 0x200.
Definition CONSOLE : Z := 1.
Definition T_FILE : Z := 2.
Definition T_DEVICE : Z := 3.

(** ** Text *)

Fixpoint str (s : string) : list Z :=
  match s with
  | EmptyString => []
  | String c s' => Z.of_N (Ascii.N_of_ascii c) :: str s'
  end.
Definition nl : list Z := [10].
(** What [%d] prints. *)
Definition dec (n : Z) : list Z := default [] (printint user_digits n 10 true).

Fixpoint fprintf (fd : Z) (out : list Z) : prog () :=
  match out with
  | [] => ret tt
  | c :: out' => sys (SWrite fd [c]) ;;; fprintf fd out'
  end.
Definition printf (out : list Z) : prog () := fprintf 1 out.
Definition fail {A} (fd : Z) (out : list Z) : prog A := fprintf fd out ;;; exit 1.

(** ** ulib.c *)

Definition start (main : prog Z) : prog () := let* r := main in exit r.

(** [stat(n, &st)]: [None] for -1. *)
Definition ustat (n : list Z) : prog (option stat) :=
  let* fd := sys (SOpen n O_RDONLY) in
  if fd <? 0 then ret None else
  let* r := sys (SFstat fd) in
  sys (SClose fd) ;;;
  ret r.

(** ** cat, echo *)

Definition cat (fd : Z) : prog () :=
  let* n := ITree.iter (fun _ : () =>
    let* r := sys (SRead fd 512) in
    match r with
    | None => ret (inr (-1))
    | Some [] => ret (inr 0)
    | Some buf =>
        let n := Z.of_nat (length buf) in
        let* w := sys (SWrite 1 buf) in
        if negb (w =? n) then fail 2 (str "cat: write error" ++ nl) else ret (inl tt)
    end) tt in
  if n <? 0 then fail 2 (str "cat: read error" ++ nl) else ret tt.

Fixpoint cat_files (args : list (list Z)) : prog () :=
  match args with
  | [] => ret tt
  | a :: args' =>
      let* fd := sys (SOpen a O_RDONLY) in
      if fd <? 0 then fail 2 (str "cat: cannot open " ++ a ++ nl) else
      cat fd ;;;
      sys (SClose fd) ;;;
      cat_files args'
  end.
Definition cat_main (argv : list (list Z)) : prog () :=
  match tail argv with
  | [] => cat 0 ;;; exit 0
  | args => cat_files args ;;; exit 0
  end.

Fixpoint echo_args (args : list (list Z)) : prog () :=
  match args with
  | [] => ret tt
  | a :: args' =>
      sys (SWrite 1 a) ;;;
      match args' with
      | [] => ret tt
      | _ => sys (SWrite 1 (str " ")) ;;; echo_args args'
      end
  end.
Definition echo_main (argv : list (list Z)) : prog () :=
  echo_args (tail argv) ;;;
  sys (SWrite 1 nl) ;;;
  exit 0.

(** ** rm, mkdir, ln, kill *)

Fixpoint all_args (f : list Z -> prog Z) (msg : list Z -> list Z) (args : list (list Z)) : prog () :=
  match args with
  | [] => ret tt
  | a :: args' => let* r := f a in if r <? 0 then fail 2 (msg a) else all_args f msg args'
  end.
Definition rm_main (argv : list (list Z)) : prog () :=
  if (length argv <? 2)%nat then fail 2 (str "Usage: rm files..." ++ nl) else
  all_args (fun a => sys (SUnlink a)) (fun a => str "rm: " ++ a ++ str " failed to delete" ++ nl) (tail argv) ;;;
  exit 0.
Definition mkdir_main (argv : list (list Z)) : prog () :=
  if (length argv <? 2)%nat then fail 2 (str "Usage: mkdir files..." ++ nl) else
  all_args (fun a => sys (SMkdir a)) (fun a => str "mkdir: " ++ a ++ str " failed to create" ++ nl) (tail argv) ;;;
  exit 0.
Definition ln_main (argv : list (list Z)) : prog () :=
  match argv with
  | [_; old; new] =>
      let* r := sys (SLink old new) in
      if r <? 0 then fail 2 (str "link " ++ old ++ str " " ++ new ++ str ": failed" ++ nl) else exit 0
  | _ => fail 2 (str "Usage: ln old new" ++ nl)
  end.

(** [atoi] on the characters. *)
Fixpoint atoi_from (n : Z) (s : list Z) : Z :=
  match s with
  | c :: s' => if (48 <=? c) && (c <=? 57) then atoi_from (i32 (n * 10 + c - 48)) s' else n
  | [] => n
  end.
Definition atoi (s : list Z) : Z := atoi_from 0 s.

Fixpoint kill_args (args : list (list Z)) : prog () :=
  match args with
  | [] => ret tt
  | a :: args' =>
      let pid := atoi a in
      if pid <=? 0 then fprintf 2 (str "kill: invalid pid " ++ a ++ nl) ;;; kill_args args' else
      let* r := sys (SKill pid) in
      (if r <? 0 then fprintf 2 (str "kill: " ++ a ++ str " failed" ++ nl) else ret tt) ;;;
      kill_args args'
  end.
Definition kill_main (argv : list (list Z)) : prog () :=
  if (length argv <? 2)%nat then fail 2 (str "usage: kill pid..." ++ nl) else
  kill_args (tail argv) ;;; exit 0.

(** ** ls *)

(** The part of the path after the last slash. *)
Fixpoint after_slash (path : list Z) : list Z :=
  match path with
  | [] => []
  | c :: path' => if bool_decide (SLASH ∈ path) then after_slash path' else path
  end.
Definition fmtname (path : list Z) : list Z :=
  let p := after_slash path in
  if (DIRSIZ <=? length p)%nat then p else p ++ replicate (DIRSIZ - length p) 32.

Definition ls_line (name : list Z) (st : stat) : list Z :=
  name ++ str " " ++ dec (st_type st) ++ str " " ++ dec (i32 (st_ino st)) ++ str " " ++ dec (i32 (st_size st)) ++ nl.

Definition ls_dir (fd : Z) (path : list Z) : prog () :=
  ITree.iter (fun _ : () =>
    let* r := sys (SRead fd SZ_DIRENT) in
    match r with
    | Some bs =>
        if negb (Z.of_nat (length bs) =? SZ_DIRENT) then ret (inr tt) else
        let de := get_dirent bs in
        if de_inum de =? 0 then ret (inl tt) else
        let buf := path ++ [SLASH] ++ cname (de_name de) in
        let* st := ustat buf in
        match st with
        | None => printf (str "ls: cannot stat " ++ buf ++ nl) ;;; ret (inl tt)
        | Some st => printf (ls_line (fmtname buf) st) ;;; ret (inl tt)
        end
    | None => ret (inr tt)
    end) tt.

Definition ls (path : list Z) : prog () :=
  let* fd := sys (SOpen path O_RDONLY) in
  if fd <? 0 then fprintf 2 (str "ls: cannot open " ++ path ++ nl) else
  let* r := sys (SFstat fd) in
  match r with
  | None => fprintf 2 (str "ls: cannot stat " ++ path ++ nl) ;;; sys (SClose fd) ;;; ret tt
  | Some st =>
      (if (st_type st =? T_DEVICE) || (st_type st =? T_FILE) then printf (ls_line (fmtname path) st)
       else if st_type st =? T_DIR then
         if 512 <? Z.of_nat (length path) + 1 + Z.of_nat DIRSIZ + 1 then printf (str "ls: path too long" ++ nl)
         else ls_dir fd path
       else ret tt) ;;;
      sys (SClose fd) ;;; ret tt
  end.
Fixpoint ls_args (args : list (list Z)) : prog () :=
  match args with [] => ret tt | a :: args' => ls a ;;; ls_args args' end.
Definition ls_main (argv : list (list Z)) : prog () :=
  if (length argv <? 2)%nat then ls (str ".") ;;; exit 0 else ls_args (tail argv) ;;; exit 0.

(** ** init *)

(** Wait until the shell exits; other children are orphans. *)
Definition init_wait (pid : Z) : prog () :=
  ITree.iter (fun _ : () =>
    let* r := sys SWait in
    let wpid := r.1 in
    if wpid =? pid then ret (inr tt)
    else if wpid <? 0 then printf (str "init: wait returned an error" ++ nl) ;;; exit 1
    else ret (inl tt)) tt.

Definition init_shell : prog () :=
  printf (str "init: starting sh" ++ nl) ;;;
  let* pid := sys SFork in
  if pid <? 0 then printf (str "init: fork failed" ++ nl) ;;; exit 1 else
  if pid =? 0 then
    sys (SExec (str "sh") [str "sh"]) ;;;
    printf (str "init: exec sh failed" ++ nl) ;;;
    exit 1
  else init_wait pid.

Definition init_main : prog () :=
  let* fd := sys (SOpen (str "console") O_RDWR) in
  (if fd <? 0 then
     sys (SMknod (str "console") CONSOLE 0) ;;;
     sys (SOpen (str "console") O_RDWR) ;;;
     ret tt
   else ret tt) ;;;
  sys (SDup 0) ;;;
  sys (SDup 0) ;;;
  ITree.iter (fun _ : () => init_shell ;;; ret (inl tt)) tt.

(** ** forktest *)

Definition N : nat := 1000.

(** The children that were started, at most [left] more. *)
Fixpoint fork_loop (left n : nat) : prog nat :=
  match left with
  | O => ret n
  | S left' =>
      let* pid := sys SFork in
      if pid <? 0 then ret n else
      if pid =? 0 then exit 0 else
      fork_loop left' (S n)
  end.
Fixpoint reap_loop (n : nat) : prog () :=
  match n with
  | O => ret tt
  | S n' =>
      let* r := sys SWait in
      if r.1 <? 0 then sys (SWrite 1 (str "wait stopped early" ++ nl)) ;;; exit 1 else reap_loop n'
  end.
Definition forktest : prog () :=
  sys (SWrite 1 (str "fork test" ++ nl)) ;;;
  let* n := fork_loop N 0 in
  if (n =? N)%nat then sys (SWrite 1 (str "fork claimed to work N times!" ++ nl)) ;;; exit 1 else
  reap_loop n ;;;
  let* r := sys SWait in
  if negb (r.1 =? -1) then sys (SWrite 1 (str "wait got too many" ++ nl)) ;;; exit 1 else
  sys (SWrite 1 (str "fork test OK" ++ nl)) ;;;
  ret tt.
Definition forktest_main : prog () := forktest ;;; exit 0.

(** ** forphan, dorphan *)

Definition pause_forever : prog () := ITree.iter (fun _ : () => sys (SPause 1000) ;;; ret (inl tt)) tt.

Definition forphan_main (argv : list (list Z)) : prog () :=
  let s := default [] (head argv) in
  let ff := str "file0" in
  let* fd := sys (SOpen ff (Z.lor O_CREATE O_WRONLY)) in
  if fd <? 0 then fail 1 (s ++ str ": open failed" ++ nl) else
  let* st := sys (SFstat fd) in
  match st with
  | None =>
      fprintf 2 (s ++ str ": cannot stat " ++ ff ++ nl) ;;; sys (SClose fd) ;;; exit 1
  | Some st =>
      let* r := sys (SUnlink ff) in
      if r <? 0 then printf (s ++ str ": unlink failed" ++ nl) ;;; sys (SClose fd) ;;; exit 1 else
      let* r := sys (SOpen ff O_RDONLY) in
      if r >=? 0 then
        printf (s ++ str ": open succeeded when it should have failed" ++ nl) ;;; sys (SClose fd) ;;; exit 1
      else
        printf (str "wait for kill and reclaim " ++ dec (i32 (st_ino st)) ++ nl) ;;;
        pause_forever
  end.

Definition dorphan_main (argv : list (list Z)) : prog () :=
  let s := default [] (head argv) in
  let* r := sys (SMkdir (str "dd")) in
  if negb (r =? 0) then fail 1 (s ++ str ": mkdir dd failed" ++ nl) else
  let* r := sys (SChdir (str "dd")) in
  if negb (r =? 0) then fail 1 (s ++ str ": chdir dd failed" ++ nl) else
  let* r := sys (SUnlink (str "../dd")) in
  if r <? 0 then fail 1 (s ++ str ": unlink failed" ++ nl) else
  printf (str "wait for kill and reclaim" ++ nl) ;;;
  pause_forever.

(** ** logstress *)

Section Logstress.
(** [snprintf(buf, n, ...)], which neither the user library nor src/user.h has:
    the string it leaves in the buffer and its result, from the size and the
    text. *)
Context (snprintf : Z -> list Z -> list Z * Z).

(** [snprintf(...) >= sizeof(buf)], an [int] with a [size_t]. *)
Definition too_long (r size : Z) : bool := u64 r >=? size.

Fixpoint upto (n : nat) (k : Z) (body : Z -> prog ()) : prog () :=
  match n with O => ret tt | S n' => body k ;;; upto n' (k + 1) body end.

Definition stress_file (j : Z) : prog () :=
  let '(fname, r) := snprintf 32 (str "logfile" ++ dec j) in
  if too_long r 32 then fail 1 (str "logstress: filename too long" ++ nl) else
  let* fd := sys (SOpen fname (Z.lor O_CREATE O_RDWR)) in
  if fd <? 0 then fail 1 (str "logstress: create " ++ fname ++ str " failed" ++ nl) else
  let* w := sys (SWrite fd (str "hello world")) in
  if negb (w =? 11) then printf (str "logstress: write failed" ++ nl) ;;; sys (SClose fd) ;;; exit 1 else
  sys (SClose fd) ;;;
  let* r := sys (SUnlink fname) in
  if r <? 0 then fail 1 (str "logstress: unlink " ++ fname ++ str " failed" ++ nl) else ret tt.

Definition stress_dir (i : Z) : prog () :=
  let '(fname, r) := snprintf 32 (str "logdir" ++ dec i) in
  if too_long r 32 then fail 1 (str "logstress: dirname too long" ++ nl) else
  let* r := sys (SMkdir fname) in
  if r <? 0 then fail 1 (str "logstress: mkdir " ++ fname ++ str " failed" ++ nl) else
  let '(fpath, r) := snprintf 64 (fname ++ str "/file") in
  if too_long r 64 then fail 1 (str "logstress: filepath too long" ++ nl) else
  let* fd := sys (SOpen fpath (Z.lor O_CREATE O_RDWR)) in
  if fd <? 0 then fail 1 (str "logstress: create " ++ fpath ++ str " failed" ++ nl) else
  let* w := sys (SWrite fd (str "test")) in
  if negb (w =? 4) then printf (str "logstress: write to " ++ fpath ++ str " failed" ++ nl) ;;; sys (SClose fd) ;;; exit 1 else
  sys (SClose fd) ;;;
  let* r := sys (SUnlink fpath) in
  if r <? 0 then fail 1 (str "logstress: unlink " ++ fpath ++ str " failed" ++ nl) else
  let* r := sys (SUnlink fname) in
  if r <? 0 then fail 1 (str "logstress: rmdir " ++ fname ++ str " failed" ++ nl) else ret tt.

Definition logstress : prog () :=
  printf (str "logstress: start" ++ nl) ;;;
  upto 100 0 (fun i =>
    upto 10 0 stress_file ;;;
    if i mod 10 =? 0 then printf (str "logstress: iteration " ++ dec i ++ nl) else ret tt) ;;;
  upto 50 0 stress_dir ;;;
  printf (str "logstress: done" ++ nl).

Fixpoint stress_fork (n : nat) : prog () :=
  match n with
  | O => ret tt
  | S n' =>
      let* pid := sys SFork in
      if pid <? 0 then fail 1 (str "logstress: fork failed" ++ nl) else
      if pid =? 0 then logstress ;;; exit 0 else stress_fork n'
  end.
(** [status] is not initialised: a [wait] that fails leaves [stale] in it. *)
Fixpoint stress_wait (n : nat) (stale : Z) : prog () :=
  match n with
  | O => ret tt
  | S n' =>
      let* r := sys SWait in
      let status := if r.1 <? 0 then stale else r.2 in
      (if negb (status =? 0) then printf (str "logstress: child exited with status " ++ dec status ++ nl) else ret tt) ;;;
      stress_wait n' status
  end.

Definition logstress_main (argv : list (list Z)) (stale : Z) : prog () :=
  let nproc := match tail argv with [] => 1 | a :: _ => atoi a end in
  if (nproc <=? 0) || (nproc >? 10) then fail 1 (str "logstress: invalid nproc " ++ dec nproc ++ nl) else
  printf (str "logstress: starting " ++ dec nproc ++ str " processes" ++ nl) ;;;
  stress_fork (Z.to_nat nproc) ;;;
  stress_wait (Z.to_nat nproc) stale ;;;
  printf (str "logstress: all processes done" ++ nl) ;;;
  exit 0.
End Logstress.

(** ** grind

    [rand_next] and the buffer are copied by [fork], so they are part of the
    state of one process: [grind_st] is what [go] keeps between two turns. *)

(** [do_rand(&ctx)]: the new [ctx], which is also the result.  The
    intermediate values are [long]s. *)
Definition do_rand (ctx : Z) : Z :=
  let x := ctx mod 0x7ffffffe + 1 in
  let hi := x ÷ 127773 in
  let lo := Z.rem x 127773 in
  let x := 16807 * lo - 2836 * hi in
  let x := if x <? 0 then x + 0x7fffffff else x in
  x - 1.

Record grind_st := Grind { g_fd : Z; g_buf : list Z; g_rand : Z; g_iters : Z; g_break0 : Z }.
Definition set_g_fd fd g := Grind fd (g_buf g) (g_rand g) (g_iters g) (g_break0 g).
Definition set_g_buf b g := Grind (g_fd g) b (g_rand g) (g_iters g) (g_break0 g).

Definition grind_fail {A} (fd : Z) (msg : string) (status : Z) : prog A := fprintf fd (str msg ++ nl) ;;; exit status.
Definition RDWR_CREATE : Z := Z.lor O_CREATE O_RDWR.
Definition create (path : string) : prog Z := sys (SOpen (str path) RDWR_CREATE).
Definition close_ (fd : Z) : prog () := sys (SClose fd) ;;; ret tt.
(** A system call whose result is ignored. *)
Definition quiet (m : prog Z) : prog () := m ;;; ret tt.
Definition unlink (path : string) : prog () := quiet (sys (SUnlink (str path))).
Definition link (old new : string) : prog () := quiet (sys (SLink (str old) (str new))).
Definition mkdir (path : string) : prog () := quiet (sys (SMkdir (str path))).
Definition chdir (path : string) : prog Z := sys (SChdir (str path)).
Definition wait0 : prog () := sys SWait ;;; ret tt.

(** [pid = fork(); if(pid == 0) { child; exit(0); } else if(pid < 0) fail] *)
Definition forked (child : Z -> prog ()) (parent : Z -> prog ()) : prog () :=
  let* pid := sys SFork in
  if pid =? 0 then child pid ;;; exit 0
  else if pid <? 0 then grind_fail 1 "grind: fork failed" 1
  else parent pid.

(** Case 21: a file from creation to removal. *)
Definition turn_file : prog () :=
  unlink "c" ;;;
  let* fd1 := create "c" in
  if fd1 <? 0 then grind_fail 1 "grind: create c failed" 1 else
  let* w := sys (SWrite fd1 (str "x")) in
  if negb (w =? 1) then grind_fail 1 "grind: write c failed" 1 else
  let* st := sys (SFstat fd1) in
  match st with
  | None => grind_fail 1 "grind: fstat failed" 1
  | Some st =>
      if negb (st_size st =? 1) then
        printf (str "grind: fstat reports wrong size " ++ dec (i32 (st_size st)) ++ nl) ;;; exit 1
      else if st_ino st >? 200 then
        printf (str "grind: fstat reports crazy i-number " ++ dec (i32 (st_ino st)) ++ nl) ;;; exit 1
      else close_ fd1 ;;; unlink "c"
  end.

(** Case 19: a byte through a pipe, four processes at both ends. *)
Definition turn_pipe : prog () :=
  let* fds := sys SPipe in
  match fds with
  | None => grind_fail 1 "grind: pipe failed" 1
  | Some (r, w) =>
      forked (fun _ =>
        sys SFork ;;;
        sys SFork ;;;
        let* n := sys (SWrite w (str "x")) in
        (if negb (n =? 1) then printf (str "grind: pipe write failed" ++ nl) else ret tt) ;;;
        let* c := sys (SRead r 1) in
        (if bool_decide (option_map length c = Some 1%nat) then ret tt else printf (str "grind: pipe read failed" ++ nl)))
      (fun _ => close_ r ;;; close_ w ;;; wait0)
  end.

(** Case 22: [echo hi | cat] with two pipes. *)
Definition echo_child (a0 a1 b0 b1 : Z) : prog () :=
  close_ b0 ;;; close_ b1 ;;; close_ a0 ;;; close_ 1 ;;;
  let* d := sys (SDup a1) in
  if negb (d =? 1) then grind_fail 2 "grind: dup failed" 1 else
  close_ a1 ;;;
  sys (SExec (str "grindir/../echo") [str "echo"; str "hi"]) ;;;
  grind_fail 2 "grind: echo: not found" 2.
Definition cat_child (a0 a1 b0 b1 : Z) : prog () :=
  close_ a1 ;;; close_ b0 ;;; close_ 0 ;;;
  let* d := sys (SDup a0) in
  if negb (d =? 0) then grind_fail 2 "grind: dup failed" 4 else
  close_ a0 ;;; close_ 1 ;;;
  let* d := sys (SDup b1) in
  if negb (d =? 1) then grind_fail 2 "grind: dup failed" 5 else
  close_ b1 ;;;
  sys (SExec (str "/cat") [str "cat"]) ;;;
  grind_fail 2 "grind: cat: not found" 6.
(** One byte into [buf+i]; the buffer keeps what it had when nothing is read. *)
Definition read_byte (fd : Z) (i : nat) (buf : list Z) : prog (list Z) :=
  let* r := sys (SRead fd 1) in
  ret (match r with Some [c] => <[i := c]> buf | _ => buf end).
(** [st1] and [st2] are not initialised: [stale] is what a failed [wait] leaves. *)
Definition wait_status (stale : Z) : prog Z :=
  let* r := sys SWait in ret (if r.1 <? 0 then stale else r.2).

Definition turn_pipeline (stale1 stale2 : Z) : prog () :=
  let* aa := sys SPipe in
  match aa with
  | None => grind_fail 2 "grind: pipe failed" 1
  | Some (a0, a1) =>
      let* bb := sys SPipe in
      match bb with
      | None => grind_fail 2 "grind: pipe failed" 1
      | Some (b0, b1) =>
          let* pid1 := sys SFork in
          if pid1 =? 0 then echo_child a0 a1 b0 b1
          else if pid1 <? 0 then grind_fail 2 "grind: fork failed" 3 else
          let* pid2 := sys SFork in
          if pid2 =? 0 then cat_child a0 a1 b0 b1
          else if pid2 <? 0 then grind_fail 2 "grind: fork failed" 7 else
          close_ a0 ;;; close_ a1 ;;; close_ b1 ;;;
          let* buf := read_byte b0 0 [0; 0; 0; 0] in
          let* buf := read_byte b0 1 buf in
          let* buf := read_byte b0 2 buf in
          close_ b0 ;;;
          let* st1 := wait_status stale1 in
          let* st2 := wait_status stale2 in
          if negb (st1 =? 0) || negb (st2 =? 0) || negb (bool_decide (FsPath.cname buf = str "hi" ++ nl)) then
            printf (str "grind: exec pipeline failed " ++ dec st1 ++ str " " ++ dec st2 ++ str " " ++ [34] ++ FsPath.cname buf ++ [34] ++ nl) ;;;
            exit 1
          else ret tt
      end
  end.

(** The [switch]; the value is the state after it. *)
Definition turn (what : Z) (stale1 stale2 : Z) (g : grind_st) : prog grind_st :=
  let keep (m : prog ()) := m ;;; ret g in
  match what with
  | 1 => keep (let* fd := create "grindir/../a" in close_ fd)
  | 2 => keep (let* fd := create "grindir/../grindir/../b" in close_ fd)
  | 3 => keep (unlink "grindir/../a")
  | 4 => keep (let* r := chdir "grindir" in
               if negb (r =? 0) then grind_fail 1 "grind: chdir grindir failed" 1 else
               unlink "../b" ;;; quiet (chdir "/"))
  | 5 => close_ (g_fd g) ;;; let* fd := create "/grindir/../a" in ret (set_g_fd fd g)
  | 6 => close_ (g_fd g) ;;; let* fd := create "/./grindir/./../b" in ret (set_g_fd fd g)
  | 7 => keep (if g_fd g >=? 0 then quiet (sys (SWrite (g_fd g) (g_buf g))) else ret tt)
  | 8 => if g_fd g >=? 0 then
           let* r := sys (SRead (g_fd g) 999) in
           let bs := default [] r in
           ret (set_g_buf (bs ++ drop (length bs) (g_buf g)) g)
         else ret g
  | 9 => keep (mkdir "grindir/../a" ;;; (let* fd := create "a/../a/./a" in close_ fd) ;;; unlink "a/a")
  | 10 => keep (mkdir "/../b" ;;; (let* fd := create "grindir/../b/b" in close_ fd) ;;; unlink "b/b")
  | 11 => keep (unlink "b" ;;; link "../grindir/./../a" "../b")
  | 12 => keep (unlink "../grindir/../a" ;;; link ".././b" "/grindir/../a")
  | 13 => keep (forked (fun _ => ret tt) (fun _ => wait0))
  | 14 => keep (forked (fun _ => quiet (sys SFork) ;;; quiet (sys SFork)) (fun _ => wait0))
  | 15 => keep (quiet (sbrk 6011))
  | 16 => keep (let* b := sbrk 0 in
                if b >? g_break0 g then let* b := sbrk 0 in quiet (sbrk (i32 (- (b - g_break0 g)))) else ret tt)
  | 17 => keep (forked (fun _ => let* fd := create "a" in close_ fd)
                       (fun pid => let* r := chdir "../grindir/.." in
                                   if negb (r =? 0) then grind_fail 1 "grind: chdir failed" 1 else
                                   quiet (sys (SKill pid)) ;;; wait0))
  | 18 => keep (forked (fun _ => let* pid := sys SGetpid in quiet (sys (SKill pid))) (fun _ => wait0))
  | 19 => keep turn_pipe
  | 20 => keep (forked (fun _ => unlink "a" ;;; mkdir "a" ;;; quiet (chdir "a") ;;; unlink "../a" ;;;
                                 quiet (create "x") ;;; unlink "x")
                       (fun _ => wait0))
  | 21 => keep turn_file
  | 22 => keep (turn_pipeline stale1 stale2)
  | _ => ret g
  end.

Section Go.
(** What [st1] and [st2] of case 22 hold at the start. *)
Context (stale1 stale2 : Z).

Definition one_turn (which_child : Z) (g : grind_st) : prog grind_st :=
  let iters := u64 (g_iters g + 1) in
  (if iters mod 500 =? 0 then quiet (sys (SWrite 1 (str (if which_child =? 0 then "A" else "B")))) else ret tt) ;;;
  let r := do_rand (g_rand g) in
  turn (r mod 23) stale1 stale2 (Grind (g_fd g) (g_buf g) r iters (g_break0 g)).

Definition go (which_child rand_next : Z) : prog () :=
  let* break0 := sbrk 0 in
  mkdir "grindir" ;;;
  let* r := chdir "grindir" in
  if negb (r =? 0) then grind_fail 1 "grind: chdir grindir failed" 1 else
  quiet (chdir "/") ;;;
  ITree.iter (fun g => let* g := one_turn which_child g in ret (inl g))
    (Grind (-1) (replicate 999 0) rand_next 0 break0).

Definition iter (rand_next : Z) : prog () :=
  unlink "a" ;;;
  unlink "b" ;;;
  let* pid1 := sys SFork in
  if pid1 <? 0 then grind_fail 1 "grind: fork failed" 1 else
  if pid1 =? 0 then go 0 (Z.lxor rand_next 31) ;;; exit 0 else
  let* pid2 := sys SFork in
  if pid2 <? 0 then grind_fail 1 "grind: fork failed" 1 else
  if pid2 =? 0 then go 1 (Z.lxor rand_next 7177) ;;; exit 0 else
  let* st1 := wait_status (-1) in
  (if negb (st1 =? 0) then quiet (sys (SKill pid1)) ;;; quiet (sys (SKill pid2)) else ret tt) ;;;
  let* _ := wait_status (-1) in
  exit 0.

Definition grind_main : prog () :=
  ITree.iter (fun rand_next =>
    let* pid := sys SFork in
    (if pid =? 0 then iter rand_next ;;; exit 0 else ret tt) ;;;
    (if pid >? 0 then wait0 else ret tt) ;;;
    sys (SPause 20) ;;;
    ret (inl (u64 (rand_next + 1)))) 1.
End Go.
