(* ===== verification/UserWp.v ===== *)
(** Weakest preconditions for user programs.

    A monitor watches the system calls of a program: its state [S] changes with
    each call and answer ([next]), and [env] says which answers the kernel may
    give.  [wp t Q s] says that, whatever the answers, the invariant [Inv] holds
    after every step of [t] started in [s], and [Q] when [t] returns.  The rules
    follow the program; the one for loops takes a loop invariant, and covers
    loops that never end. *)

From S2P Require Import Prelude.
From S2P Require Import User.
From ITree Require Import ITree.

Section Wp.
Context {S : Type}.
Context (env : forall A, sysE A -> A -> S -> Prop) (next : forall A, sysE A -> A -> S -> S) (Inv : S -> Prop).

(** [n] steps from a tree and a state to a tree and a state. *)
Fixpoint runs {R} (n : nat) (t : itree' sysE R) (s : S) (t' : itree' sysE R) (s' : S) : Prop :=
  match n with
  | O => t' = t /\ s' = s
  | Datatypes.S n' =>
      match t with
      | RetF _ => False
      | TauF u => runs n' (observe u) s t' s'
      | VisF e k => exists a, env _ e a s /\ runs n' (observe (k a)) (next _ e a s) t' s'
      end
  end.

Definition wpn {R} (m : nat) (t : prog R) (Q : R -> S -> Prop) (s : S) : Prop :=
  forall n t' s', (n <= m)%nat -> runs n (observe t) s t' s' -> Inv s' /\ forall r, t' = RetF r -> Q r s'.
Definition wp {R} (t : prog R) (Q : R -> S -> Prop) (s : S) : Prop := forall m, wpn m t Q s.

Lemma wp_safe {R} (t : prog R) Q s n t' s' : wp t Q s -> runs n (observe t) s t' s' -> Inv s'.
Proof. intros W Hr. by apply (W n n t' s'). Qed.

Lemma wpn_mono {R} m (t : prog R) (Q Q' : R -> S -> Prop) s : wpn m t Q s -> (forall r s', Q r s' -> Q' r s') -> wpn m t Q' s.
Proof. intros W HQ n t' s' Hn Hr. destruct (W n t' s' Hn Hr) as [HI Hq]. split; [done|]. intros r Er. apply HQ. by apply Hq. Qed.
Lemma wp_mono {R} (t : prog R) (Q Q' : R -> S -> Prop) s : wp t Q s -> (forall r s', Q r s' -> Q' r s') -> wp t Q' s.
Proof. intros W HQ m. by eapply wpn_mono. Qed.

Lemma observe_bind {A B} (t : prog A) (k : A -> prog B) :
  observe (ITree.bind t k) = match observe t with
                             | RetF r => observe (k r)
                             | TauF u => TauF (ITree.bind u k)
                             | VisF e h => VisF e (fun x => ITree.bind (h x) k)
                             end.
Proof. unfold ITree.bind, ITree.subst, observe. cbn. by destruct (_observe t). Qed.

Lemma runs_bind {A B} (k : A -> prog B) n : forall (t : prog A) s t' s',
  runs n (observe (ITree.bind t k)) s t' s' ->
  (exists u, runs n (observe t) s u s' /\ (forall r, u <> RetF r) /\ forall r, t' <> RetF r)
  \/ exists r n1 n2 s1, n = (n1 + n2)%nat /\ runs n1 (observe t) s (RetF r) s1 /\ runs n2 (observe (k r)) s1 t' s'.
Proof.
  induction n as [|n IH]; intros t s t' s' Hr; rewrite observe_bind in Hr.
  - destruct (observe t) as [r|u|X e h] eqn:E.
    + right. by exists r, 0%nat, 0%nat, s.
    + left. destruct Hr as [-> ->]. by exists (TauF u).
    + left. destruct Hr as [-> ->]. by exists (VisF e h).
  - destruct (observe t) as [r|u|X e h] eqn:E.
    + right. by exists r, 0%nat, (Datatypes.S n), s.
    + cbn [runs] in Hr. destruct (IH u s t' s' Hr) as [(w & Hw & N1 & N2)|(r & n1 & n2 & s1 & -> & H1 & H2)].
      * left. by exists w.
      * right. by exists r, (Datatypes.S n1), n2, s1.
    + destruct Hr as (a & Ha & Hr). destruct (IH (h a) _ t' s' Hr) as [(w & Hw & N1 & N2)|(r & n1 & n2 & s1 & -> & H1 & H2)].
      * left. exists w. split; [by exists a|done].
      * right. exists r, (Datatypes.S n1), n2, s1. split; [done|]. split; [by exists a|done].
Qed.

Lemma wpn_bind {A B} m (t : prog A) (k : A -> prog B) Q s :
  wpn m t (fun r s' => wpn m (k r) Q s') s -> wpn m (ITree.bind t k) Q s.
Proof.
  intros W n t' s' Hn Hr. destruct (runs_bind k n t s t' s' Hr) as [(u & Hu & N1 & N2)|(r & n1 & n2 & s1 & -> & H1 & H2)].
  - split; [by apply (W n u s')|]. intros r E. by destruct (N2 r).
  - destruct (W n1 (RetF r) s1 ltac:(lia) H1) as [_ Hq]. by apply (Hq r eq_refl n2 t' s' ltac:(lia)).
Qed.
Lemma wp_bind {A B} (t : prog A) (k : A -> prog B) Q s : wp t (fun r s' => wp (k r) Q s') s -> wp (ITree.bind t k) Q s.
Proof. intros W m. apply wpn_bind. eapply wpn_mono; [apply W|]. auto. Qed.

Lemma wp_ret {R} (r : R) (Q : R -> S -> Prop) s : Inv s -> Q r s -> wp (ret r) Q s.
Proof. intros HI HQ m [|n] t' s' _ Hr; [|done]. destruct Hr as [-> ->]. split; [done|]. by intros r' [= <-]. Qed.

Lemma wp_sys {A} (e : sysE A) (Q : A -> S -> Prop) s :
  Inv s -> (forall a, env _ e a s -> Inv (next _ e a s) /\ Q a (next _ e a s)) -> wp (sys e) Q s.
Proof.
  intros HI HQ m [|n] t' s' _ Hr; [by destruct Hr as [-> ->]|]. destruct Hr as (a & Ha & Hr). destruct (HQ a Ha) as [HI' HQ'].
  destruct n as [|n]; [|done]. destruct Hr as [-> ->]. split; [done|]. by intros r' [= <-].
Qed.

(** The common case: a call followed by the rest of the program. *)
Lemma wp_call {A B} (e : sysE A) (k : A -> prog B) Q s :
  Inv s -> (forall a, env _ e a s -> Inv (next _ e a s) /\ wp (k a) Q (next _ e a s)) -> wp (ITree.bind (sys e) k) Q s.
Proof. intros HI HQ. apply wp_bind, wp_sys; auto. Qed.

Lemma wp_spin {R} (Q : R -> S -> Prop) s : Inv s -> wp ITree.spin Q s.
Proof.
  intros HI m n t' s' _. revert t' s'. induction n as [|n IH]; intros t' s' Hr; [|by apply (IH t' s')]. destruct Hr as [-> ->]. done.
Qed.

(** Nothing runs after [exit]. *)
Lemma wp_exit {R} st (Q : R -> S -> Prop) s :
  Inv s -> (forall a, env _ (SExit st) a s -> Inv (next _ (SExit st) a s)) -> wp (exit st) Q s.
Proof. intros HI HN. apply wp_call; [done|]. intros a Ha. split; [auto|]. apply wp_spin. auto. Qed.

Lemma wp_iter {I R} (J : I -> S -> Prop) (body : I -> prog (I + R)) Q i s :
  J i s ->
  (forall i s, J i s -> Inv s /\ wp (body i) (fun r s' => match r with inl j => J j s' | inr x => Inv s' /\ Q x s' end) s) ->
  wp (ITree.iter body i) Q s.
Proof.
  intros HJ HB m. revert i s HJ. induction m as [m IH] using lt_wf_ind. intros i s HJ n t' s' Hn Hr.
  change (observe (ITree.iter body i)) with
    (observe (ITree.bind (body i) (fun lr => match lr with inl l => Tau (ITree.iter body l) | inr r => Ret r end))) in Hr.
  destruct (HB i s HJ) as [_ W]. apply runs_bind in Hr as [(u & Hu & N1 & N2)|(r & n1 & n2 & s1 & -> & H1 & H2)].
  - split; [by apply (W n n u s')|]. intros r E. by destruct (N2 r).
  - destruct (W n1 n1 (RetF r) s1 ltac:(lia) H1) as [HI Hq]. specialize (Hq r eq_refl). destruct r as [j|x].
    + destruct n2 as [|n2]; [destruct H2 as [-> ->]; by split|]. by apply (IH n2 ltac:(lia) j s1 Hq n2 t' s').
    + destruct n2 as [|n2]; [|done]. destruct H2 as [-> ->]. destruct Hq as [HI' HQ']. split; [done|]. by intros r' [= <-].
Qed.

(** Writes that leave the monitor as it is. *)
Lemma wp_fprintf fd out (Q : () -> S -> Prop) s :
  Inv s -> (forall c w, next _ (SWrite fd [c]) w s = s) -> Q tt s -> wp (fprintf fd out) Q s.
Proof.
  intros HI HN HQ. induction out as [|c out IH]; [by apply wp_ret|]. cbn [fprintf]. apply wp_call; [done|].
  intros w _. by rewrite HN.
Qed.
End Wp.
