(* ===== verification/UserProof.v ===== *)
(** What the user programs do, whatever the kernel answers. *)

From ITree Require Import ITree.
From S2P Require Import Prelude.
From S2P Require Import Fs.
From S2P Require Import FsDir.
From S2P Require Import Ulib.
From S2P Require Import Proc.
From S2P Require Import User.
From S2P Require Import UserWp.

(** ** The arguments in memory *)

(** [atoi] of an argument is what the library's routine reads from memory. *)
Lemma atoi_loop_from m l : forall fuel a n, cstr m a l -> (length l < fuel)%nat -> atoi_loop fuel m a n = Some (atoi_from n l).
Proof.
  induction l as [|c l IH]; intros [|fuel] a n Hs Hf; simpl in Hs, Hf |- *; try lia.
  - by rewrite Hs.
  - destruct Hs as (-> & Hc & Hs). destruct ((48 <=? c) && (c <=? 57)); [|done]. apply IH; [done|lia].
Qed.
Lemma uatoi_atoi fuel m a l : cstr m a l -> (length l < fuel)%nat -> uatoi fuel m a = Some (atoi l).
Proof. apply atoi_loop_from. Qed.

(** ** cat *)

Record cat_obs := CatObs {
  co_opened : list (list Z);  (** the files opened *)
  co_in : list Z;             (** the bytes read *)
  co_eof : nat;               (** reads at the end of a file *)
  co_out : list Z;            (** the bytes the standard output took *)
  co_failed : bool;           (** a call failed, or a write was short *)
  co_exit : option Z }.

Definition cat_next A (e : sysE A) : A -> cat_obs -> cat_obs :=
  match e in sysE A return A -> cat_obs -> cat_obs with
  | SOpen path _ => fun fd s =>
      if fd <? 0 then CatObs (co_opened s) (co_in s) (co_eof s) (co_out s) true (co_exit s)
      else CatObs (co_opened s ++ [path]) (co_in s) (co_eof s) (co_out s) (co_failed s) (co_exit s)
  | SRead _ _ => fun r s =>
      match r with
      | None => CatObs (co_opened s) (co_in s) (co_eof s) (co_out s) true (co_exit s)
      | Some [] => CatObs (co_opened s) (co_in s) (S (co_eof s)) (co_out s) (co_failed s) (co_exit s)
      | Some bs => CatObs (co_opened s) (co_in s ++ bs) (co_eof s) (co_out s) (co_failed s) (co_exit s)
      end
  | SWrite fd bs => fun w s =>
      if fd =? 1 then
        CatObs (co_opened s) (co_in s) (co_eof s) (co_out s ++ take (Z.to_nat w) bs)
          (co_failed s || negb (w =? Z.of_nat (length bs))) (co_exit s)
      else s
  | SExit st => fun _ s => CatObs (co_opened s) (co_in s) (co_eof s) (co_out s) (co_failed s) (Some st)
  | _ => fun _ s => s
  end.
(** A write takes a part of the bytes. *)
Definition cat_env A (e : sysE A) : A -> cat_obs -> Prop :=
  match e in sysE A return A -> cat_obs -> Prop with
  | SWrite _ bs => fun w _ => w <= Z.of_nat (length bs)
  | _ => fun _ _ => True
  end.

(** What has been written is what has been read up to the piece at hand; cat
    exits with 0 when it has written all of every file, and with 1 when a call
    failed. *)
Definition cat_inv (args : list (list Z)) (s : cat_obs) : Prop :=
  co_out s `prefix_of` co_in s
  /\ forall st, co_exit s = Some st ->
       st = 0 /\ co_opened s = args /\ co_out s = co_in s /\ co_eof s = Nat.max 1 (length args) /\ co_failed s = false
       \/ st = 1 /\ co_failed s = true.

Section Cat.
Context (args : list (list Z)).
Abbreviation cwp := (wp cat_env cat_next (cat_inv args)).

(** Running: everything read has been written, [opened] files are open and
    [eof] of them have been read. *)
Definition cat_at (opened : list (list Z)) (eof : nat) (s : cat_obs) : Prop :=
  co_opened s = opened /\ co_eof s = eof /\ co_out s = co_in s /\ co_failed s = false /\ co_exit s = None.

Lemma cat_at_inv opened eof s : cat_at opened eof s -> cat_inv args s.
Proof. intros (_ & _ & E & _ & X). split; [by rewrite E|]. by rewrite X. Qed.

Lemma cat_fail {R} out (Q : R -> cat_obs -> Prop) s :
  co_out s `prefix_of` co_in s -> co_failed s = true -> co_exit s = None -> cwp (fail 2 out) Q s.
Proof.
  intros Hp Hf Hx. assert (cat_inv args s) as HI by (split; [done|]; by rewrite Hx).
  apply wp_bind. apply wp_fprintf; [done | done|]. apply wp_exit; [done|]. intros a _. split; [done|]. intros st [= <-]. by right.
Qed.

Lemma cat_run fd opened eof s : cat_at opened eof s -> cwp (cat fd) (fun _ s' => cat_at opened (S eof) s') s.
Proof.
  intros A. apply wp_bind. eapply wp_mono.
  - apply (wp_iter _ _ _ (fun _ => cat_at opened eof) _
      (fun n s' => if n <? 0 then co_out s' `prefix_of` co_in s' /\ co_failed s' = true /\ co_exit s' = None else cat_at opened (S eof) s'));
      [exact A|]. clear s A. intros _ s A. pose proof (cat_at_inv _ _ _ A) as HI. split; [done|].
    destruct s as [o i e w f x]. destruct A as (? & ? & ? & ? & ?). simpl in *. subst.
    apply wp_call; [done|]. intros [[|c bs]|] _; simpl.
    + split; [done|]. apply wp_ret; done.
    + split; [split; [by apply prefix_app_r | done]|]. apply wp_call; [split; [by apply prefix_app_r | done]|].
      intros n Hn. simpl in Hn |- *. change (S (length bs)) with (length (c :: bs)) in *. set (b := c :: bs) in *.
      destruct (Z.eqb_spec n (Z.of_nat (length b))) as [->|Hne]; cbn [negb].
      * rewrite Nat2Z.id, firstn_all. split; [by split|]. apply wp_ret; by split.
      * assert (i ++ take (Z.to_nat n) b `prefix_of` i ++ b) as Hp by (apply prefix_app, prefix_take).
        split; [by split|]. by apply cat_fail.
    + split; [done|]. apply wp_ret; done.
  - cbv beta. intros n s' Hs. destruct (n <? 0); [destruct Hs as (? & ? & ?); by apply cat_fail|].
    apply wp_ret; [by eapply cat_at_inv | done].
Qed.

Lemma cat_files_run l : forall opened eof s,
  cat_at opened eof s -> cwp (cat_files l) (fun _ s' => cat_at (opened ++ l) (eof + length l) s') s.
Proof.
  induction l as [|a l IH]; intros opened eof s A; cbn [cat_files].
  - apply wp_ret; [by eapply cat_at_inv|]. by rewrite app_nil_r, Nat.add_0_r.
  - pose proof (cat_at_inv _ _ _ A) as HI. apply wp_call; [done|]. intros fd _. destruct A as (E1 & E2 & E3 & E4 & E5). simpl.
    destruct (Z.ltb_spec fd 0).
    + split; [split; [by rewrite E3|by rewrite E5]|]. apply cat_fail; simpl; [by rewrite E3 | done | done].
    + assert (cat_at (opened ++ [a]) eof (CatObs (co_opened s ++ [a]) (co_in s) (co_eof s) (co_out s) (co_failed s) (co_exit s))) as A1
        by (by rewrite <- E1).
      split; [by eapply cat_at_inv|]. apply wp_bind. eapply wp_mono; [by apply cat_run|]. intros ? s1 A2. cbv beta in A2.
      apply wp_call; [by eapply cat_at_inv|]. intros w _. simpl. split; [by eapply cat_at_inv|].
      eapply wp_mono; [by apply IH|]. intros ? s2 A3. cbv beta in A3. rewrite <- app_assoc in A3. by rewrite <- Nat.add_succ_comm.
Qed.

Lemma cat_exit {R} (Q : R -> cat_obs -> Prop) s : cat_at args (Nat.max 1 (length args)) s -> cwp (exit 0) Q s.
Proof.
  intros A. apply wp_exit; [by eapply cat_at_inv|]. intros a _. destruct A as (E1 & E2 & E3 & E4 & E5). split; simpl; [by rewrite E3|].
  intros st [= <-]. by left.
Qed.
End Cat.

Definition cat_start : cat_obs := CatObs [] [] 0 [] false None.

(** C39: cat copies its files.  Whatever the kernel answers, short writes and
    errors included, the standard output has taken only bytes that were read,
    in order and without gaps.  When cat exits with status 0 it has opened
    every file named (or read its standard input), read each to its end and
    written all of it; otherwise it exits with 1, after a call failed. *)
Theorem cat_copies name args n t' s' :
  runs cat_env cat_next n (observe (cat_main (name :: args))) cat_start t' s' -> cat_inv args s'.
Proof.
  assert (wp cat_env cat_next (cat_inv args) (cat_main (name :: args)) (fun _ _ => True) cat_start) as W; [|by apply wp_safe with (Q := fun _ _ => True)].
  destruct args as [|a l]; cbn [cat_main tail]; apply wp_bind.
  - eapply wp_mono; [apply (cat_run [] 0 [] 0); by repeat split|]. intros ? s A. cbv beta in A. by apply cat_exit.
  - eapply wp_mono; [apply (cat_files_run (a :: l) (a :: l) [] 0); by repeat split|]. intros ? s A. cbv beta in A. by apply cat_exit.
Qed.

(** [cat] of a standard input that holds [hi]. *)
Lemma cat_copies_witness :
  exists n t' s', runs cat_env cat_next n (observe (cat_main [str "cat"])) cat_start t' s'
    /\ co_exit s' = Some 0 /\ co_out s' = str "hi" /\ cat_inv [] s'.
Proof.
  assert (exists t', runs cat_env cat_next 5 (observe (cat_main [str "cat"])) cat_start t' (CatObs [] (str "hi") 1 (str "hi") false (Some 0))) as [t' Hr].
  { eexists. exists (Some (str "hi")). split; [exact I|]. exists 2. split; [vm_compute; discriminate|].
    exists (Some []). split; [exact I|]. exists tt. split; [exact I|]. split; reflexivity. }
  exists 5%nat, t'. eexists. split; [exact Hr|]. split; [reflexivity|]. split; [reflexivity|].
  exact (cat_copies (str "cat") [] 5 t' _ Hr).
Defined.

(** ** init *)

(** What happens in the process that started as init, or in a child of it:
    shells started and not yet reaped, failed calls of fork or wait, programs it
    has tried to become, and the exit status. *)
Record init_obs := InitObs {
  io_child : bool;
  io_shells : list Z;
  io_failed : bool;
  io_execs : list (list Z * list (list Z));
  io_exit : option Z }.

Definition init_next A (e : sysE A) : A -> init_obs -> init_obs :=
  match e in sysE A return A -> init_obs -> init_obs with
  | SFork => fun pid s =>
      if pid <? 0 then InitObs (io_child s) (io_shells s) true (io_execs s) (io_exit s)
      else if pid =? 0 then InitObs true (io_shells s) (io_failed s) (io_execs s) (io_exit s)
      else InitObs (io_child s) (pid :: io_shells s) (io_failed s) (io_execs s) (io_exit s)
  | SWait => fun r s =>
      if r.1 <? 0 then InitObs (io_child s) (io_shells s) true (io_execs s) (io_exit s)
      else InitObs (io_child s) (filter (fun p => p <> r.1) (io_shells s)) (io_failed s) (io_execs s) (io_exit s)
  | SExec path argv => fun _ s => InitObs (io_child s) (io_shells s) (io_failed s) (io_execs s ++ [(path, argv)]) (io_exit s)
  | SExit st => fun _ s => InitObs (io_child s) (io_shells s) (io_failed s) (io_execs s) (Some st)
  | _ => fun _ s => s
  end.
Definition any_answer {S} A (e : sysE A) (a : A) (s : S) : Prop := True.
Definition init_start : init_obs := InitObs false [] false [] None.

(** A child tries once to become the shell, and exits if that fails; init
    itself becomes nothing else. *)
Definition init_inv (s : init_obs) : Prop :=
  (length (io_shells s) <= 1)%nat /\ (forall st, io_exit s = Some st -> st = 1)
  /\ if io_child s
     then io_shells s = [] /\ io_execs s `prefix_of` [(str "sh", [str "sh"])] /\ (io_exit s <> None -> io_execs s <> [])
     else io_execs s = [] /\ (io_exit s <> None -> io_failed s = true).

Abbreviation iwp := (wp any_answer init_next init_inv).
(** init running, with [shells] not reaped. *)
Definition init_at (shells : list Z) (s : init_obs) : Prop :=
  io_child s = false /\ io_shells s = shells /\ io_execs s = [] /\ io_exit s = None.

Lemma init_at_inv shells s : (length shells <= 1)%nat -> init_at shells s -> init_inv s.
Proof. intros Hl (C & E & P & X). unfold init_inv. by rewrite C, E, P, X. Qed.

Lemma init_fail {R} out (Q : R -> init_obs -> Prop) s :
  init_inv s -> (if io_child s then io_execs s <> [] else io_failed s = true) -> iwp (printf out ;;; exit 1) Q s.
Proof.
  intros HI Hf. apply wp_bind, wp_fprintf; [done | done|]. apply wp_exit; [done|]. intros a _. destruct HI as (H1 & H2 & H3).
  split; [done|]. split; [by intros st [= <-]|]. simpl. destruct (io_child s); [destruct H3 as (? & ? & ?)|destruct H3]; by split_and!.
Qed.

Lemma init_wait_run pid s : 0 < pid -> init_at [pid] s -> iwp (init_wait pid) (fun _ s' => init_at [] s') s.
Proof.
  intros Hp A. apply (wp_iter _ _ _ (fun _ => init_at [pid])); [done|]. clear s A. intros _ s A.
  pose proof (init_at_inv [pid] s ltac:(simpl; lia) A) as HI. split; [done|]. destruct A as (C & E & P & X).
  apply wp_call; [done|]. intros [p st] _. cbn [init_next fst]. destruct (Z.eqb_spec p pid) as [->|Hne].
  - rewrite (proj2 (Z.ltb_ge pid 0)) by lia. set (s1 := InitObs _ _ _ _ _). assert (init_at [] s1) as A'.
    { split; [done|]. split; [|done]. simpl. by rewrite E, filter_cons_False, filter_nil by auto. }
    assert (init_inv s1) as HI' by (eapply init_at_inv; [|done]; simpl; lia). split; [done|]. by apply wp_ret.
  - destruct (Z.ltb_spec p 0).
    + set (s1 := InitObs _ _ _ _ _). assert (init_inv s1) as HI' by (unfold init_inv; simpl; rewrite C, E, P, X; by split_and!).
      split; [done|]. apply init_fail; [done|]. simpl. by rewrite C.
    + set (s1 := InitObs _ _ _ _ _). assert (init_at [pid] s1) as A'.
      { split; [done|]. split; [|done]. simpl. rewrite E, filter_cons_True, filter_nil; [done|]. auto. }
      assert (init_inv s1) as HI' by (eapply init_at_inv; [|done]; simpl; lia). split; [done|]. by apply wp_ret.
Qed.

Lemma init_shell_run s : init_at [] s -> iwp init_shell (fun _ s' => init_at [] s') s.
Proof.
  intros A. pose proof (init_at_inv [] s ltac:(simpl; lia) A) as HI. apply wp_bind, wp_fprintf; [done | done|].
  apply wp_call; [done|]. intros pid _. destruct A as (C & E & P & X). cbn [init_next]. destruct (Z.ltb_spec pid 0).
  { set (s1 := InitObs _ _ _ _ _). assert (init_inv s1) as HI' by (unfold init_inv; simpl; rewrite C, E, P, X; split_and!; simpl; done || lia).
    split; [done|]. apply init_fail; [done|]. simpl. by rewrite C. }
  destruct (Z.eqb_spec pid 0) as [->|Hne].
  { set (s1 := InitObs _ _ _ _ _). assert (init_inv s1) as HI1.
    { unfold init_inv. simpl. rewrite E, P, X. split_and!; try done; [simpl; lia|apply prefix_nil]. }
    split; [done|]. apply wp_call; [done|]. intros r _. cbn [init_next]. set (s2 := InitObs _ _ _ _ _). assert (init_inv s2) as HI2.
    { unfold init_inv. simpl. rewrite E, P, X. split_and!; try done; simpl; lia. }
    split; [done|]. apply init_fail; [done|]. simpl. by rewrite P. }
  set (s1 := InitObs _ _ _ _ _). assert (init_at [pid] s1) as A' by (split; [done|]; split; [simpl; by rewrite E|done]).
  split; [eapply init_at_inv; [|done]; simpl; lia|]. apply init_wait_run; [lia|done].
Qed.

(** C40: init keeps one shell.  For ever and whatever the kernel answers, init
    never returns, starts a shell only when the one before has been reaped,
    takes every other child [wait] reports for an orphan, never calls exec
    itself, and exits, with status 1, only after one of its calls of fork or
    wait has failed.  Its child starts nothing: it calls exec for sh, once, and
    if that returns it exits with status 1. *)
Theorem init_keeps_one_shell n t' s' :
  runs any_answer init_next n (observe init_main) init_start t' s' ->
  (length (io_shells s') <= 1)%nat /\ (forall r, t' <> RetF r) /\ (forall st, io_exit s' = Some st -> st = 1)
  /\ if io_child s'
     then io_shells s' = [] /\ io_execs s' `prefix_of` [(str "sh", [str "sh"])] /\ (io_exit s' <> None -> io_execs s' <> [])
     else io_execs s' = [] /\ (io_exit s' <> None -> io_failed s' = true).
Proof.
  assert (iwp init_main (fun _ _ => False) init_start) as W.
  { assert (init_at [] init_start) as A by done. assert (init_inv init_start) as HI by (by eapply init_at_inv; [|exact A]; simpl; lia).
    apply wp_call; [done|]. intros fd _. split; [done|]. cbn [init_next].
    apply wp_bind. eapply (wp_mono _ _ _ _ (fun _ s => s = init_start)).
    - case_match; [|by apply wp_ret]. apply wp_call; [done|]. intros r _. split; [done|]. apply wp_call; [done|].
      intros r' _. split; [done|]. by apply wp_ret.
    - intros ? s ->. apply wp_call; [done|]. intros w _. split; [done|]. apply wp_call; [done|]. intros w2 _. split; [done|].
      apply (wp_iter _ _ _ (fun _ => init_at [])); [done|]. intros _ s A'. split; [eapply init_at_inv; [|done]; simpl; lia|].
      apply wp_bind. eapply wp_mono; [by apply init_shell_run|]. intros ? s2 A2. cbv beta in A2.
      apply wp_ret; [eapply init_at_inv; [|done]; simpl; lia | done]. }
  intros Hr. destruct (W n n t' s' ltac:(lia) Hr) as [(H1 & H2 & H3) H4]. split; [done|]. split; [|done]. intros r ->. by destruct (H4 r).
Qed.

(** *** A run of init *)

Inductive answer := AnsZ (z : Z) | AnsPair (p : Z * Z).
Definition reply {A} (e : sysE A) (x : answer) : option A :=
  match e in sysE A return option A with
  | SFork | SWrite _ _ | SOpen _ _ | SDup _ => match x with AnsZ z => Some z | _ => None end
  | SWait => match x with AnsPair p => Some p | _ => None end
  | SExit _ => Some tt
  | _ => None
  end.
(** [n] steps with the given answers. *)
Fixpoint drive {R} (n : nat) (t : itree' sysE R) (s : init_obs) (l : list answer) : option (itree' sysE R * init_obs) :=
  match n with
  | O => Some (t, s)
  | S n' =>
      match t with
      | RetF _ => None
      | TauF u => drive n' (observe u) s l
      | VisF e k =>
          match l with
          | [] => None
          | x :: l' => a ← reply e x; drive n' (observe (k a)) (init_next _ e a s) l'
          end
      end
  end.
Lemma drive_runs {R} n (t : itree' sysE R) s l t' s' : drive n t s l = Some (t', s') -> runs any_answer init_next n t s t' s'.
Proof.
  revert t s l. induction n as [|n IH]; intros t s l H; simpl in H; [by injection H as <- <-|].
  destruct t as [r|u|A e k]; [done|by eapply IH|]. destruct l as [|x l]; [done|].
  destruct (reply e x) as [a|]; [|done]. exists a. split; [exact I|]. by eapply IH.
Qed.

(** init starts shell 5, reaps an orphan and then the shell, starts shell 6, and
    gives up when a wait fails. *)
Definition story : list answer :=
  replicate 21 (AnsZ 1) ++ [AnsZ 5; AnsPair (7, 0); AnsPair (5, 0)] ++ replicate 18 (AnsZ 1)
  ++ [AnsZ 6; AnsPair (-1, 0)] ++ replicate 30 (AnsZ 1).
Lemma story_run : exists t', runs any_answer init_next 76 (observe init_main) init_start t' (InitObs false [6] true [] (Some 1)).
Proof.
  assert (snd <$> drive 76 (observe init_main) init_start story = Some (InitObs false [6] true [] (Some 1))) as E by (vm_compute; reflexivity).
  destruct (drive _ _ _ _) as [[t' s']|] eqn:D; [|done]. injection E as ->. exists t'. by eapply drive_runs.
Qed.

Lemma init_keeps_one_shell_witness :
  exists t' s', runs any_answer init_next 76 (observe init_main) init_start t' s' /\ io_shells s' = [6] /\ io_exit s' = Some 1
    /\ (length (io_shells s') <= 1)%nat /\ io_execs s' = [] /\ (io_exit s' <> None -> io_failed s' = true).
Proof.
  destruct story_run as [t' Hr]. exists t', (InitObs false [6] true [] (Some 1)). split; [exact Hr|]. split; [reflexivity|]. split; [reflexivity|].
  destruct (init_keeps_one_shell 76 t' _ Hr) as (H1 & _ & _ & H4). split; [exact H1|exact H4].
Defined.

(** ** grind *)

(** [do_rand] is the minimal standard generator: with [x] the state taken
    to [1 .. 2^31 - 2], the new state is [16807 x mod (2^31 - 1)] less one.
    Schrage's method keeps every intermediate value, and the result, within 32
    bits. *)
Theorem do_rand_minimal_standard ctx :
  0 <= ctx < 2 ^ 64 ->
  let x := ctx mod (2 ^ 31 - 2) + 1 in
  do_rand ctx = (16807 * x) mod (2 ^ 31 - 1) - 1 /\ 0 <= do_rand ctx < 2 ^ 31 - 2
  /\ - 2 ^ 31 <= 16807 * Z.rem x 127773 - 2836 * (x ÷ 127773) < 2 ^ 31.
Proof.
  intros Hc x. change (2 ^ 31 - 2) with 0x7ffffffe in *. change (2 ^ 31 - 1) with 0x7fffffff. change (2 ^ 31) with 2147483648.
  unfold do_rand. fold x. assert (1 <= x <= 0x7ffffffe) as Hx by (unfold x; dlia).
  rewrite Z.quot_div_nonneg, Z.rem_mod_nonneg by lia.
  pose proof (Z.div_mod x 127773 ltac:(lia)) as Hdm. pose proof (Z.mod_pos_bound x 127773 ltac:(lia)) as Hlo.
  set (hi := x / 127773) in *. set (lo := x mod 127773) in *. assert (0 <= hi <= 16807) as Hhi by lia.
  set (y := 16807 * lo - 2836 * hi) in *.
  assert (16807 * x = hi * 0x7fffffff + y) as Hy by (unfold y; lia).
  assert (y <> 0) as Hnz.
  { intros E. assert (16807 * x = hi * 0x7fffffff) as E' by lia. clear -E' Hx Hhi. 
    assert (hi mod 16807 = 0) as Hm.
    { pose proof (Z.div_mod hi 16807 ltac:(lia)). 
      assert ((hi * 0x7fffffff) mod 16807 = 0) as Hm by (rewrite <- E', Z.mul_comm; apply Z.mod_mul; lia). dlia. }
    dlia. }
  assert (- 0x7fffffff < y < 0x7fffffff) as Hyb by (unfold y; lia).
  rewrite Hy. destruct (Z.ltb_spec y 0).
  - replace (hi * 0x7fffffff + y) with ((y + 0x7fffffff) + (hi - 1) * 0x7fffffff) by lia.
    rewrite Z.mod_add, Z.mod_small by lia. lia.
  - rewrite Z.add_comm, Z.mod_add, Z.mod_small by lia. lia.
Qed.
Lemma do_rand_minimal_standard_witness : do_rand 1 = (16807 * 2) mod (2 ^ 31 - 1) - 1.
Proof. exact (proj1 (do_rand_minimal_standard 1 ltac:(lia))). Defined.

(** ** Descriptors *)

(** The open descriptors of the process.  The kernel hands out descriptors that
    are not open. *)
Definition fd_next A (e : sysE A) : A -> gset Z -> gset Z :=
  match e in sysE A return A -> gset Z -> gset Z with
  | SOpen _ _ | SDup _ => fun r F => if r <? 0 then F else ({[r]} ∪ F)
  | SPipe => fun p F => match p with Some (r, w) => ({[r]} ∪ ({[w]} ∪ F)) | None => F end
  | SClose fd => fun _ F => F ∖ {[fd]}
  | _ => fun _ F => F
  end.
Definition fd_env A (e : sysE A) : A -> gset Z -> Prop :=
  match e in sysE A return A -> gset Z -> Prop with
  | SOpen _ _ | SDup _ => fun r F => 0 <= r -> r ∉ F
  | SPipe => fun p F => match p with Some (r, w) => (r ∉ F) /\ (w ∉ F) /\ r <> w | None => True end
  | _ => fun _ _ => True
  end.
(** Half of [NOFILE]. *)
Definition MAXFDS : nat := 8.
Definition fd_inv (F : gset Z) : Prop := (size F <= MAXFDS)%nat.

Abbreviation gwp := (wp fd_env fd_next fd_inv).
(** At most the descriptors [l] are open. *)
Definition within (l : list Z) (F : gset Z) : Prop := F ⊆ list_to_set l.

Lemma within_inv l F : within l F -> (length l <= MAXFDS)%nat -> fd_inv F.
Proof.
  intros Hw Hl. unfold fd_inv. transitivity (size (list_to_set l : gset Z)); [by apply subseteq_size|].
  assert (size (list_to_set l : gset Z) <= length l)%nat as Hs; [|lia].
  clear. induction l as [|x l IH]; [done|]. change (list_to_set (x :: l)) with (({[x]} : gset Z) ∪ list_to_set l).
  rewrite size_union_alt. pose proof (subseteq_size (list_to_set l ∖ {[x]}) (list_to_set l : gset Z) ltac:(set_solver)).
  rewrite size_singleton. simpl. lia.
Qed.

Section Steps.
Context {B : Type} (Q : B -> gset Z -> Prop).

Lemma g_neutral {A} (e : sysE A) (k : A -> prog B) l F :
  within l F -> (length l <= MAXFDS)%nat -> (forall a, fd_next _ e a F = F) -> (forall a, gwp (k a) Q F) -> gwp (ITree.bind (sys e) k) Q F.
Proof. intros Hw Hl Hn Hk. pose proof (within_inv _ _ Hw Hl). apply wp_call; [done|]. intros a _. by rewrite Hn. Qed.

Lemma g_open path mode (k : Z -> prog B) l F :
  within l F -> (S (length l) <= MAXFDS)%nat ->
  (forall r, r < 0 -> gwp (k r) Q F) -> (forall r F', 0 <= r -> within (r :: l) F' -> gwp (k r) Q F') ->
  gwp (ITree.bind (sys (SOpen path mode)) k) Q F.
Proof.
  intros Hw Hl H1 H2. pose proof (within_inv _ _ Hw ltac:(lia)). apply wp_call; [done|]. intros r _. simpl.
  destruct (Z.ltb_spec r 0); [auto|]. assert (within (r :: l) ({[r]} ∪ F)) as Hw' by (unfold within in *; set_solver).
  split; [by apply (within_inv _ _ Hw')|]. by apply H2.
Qed.
Lemma g_dup fd (k : Z -> prog B) l F :
  within l F -> (S (length l) <= MAXFDS)%nat ->
  (forall r F', within (r :: l) F' -> gwp (k r) Q F') -> gwp (ITree.bind (sys (SDup fd)) k) Q F.
Proof.
  intros Hw Hl H2. pose proof (within_inv _ _ Hw ltac:(lia)). apply wp_call; [done|]. intros r _. simpl.
  destruct (Z.ltb_spec r 0).
  - split; [done|]. apply H2. unfold within in *. set_solver.
  - assert (within (r :: l) ({[r]} ∪ F)) as Hw' by (unfold within in *; set_solver).
    split; [by apply (within_inv _ _ Hw')|]. by apply H2.
Qed.
Lemma g_pipe (k : option (Z * Z) -> prog B) l F :
  within l F -> (S (S (length l)) <= MAXFDS)%nat ->
  gwp (k None) Q F -> (forall r w F', within (r :: w :: l) F' -> gwp (k (Some (r, w))) Q F') ->
  gwp (ITree.bind (sys SPipe) k) Q F.
Proof.
  intros Hw Hl H1 H2. pose proof (within_inv _ _ Hw ltac:(lia)). apply wp_call; [done|]. intros [[r w]|] _; simpl; [|done].
  assert (within (r :: w :: l) ({[r]} ∪ ({[w]} ∪ F))) as Hw' by (unfold within in *; set_solver).
  split; [by apply (within_inv _ _ Hw')|]. by apply H2.
Qed.
Lemma g_close_last fd (P : () -> gset Z -> Prop) l l' F :
  within l F -> (length l <= MAXFDS)%nat -> (forall x, x ∈ l -> x = fd \/ x ∈ l') ->
  (forall F', within l' F' -> P tt F') -> gwp (close_ fd) P F.
Proof.
  intros Hw Hl Hin Hk. pose proof (within_inv _ _ Hw Hl) as HI. apply wp_call; [done|]. intros a _. simpl.
  assert (within l' (F ∖ {[fd]})) as Hw'.
  { intros x Hx. apply elem_of_difference in Hx as [Hx Hn]. apply Hw, elem_of_list_to_set, Hin in Hx as [->|Hx]; set_solver. }
  assert (fd_inv (F ∖ {[fd]})) as HI' by (unfold fd_inv in *; pose proof (subseteq_size (F ∖ {[fd]}) F ltac:(set_solver)); lia).
  split; [done|]. apply wp_ret; [done|]. by apply Hk.
Qed.
Lemma g_close fd (k : () -> prog B) l l' F :
  within l F -> (length l <= MAXFDS)%nat -> (forall x, x ∈ l -> x = fd \/ x ∈ l') ->
  (forall F', within l' F' -> gwp (k tt) Q F') -> gwp (ITree.bind (close_ fd) k) Q F.
Proof. intros Hw Hl Hin Hk. by apply wp_bind, (g_close_last fd _ l l'). Qed.
Lemma g_exit st l F : within l F -> (length l <= MAXFDS)%nat -> gwp (exit st) Q F.
Proof. intros Hw Hl. pose proof (within_inv _ _ Hw Hl). by apply wp_exit. Qed.
Lemma g_print_last fd out (P : () -> gset Z -> Prop) l F :
  within l F -> (length l <= MAXFDS)%nat -> P tt F -> gwp (fprintf fd out) P F.
Proof. intros Hw Hl HP. pose proof (within_inv _ _ Hw Hl). by apply wp_fprintf. Qed.
Lemma g_print fd out (k : () -> prog B) l F :
  within l F -> (length l <= MAXFDS)%nat -> gwp (k tt) Q F -> gwp (ITree.bind (fprintf fd out) k) Q F.
Proof. intros Hw Hl Hk. by apply wp_bind, (g_print_last _ _ _ l). Qed.
Lemma g_ret r l F : within l F -> (length l <= MAXFDS)%nat -> Q r F -> gwp (ret r) Q F.
Proof. intros Hw Hl HQ. by apply wp_ret; [apply (within_inv _ _ Hw)|]. Qed.
End Steps.

Lemma within_weaken l l' F : within l F -> (forall x, x ∈ l -> x ∈ l') -> within l' F.
Proof. intros Hw Hi x Hx. apply elem_of_list_to_set, Hi. apply Hw in Hx. by apply elem_of_list_to_set in Hx. Qed.

Ltac remove_fd fd l :=
  lazymatch l with
  | fd :: ?t => t
  | ?x :: ?t => let t' := remove_fd fd t in constr:(x :: t')
  | _ => l
  end.
Ltac now_open := match goal with H : within ?l ?F |- wp _ _ _ _ _ ?F => l end.
Ltac few := simpl; unfold MAXFDS; lia.
(** One step of a program whose open descriptors are known. *)
Ltac g_step :=
  cbv beta iota zeta;
  lazymatch goal with
  | Hw : within ?l ?F |- wp _ _ _ ?t _ ?F =>
      lazymatch t with
      | ITree.bind (sys (SOpen _ _)) _ =>
          eapply (g_open _ _ _ _ _ _ Hw ltac:(few)); [intros ? ?|clear F Hw; intros ? F ? Hw]
      | ITree.bind (sys (SDup _)) _ => eapply (g_dup _ _ _ _ _ Hw ltac:(few)); clear F Hw; intros ? F Hw
      | ITree.bind (sys SPipe) _ => eapply (g_pipe _ _ _ _ Hw ltac:(few)); [|clear F Hw; intros ? ? F Hw]
      | ITree.bind (sys _) _ => eapply (g_neutral _ _ _ _ _ Hw ltac:(few)); [reflexivity|intros ?]
      | ITree.bind (close_ ?fd) _ =>
          let l' := remove_fd fd l in
          eapply (g_close _ fd _ l l' F Hw ltac:(few)); [set_solver|clear F Hw; intros F Hw]
      | ITree.bind (fprintf _ _) _ => eapply (g_print _ _ _ _ _ _ Hw ltac:(few))
      | ITree.bind _ _ => apply wp_bind
      | fprintf _ _ => eapply (g_print_last _ _ _ _ _ Hw ltac:(few))
      | close_ ?fd =>
          let l' := remove_fd fd l in
          eapply (g_close_last fd _ l l' F Hw ltac:(few)); [set_solver|clear F Hw; intros F Hw]
      | ret _ => eapply (g_ret _ _ _ _ Hw ltac:(few))
      | exit _ => exact (g_exit _ _ _ _ Hw ltac:(few))
      | (if ?b then _ else _) => destruct b
      | match ?o with Some _ => _ | None => _ end => destruct o
      end
  end.

Ltac g_run :=
  unfold forked, unlink, link, mkdir, quiet, create, chdir, wait0, sbrk, grind_fail, printf, wait_status, read_byte;
  repeat g_step;
  try match goal with H : within _ ?F |- within _ ?F => apply (within_weaken _ _ _ H); set_solver end.

Abbreviation keeps l t := (forall F, within l F -> gwp t (fun _ F' => within l F') F).

Lemma turn_file_fds f : keeps [0; 1; 2; f] turn_file.
Proof. intros F Hw. unfold turn_file. g_run. Qed.
Lemma turn_pipe_fds f : keeps [0; 1; 2; f] turn_pipe.
Proof. intros F Hw. unfold turn_pipe. g_run. Qed.
Lemma echo_child_fds f a0 a1 b0 b1 Q F : within [b0; b1; a0; a1; 0; 1; 2; f] F -> gwp (echo_child a0 a1 b0 b1) Q F.
Proof. intros Hw. unfold echo_child. g_run. Qed.
Lemma cat_child_fds f a0 a1 b0 b1 Q F : within [b0; b1; a0; a1; 0; 1; 2; f] F -> gwp (cat_child a0 a1 b0 b1) Q F.
Proof. intros Hw. unfold cat_child. g_run. Qed.
Lemma turn_pipeline_fds f stale1 stale2 : keeps [0; 1; 2; f] (turn_pipeline stale1 stale2).
Proof. intros F Hw. unfold turn_pipeline. g_run; [by apply (echo_child_fds f)|by apply (cat_child_fds f)]. Qed.

Lemma keeps_use l t (Q : () -> gset Z -> Prop) F : keeps l t -> within l F -> (forall F', within l F' -> Q tt F') -> gwp t Q F.
Proof. intros Hk Hw HQ. apply (wp_mono _ _ _ _ _ _ _ (Hk F Hw)). intros [] F'. apply HQ. Qed.

Lemma turn_fds what stale1 stale2 g F :
  within [0; 1; 2; g_fd g] F -> gwp (turn what stale1 stale2 g) (fun g' F' => within [0; 1; 2; g_fd g'] F') F.
Proof.
  intros Hw. unfold turn.
  repeat match goal with |- wp _ _ _ (match ?x with _ => _ end) _ _ => destruct x end; g_run.
  - apply (keeps_use _ _ _ _ (turn_pipe_fds _) Hw). clear F Hw. intros F Hw. g_run.
  - apply (keeps_use _ _ _ _ (turn_file_fds _) Hw). clear F Hw. intros F Hw. g_run.
  - apply (keeps_use _ _ _ _ (turn_pipeline_fds _ _ _) Hw). clear F Hw. intros F Hw. g_run.
Qed.

Lemma one_turn_fds stale1 stale2 c g F :
  within [0; 1; 2; g_fd g] F -> gwp (one_turn stale1 stale2 c g) (fun g' F' => within [0; 1; 2; g_fd g'] F') F.
Proof. intros Hw. unfold one_turn. g_run; by apply turn_fds. Qed.

Lemma go_fds stale1 stale2 c rand Q F : within [0; 1; 2] F -> gwp (go stale1 stale2 c rand) Q F.
Proof.
  intros Hw. unfold go. g_run. apply (wp_iter _ _ _ (fun g F => within [0; 1; 2; g_fd g] F)).
  - apply (within_weaken _ _ _ Hw). set_solver.
  - clear F Hw. intros g F Hw. split; [by apply (within_inv _ _ Hw); few|]. apply wp_bind.
    apply (wp_mono _ _ _ _ _ _ _ (one_turn_fds stale1 stale2 c g F Hw)). clear F Hw. intros g' F Hw. g_run.
Qed.

Lemma iter_fds stale1 stale2 rand Q F : within [0; 1; 2] F -> gwp (iter stale1 stale2 rand) Q F.
Proof. intros Hw. unfold iter. g_run; by apply go_fds. Qed.

(** Whatever the kernel answers, no process of grind ever has more than
    half of [NOFILE] descriptors open: of every descriptor it opens, on every
    path, it keeps only [fd] from one turn to the next. *)
Theorem grind_descriptors stale1 stale2 n t F :
  runs fd_env fd_next n (observe (grind_main stale1 stale2)) {[0; 1; 2]} t F -> 2 * Z.of_nat (size F) <= Z.of_nat NOFILE.
Proof.
  assert (gwp (grind_main stale1 stale2) (fun _ _ => False) {[0; 1; 2]}) as W.
  { unfold grind_main. apply (wp_iter _ _ _ (fun _ F => within [0; 1; 2] F)); [unfold within; set_solver|].
    clear. intros rand F Hw. split; [by apply (within_inv _ _ Hw); few|]. g_run. by apply iter_fds. }
  intros Hr. pose proof (wp_safe _ _ _ _ _ _ _ _ _ W Hr) as HI. unfold fd_inv, MAXFDS in HI. change (Z.of_nat NOFILE) with 16. lia.
Qed.
Lemma grind_descriptors_witness :
  exists t, runs fd_env fd_next 14 (observe (grind_main 0 0)) {[0; 1; 2]} t {[3; 0; 1; 2]} /\ 2 * Z.of_nat (size ({[3; 0; 1; 2]} : gset Z)) <= Z.of_nat NOFILE.
Proof.
  assert (exists t, runs fd_env fd_next 14 (observe (grind_main 0 0)) {[0; 1; 2]} t {[3; 0; 1; 2]}) as (t & Hr).
  { eexists. do 13 (exists 0; split; [exact I|]). exists 3. split; [intros _; vm_compute; set_solver|].
    split; [reflexivity|vm_compute; reflexivity]. }
  exists t. split; [exact Hr|]. exact (grind_descriptors 0 0 14 t _ Hr).
Defined.
