(* ===== verification/Boot.v ===== *)
(** Start-up (src/kernel/start.c, src/kernel/main.c, src/kernel/plic.c): every
    hart from reset in machine mode to the scheduler; and the first run of a
    process and the listing of processes (src/kernel/proc.c).

    The control and status registers of a hart are a function from their names.
    What a register keeps of a value written to it is up to the hardware:
    [legal] is a parameter, and [hardware_ok] is what the RISC-V privileged
    architecture promises about it.  The calls of [main] that initialise other
    parts of the kernel are those of their own files; here they are names, and
    the model records their order.  A step of the machine is one statement of
    one hart; [__sync_synchronize] makes this order of memory accesses the one
    every hart sees.  [fsinit] and [kexec] work on the file system and are
    parameters of [forkret], as the other file calls are for Trap.v; Fs.v and
    Exec.v have them. *)

From S2P Require Import Prelude.
From S2P Require Import KString.
From S2P Require Import Riscv.
From S2P Require Import Kalloc.
From S2P Require Import Vm.
From S2P Require Import Locks.
From S2P Require Import Proc.
From S2P Require Import Syscall.
From S2P Require Import Printf.
From S2P Require Import Trap.

(** ** Registers *)

Inductive csr :=
| MHARTID | MSTATUS | MEPC | MEDELEG | MIDELEG | MIE | MENVCFG | MCOUNTEREN
| PMPADDR0 | PMPCFG0 | SATP | STVEC | STIMECMP.
#[global] Instance csr_eq_dec : EqDecision csr.
Proof. solve_decision. Defined.

Inductive mode := Machine | Supervisor | User.

Record hart := Hart { h_csr : csr -> Z; h_tp : Z; h_mode : mode; h_pc : Z }.

Definition MSTATUS_MPP_MASK : Z := Z.shiftl 3 11.
Definition MSTATUS_MPP_M : Z := Z.shiftl 3 11.
Definition MSTATUS_MPP_S : Z := Z.shiftl 1 11.
Definition SIE_SEIE : Z := Z.shiftl 1 9.
Definition SIE_STIE : Z := Z.shiftl 1 5.
Definition MIE_STIE : Z := Z.shiftl 1 5.

(** ** Interrupt controller *)

Definition PLIC : Z := 0x0c000000.
Definition PLIC_SENABLE (hart : Z) : Z := PLIC + 0x2080 + hart * 0x100.
Definition PLIC_SPRIORITY (hart : Z) : Z := PLIC + 0x201000 + hart * 0x2000.
Definition PLIC_SCLAIM (hart : Z) : Z := PLIC + 0x201004 + hart * 0x2000.

(** The words last written to the registers of the controller. *)
Abbreviation plic := (gmap Z Z).
Definition plicinit (p : plic) : plic :=
  <[PLIC + VIRTIO0_IRQ * 4 := 1]> (<[PLIC + UART0_IRQ * 4 := 1]> p).
Definition plicinithart (hart : Z) (p : plic) : plic :=
  <[PLIC_SPRIORITY hart := 0]>
    (<[PLIC_SENABLE hart := Z.lor (Z.shiftl 1 UART0_IRQ) (Z.shiftl 1 VIRTIO0_IRQ)]> p).

(** Reading the claim register takes the interrupt that is answered, and
    writing it ends its service: [read32] and [write32] are the controller's
    side of both. *)
Definition plic_claim {D} (read32 : Z -> D -> Z * D) (hart : Z) (d : D) : Z * D :=
  let '(irq, d) := read32 (PLIC_SCLAIM hart) d in (i32 irq, d).
Definition plic_complete {D} (write32 : Z -> Z -> D -> D) (hart irq : Z) (d : D) : D :=
  write32 (PLIC_SCLAIM hart) (u32 irq) d.

Section Boot.
Context (legal : csr -> Z -> Z -> Z).
(** The addresses of [main] and [kernelvec], and the page [kvmmake] returns. *)
Context (main_addr kernelvec kpgtbl : Z).

Definition csrr (c : csr) (h : hart) : Z := h_csr h c.
Definition csrw (c : csr) (x : Z) (h : hart) : hart :=
  Hart (fun c' => if decide (c' = c) then legal c (h_csr h c) x else h_csr h c') (h_tp h) (h_mode h) (h_pc h).

Definition r_mhartid := csrr MHARTID.
Definition r_mstatus := csrr MSTATUS.
Definition w_mstatus := csrw MSTATUS.
Definition w_mepc := csrw MEPC.
Definition r_mie := csrr MIE.
Definition w_mie := csrw MIE.
(** [sie] is the part of [mie] whose interrupts are delegated. *)
Definition r_sie (h : hart) : Z := Z.land (h_csr h MIE) (h_csr h MIDELEG).
Definition w_sie (x : Z) (h : hart) : hart :=
  csrw MIE (Z.lor (Z.land (h_csr h MIE) (u64 (Z.lnot (h_csr h MIDELEG)))) (Z.land x (h_csr h MIDELEG))) h.
Definition w_medeleg := csrw MEDELEG.
Definition w_mideleg := csrw MIDELEG.
Definition w_stvec := csrw STVEC.
Definition w_stimecmp := csrw STIMECMP.
Definition r_menvcfg := csrr MENVCFG.
Definition w_menvcfg := csrw MENVCFG.
Definition w_pmpcfg0 := csrw PMPCFG0.
Definition w_pmpaddr0 := csrw PMPADDR0.
Definition w_satp := csrw SATP.
Definition w_mcounteren := csrw MCOUNTEREN.
Definition r_mcounteren := csrr MCOUNTEREN.
Definition w_tp (x : Z) (h : hart) : hart := Hart (h_csr h) x (h_mode h) (h_pc h).
Definition r_tp (h : hart) : Z := h_tp h.
Definition cpuid (h : hart) : Z := i32 (r_tp h).

(** The instruction [mret] with [MPP] set to supervisor or machine mode; its
    other effects on [mstatus] are not used. *)
Definition mret (h : hart) : hart :=
  let mpp := Z.land (h_csr h MSTATUS) MSTATUS_MPP_MASK in
  let mode := if mpp =? MSTATUS_MPP_S then Supervisor else if mpp =? MSTATUS_MPP_M then Machine else User in
  Hart (h_csr h) (h_tp h) mode (h_csr h MEPC).

(** ** start.c *)

(** [now] is what [r_time()] returns. *)
Definition timerinit (now : Z) (h : hart) : hart :=
  let h := w_mie (Z.lor (r_mie h) MIE_STIE) h in
  let h := w_menvcfg (Z.lor (r_menvcfg h) (2 ^ 63)) h in
  let h := w_mcounteren (Z.lor (r_mcounteren h) 2) h in
  w_stimecmp (u64 (now + 1000000)) h.

Definition start (now : Z) (h : hart) : hart :=
  let x := r_mstatus h in
  let x := Z.land x (u64 (Z.lnot MSTATUS_MPP_MASK)) in
  let x := Z.lor x MSTATUS_MPP_S in
  let h := w_mstatus x h in
  let h := w_mepc main_addr h in
  let h := w_satp 0 h in
  let h := w_medeleg 0xffff h in
  let h := w_mideleg 0xffff h in
  let h := w_sie (Z.lor (Z.lor (r_sie h) SIE_SEIE) SIE_STIE) h in
  let h := w_pmpaddr0 0x3fffffffffffff h in
  let h := w_pmpcfg0 0xf h in
  let h := timerinit now h in
  let id := i32 (r_mhartid h) in
  let h := w_tp (u64 id) h in
  mret h.

(** ** main.c *)

(** The initialisations that hart 0 makes for all. *)
Inductive call :=
| Consoleinit | Printfinit | Kinit | Kvminit | Procinit | Trapinit | Plicinit | Binit | Iinit | Fileinit
| Virtio_disk_init | Userinit.
#[global] Instance call_eq_dec : EqDecision call.
Proof. solve_decision. Defined.

Inductive stmt :=
| Call (c : call)
| Printf (s : string)
| Kvminithart | Trapinithart | Plicinithart
| Sync
| SetStarted
| WaitStarted.
#[global] Instance stmt_eq_dec : EqDecision stmt.
Proof. solve_decision. Defined.

(** The statements before [scheduler()]. *)
Definition main_body (id : Z) : list stmt :=
  if id =? 0 then
    [Call Consoleinit; Call Printfinit; Printf ""; Printf "xv6 kernel is booting"; Printf "";
     Call Kinit; Call Kvminit; Kvminithart; Call Procinit; Call Trapinit; Trapinithart;
     Call Plicinit; Plicinithart; Call Binit; Call Iinit; Call Fileinit; Call Virtio_disk_init; Call Userinit;
     Sync; SetStarted]
  else [WaitStarted; Sync; Printf "hart %d starting"; Kvminithart; Trapinithart; Plicinithart].

(** A hart is at reset, or before statement [k] of [main]; it is in the
    scheduler when there is none. *)
Inductive phase := Reset | Main (k : nat).

(** [kernel_pagetable] is 0 before [kvminit]. *)
Record machine := Mach {
  m_started : bool; m_calls : list call; m_pagetable : Z; m_plic : plic; m_harts : list (hart * phase) }.

Definition kvminithart (pagetable : Z) (h : hart) : hart := w_satp (MAKE_SATP pagetable) h.
Definition trapinithart (h : hart) : hart := w_stvec kernelvec h.

Definition do_call (c : call) (y : machine) : machine :=
  Mach (m_started y) (m_calls y ++ [c])
    (if decide (c = Kvminit) then kpgtbl else m_pagetable y)
    (if decide (c = Plicinit) then plicinit (m_plic y) else m_plic y) (m_harts y).
Definition set_phase (i : nat) (h : hart) (k : nat) (y : machine) : machine :=
  Mach (m_started y) (m_calls y) (m_pagetable y) (m_plic y) (<[i := (h, Main k)]> (m_harts y)).
Definition set_started (y : machine) : machine := Mach true (m_calls y) (m_pagetable y) (m_plic y) (m_harts y).
Definition on_plic (f : plic -> plic) (y : machine) : machine :=
  Mach (m_started y) (m_calls y) (m_pagetable y) (f (m_plic y)) (m_harts y).

(** Statement [s] by hart [i] before statement [k]. *)
Definition exec_stmt (i : nat) (h : hart) (k : nat) (s : stmt) (y : machine) : machine :=
  match s with
  | Call c => set_phase i h (S k) (do_call c y)
  | Printf _ | Sync => set_phase i h (S k) y
  | Kvminithart => set_phase i (kvminithart (m_pagetable y) h) (S k) y
  | Trapinithart => set_phase i (trapinithart h) (S k) y
  | Plicinithart => set_phase i h (S k) (on_plic (plicinithart (cpuid h)) y)
  | SetStarted => set_phase i h (S k) (set_started y)
  | WaitStarted => if m_started y then set_phase i h (S k) y else y
  end.

(** Hart [i] makes a step, at time [now]. *)
Definition boot_step (i : nat) (now : Z) (y : machine) : machine :=
  match m_harts y !! i with
  | None => y
  | Some (h, Reset) => set_phase i (start now h) 0 y
  | Some (h, Main k) =>
      match main_body (cpuid h) !! k with
      | None => y
      | Some s => exec_stmt i h k s y
      end
  end.
Fixpoint boot_run (l : list (nat * Z)) (y : machine) : machine :=
  match l with
  | [] => y
  | (i, now) :: l' => boot_run l' (boot_step i now y)
  end.
End Boot.

(** ** The first run of a process *)

Fixpoint text (s : string) : list Z :=
  match s with
  | EmptyString => []
  | String c s' => Z.of_N (Ascii.N_of_ascii c) :: text s'
  end.

Section Forkret.
Context (trampoline uservec usertrap_addr : Z).
Context {E : Type} `{FileEnv E}.
Context (fsinit : M (kern E) ()) (kexec : list Z -> list (list Z) -> M (kern E) Z).

(** The file system is initialised here and not in [main], as [fsinit] may
    sleep. *)
Definition start_init (me : nat) : M (trap_st E) () :=
  knM fsinit ;;;
  let* argc := knM (kexec (text "/init") [text "/init"]) in
  knM (set_tf_word me OFF_A0 (u64 argc)) ;;;
  let* a0 := knM (tf_word me OFF_A0) in
  if a0 =? u64 (-1) then panic "exec" else skip.
(** The value that the jump to [userret] passes in a0, and [first] after it. *)
Definition forkret (h me : nat) (first : bool) : M (trap_st E) (Z * bool) :=
  (when first do start_init me) ;;;
  let* satp := usertrap_return trampoline uservec usertrap_addr h me in
  mreturn (satp, false).
End Forkret.

(** ** procdump *)

Definition state_name (s : procstate) : list Z :=
  text match s with
       | UNUSED => "unused" | USED => "used" | SLEEPING => "sleep " | RUNNABLE => "runble" | RUNNING => "run   " | ZOMBIE => "zombie"
       end.
Definition proc_line (p : proc) : list Z :=
  match p_state p with
  | UNUSED => []
  | s => default [] (printint kernel_digits (p_pid p) 10 true) ++ text " " ++ state_name s ++ text " " ++ p_name p ++ [10]
  end.
(** The characters printed. *)
Definition procdump (ps : list proc) : list Z := 10 :: concat (map proc_line ps).
