(* ===== verification/BootProof.v ===== *)
(** Every hart reaches the scheduler ready to run, and only after hart 0 has
    initialised the kernel; the first process starts [/init]. *)

From S2P Require Import Prelude.
From S2P Require Import KString.
From S2P Require Import Riscv.
From S2P Require Import Kalloc.
From S2P Require Import Vm.
From S2P Require Import Locks.
From S2P Require Import Proc.
From S2P Require Import Syscall.
From S2P Require Import SyscallProof.
From S2P Require Import Printf.
From S2P Require Import Trap.
From S2P Require Import TrapProof.
From S2P Require Import Boot.

(** Bits that a hart with supervisor mode and the Sstc extension has in a
    register. *)
Definition implemented (c : csr) (b : Z) : Prop :=
  match c with
  | MEDELEG => b ∈ [8; 12; 13; 15]
  | MIDELEG | MIE => b ∈ [5; 9]
  | MENVCFG => b = 63
  | MCOUNTEREN => b = 1
  | _ => False
  end.
(** What the architecture promises about writes to the registers. *)
Record hardware_ok (legal : csr -> Z -> Z -> Z) := {
  hw_bits c old x b : implemented c b -> Z.testbit (legal c old x) b = Z.testbit x b;
  hw_mpp old x : Z.land x MSTATUS_MPP_MASK = MSTATUS_MPP_S -> Z.land (legal MSTATUS old x) MSTATUS_MPP_MASK = MSTATUS_MPP_S;
  hw_mepc old x : 0 <= x < 2 ^ 56 -> x mod 4 = 0 -> legal MEPC old x = x;
  hw_stvec old x : 0 <= x < 2 ^ 56 -> x mod 4 = 0 -> legal STVEC old x = x;
  hw_bare old : legal SATP old 0 = 0;
  hw_sv39 old p : 0 <= p < 2 ^ 56 -> legal SATP old (MAKE_SATP p) = MAKE_SATP p;
  hw_pmpaddr old x : 0 <= x < 2 ^ 54 -> legal PMPADDR0 old x = x;
  hw_pmpcfg old : legal PMPCFG0 old 0xf = 0xf;
  hw_stimecmp old x : 0 <= x < 2 ^ 64 -> legal STIMECMP old x = x }.

(** Supervisor mode may read, write and execute [a]: one region from 0 up to
    [pmpaddr0]. *)
Definition pmp_allows (h : hart) (a : Z) : bool :=
  let cfg := h_csr h PMPCFG0 in
  (Z.land cfg 7 =? 7) && (Z.land (Z.shiftr cfg 3) 3 =? 1) && (0 <=? a) && (a <? 4 * h_csr h PMPADDR0).

(** The hart runs in supervisor mode, knows its number, takes its timer and
    device interrupts there, and may use all memory. *)
Definition supervisor (i : nat) (h : hart) : Prop :=
  h_mode h = Supervisor /\ h_tp h = Z.of_nat i
  /\ (forall b, b ∈ [5; 9] -> Z.testbit (r_sie h) b = true)
  /\ (forall b, b ∈ [8; 12; 13; 15] -> Z.testbit (h_csr h MEDELEG) b = true)
  /\ Z.testbit (h_csr h MENVCFG) 63 = true /\ Z.testbit (h_csr h MCOUNTEREN) 1 = true
  /\ forall a, 0 <= a < PHYSTOP -> pmp_allows h a = true.

Section Hardware.
Context (legal : csr -> Z -> Z -> Z) (Hw : hardware_ok legal).
Context (main_addr kernelvec kpgtbl : Z).
Context (Hmain : 0 <= main_addr < 2 ^ 56 /\ main_addr mod 4 = 0).
Context (Hvec : 0 <= kernelvec < 2 ^ 56 /\ kernelvec mod 4 = 0) (Hpt : 0 <= kpgtbl < 2 ^ 56).

Lemma csrw_eq c x h : h_csr (csrw legal c x h) c = legal c (h_csr h c) x.
Proof. simpl. by rewrite decide_True. Qed.
Lemma csrw_ne c c' x h : c <> c' -> h_csr (csrw legal c x h) c' = h_csr h c'.
Proof. intros Hn. simpl. by rewrite decide_False by congruence. Qed.

Lemma mpp_of_start x : Z.land (Z.lor (Z.land x (u64 (Z.lnot MSTATUS_MPP_MASK))) MSTATUS_MPP_S) MSTATUS_MPP_MASK = MSTATUS_MPP_S.
Proof.
  rewrite Z.land_lor_distr_l, <- Z.land_assoc. change (Z.land (u64 (Z.lnot MSTATUS_MPP_MASK)) MSTATUS_MPP_MASK) with 0.
  by rewrite Z.land_0_r.
Qed.

Lemma start_csr now h c :
  h_csr (start legal main_addr now h) c =
  match c with
  | MHARTID => h_csr h MHARTID
  | MSTATUS => legal MSTATUS (h_csr h MSTATUS) (Z.lor (Z.land (h_csr h MSTATUS) (u64 (Z.lnot MSTATUS_MPP_MASK))) MSTATUS_MPP_S)
  | MEPC => legal MEPC (h_csr h MEPC) main_addr
  | MEDELEG => legal MEDELEG (h_csr h MEDELEG) 0xffff
  | MIDELEG => legal MIDELEG (h_csr h MIDELEG) 0xffff
  | MIE =>
      let dg := legal MIDELEG (h_csr h MIDELEG) 0xffff in
      let m := legal MIE (h_csr h MIE) (Z.lor (Z.land (h_csr h MIE) (u64 (Z.lnot dg)))
                                          (Z.land (Z.lor (Z.lor (Z.land (h_csr h MIE) dg) SIE_SEIE) SIE_STIE) dg)) in
      legal MIE m (Z.lor m MIE_STIE)
  | MENVCFG => legal MENVCFG (h_csr h MENVCFG) (Z.lor (h_csr h MENVCFG) (2 ^ 63))
  | MCOUNTEREN => legal MCOUNTEREN (h_csr h MCOUNTEREN) (Z.lor (h_csr h MCOUNTEREN) 2)
  | PMPADDR0 => legal PMPADDR0 (h_csr h PMPADDR0) 0x3fffffffffffff
  | PMPCFG0 => legal PMPCFG0 (h_csr h PMPCFG0) 0xf
  | SATP => legal SATP (h_csr h SATP) 0
  | STVEC => h_csr h STVEC
  | STIMECMP => legal STIMECMP (h_csr h STIMECMP) (u64 (now + 1000000))
  end.
Proof. by destruct c. Qed.

Lemma start_sie now h b : b ∈ [5; 9] -> Z.testbit (r_sie (start legal main_addr now h)) b = true.
Proof.
  intros Hb. unfold r_sie. rewrite Z.land_spec, !start_csr. cbv zeta.
  assert (implemented MIE b /\ implemented MIDELEG b) as [H1 H2] by done.
  assert (Z.testbit 0xffff b = true) as Hf by (repeat (apply elem_of_cons in Hb as [->|Hb]; [done|]); by apply elem_of_nil in Hb).
  assert (Z.testbit (Z.lor SIE_SEIE SIE_STIE) b = true) as Hs by (repeat (apply elem_of_cons in Hb as [->|Hb]; [done|]); by apply elem_of_nil in Hb).
  rewrite !(hw_bits _ Hw) by done. rewrite Z.lor_spec, (hw_bits _ Hw MIE _ _ _ H1).
  rewrite !Z.lor_spec, Z.land_spec, !Z.land_spec, !Z.lor_spec, (hw_bits _ Hw MIDELEG _ _ _ H2), Hf.
  rewrite Z.lor_spec in Hs. rewrite <- (orb_assoc _ (Z.testbit SIE_SEIE b)), Hs, orb_true_r, !andb_true_r. by rewrite !orb_true_r.
Qed.

Lemma start_supervisor now i h :
  (i < 8)%nat -> h_csr h MHARTID = Z.of_nat i ->
  let h' := start legal main_addr now h in
  supervisor i h' /\ h_pc h' = main_addr /\ h_csr h' SATP = 0 /\ h_csr h' STIMECMP = u64 (now + 1000000).
Proof.
  intros Hi Hid h'.
  assert (h_mode h' = Supervisor) as Hm.
  { change (h_mode h') with (let mpp := Z.land (h_csr h' MSTATUS) MSTATUS_MPP_MASK in
      if mpp =? MSTATUS_MPP_S then Supervisor else if mpp =? MSTATUS_MPP_M then Machine else User).
    cbv zeta. unfold h'. rewrite start_csr, (hw_mpp _ Hw) by apply mpp_of_start. done. }
  assert (h_tp h' = Z.of_nat i) as Ht.
  { change (h_tp h') with (u64 (i32 (h_csr h MHARTID))). rewrite Hid, i32_small, u64_small by lia. done. }
  split; [split_and!; [done..| | | | |]| split_and!].
  - intros b Hb. by apply start_sie.
  - intros b Hb. unfold h'. rewrite start_csr, (hw_bits _ Hw) by done.
    repeat (apply elem_of_cons in Hb as [->|Hb]; [done|]); by apply elem_of_nil in Hb.
  - unfold h'. rewrite start_csr, (hw_bits _ Hw) by done. by rewrite Z.lor_spec, orb_true_r.
  - unfold h'. rewrite start_csr, (hw_bits _ Hw) by done. by rewrite Z.lor_spec, orb_true_r.
  - intros a Ha. unfold pmp_allows, h'. rewrite !start_csr, (hw_pmpcfg _ Hw), (hw_pmpaddr _ Hw) by lia.
    apply andb_true_iff. split; [|apply Z.ltb_lt; unfold PHYSTOP, KERNBASE in Ha; lia]. apply andb_true_iff. split; [done|]. apply Z.leb_le. lia.
  - change (h_pc h') with (h_csr h' MEPC). unfold h'. rewrite start_csr. apply (hw_mepc _ Hw); apply Hmain.
  - unfold h'. rewrite start_csr. apply (hw_bare _ Hw).
  - unfold h'. rewrite start_csr. apply (hw_stimecmp _ Hw), u64_range.
Qed.

(** ** The machine *)

Abbreviation bstep := (boot_step legal main_addr kernelvec kpgtbl).
Abbreviation brun := (boot_run legal main_addr kernelvec kpgtbl).

Definition call_of (s : stmt) : option call := match s with Call c => Some c | _ => None end.
(** The initialisations in the order of [main]. *)
Definition all_calls : list call := omap call_of (main_body 0).
Definition calls_upto (k : nat) : list call := omap call_of (take k (main_body 0)).
(** How far hart 0 is. *)
Definition progress (y : machine) : nat := match m_harts y !! 0%nat with Some (_, Main k) => k | _ => 0%nat end.

Definition prio_ok (p : plic) : Prop := p !! (PLIC + UART0_IRQ * 4) = Some 1 /\ p !! (PLIC + VIRTIO0_IRQ * 4) = Some 1.
Definition enabled (i : nat) (p : plic) : Prop :=
  p !! PLIC_SENABLE (Z.of_nat i) = Some 0x402 /\ p !! PLIC_SPRIORITY (Z.of_nat i) = Some 0.

(** After the statements [done] of [main]. *)
Definition so_far (i : nat) (h : hart) (started : bool) (p : plic) (done : list stmt) : Prop :=
  supervisor i h /\ (i <> 0%nat -> done <> [] -> started = true)
  /\ (Kvminithart ∈ done -> h_csr h SATP = MAKE_SATP kpgtbl)
  /\ (Trapinithart ∈ done -> h_csr h STVEC = kernelvec)
  /\ (Plicinithart ∈ done -> enabled i p).

Record boot_inv (y : machine) : Prop := {
  bi_harts : (length (m_harts y) <= 8)%nat;
  bi_calls : m_calls y = calls_upto (progress y);
  bi_pagetable : Kvminit ∈ m_calls y -> m_pagetable y = kpgtbl;
  bi_prio : Plicinit ∈ m_calls y -> prio_ok (m_plic y);
  bi_started : m_started y = true <-> progress y = length (main_body 0);
  bi_reset i h : m_harts y !! i = Some (h, Reset) -> h_csr h MHARTID = Z.of_nat i;
  bi_bound i h k : m_harts y !! i = Some (h, Main k) -> (k <= length (main_body (Z.of_nat i)))%nat;
  bi_main i h k : m_harts y !! i = Some (h, Main k) -> so_far i h (m_started y) (m_plic y) (take k (main_body (Z.of_nat i))) }.

Lemma supervisor_csrw i c x h : c = SATP \/ c = STVEC -> supervisor i h -> supervisor i (csrw legal c x h).
Proof. intros Hc. unfold supervisor, r_sie, pmp_allows. by rewrite !csrw_ne by (destruct Hc as [-> | ->]; done). Qed.
Lemma supervisor_cpuid i h : (i < 8)%nat -> supervisor i h -> cpuid h = Z.of_nat i.
Proof. intros Hi (_ & Ht & _). unfold cpuid, r_tp. rewrite Ht. apply i32_small. lia. Qed.

Lemma calls_S k s : main_body 0 !! k = Some s -> calls_upto (S k) = calls_upto k ++ match s with Call c => [c] | _ => [] end.
Proof. intros Hk. unfold calls_upto. rewrite (take_S_r _ _ _ Hk), omap_app. by destruct s. Qed.

(** Where hart 0 installs the page table, it has been made. *)
Lemma pagetable_made i y h k :
  boot_inv y -> m_harts y !! i = Some (h, Main k) -> main_body (Z.of_nat i) !! k = Some Kvminithart -> m_pagetable y = kpgtbl.
Proof.
  intros I Hi Hk. apply (bi_pagetable y I). rewrite (bi_calls y I). destruct i as [|i].
  - unfold progress. rewrite Hi. do 20 (destruct k as [|k]; [try done; vm_compute; set_solver|]). done.
  - destruct (bi_main y I _ _ _ Hi) as (_ & Hst & _). change (main_body (Z.of_nat (S i))) with
      [WaitStarted; Sync; Printf "hart %d starting"; Kvminithart; Trapinithart; Plicinithart] in *.
    destruct k as [|k]; [done|]. rewrite (proj1 (bi_started y I) (Hst ltac:(done) ltac:(done))). vm_compute. set_solver.
Qed.

Lemma other_body i k st : main_body (Z.of_nat (S i)) !! k = Some st -> st <> SetStarted /\ forall c, st <> Call c.
Proof.
  change (main_body (Z.of_nat (S i))) with [WaitStarted; Sync; Printf "hart %d starting"; Kvminithart; Trapinithart; Plicinithart].
  intros Hk. do 6 (destruct k as [|k]; [simplify_eq/=; by split|]). done.
Qed.
Lemma set_started_pos k st : main_body 0 !! k = Some st -> st = SetStarted <-> S k = length (main_body 0).
Proof. intros Hk. do 20 (destruct k as [|k]; [by injection Hk as <-|]). done. Qed.

Lemma advance i h k st y h' calls' pt' plic' started' :
  boot_inv y -> m_harts y !! i = Some (h, Main k) -> main_body (Z.of_nat i) !! k = Some st ->
  calls' = m_calls y ++ match st with Call c => [c] | _ => [] end ->
  (Kvminit ∈ calls' -> pt' = kpgtbl) -> (Plicinit ∈ calls' -> prio_ok plic') ->
  (started' = true <-> m_started y = true \/ st = SetStarted) ->
  (forall j, (j < 8)%nat -> j <> i -> enabled j (m_plic y) -> enabled j plic') ->
  so_far i h' started' plic' (take (S k) (main_body (Z.of_nat i))) ->
  boot_inv (Mach started' calls' pt' plic' (<[i := (h', Main (S k))]> (m_harts y))).
Proof.
  intros I Hi Hk Hc Hp Hq Hs He Hso. pose proof (lookup_lt_Some _ _ _ Hi) as Hl. pose proof (bi_harts y I) as H8.
  assert (progress (Mach started' calls' pt' plic' (<[i := (h', Main (S k))]> (m_harts y))) = if decide (i = 0%nat) then S k else progress y) as Hpr.
  { unfold progress. cbn [m_harts]. destruct (decide (i = 0%nat)) as [->|]; [by rewrite list_lookup_insert_eq|by rewrite list_lookup_insert_ne by lia]. }
  split; cbn [m_harts m_calls m_pagetable m_plic m_started]; try done.
  - by rewrite length_insert.
  - rewrite Hpr, Hc, (bi_calls y I). destruct i as [|i].
    + rewrite decide_True, (calls_S k st Hk) by done. unfold progress. by rewrite Hi.
    + rewrite decide_False by done. destruct (other_body _ _ _ Hk) as [_ Hn]. destruct st; try apply app_nil_r. by destruct (Hn c).
  - rewrite Hpr, Hs, (bi_started y I). destruct (decide (i = 0%nat)) as [->|Hn].
    + rewrite (set_started_pos k st Hk). unfold progress. rewrite Hi. apply lookup_lt_Some in Hk. simpl in Hk |- *. lia.
    + destruct i as [|i]; [done|]. pose proof (other_body _ _ _ Hk) as [? _]. naive_solver.
  - intros j g Hj. destruct (decide (j = i)) as [->|]; [by rewrite list_lookup_insert_eq in Hj by done|].
    rewrite list_lookup_insert_ne in Hj by done. by apply (bi_reset y I).
  - intros j g m Hj. destruct (decide (j = i)) as [->|].
    + rewrite list_lookup_insert_eq in Hj by done. simplify_eq. by apply lookup_lt_Some in Hk.
    + rewrite list_lookup_insert_ne in Hj by done. by apply (bi_bound y I _ g).
  - intros j g m Hj. destruct (decide (j = i)) as [->|].
    + rewrite list_lookup_insert_eq in Hj by done. by simplify_eq.
    + rewrite list_lookup_insert_ne in Hj by done. pose proof (lookup_lt_Some _ _ _ Hj).
      destruct (bi_main y I _ _ _ Hj) as (S1 & S2 & S3 & S4 & S5). split_and!; auto with lia.
      intros ??. apply Hs. left. auto.
Qed.

Lemma so_far_snoc i h h' b b' p p' done s :
  so_far i h b p done -> supervisor i h' -> (i <> 0%nat -> b' = true) ->
  h_csr h' SATP = (if decide (s = Kvminithart) then MAKE_SATP kpgtbl else h_csr h SATP) ->
  h_csr h' STVEC = (if decide (s = Trapinithart) then kernelvec else h_csr h STVEC) ->
  (enabled i p \/ s = Plicinithart -> enabled i p') ->
  so_far i h' b' p' (done ++ [s]).
Proof.
  intros (_ & _ & S3 & S4 & S5) Hs Hb E1 E2 E3. split_and!; [done|auto| | |]; intros [Hd|Hd%list_elem_of_singleton]%elem_of_app.
  - rewrite E1. destruct (decide (s = Kvminithart)); auto.
  - by rewrite E1, decide_True.
  - rewrite E2. destruct (decide (s = Trapinithart)); auto.
  - by rewrite E2, decide_True.
  - auto.
  - auto.
Qed.

Ltac regs_apart := unfold PLIC_SENABLE, PLIC_SPRIORITY, UART0_IRQ, VIRTIO0_IRQ in *; lia.
Lemma plicinit_ok p : prio_ok (plicinit p).
Proof. unfold plicinit. split; [by rewrite lookup_insert_ne by regs_apart; rewrite lookup_insert_eq|by rewrite lookup_insert_eq]. Qed.
Lemma plicinit_enabled i p : enabled i p -> enabled i (plicinit p).
Proof. intros [H1 H2]. unfold plicinit. split; by rewrite !lookup_insert_ne by regs_apart. Qed.
Lemma plicinithart_ok i p : enabled i (plicinithart (Z.of_nat i) p).
Proof. unfold plicinithart. split; [by rewrite lookup_insert_ne by regs_apart; rewrite lookup_insert_eq|by rewrite lookup_insert_eq]. Qed.
Lemma plicinithart_enabled i j p : (i < 8)%nat -> (j < 8)%nat -> j <> i -> enabled j p -> enabled j (plicinithart (Z.of_nat i) p).
Proof. intros ??? [H1 H2]. unfold plicinithart. split; by rewrite !lookup_insert_ne by regs_apart. Qed.
Lemma plicinithart_prio i p : (i < 8)%nat -> prio_ok p -> prio_ok (plicinithart (Z.of_nat i) p).
Proof. intros ? [H1 H2]. unfold plicinithart. split; by rewrite !lookup_insert_ne by regs_apart. Qed.

Ltac started_iff := solve [split; [intros; first [by left|by right]|by intros [?|?]]].
Lemma boot_step_inv i now y : boot_inv y -> boot_inv (bstep i now y).
Proof.
  intros I. unfold boot_step. destruct (m_harts y !! i) as [[h [|k]]|] eqn:Hi; [| |done].
  - pose proof (lookup_lt_Some _ _ _ Hi) as Hl. pose proof (bi_harts y I).
    destruct (start_supervisor now i h ltac:(lia) (bi_reset y I _ _ Hi)) as [Hs _].
    assert (progress (set_phase i (start legal main_addr now h) 0 y) = progress y) as Hpr.
    { unfold progress, set_phase. cbn [m_harts]. destruct (decide (i = 0%nat)) as [->|]; [by rewrite list_lookup_insert_eq, Hi|by rewrite list_lookup_insert_ne]. }
    split; rewrite ?Hpr; cbn [set_phase m_harts m_calls m_pagetable m_plic m_started]; try apply I.
    + rewrite length_insert. done.
    + intros j g Hj. apply list_lookup_insert_Some in Hj as [(-> & ? & _)|[_ Hj]]; [done|by apply (bi_reset y I)].
    + intros j g m Hj. apply list_lookup_insert_Some in Hj as [(-> & ? & _)|[_ Hj]]; [|by apply (bi_bound y I _ g)]. simplify_eq. lia.
    + intros j g m Hj. apply list_lookup_insert_Some in Hj as [(-> & ? & _)|[_ Hj]]; [|by apply (bi_main y I)]. simplify_eq.
      split_and!; [done|done|by intros ?%elem_of_nil..].
  - pose proof (lookup_lt_Some _ _ _ Hi) as Hl. pose proof (bi_harts y I). pose proof (bi_main y I _ _ _ Hi) as So.
    pose proof (proj1 So) as Hsup. rewrite (supervisor_cpuid i h ltac:(lia) Hsup). destruct (main_body (Z.of_nat i) !! k) as [s|] eqn:Hk; [|done].
    assert (i <> 0%nat -> s = WaitStarted \/ m_started y = true) as Hst.
    { intros Hn. destruct k as [|k]; [left; destruct i; [done|]; by injection Hk|]. right. apply So; [done|]. by destruct (main_body (Z.of_nat i)). }
    assert (forall h' b' p', supervisor i h' -> (i <> 0%nat -> b' = true) ->
      h_csr h' SATP = (if decide (s = Kvminithart) then MAKE_SATP kpgtbl else h_csr h SATP) ->
      h_csr h' STVEC = (if decide (s = Trapinithart) then kernelvec else h_csr h STVEC) ->
      (enabled i (m_plic y) \/ s = Plicinithart -> enabled i p') -> so_far i h' b' p' (take (S k) (main_body (Z.of_nat i)))) as Hsnoc.
    { intros h' b' p' ?????. rewrite (take_S_r _ _ _ Hk). by eapply so_far_snoc. }
    destruct s as [c|t| | | | | |]; cbn [exec_stmt].
    + eapply (advance i h k (Call c) y); try done; cbn [do_call m_calls m_pagetable m_plic m_started]; try started_iff.
      * intros Hc. destruct (decide (c = Kvminit)); [done|]. apply (bi_pagetable y I). set_solver.
      * intros Hc. destruct (decide (c = Plicinit)); [apply plicinit_ok|]. apply (bi_prio y I). set_solver.
      * intros j _ _ He. destruct (decide (c = Plicinit)); [by apply plicinit_enabled|done].
      * apply Hsnoc; try done. { intros Hn. by destruct (Hst Hn). }
        intros [He|]; [|done]. destruct (decide (c = Plicinit)); [by apply plicinit_enabled|done].
    + eapply (advance i h k (Printf t) y); try done; rewrite ?app_nil_r; try done; try apply (bi_pagetable y I); try apply (bi_prio y I); try started_iff.
      apply Hsnoc; try done; [intros Hn; by destruct (Hst Hn)|by intros [?|?]].
    + eapply (advance i h k Kvminithart y); try done; rewrite ?app_nil_r; try done; try apply (bi_pagetable y I); try apply (bi_prio y I); try started_iff.
      apply Hsnoc; [apply supervisor_csrw; [by left|done]|intros Hn; by destruct (Hst Hn)| | |by intros [?|?]].
      * unfold kvminithart, w_satp. rewrite csrw_eq, (hw_sv39 _ Hw), decide_True by (rewrite ?(pagetable_made i y h k); done). by rewrite (pagetable_made i y h k).
      * by unfold kvminithart, w_satp; rewrite csrw_ne.
    + eapply (advance i h k Trapinithart y); try done; rewrite ?app_nil_r; try done; try apply (bi_pagetable y I); try apply (bi_prio y I); try started_iff.
      apply Hsnoc; [apply supervisor_csrw; [by right|done]|intros Hn; by destruct (Hst Hn)| | |by intros [?|?]].
      * by unfold trapinithart, w_stvec; rewrite csrw_ne.
      * unfold trapinithart, w_stvec. rewrite csrw_eq, decide_True by done. by apply (hw_stvec _ Hw); apply Hvec.
    + rewrite (supervisor_cpuid i h ltac:(lia) Hsup). eapply (advance i h k Plicinithart y); try done; cbn [on_plic m_calls m_pagetable m_plic m_started]; rewrite ?app_nil_r; try done; try apply (bi_pagetable y I); try apply (bi_prio y I); try started_iff.
      * intros Hc. apply plicinithart_prio; [lia|]. by apply (bi_prio y I).
      * intros j ???. apply plicinithart_enabled; [lia|done..].
      * apply Hsnoc; try done; [intros Hn; by destruct (Hst Hn)|]. intros _. apply plicinithart_ok.
    + eapply (advance i h k Sync y); try done; rewrite ?app_nil_r; try done; try apply (bi_pagetable y I); try apply (bi_prio y I); try started_iff.
      apply Hsnoc; try done; [intros Hn; by destruct (Hst Hn)|by intros [?|?]].
    + eapply (advance i h k SetStarted y); try done; rewrite ?app_nil_r; try done; try apply (bi_pagetable y I); try apply (bi_prio y I); try started_iff.
      apply Hsnoc; try done; by intros [?|?].
    + destruct (m_started y) eqn:Hb; [|done]. eapply (advance i h k WaitStarted y); try done; rewrite ?app_nil_r; try done; try apply (bi_pagetable y I); try apply (bi_prio y I); try started_iff.
      apply Hsnoc; try done; by intros [?|?].
Qed.

Record at_reset (y : machine) : Prop := {
  ar_harts : (length (m_harts y) <= 8)%nat;
  ar_hart i h ph : m_harts y !! i = Some (h, ph) -> ph = Reset /\ h_csr h MHARTID = Z.of_nat i;
  ar_calls : m_calls y = [];
  ar_started : m_started y = false }.

Lemma at_reset_inv y : at_reset y -> boot_inv y.
Proof.
  intros [Hn Hh Hc Hs]. assert (progress y = 0%nat) as Hp.
  { unfold progress. destruct (m_harts y !! 0%nat) as [[h ph]|] eqn:E; [|done]. by destruct (Hh _ _ _ E) as [-> _]. }
  split; rewrite ?Hp, ?Hc, ?Hs; try done.
  - intros Hi%elem_of_nil. done.
  - intros Hi%elem_of_nil. done.
  - intros i h Hi. apply (Hh _ _ _ Hi).
  - intros i h k Hi. by destruct (Hh _ _ _ Hi).
  - intros i h k Hi. by destruct (Hh _ _ _ Hi).
Qed.
Lemma boot_run_inv l : forall y, boot_inv y -> boot_inv (brun l y).
Proof. induction l as [|[i now] l IH]; [done|]. intros y I. by apply IH, boot_step_inv. Qed.

Lemma started_calls y : boot_inv y -> m_started y = true -> m_calls y = all_calls.
Proof. intros I Hs. rewrite (bi_calls y I), (proj1 (bi_started y I) Hs). done. Qed.
Lemma in_scheduler_calls y i h k :
  boot_inv y -> m_harts y !! i = Some (h, Main k) -> main_body (Z.of_nat i) !! k = None -> m_calls y = all_calls.
Proof.
  intros I Hi Hk. apply lookup_ge_None in Hk. destruct i as [|i].
  - rewrite (bi_calls y I). unfold progress, calls_upto, all_calls. rewrite Hi, take_ge by done. done.
  - apply started_calls; [done|]. apply (bi_main y I _ _ _ Hi); [done|]. destruct k; [|done]. vm_compute in Hk. lia.
Qed.

(** C36: However the harts of a machine interleave from reset, every hart that
    has reached the scheduler runs in supervisor mode under its own number,
    has all of memory, its timer and device interrupts and the exceptions of
    user code, translates through the kernel's page table, takes traps at
    kernelvec, and gets the interrupts of the UART and the disk from the
    interrupt controller; and by then hart 0 has made every initialisation of
    [main].  The initialisations are made in the order of [main], each once,
    and no other hart gets past its first statement before the last. *)
Theorem boot_ready y l :
  at_reset y ->
  let y' := brun l y in
  m_calls y' `prefix_of` all_calls
  /\ forall i h k, m_harts y' !! i = Some (h, Main k) ->
       supervisor i h /\ (i <> 0%nat -> k <> 0%nat -> m_calls y' = all_calls)
       /\ (main_body (Z.of_nat i) !! k = None ->
           m_calls y' = all_calls /\ h_csr h SATP = MAKE_SATP kpgtbl /\ h_csr h STVEC = kernelvec
           /\ enabled i (m_plic y') /\ prio_ok (m_plic y')).
Proof.
  intros R y'. assert (boot_inv y') as I by (by apply boot_run_inv, at_reset_inv). split.
  { rewrite (bi_calls y' I). exists (omap call_of (drop (progress y') (main_body 0))). unfold calls_upto, all_calls. by rewrite <- omap_app, take_drop. }
  intros i h k Hi. destruct (bi_main y' I _ _ _ Hi) as (S1 & S2 & S3 & S4 & S5). split_and!; [done| |].
  { intros Hn Hk. apply started_calls, S2; [done..|]. destruct k; [done|]. by destruct i. }
  intros Hk. pose proof (in_scheduler_calls y' i h k I Hi Hk) as Hc. apply lookup_ge_None in Hk. rewrite take_ge in S3, S4, S5 by done.
  assert (forall s, s ∈ [Kvminithart; Trapinithart; Plicinithart] -> s ∈ main_body (Z.of_nat i)) as Hin.
  { intros s Hs. destruct i; vm_compute in Hs |- *; set_solver. }
  split_and!; [done|apply S3, Hin; set_solver|apply S4, Hin; set_solver|apply S5, Hin; set_solver|].
  apply (bi_prio y' I). rewrite Hc. vm_compute. set_solver.
Qed.

(** ** Every hart gets there *)

Definition position (ph : phase) : nat := match ph with Reset => 0 | Main k => S k end.
Definition turns (i : nat) (l : list (nat * Z)) : nat := length (filter (fun t => t.1 = i) l).

Lemma boot_step_position i j now y h ph :
  boot_inv y -> m_harts y !! i = Some (h, ph) ->
  (m_started y = true -> m_started (bstep j now y) = true)
  /\ exists h' ph', m_harts (bstep j now y) !! i = Some (h', ph') /\ (position ph <= position ph')%nat
     /\ (j = i -> i = 0%nat \/ m_started y = true -> (S (position ph) <= position ph' \/ S (length (main_body (Z.of_nat i))) <= position ph)%nat).
Proof.
  intros I Hi. assert (forall y' g k, m_harts y' = <[j := (g, Main k)]> (m_harts y) -> (j = i -> (position ph < S k)%nat) ->
    exists h' ph', m_harts y' !! i = Some (h', ph') /\ (position ph <= position ph')%nat
     /\ (j = i -> i = 0%nat \/ m_started y = true -> (S (position ph) <= position ph' \/ S (length (main_body (Z.of_nat i))) <= position ph)%nat)) as Hset.
  { intros y' g k -> Hk. pose proof (lookup_lt_Some _ _ _ Hi). destruct (decide (j = i)) as [->|].
    - rewrite list_lookup_insert_eq by done. exists g, (Main k). specialize (Hk eq_refl). cbn [position]. split_and!; [done|lia|lia].
    - rewrite list_lookup_insert_ne by done. exists h, ph. split_and!; [done|lia|done]. }
  assert (exists h' ph', m_harts y !! i = Some (h', ph') /\ (position ph <= position ph')%nat) as Hsame by (by exists h, ph).
  unfold boot_step. destruct (m_harts y !! j) as [[g [|k]]|] eqn:Hj.
  - split; [done|]. eapply Hset; [done|]. intros ->. rewrite Hi in Hj. injection Hj as -> ->. simpl. lia.
  - pose proof (lookup_lt_Some _ _ _ Hj). pose proof (bi_harts y I). pose proof (bi_main y I _ _ _ Hj) as So.
    rewrite (supervisor_cpuid j g ltac:(lia) (proj1 So)). assert (j = i -> position ph = S k) as Hpos.
    { intros ->. rewrite Hi in Hj. by injection Hj as -> ->. }
    destruct (main_body (Z.of_nat j) !! k) as [s|] eqn:Hk.
    + destruct s; cbn [exec_stmt]; try (split; [done|]; eapply Hset; [done|]; intros Hji; rewrite (Hpos Hji); lia).
      destruct (m_started y) eqn:Hs; [split; [done|]; eapply Hset; [done|]; intros Hji; rewrite (Hpos Hji); lia|].
      split; [by rewrite Hs|]. exists h, ph. split_and!; [done..|]. intros -> [->|?]; [|done]. by do 20 (destruct k as [|k]; [done|]).
    + split; [done|]. exists h, ph. split_and!; [done..|]. intros -> _. right. rewrite Hpos by done. apply lookup_ge_None in Hk. lia.
  - split; [done|]. exists h, ph. split_and!; [done..|]. intros ->. by rewrite Hi in Hj.
Qed.

Lemma turns_cons i j now l : turns i ((j, now) :: l) = ((if decide (j = i) then 1 else 0) + turns i l)%nat.
Proof. unfold turns. rewrite filter_cons. cbn [fst]. by destruct (decide (j = i)). Qed.
Lemma boot_run_position i l : forall y h ph,
  boot_inv y -> m_harts y !! i = Some (h, ph) -> i = 0%nat \/ m_started y = true ->
  exists h' ph', m_harts (brun l y) !! i = Some (h', ph')
    /\ (Nat.min (S (length (main_body (Z.of_nat i)))) (position ph + turns i l) <= position ph')%nat.
Proof.
  induction l as [|[j now] l IH]; intros y h ph I Hi Hs.
  - exists h, ph. split; [done|]. change (turns i []) with 0%nat. lia.
  - destruct (boot_step_position i j now y h ph I Hi) as (Hs' & h1 & ph1 & H1 & Hle & Hlt).
    destruct (IH _ h1 ph1 (boot_step_inv j now y I) H1 ltac:(naive_solver)) as (h2 & ph2 & H2 & Hle2). exists h2, ph2. split; [done|].
    rewrite turns_cons. destruct (decide (j = i)) as [E|]; [specialize (Hlt E Hs)|]; lia.
Qed.
Lemma boot_run_app l1 l2 : forall y, brun (l1 ++ l2) y = brun l2 (brun l1 y).
Proof. induction l1 as [|[i now] l1 IH]; intros y; [done|]. apply IH. Qed.
Lemma boot_run_hart i l : forall y, is_Some (m_harts y !! i) <-> is_Some (m_harts (brun l y) !! i).
Proof.
  induction l as [|[j now] l IH]; intros y; [done|]. cbn [boot_run]. rewrite <- IH, !lookup_lt_is_Some.
  assert (length (m_harts (bstep j now y)) = length (m_harts y)) as ->; [|done].
  unfold boot_step. destruct (m_harts y !! j) as [[h [|k]]|]; [by simpl; rewrite length_insert| |done].
  destruct (main_body (cpuid h) !! k) as [[]|]; try done; cbn; try (by rewrite length_insert). by destruct (m_started y); simpl; rewrite ?length_insert.
Qed.

(** No hart waits for ever: once hart 0 has had 21 turns and then every hart
    7, all are in the scheduler, whatever the order of their turns. *)
Theorem boot_completes y l0 l1 :
  at_reset y -> (21 <= turns 0 l0)%nat -> (forall i, (i < length (m_harts y))%nat -> (7 <= turns i l1)%nat) ->
  forall i h ph, m_harts (brun (l0 ++ l1) y) !! i = Some (h, ph) -> exists k, ph = Main k /\ main_body (Z.of_nat i) !! k = None.
Proof.
  intros R H0 H1 i h ph Hi. pose proof (at_reset_inv y R) as I.
  assert (is_Some (m_harts y !! i)) as Hy by (apply (boot_run_hart i (l0 ++ l1)); by rewrite Hi).
  rewrite boot_run_app in Hi. set (y1 := brun l0 y) in *.
  assert (boot_inv y1) as I1 by by apply boot_run_inv.
  pose proof (lookup_lt_is_Some_1 _ _ Hy) as Hlt.
  destruct (lookup_lt_is_Some_2 (m_harts y) 0 ltac:(lia)) as [[g0 ph0] Hg0].
  destruct (boot_run_position 0 l0 y g0 ph0 I Hg0 (or_introl eq_refl)) as (g1 & ph1 & Hg1 & Hp1). fold y1 in Hg1.
  destruct ph1 as [|k1]; cbn [position] in Hp1; [change (length (main_body (Z.of_nat 0))) with 20%nat in Hp1; lia|].
  pose proof (bi_bound y1 I1 _ _ _ Hg1) as Hb1. change (length (main_body (Z.of_nat 0))) with 20%nat in *.
  assert (m_started y1 = true) as Hst.
  { apply (bi_started y1 I1). unfold progress. rewrite Hg1. change (length (main_body 0)) with 20%nat. lia. }
  destruct (proj1 (boot_run_hart i l0 y) Hy) as [[g2 ph2] Hg2]. fold y1 in Hg2.
  destruct (boot_run_position i l1 y1 g2 ph2 I1 Hg2 (or_intror Hst)) as (g3 & ph3 & Hg3 & Hp3). rewrite Hi in Hg3. injection Hg3 as <- <-.
  destruct i as [|i].
  - destruct (boot_run_position 0 l1 y1 g1 (Main k1) I1 Hg1 (or_introl eq_refl)) as (g4 & ph4 & Hg4 & Hp4). rewrite Hi in Hg4. injection Hg4 as <- <-.
    cbn [position] in Hp4. change (length (main_body (Z.of_nat 0))) with 20%nat in Hp4.
    destruct ph as [|k]; cbn [position] in Hp4; [lia|]. exists k. split; [done|]. apply lookup_ge_None. change (length (main_body (Z.of_nat 0))) with 20%nat. lia.
  - specialize (H1 (S i) Hlt). change (length (main_body (Z.of_nat (S i)))) with 6%nat in Hp3.
    destruct ph as [|k]; cbn [position] in Hp3; [lia|]. exists k. split; [done|]. apply lookup_ge_None. change (length (main_body (Z.of_nat (S i)))) with 6%nat. lia.
Qed.
End Hardware.

(** ** Two harts *)

Definition sample_legal (c : csr) (old x : Z) : Z :=
  match c with
  | MEDELEG => Z.land x 0xb3ff
  | MIDELEG | MIE => Z.land x 0x222
  | MCOUNTEREN => Z.land x 7
  | _ => x
  end.
Lemma sample_legal_ok : hardware_ok sample_legal.
Proof.
  split; try done. intros c old x b Hb. destruct c; try done; cbn [implemented sample_legal] in *; rewrite ?Z.land_spec.
  1-3: repeat (apply elem_of_cons in Hb as [->|Hb]; [apply andb_true_r|]); by apply elem_of_nil in Hb.
  subst b. apply andb_true_r.
Qed.
Definition sample_hart (i : nat) : hart * phase := (Hart (fun c => if decide (c = MHARTID) then Z.of_nat i else 0) 0 Machine 0x1000, Reset).
Definition two_harts : machine := Mach false [] 0 ∅ [sample_hart 0; sample_hart 1].
Definition first_hart_0 : list (nat * Z) := replicate 21 (0%nat, 100).
Definition then_both : list (nat * Z) := replicate 7 (1%nat, 200) ++ replicate 7 (0%nat, 300).
Abbreviation booted := (boot_run sample_legal 0x80000100 0x80000200 0x87fff000 (first_hart_0 ++ then_both) two_harts).

Lemma two_harts_reset : at_reset two_harts.
Proof. split; try done; [simpl; lia|]. intros [|[|i]] h ph Hi; first [discriminate Hi|by injection Hi as <- <-]. Qed.

Lemma main_ok : 0 <= 0x80000100 < 2 ^ 56 /\ 0x80000100 mod 4 = 0.
Proof. done. Qed.
Lemma vec_ok : 0 <= 0x80000200 < 2 ^ 56 /\ 0x80000200 mod 4 = 0.
Proof. done. Qed.
Lemma pt_ok : 0 <= 0x87fff000 < 2 ^ 56.
Proof. done. Qed.
Lemma second_hart_boots : exists h k, m_harts booted !! 1%nat = Some (h, Main k) /\ main_body 1 !! k = None.
Proof.
  pose proof (proj1 (boot_run_hart sample_legal 0x80000100 0x80000200 0x87fff000
    1 (first_hart_0 ++ then_both) two_harts) (ex_intro _ (sample_hart 1) eq_refl)) as [[h ph] Hh].
  destruct (boot_completes sample_legal sample_legal_ok 0x80000100 0x80000200 0x87fff000 main_ok vec_ok pt_ok
    two_harts first_hart_0 then_both two_harts_reset ltac:(vm_compute; lia)
    ltac:(intros [|[|i]] Hi; [vm_compute; lia|vm_compute; lia|simpl in Hi; lia]) 1 h ph Hh) as (k & -> & Hk).
  exists h, k. split; [exact Hh|exact Hk].
Qed.
Lemma boot_ready_witness :
  exists h k, m_harts booted !! 1%nat = Some (h, Main k) /\ supervisor 1 h /\ h_csr h SATP = MAKE_SATP 0x87fff000
    /\ m_calls booted = all_calls.
Proof.
  destruct second_hart_boots as (h & k & Hh & Hk). exists h, k. split; [exact Hh|].
  destruct (boot_ready sample_legal sample_legal_ok 0x80000100 0x80000200 0x87fff000 main_ok vec_ok pt_ok
    two_harts (first_hart_0 ++ then_both) two_harts_reset) as [_ H].
  destruct (H 1%nat h k Hh) as (Hs & _ & Hr). destruct (Hr Hk) as (Hc & Hp & _). exact (conj Hs (conj Hp Hc)).
Defined.

(** ** The first process *)

Section Forkret.
Context (trampoline uservec usertrap_addr : Z).
Context {E : Type} `{FileEnv E}.
Context (fsinit : M (kern E) ()) (kexec : list Z -> list (list Z) -> M (kern E) Z).

Ltac step_kern H := erewrite mthen_ret by (apply knM_ret, H); cbn [tr_kern tr_regs tr_stats].

Lemma start_init_run me k k1 k2 argc r st :
  fsinit k = Ret tt k1 -> kexec (text "/init") [text "/init"] k1 = Ret argc k2 -> 0 <= argc < 2 ^ 31 ->
  start_init fsinit kexec me (TrapSt _ k r st) = Ret tt (TrapSt _ (set_tfw me OFF_A0 (u64 argc) k2) r st).
Proof.
  intros H1 H2 H3. unfold start_init. step_kern H1. step_kern H2. step_kern (@set_tf_word_run E). step_kern (@tf_word_run E).
  rewrite tfw_set_eq, u64_small by (rewrite ?u64_small; lia). change (u64 (-1)) with 0xffffffffffffffff.
  destruct (Z.eqb_spec argc 0xffffffffffffffff); [lia|]. done.
Qed.

(** The first process starts [/init]: once the file system is ready and kexec
    has returned [argc], it goes to user space through the page table that kexec
    gave it, with [argc] in a0 and the saved user pc; any later process goes
    straight there. *)
Lemma forkret_run h me (first : bool) k1 k2 argc t :
  let k := tr_kern t in let r := tr_regs t in
  (if first then fsinit k = Ret tt k1 /\ kexec (text "/init") [text "/init"] k1 = Ret argc k2 /\ 0 <= argc < 2 ^ 31
   else k2 = k) ->
  0 < r_satp r < 2 ^ 64 -> 0 < p_kstack (kproc k2 me) + PGSIZE < 2 ^ 64 ->
  exists k', forkret trampoline uservec usertrap_addr fsinit kexec h me first t
             = Ret (MAKE_SATP (p_pagetable (kproc k2 me)), false)
                 (TrapSt _ k' (return_regs trampoline uservec (tfw k2 me OFF_EPC) r) (tr_stats t))
    /\ ps_proc (kn_ps k') = ps_proc (kn_ps k2) /\ (first = true -> tfw k' me OFF_A0 = argc).
Proof.
  intros k r Hf Hsatp Hsp. destruct t as [k0 r0 st0]. cbn [tr_kern tr_regs tr_stats] in *. subst k r.
  set (k3 := if first then set_tfw me OFF_A0 (u64 argc) k2 else k2).
  exists (return_frame usertrap_addr h me (r_satp r0) k3). split.
  - unfold forkret. rewrite (mthen_ret _ _ _ tt (TrapSt _ k3 r0 st0)).
    2:{ unfold k3. destruct first; [|by rewrite Hf]. destruct Hf as (H1 & H2 & H3). by eapply start_init_run. }
    assert (kproc k3 me = kproc k2 me) as Hk by (unfold k3; by destruct first).
    assert (tfw k3 me OFF_EPC = tfw k2 me OFF_EPC) as He by (unfold k3; destruct first; [apply tfw_set_ne; unfold OFF_EPC, OFF_A0; lia|done]).
    unfold usertrap_return. erewrite mthen_ret; [|erewrite mthen_ret by (apply prepare_return_run; [by rewrite Hk|done]); step_kern (@proc_at_run E); reflexivity].
    rewrite He. change (kproc (return_frame usertrap_addr h me (r_satp r0) k3) me) with (kproc k3 me). by rewrite Hk.
  - split; [unfold k3; by destruct first|]. intros ->. unfold k3. rewrite return_frame_word by (left; unfold OFF_A0; lia).
    rewrite tfw_set_eq by apply u64_range. apply u64_small. lia.
Qed.
End Forkret.
