(* ===== verification/UserMain.v ===== *)
(** The main programs of grep and of the shell (src/grep.c, src/sh.c): what
    Grep.v and Sh.v have, with the system calls around it.

    Both keep their lines in a buffer, so their memory is part of the state.
    [fuel] bounds the length of a string in the buffers, which end in a nul
    byte; running out of it is a program that goes on for ever. *)

From ITree Require Import ITree.
From S2P Require Import Prelude.
From S2P Require Import KString.
From S2P Require Import Ulib.
From S2P Require Import Grep.
From S2P Require Import Sh.
From S2P Require Import User.

Abbreviation uprog := (itree sysE).

(** ** grep *)

Section GrepMain.
Context (fuel : nat) (pattern buf : Z).

Fixpoint write_lines (out : list (list Z)) : uprog () :=
  match out with
  | [] => ret tt
  | l :: out' => sys (SWrite 1 l) ;;; write_lines out'
  end.

(** A round of the loop of [grep] with [n0] bytes of an incomplete line in the
    buffer. *)
Definition grep_round (fd : Z) (m : mem) (n0 : Z) : uprog (mem * Z + mem) :=
  let* r := sys (SRead fd (BUFSZ - n0 - 1)) in
  match r with
  | None => fail 2 (str "grep: read error" ++ nl)
  | Some [] => ret (inr m)
  | Some c =>
      let m := store_bytes m (buf + n0) c in
      let n1 := n0 + Z.of_nat (length c) in
      let m := store8 m (buf + n1) 0 in
      match grep_lines fuel m pattern buf with
      | None => ITree.spin
      | Some (m, p, out) =>
          write_lines out ;;;
          let n1 := if p =? buf then 0 else n1 in
          let n2 := if n1 >? 0 then n1 - (p - buf) else n1 in
          let m := if n1 >? 0 then umemmove m buf p n2 else m in
          ret (inl (m, n2))
      end
  end.
Definition grep_fd (fd : Z) (m : mem) : uprog mem := ITree.iter (fun s : mem * Z => grep_round fd s.1 s.2) (m, 0).

Fixpoint grep_files (args : list (list Z)) (m : mem) : uprog () :=
  match args with
  | [] => ret tt
  | a :: args' =>
      let* fd := sys (SOpen a O_RDONLY) in
      if fd <? 0 then fail 1 (str "grep: cannot open " ++ a ++ nl) else
      let* m := grep_fd fd m in
      sys (SClose fd) ;;;
      grep_files args' m
  end.
(** [pattern] is the address of [argv[1]] in the memory. *)
Definition grep_main (argv : list (list Z)) (m : mem) : uprog () :=
  match argv with
  | [] | [_] => fail 2 (str "usage: grep pattern [file ...]" ++ nl)
  | [_; _] => grep_fd 0 m ;;; exit 0
  | _ :: _ :: files => grep_files files m ;;; exit 0
  end.
End GrepMain.

(** ** The shell *)

Section ShMain.
Context (fuel : nat) (buf : Z).

(** The string at [a]. *)
Fixpoint cstring (n : nat) (m : mem) (a : Z) : list Z :=
  match n with
  | O => []
  | S n' => if m a =? 0 then [] else m a :: cstring n' m (a + 1)
  end.
Definition word (m : mem) (w : span) : list Z := cstring fuel m (fst w).

(** The system calls of [runcmd], from the tree of Sh.v. *)
Fixpoint perform {A} (m : mem) (p : Sh.prog) : uprog A :=
  match p with
  | PExit st => exit st
  | PFail s w s' => fail 2 (str s ++ match w with Some w => word m w | None => [] end ++ str s' ++ nl)
  | PExec argv failed => sys (SExec (match argv with w :: _ => word m w | [] => [] end) (map (word m) argv)) ;;; perform m failed
  | PClose fd k => sys (SClose (Z.of_nat fd)) ;;; perform m k
  | POpen file mode ok failed => let* r := sys (SOpen (word m file) mode) in if r <? 0 then perform m failed else perform m ok
  | PDup fd k => sys (SDup (Z.of_nat fd)) ;;; perform m k
  | PPipe ok failed =>
      let* r := sys SPipe in
      match r with None => perform m failed | Some (p0, p1) => perform m (ok (Z.to_nat p0) (Z.to_nat p1)) end
  | PFork child parent failed =>
      let* pid := sys SFork in
      if pid =? -1 then perform m failed else if pid =? 0 then perform m child else perform m parent
  | PWait k => sys SWait ;;; perform m k
  end.

(** [runcmd(parsecmd(cmd))] in the child, with what [parsecmd] prints. *)
Definition sh_child {A} (m : mem) (cmd : Z) : uprog A :=
  match ustrlen fuel m cmd with
  | None => ITree.spin
  | Some n =>
      let es := cmd + n in
      match (let* c := parseline m es (4 * fuel + 4) in
             let* _ := peek m es [] in
             let* s := gets (fun s => s) in
             mreturn (c, s))%kernel cmd with
      | Ret (c, s) _ =>
          if negb (s =? es) then fprintf 2 (str "leftovers: " ++ cstring fuel m s ++ nl) ;;; fail 2 (str "syntax" ++ nl)
          else perform (nulterminate c m) (runcmd c)
      | Panic msg => fail 2 (str msg ++ nl)
      | _ => ITree.spin
      end
  end.

(** [gets(buf, max)], from [i] on, with room for [left] characters more. *)
Fixpoint gets_from (left : nat) (m : mem) (i : Z) : uprog mem :=
  match left with
  | O => ret (store8 m (buf + i) 0)
  | S left' =>
      let* r := sys (SRead 0 1) in
      match r with
      | Some (c :: _) =>
          let m := store8 m (buf + i) c in
          if (c =? 10) || (c =? 13) then ret (store8 m (buf + (i + 1)) 0) else gets_from left' m (i + 1)
      | _ => ret (store8 m (buf + i) 0)
      end
  end.
Definition NBUF : Z := 100.
(** [getcmd(buf, sizeof(buf))], and whether it is at the end of the input. *)
Definition read_cmd (m : mem) : uprog (mem * bool) :=
  sys (SWrite 2 (str "$ ")) ;;;
  let* m := gets_from (Z.to_nat (NBUF - 1)) (umemset m buf 0 NBUF) 0 in
  ret (m, m buf =? 0).

Definition open_console : uprog () :=
  ITree.iter (fun _ : () =>
    let* fd := sys (SOpen (str "console") O_RDWR) in
    if fd >=? 0 then
      if fd >=? 3 then sys (SClose fd) ;;; ret (inr tt) else ret (inl tt)
    else ret (inr tt)) tt.

Definition sh_round (m : mem) : uprog (mem + ()) :=
  let* r := read_cmd m in
  let '(m, eof) := r in
  if (eof : bool) then ret (inr tt) else
  match main_line fuel m buf with
  | None => ITree.spin
  | Some LineBlank => ret (inl m)
  | Some (LineCd m path) =>
      let* r := sys (SChdir (cstring fuel m path)) in
      (if r <? 0 then fprintf 2 (str "cannot cd " ++ cstring fuel m path ++ nl) else ret tt) ;;;
      ret (inl m)
  | Some (LineRun cmd) =>
      let* pid := sys SFork in
      if pid =? -1 then fail 2 (str "fork" ++ nl) else
      if pid =? 0 then sh_child m cmd else
      sys SWait ;;;
      ret (inl m)
  end.
Definition sh_main (m : mem) : uprog () :=
  open_console ;;;
  ITree.iter sh_round m ;;;
  exit 0.
End ShMain.
