(* ===== verification/UserMainProof.v ===== *)
(** grep as a program does what Grep.v says of its lines, and the shell survives
    every line it is given. *)

From ITree Require Import ITree.
From S2P Require Import Prelude.
From S2P Require Import KString.
From S2P Require Import Grep.
From S2P Require Import Sh.
From S2P Require Import User.
From S2P Require Import UserWp.
From S2P Require Import UserMain.

(** ** grep *)

(** What the reads still deliver, and the lines written. *)
Definition grep_next A (e : sysE A) : A -> list delivery * list (list Z) -> list delivery * list (list Z) :=
  match e in sysE A return A -> list delivery * list (list Z) -> list delivery * list (list Z) with
  | SRead _ n => fun _ s => (snd (uread n (fst s)), snd s)
  | SWrite fd l => fun _ s => if fd =? 1 then (fst s, snd s ++ [l]) else s
  | _ => fun _ s => s
  end.
Definition grep_env A (e : sysE A) : A -> list delivery * list (list Z) -> Prop :=
  match e in sysE A return A -> list delivery * list (list Z) -> Prop with
  | SRead _ n => fun r s => r = fst (uread n (fst s))
  | _ => fun _ _ => True
  end.

Section GrepFd.
Context (fuel : nat) (pattern buf : Z) (total : list (list Z)) (err : bool).
Definition grep_inv (s : list delivery * list (list Z)) : Prop := snd s `prefix_of` total.
Abbreviation gwp := (wp grep_env grep_next grep_inv).

Lemma prefix_left (a b : list (list Z)) : a ++ b = total -> a `prefix_of` total.
Proof. intros <-. by exists b. Qed.

Lemma write_lines_run out : forall rest src done (Q : () -> list delivery * list (list Z) -> Prop),
  done ++ out ++ rest = total -> Q tt (src, done ++ out) -> gwp (write_lines out) Q (src, done).
Proof.
  induction out as [|l out IH]; intros rest src done Q Ht HQ; cbn [write_lines].
  - rewrite app_nil_r in HQ. apply wp_ret; [by eapply prefix_left|done].
  - apply wp_call; [by eapply prefix_left|]. intros w _. cbn [grep_next fst snd]. rewrite (Z.eqb_refl 1).
    assert ((done ++ [l]) ++ out ++ rest = total) as Ht' by (by rewrite <- Ht, <- !app_assoc).
    split; [by eapply prefix_left|]. eapply IH; [done|]. by rewrite <- app_assoc.
Qed.

(** The program [grep] makes of the reads what the function of Grep.v says, as
    long as it runs; it returns only when no read has failed. *)
Lemma grep_fd_run rounds fd m src done out :
  Grep.grep rounds fuel m pattern buf src = Some (out, err) -> done ++ out = total ->
  gwp (grep_fd fuel pattern buf fd m) (fun _ s => err = false /\ snd s = total) (src, done).
Proof.
  intros Hg Ht.
  apply (wp_iter _ _ _ (fun (i : mem * Z) s => exists rounds out,
    grep_loop rounds fuel (fst i) pattern buf (snd i) (fst s) = Some (out, err) /\ snd s ++ out = total)); [by exists rounds, out|].
  clear. intros [m n0] [src done] (rounds & out & Hg & Ht). cbn [fst snd] in *.
  assert (grep_inv (src, done)) as HI by (by eapply prefix_left). split; [done|].
  destruct rounds as [|rounds]; [done|]. cbn [grep_loop] in Hg. unfold grep_round. apply wp_call; [done|].
  intros r Hr. cbn [grep_env grep_next fst snd] in *. destruct (uread (BUFSZ - n0 - 1) src) as [r' src'] eqn:Hu. cbn [fst snd] in *. subst r'.
  split; [done|]. destruct r as [[|c0 c]|].
  - injection Hg as <- <-. rewrite app_nil_r in Ht. by apply wp_ret.
  - set (c1 := c0 :: c) in *. destruct (grep_lines fuel _ pattern buf) as [[[m' p] lines]|]; [|done]. cbn [mbind option_bind] in Hg.
    destruct (grep_loop rounds fuel _ pattern buf _ src') as [[out' e']|] eqn:Hl; [|done]. injection Hg as <- ->.
    apply wp_bind. eapply write_lines_run; [done|]. apply wp_ret; [unfold grep_inv; cbn [snd]; apply (prefix_left _ out'); by rewrite <- app_assoc|].
    exists rounds, out'. split; [done|]. cbn [snd]. by rewrite <- app_assoc.
  - injection Hg as <- <-. apply wp_bind, wp_fprintf; [done|done|]. by apply wp_exit.
Qed.
End GrepFd.

(** ** The shell *)

(** What the first read since the last prompt found: nothing, as at the end of
    the input, a nul byte, or another character. *)
Inductive line_start := NotRead | AtEnd | AtNul | HasText.

(** What happens in the process that started as the shell, or in a child of it:
    the open descriptors, whether an [open] has failed, whether the first
    prompt is out, changes of the descriptors and calls of [exec] after it,
    children not yet waited for, how the current line starts, failed forks, and
    the exit status. *)
Record sh_obs := ShObs {
  so_child : bool; so_fds : gset Z; so_nofile : bool; so_ready : bool; so_touched : bool; so_kids : nat;
  so_line : line_start; so_nofork : bool; so_exit : option Z }.

Definition opened (fd : Z) (s : sh_obs) : sh_obs :=
  if fd <? 0 then ShObs (so_child s) (so_fds s) true (so_ready s) (so_touched s) (so_kids s) (so_line s) (so_nofork s) (so_exit s)
  else ShObs (so_child s) ({[fd]} ∪ so_fds s) (so_nofile s) (so_ready s) (so_ready s || so_touched s) (so_kids s) (so_line s) (so_nofork s) (so_exit s).
Definition closed (fd : Z) (s : sh_obs) : sh_obs :=
  ShObs (so_child s) (so_fds s ∖ {[fd]}) (so_nofile s) (so_ready s) (so_ready s || so_touched s) (so_kids s) (so_line s) (so_nofork s) (so_exit s).
Definition touched (s : sh_obs) : sh_obs :=
  ShObs (so_child s) (so_fds s) (so_nofile s) (so_ready s) true (so_kids s) (so_line s) (so_nofork s) (so_exit s).
Definition prompted (s : sh_obs) : sh_obs :=
  ShObs (so_child s) (so_fds s) (so_nofile s) true (so_touched s) (so_kids s) NotRead (so_nofork s) (so_exit s).
Definition starts (r : option (list Z)) : line_start :=
  match r with Some (c :: _) => if c =? 0 then AtNul else HasText | _ => AtEnd end.
Definition was_read (r : option (list Z)) (s : sh_obs) : sh_obs :=
  ShObs (so_child s) (so_fds s) (so_nofile s) (so_ready s) (so_touched s) (so_kids s)
    (match so_line s with NotRead => starts r | l => l end) (so_nofork s) (so_exit s).
Definition forked (pid : Z) (s : sh_obs) : sh_obs :=
  ShObs (so_child s || (pid =? 0)) (so_fds s) (so_nofile s) (so_ready s) (so_touched s)
    (if pid >? 0 then S (so_kids s) else so_kids s) (so_line s) (so_nofork s || (pid <? 0)) (so_exit s).
Definition waited (s : sh_obs) : sh_obs :=
  ShObs (so_child s) (so_fds s) (so_nofile s) (so_ready s) (so_touched s) (pred (so_kids s)) (so_line s) (so_nofork s) (so_exit s).
Definition exited (st : Z) (s : sh_obs) : sh_obs :=
  ShObs (so_child s) (so_fds s) (so_nofile s) (so_ready s) (so_touched s) (so_kids s) (so_line s) (so_nofork s) (Some st).

Definition PROMPT : list Z := str "$ ".

Definition sh_next A (e : sysE A) : A -> sh_obs -> sh_obs :=
  match e in sysE A return A -> sh_obs -> sh_obs with
  | SOpen _ _ => opened
  | SClose fd => fun _ => closed fd
  | SDup _ => fun _ => touched
  | SPipe => fun _ => touched
  | SExec _ _ => fun _ => touched
  | SRead _ _ => was_read
  | SWrite _ l => fun _ s => if bool_decide (l = PROMPT) then prompted s else s
  | SFork => forked
  | SWait => fun _ => waited
  | SExit st => fun _ => exited st
  | _ => fun _ s => s
  end.
(** The kernel opens the lowest free descriptor, reads bytes, and answers
    [fork] with -1, 0 or a process. *)
Definition sh_env A (e : sysE A) : A -> sh_obs -> Prop :=
  match e in sysE A return A -> sh_obs -> Prop with
  | SOpen _ _ => fun r s => r < 0 \/ ((r ∉ so_fds s) /\ forall k, 0 <= k < r -> k ∈ so_fds s)
  | SRead _ _ => fun r s => match r with Some l => Forall (fun c => 0 <= c < 256) l | None => True end
  | SFork => fun r _ => -1 <= r
  | _ => fun _ _ => True
  end.

Definition three_open (s : sh_obs) : Prop := so_nofile s = true \/ forall k, 0 <= k < 3 -> k ∈ so_fds s.
Definition sh_inv (s : sh_obs) : Prop :=
  so_child s = true \/
  ((so_kids s <= 1)%nat /\ so_touched s = false /\ (so_ready s = true -> three_open s)
   /\ forall st, so_exit s = Some st -> (st = 0 /\ (so_line s = AtEnd \/ so_line s = AtNul)) \/ (st = 1 /\ so_nofork s = true)).
Abbreviation swp := (wp sh_env sh_next sh_inv).

(** *** Children *)

Lemma child_stays {A} (e : sysE A) a s : so_child s = true -> so_child (sh_next _ e a s) = true.
Proof.
  intros Hc. destruct e; cbn [sh_next]; try done.
  - unfold forked. cbn. by rewrite Hc.
  - by destruct (bool_decide (bytes = PROMPT)).
  - unfold opened. by destruct (a <? 0).
Qed.
Lemma child_call {A B} (e : sysE A) (k : A -> itree sysE B) Q s :
  so_child s = true -> (forall a s', so_child s' = true -> swp (k a) Q s') -> swp (ITree.bind (sys e) k) Q s.
Proof. intros Hc Hk. apply wp_call; [by left|]. intros a _. pose proof (child_stays e a s Hc). split; [by left|auto]. Qed.
Lemma child_exit {B} st (Q : B -> sh_obs -> Prop) s : so_child s = true -> swp (exit st) Q s.
Proof. intros Hc. apply wp_exit; [by left|]. intros a _. left. by apply (child_stays (SExit st) a). Qed.
Lemma print_next c fd (w : Z) s : sh_next _ (SWrite fd [c]) w s = s.
Proof. cbn [sh_next]. by rewrite bool_decide_false. Qed.
Lemma child_print {B} fd out (k : () -> itree sysE B) Q s :
  so_child s = true -> swp (k tt) Q s -> swp (ITree.bind (fprintf fd out) k) Q s.
Proof. intros Hc Hk. apply wp_bind, wp_fprintf; [by left|intros; apply print_next|done]. Qed.
Lemma child_fail {B} fd out (Q : B -> sh_obs -> Prop) s : so_child s = true -> swp (fail fd out) Q s.
Proof. intros Hc. apply child_print; [done|]. by apply child_exit. Qed.

Lemma perform_child {B} fuel m p (Q : B -> sh_obs -> Prop) : forall s, so_child s = true -> swp (perform fuel m p) Q s.
Proof.
  induction p as [st|b w a|argv p IH|fd p IH|file mode p1 IH1 p2 IH2|fd p IH|ok IH1 p IH2|p1 IH1 p2 IH2 p3 IH3|p IH]; intros s Hc; cbn [perform].
  - by apply child_exit.
  - by apply child_fail.
  - apply child_call; auto.
  - apply child_call; auto.
  - apply child_call; [done|]. intros r s' Hc'. destruct (r <? 0); auto.
  - apply child_call; auto.
  - apply child_call; [done|]. intros [[r w]|] s' Hc'; auto.
  - apply child_call; [done|]. intros r s' Hc'. destruct (r =? -1); [auto|]. destruct (r =? 0); auto.
  - apply child_call; auto.
Qed.
Lemma sh_child_run {B} fuel m cmd (Q : B -> sh_obs -> Prop) s : so_child s = true -> swp (sh_child fuel m cmd) Q s.
Proof.
  intros Hc. unfold sh_child. assert (forall t : itree sysE B, t = ITree.spin -> swp t Q s) as Hspin by (intros t ->; apply wp_spin; by left).
  destruct (Ulib.ustrlen fuel m cmd) as [n|]; [|by apply Hspin]. cbv zeta.
  match goal with |- context [match ?o with Ret _ _ => _ | _ => _ end] => destruct o as [[c s0] s1|msg|s1|] end; [|by apply child_fail|by apply Hspin..].
  destruct (negb (s0 =? cmd + n)); [|by apply perform_child]. apply child_print; [done|]. by apply child_fail.
Qed.

(** *** The shell itself *)

(** The shell between two commands. *)
Record calm (s : sh_obs) : Prop := {
  ca_child : so_child s = false; ca_kids : so_kids s = 0%nat; ca_touched : so_touched s = false; ca_exit : so_exit s = None;
  ca_three : so_ready s = true -> three_open s }.

Lemma calm_inv s : calm s -> sh_inv s.
Proof. intros [H1 H2 H3 H4 H5]. right. rewrite H2, H3, H4. split_and!; [lia|done|done|done]. Qed.
Lemma calm_read r s : calm s -> calm (was_read r s).
Proof. by intros []. Qed.
Lemma shell_print {B} fd out (k : () -> itree sysE B) Q s : calm s -> swp (k tt) Q s -> swp (ITree.bind (fprintf fd out) k) Q s.
Proof. intros Hc Hk. apply wp_bind, wp_fprintf; [by apply calm_inv|intros; apply print_next|done]. Qed.

Lemma open_console_run s : calm s -> so_ready s = false -> swp open_console (fun _ s' => calm s' /\ three_open s') s.
Proof.
  intros Hc Hr. apply (wp_iter _ _ _ (fun _ s => calm s /\ so_ready s = false)); [done|]. clear. intros _ s [Hc Hr].
  split; [by apply calm_inv|]. apply wp_call; [by apply calm_inv|]. intros fd He. cbn [sh_env sh_next] in *. unfold opened.
  destruct Hc as [C1 C2 C3 C4 C5]. destruct (Z.ltb_spec fd 0).
  - assert (calm (ShObs (so_child s) (so_fds s) true (so_ready s) (so_touched s) (so_kids s) (so_line s) (so_nofork s) (so_exit s))) as Hc' by (split; try done; by left).
    split; [by apply calm_inv|]. assert ((fd >=? 0) = false) as -> by lia. apply wp_ret; [by apply calm_inv|]. split_and!; [by apply calm_inv|done|by left].
  - assert ((fd >=? 0) = true) as -> by lia. destruct He as [?|[Hn Hl]]; [lia|].
    assert (forall F, calm (ShObs (so_child s) F (so_nofile s) (so_ready s) (so_ready s || so_touched s) (so_kids s) (so_line s) (so_nofork s) (so_exit s))) as Hc'.
    { intros F. split; try done; [by rewrite Hr, C3|]. cbn. by rewrite Hr. }
    split; [by apply calm_inv|]. destruct (Z.geb_spec fd 3).
    + apply wp_call; [by apply calm_inv|]. intros ? _. cbn [sh_next]. unfold closed. cbn. rewrite Hr, C3. cbn.
      rewrite Hr, C3 in Hc'. split; [by apply calm_inv|]. apply wp_ret; [by apply calm_inv|]. split_and!; [by apply calm_inv|done|].
      right. cbn. intros k Hk. specialize (Hl k ltac:(lia)). set_solver by lia.
    + apply wp_ret; [by apply calm_inv|]. split; [by apply Hc'|done].
Qed.

(** The first character read stays at the front of the line. *)
Definition line_ends (s : sh_obs) : Prop := so_line s = AtEnd \/ so_line s = AtNul.
Lemma gets_from_run buf left : forall m i s,
  calm s -> three_open s -> (0 < left)%nat \/ 0 < i ->
  (i = 0 /\ so_line s = NotRead) \/ (0 < i /\ so_line s <> NotRead /\ (m buf = 0 -> line_ends s)) ->
  swp (gets_from buf left m i) (fun m' s' => calm s' /\ three_open s' /\ (m' buf = 0 -> line_ends s')) s.
Proof.
  induction left as [|left IH]; intros m i s Hc H3 Hl Hm; cbn [gets_from].
  - destruct Hm as [[-> _]|(Hi & _ & Hm)]; [lia|].
    apply wp_ret; [by apply calm_inv|]. split_and!; [done..|]. unfold store8. destruct (Z.eqb_spec buf (buf + i)); [lia|]. apply Hm.
  - apply wp_call; [by apply calm_inv|]. intros r He. cbn [sh_env sh_next] in *.
    pose proof (calm_read r s Hc) as Hc'. assert (three_open (was_read r s)) as H3' by done. split; [by apply calm_inv|].
    destruct r as [[|c l]|].
    1,3: (apply wp_ret; [by apply calm_inv|]; split_and!; [done..|]; intros Hz; destruct Hm as [[-> Hn]|(Hi & Hn & Hm)];
      [left; cbn; by rewrite Hn|unfold line_ends; cbn; unfold store8 in Hz; destruct (Z.eqb_spec buf (buf + i)); [lia|];
        destruct (Hm Hz) as [-> | ->]; auto]).
    apply Forall_cons in He as [Hb _]. set (s' := was_read (Some (c :: l)) s) in *.
    assert (so_line s' <> NotRead /\ (store8 m (buf + i) c buf = 0 -> line_ends s')) as [Hn' Hm'].
    { unfold store8, s', line_ends. cbn. destruct Hm as [[-> Hn]|(Hi & Hn & Hm)].
      - rewrite Hn. split; [by destruct (c =? 0)|]. destruct (Z.eqb_spec buf (buf + 0)); [|lia]. rewrite u8_small by lia. intros ->. auto.
      - split; [by destruct (so_line s)|]. destruct (Z.eqb_spec buf (buf + i)); [lia|]. intros Hz. destruct (Hm Hz) as [-> | ->]; auto. }
    assert (0 <= i) as Hi by (destruct Hm as [[-> _]|[? _]]; lia).
    destruct ((c =? 10) || (c =? 13)).
    + apply wp_ret; [by apply calm_inv|]. split_and!; [done..|]. unfold store8 at 1. destruct (Z.eqb_spec buf (buf + (i + 1))); [lia|]. done.
    + apply IH; [done|done|lia|]. right. split_and!; [lia|done|done].
Qed.

Lemma read_cmd_run buf m s :
  calm s -> three_open s ->
  swp (read_cmd buf m) (fun r s' => calm s' /\ three_open s' /\ (snd r = true -> line_ends s')) s.
Proof.
  intros Hc H3. apply wp_call; [by apply calm_inv|]. intros w _. cbn [sh_next].
  assert (calm (prompted s)) as Hc' by (destruct Hc; by split). rewrite bool_decide_true by done. split; [by apply calm_inv|].
  apply wp_bind. eapply wp_mono; [apply (gets_from_run buf); [done|done|left; vm_compute; lia|by left]|].
  intros m' s' (H1 & H2 & H4). apply wp_ret; [by apply calm_inv|]. split_and!; [done..|]. cbn [snd]. rewrite Z.eqb_eq. done.
Qed.

Lemma sh_round_run fuel buf m s :
  calm s -> three_open s ->
  swp (sh_round fuel buf m) (fun r s' => calm s' /\ three_open s' /\ match r with inl _ => True | inr _ => line_ends s' end) s.
Proof.
  intros Hc H3. apply wp_bind. eapply wp_mono; [by apply read_cmd_run|]. clear. intros [m eof] s (Hc & H3 & He). cbn [snd] in He.
  destruct eof; [apply wp_ret; [by apply calm_inv|auto]|].
  destruct (main_line fuel m buf) as [[|m' path|cmd]|]; [by apply wp_ret; [apply calm_inv|]| | |by apply wp_spin, calm_inv].
  - apply wp_call; [by apply calm_inv|]. intros r _. cbn [sh_next]. split; [by apply calm_inv|]. apply wp_bind.
    eapply (wp_mono _ _ _ _ (fun _ s' => s' = s)).
    + destruct (r <? 0); [|by apply wp_ret; [apply calm_inv|]]. apply wp_fprintf; [by apply calm_inv|intros; apply print_next|done].
    + intros _ s' ->. by apply wp_ret; [apply calm_inv|].
  - apply wp_call; [by apply calm_inv|]. intros pid Hp. cbn [sh_env sh_next] in *. destruct Hc as [C1 C2 C3 C4 C5].
    destruct (Z.eqb_spec pid (-1)) as [->|].
    + assert (calm (forked (-1) s)) as Hc' by (split; try done; by cbn; rewrite C1). split; [by apply calm_inv|].
      apply shell_print; [done|]. apply wp_exit; [by apply calm_inv|]. intros ? _. destruct Hc' as [D1 D2 D3 D4 D5]. right. cbn.
      split_and!; [by rewrite C2; lia|done|done|]. intros st [= <-]. right. split; [done|]. by rewrite orb_true_r.
    + destruct (Z.eqb_spec pid 0) as [->|].
      * assert (so_child (forked 0 s) = true) as Hk by (cbn; by rewrite orb_true_r). split; [by left|]. by apply sh_child_run.
      * assert (sh_inv (forked pid s)) as HI.
        { right. cbn. rewrite C2, C3, C4. split_and!; [by destruct (pid >? 0); lia|done|done|done]. }
        split; [done|]. apply wp_call; [done|]. intros r _. cbn [sh_next].
        assert (calm (waited (forked pid s))) as Hc'.
        { split; cbn; rewrite ?C1, ?C2; try done; [by destruct (Z.eqb_spec pid 0)|by destruct (pid >? 0)]. }
        split; [by apply calm_inv|]. by apply wp_ret; [apply calm_inv|].
Qed.

(** C37: The shell survives whatever it is given to read.  In every state of a
    run that starts with some descriptors open and is not in a child, it has at
    most one child, has not called exec, and has not changed its descriptors
    since the first prompt; 0, 1 and 2 are open by then unless the console
    could not be opened; and it exits only with status 0, when the first read
    after a prompt has found the end of the input or a nul byte (a line that
    starts with one looks like the end of the input to [getcmd]), or with
    status 1, when fork has failed.  A line that is no command, or whose
    command fails, ends a child and not the shell.  Its main program never
    returns. *)
Theorem shell_survives fuel buf m F n t s :
  runs sh_env sh_next n (observe (sh_main fuel buf m)) (ShObs false F false false false 0 NotRead false None) t s ->
  sh_inv s /\ forall r, t <> RetF r.
Proof.
  intros Hr. assert (swp (sh_main fuel buf m) (fun _ _ => False) (ShObs false F false false false 0 NotRead false None)) as W.
  { unfold sh_main. apply wp_bind. eapply wp_mono; [by apply open_console_run|]. intros _ s1 [Hc H3]. apply wp_bind.
    eapply (wp_mono _ _ _ _ (fun _ s => calm s /\ line_ends s)).
    - apply (wp_iter _ _ _ (fun _ s => calm s /\ three_open s)); [done|]. clear. intros m s [Hc H3]. split; [by apply calm_inv|].
      eapply wp_mono; [by apply sh_round_run|]. intros [m'|[]] s' (Hc' & H3' & He); [done|]. split; [by apply calm_inv|done].
    - clear. intros _ s [Hc He]. apply wp_exit; [by apply calm_inv|]. intros ? _. destruct Hc as [C1 C2 C3 C4 C5]. right. cbn.
      split_and!; [lia|done|done|]. intros st [= <-]. by left. }
  destruct (W n n t s (le_n n) Hr) as [HI HQ]. split; [done|]. intros r E. by apply (HQ r E).
Qed.

Ltac member := apply (bool_decide_unpack _); vm_compute; exact I.
Ltac lowest fd :=
  exists fd; split; [right; split; [member|intros k ?; assert (k = 0 \/ k = 1 \/ k = 2) as [->|[->| ->]] by lia; first [lia|member]]|].

(** A shell without descriptors reads a left parenthesis, which is no command,
    then the end of its input. *)
Lemma shell_survives_witness :
  exists t s, runs sh_env sh_next 17 (observe (sh_main 100 4096 (fun _ => 0))) (ShObs false ∅ false false false 0 NotRead false None) t s
    /\ so_exit s = Some 0 /\ sh_inv s.
Proof.
  assert (exists t s, runs sh_env sh_next 17 (observe (sh_main 100 4096 (fun _ => 0))) (ShObs false ∅ false false false 0 NotRead false None) t s
    /\ so_exit s = Some 0) as (t & s & Hr & He).
  { do 2 eexists. split.
    - lowest 0. lowest 1. lowest 2. lowest 3. exists 0; split; [exact I|]. exists 2; split; [exact I|].
      exists (Some [40]); split; [repeat constructor; lia|]. exists (Some [10]); split; [repeat constructor; lia|]. 
      exists 5; split; [simpl; lia|]. exists (5, 1); split; [exact I|]. exists 2; split; [exact I|]. 
      exists None; split; [exact I|]. exists tt; split; [exact I|]. split; [reflexivity|reflexivity].
    - vm_compute. reflexivity. }
  exists t, s. split; [exact Hr|]. split; [exact He|]. apply (shell_survives 100 4096 (fun _ => 0) ∅ 17 t s Hr).
Defined.
